(* ===== verification/_CoqProject ===== *)
-Q . S2P
Prelude.v
Param.v
Mem.v
CString.v
Kernel.v
Spinlock.v
Kalloc.v
Sched.v
Sleeplock.v
Bio.v
BioRules.v
Log.v
Txn.v
Vm.v
PageTable.v
UserCopy.v
FreeVm.v
ForkVm.v
Uart.v
Printf.v
Fs.v
Bitmap.v
Console.v
ConsoleLine.v
Balloc.v
Blockmap.v
Path.v
Inode.v
Contents.v
Writei.v
FileOps.v
Dir.v
Namei.v
Trunc.v
Ialloc.v
Tree.v
Pipe.v
PipeQueue.v
File.v
Proc.v
Spawn.v
Fork.v
Reap.v
Exec.v
Syscall.v
Create.v
Refs.v
Virtio.v
VirtioReq.v
Trap.v
Preempt.v
User.v
Ulib.v
Utils.v
Grep.v
Grind.v
Umalloc.v
Freelist.v
Tests.v
Usertests.v
Sh.v
ShGrammar.v
Mkfs.v
