(* ===== verification/Prelude.v ===== *)
(** * xv6 for the 6.1810 labs: a verification library

    The program is the teaching operating system xv6 for RISC-V as extended in
    the 2022 labs ([trace], [sysinfo]): a kernel in C, the user programs, and
    the tool that makes the initial disk image.  This library translates that
    code into Rocq definitions and proves theorems about them.  All paths
    below are under src/xv6-labs-2022/.

    ** How the code is modelled

    - Memory.  RAM is one map from addresses to bytes ([Mem]); pages, page
      tables, pipes, trap frames and the disk rings live in it as in the code,
      with little-endian loads and stores.  A pointer is an address.  Machine
      integers are [Z] with the reductions [u8], [u16], [u32], [u64], [s16],
      [s32] written where the code can leave the range.
    - Kernel state.  [Kernel.kst] is one record with the kernel's globals:
      harts, locks, processes, buffers, the log, inodes, open files, console,
      serial port and so on.  The arrays of structures are lists, a pointer to
      an element is its index.
    - Kernel code.  A kernel function is a function on states that returns
      ([Ret]), panics ([Panic]), never ends in a [for(;;);] ([Spin]), or gives
      up the CPU in [swtch] ([Swtch], with the rest of the thread as a
      continuation).  [NoFuel] is the model's own: the fuel of a loop ran out.
    - Devices.  The disk is reached through the class [Disk] with its law
      [DiskOk]; a device register answers with a function of the accesses made
      so far ([Devices]), and every access is recorded.
    - The linker's symbols are the class [Linker], with the order and
      alignment the code relies on in [LinkerOk].
    - User programs.  A program is an interaction tree over system calls with
      its own memory ([User.U]); a kernel, as a process sees it, is any
      function that answers the calls, and [FileOs] states what programs that
      copy bytes rely on.  Loops are [ITree.iter], so there is no fuel.

    ** Files

    - [Prelude]: tactics, machine integers, byte strings, lists.
    - [Param]: constants and macros of kernel/param.h, riscv.h, memlayout.h,
      fs.h.  [Mem]: memory.  [CString]: kernel/string.c.
    - [Kernel]: the structures of proc.h, buf.h, file.h, fs.h, log.c,
      console.c, uart.c, virtio_disk.c; the state and the monad.
    - [Spinlock]: spinlock.c and the interrupt nesting, for one hart; its
      module [Harts] interleaves the memory accesses of any number of harts.
    - [Kalloc]: kalloc.c.  [Sched]: sched, yield, sleep, wakeup, kill and the
      scheduler of proc.c.  [Sleeplock]: sleeplock.c.
    - [Bio], [BioRules]: bio.c and the rules its clients use.  [Log]: log.c;
      [Txn]: what a program between [begin_op] and [end_op] relies on.
    - [Vm]: vm.c; [PageTable], [UserCopy], [FreeVm], [ForkVm]: theorems on page
      tables, on the copies between kernel and user memory, on [uvmfree] and
      on [uvmcopy].
    - [Uart], [Printf], [Console]: uart.c, printf.c, console.c, procdump;
      [ConsoleLine]: the line discipline.
    - [Fs]: fs.c; [Bitmap], [Balloc]: theorems on the free map and the block
      allocator; [Path], [Inode]: on path names and inodes; [Blockmap],
      [Contents], [Writei], [FileOps]: on the blocks of a file, on [readi] and
      [writei], and on writes as transactions; [Dir], [Namei]: on directories
      and path lookup; [Trunc], [Ialloc]: on [itrunc], the last [iput] and
      [ialloc]; [Tree]: on what a change of one directory leaves of the others.
    - [Pipe]: pipe.c; [PipeQueue]: pipes as queues.  [File]: file.c.
    - [Proc]: the rest of proc.c; [Spawn], [Fork], [Reap]: theorems on process
      creation and on [wait].
    - [Exec]: exec.c.  [Syscall]: syscall.c, sysproc.c, sysfile.c; [Create]:
      theorems on [create]; [Refs]: the reference counts of open files.
    - [Virtio]: virtio_disk.c; [VirtioReq]: a request.  [Trap]: trap.c, plic.c,
      start.c, main.c and the CSR accessors of riscv.h; [Preempt]: the timer
      interrupt.
    - [User]: system calls as events, programs, and what it means for a
      program to end; [Ulib]: user/ulib.c and printf.c; [Utils]: cat, wc,
      echo, kill, ln, mkdir, rm, zombie, trace, ls, init; [Grep], [Grind],
      [Umalloc], [Sh]: the programs of those names; [Freelist]: theorems on
      the heap of [Umalloc]; [ShGrammar]: the shell's language; [Tests]:
      forktest, stressfs, sysinfotest; [Usertests]: usertests.c.  [Mkfs]:
      mkfs/mkfs.c.

    ** What the theorems show

    - Crash safety: a transaction through [begin_op], [log_write], [end_op] is
      atomic at every point where the power may fail, and recovery may itself
      be interrupted ([Log]).  Every program between [begin_op] and [end_op]
      inherits this ([Txn]), a [writei] among them ([FileOps]).
    - Refinement: the buffer cache is a plain array of blocks ([Bio]), the
      ring buffer of a pipe is a bounded queue ([PipeQueue]), the console is a
      line editor ([ConsoleLine]).
    - Mutual exclusion of the spin lock over all interleavings, and that it
      does not deadlock ([Spinlock.Harts]); sleep, wakeup and the turn of a
      process at the CPU ([Sched], [Sleeplock]).
    - Memory: pages are conserved by the allocator ([Kalloc]); page tables
      map and unmap exactly what they should ([PageTable]); what [copyout]
      writes [copyin] reads back ([UserCopy]); [uvmfree] gives back exactly
      the pages and the tables of an address space ([FreeVm]).
    - Files: what was written is read back and nothing else changes, with a
      bound on the blocks logged ([Writei], [FileOps]); the block allocator is
      first fit ([Balloc]); a directory is a finite map from names to inode
      numbers that [dirlookup] reads and [dirlink] extends ([Dir]); [namex]
      finds what a path leads to in the graph of directories and leaves every
      other reference count and lock as it was ([Namei]); truncation and the
      last [iput] of an unlinked file give back exactly its blocks ([Trunc]);
      the inode allocator is first fit ([Ialloc]); [create] of a file or a
      device adds one name to the tree, whose old paths lead where they did,
      and takes everything back when the disk is full ([Create], [Tree]).
    - File system structures: path names, inodes on disk and in the table, the
      bitmap, which [Mkfs] and the kernel see alike ([Path], [Inode],
      [Bitmap], [Mkfs]).
    - Process creation, and a flaw in it that [kill(0)] reaches ([Spawn]);
      [fork] makes a copy of its caller, memory, files and registers, and
      leaves the caller alone ([Fork], [ForkVm]); when memory runs out in it,
      in [allocproc] or in the copy, it gives back all it took, and [wait]
      reaps a child completely ([Reap]); the counts of open files are exact
      ([Refs]).
    - Devices: a disk request builds the chain the device expects and leaves
      no descriptor behind ([VirtioReq]); the timer preempts kernel code
      without changing where it resumes ([Preempt]).
    - The user-level allocator hands out disjoint blocks, loses nothing and
      keeps its list sorted and joined; requests near 4 GB break it
      ([Freelist]).
    - User programs: [grep] prints exactly the lines in which the pattern
      occurs, and its matcher decides the language of the pattern; [cat] and
      [wc] do their work for every way the kernel splits their input; the
      shell's parser ends, stays inside the line, reads every line of its
      grammar as the command it stands for and refuses every other ([Sh],
      [ShGrammar]); numbers printed are read
      back; the random numbers of [grind] are those of Park and Miller;
      [forktest] passes on every kernel that runs out of processes ([Tests]).

    Where a theorem needs a resource to be free or memory to be available, it
    says so in its hypotheses; the witness after it shows a state where they
    hold.

    ** Fuel and bounds

    Loops counted by a number recurse on it.  Loops over the disk, the page
    tables and the log have fuel computed from their sizes ([mappages_fuel],
    [copy_fuel], [lh_fuel]), and the theorems that such a function returns
    show that it is enough.  A thread that waits is given [wakeups] = 1000
    chances to find its condition false, and a polled register [polls] = 1000
    reads; theorems about waiting cover the first sleep and the resumption.
    The shell's parser has fuel four times the length of the line plus eight,
    which is proved to be enough.

    ** Not modelled

    - The assembly files, which save and restore registers and switch modes:
      [swtch] is an outcome of the monad, the trampoline ends the kernel's turn.
    - kernel/ramdisk.c, which is not compiled in.
    - The tests of usertests.c that pass invalid pointers or touch memory the
      process does not have: a user program's memory is total in the model.
    - In the shell, the allocation of command structures with [malloc]: a
      command is a tree, and what is proved of the parser is about the line and
      the tree, not about the heap or the system calls [malloc] makes.
    - Simultaneous execution of two harts, except for the spin lock: one
      thread's view between its switches is modelled, with what other threads
      may have done in between as part of the state it resumes in.

    ** Definitions without theorems of their own

    Every operation is a definition; some have no specification yet: [exit],
    [exec], [create] of a directory, [unlink] and [link], and the contents of
    the image that mkfs writes as a whole. *)

From Stdlib Require Export ZArith Lia.
From stdpp Require Export base strings numbers gmap.
From stdpp Require Export list.
Open Scope Z_scope.

(** ** Tactics and hint databases shared by every file *)

(** Lemmas that compute loads after stores. *)
Create HintDb mem.
(** Lemmas that run the kernel monad one call further. *)
Create HintDb krun.

(** [lia] after division and remainder by literals became equations. *)
Ltac zlia := Z.to_euclidean_division_equations; lia.

(** Split every boolean comparison of the goal and of the hypotheses. *)
Ltac zcases :=
  repeat match goal with
  | |- context [Z.eqb ?a ?b] => destruct (Z.eqb_spec a b)
  | |- context [Z.ltb ?a ?b] => destruct (Z.ltb_spec a b)
  | |- context [Z.leb ?a ?b] => destruct (Z.leb_spec a b)
  | |- context [Nat.eqb ?a ?b] => destruct (Nat.eqb_spec a b)
  end.

(** Case on the innermost [if] or [match] of a hypothesis. *)
Ltac hcase H :=
  match type of H with
  | context [match ?x with _ => _ end] =>
    lazymatch x with
    | context [match _ with _ => _ end] => fail
    | _ => let E := fresh "E" in destruct x eqn:E
    end
  end.

(** ** Machine integers

    A w-bit unsigned integer is its value in [0, 2^w); every operation of
    the source that can leave that range is followed by the matching
    reduction. *)

Definition u8 (x : Z) : Z := x mod 2 ^ 8.
Definition u16 (x : Z) : Z := x mod 2 ^ 16.
Definition u32 (x : Z) : Z := x mod 2 ^ 32.
Definition u64 (x : Z) : Z := x mod 2 ^ 64.

(** Conversion to a signed 32-bit [int]. *)
Definition s32 (x : Z) : Z := (x + 2 ^ 31) mod 2 ^ 32 - 2 ^ 31.
(** Conversion to a signed 16-bit [short]. *)
Definition s16 (x : Z) : Z := (x + 2 ^ 15) mod 2 ^ 16 - 2 ^ 15.

Ltac uns := unfold u8, u16, u32, u64, s32, s16 in *.

Lemma u8_range x : 0 <= u8 x < 256.
Proof. uns. apply Z.mod_pos_bound. lia. Qed.
Lemma u32_range x : 0 <= u32 x < 2 ^ 32.
Proof. uns. apply Z.mod_pos_bound. lia. Qed.
Lemma u64_range x : 0 <= u64 x < 2 ^ 64.
Proof. uns. apply Z.mod_pos_bound. lia. Qed.
Lemma u8_small x : 0 <= x < 256 -> u8 x = x.
Proof. intros. uns. apply Z.mod_small. lia. Qed.
Lemma u32_small x : 0 <= x < 2 ^ 32 -> u32 x = x.
Proof. intros. uns. apply Z.mod_small. lia. Qed.
Lemma u64_small x : 0 <= x < 2 ^ 64 -> u64 x = x.
Proof. intros. uns. apply Z.mod_small. lia. Qed.
Lemma s32_small x : - 2 ^ 31 <= x < 2 ^ 31 -> s32 x = x.
Proof. intros. uns. rewrite Z.mod_small; lia. Qed.
Lemma s32_range x : - 2 ^ 31 <= s32 x < 2 ^ 31.
Proof. uns. pose proof (Z.mod_pos_bound (x + 2 ^ 31) (2 ^ 32)). lia. Qed.

(** Clearing the low [n] bits rounds down to a multiple of [2 ^ n]. *)
Lemma land_lnot_ones a n :
  0 <= n -> Z.land a (Z.lnot (Z.ones n)) = a - a mod 2 ^ n.
Proof.
  intros Hn. rewrite <- Z.ldiff_land, Z.ldiff_ones_r by lia.
  rewrite Z.shiftl_mul_pow2, Z.shiftr_div_pow2 by lia.
  pose proof (Z.div_mod a (2 ^ n)). nia.
Qed.

(** Bits at or above [n] of a number below [2 ^ n] are zero. *)
Lemma testbit_high b n i : 0 <= b < 2 ^ n -> 0 <= n <= i -> Z.testbit b i = false.
Proof.
  intros Hb Hn. destruct (decide (b = 0)) as [->|]; [apply Z.bits_0|].
  apply Z.bits_above_log2; [lia|]. apply Z.log2_lt_pow2; [lia|].
  assert (2 ^ n <= 2 ^ i) by (apply Z.pow_le_mono_r; lia). lia.
Qed.

(** An or below the shifted part is an addition. *)
Lemma lor_shiftl_add a b n :
  0 <= n -> 0 <= b < 2 ^ n -> Z.lor (Z.shiftl a n) b = a * 2 ^ n + b.
Proof.
  intros Hn Hb. rewrite <- (Z.shiftl_mul_pow2 a n) by lia.
  symmetry. apply Z.add_nocarry_lor, Z.bits_inj'. intros i Hi.
  rewrite Z.land_spec, Z.bits_0. destruct (Z.ltb_spec i n).
  - by rewrite Z.shiftl_spec_low.
  - rewrite (testbit_high b n i) by lia. apply andb_false_r.
Qed.

(** ** Little-endian byte strings *)

Definition bytes_ok (l : list Z) : Prop := Forall (fun b => 0 <= b < 256) l.

(** The bytes of an ASCII string literal. *)
Fixpoint bytes_of (s : string) : list Z :=
  match s with
  | EmptyString => []
  | String c s => Z.of_N (Ascii.N_of_ascii c) :: bytes_of s
  end.

Fixpoint le_bytes (n : nat) (x : Z) : list Z :=
  match n with
  | O => []
  | S n => x mod 256 :: le_bytes n (x / 256)
  end.

Fixpoint le_val (l : list Z) : Z :=
  match l with
  | [] => 0
  | b :: l => b + 256 * le_val l
  end.

Lemma length_le_bytes n x : length (le_bytes n x) = n.
Proof. revert x; induction n; simpl; auto. Qed.

Lemma le_bytes_ok n x : bytes_ok (le_bytes n x).
Proof.
  unfold bytes_ok. revert x; induction n; simpl; intros; constructor; auto.
  apply Z.mod_pos_bound. lia.
Qed.

Lemma le_val_le_bytes n x : le_val (le_bytes n x) = x mod 256 ^ Z.of_nat n.
Proof.
  revert x; induction n as [|n IH]; intros x; simpl le_bytes; simpl le_val.
  - by rewrite Z.mod_1_r.
  - rewrite IH, Nat2Z.inj_succ, Z.pow_succ_r by lia.
    rewrite Z.rem_mul_r by lia. lia.
Qed.

Lemma le_val_range l : bytes_ok l -> 0 <= le_val l < 256 ^ Z.of_nat (length l).
Proof.
  induction 1 as [|b l Hb Hl IH]; simpl; [lia|].
  rewrite Nat2Z.inj_succ, Z.pow_succ_r by lia. lia.
Qed.

Lemma le_bytes_le_val l : bytes_ok l -> le_bytes (length l) (le_val l) = l.
Proof.
  induction 1 as [|b l Hb Hl IH]; simpl; [done|]. f_equal.
  - rewrite Z.mul_comm, Z_mod_plus_full. apply Z.mod_small. lia.
  - rewrite Z.mul_comm, Z.div_add, Z.div_small, Z.add_0_l by lia. done.
Qed.

(** ** Lists *)

Lemma filter_all {A} (P : A -> Prop) `{forall x, Decision (P x)} (l : list A) :
  Forall P l -> filter P l = l.
Proof. induction 1; [done|]. rewrite filter_cons, decide_True by done. by f_equal. Qed.

Lemma filter_none {A} (P : A -> Prop) `{forall x, Decision (P x)} (l : list A) :
  Forall (fun x => ~ P x) l -> filter P l = [].
Proof. induction 1; [done|]. by rewrite filter_cons, decide_False. Qed.

(** A field of a structure inside a byte array. *)
Definition slice (off n : nat) (l : list Z) : list Z := take n (drop off l).
Definition splice (off : nat) (bs l : list Z) : list Z :=
  take off l ++ bs ++ drop (off + length bs) l.

Lemma length_splice off bs l :
  (off + length bs <= length l)%nat -> length (splice off bs l) = length l.
Proof. intros H. unfold splice. rewrite !length_app, length_take, length_drop. lia. Qed.

Lemma slice_splice off bs l :
  (off + length bs <= length l)%nat -> slice off (length bs) (splice off bs l) = bs.
Proof.
  intros H. unfold slice, splice. rewrite drop_app_length' by (rewrite length_take; lia).
  by rewrite take_app_length.
Qed.

Lemma slice_splice_ne off bs l off' n :
  (off + length bs <= length l)%nat -> (off' + n <= off \/ off + length bs <= off')%nat ->
  slice off' n (splice off bs l) = slice off' n l.
Proof.
  intros H D. unfold slice. apply list_eq. intros i.
  destruct (decide (i < n)%nat); [|by rewrite !lookup_take_ge by lia].
  rewrite !lookup_take_lt, !lookup_drop by lia. unfold splice.
  destruct (decide (off' + i < off)%nat).
  - rewrite lookup_app_l by (rewrite length_take; lia). by rewrite lookup_take_lt by lia.
  - rewrite lookup_app_r by (rewrite length_take; lia).
    rewrite lookup_app_r by (rewrite length_take; lia). rewrite lookup_drop, length_take.
    f_equal. lia.
Qed.

(** 32-bit fields. *)
Definition get32 (off : Z) (l : list Z) : Z := le_val (slice (Z.to_nat off) 4 l).
Definition put32 (off v : Z) (l : list Z) : list Z := splice (Z.to_nat off) (le_bytes 4 v) l.

Lemma length_put32 off v l :
  0 <= off -> off + 4 <= Z.of_nat (length l) -> length (put32 off v l) = length l.
Proof. intros. apply length_splice. rewrite length_le_bytes. lia. Qed.

Lemma get32_put32 off v l :
  0 <= off -> off + 4 <= Z.of_nat (length l) -> get32 off (put32 off v l) = u32 v.
Proof.
  intros. unfold get32, put32.
  pose proof (slice_splice (Z.to_nat off) (le_bytes 4 v) l) as E. rewrite length_le_bytes in E.
  rewrite E by lia. by rewrite le_val_le_bytes.
Qed.

Lemma get32_put32_ne off off' v l :
  0 <= off -> 0 <= off' -> off + 4 <= Z.of_nat (length l) -> (off' + 4 <= off \/ off + 4 <= off') ->
  get32 off' (put32 off v l) = get32 off' l.
Proof.
  intros. unfold get32, put32. f_equal. apply slice_splice_ne; rewrite length_le_bytes; lia.
Qed.
