(* ===== verification/Param.v ===== *)
(** * Constants and address macros

    [kernel/param.h], [kernel/memlayout.h], the paging part of
    [kernel/riscv.h] and the on-disk constants of [kernel/fs.h], with the
    arithmetic facts the components use. *)

From S2P Require Import Prelude.
Open Scope Z_scope.

(** ** kernel/param.h *)
Definition NPROC : nat := 64.
Definition NCPU : nat := 8.
Definition NOFILE : nat := 16.
Definition NFILE : nat := 100.
Definition NINODE : nat := 50.
Definition NDEV : Z := 10.
Definition ROOTDEV : Z := 1.
Definition MAXARG : Z := 32.
Definition MAXOPBLOCKS : Z := 10.
Definition LOGSIZE : Z := MAXOPBLOCKS * 3.
Definition NBUF : nat := 30.
Definition FSSIZE : Z := 2000.
Definition MAXPATH : Z := 128.

(** ** kernel/riscv.h, paging *)
Definition PGSIZE : Z := 4096.
Definition PGSHIFT : Z := 12.
Definition PGROUNDUP (sz : Z) : Z := Z.land (u64 (sz + PGSIZE - 1)) (Z.lnot (PGSIZE - 1)).
Definition PGROUNDDOWN (a : Z) : Z := Z.land a (Z.lnot (PGSIZE - 1)).

Definition PTE_V : Z := Z.shiftl 1 0.
Definition PTE_R : Z := Z.shiftl 1 1.
Definition PTE_W : Z := Z.shiftl 1 2.
Definition PTE_X : Z := Z.shiftl 1 3.
Definition PTE_U : Z := Z.shiftl 1 4.

Definition PA2PTE (pa : Z) : Z := u64 (Z.shiftl (Z.shiftr pa 12) 10).
Definition PTE2PA (pte : Z) : Z := u64 (Z.shiftl (Z.shiftr pte 10) 12).
Definition PTE_FLAGS (pte : Z) : Z := Z.land pte 0x3FF.

Definition PXMASK : Z := 0x1FF.
Definition PXSHIFT (level : Z) : Z := PGSHIFT + 9 * level.
Definition PX (level va : Z) : Z := Z.land (Z.shiftr va (PXSHIFT level)) PXMASK.

Definition MAXVA : Z := Z.shiftl 1 (9 + 9 + 9 + 12 - 1).

(** ** kernel/memlayout.h *)
Definition UART0 : Z := 0x10000000.
Definition VIRTIO0 : Z := 0x10001000.
Definition PLIC : Z := 0x0c000000.
Definition KERNBASE : Z := 0x80000000.
Definition PHYSTOP : Z := KERNBASE + 128 * 1024 * 1024.
Definition TRAMPOLINE : Z := MAXVA - PGSIZE.
Definition KSTACK (p : Z) : Z := TRAMPOLINE - (p + 1) * 2 * PGSIZE.
Definition TRAPFRAME : Z := TRAMPOLINE - PGSIZE.

(** ** kernel/fs.h *)
Definition ROOTINO : Z := 1.
Definition BSIZE : Z := 1024.
Definition FSMAGIC : Z := 0x10203040.
Definition NDIRECT : Z := 12.
Definition NINDIRECT : Z := BSIZE / 4.
Definition MAXFILE : Z := NDIRECT + NINDIRECT.
(** [sizeof(struct dinode)]: four shorts, the size, thirteen addresses. *)
Definition sizeof_dinode : Z := 4 * 2 + 4 + (NDIRECT + 1) * 4.
Definition IPB : Z := BSIZE / sizeof_dinode.
Definition BPB : Z := BSIZE * 8.
Definition DIRSIZ : Z := 14.

(** ** Facts *)

Lemma PGROUNDDOWN_eq a : PGROUNDDOWN a = a - a mod PGSIZE.
Proof. exact (land_lnot_ones a 12 ltac:(lia)). Qed.

Lemma PGROUNDUP_eq a :
  0 <= a -> a + PGSIZE - 1 < 2 ^ 64 ->
  PGROUNDUP a = (a + PGSIZE - 1) / PGSIZE * PGSIZE.
Proof.
  intros H1 H2. unfold PGROUNDUP.
  rewrite u64_small by (unfold PGSIZE in *; lia).
  change (PGSIZE - 1) with (Z.ones 12). rewrite land_lnot_ones by lia.
  change (2 ^ 12) with PGSIZE. pose proof (Z.div_mod (a + Z.ones 12) PGSIZE).
  change (a + PGSIZE - 1) with (a + 4096 - 1). change (Z.ones 12) with 4095 in *.
  replace (a + 4096 - 1) with (a + 4095) by lia. unfold PGSIZE in *. lia.
Qed.

Lemma PGROUNDUP_aligned a : 0 <= a -> a + PGSIZE - 1 < 2 ^ 64 -> PGROUNDUP a mod PGSIZE = 0.
Proof. intros. rewrite PGROUNDUP_eq by lia. apply Z.mod_mul. unfold PGSIZE; lia. Qed.

Lemma PGROUNDUP_bounds a :
  0 <= a -> a + PGSIZE - 1 < 2 ^ 64 -> a <= PGROUNDUP a < a + PGSIZE.
Proof. intros. rewrite PGROUNDUP_eq by lia. unfold PGSIZE in *. zlia. Qed.

Lemma PX_eq level va : 0 <= level -> PX level va = (va / 2 ^ (12 + 9 * level)) mod 512.
Proof.
  intros. unfold PX, PXSHIFT, PGSHIFT. change PXMASK with (Z.ones 9).
  rewrite Z.land_ones, Z.shiftr_div_pow2 by lia. done.
Qed.

Lemma PX_range level va : 0 <= PX level va < 512.
Proof.
  unfold PX. change PXMASK with (Z.ones 9). rewrite Z.land_ones by lia.
  apply Z.mod_pos_bound. lia.
Qed.

Lemma PTE_FLAGS_eq pte : PTE_FLAGS pte = pte mod 1024.
Proof. unfold PTE_FLAGS. change 0x3FF with (Z.ones 10). by rewrite Z.land_ones. Qed.

Lemma PA2PTE_eq pa : 0 <= pa < 2 ^ 56 -> PA2PTE pa = pa / 4096 * 1024.
Proof.
  intros. unfold PA2PTE. rewrite Z.shiftl_mul_pow2, Z.shiftr_div_pow2 by lia.
  apply u64_small. change (2 ^ 12) with 4096. change (2 ^ 10) with 1024. zlia.
Qed.

Lemma PTE2PA_eq pte : 0 <= pte < 2 ^ 62 -> PTE2PA pte = pte / 1024 * 4096.
Proof.
  intros. unfold PTE2PA. rewrite Z.shiftl_mul_pow2, Z.shiftr_div_pow2 by lia.
  apply u64_small. change (2 ^ 12) with 4096. change (2 ^ 10) with 1024. zlia.
Qed.

(** Installing flags into a page-table entry is an addition: the frame
    number occupies bits 10 and up. *)
Lemma PA2PTE_lor pa f :
  0 <= pa < 2 ^ 56 -> 0 <= f < 1024 -> Z.lor (PA2PTE pa) f = pa / 4096 * 1024 + f.
Proof.
  intros. rewrite PA2PTE_eq by done. change 1024 with (2 ^ 10) at 1.
  rewrite <- Z.shiftl_mul_pow2 by lia.
  rewrite lor_shiftl_add by lia. done.
Qed.
