(* ===== verification/Mem.v ===== *)
(** * Byte-addressed memory

    The kernel maps all of RAM at its physical address, so one map from
    addresses to bytes is both the physical memory and the kernel's view of
    it.  An address that was never written reads as zero.  Multi-byte
    accesses are little-endian, as on RISC-V. *)

From S2P Require Import Prelude.
Open Scope Z_scope.

Abbreviation memory := (gmap Z Z).

Definition ld8 (m : memory) (a : Z) : Z := default 0 (m !! a).
Definition st8 (m : memory) (a v : Z) : memory := <[a := u8 v]> m.

Fixpoint ld_bytes (m : memory) (a : Z) (n : nat) : list Z :=
  match n with
  | O => []
  | S n => ld8 m a :: ld_bytes m (a + 1) n
  end.

Fixpoint st_bytes (m : memory) (a : Z) (l : list Z) : memory :=
  match l with
  | [] => m
  | b :: l => st_bytes (st8 m a b) (a + 1) l
  end.

Definition ld (n : nat) (m : memory) (a : Z) : Z := le_val (ld_bytes m a n).
Definition st (n : nat) (m : memory) (a v : Z) : memory := st_bytes m a (le_bytes n v).

Abbreviation ld16 := (ld 2).
Abbreviation ld32 := (ld 4).
Abbreviation ld64 := (ld 8).
Abbreviation st16 := (st 2).
Abbreviation st32 := (st 4).
Abbreviation st64 := (st 8).

(** Every byte in memory is a byte. *)
Definition mem_ok (m : memory) : Prop := forall a, 0 <= ld8 m a < 256.

(** Memories that no load can tell apart: an absent byte and a zero byte
    read the same. *)
Definition mem_eq (m1 m2 : memory) : Prop := forall a, ld8 m1 a = ld8 m2 a.
Infix "=m=" := mem_eq (at level 70).

#[export] Instance mem_eq_equiv : Equivalence mem_eq.
Proof.
  split; [by intros m a|by intros m1 m2 H a; rewrite H|].
  intros m1 m2 m3 H1 H2 a. by rewrite H1.
Qed.

#[export] Instance ld8_proper : Proper (mem_eq ==> eq ==> eq) ld8.
Proof. intros m1 m2 H a ? <-. apply H. Qed.

Lemma ld8_st8_eq m a v : ld8 (st8 m a v) a = u8 v.
Proof. unfold ld8, st8. by rewrite lookup_insert_eq. Qed.
Lemma ld8_st8_ne m a b v : a <> b -> ld8 (st8 m a v) b = ld8 m b.
Proof. intros. unfold ld8, st8. by rewrite lookup_insert_ne. Qed.
Lemma ld8_st8 m a b v : ld8 (st8 m a v) b = if a =? b then u8 v else ld8 m b.
Proof.
  destruct (Z.eqb_spec a b) as [->|]; [apply ld8_st8_eq|by apply ld8_st8_ne].
Qed.

#[export] Instance st8_proper : Proper (mem_eq ==> eq ==> eq ==> mem_eq) st8.
Proof. intros m1 m2 H a ? <- v ? <- b. rewrite !ld8_st8. by rewrite H. Qed.

#[export] Instance ld_bytes_proper : Proper (mem_eq ==> eq ==> eq ==> eq) ld_bytes.
Proof.
  intros m1 m2 H a ? <- n ? <-. revert a. induction n as [|n IH]; intros a; simpl; [done|].
  by rewrite IH, H.
Qed.

#[export] Instance st_bytes_proper : Proper (mem_eq ==> eq ==> eq ==> mem_eq) st_bytes.
Proof.
  intros m1 m2 H a ? <- l ? <-. revert a m1 m2 H.
  induction l as [|b l IH]; intros a m1 m2 H; simpl; [done|]. apply IH. by rewrite H.
Qed.

Lemma length_ld_bytes m a n : length (ld_bytes m a n) = n.
Proof. revert a; induction n; simpl; auto. Qed.

Lemma lookup_ld_bytes m a n i :
  (i < n)%nat -> ld_bytes m a n !! i = Some (ld8 m (a + Z.of_nat i)).
Proof.
  revert a i. induction n as [|n IH]; intros a [|i] Hi; simpl; try lia.
  - by rewrite Z.add_0_r.
  - rewrite IH by lia. do 2 f_equal. lia.
Qed.

Lemma ld_bytes_app m a n1 n2 :
  ld_bytes m a (n1 + n2) = ld_bytes m a n1 ++ ld_bytes m (a + Z.of_nat n1) n2.
Proof.
  revert a. induction n1 as [|n1 IH]; intros a; simpl.
  - by rewrite Z.add_0_r.
  - rewrite IH. do 3 f_equal. lia.
Qed.

(** Loads agree when every byte they touch agrees. *)
Lemma ld_bytes_ext m1 m2 a n :
  (forall b, a <= b < a + Z.of_nat n -> ld8 m1 b = ld8 m2 b) ->
  ld_bytes m1 a n = ld_bytes m2 a n.
Proof.
  revert a. induction n as [|n IH]; intros a H; simpl; [done|]. f_equal.
  - apply H. lia.
  - apply IH. intros b Hb. apply H. lia.
Qed.

Lemma ld8_st_bytes_out m a l b :
  ~ (a <= b < a + Z.of_nat (length l)) -> ld8 (st_bytes m a l) b = ld8 m b.
Proof.
  revert m a. induction l as [|x l IH]; intros m a H; simpl in *; [done|].
  rewrite IH by lia. apply ld8_st8_ne. lia.
Qed.

Lemma ld8_st_bytes_in m a l i x :
  l !! i = Some x -> ld8 (st_bytes m a l) (a + Z.of_nat i) = u8 x.
Proof.
  revert m a i. induction l as [|y l IH]; intros m a [|i] H; simplify_eq/=.
  - rewrite ld8_st_bytes_out by lia. rewrite Z.add_0_r. apply ld8_st8_eq.
  - rewrite <- (IH (st8 m a y) (a + 1) i H). f_equal. lia.
Qed.

Lemma ld_st_bytes_same m a l :
  bytes_ok l -> ld_bytes (st_bytes m a l) a (length l) = l.
Proof.
  intros Hok. apply list_eq. intros i.
  destruct (decide (i < length l)%nat) as [Hi|Hi].
  - destruct (lookup_lt_is_Some_2 l i Hi) as [x Hx].
    rewrite lookup_ld_bytes, Hx by done. f_equal. erewrite ld8_st_bytes_in by done.
    apply u8_small. unfold bytes_ok in Hok. rewrite Forall_lookup in Hok. eauto.
  - rewrite !lookup_ge_None_2; [done|lia|rewrite length_ld_bytes; lia].
Qed.

Lemma ld_st_bytes_other m a l b n :
  b + Z.of_nat n <= a \/ a + Z.of_nat (length l) <= b ->
  ld_bytes (st_bytes m a l) b n = ld_bytes m b n.
Proof. intros H. apply ld_bytes_ext. intros c Hc. apply ld8_st_bytes_out. lia. Qed.

Lemma ld_bytes_bytes_ok m a n : mem_ok m -> bytes_ok (ld_bytes m a n).
Proof.
  intros H. unfold bytes_ok. revert a; induction n; intros a; simpl; constructor; auto.
Qed.

(** Storing back what was read changes nothing a load can see. *)
Lemma st_bytes_id m a n : mem_ok m -> st_bytes m a (ld_bytes m a n) =m= m.
Proof.
  intros Hok b. destruct (decide (a <= b < a + Z.of_nat n)) as [H|H].
  - replace b with (a + Z.of_nat (Z.to_nat (b - a))) by lia.
    erewrite ld8_st_bytes_in by (apply lookup_ld_bytes; lia). apply u8_small, Hok.
  - apply ld8_st_bytes_out. by rewrite length_ld_bytes.
Qed.

Lemma st8_ok m a v : mem_ok m -> mem_ok (st8 m a v).
Proof. intros H b. rewrite ld8_st8. destruct (a =? b); [apply u8_range|apply H]. Qed.
Lemma st_bytes_mem_ok m a l : mem_ok m -> mem_ok (st_bytes m a l).
Proof. revert m a. induction l; intros; simpl; auto using st8_ok. Qed.
Lemma st_ok n m a v : mem_ok m -> mem_ok (st n m a v).
Proof. apply st_bytes_mem_ok. Qed.
Lemma mem_ok_empty : mem_ok ∅.
Proof. intros a. unfold ld8. rewrite lookup_empty. simpl. lia. Qed.

(** ** Multi-byte loads and stores *)

Lemma ld_st_eq n m a v : ld n (st n m a v) a = v mod 256 ^ Z.of_nat n.
Proof.
  unfold ld, st.
  assert (H := ld_st_bytes_same m a (le_bytes n v) (le_bytes_ok n v)).
  rewrite length_le_bytes in H. rewrite H. apply le_val_le_bytes.
Qed.

Lemma ld64_st64_eq m a v : 0 <= v < 2 ^ 64 -> ld64 (st64 m a v) a = v.
Proof. intros. rewrite ld_st_eq. apply Z.mod_small. simpl. lia. Qed.
Lemma ld32_st32_eq m a v : 0 <= v < 2 ^ 32 -> ld32 (st32 m a v) a = v.
Proof. intros. rewrite ld_st_eq. apply Z.mod_small. simpl. lia. Qed.
Lemma ld16_st16_eq m a v : 0 <= v < 2 ^ 16 -> ld16 (st16 m a v) a = v.
Proof. intros. rewrite ld_st_eq. apply Z.mod_small. simpl. lia. Qed.

Lemma ld_st_ne n k m a b v :
  b + Z.of_nat k <= a \/ a + Z.of_nat n <= b -> ld k (st n m a v) b = ld k m b.
Proof.
  intros H. unfold ld, st. rewrite ld_st_bytes_other; [done|].
  by rewrite length_le_bytes.
Qed.

Lemma ld8_st_out n m a v b :
  b < a \/ a + Z.of_nat n <= b -> ld8 (st n m a v) b = ld8 m b.
Proof. intros H. unfold st. apply ld8_st_bytes_out. rewrite length_le_bytes. lia. Qed.

Lemma ld_ext n m1 m2 a :
  (forall b, a <= b < a + Z.of_nat n -> ld8 m1 b = ld8 m2 b) -> ld n m1 a = ld n m2 a.
Proof. intros H. unfold ld. by rewrite (ld_bytes_ext m1 m2). Qed.

Lemma ld_range n m a : mem_ok m -> 0 <= ld n m a < 256 ^ Z.of_nat n.
Proof.
  intros H. unfold ld. pose proof (le_val_range _ (ld_bytes_bytes_ok m a n H)) as Hr.
  by rewrite length_ld_bytes in Hr.
Qed.

Lemma ld64_range m a : mem_ok m -> 0 <= ld64 m a < 2 ^ 64.
Proof. intros H. apply (ld_range 8 m a H). Qed.

Lemma ld_zero n m a :
  (forall b, a <= b < a + Z.of_nat n -> ld8 m b = 0) -> ld n m a = 0.
Proof.
  revert a. unfold ld. induction n as [|n IH]; intros a H; simpl; [done|].
  rewrite H, IH; [done| |lia]. intros b Hb. apply H. lia.
Qed.

#[export] Hint Resolve st8_ok st_ok st_bytes_mem_ok mem_ok_empty : mem.
