(* ===== verification/CString.v ===== *)
(** * kernel/string.c

    The C string and memory routines over [Mem.memory].  A pointer is an
    address; a loop that counts an [uint] or [int] down recurses on it. *)

From S2P Require Import Prelude Mem.
Open Scope Z_scope.

(** ** Operations *)

Fixpoint memset_loop (m : memory) (cdst c i : Z) (k : nat) : memory :=
  match k with
  | O => m
  | S k => memset_loop (st8 m (cdst + i) c) cdst c (i + 1) k
  end.

Definition memset (m : memory) (dst c n : Z) : memory :=
  memset_loop m dst c 0 (Z.to_nat n).

Fixpoint memcmp_loop (m : memory) (s1 s2 : Z) (n : nat) : Z :=
  match n with
  | O => 0
  | S n =>
    if ld8 m s1 =? ld8 m s2 then memcmp_loop m (s1 + 1) (s2 + 1) n
    else ld8 m s1 - ld8 m s2
  end.

Definition memcmp (m : memory) (v1 v2 n : Z) : Z := memcmp_loop m v1 v2 (Z.to_nat n).

(** [while(n-- > 0) *d++ = *s++] *)
Fixpoint copy_up (m : memory) (d s : Z) (n : nat) : memory :=
  match n with
  | O => m
  | S n => copy_up (st8 m d (ld8 m s)) (d + 1) (s + 1) n
  end.

(** [while(n-- > 0) *--d = *--s] *)
Fixpoint copy_down (m : memory) (d s : Z) (n : nat) : memory :=
  match n with
  | O => m
  | S n => copy_down (st8 m (d - 1) (ld8 m (s - 1))) (d - 1) (s - 1) n
  end.

Definition memmove (m : memory) (dst src n : Z) : memory :=
  if n =? 0 then m
  else if (src <? dst) && (src + n >? dst) then
    copy_down m (dst + n) (src + n) (Z.to_nat n)
  else copy_up m dst src (Z.to_nat n).

Definition memcpy (m : memory) (dst src n : Z) : memory := memmove m dst src n.

Fixpoint strncmp_loop (m : memory) (p q : Z) (n : nat) : Z :=
  match n with
  | O => 0
  | S n' =>
    if negb (ld8 m p =? 0) && (ld8 m p =? ld8 m q)
    then strncmp_loop m (p + 1) (q + 1) n'
    else ld8 m p - ld8 m q
  end.

Definition strncmp (m : memory) (p q n : Z) : Z := strncmp_loop m p q (Z.to_nat n).

(** [while(n-- > 0) *s++ = 0] *)
Fixpoint zero_fill (m : memory) (s : Z) (n : nat) : memory :=
  match n with
  | O => m
  | S n => zero_fill (st8 m s 0) (s + 1) n
  end.

Fixpoint strncpy_loop (m : memory) (s t : Z) (n : nat) : memory :=
  match n with
  | O => m
  | S n =>
    let c := ld8 m t in
    let m := st8 m s c in
    if c =? 0 then zero_fill m (s + 1) n else strncpy_loop m (s + 1) (t + 1) n
  end.

Definition strncpy (m : memory) (s t n : Z) : memory := strncpy_loop m s t (Z.to_nat n).

(** [while(--n > 0 && ( *s++ = *t++) != 0); *s = 0]: when the copied byte is
    NUL, [s] already points past it. *)
Fixpoint safestrcpy_loop (m : memory) (s t : Z) (k : nat) : memory :=
  match k with
  | O => st8 m s 0
  | S k =>
    let c := ld8 m t in
    let m := st8 m s c in
    if c =? 0 then st8 m (s + 1) 0 else safestrcpy_loop m (s + 1) (t + 1) k
  end.

Definition safestrcpy (m : memory) (s t n : Z) : memory :=
  if n <=? 0 then m else safestrcpy_loop m s t (Z.to_nat (n - 1)).

(** [strlen] returns [None] when the fuel ends before a NUL byte. *)
Fixpoint strlen_loop (m : memory) (s n : Z) (fuel : nat) : option Z :=
  match fuel with
  | O => None
  | S fuel => if ld8 m (s + n) =? 0 then Some n else strlen_loop m s (n + 1) fuel
  end.

Definition strlen (fuel : nat) (m : memory) (s : Z) : option Z := strlen_loop m s 0 fuel.

(** ** Reference definitions *)

(** The C string at [a], cut after [n] bytes. *)
Fixpoint cstr (m : memory) (a : Z) (n : nat) : list Z :=
  match n with
  | O => []
  | S n => if ld8 m a =? 0 then [] else ld8 m a :: cstr m (a + 1) n
  end.

Definition disjoint (a n b k : Z) : Prop := a + n <= b \/ b + k <= a.

(** ** Lemmas *)

Lemma ld8_memset_loop m d c i k b :
  ld8 (memset_loop m d c i k) b =
  if (d + i <=? b) && (b <? d + i + Z.of_nat k) then u8 c else ld8 m b.
Proof.
  revert m i. induction k as [|k IH]; intros m i; simpl.
  - zcases; simpl; try done; lia.
  - rewrite IH, ld8_st8. zcases; simpl; try done; lia.
Qed.

Lemma ld8_memset m d c n b :
  0 <= n -> ld8 (memset m d c n) b =
            if (d <=? b) && (b <? d + n) then u8 c else ld8 m b.
Proof.
  intros. unfold memset. rewrite ld8_memset_loop, Z.add_0_r. by rewrite Z2Nat.id.
Qed.

Lemma ld8_memset_in m d c n b : d <= b < d + n -> ld8 (memset m d c n) b = u8 c.
Proof. intros. rewrite ld8_memset by lia. zcases; simpl; try done; lia. Qed.

Lemma ld8_memset_out m d c n b :
  0 <= n -> b < d \/ d + n <= b -> ld8 (memset m d c n) b = ld8 m b.
Proof. intros. rewrite ld8_memset by lia. zcases; simpl; try done; lia. Qed.

Lemma ld_memset_out k m d c n a :
  0 <= n -> a + Z.of_nat k <= d \/ d + n <= a -> ld k (memset m d c n) a = ld k m a.
Proof. intros. apply ld_ext. intros. apply ld8_memset_out; lia. Qed.

Lemma ld_memset0 k m d n a :
  d <= a -> a + Z.of_nat k <= d + n -> ld k (memset m d 0 n) a = 0.
Proof. intros. apply ld_zero. intros. by rewrite ld8_memset_in by lia. Qed.

Lemma memset_loop_ok m d c i k : mem_ok m -> mem_ok (memset_loop m d c i k).
Proof. revert m i. induction k; intros; simpl; auto with mem. Qed.
Lemma memset_ok m d c n : mem_ok m -> mem_ok (memset m d c n).
Proof. apply memset_loop_ok. Qed.
#[export] Hint Resolve memset_ok : mem.

Lemma ld8_copy_up m d s n b :
  mem_ok m -> d <= s \/ s + Z.of_nat n <= d ->
  ld8 (copy_up m d s n) b =
  if (d <=? b) && (b <? d + Z.of_nat n) then ld8 m (s + (b - d)) else ld8 m b.
Proof.
  revert m d s. induction n as [|n IH]; intros m d s Hok Hd; simpl.
  - zcases; simpl; try done; lia.
  - rewrite IH, !ld8_st8 by (auto with mem; lia).
    rewrite (u8_small (ld8 m s)) by apply Hok.
    zcases; simpl; try done; try lia; f_equal; lia.
Qed.

Lemma ld8_copy_down m d s n b :
  mem_ok m -> s <= d ->
  ld8 (copy_down m d s n) b =
  if (d - Z.of_nat n <=? b) && (b <? d) then ld8 m (s + (b - d)) else ld8 m b.
Proof.
  revert m d s. induction n as [|n IH]; intros m d s Hok Hd; simpl.
  - zcases; simpl; try done; lia.
  - rewrite IH, !ld8_st8 by (auto with mem; lia).
    rewrite (u8_small (ld8 m _)) by apply Hok.
    zcases; simpl; try done; try lia; f_equal; lia.
Qed.

(** Every branch of [memmove] moves the bytes that were at [src]. *)
Lemma ld8_memmove m d s n b :
  mem_ok m -> 0 <= n ->
  ld8 (memmove m d s n) b =
  if (d <=? b) && (b <? d + n) then ld8 m (s + (b - d)) else ld8 m b.
Proof.
  intros Hok Hn. unfold memmove.
  destruct (Z.eqb_spec n 0) as [->|]; [zcases; simpl; try done; lia|].
  destruct (Z.ltb_spec s d); destruct (Z.gtb_spec (s + n) d); simpl.
  2-4: rewrite ld8_copy_up by (auto; lia); rewrite Z2Nat.id by lia; done.
  rewrite ld8_copy_down by (auto; lia). rewrite Z2Nat.id by lia.
  replace (d + n - n) with d by lia.
  replace (s + n + (b - (d + n))) with (s + (b - d)) by lia. done.
Qed.

Lemma copy_up_ok m d s n : mem_ok m -> mem_ok (copy_up m d s n).
Proof. revert m d s. induction n; intros; simpl; auto with mem. Qed.
Lemma copy_down_ok m d s n : mem_ok m -> mem_ok (copy_down m d s n).
Proof. revert m d s. induction n; intros; simpl; auto with mem. Qed.
Lemma memmove_ok m d s n : mem_ok m -> mem_ok (memmove m d s n).
Proof.
  intros. unfold memmove.
  destruct (n =? 0); [done|]. case_match; auto using copy_up_ok, copy_down_ok.
Qed.
#[export] Hint Resolve memmove_ok : mem.

(** [memmove] is a simultaneous copy. *)
Theorem memmove_correct m dst src n :
  mem_ok m -> 0 <= n ->
  memmove m dst src n =m= st_bytes m dst (ld_bytes m src (Z.to_nat n)).
Proof.
  intros Hok Hn b. rewrite ld8_memmove by done.
  destruct (decide (dst <= b < dst + n)) as [H|H].
  - remember (Z.to_nat (b - dst)) as i. assert (b = dst + Z.of_nat i) as -> by lia.
    erewrite ld8_st_bytes_in by (apply lookup_ld_bytes; lia).
    rewrite u8_small by apply Hok.
    replace (dst + Z.of_nat i - dst) with (Z.of_nat i) by lia.
    zcases; simpl; try done; lia.
  - rewrite ld8_st_bytes_out by (rewrite length_ld_bytes; lia).
    zcases; simpl; try done; lia.
Qed.

(** ** C strings *)

Lemma cstr_ext m1 m2 a n :
  (forall b, a <= b < a + Z.of_nat n -> ld8 m1 b = ld8 m2 b) -> cstr m1 a n = cstr m2 a n.
Proof.
  revert a. induction n as [|n IH]; intros a H; simpl; [done|].
  rewrite (H a) by lia. case_match; [done|]. f_equal. apply IH. intros. apply H. lia.
Qed.

Lemma cstr_length m a n : (length (cstr m a n) <= n)%nat.
Proof.
  revert a. induction n as [|n IH]; intros a; simpl; [lia|].
  case_match; simpl; [lia|]. specialize (IH (a + 1)). lia.
Qed.

Lemma ld8_zero_fill m s n b :
  ld8 (zero_fill m s n) b = if (s <=? b) && (b <? s + Z.of_nat n) then 0 else ld8 m b.
Proof.
  revert m s. induction n as [|n IH]; intros m s; simpl.
  - zcases; simpl; try done; lia.
  - rewrite IH, ld8_st8. zcases; simpl; try done; lia.
Qed.

Lemma ld_bytes_zero_fill m s n : ld_bytes (zero_fill m s n) s n = replicate n 0.
Proof.
  apply list_eq. intros i. destruct (decide (i < n)%nat).
  - rewrite lookup_ld_bytes, ld8_zero_fill by done.
    rewrite lookup_replicate_2 by done. zcases; simpl; try done; lia.
  - rewrite !lookup_ge_None_2; [done|rewrite length_replicate; lia|rewrite length_ld_bytes; lia].
Qed.

Lemma strncpy_loop_out m s t n b :
  b < s \/ s + Z.of_nat n <= b -> ld8 (strncpy_loop m s t n) b = ld8 m b.
Proof.
  revert m s t. induction n as [|n IH]; intros m s t H; simpl; [done|].
  case_match.
  - rewrite ld8_zero_fill, ld8_st8. zcases; simpl; try done; lia.
  - rewrite IH, ld8_st8 by lia. zcases; simpl; try done; lia.
Qed.

Lemma strncpy_loop_bytes m s t n :
  mem_ok m -> disjoint s (Z.of_nat n) t (Z.of_nat n) ->
  ld_bytes (strncpy_loop m s t n) s n =
  cstr m t n ++ replicate (n - length (cstr m t n)) 0.
Proof.
  revert m s t. unfold disjoint. induction n as [|n IH]; intros m s t Hok Hd; [done|].
  cbn [ld_bytes strncpy_loop cstr]. destruct (Z.eqb_spec (ld8 m t) 0) as [E|E].
  - rewrite ld8_zero_fill, ld8_st8, ld_bytes_zero_fill, E.
    rewrite Nat.sub_0_r. zcases; simpl; try done; lia.
  - rewrite strncpy_loop_out, ld8_st8_eq, u8_small by (apply Hok || lia).
    rewrite IH by (auto with mem; lia).
    rewrite (cstr_ext (st8 m s (ld8 m t)) m) by (intros; apply ld8_st8_ne; lia).
    done.
Qed.

(** [strncpy] writes exactly [n] bytes: the source string cut at [n],
    then zeros; nothing outside the destination changes. *)
Theorem strncpy_correct m s t n :
  mem_ok m -> 0 <= n -> disjoint s n t n ->
  ld_bytes (strncpy m s t n) s (Z.to_nat n) =
    cstr m t (Z.to_nat n) ++ replicate (Z.to_nat n - length (cstr m t (Z.to_nat n))) 0 /\
  (forall b, b < s \/ s + n <= b -> ld8 (strncpy m s t n) b = ld8 m b).
Proof.
  intros Hok Hn Hd. split.
  - apply strncpy_loop_bytes; [done|]. by rewrite Z2Nat.id.
  - intros b Hb. apply strncpy_loop_out. rewrite Z2Nat.id; lia.
Qed.

Lemma safestrcpy_loop_out m s t k b :
  b < s \/ s + Z.of_nat k < b -> ld8 (safestrcpy_loop m s t k) b = ld8 m b.
Proof.
  revert m s t. induction k as [|k IH]; intros m s t H; simpl.
  - rewrite ld8_st8. zcases; simpl; try done; lia.
  - case_match; [rewrite !ld8_st8|rewrite IH, ld8_st8 by lia]; zcases; try done; lia.
Qed.

Lemma safestrcpy_loop_cstr m s t k :
  mem_ok m -> disjoint s (Z.of_nat k + 1) t (Z.of_nat k + 1) ->
  cstr (safestrcpy_loop m s t k) s (S k) = cstr m t k.
Proof.
  revert m s t. unfold disjoint. induction k as [|k IH]; intros m s t Hok Hd.
  - simpl. by rewrite ld8_st8_eq.
  - cbn [safestrcpy_loop]. cbn [cstr]. destruct (Z.eqb_spec (ld8 m t) 0) as [E|E].
    + rewrite ld8_st8_ne, ld8_st8_eq, E by lia. done.
    + rewrite safestrcpy_loop_out, ld8_st8_eq, u8_small by (apply Hok || lia).
      destruct (Z.eqb_spec (ld8 m t) 0); [done|]. f_equal.
      change (if ld8 (safestrcpy_loop (st8 m s (ld8 m t)) (s + 1) (t + 1) k) (s + 1) =? 0
              then [] else _ :: cstr _ _ k)
        with (cstr (safestrcpy_loop (st8 m s (ld8 m t)) (s + 1) (t + 1) k) (s + 1) (S k)).
      rewrite IH by (auto with mem; lia). apply cstr_ext. intros. apply ld8_st8_ne. lia.
Qed.

(** [safestrcpy] leaves a NUL-terminated string that fits in [n] bytes:
    the source string cut at [n - 1] characters. *)
Theorem safestrcpy_correct m s t n :
  mem_ok m -> 0 < n -> disjoint s n t n ->
  cstr (safestrcpy m s t n) s (Z.to_nat n) = cstr m t (Z.to_nat (n - 1)) /\
  (length (cstr (safestrcpy m s t n) s (Z.to_nat n)) < Z.to_nat n)%nat /\
  (forall b, b < s \/ s + n <= b -> ld8 (safestrcpy m s t n) b = ld8 m b).
Proof.
  intros Hok Hn Hd. unfold safestrcpy. destruct (Z.leb_spec n 0); [lia|].
  assert (E : cstr (safestrcpy_loop m s t (Z.to_nat (n - 1))) s (Z.to_nat n) =
              cstr m t (Z.to_nat (n - 1))).
  { replace (Z.to_nat n) with (S (Z.to_nat (n - 1))) by lia.
    apply safestrcpy_loop_cstr; [done|]. unfold disjoint in *. lia. }
  split_and!; [done| |].
  - rewrite E. pose proof (cstr_length m t (Z.to_nat (n - 1))). lia.
  - intros b Hb. apply safestrcpy_loop_out. lia.
Qed.

Lemma strncmp_loop_0 m p q n :
  strncmp_loop m p q n = 0 <-> cstr m p n = cstr m q n.
Proof.
  revert p q. induction n as [|n IH]; intros p q; simpl; [done|].
  destruct (Z.eqb_spec (ld8 m p) 0) as [Ep|Ep]; simpl.
  - rewrite Ep. destruct (Z.eqb_spec (ld8 m q) 0); split; intros; try done; lia.
  - destruct (Z.eqb_spec (ld8 m p) (ld8 m q)) as [E|E].
    + rewrite <- E. destruct (Z.eqb_spec (ld8 m p) 0); [done|]. rewrite IH.
      split; [by intros ->|]. intros H'. by injection H'.
    + destruct (Z.eqb_spec (ld8 m q) 0); split; intros H'; try lia; try done.
      by injection H'.
Qed.

(** [strncmp] answers 0 exactly for strings equal up to [n] bytes. *)
Theorem strncmp_zero_iff m p q n :
  strncmp m p q n = 0 <-> cstr m p (Z.to_nat n) = cstr m q (Z.to_nat n).
Proof. apply strncmp_loop_0. Qed.

Lemma strlen_loop_spec m s n fuel :
  (length (cstr m (s + n) fuel) < fuel)%nat ->
  strlen_loop m s n fuel = Some (n + Z.of_nat (length (cstr m (s + n) fuel))).
Proof.
  revert n. induction fuel as [|f IH]; intros n; simpl; [lia|].
  destruct (Z.eqb_spec (ld8 m (s + n)) 0); simpl.
  - intros. f_equal. lia.
  - intros H. replace (s + n + 1) with (s + (n + 1)) in * by lia.
    rewrite IH by lia. f_equal. lia.
Qed.

(** ** Examples *)

Definition demo_mem : memory := st_bytes ∅ 100 [104; 101; 108; 108; 111; 0].

Lemma demo_mem_ok : mem_ok demo_mem.
Proof. apply st_bytes_mem_ok, mem_ok_empty. Qed.

(** Overlapping both ways. *)
Lemma memmove_correct_witness :
  ld_bytes (memmove demo_mem 102 100 5) 102 5 = [104; 101; 108; 108; 111] /\
  ld_bytes (memmove demo_mem 99 100 5) 99 5 = [104; 101; 108; 108; 111].
Proof.
  split.
  - rewrite (memmove_correct demo_mem 102 100 5 demo_mem_ok ltac:(lia)). reflexivity.
  - rewrite (memmove_correct demo_mem 99 100 5 demo_mem_ok ltac:(lia)). reflexivity.
Defined.

Lemma strncpy_correct_witness :
  ld_bytes (strncpy demo_mem 200 100 8) 200 8 = [104; 101; 108; 108; 111; 0; 0; 0].
Proof.
  destruct (strncpy_correct demo_mem 200 100 8 demo_mem_ok) as [H _];
    [lia|unfold disjoint; lia|]. etransitivity; [exact H|reflexivity].
Defined.

Lemma safestrcpy_correct_witness :
  cstr (safestrcpy demo_mem 200 100 4) 200 4 = [104; 101; 108].
Proof.
  destruct (safestrcpy_correct demo_mem 200 100 4 demo_mem_ok) as [H _];
    [lia|unfold disjoint; lia|]. etransitivity; [exact H|reflexivity].
Defined.

(** Never unfold these over a whole page. *)
#[global] Opaque memset memmove.
