(* ===== verification/Kernel.v ===== *)
(** * The kernel's state and the monad its code runs in

    One record holds the kernel's global variables, with the same
    structures as the C declarations ([kernel/proc.h], [kernel/file.h],
    [kernel/buf.h], [kernel/fs.h], [kernel/log.c], ...).  A pointer to an
    element of a static array is its index; a null pointer is [None] (or
    address 0 for a pointer into RAM).  Locks and sleep channels are named by
    the object whose address the C code uses.

    A kernel thread is a computation [K A] on this state.  It returns,
    panics, spins on a lock another thread holds, or reaches [swtch] in
    [sched()], where it stays as a continuation until the scheduler resumes
    it, possibly on another hart and in a state other threads changed. *)

From S2P Require Import Prelude Param Mem.
Open Scope Z_scope.

(** ** Identities: sleep-locks, spin-locks, sleep channels *)

Inductive sleepid : Type := SLbuf (i : nat) | SLinode (i : nat).

Inductive lockid : Type :=
| LKkmem | LKpid | LKwait | LKproc (i : nat) | LKbcache | LKsleep (sl : sleepid)
| LKlog | LKitable | LKftable | LKcons | LKuart | LKticks | LKvdisk | LKpr
| LKpipe (a : Z).

Inductive chan : Type :=
| CHproc (i : nat)       (** [p], in [wait] *)
| CHlog                  (** [&log] *)
| CHsleep (sl : sleepid) (** [lk], in [acquiresleep] *)
| CHpread (a : Z)        (** [&pi->nread] *)
| CHpwrite (a : Z)       (** [&pi->nwrite] *)
| CHticks                (** [&ticks] *)
| CHcons                 (** [&cons.r] *)
| CHuart                 (** [&uart_tx_r] *)
| CHdisk_free            (** [&disk.free[0]] *)
| CHbuf (i : nat).       (** [b], in [virtio_disk_rw] *)

#[export] Instance sleepid_eq_dec : EqDecision sleepid.
Proof. solve_decision. Defined.
#[export] Instance lockid_eq_dec : EqDecision lockid.
Proof. solve_decision. Defined.
#[export] Instance chan_eq_dec : EqDecision chan.
Proof. solve_decision. Defined.

Definition sleepid_enc (x : sleepid) : nat + nat :=
  match x with SLbuf i => inl i | SLinode i => inr i end.
Definition sleepid_dec (x : nat + nat) : sleepid :=
  match x with inl i => SLbuf i | inr i => SLinode i end.

#[export] Instance sleepid_countable : Countable sleepid.
Proof. apply (inj_countable' sleepid_enc sleepid_dec). by intros []. Defined.

Definition lockid_enc (x : lockid) : nat * (nat + sleepid + Z) :=
  match x with
  | LKkmem => (0%nat, inr 0) | LKpid => (1%nat, inr 0) | LKwait => (2%nat, inr 0)
  | LKproc i => (3%nat, inl (inl i)) | LKbcache => (4%nat, inr 0)
  | LKsleep sl => (5%nat, inl (inr sl)) | LKlog => (6%nat, inr 0)
  | LKitable => (7%nat, inr 0) | LKftable => (8%nat, inr 0) | LKcons => (9%nat, inr 0)
  | LKuart => (10%nat, inr 0) | LKticks => (11%nat, inr 0) | LKvdisk => (12%nat, inr 0)
  | LKpr => (13%nat, inr 0) | LKpipe a => (14%nat, inr a)
  end.
Definition lockid_dec (x : nat * (nat + sleepid + Z)) : lockid :=
  match x with
  | (0%nat, _) => LKkmem | (1%nat, _) => LKpid | (2%nat, _) => LKwait
  | (3%nat, inl (inl i)) => LKproc i | (4%nat, _) => LKbcache
  | (5%nat, inl (inr sl)) => LKsleep sl | (6%nat, _) => LKlog | (7%nat, _) => LKitable
  | (8%nat, _) => LKftable | (9%nat, _) => LKcons | (10%nat, _) => LKuart
  | (11%nat, _) => LKticks | (12%nat, _) => LKvdisk | (13%nat, _) => LKpr
  | (_, inr a) => LKpipe a
  | _ => LKkmem
  end.

#[export] Instance lockid_countable : Countable lockid.
Proof. apply (inj_countable' lockid_enc lockid_dec). by intros []. Defined.

(** ** Locks and CPUs *)

(** [struct spinlock]: the name is for debugging only. *)
Record spinlock : Type := mkspin { lk_locked : bool; lk_cpu : option nat }.

Definition lock_free : spinlock := mkspin false None.

(** [struct sleeplock]; its inner spin-lock is [LKsleep]. *)
Record sleeplock : Type := mksleep { sl_locked : bool; sl_pid : Z }.

(** [struct cpu], with the hart's interrupt-enable bit [sstatus.SIE].  The
    saved scheduler context is the continuation that [swtch] resumes. *)
#[projections(primitive)]
Record cpu : Type := mkcpu {
  c_proc : option nat;
  c_noff : Z;
  c_intena : bool;
  c_sie : bool
}.

Definition cpu0 : cpu := mkcpu None 0 false false.

(** ** Processes *)

(** [enum procstate] *)
Inductive procstate : Type := UNUSED | USED | SLEEPING | RUNNABLE | RUNNING | ZOMBIE.

#[export] Instance procstate_eq_dec : EqDecision procstate.
Proof. solve_decision. Defined.

(** [struct context]: [ra], [sp] and the twelve callee-saved registers. *)
Record context : Type := mkctx { ctx_ra : Z; ctx_sp : Z; ctx_s : list Z }.

Definition context0 : context := mkctx 0 0 (replicate 12 0).

(** [struct proc]; its lock is [LKproc]. *)
#[projections(primitive)]
Record proc : Type := mkproc {
  p_state : procstate;
  p_chan : option chan;
  p_killed : Z;
  p_xstate : Z;
  p_pid : Z;
  p_parent : option nat;
  p_kstack : Z;
  p_sz : Z;
  p_pagetable : Z;
  p_trapframe : Z;
  p_context : context;
  p_ofile : list (option nat);
  p_cwd : option nat;
  p_name : list Z;
  p_mask : Z
}.

Definition proc0 : proc :=
  mkproc UNUSED None 0 0 0 None 0 0 0 0 context0 (replicate NOFILE None) None (replicate 16 0) 0.

(** Byte offsets of the fields of [struct trapframe]. *)
Definition tf_kernel_satp : Z := 0.
Definition tf_kernel_sp : Z := 8.
Definition tf_kernel_trap : Z := 16.
Definition tf_epc : Z := 24.
Definition tf_kernel_hartid : Z := 32.
Definition tf_sp : Z := 48.
Definition tf_a0 : Z := 112.
Definition tf_a7 : Z := 168.
Definition sizeof_trapframe : Z := 288.

(** ** Buffer cache, log, file system *)

Abbreviation block := (list Z).
Definition zero_block : block := replicate (Z.to_nat BSIZE) 0.

(** [struct buf]; its sleep-lock is [SLbuf].  [b_prev] and [b_next] are
    indices into [k_bufs], the list head being index [NBUF]. *)
#[projections(primitive)]
Record buf : Type := mkbuf {
  b_valid : bool;
  b_disk : bool;
  b_dev : Z;
  b_blockno : Z;
  b_refcnt : Z;
  b_prev : nat;
  b_next : nat;
  b_data : block
}.

Definition buf0 : buf := mkbuf false false 0 0 0 0 0 zero_block.

(** [struct logheader] and [struct log]; [lh_block] has [LOGSIZE] slots. *)
#[projections(primitive)]
Record logheader : Type := mklh { lh_n : Z; lh_block : list Z }.

#[projections(primitive)]
Record log : Type := mklog {
  log_start : Z;
  log_size : Z;
  log_outstanding : Z;
  log_committing : bool;
  log_dev : Z;
  log_lh : logheader
}.

(** [struct superblock] *)
Record superblock : Type := mksb {
  sb_magic : Z; sb_size : Z; sb_nblocks : Z; sb_ninodes : Z;
  sb_nlog : Z; sb_logstart : Z; sb_inodestart : Z; sb_bmapstart : Z
}.

(** [struct inode]; its sleep-lock is [SLinode]. *)
#[projections(primitive)]
Record inode : Type := mkinode {
  i_dev : Z; i_inum : Z; i_ref : Z; i_valid : bool;
  i_type : Z; i_major : Z; i_minor : Z; i_nlink : Z; i_size : Z;
  i_addrs : list Z
}.

(** [struct file] *)
Inductive fdtype : Type := FD_NONE | FD_PIPE | FD_INODE | FD_DEVICE.

#[projections(primitive)]
Record file : Type := mkfile {
  f_type : fdtype; f_ref : Z; f_readable : bool; f_writable : bool;
  f_pipe : Z; f_ip : option nat; f_off : Z; f_major : Z
}.

(** ** Console and UART *)

(** [cons] of [console.c] *)
#[projections(primitive)]
Record console : Type := mkcons { cons_buf : list Z; cons_r : Z; cons_w : Z; cons_e : Z }.

(** The transmit buffer of [uart.c]. *)
#[projections(primitive)]
Record uart : Type := mkuart { tx_buf : list Z; tx_w : Z; tx_r : Z }.

(** ** Devices *)

(** The control and status registers that the code reads or writes. *)
Inductive csr : Type :=
| CSsstatus | CSsie | CSsip | CSstvec | CSsepc | CSscause | CSstval | CSsatp
| CSmstatus | CSmepc | CSmedeleg | CSmideleg | CSmie | CSmscratch | CSmtvec
| CSpmpaddr0 | CSpmpcfg0.

#[export] Instance csr_eq_dec : EqDecision csr.
Proof. solve_decision. Defined.

Definition csr_list : list csr :=
  [CSsstatus; CSsie; CSsip; CSstvec; CSsepc; CSscause; CSstval; CSsatp;
   CSmstatus; CSmepc; CSmedeleg; CSmideleg; CSmie; CSmscratch; CSmtvec; CSpmpaddr0; CSpmpcfg0].

Definition csr_num (c : csr) : nat := default 0%nat (fst <$> list_find (eq c) csr_list).
Definition csr_of_num (n : nat) : csr := default CSsstatus (csr_list !! n).

#[export] Instance csr_countable : Countable csr.
Proof. apply (inj_countable' csr_num csr_of_num). by intros []. Defined.

(** An access to a memory-mapped device register: the address, and the value
    read or written. *)
Inductive ioev : Type := IoRead (a v : Z) | IoWrite (a v : Z).

(** What an entry of [devsw] points to. *)
Inductive device : Type := DEVconsole.

(** [disk] of [virtio_disk.c]: the pages shared with the device, and the
    driver's own book-keeping.  [vd_info] pairs the buffer in flight with the
    status byte; [vd_ops] holds type, reserved and sector. *)
#[projections(primitive)]
Record vdisk : Type := mkvdisk {
  vd_desc : Z; vd_avail : Z; vd_used : Z;
  vd_free : list bool;
  vd_used_idx : Z;
  vd_info : list (option nat * Z);
  vd_ops : list (Z * Z * Z)
}.

(** [pr.locking] and [panicked] of [printf.c]. *)
Record printer : Type := mkpr { pr_locking : bool; panicked : bool }.

(** ** The kernel state *)

#[projections(primitive)]
Record kst : Type := mkst {
  k_tp : nat  (** hart id in the [tp] register of the running thread *);
  k_cpus : list cpu  (** [cpus] *);
  k_csrs : gmap (nat * csr) Z  (** control and status registers, by hart *);
  k_locks : gmap lockid spinlock  (** every [struct spinlock], by name *);
  k_slocks : gmap sleepid sleeplock  (** every [struct sleeplock], by name *);
  k_mem : memory  (** RAM *);
  k_freelist : Z  (** [kmem.freelist] *);
  k_procs : list proc  (** [proc] *);
  k_nextpid : Z  (** [nextpid] *);
  k_initproc : option nat  (** [initproc] *);
  k_first : bool  (** [first] of [forkret] *);
  k_kpagetable : Z  (** [kernel_pagetable] *);
  k_bufs : list buf  (** [bcache.buf], then [bcache.head] at index [NBUF] *);
  k_disk : gmap Z block  (** contents of the disk, by block number *);
  k_writes : list (Z * block)  (** every block write the disk has completed, oldest first *);
  k_vdisk : vdisk  (** [disk] of [virtio_disk.c] *);
  k_log : log  (** [log] *);
  k_sb : superblock  (** [sb] *);
  k_inodes : list inode  (** [itable.inode] *);
  k_files : list file  (** [ftable.file] *);
  k_devsw : list (option device)  (** [devsw] *);
  k_ticks : Z  (** [ticks] *);
  k_cons : console  (** [cons] *);
  k_uart : uart  (** the transmit buffer of [uart.c] *);
  k_pr : printer  (** [pr.locking] and [panicked] of [printf.c] *);
  k_started : bool  (** [started] of [main.c] *);
  k_io : list ioev  (** every access to a device register, oldest first *)
}.

Definition set_tp (v : nat) (s : kst) : kst :=
  mkst v (k_cpus s) (k_csrs s) (k_locks s) (k_slocks s) (k_mem s) (k_freelist s)
    (k_procs s) (k_nextpid s) (k_initproc s) (k_first s) (k_kpagetable s) (k_bufs s)
    (k_disk s) (k_writes s) (k_vdisk s) (k_log s) (k_sb s) (k_inodes s) (k_files s)
    (k_devsw s) (k_ticks s) (k_cons s) (k_uart s) (k_pr s) (k_started s) (k_io s).
Definition set_cpus (v : list cpu) (s : kst) : kst :=
  mkst (k_tp s) v (k_csrs s) (k_locks s) (k_slocks s) (k_mem s) (k_freelist s)
    (k_procs s) (k_nextpid s) (k_initproc s) (k_first s) (k_kpagetable s) (k_bufs s)
    (k_disk s) (k_writes s) (k_vdisk s) (k_log s) (k_sb s) (k_inodes s) (k_files s)
    (k_devsw s) (k_ticks s) (k_cons s) (k_uart s) (k_pr s) (k_started s) (k_io s).
Definition set_csrs (v : gmap (nat * csr) Z) (s : kst) : kst :=
  mkst (k_tp s) (k_cpus s) v (k_locks s) (k_slocks s) (k_mem s) (k_freelist s)
    (k_procs s) (k_nextpid s) (k_initproc s) (k_first s) (k_kpagetable s) (k_bufs s)
    (k_disk s) (k_writes s) (k_vdisk s) (k_log s) (k_sb s) (k_inodes s) (k_files s)
    (k_devsw s) (k_ticks s) (k_cons s) (k_uart s) (k_pr s) (k_started s) (k_io s).
Definition set_locks (v : gmap lockid spinlock) (s : kst) : kst :=
  mkst (k_tp s) (k_cpus s) (k_csrs s) v (k_slocks s) (k_mem s) (k_freelist s)
    (k_procs s) (k_nextpid s) (k_initproc s) (k_first s) (k_kpagetable s) (k_bufs s)
    (k_disk s) (k_writes s) (k_vdisk s) (k_log s) (k_sb s) (k_inodes s) (k_files s)
    (k_devsw s) (k_ticks s) (k_cons s) (k_uart s) (k_pr s) (k_started s) (k_io s).
Definition set_slocks (v : gmap sleepid sleeplock) (s : kst) : kst :=
  mkst (k_tp s) (k_cpus s) (k_csrs s) (k_locks s) v (k_mem s) (k_freelist s)
    (k_procs s) (k_nextpid s) (k_initproc s) (k_first s) (k_kpagetable s) (k_bufs s)
    (k_disk s) (k_writes s) (k_vdisk s) (k_log s) (k_sb s) (k_inodes s) (k_files s)
    (k_devsw s) (k_ticks s) (k_cons s) (k_uart s) (k_pr s) (k_started s) (k_io s).
Definition set_mem (v : memory) (s : kst) : kst :=
  mkst (k_tp s) (k_cpus s) (k_csrs s) (k_locks s) (k_slocks s) v (k_freelist s)
    (k_procs s) (k_nextpid s) (k_initproc s) (k_first s) (k_kpagetable s) (k_bufs s)
    (k_disk s) (k_writes s) (k_vdisk s) (k_log s) (k_sb s) (k_inodes s) (k_files s)
    (k_devsw s) (k_ticks s) (k_cons s) (k_uart s) (k_pr s) (k_started s) (k_io s).
Definition set_freelist (v : Z) (s : kst) : kst :=
  mkst (k_tp s) (k_cpus s) (k_csrs s) (k_locks s) (k_slocks s) (k_mem s) v (k_procs s)
    (k_nextpid s) (k_initproc s) (k_first s) (k_kpagetable s) (k_bufs s) (k_disk s)
    (k_writes s) (k_vdisk s) (k_log s) (k_sb s) (k_inodes s) (k_files s) (k_devsw s)
    (k_ticks s) (k_cons s) (k_uart s) (k_pr s) (k_started s) (k_io s).
Definition set_procs (v : list proc) (s : kst) : kst :=
  mkst (k_tp s) (k_cpus s) (k_csrs s) (k_locks s) (k_slocks s) (k_mem s)
    (k_freelist s) v (k_nextpid s) (k_initproc s) (k_first s) (k_kpagetable s)
    (k_bufs s) (k_disk s) (k_writes s) (k_vdisk s) (k_log s) (k_sb s) (k_inodes s)
    (k_files s) (k_devsw s) (k_ticks s) (k_cons s) (k_uart s) (k_pr s) (k_started s)
    (k_io s).
Definition set_nextpid (v : Z) (s : kst) : kst :=
  mkst (k_tp s) (k_cpus s) (k_csrs s) (k_locks s) (k_slocks s) (k_mem s)
    (k_freelist s) (k_procs s) v (k_initproc s) (k_first s) (k_kpagetable s)
    (k_bufs s) (k_disk s) (k_writes s) (k_vdisk s) (k_log s) (k_sb s) (k_inodes s)
    (k_files s) (k_devsw s) (k_ticks s) (k_cons s) (k_uart s) (k_pr s) (k_started s)
    (k_io s).
Definition set_initproc (v : option nat) (s : kst) : kst :=
  mkst (k_tp s) (k_cpus s) (k_csrs s) (k_locks s) (k_slocks s) (k_mem s)
    (k_freelist s) (k_procs s) (k_nextpid s) v (k_first s) (k_kpagetable s) (k_bufs s)
    (k_disk s) (k_writes s) (k_vdisk s) (k_log s) (k_sb s) (k_inodes s) (k_files s)
    (k_devsw s) (k_ticks s) (k_cons s) (k_uart s) (k_pr s) (k_started s) (k_io s).
Definition set_first (v : bool) (s : kst) : kst :=
  mkst (k_tp s) (k_cpus s) (k_csrs s) (k_locks s) (k_slocks s) (k_mem s)
    (k_freelist s) (k_procs s) (k_nextpid s) (k_initproc s) v (k_kpagetable s)
    (k_bufs s) (k_disk s) (k_writes s) (k_vdisk s) (k_log s) (k_sb s) (k_inodes s)
    (k_files s) (k_devsw s) (k_ticks s) (k_cons s) (k_uart s) (k_pr s) (k_started s)
    (k_io s).
Definition set_kpagetable (v : Z) (s : kst) : kst :=
  mkst (k_tp s) (k_cpus s) (k_csrs s) (k_locks s) (k_slocks s) (k_mem s)
    (k_freelist s) (k_procs s) (k_nextpid s) (k_initproc s) (k_first s) v (k_bufs s)
    (k_disk s) (k_writes s) (k_vdisk s) (k_log s) (k_sb s) (k_inodes s) (k_files s)
    (k_devsw s) (k_ticks s) (k_cons s) (k_uart s) (k_pr s) (k_started s) (k_io s).
Definition set_bufs (v : list buf) (s : kst) : kst :=
  mkst (k_tp s) (k_cpus s) (k_csrs s) (k_locks s) (k_slocks s) (k_mem s)
    (k_freelist s) (k_procs s) (k_nextpid s) (k_initproc s) (k_first s)
    (k_kpagetable s) v (k_disk s) (k_writes s) (k_vdisk s) (k_log s) (k_sb s)
    (k_inodes s) (k_files s) (k_devsw s) (k_ticks s) (k_cons s) (k_uart s) (k_pr s)
    (k_started s) (k_io s).
Definition set_disk (v : gmap Z block) (s : kst) : kst :=
  mkst (k_tp s) (k_cpus s) (k_csrs s) (k_locks s) (k_slocks s) (k_mem s)
    (k_freelist s) (k_procs s) (k_nextpid s) (k_initproc s) (k_first s)
    (k_kpagetable s) (k_bufs s) v (k_writes s) (k_vdisk s) (k_log s) (k_sb s)
    (k_inodes s) (k_files s) (k_devsw s) (k_ticks s) (k_cons s) (k_uart s) (k_pr s)
    (k_started s) (k_io s).
Definition set_writes (v : list (Z * block)) (s : kst) : kst :=
  mkst (k_tp s) (k_cpus s) (k_csrs s) (k_locks s) (k_slocks s) (k_mem s)
    (k_freelist s) (k_procs s) (k_nextpid s) (k_initproc s) (k_first s)
    (k_kpagetable s) (k_bufs s) (k_disk s) v (k_vdisk s) (k_log s) (k_sb s)
    (k_inodes s) (k_files s) (k_devsw s) (k_ticks s) (k_cons s) (k_uart s) (k_pr s)
    (k_started s) (k_io s).
Definition set_vdisk (v : vdisk) (s : kst) : kst :=
  mkst (k_tp s) (k_cpus s) (k_csrs s) (k_locks s) (k_slocks s) (k_mem s)
    (k_freelist s) (k_procs s) (k_nextpid s) (k_initproc s) (k_first s)
    (k_kpagetable s) (k_bufs s) (k_disk s) (k_writes s) v (k_log s) (k_sb s)
    (k_inodes s) (k_files s) (k_devsw s) (k_ticks s) (k_cons s) (k_uart s) (k_pr s)
    (k_started s) (k_io s).
Definition set_log (v : log) (s : kst) : kst :=
  mkst (k_tp s) (k_cpus s) (k_csrs s) (k_locks s) (k_slocks s) (k_mem s)
    (k_freelist s) (k_procs s) (k_nextpid s) (k_initproc s) (k_first s)
    (k_kpagetable s) (k_bufs s) (k_disk s) (k_writes s) (k_vdisk s) v (k_sb s)
    (k_inodes s) (k_files s) (k_devsw s) (k_ticks s) (k_cons s) (k_uart s) (k_pr s)
    (k_started s) (k_io s).
Definition set_sb (v : superblock) (s : kst) : kst :=
  mkst (k_tp s) (k_cpus s) (k_csrs s) (k_locks s) (k_slocks s) (k_mem s)
    (k_freelist s) (k_procs s) (k_nextpid s) (k_initproc s) (k_first s)
    (k_kpagetable s) (k_bufs s) (k_disk s) (k_writes s) (k_vdisk s) (k_log s) v
    (k_inodes s) (k_files s) (k_devsw s) (k_ticks s) (k_cons s) (k_uart s) (k_pr s)
    (k_started s) (k_io s).
Definition set_inodes (v : list inode) (s : kst) : kst :=
  mkst (k_tp s) (k_cpus s) (k_csrs s) (k_locks s) (k_slocks s) (k_mem s)
    (k_freelist s) (k_procs s) (k_nextpid s) (k_initproc s) (k_first s)
    (k_kpagetable s) (k_bufs s) (k_disk s) (k_writes s) (k_vdisk s) (k_log s) (k_sb s)
    v (k_files s) (k_devsw s) (k_ticks s) (k_cons s) (k_uart s) (k_pr s) (k_started s)
    (k_io s).
Definition set_files (v : list file) (s : kst) : kst :=
  mkst (k_tp s) (k_cpus s) (k_csrs s) (k_locks s) (k_slocks s) (k_mem s)
    (k_freelist s) (k_procs s) (k_nextpid s) (k_initproc s) (k_first s)
    (k_kpagetable s) (k_bufs s) (k_disk s) (k_writes s) (k_vdisk s) (k_log s) (k_sb s)
    (k_inodes s) v (k_devsw s) (k_ticks s) (k_cons s) (k_uart s) (k_pr s)
    (k_started s) (k_io s).
Definition set_devsw (v : list (option device)) (s : kst) : kst :=
  mkst (k_tp s) (k_cpus s) (k_csrs s) (k_locks s) (k_slocks s) (k_mem s)
    (k_freelist s) (k_procs s) (k_nextpid s) (k_initproc s) (k_first s)
    (k_kpagetable s) (k_bufs s) (k_disk s) (k_writes s) (k_vdisk s) (k_log s) (k_sb s)
    (k_inodes s) (k_files s) v (k_ticks s) (k_cons s) (k_uart s) (k_pr s)
    (k_started s) (k_io s).
Definition set_ticks (v : Z) (s : kst) : kst :=
  mkst (k_tp s) (k_cpus s) (k_csrs s) (k_locks s) (k_slocks s) (k_mem s)
    (k_freelist s) (k_procs s) (k_nextpid s) (k_initproc s) (k_first s)
    (k_kpagetable s) (k_bufs s) (k_disk s) (k_writes s) (k_vdisk s) (k_log s) (k_sb s)
    (k_inodes s) (k_files s) (k_devsw s) v (k_cons s) (k_uart s) (k_pr s)
    (k_started s) (k_io s).
Definition set_cons (v : console) (s : kst) : kst :=
  mkst (k_tp s) (k_cpus s) (k_csrs s) (k_locks s) (k_slocks s) (k_mem s)
    (k_freelist s) (k_procs s) (k_nextpid s) (k_initproc s) (k_first s)
    (k_kpagetable s) (k_bufs s) (k_disk s) (k_writes s) (k_vdisk s) (k_log s) (k_sb s)
    (k_inodes s) (k_files s) (k_devsw s) (k_ticks s) v (k_uart s) (k_pr s)
    (k_started s) (k_io s).
Definition set_uart (v : uart) (s : kst) : kst :=
  mkst (k_tp s) (k_cpus s) (k_csrs s) (k_locks s) (k_slocks s) (k_mem s)
    (k_freelist s) (k_procs s) (k_nextpid s) (k_initproc s) (k_first s)
    (k_kpagetable s) (k_bufs s) (k_disk s) (k_writes s) (k_vdisk s) (k_log s) (k_sb s)
    (k_inodes s) (k_files s) (k_devsw s) (k_ticks s) (k_cons s) v (k_pr s)
    (k_started s) (k_io s).
Definition set_pr (v : printer) (s : kst) : kst :=
  mkst (k_tp s) (k_cpus s) (k_csrs s) (k_locks s) (k_slocks s) (k_mem s)
    (k_freelist s) (k_procs s) (k_nextpid s) (k_initproc s) (k_first s)
    (k_kpagetable s) (k_bufs s) (k_disk s) (k_writes s) (k_vdisk s) (k_log s) (k_sb s)
    (k_inodes s) (k_files s) (k_devsw s) (k_ticks s) (k_cons s) (k_uart s) v
    (k_started s) (k_io s).
Definition set_started (v : bool) (s : kst) : kst :=
  mkst (k_tp s) (k_cpus s) (k_csrs s) (k_locks s) (k_slocks s) (k_mem s)
    (k_freelist s) (k_procs s) (k_nextpid s) (k_initproc s) (k_first s)
    (k_kpagetable s) (k_bufs s) (k_disk s) (k_writes s) (k_vdisk s) (k_log s) (k_sb s)
    (k_inodes s) (k_files s) (k_devsw s) (k_ticks s) (k_cons s) (k_uart s) (k_pr s) v
    (k_io s).
Definition set_io (v : list ioev) (s : kst) : kst :=
  mkst (k_tp s) (k_cpus s) (k_csrs s) (k_locks s) (k_slocks s) (k_mem s)
    (k_freelist s) (k_procs s) (k_nextpid s) (k_initproc s) (k_first s)
    (k_kpagetable s) (k_bufs s) (k_disk s) (k_writes s) (k_vdisk s) (k_log s) (k_sb s)
    (k_inodes s) (k_files s) (k_devsw s) (k_ticks s) (k_cons s) (k_uart s) (k_pr s)
    (k_started s) v.

(** ** Computations *)

Inductive outcome (A : Type) : Type :=
| Ret (a : A) (s : kst)                    (** the code returned *)
| Panic (msg : string) (s : kst)           (** [panic(msg)] *)
| Swtch (s : kst) (k : kst -> outcome A)   (** switched out in [sched()] *)
| Spin (s : kst)                           (** spins on a lock that is held *)
| NoFuel.                                  (** a loop used up its fuel *)
Arguments Ret {A} a s.
Arguments Panic {A} msg s.
Arguments Swtch {A} s k.
Arguments Spin {A} s.
Arguments NoFuel {A}.

Definition K (A : Type) : Type := kst -> outcome A.

Fixpoint obind {A B} (o : outcome A) (f : A -> K B) : outcome B :=
  match o with
  | Ret a s => f a s
  | Panic msg s => Panic msg s
  | Swtch s k => Swtch s (fun s' => obind (k s') f)
  | Spin s => Spin s
  | NoFuel => NoFuel
  end.

Definition kret {A} (a : A) : K A := fun s => Ret a s.
Definition kbind {A B} (m : K A) (f : A -> K B) : K B := fun s => obind (m s) f.
Definition gets {A} (f : kst -> A) : K A := fun s => Ret (f s) s.
Definition modify (f : kst -> kst) : K unit := fun s => Ret tt (f s).
Definition panic {A} (msg : string) : K A := fun s => Panic msg s.

Declare Scope kernel_scope.
Delimit Scope kernel_scope with kernel.
Notation "'let!' x ':=' m 'in' k" := (kbind m (fun x => k))
  (at level 10, x pattern, m at level 100, k at level 200) : kernel_scope.
Notation "'do!' m ';' k" := (kbind m (fun _ : unit => k))
  (at level 10, m at level 100, k at level 200) : kernel_scope.
Notation "'if!' b 'then' m" := (if b then m else kret tt)
  (at level 10, b at level 100, m at level 100) : kernel_scope.
Open Scope kernel_scope.

(** [for(x in l) body(x)] *)
Fixpoint kfor {A} (l : list A) (f : A -> K unit) : K unit :=
  match l with
  | [] => kret tt
  | x :: l => do! f x; kfor l f
  end.

(** [for(x in l)] with an early [return]: stops at the first [Some]. *)
Fixpoint kfirst {A R} (l : list A) (f : A -> K (option R)) : K (option R) :=
  match l with
  | [] => kret None
  | x :: l =>
    let! r := f x in
    match r with
    | Some v => kret (Some v)
    | None => kfirst l f
    end
  end.

(** A call that ended normally lets the rest run from its final state. *)
Lemma obind_Ret {A B} (m : K A) (f : A -> K B) s a s' :
  m s = Ret a s' -> kbind m f s = f a s'.
Proof. intros H. unfold kbind. by rewrite H. Qed.

Lemma obind_Panic {A B} (m : K A) (f : A -> K B) s msg s' :
  m s = Panic msg s' -> kbind m f s = Panic msg s'.
Proof. intros H. unfold kbind. by rewrite H. Qed.

(** Run one call of the goal with the equation [H] for it. *)
Tactic Notation "krun" uconstr(H) :=
  first [erewrite (obind_Ret _ _ _ _ _ H) | erewrite obind_Ret by eapply H];
  cbv beta iota.

Lemma kfor_app {A} (l1 l2 : list A) (f : A -> K unit) s s' :
  kfor l1 f s = Ret tt s' -> kfor (l1 ++ l2) f s = kfor l2 f s'.
Proof.
  revert s. induction l1 as [|x l1 IH]; intros s H; simpl in *.
  - unfold kret in H. by injection H as ->.
  - unfold kbind in *. destruct (f x s); simpl in *; try done. by apply IH.
Qed.

Lemma kbind_kret {A B} (a : A) (f : A -> K B) s : kbind (kret a) f s = f a s.
Proof. done. Qed.
Lemma kbind_gets {A B} (g : kst -> A) (f : A -> K B) s : kbind (gets g) f s = f (g s) s.
Proof. done. Qed.
Lemma kbind_modify {B} (g : kst -> kst) (f : unit -> K B) s :
  kbind (modify g) f s = f tt (g s).
Proof. done. Qed.
Lemma kbind_panic {A B} msg (f : A -> K B) s : kbind (panic msg) f s = Panic msg s.
Proof. done. Qed.

(** ** Accessors *)

Definition dget (d : gmap Z block) (b : Z) : block := default zero_block (d !! b).

Definition buf_at (s : kst) (i : nat) : buf := default buf0 (k_bufs s !! i).
Definition proc_at (s : kst) (i : nat) : proc := default proc0 (k_procs s !! i).

Definition put_proc (i : nat) (f : proc -> proc) : K unit :=
  modify (fun s => set_procs (<[i := f (proc_at s i)]> (k_procs s)) s).
Definition put_buf (i : nat) (f : buf -> buf) : K unit :=
  modify (fun s => set_bufs (<[i := f (buf_at s i)]> (k_bufs s)) s).

(** ** The globals before [main]: zero, except [nextpid] *)

Definition inode0 : inode := mkinode 0 0 0 false 0 0 0 0 0 (replicate 13 0).
Definition file0 : file := mkfile FD_NONE 0 false false 0 None 0 0.

Definition boot : kst :=
  mkst 0 (replicate NCPU cpu0) ∅ ∅ ∅ ∅ 0 (replicate NPROC proc0) 1 None true 0
    (replicate (S NBUF) buf0) ∅ []
    (mkvdisk 0 0 0 (replicate 8 false) 0 (replicate 8 (None, 0)) (replicate 8 (0, 0, 0)))
    (mklog 0 0 0 false 0 (mklh 0 (replicate (Z.to_nat LOGSIZE) 0)))
    (mksb 0 0 0 0 0 0 0 0) (replicate NINODE inode0) (replicate NFILE file0)
    (replicate (Z.to_nat NDEV) None) 0
    (mkcons (replicate 128 0) 0 0 0) (mkuart (replicate 32 0) 0 0) (mkpr false false) false [].

(** ** Addresses the linker and the assembly files fix

    [kernel.ld], [trampoline.S] and the compiler choose them; the code only
    relies on the order and alignment stated by [LinkerOk]. *)

Class Linker : Type := {
  sym_end : Z;         (** [end]: first address after the kernel *)
  sym_etext : Z;       (** [etext]: end of the kernel's code *)
  sym_trampoline : Z;  (** physical address of the trampoline page *)
  sym_forkret : Z;     (** address of [forkret] *)
  sym_kernelvec : Z;   (** [kernelvec] *)
  sym_timervec : Z;    (** [timervec] *)
  sym_usertrap : Z;    (** [usertrap] *)
  sym_main : Z;        (** [main] *)
  sym_uservec : Z;     (** [uservec - trampoline] *)
  sym_userret : Z;     (** [userret - trampoline] *)
  sym_scratch : nat -> Z;  (** [timer_scratch[id]] *)
  sym_ops : nat -> Z;      (** [&disk.ops[i]] *)
  sym_status : nat -> Z;   (** [&disk.info[i].status] *)
  sym_data : nat -> Z      (** [b->data] of buffer [b] *)
}.

Class LinkerOk `{L : Linker} : Prop := {
  linker_order : KERNBASE < sym_etext /\ sym_etext <= sym_end /\ sym_end <= PHYSTOP;
  linker_etext : sym_etext mod PGSIZE = 0;
  linker_trampoline :
    sym_trampoline mod PGSIZE = 0 /\ KERNBASE <= sym_trampoline < sym_etext
}.

(** A layout that satisfies them, for evaluating the model. *)
Definition demo_linker : Linker := {|
  sym_end := PHYSTOP - 24 * PGSIZE - 100;
  sym_etext := KERNBASE + 8 * PGSIZE;
  sym_trampoline := KERNBASE + 7 * PGSIZE;
  sym_forkret := KERNBASE + 0x1000;
  sym_kernelvec := KERNBASE + 0x2000;
  sym_timervec := KERNBASE + 0x2100;
  sym_usertrap := KERNBASE + 0x2200;
  sym_main := KERNBASE + 0x2300;
  sym_uservec := 0;
  sym_userret := 0x9c;
  sym_scratch i := KERNBASE + 0x9000 + 40 * Z.of_nat i;
  sym_ops i := KERNBASE + 0xa000 + 16 * Z.of_nat i;
  sym_status i := KERNBASE + 0xa108 + 16 * Z.of_nat i;
  sym_data i := KERNBASE + 0xb000 + 1112 * Z.of_nat i
|}.

Lemma demo_linker_ok : LinkerOk (L := demo_linker).
Proof. split; cbn; try done; unfold KERNBASE, PHYSTOP, PGSIZE; lia. Qed.
