(* ===== verification/Spinlock.v ===== *)
(** * kernel/spinlock.c, and [cpuid], [mycpu], [myproc] of kernel/proc.c

    First the routines as one thread runs them: interrupt nesting, the
    debugging checks that panic, and [acquire] meeting a held lock ([Spin]).
    Then [Module Harts]: the same code of [acquire] and [release] one memory
    access at a time, interleaved over any number of harts. *)

From stdpp Require Import functions relations.
From S2P Require Import Prelude Param Mem Kernel.
Open Scope Z_scope.

(** ** The current hart *)

Definition cpuid : K nat := gets k_tp.

(** [mycpu()] is a pointer: the structure is read and written through it. *)
Definition mycpu (s : kst) : cpu := default cpu0 (k_cpus s !! k_tp s).
Definition put_cpu (c : cpu) (s : kst) : kst := set_cpus (<[k_tp s := c]> (k_cpus s)) s.

Definition set_proc (p : option nat) (c : cpu) : cpu := mkcpu p (c_noff c) (c_intena c) (c_sie c).
Definition set_noff (n : Z) (c : cpu) : cpu := mkcpu (c_proc c) n (c_intena c) (c_sie c).
Definition set_intena (b : bool) (c : cpu) : cpu := mkcpu (c_proc c) (c_noff c) b (c_sie c).
Definition set_sie (b : bool) (c : cpu) : cpu := mkcpu (c_proc c) (c_noff c) (c_intena c) b.

Definition modify_cpu (f : cpu -> cpu) : K unit := modify (fun s => put_cpu (f (mycpu s)) s).

(** [intr_get], [intr_on], [intr_off] of riscv.h *)
Definition intr_get : K bool := gets (fun s => c_sie (mycpu s)).
Definition intr_on : K unit := modify_cpu (set_sie true).
Definition intr_off : K unit := modify_cpu (set_sie false).

Definition push_off : K unit :=
  let! old := intr_get in
  do! intr_off;
  let! noff := gets (fun s => c_noff (mycpu s)) in
  do! if! noff =? 0 then modify_cpu (set_intena old);
  modify_cpu (fun c => set_noff (c_noff c + 1) c).

Definition pop_off : K unit :=
  let! on := intr_get in
  if (on : bool) then panic "pop_off - interruptible" else
  let! noff := gets (fun s => c_noff (mycpu s)) in
  if noff <? 1 then panic "pop_off" else
  do! modify_cpu (fun c => set_noff (c_noff c - 1) c);
  let! c := gets mycpu in
  if! (c_noff c =? 0) && c_intena c then intr_on.

Definition myproc : K (option nat) :=
  do! push_off;
  let! p := gets (fun s => c_proc (mycpu s)) in
  do! pop_off;
  kret p.

(** ** Locks *)

Definition lock_at (s : kst) (lk : lockid) : spinlock := default lock_free (k_locks s !! lk).
Definition put_lock (lk : lockid) (l : spinlock) : K unit :=
  modify (fun s => set_locks (<[lk := l]> (k_locks s)) s).

Definition initlock (lk : lockid) : K unit := put_lock lk (mkspin false None).

Definition holding (lk : lockid) : K bool :=
  gets (fun s => lk_locked (lock_at s lk) && bool_decide (lk_cpu (lock_at s lk) = Some (k_tp s))).

Definition acquire (lk : lockid) : K unit :=
  do! push_off;
  let! h := holding lk in
  if (h : bool) then panic "acquire" else
  let! l := gets (fun s => lock_at s lk) in
  if lk_locked l then (fun s => Spin s) else
  do! put_lock lk (mkspin true (lk_cpu l));
  let! id := cpuid in
  put_lock lk (mkspin true (Some id)).

Definition release (lk : lockid) : K unit :=
  let! h := holding lk in
  if negb h then panic "release" else
  do! put_lock lk (mkspin true None);
  do! put_lock lk (mkspin false None);
  pop_off.

(** ** Interrupt nesting *)

(** The hart exists, and interrupts are off inside [push_off]. *)
Definition cpu_ok (s : kst) : Prop :=
  (k_tp s < length (k_cpus s))%nat /\ 0 <= c_noff (mycpu s) /\
  (0 < c_noff (mycpu s) -> c_sie (mycpu s) = false).

(** What one [push_off], one [pop_off] and a balanced pair do. *)
Definition pushed (s : kst) : kst :=
  let c := mycpu s in
  put_cpu (mkcpu (c_proc c) (c_noff c + 1)
             (if c_noff c =? 0 then c_sie c else c_intena c) false) s.
Definition popped (s : kst) : kst :=
  let c := mycpu s in
  put_cpu (mkcpu (c_proc c) (c_noff c - 1) (c_intena c)
             (if (c_noff c - 1 =? 0) && c_intena c then true else c_sie c)) s.
(** The saved interrupt state a balanced pair leaves behind. *)
Definition norm (s : kst) : kst :=
  let c := mycpu s in
  put_cpu (set_intena (if c_noff c =? 0 then c_sie c else c_intena c) c) s.

Lemma mycpu_put_cpu c s : (k_tp s < length (k_cpus s))%nat -> mycpu (put_cpu c s) = c.
Proof. intros H. unfold mycpu, put_cpu. simpl. by rewrite list_lookup_insert_eq. Qed.
Lemma put_cpu_put_cpu c c' s : put_cpu c (put_cpu c' s) = put_cpu c s.
Proof. unfold put_cpu. simpl. by rewrite list_insert_insert_eq. Qed.
Lemma put_cpu_mycpu s : (k_tp s < length (k_cpus s))%nat -> put_cpu (mycpu s) s = s.
Proof.
  intros H. unfold mycpu, put_cpu. destruct (lookup_lt_is_Some_2 _ _ H) as [c Hc].
  rewrite Hc. simpl. rewrite list_insert_id by done. reflexivity.
Qed.
Lemma put_cpu_tp c s :
  (k_tp s < length (k_cpus s))%nat -> (k_tp (put_cpu c s) < length (k_cpus (put_cpu c s)))%nat.
Proof. intros H. unfold put_cpu. simpl. by rewrite length_insert. Qed.
#[export] Hint Resolve put_cpu_tp : krun.

Lemma push_off_run s : (k_tp s < length (k_cpus s))%nat -> push_off s = Ret tt (pushed s).
Proof.
  intros H. unfold push_off, pushed, intr_get, intr_off, modify_cpu.
  rewrite kbind_gets, kbind_modify, kbind_gets. rewrite mycpu_put_cpu by done. simpl.
  destruct (c_noff (mycpu s) =? 0); unfold kbind, kret, modify; simpl;
    rewrite !mycpu_put_cpu by auto with krun; rewrite !put_cpu_put_cpu; done.
Qed.

Lemma pop_off_run s :
  (k_tp s < length (k_cpus s))%nat -> c_sie (mycpu s) = false -> 1 <= c_noff (mycpu s) ->
  pop_off s = Ret tt (popped s).
Proof.
  intros H Hs Hn. unfold pop_off, popped, intr_get, intr_on, modify_cpu.
  rewrite kbind_gets, Hs, kbind_gets. destruct (Z.ltb_spec (c_noff (mycpu s)) 1); [lia|].
  rewrite kbind_modify, kbind_gets. rewrite mycpu_put_cpu by done. simpl.
  destruct ((c_noff (mycpu s) - 1 =? 0) && c_intena (mycpu s));
    unfold kret, modify; [|unfold set_noff; rewrite Hs; reflexivity].
  rewrite mycpu_put_cpu, put_cpu_put_cpu by done. reflexivity.
Qed.

Lemma cpu_ok_pushed s : cpu_ok s -> cpu_ok (pushed s).
Proof.
  intros (H & Hn & Hs). unfold pushed. split; [auto with krun|].
  rewrite mycpu_put_cpu by done. simpl. split; [lia|done].
Qed.

Lemma popped_pushed s : cpu_ok s -> popped (pushed s) = norm s.
Proof.
  intros (H & Hn & Hs). unfold popped, pushed, norm.
  rewrite mycpu_put_cpu, put_cpu_put_cpu by done. simpl.
  replace (c_noff (mycpu s) + 1 - 1) with (c_noff (mycpu s)) by lia.
  unfold set_intena. do 2 f_equal. destruct (Z.eqb_spec (c_noff (mycpu s)) 0); simpl.
  - by destruct (c_sie (mycpu s)).
  - symmetry. apply Hs. lia.
Qed.

Lemma mycpu_norm s :
  (k_tp s < length (k_cpus s))%nat ->
  mycpu (norm s) =
  set_intena (if c_noff (mycpu s) =? 0 then c_sie (mycpu s) else c_intena (mycpu s)) (mycpu s).
Proof. intros. unfold norm. by rewrite mycpu_put_cpu. Qed.

Lemma cpu_ok_norm s : cpu_ok s -> cpu_ok (norm s).
Proof.
  intros (H & Hn & Hs). split; [unfold norm; auto with krun|]. by rewrite mycpu_norm.
Qed.

Lemma norm_norm s : cpu_ok s -> norm (norm s) = norm s.
Proof.
  intros (H & Hn & Hs). unfold norm at 1. rewrite mycpu_norm by done.
  unfold norm. rewrite put_cpu_put_cpu. unfold set_intena. simpl.
  by destruct (c_noff (mycpu s) =? 0).
Qed.

Lemma norm_nested s : cpu_ok s -> 0 < c_noff (mycpu s) -> norm s = s.
Proof.
  intros (H & _ & _) Hn. unfold norm. destruct (Z.eqb_spec (c_noff (mycpu s)) 0); [lia|].
  exact (put_cpu_mycpu s H).
Qed.

Lemma mycpu_pushed s :
  (k_tp s < length (k_cpus s))%nat ->
  mycpu (pushed s) = mkcpu (c_proc (mycpu s)) (c_noff (mycpu s) + 1)
                       (if c_noff (mycpu s) =? 0 then c_sie (mycpu s) else c_intena (mycpu s))
                       false.
Proof. intros. unfold pushed. by rewrite mycpu_put_cpu. Qed.

Lemma pop_off_pushed s : cpu_ok s -> pop_off (pushed s) = Ret tt (norm s).
Proof.
  intros Hok. pose proof Hok as (H & Hn & Hs).
  rewrite pop_off_run, popped_pushed; [done|done|apply cpu_ok_pushed, Hok| |];
    rewrite mycpu_pushed by done; simpl; [done|lia].
Qed.

Lemma myproc_run s : cpu_ok s -> myproc s = Ret (c_proc (mycpu s)) (norm s).
Proof.
  intros Hok. pose proof Hok as (H & Hn & Hs). unfold myproc.
  krun (push_off_run s H). rewrite kbind_gets, mycpu_pushed by done.
  krun (pop_off_pushed s Hok). done.
Qed.
#[export] Hint Resolve cpu_ok_pushed cpu_ok_norm : krun.

(** ** Sequences of [push_off] and [pop_off] *)

Inductive nest : list bool -> Prop :=
| nest_nil : nest []
| nest_cons w w' : nest w -> nest w' -> nest (true :: w ++ false :: w').

(** [true] is a [push_off], [false] a [pop_off]. *)
Fixpoint run_nest (w : list bool) : K unit :=
  match w with
  | [] => kret tt
  | b :: w => do! (if b then push_off else pop_off); run_nest w
  end.

Lemma run_nest_app w w' s s' :
  run_nest w s = Ret tt s' -> run_nest (w ++ w') s = run_nest w' s'.
Proof.
  revert s. induction w as [|b w IH]; intros s H; simpl in *.
  - unfold kret in H. by injection H as ->.
  - unfold kbind in *. destruct ((if b then push_off else pop_off) s); simpl in *; try done.
    by apply IH.
Qed.

Lemma run_nest_norm w s :
  nest w -> cpu_ok s -> run_nest w s = Ret tt (if decide (w = []) then s else norm s).
Proof.
  intros Hw. revert s. induction Hw as [|w w' Hw IHw Hw' IHw']; intros s Hok; [done|].
  rewrite decide_False by done. simpl. pose proof Hok as (H & _ & _).
  krun (push_off_run s H).
  assert (E : pop_off (if decide (w = []) then pushed s else norm (pushed s)) = Ret tt (norm s)).
  { destruct (decide (w = [])); [by apply pop_off_pushed|].
    replace (norm (pushed s)) with (pushed s); [by apply pop_off_pushed|].
    symmetry. apply norm_nested; [by apply cpu_ok_pushed|].
    rewrite mycpu_pushed by done. simpl. destruct Hok; lia. }
  erewrite run_nest_app by (apply IHw; auto with krun). simpl. krun E.
  rewrite IHw' by auto with krun.
  destruct (decide (w' = [])); [done|]. by rewrite norm_norm.
Qed.

(** After any well-nested sequence of [push_off] and [pop_off] the hart has
    the interrupt state and the nesting depth it started with, nothing else
    of the kernel changed, and no call panicked. *)
Theorem push_pop_balanced w s :
  nest w -> cpu_ok s ->
  exists s', run_nest w s = Ret tt s' /\
    c_sie (mycpu s') = c_sie (mycpu s) /\ c_noff (mycpu s') = c_noff (mycpu s) /\
    put_cpu (mycpu s) s' = s.
Proof.
  intros Hw Hok. rewrite run_nest_norm by done. pose proof Hok as (H & _ & _).
  eexists. split; [done|]. case_decide.
  - by rewrite put_cpu_mycpu.
  - rewrite mycpu_norm by done. split_and!; [done..|].
    unfold norm. rewrite put_cpu_put_cpu. by apply put_cpu_mycpu.
Qed.

Lemma push_pop_balanced_witness :
  exists s', run_nest [true; true; false; true; false; false] boot = Ret tt s' /\
             c_noff (mycpu s') = 0.
Proof.
  destruct (push_pop_balanced [true; true; false; true; false; false] boot)
    as (s' & H1 & _ & H2 & _).
  - apply (nest_cons [true; false; true; false] []); [|constructor].
    apply (nest_cons [] [true; false]); [constructor|]. apply (nest_cons [] []); constructor.
  - split; [simpl; lia|]. simpl. split; [lia|done].
  - exists s'. split; [exact H1|]. rewrite H2. reflexivity.
Defined.

(** ** [acquire] and [release] of one thread *)

Definition is_free (lk : lockid) (s : kst) : Prop := k_locks s !! lk = Some lock_free.
Definition is_held (lk : lockid) (s : kst) : Prop :=
  k_locks s !! lk = Some (mkspin true (Some (k_tp s))).

(** The state right after a successful [acquire], right after [release]. *)
Definition acquired (lk : lockid) (s : kst) : kst :=
  set_locks (<[lk := mkspin true (Some (k_tp s))]> (k_locks s)) (pushed s).
Definition released (lk : lockid) (s : kst) : kst :=
  popped (set_locks (<[lk := lock_free]> (k_locks s)) s).

Lemma acquire_run lk s : cpu_ok s -> is_free lk s -> acquire lk s = Ret tt (acquired lk s).
Proof.
  intros Hok Hf. pose proof Hok as (H & _ & _). unfold acquire, is_free in *.
  krun (push_off_run s H). unfold holding, lock_at, put_lock, cpuid, acquired.
  rewrite kbind_gets. simpl. rewrite Hf. simpl. rewrite kbind_gets. simpl.
  rewrite Hf. simpl. unfold kbind, modify, gets. simpl.
  rewrite insert_insert_eq. reflexivity.
Qed.

Lemma release_run lk s :
  cpu_ok s -> is_held lk s -> 1 <= c_noff (mycpu s) -> release lk s = Ret tt (released lk s).
Proof.
  intros (H & Hn & Hs) Hh Hd. unfold release, released, is_held, holding, lock_at in *.
  rewrite kbind_gets, Hh. simpl. rewrite bool_decide_true by done. simpl.
  unfold put_lock. rewrite kbind_modify, kbind_modify. simpl.
  rewrite pop_off_run; simpl; [|done|apply Hs; simpl; lia|done].
  rewrite insert_insert_eq. reflexivity.
Qed.

Lemma acquired_held lk s : is_held lk (acquired lk s).
Proof. unfold is_held, acquired. simpl. by rewrite lookup_insert_eq. Qed.

Lemma acquired_ok lk s : cpu_ok s -> cpu_ok (acquired lk s).
Proof. intros H. exact (cpu_ok_pushed s H). Qed.

Lemma acquired_noff lk s :
  cpu_ok s -> c_noff (mycpu (acquired lk s)) = c_noff (mycpu s) + 1.
Proof.
  intros (H & _ & _). change (mycpu (acquired lk s)) with (mycpu (pushed s)).
  by rewrite mycpu_pushed.
Qed.

Lemma released_acquired lk s :
  cpu_ok s -> is_free lk s -> released lk (acquired lk s) = norm s.
Proof.
  intros Hok Hf. rewrite <- popped_pushed by done. unfold released, acquired. simpl.
  rewrite insert_insert_eq. change (k_locks (pushed s)) with (k_locks s).
  rewrite insert_id by done. reflexivity.
Qed.

(** Taking a free lock and giving it back is transparent: the lock is free
    again, interrupts are as before, and in between they are off. *)
Theorem acquire_release lk s :
  cpu_ok s -> is_free lk s ->
  (let! _ := acquire lk in intr_get) s = Ret false (acquired lk s) /\
  (do! acquire lk; release lk) s = Ret tt (norm s) /\
  is_free lk (norm s) /\ c_sie (mycpu (norm s)) = c_sie (mycpu s).
Proof.
  intros Hok Hf. pose proof Hok as (H & _ & _). split_and!.
  - krun (acquire_run lk s Hok Hf). unfold intr_get, gets.
    change (mycpu (acquired lk s)) with (mycpu (pushed s)). by rewrite mycpu_pushed.
  - krun (acquire_run lk s Hok Hf).
    rewrite release_run, released_acquired; auto using acquired_ok, acquired_held.
    rewrite acquired_noff by done. destruct Hok; lia.
  - exact Hf.
  - by rewrite mycpu_norm.
Qed.

Lemma acquire_release_witness :
  let s := set_locks {[ LKkmem := lock_free ]} boot in
  (do! acquire LKkmem; release LKkmem) s = Ret tt (norm s).
Proof.
  intros s. apply (acquire_release LKkmem s); [|reflexivity].
  split; [simpl; lia|]. simpl. split; [lia|done].
Defined.

(** ** Interleaved harts *)

Module Harts.

(** Where a hart is in [acquire] and [release].  [holding] is two loads. *)
Inductive pc : Type :=
| Idle           (** outside *)
| AcqLoadLocked  (** [holding]: load [lk->locked] *)
| AcqLoadCpu     (** [holding]: load [lk->cpu] *)
| AcqSwap        (** the [amoswap] loop *)
| AcqSetCpu      (** [lk->cpu = mycpu()] *)
| Critical       (** the critical section *)
| RelLoadLocked  (** [holding]: load [lk->locked] *)
| RelLoadCpu     (** [holding]: load [lk->cpu] *)
| RelClearCpu    (** [lk->cpu = 0] *)
| RelUnlock      (** the releasing [amoswap] *)
| Panicked.

Record shared : Type := mkshared { locked : bool; owner : option nat; pcs : nat -> pc }.

Definition init : shared := mkshared false None (fun _ => Idle).

Definition goto (h : nat) (p : pc) (s : shared) : shared :=
  mkshared (locked s) (owner s) (<[h := p]> (pcs s)).

(** One memory access of hart [h]. *)
Definition hstep (h : nat) (s : shared) : shared :=
  match pcs s h with
  | Idle => goto h AcqLoadLocked s
  | AcqLoadLocked => goto h (if locked s then AcqLoadCpu else AcqSwap) s
  | AcqLoadCpu => goto h (if bool_decide (owner s = Some h) then Panicked else AcqSwap) s
  | AcqSwap =>
    if locked s then s else goto h AcqSetCpu (mkshared true (owner s) (pcs s))
  | AcqSetCpu => goto h Critical (mkshared (locked s) (Some h) (pcs s))
  | Critical => goto h RelLoadLocked s
  | RelLoadLocked => goto h (if locked s then RelLoadCpu else Panicked) s
  | RelLoadCpu => goto h (if bool_decide (owner s = Some h) then RelClearCpu else Panicked) s
  | RelClearCpu => goto h RelUnlock (mkshared (locked s) None (pcs s))
  | RelUnlock => goto h Idle (mkshared false (owner s) (pcs s))
  | Panicked => s
  end.

Inductive step : shared -> shared -> Prop :=
| step_hart h s : step s (hstep h s).

(** Between the successful swap and the releasing one. *)
Definition owns_lock (p : pc) : bool :=
  match p with
  | AcqSetCpu | Critical | RelLoadLocked | RelLoadCpu | RelClearCpu | RelUnlock => true
  | _ => false
  end.
(** Between the two writes of [lk->cpu]. *)
Definition owns_cpu (p : pc) : bool :=
  match p with Critical | RelLoadLocked | RelLoadCpu | RelClearCpu => true | _ => false end.

Record inv (s : shared) : Prop := {
  inv_excl h1 h2 : owns_lock (pcs s h1) = true -> owns_lock (pcs s h2) = true -> h1 = h2;
  inv_locked h : owns_lock (pcs s h) = true -> locked s = true;
  inv_holder : locked s = true -> exists h, owns_lock (pcs s h) = true;
  inv_owner h : owner s = Some h <-> owns_cpu (pcs s h) = true;
  inv_no_panic h : pcs s h <> Panicked
}.

Lemma inv_init : inv init.
Proof. split; simpl; naive_solver. Qed.

(** Reading the program counter of a hart after another one moved. *)
Lemma pcs_insert h p (f : nat -> pc) h' :
  (<[h := p]> f) h' = if decide (h' = h) then p else f h'.
Proof.
  case_decide as E; [subst; apply fn_lookup_insert|]. by apply fn_lookup_insert_ne.
Qed.

(** A move that touches neither lock field and stays on the same side of
    both ownership windows keeps the invariant. *)
Lemma inv_goto h p s :
  inv s -> owns_lock p = owns_lock (pcs s h) -> owns_cpu p = owns_cpu (pcs s h) ->
  p <> Panicked -> inv (goto h p s).
Proof.
  intros [Hx Hl Hh Ho Hp] E1 E2 Hnp.
  assert (L : forall h', owns_lock ((<[h := p]> (pcs s)) h') = owns_lock (pcs s h')).
  { intros h'. rewrite pcs_insert. case_decide; by subst. }
  assert (C : forall h', owns_cpu ((<[h := p]> (pcs s)) h') = owns_cpu (pcs s h')).
  { intros h'. rewrite pcs_insert. case_decide; by subst. }
  split; intros *; simpl; rewrite ?L, ?C; eauto.
  - intros H. destruct (Hh H) as [h' H']. exists h'. by rewrite L.
  - rewrite pcs_insert. by case_decide.
Qed.

Lemma inv_swap h s :
  inv s -> pcs s h = AcqSwap -> locked s = false ->
  inv (goto h AcqSetCpu (mkshared true (owner s) (pcs s))).
Proof.
  intros [Hx Hl Hh Ho Hp] E F.
  assert (N : forall h', owns_lock (pcs s h') = false).
  { intros h'. destruct (owns_lock (pcs s h')) eqn:W; [|done]. by rewrite (Hl h' W) in F. }
  split; intros *; simpl; rewrite ?pcs_insert.
  - repeat case_decide; subst; rewrite ?N; done.
  - done.
  - intros _. exists h. by rewrite pcs_insert, decide_True.
  - case_decide; subst; [|apply Ho]. rewrite Ho, E. done.
  - by case_decide.
Qed.

Lemma inv_set_cpu h s :
  inv s -> pcs s h = AcqSetCpu -> inv (goto h Critical (mkshared (locked s) (Some h) (pcs s))).
Proof.
  intros [Hx Hl Hh Ho Hp] E.
  assert (Hc : owns_lock (pcs s h) = true) by (by rewrite E).
  split; intros *; simpl; rewrite ?pcs_insert.
  - repeat case_decide; subst; try done; intros; [symmetry|..]; eauto.
  - intros. eauto.
  - intros _. exists h. by rewrite pcs_insert, decide_True.
  - case_decide as D; [by subst|]. split; [congruence|]. intros Hw.
    assert (owns_lock (pcs s h0) = true) by (by destruct (pcs s h0)).
    rewrite (Hx h0 h) in D by done. done.
  - by case_decide.
Qed.

Lemma inv_clear_cpu h s :
  inv s -> pcs s h = RelClearCpu -> inv (goto h RelUnlock (mkshared (locked s) None (pcs s))).
Proof.
  intros [Hx Hl Hh Ho Hp] E.
  assert (Hc : owns_lock (pcs s h) = true) by (by rewrite E).
  assert (Hw : owner s = Some h) by (apply Ho; by rewrite E).
  split; intros *; simpl; rewrite ?pcs_insert.
  - repeat case_decide; subst; try done; intros; [symmetry|..]; eauto.
  - intros. eauto.
  - intros _. exists h. by rewrite pcs_insert, decide_True.
  - case_decide as D; [done|]. rewrite <- Ho, Hw. split; [done|congruence].
  - by case_decide.
Qed.

Lemma inv_unlock h s :
  inv s -> pcs s h = RelUnlock -> inv (goto h Idle (mkshared false (owner s) (pcs s))).
Proof.
  intros [Hx Hl Hh Ho Hp] E.
  assert (Hc : owns_lock (pcs s h) = true) by (by rewrite E).
  split; intros *; simpl; rewrite ?pcs_insert.
  - repeat case_decide; subst; done || eauto.
  - case_decide as D; [done|]. intros H. rewrite (Hx h0 h) in D by done. done.
  - done.
  - case_decide; subst; [|apply Ho]. rewrite Ho, E. done.
  - by case_decide.
Qed.

Lemma inv_step s s' : step s s' -> inv s -> inv s'.
Proof.
  intros [h s0] I. unfold hstep. destruct (pcs s0 h) eqn:E.
  - apply inv_goto; by rewrite ?E.
  - destruct (locked s0); apply inv_goto; by rewrite ?E.
  - case_bool_decide as D.
    + apply (inv_owner _ I) in D. by rewrite E in D.
    + apply inv_goto; by rewrite ?E.
  - destruct (locked s0) eqn:F; [done|]. by apply inv_swap.
  - by apply inv_set_cpu.
  - apply inv_goto; by rewrite ?E.
  - rewrite (inv_locked _ I h) by (by rewrite E). apply inv_goto; by rewrite ?E.
  - rewrite bool_decide_true by (apply (inv_owner _ I); by rewrite E).
    apply inv_goto; by rewrite ?E.
  - by apply inv_clear_cpu.
  - by apply inv_unlock.
  - done.
Qed.

Lemma inv_reachable s : rtc step init s -> inv s.
Proof.
  cut (forall s0, rtc step s0 s -> inv s0 -> inv s); [eauto using inv_init|].
  induction 1; eauto using inv_step.
Qed.

(** C15: however the memory accesses of any number of harts running [acquire]
    and [release] on one lock interleave, no two are between the successful
    swap and the release at once, and neither [panic] is ever reached. *)
Theorem mutual_exclusion s :
  rtc step init s ->
  (forall h1 h2, owns_lock (pcs s h1) = true -> owns_lock (pcs s h2) = true -> h1 = h2) /\
  (locked s = true <-> exists h, owns_lock (pcs s h) = true) /\
  (forall h, pcs s h <> Panicked).
Proof.
  intros H. destruct (inv_reachable s H) as [Hx Hl Hh Ho Hp].
  split_and!; [done| |done]. split; [done|]. intros [h Hc]. eauto.
Qed.

Lemma mutual_exclusion_witness :
  let s := hstep 1 (hstep 0 (hstep 1 (hstep 0 (hstep 0 (hstep 0 init))))) in
  pcs s 0%nat = Critical /\ pcs s 1%nat = AcqLoadCpu /\ pcs s 1%nat <> Panicked.
Proof.
  intros s. assert (R : rtc step init s)
    by (do 6 (eapply rtc_r; [|apply step_hart]); apply rtc_refl).
  destruct (mutual_exclusion s R) as (_ & _ & Hp).
  split; [reflexivity|]. split; [reflexivity|apply Hp].
Defined.

(** *** Progress *)

(** The state after the harts of a schedule each made one access, in order. *)
Definition schedule (l : list nat) (s : shared) : shared := foldl (fun s h => hstep h s) s l.

Lemma inv_hstep h s : inv s -> inv (hstep h s).
Proof. apply inv_step. constructor. Qed.

(** Within [n] accesses hart [h] alone gets from [s] to a state in [P]. *)
Definition alone (h n : nat) (P : shared -> Prop) (s : shared) : Prop :=
  exists k, (k <= n)%nat /\ P (schedule (replicate k h) s).

Lemma alone_now h n (P : shared -> Prop) s : P s -> alone h n P s.
Proof. intros HP. exists 0%nat. split; [lia|done]. Qed.

Lemma alone_step h n P s : alone h n P (hstep h s) -> alone h (S n) P s.
Proof. intros (k & Hk & HP). exists (S k). split; [lia|done]. Qed.

Lemma alone_le h n n' P s : alone h n P s -> (n <= n')%nat -> alone h n' P s.
Proof. intros (k & Hk & HP) Hn. exists k. split; [lia|done]. Qed.

Lemma inv_schedule l s : inv s -> inv (schedule l s).
Proof. revert s. induction l as [|h l IH]; intros s I; [done|]. by apply IH, inv_hstep. Qed.

(** One access of [h], when its program counter is known. *)
Ltac hart_step E := unfold hstep; rewrite E; simpl; rewrite ?fn_lookup_insert.

(** The holder of the lock leaves its critical section and frees the lock. *)
Lemma leaves s h : inv s -> owns_lock (pcs s h) = true -> alone h 6 (fun s => locked s = false) s.
Proof.
  assert (S1 : forall s, pcs s h = RelUnlock -> alone h 1 (fun s => locked s = false) s).
  { intros s1 E. apply alone_step, alone_now. by hart_step E. }
  assert (S2 : forall s, pcs s h = RelClearCpu -> alone h 2 (fun s => locked s = false) s).
  { intros s1 E. apply alone_step, S1. by hart_step E. }
  assert (S3 : forall s, inv s -> pcs s h = RelLoadCpu -> alone h 3 (fun s => locked s = false) s).
  { intros s1 I E. apply alone_step, S2. hart_step E. rewrite bool_decide_true; [done|].
    apply (inv_owner _ I). by rewrite E. }
  assert (S4 : forall s, inv s -> pcs s h = RelLoadLocked -> alone h 4 (fun s => locked s = false) s).
  { intros s1 I E. apply alone_step, S3; [by apply inv_hstep|]. hart_step E.
    by rewrite (inv_locked _ I h) by (by rewrite E). }
  assert (S5 : forall s, inv s -> pcs s h = Critical -> alone h 5 (fun s => locked s = false) s).
  { intros s1 I E. apply alone_step, S4; [by apply inv_hstep|by hart_step E]. }
  intros I Hown. destruct (pcs s h) eqn:E; try done.
  - apply alone_step, S5; [by apply inv_hstep|by hart_step E].
  - eapply alone_le; [by apply S5|lia].
  - eapply alone_le; [by apply S4|lia].
  - eapply alone_le; [by apply S3|lia].
  - eapply alone_le; [by apply S2|lia].
  - eapply alone_le; [by apply S1|lia].
Qed.

(** A hart that wants a free lock gets it. *)
Lemma enters s h : inv s -> locked s = false -> alone h 4 (fun s => pcs s h = Critical) s.
Proof.
  assert (S1 : forall s, pcs s h = AcqSetCpu -> alone h 1 (fun s => pcs s h = Critical) s).
  { intros s1 E. apply alone_step, alone_now. by hart_step E. }
  assert (S2 : forall s, locked s = false -> pcs s h = AcqSwap -> alone h 2 (fun s => pcs s h = Critical) s).
  { intros s1 F E. apply alone_step, S1. unfold hstep. rewrite E, F. apply fn_lookup_insert. }
  assert (S3 : forall s, locked s = false -> pcs s h = AcqLoadLocked -> alone h 3 (fun s => pcs s h = Critical) s).
  { intros s1 F E. apply alone_step, S2; unfold hstep; rewrite E; [done|]. rewrite F. apply fn_lookup_insert. }
  intros I F. destruct (pcs s h) eqn:E;
    try (rewrite (inv_locked _ I h) in F by (by rewrite E); done).
  - apply alone_step, S3; [unfold hstep; by rewrite E|by hart_step E].
  - eapply alone_le; [by apply S3|lia].
  - eapply alone_le; [apply alone_step, S2|]; [unfold hstep; by rewrite E| |reflexivity || lia].
    hart_step E. rewrite bool_decide_false; [done|]. intros D. apply (inv_owner _ I) in D. by rewrite E in D.
  - eapply alone_le; [by apply S2|lia].
  - by destruct (inv_no_panic _ I h).
Qed.

(** C37: the lock does not deadlock: from every reachable state every hart that
    is not yet in its critical section can get there within ten accesses, six
    of the present holder and four of its own. *)
Theorem lock_progress s h :
  rtc step init s -> pcs s h <> Critical ->
  exists h' k k', (k <= 6)%nat /\ (k' <= 4)%nat /\
    pcs (schedule (replicate k h' ++ replicate k' h) s) h = Critical.
Proof.
  intros R Hne. pose proof (inv_reachable s R) as I. destruct (locked s) eqn:F.
  - destruct (inv_holder _ I F) as [h' Hown].
    destruct (leaves s h' I Hown) as (k & Hk & F1).
    destruct (enters _ h (inv_schedule _ _ I) F1) as (k' & Hk' & E2).
    exists h', k, k'. split; [done|]. split; [done|]. unfold schedule in *. by rewrite foldl_app.
  - destruct (enters s h I F) as (k' & Hk' & E2). exists h, 0%nat, k'. split; [lia|done].
Qed.

Lemma lock_progress_witness :
  let s := hstep 1 (hstep 0 (hstep 1 (hstep 0 (hstep 0 (hstep 0 init))))) in
  exists h' k k', (k <= 6)%nat /\ (k' <= 4)%nat /\
    pcs (schedule (replicate k h' ++ replicate k' 1%nat) s) 1%nat = Critical.
Proof.
  intros s. apply (lock_progress s 1).
  - do 6 (eapply rtc_r; [|apply step_hart]). apply rtc_refl.
  - discriminate.
Defined.

End Harts.

