(* ===== verification/Kalloc.v ===== *)
(** * kernel/kalloc.c: the physical page allocator

    Free pages form a linked list through their own first eight bytes.
    [kmem_inv s l] says that list is [l]: the theorems describe every
    operation by what it does to [l] and to the contents of memory. *)

From S2P Require Import Prelude Param Mem CString Kernel Spinlock.
Open Scope Z_scope.

Section kalloc.
Context `{L : Linker}.

(** ** Operations *)

Definition modify_mem (f : memory -> memory) : K unit :=
  modify (fun s => set_mem (f (k_mem s)) s).

Definition kfree (pa : Z) : K unit :=
  if negb (pa mod PGSIZE =? 0) || (pa <? sym_end) || (pa >=? PHYSTOP) then panic "kfree" else
  do! modify_mem (fun m => memset m pa 1 PGSIZE);
  do! acquire LKkmem;
  do! modify (fun s => set_mem (st64 (k_mem s) pa (k_freelist s)) s);
  do! modify (set_freelist pa);
  release LKkmem.

Definition kalloc : K Z :=
  do! acquire LKkmem;
  let! r := gets k_freelist in
  do! if! negb (r =? 0) then modify (fun s => set_freelist (ld64 (k_mem s) r) s);
  do! release LKkmem;
  do! if! negb (r =? 0) then modify_mem (fun m => memset m r 5 PGSIZE);
  kret r.

Fixpoint freerange_loop (p pa_end : Z) (fuel : nat) : K unit :=
  match fuel with
  | O => fun _ => NoFuel
  | S fuel =>
    if p + PGSIZE <=? pa_end then
      do! kfree p;
      freerange_loop (p + PGSIZE) pa_end fuel
    else kret tt
  end.

(** One step of fuel per page of the range, and one to leave the loop. *)
Definition freerange (pa_start pa_end : Z) : K unit :=
  freerange_loop (PGROUNDUP pa_start) pa_end (S (Z.to_nat ((pa_end - pa_start) / PGSIZE))).

Definition kinit : K unit :=
  do! initlock LKkmem;
  freerange sym_end PHYSTOP.

(** More steps than there are pages of RAM. *)
Definition freelist_fuel : nat := S (Z.to_nat ((PHYSTOP - KERNBASE) / PGSIZE)).

Fixpoint freemem_loop (m : memory) (r num : Z) (fuel : nat) : option Z :=
  match fuel with
  | O => None
  | S fuel => if r =? 0 then Some num else freemem_loop m (ld64 m r) (u64 (num + 1)) fuel
  end.

Definition freemem : K Z := fun s =>
  match freemem_loop (k_mem s) (k_freelist s) 0 freelist_fuel with
  | Some num => Ret (s32 (u64 (num * PGSIZE))) s
  | None => NoFuel
  end.

(** ** The free list *)

Definition page_ok (p : Z) : Prop := p mod PGSIZE = 0 /\ sym_end <= p < PHYSTOP.

Fixpoint flist (m : memory) (r : Z) (l : list Z) : Prop :=
  match l with
  | [] => r = 0
  | p :: l => r = p /\ flist m (ld64 m p) l
  end.

Record kmem_inv (s : kst) (l : list Z) : Prop := {
  ki_list : flist (k_mem s) (k_freelist s) l;
  ki_nodup : NoDup l;
  ki_pages : Forall page_ok l;
  ki_lock : is_free LKkmem s;
  ki_cpu : cpu_ok s;
  ki_mem : mem_ok (k_mem s)
}.

(** Bytes of [m2] outside the page [p] are those of [m1]. *)
Definition same_outside (p : Z) (m1 m2 : memory) : Prop :=
  forall a, a < p \/ p + PGSIZE <= a -> ld8 m2 a = ld8 m1 a.

Lemma flist_ext m1 m2 r l :
  (forall p, p ∈ l -> ld64 m1 p = ld64 m2 p) -> flist m1 r l -> flist m2 r l.
Proof.
  revert r. induction l as [|p l IH]; intros r H; simpl; [done|].
  intros [-> Hl]. split; [done|]. rewrite <- H by constructor.
  apply IH; [|done]. intros q Hq. apply H. by constructor.
Qed.

Lemma page_disjoint p q : page_ok p -> page_ok q -> p <> q -> q + PGSIZE <= p \/ p + PGSIZE <= q.
Proof. intros [Hp _] [Hq _] Hne. unfold PGSIZE in *. zlia. Qed.

Lemma page_pos `{!LinkerOk} p : page_ok p -> 0 < p.
Proof.
  intros [_ Hp]. destruct linker_order as (H1 & H2 & H3). unfold KERNBASE in *. lia.
Qed.

(** The list does not depend on the bytes of a page that is not on it. *)
Lemma flist_same_outside m1 m2 r l p :
  same_outside p m1 m2 -> page_ok p -> Forall page_ok l -> p ∉ l ->
  flist m1 r l -> flist m2 r l.
Proof.
  intros Hs Hp Hl Hn. apply flist_ext. intros q Hq. apply ld_ext. intros b Hb. symmetry.
  apply Hs. rewrite Forall_forall in Hl.
  assert (p <> q) by (by intros ->).
  destruct (page_disjoint p q Hp (Hl q Hq)); [done|..]; unfold PGSIZE in *; lia.
Qed.

Lemma same_outside_memset m p c : same_outside p m (memset m p c PGSIZE).
Proof. intros a Ha. apply ld8_memset_out; unfold PGSIZE in *; lia. Qed.

(** ** [kalloc] and [kfree] *)

(** The critical sections change only memory and the list head. *)
Lemma released_frame fl m s :
  cpu_ok s -> is_free LKkmem s ->
  released LKkmem (set_freelist fl (set_mem m (acquired LKkmem s))) =
  set_freelist fl (set_mem m (norm s)).
Proof. intros Hc Hf. rewrite <- (released_acquired LKkmem s) by done. reflexivity. Qed.

Lemma release_frame fl m s :
  cpu_ok s -> is_free LKkmem s ->
  release LKkmem (set_freelist fl (set_mem m (acquired LKkmem s))) =
  Ret tt (set_freelist fl (set_mem m (norm s))).
Proof.
  intros Hc Hf. rewrite <- released_frame by done. apply release_run.
  - exact (acquired_ok LKkmem s Hc).
  - exact (acquired_held LKkmem s).
  - pose proof (acquired_noff LKkmem s Hc) as E. destruct Hc as (_ & Hn & _).
    change (1 <= c_noff (mycpu (acquired LKkmem s))). rewrite E. lia.
Qed.

Lemma kfree_run pa s :
  page_ok pa -> cpu_ok s -> is_free LKkmem s ->
  kfree pa s =
  Ret tt (set_mem (st64 (memset (k_mem s) pa 1 PGSIZE) pa (k_freelist s))
           (set_freelist pa (norm s))).
Proof.
  intros [Ha Hb] Hc Hf. unfold kfree. rewrite Ha.
  destruct (Z.ltb_spec pa sym_end); [lia|]. rewrite Z.geb_leb.
  destruct (Z.leb_spec PHYSTOP pa); [lia|]. simpl.
  unfold modify_mem. rewrite kbind_modify.
  set (s1 := set_mem (memset (k_mem s) pa 1 PGSIZE) s).
  krun (acquire_run LKkmem s1 Hc Hf). rewrite !kbind_modify.
  exact (release_frame pa _ s1 Hc Hf).
Qed.

Lemma kalloc_run_empty s :
  k_freelist s = 0 -> cpu_ok s -> is_free LKkmem s -> kalloc s = Ret 0 (norm s).
Proof.
  intros H0 Hc Hf. unfold kalloc. krun (acquire_run LKkmem s Hc Hf). rewrite kbind_gets.
  change (k_freelist (acquired LKkmem s)) with (k_freelist s). rewrite H0.
  cbn [Z.eqb negb]. rewrite kbind_kret.
  krun (release_frame (k_freelist s) (k_mem s) s Hc Hf). done.
Qed.

Lemma kalloc_run s :
  k_freelist s <> 0 -> cpu_ok s -> is_free LKkmem s ->
  kalloc s = Ret (k_freelist s)
    (set_mem (memset (k_mem s) (k_freelist s) 5 PGSIZE)
      (set_freelist (ld64 (k_mem s) (k_freelist s)) (norm s))).
Proof.
  intros H0 Hc Hf. unfold kalloc. krun (acquire_run LKkmem s Hc Hf). rewrite kbind_gets.
  change (k_freelist (acquired LKkmem s)) with (k_freelist s).
  destruct (Z.eqb_spec (k_freelist s) 0); [done|]. cbn [negb]. rewrite kbind_modify.
  krun (release_frame (ld64 (k_mem s) (k_freelist s)) (k_mem s) s Hc Hf).
  reflexivity.
Qed.

Lemma kmem_inv_norm s l : kmem_inv s l -> kmem_inv (norm s) l.
Proof. intros []. split; auto with krun. Qed.

(** What a client needs to know of a state that only lost or gained pages. *)
Definition kmem_step (s s' : kst) : Prop :=
  s' = set_mem (k_mem s') (set_freelist (k_freelist s') (norm s)).

Section with_layout.
Context `{!LinkerOk}.

Lemma kmem_inv_intro s m fl l :
  cpu_ok s -> is_free LKkmem s -> mem_ok m -> flist m fl l -> NoDup l -> Forall page_ok l ->
  kmem_inv (set_mem m (set_freelist fl (norm s))) l.
Proof. intros Hc Hf. split; try done. exact (cpu_ok_norm s Hc). Qed.

Lemma kalloc_inv s p l :
  kmem_inv s (p :: l) ->
  exists s', kalloc s = Ret p s' /\ kmem_inv s' l /\ kmem_step s s' /\
    same_outside p (k_mem s) (k_mem s') /\
    (forall a, p <= a < p + PGSIZE -> ld8 (k_mem s') a = 5).
Proof.
  intros [[E Hl] Hnd Hp Hlk Hc Hm]. apply NoDup_cons in Hnd as [Hni Hnd].
  apply Forall_cons in Hp as [Hpp Hp]. pose proof (page_pos p Hpp).
  rewrite kalloc_run by (done || lia). rewrite E. eexists. split; [done|].
  split_and!; simpl.
  - apply kmem_inv_intro; [done|done|auto with mem| |done|done].
    apply (flist_same_outside (k_mem s) _ _ _ p); auto using same_outside_memset.
  - reflexivity.
  - apply same_outside_memset.
  - intros a Ha. by rewrite ld8_memset_in.
Qed.

Lemma kalloc_inv_empty s :
  kmem_inv s [] -> kalloc s = Ret 0 (norm s) /\ kmem_inv (norm s) [].
Proof.
  intros Hi. split; [|by apply kmem_inv_norm]. destruct Hi. by apply kalloc_run_empty.
Qed.

Lemma kfree_inv s p l :
  kmem_inv s l -> page_ok p -> p ∉ l ->
  exists s', kfree p s = Ret tt s' /\ kmem_inv s' (p :: l) /\ kmem_step s s' /\
    same_outside p (k_mem s) (k_mem s').
Proof.
  intros [Hl Hnd Hp Hlk Hc Hm] Hpp Hni. rewrite kfree_run by done.
  assert (Hso : same_outside p (k_mem s)
                  (st64 (memset (k_mem s) p 1 PGSIZE) p (k_freelist s))).
  { intros a Ha. rewrite ld8_st_out by (unfold PGSIZE in *; lia).
    by apply same_outside_memset. }
  assert (Hr : 0 <= k_freelist s < 2 ^ 64).
  { destruct l as [|q l]; simpl in Hl; [lia|]. destruct Hl as [-> _].
    apply Forall_cons in Hp as [Hq _]. pose proof (page_pos q Hq). destruct Hq as [_ Hq].
    unfold PHYSTOP, KERNBASE in Hq. lia. }
  eexists. split; [done|]. split_and!; simpl; [|reflexivity|done].
  apply kmem_inv_intro; [done|done|auto with mem| |by apply NoDup_cons|by apply Forall_cons].
  split; [done|]. rewrite ld64_st64_eq by done.
  by apply (flist_same_outside (k_mem s) _ _ _ p).
Qed.

(** [kalloc] on a non-empty list pops its first page, fills it with 5s and
    touches no other byte of memory and no other global. *)
Theorem kalloc_spec s p l :
  kmem_inv s (p :: l) ->
  exists s', kalloc s = Ret p s' /\ kmem_inv s' l /\ kmem_step s s' /\
    same_outside p (k_mem s) (k_mem s') /\
    (forall a, p <= a < p + PGSIZE -> ld8 (k_mem s') a = 5).
Proof. apply kalloc_inv. Qed.

(** ** Sequences of allocations and frees *)

(** A client that allocates pages and frees those it holds: [Some i] frees
    its [i]-th page, [None] allocates. *)
Definition client_op (held : list Z) (op : option nat) : K (list Z) :=
  match op with
  | None =>
    let! p := kalloc in
    kret (if p =? 0 then held else p :: held)
  | Some i =>
    match held !! i with
    | Some p => do! kfree p; kret (delete i held)
    | None => kret held
    end
  end.

Fixpoint client (held : list Z) (ops : list (option nat)) : K (list Z) :=
  match ops with
  | [] => kret held
  | op :: ops => let! held := client_op held op in client held ops
  end.

Lemma client_op_inv s held l op :
  kmem_inv s l -> NoDup (held ++ l) -> Forall page_ok held ->
  exists s' held' l', client_op held op s = Ret held' s' /\ kmem_inv s' l' /\
    held' ++ l' ≡ₚ held ++ l /\ Forall page_ok held'.
Proof.
  intros Hi Hnd Hh. destruct op as [i|]; simpl.
  - destruct (held !! i) as [p|] eqn:E; [|by exists s, held, l].
    pose proof (delete_Permutation held i p E) as Hp.
    assert (Hpp : page_ok p) by (rewrite Forall_lookup in Hh; eauto).
    destruct (kfree_inv s p l Hi Hpp) as (s' & R & Hi' & _).
    { rewrite Hp in Hnd. simpl in Hnd. apply NoDup_cons in Hnd as [Hn _]. set_solver. }
    exists s', (delete i held), (p :: l). krun R. split_and!; [done|done| |].
    + rewrite Hp at 2. by rewrite <- Permutation_middle.
    + rewrite Hp in Hh. by apply Forall_cons in Hh as [_ Hh].
  - destruct l as [|p l].
    + destruct (kalloc_inv_empty s Hi) as [R Hi']. exists (norm s), held, []. by krun R.
    + destruct (kalloc_inv s p l Hi) as (s' & R & Hi' & _). krun R.
      assert (Hpp : page_ok p) by (destruct Hi as [_ _ Hp _ _ _]; by apply Forall_cons in Hp as [? _]).
      pose proof (page_pos p Hpp). destruct (Z.eqb_spec p 0); [lia|].
      exists s', (p :: held), l. split_and!; [done|done| |by apply Forall_cons].
      by rewrite <- Permutation_middle.
Qed.

Lemma client_inv ops s held l :
  kmem_inv s l -> NoDup (held ++ l) -> Forall page_ok held ->
  exists s' held' l', client held ops s = Ret held' s' /\ kmem_inv s' l' /\
    held' ++ l' ≡ₚ held ++ l /\ Forall page_ok held'.
Proof.
  revert s held l. induction ops as [|op ops IH]; intros s held l Hi Hnd Hh; simpl.
  - by exists s, held, l.
  - destruct (client_op_inv s held l op Hi Hnd Hh) as (s1 & held1 & l1 & R & Hi1 & Hp1 & Hh1).
    krun R. destruct (IH s1 held1 l1) as (s2 & held2 & l2 & R2 & Hi2 & Hp2 & Hh2); [done| |done|].
    + by rewrite Hp1.
    + exists s2, held2, l2. split_and!; [done|done| |done]. by rewrite Hp2.
Qed.

(** C26: whatever sequence of [kalloc]s and of [kfree]s of held pages a client
    runs, nothing panics, the pages it holds and the free list stay a
    partition of the same set of pages, and no page is handed out twice. *)
Theorem kalloc_kfree_conserve ops s held l :
  kmem_inv s l -> NoDup (held ++ l) -> Forall page_ok held ->
  exists s' held' l', client held ops s = Ret held' s' /\ kmem_inv s' l' /\
    held' ++ l' ≡ₚ held ++ l /\ NoDup (held' ++ l').
Proof.
  intros Hi Hnd Hh. destruct (client_inv ops s held l Hi Hnd Hh) as (s' & h' & l' & R & Hi' & Hp & _).
  exists s', h', l'. split_and!; [done..|]. by rewrite Hp.
Qed.

(** [kfree] accepts exactly the page-aligned addresses between the end of
    the kernel and [PHYSTOP], and panics on every other address without
    touching anything; an accepted page becomes the head of the list. *)
Theorem kfree_spec s p l :
  kmem_inv s l ->
  (~ page_ok p -> kfree p s = Panic "kfree" s) /\
  (page_ok p -> p ∉ l ->
   exists s', kfree p s = Ret tt s' /\ kmem_inv s' (p :: l) /\ kmem_step s s' /\
     same_outside p (k_mem s) (k_mem s')).
Proof.
  intros Hi. split; [|by apply kfree_inv]. unfold page_ok, kfree, panic. intros Hn.
  rewrite Z.geb_leb. zcases; simpl; try done. exfalso. apply Hn. lia.
Qed.

(** ** [freerange] and [kinit] *)

Fixpoint page_range (p : Z) (n : nat) : list Z :=
  match n with
  | O => []
  | S n => p :: page_range (p + PGSIZE) n
  end.

Lemma freerange_loop_inv n s p pa_end l fuel :
  kmem_inv s l -> p mod PGSIZE = 0 -> sym_end <= p -> pa_end <= PHYSTOP ->
  Forall (fun q => q < p) l ->
  n = Z.to_nat ((pa_end - p) / PGSIZE) -> (n < fuel)%nat ->
  exists s', freerange_loop p pa_end fuel s = Ret tt s' /\
    kmem_inv s' (reverse (page_range p n) ++ l).
Proof.
  revert s p l fuel. induction n as [|n IH]; intros s p l [|fuel] Hi Ha Hb He Hl Hn Hf; try lia;
    simpl; destruct (Z.leb_spec (p + PGSIZE) pa_end).
  - exfalso. assert (1 <= (pa_end - p) / PGSIZE); [|lia].
    apply Z.div_le_lower_bound; unfold PGSIZE in *; lia.
  - by exists s.
  - assert (Hpp : page_ok p) by (split; [done|unfold PGSIZE in *; lia]).
    destruct (kfree_inv s p l Hi Hpp) as (s1 & R & Hi1 & _).
    { rewrite Forall_forall in Hl. intros Hin. specialize (Hl p Hin). lia. }
    krun R. destruct (IH s1 (p + PGSIZE) (p :: l) fuel) as (s2 & R2 & Hi2); try done.
    + rewrite <- Ha. unfold PGSIZE. zlia.
    + unfold PGSIZE in *. lia.
    + apply Forall_cons. split; [unfold PGSIZE; lia|].
      eapply Forall_impl; [done|]. intros q Hq. simpl in Hq. unfold PGSIZE. lia.
    + replace (pa_end - (p + PGSIZE)) with (pa_end - p + (-1) * PGSIZE) by lia.
      rewrite Z.div_add by done. lia.
    + lia.
    + exists s2. split; [done|]. by rewrite reverse_cons, <- app_assoc.
  - exfalso. assert ((pa_end - p) / PGSIZE < 1); [|lia].
    apply Z.div_lt_upper_bound; unfold PGSIZE in *; lia.
Qed.

Lemma kinit_inv s :
  cpu_ok s -> mem_ok (k_mem s) -> k_freelist s = 0 ->
  exists s', kinit s = Ret tt s' /\
    kmem_inv s' (reverse (page_range (PGROUNDUP sym_end)
                            (Z.to_nat ((PHYSTOP - PGROUNDUP sym_end) / PGSIZE)))).
Proof.
  intros Hc Hm H0. destruct linker_order as (O1 & O2 & O3).
  assert (Hr : 0 <= sym_end /\ sym_end + PGSIZE - 1 < 2 ^ 64).
  { unfold PHYSTOP, KERNBASE, PGSIZE in *. lia. }
  pose proof (PGROUNDUP_bounds _ (proj1 Hr) (proj2 Hr)) as Hb.
  unfold kinit, initlock, put_lock, freerange. rewrite kbind_modify.
  set (s1 := set_locks _ s).
  destruct (freerange_loop_inv (Z.to_nat ((PHYSTOP - PGROUNDUP sym_end) / PGSIZE)) s1
              (PGROUNDUP sym_end) PHYSTOP []
              (S (Z.to_nat ((PHYSTOP - sym_end) / PGSIZE)))) as (s2 & R & Hi); try done.
  - split; try done; [constructor|]. unfold is_free, s1. simpl. by rewrite lookup_insert_eq.
  - apply PGROUNDUP_aligned; lia.
  - lia.
  - assert ((PHYSTOP - PGROUNDUP sym_end) / PGSIZE <= (PHYSTOP - sym_end) / PGSIZE); [|lia].
    apply Z.div_le_mono; [done|lia].
  - rewrite app_nil_r in Hi. eauto.
Qed.

(** Booting the allocator puts exactly the whole pages between [end] and
    [PHYSTOP] on the free list, the highest first. *)
Theorem kinit_spec s :
  cpu_ok s -> mem_ok (k_mem s) -> k_freelist s = 0 ->
  exists s', kinit s = Ret tt s' /\
    kmem_inv s' (reverse (page_range (PGROUNDUP sym_end)
                            (Z.to_nat ((PHYSTOP - PGROUNDUP sym_end) / PGSIZE)))).
Proof. apply kinit_inv. Qed.

(** ** [freemem] *)

Lemma freemem_loop_run m r l num fuel :
  flist m r l -> Forall (fun p => 0 < p) l -> (length l < fuel)%nat ->
  0 <= num -> num + Z.of_nat (length l) < 2 ^ 64 ->
  freemem_loop m r num fuel = Some (num + Z.of_nat (length l)).
Proof.
  revert r num fuel. induction l as [|p l IH]; intros r num [|fuel] Hl Hp Hf Hn Hb;
    simpl in *; try lia.
  - subst r. rewrite Z.eqb_refl. f_equal. lia.
  - destruct Hl as [-> Hl]. apply Forall_cons in Hp as [Hpp Hp].
    destruct (Z.eqb_spec p 0); [lia|]. rewrite u64_small by lia.
    rewrite IH; [f_equal|..]; try done; lia.
Qed.

(** Pages of RAM are few, so a list without repetition is short. *)
Lemma free_pages_bound l :
  NoDup l -> Forall page_ok l -> Z.of_nat (length l) <= (PHYSTOP - KERNBASE) / PGSIZE.
Proof.
  intros Hnd Hp. destruct linker_order as (O1 & O2 & O3).
  assert (Hs : l ⊆+ (fun i => KERNBASE + i * PGSIZE) <$> seqZ 0 32768).
  { apply NoDup_submseteq; [done|]. intros p Hin. rewrite Forall_forall in Hp.
    destruct (Hp p Hin) as [Ha Hb]. apply list_elem_of_fmap.
    exists ((p - KERNBASE) / PGSIZE). rewrite elem_of_seqZ.
    unfold PHYSTOP, KERNBASE, PGSIZE in *. zlia. }
  apply submseteq_length in Hs. rewrite length_fmap, length_seqZ in Hs.
  change ((PHYSTOP - KERNBASE) / PGSIZE) with 32768. lia.
Qed.

(** [freemem] returns the number of free bytes, PGSIZE times the number
    of pages on the list, and its walk always ends. *)
Theorem freemem_spec s l :
  kmem_inv s l -> freemem s = Ret (PGSIZE * Z.of_nat (length l)) s.
Proof.
  intros [Hl Hnd Hp _ _ _]. unfold freemem.
  pose proof (free_pages_bound l Hnd Hp) as Hb. change ((PHYSTOP - KERNBASE) / PGSIZE) with 32768 in Hb.
  rewrite (freemem_loop_run _ _ l); [|done| | |lia|lia].
  - f_equal. rewrite Z.add_0_l, u64_small, s32_small; unfold PGSIZE; lia.
  - eapply Forall_impl; [done|]. apply page_pos.
  - unfold freelist_fuel. change ((PHYSTOP - KERNBASE) / PGSIZE) with 32768. lia.
Qed.

End with_layout.
End kalloc.

(** ** The allocator run on a small layout: 24 pages above [end] *)

Section demo.
#[local] Existing Instance demo_linker.
#[local] Existing Instance demo_linker_ok.

Definition demo_pages : list Z :=
  reverse (page_range (PGROUNDUP sym_end) (Z.to_nat ((PHYSTOP - PGROUNDUP sym_end) / PGSIZE))).

Lemma boot_cpu_ok : cpu_ok boot.
Proof. split; [simpl; lia|]. simpl. split; [lia|done]. Qed.

Lemma kinit_spec_witness :
  exists s, kinit boot = Ret tt s /\ kmem_inv s demo_pages /\ length demo_pages = 24%nat.
Proof.
  destruct (kinit_spec boot) as (s & R & Hi).
  - apply boot_cpu_ok.
  - apply mem_ok_empty.
  - reflexivity.
  - exists s. split; [exact R|]. split; [exact Hi|reflexivity].
Defined.

(** A booted allocator, for the witnesses below. *)
Lemma demo_booted : exists s, kmem_inv s demo_pages.
Proof.
  destruct (kinit_inv boot) as (s & R & Hi); [apply boot_cpu_ok|apply mem_ok_empty|done|].
  by exists s.
Qed.

Definition demo_page : Z := PHYSTOP - PGSIZE.

Lemma kalloc_spec_witness :
  exists s s', kalloc s = Ret demo_page s' /\ ld8 (k_mem s') demo_page = 5.
Proof.
  destruct demo_booted as [s Hi]. exists s.
  destruct (kalloc_spec s demo_page (tail demo_pages)) as (s' & R & _ & _ & _ & Hd).
  - exact Hi.
  - exists s'. split; [exact R|]. apply Hd. unfold PGSIZE. lia.
Defined.

Lemma kfree_spec_witness :
  exists s, kfree (PHYSTOP + 1) s = Panic "kfree" s /\ kfree 12288 s = Panic "kfree" s.
Proof.
  destruct demo_booted as [s Hi]. exists s. split.
  - apply (kfree_spec s _ demo_pages Hi). intros [H _]. vm_compute in H. discriminate.
  - apply (kfree_spec s _ demo_pages Hi). intros [_ H]. vm_compute in H. by destruct H as [[] _].
Defined.

Lemma kalloc_kfree_conserve_witness :
  exists s s' held, client [] [None; None; Some 0%nat; None] s = Ret held s' /\ NoDup held.
Proof.
  destruct demo_booted as [s Hi]. exists s.
  destruct (kalloc_kfree_conserve [None; None; Some 0%nat; None] s [] demo_pages Hi)
    as (s' & held & l & R & _ & _ & Hn).
  - apply (ki_nodup _ _ Hi).
  - constructor.
  - exists s', held. split; [exact R|]. by apply NoDup_app in Hn as [? _].
Defined.

Lemma freemem_spec_witness : exists s, freemem s = Ret 98304 s.
Proof. destruct demo_booted as [s Hi]. exists s. exact (freemem_spec s demo_pages Hi). Defined.
End demo.
