(* ===== verification/Sched.v ===== *)
(** * kernel/proc.c, first part: scheduling, [sleep] and [wakeup]

    [swtch] ends a thread's turn: the rest of the thread is the continuation
    of [Swtch].  Dereferencing a null [struct proc *] faults, which
    [kerneltrap] turns into a panic. *)

From S2P Require Import Prelude Param Mem Kernel Spinlock.
Open Scope Z_scope.

(** ** Fields of a process *)

Definition set_state (x : procstate) (p : proc) : proc :=
  mkproc x (p_chan p) (p_killed p) (p_xstate p) (p_pid p) (p_parent p) (p_kstack p) (p_sz p)
    (p_pagetable p) (p_trapframe p) (p_context p) (p_ofile p) (p_cwd p) (p_name p) (p_mask p).
Definition set_chan (x : option chan) (p : proc) : proc :=
  mkproc (p_state p) x (p_killed p) (p_xstate p) (p_pid p) (p_parent p) (p_kstack p) (p_sz p)
    (p_pagetable p) (p_trapframe p) (p_context p) (p_ofile p) (p_cwd p) (p_name p) (p_mask p).
Definition set_killed (x : Z) (p : proc) : proc :=
  mkproc (p_state p) (p_chan p) x (p_xstate p) (p_pid p) (p_parent p) (p_kstack p) (p_sz p)
    (p_pagetable p) (p_trapframe p) (p_context p) (p_ofile p) (p_cwd p) (p_name p) (p_mask p).

(** ** Operations *)

(** [myproc()] whose result is dereferenced. *)
Definition curproc : K nat :=
  let! p := myproc in
  match p with
  | Some i => kret i
  | None => panic "kerneltrap"
  end.

Definition swtch : K unit := fun s => Swtch s (fun s' => Ret tt s').

Definition sched : K unit :=
  let! p := curproc in
  let! h := holding (LKproc p) in
  if negb h then panic "sched p->lock" else
  let! noff := gets (fun s => c_noff (mycpu s)) in
  if negb (noff =? 1) then panic "sched locks" else
  let! st := gets (fun s => p_state (proc_at s p)) in
  if bool_decide (st = RUNNING) then panic "sched running" else
  let! on := intr_get in
  if (on : bool) then panic "sched interruptible" else
  let! intena := gets (fun s => c_intena (mycpu s)) in
  do! swtch;
  modify_cpu (set_intena intena).

Definition yield : K unit :=
  let! p := curproc in
  do! acquire (LKproc p);
  do! put_proc p (set_state RUNNABLE);
  do! sched;
  release (LKproc p).

Definition sleep (ch : chan) (lk : lockid) : K unit :=
  let! p := curproc in
  do! acquire (LKproc p);
  do! release lk;
  do! put_proc p (set_chan (Some ch));
  do! put_proc p (set_state SLEEPING);
  do! sched;
  do! put_proc p (set_chan None);
  do! release (LKproc p);
  acquire lk.

Definition wakeup (ch : chan) : K unit :=
  kfor (seq 0 NPROC) (fun i =>
    let! me := myproc in
    if! negb (bool_decide (me = Some i)) then
      (do! acquire (LKproc i);
       let! p := gets (fun s => proc_at s i) in
       do! if! bool_decide (p_state p = SLEEPING) && bool_decide (p_chan p = Some ch)
           then put_proc i (set_state RUNNABLE);
       release (LKproc i))).

(** The body of [kill]'s loop. *)
Definition kill_visit (pid : Z) (i : nat) : K (option Z) :=
  do! acquire (LKproc i);
  let! p := gets (fun s => proc_at s i) in
  if p_pid p =? pid then
    do! put_proc i (set_killed 1);
    do! if! bool_decide (p_state p = SLEEPING) then put_proc i (set_state RUNNABLE);
    do! release (LKproc i);
    kret (Some 0)
  else
    do! release (LKproc i);
    kret None.

Definition kill (pid : Z) : K Z :=
  let! r := kfirst (seq 0 NPROC) (kill_visit pid) in
  kret (default (-1) r).

Definition setkilled (p : nat) : K unit :=
  do! acquire (LKproc p);
  do! put_proc p (set_killed 1);
  release (LKproc p).

Definition killed (p : nat) : K Z :=
  do! acquire (LKproc p);
  let! k := gets (fun s => p_killed (proc_at s p)) in
  do! release (LKproc p);
  kret k.

(** The body of [scheduler]'s inner loop, for process [i] on this hart. *)
Definition scheduler_visit (i : nat) : K unit :=
  do! acquire (LKproc i);
  let! p := gets (fun s => proc_at s i) in
  do! if! bool_decide (p_state p = RUNNABLE) then
    (do! put_proc i (set_state RUNNING);
     do! modify_cpu (set_proc (Some i));
     do! swtch;
     modify_cpu (set_proc None));
  release (LKproc i).

(** [scheduler], for a given number of rounds of its endless loop. *)
Fixpoint scheduler_loop (rounds : nat) : K unit :=
  match rounds with
  | O => fun _ => NoFuel
  | S rounds =>
    do! intr_on;
    do! kfor (seq 0 NPROC) scheduler_visit;
    scheduler_loop rounds
  end.

Definition scheduler (rounds : nat) : K unit :=
  do! modify_cpu (set_proc None);
  scheduler_loop rounds.

(** Number of processes in use. *)
Definition procnum : K Z :=
  gets (fun s => foldl (fun num p => if bool_decide (p_state p = UNUSED) then num else num + 1)
                       0 (k_procs s)).

(** ** Locked updates of one process *)

Definition procs_free (s : kst) : Prop := forall i, (i < NPROC)%nat -> is_free (LKproc i) s.

(** Every process lock is free, this hart is sane, the table is full size. *)
Record sched_ok (s : kst) : Prop := {
  so_cpu : cpu_ok s;
  so_free : procs_free s;
  so_procs : length (k_procs s) = NPROC
}.

Lemma sched_ok_norm s : sched_ok s -> sched_ok (norm s).
Proof. intros []. split; auto with krun. Qed.

Lemma sched_ok_procs ps s : length ps = NPROC -> sched_ok s -> sched_ok (set_procs ps s).
Proof. intros E []. by split. Qed.

(** [release] of a lock taken in [s], after the table became [ps]. *)
Lemma release_procs lk ps s :
  cpu_ok s -> is_free lk s ->
  release lk (set_procs ps (acquired lk s)) = Ret tt (set_procs ps (norm s)).
Proof.
  intros Hc Hf.
  assert (Hn : 1 <= c_noff (mycpu (acquired lk s))).
  { rewrite acquired_noff by done. destruct Hc as (_ & ? & _). lia. }
  etransitivity;
    [exact (release_run lk (set_procs ps (acquired lk s)) (acquired_ok lk s Hc)
              (acquired_held lk s) Hn)|].
  rewrite <- (released_acquired lk s Hc Hf). reflexivity.
Qed.

Lemma proc_at_lookup s i p : k_procs s !! i = Some p -> proc_at s i = p.
Proof. intros H. unfold proc_at. by rewrite H. Qed.

Lemma insert_proc_at s i : (i < length (k_procs s))%nat -> <[i := proc_at s i]> (k_procs s) = k_procs s.
Proof.
  intros H. destruct (lookup_lt_is_Some_2 _ _ H) as [p Hp].
  rewrite (proc_at_lookup s i p Hp). by apply list_insert_id.
Qed.

Lemma proc_at_norm s i : proc_at (norm s) i = proc_at s i.
Proof. done. Qed.

Lemma c_proc_norm s : cpu_ok s -> c_proc (mycpu (norm s)) = c_proc (mycpu s).
Proof. intros (H & _ & _). by rewrite mycpu_norm. Qed.

(** A loop over the table whose body rewrites the process it visits. *)
Section for_procs.
Variable body : nat -> K unit.
Variable f : option nat -> nat -> proc -> proc.
Hypothesis body_run : forall i s,
  sched_ok s -> (i < NPROC)%nat ->
  body i s = Ret tt (set_procs (<[i := f (c_proc (mycpu s)) i (proc_at s i)]> (k_procs s)) (norm s)).

Lemma kfor_procs_norm n a s :
  sched_ok s -> (a + n <= NPROC)%nat -> norm s = s ->
  kfor (seq a n) body s =
  Ret tt (set_procs (imap (fun j p => if decide (a <= j < a + n)%nat
                                      then f (c_proc (mycpu s)) j p else p) (k_procs s)) s).
Proof.
  revert a s. induction n as [|n IH]; intros a s Hok Hn Hnorm.
  - simpl. unfold kret. f_equal.
    replace (imap _ (k_procs s)) with (k_procs s); [reflexivity|].
    apply list_eq. intros j. rewrite list_lookup_imap. destruct (k_procs s !! j); simpl; [|done].
    rewrite decide_False by lia. done.
  - cbn [seq kfor]. destruct (lookup_lt_is_Some_2 (k_procs s) a) as [p Hp].
    { rewrite (so_procs s Hok). lia. }
    krun (body_run a s Hok ltac:(lia)). rewrite Hnorm.
    rewrite IH; [| |lia|].
    + f_equal. unfold set_procs. simpl. f_equal. apply list_eq. intros j.
      rewrite !list_lookup_imap. change (mycpu _) with (mycpu s) at 1.
      destruct (decide (j = a)) as [->|].
      * rewrite list_lookup_insert_eq by (by eapply lookup_lt_Some).
        rewrite (proc_at_lookup s a p Hp), Hp. simpl.
        rewrite decide_False, decide_True by lia. done.
      * rewrite list_lookup_insert_ne by done. destruct (k_procs s !! j); simpl; [|done].
        repeat case_decide; done || lia.
    + apply sched_ok_procs; [|done]. by rewrite length_insert, (so_procs s Hok).
    + exact (f_equal (set_procs _) Hnorm).
Qed.

Lemma kfor_procs s :
  sched_ok s ->
  kfor (seq 0 NPROC) body s = Ret tt (set_procs (imap (f (c_proc (mycpu s))) (k_procs s)) (norm s)).
Proof.
  intros Hok. pose proof (so_cpu s Hok) as Hc.
  transitivity (kfor (seq 0 NPROC) body (norm s)).
  - change (seq 0 NPROC) with (0%nat :: seq 1 63). cbn [kfor]. unfold kbind.
    rewrite (body_run 0 s), (body_run 0 (norm s)) by (auto using sched_ok_norm; unfold NPROC; lia).
    rewrite norm_norm, c_proc_norm by done. done.
  - rewrite kfor_procs_norm; [|by apply sched_ok_norm|lia|by apply norm_norm].
    rewrite c_proc_norm by done. do 2 f_equal. apply list_eq. intros j.
    rewrite !list_lookup_imap. destruct (k_procs s !! j) as [p|] eqn:E.
    + change (k_procs (norm s)) with (k_procs s). rewrite E. simpl.
      apply lookup_lt_Some in E. rewrite (so_procs s Hok) in E. rewrite decide_True by lia. done.
    + change (k_procs (norm s)) with (k_procs s). by rewrite E.
Qed.
End for_procs.

(** What [wakeup] does to the process in slot [i]. *)
Definition woken (ch : chan) (me : option nat) (i : nat) (p : proc) : proc :=
  if bool_decide (me <> Some i) && bool_decide (p_state p = SLEEPING) &&
     bool_decide (p_chan p = Some ch)
  then set_state RUNNABLE p else p.

Lemma wakeup_run ch s :
  sched_ok s ->
  wakeup ch s = Ret tt (set_procs (imap (woken ch (c_proc (mycpu s))) (k_procs s)) (norm s)).
Proof.
  intros Hok. unfold wakeup. apply kfor_procs; [|done]. clear s Hok. intros i s Hok Hi.
  pose proof (so_cpu s Hok) as Hc. pose proof (so_free s Hok i Hi) as Hf.
  krun (myproc_run s Hc). unfold woken.
  assert (Hid : set_procs (<[i := proc_at s i]> (k_procs s)) (norm s) = norm s).
  { rewrite insert_proc_at by (rewrite (so_procs s Hok); lia). reflexivity. }
  destruct (decide (c_proc (mycpu s) = Some i)) as [E|E].
  - rewrite (bool_decide_true (c_proc (mycpu s) = Some i)) by done.
    rewrite bool_decide_false by tauto. simpl. by rewrite Hid.
  - rewrite (bool_decide_false (c_proc (mycpu s) = Some i)) by done.
    rewrite (bool_decide_true (c_proc (mycpu s) <> Some i)) by done. cbn [negb andb].
    krun (acquire_run (LKproc i) (norm s) (cpu_ok_norm s Hc) Hf). rewrite kbind_gets.
    change (proc_at (acquired (LKproc i) (norm s)) i) with (proc_at s i).
    pose proof (release_procs (LKproc i)) as Hrel.
    case_match.
    + unfold put_proc. rewrite kbind_modify.
      etransitivity; [exact (Hrel _ (norm s) (cpu_ok_norm s Hc) Hf)|]. by rewrite norm_norm.
    + rewrite kbind_kret, Hid.
      etransitivity; [exact (Hrel (k_procs s) (norm s) (cpu_ok_norm s Hc) Hf)|].
      rewrite norm_norm by done. reflexivity.
Qed.

(** [wakeup] makes runnable exactly the processes sleeping on the channel,
    the caller apart; every other field of every process and every other
    global is untouched, and all process locks are free again. *)
Theorem wakeup_spec ch s :
  sched_ok s ->
  exists s', wakeup ch s = Ret tt s' /\ sched_ok s' /\
    s' = set_procs (k_procs s') (norm s) /\
    forall i p, k_procs s !! i = Some p ->
      k_procs s' !! i =
      Some (if decide (c_proc (mycpu s) <> Some i /\ p_state p = SLEEPING /\ p_chan p = Some ch)
            then set_state RUNNABLE p else p).
Proof.
  intros Hok. rewrite wakeup_run by done. eexists. split; [done|]. split_and!.
  - apply sched_ok_procs; [|by apply sched_ok_norm]. by rewrite length_imap, (so_procs s Hok).
  - reflexivity.
  - intros i p Hp. simpl. rewrite list_lookup_imap, Hp. simpl. f_equal. unfold woken.
    case_decide as D.
    + destruct D as (D1 & D2 & D3). rewrite !bool_decide_true by done. done.
    + repeat case_bool_decide; simpl; try done. tauto.
Qed.

(** ** Searching the table under each process's lock *)

Section scan_procs.
Context {R : Type}.
Variable body : nat -> K (option R).
Variable test : proc -> bool.
Variable result : nat -> R.
Variable hit : nat -> kst -> kst.
Hypothesis body_run : forall i s,
  sched_ok s -> (i < NPROC)%nat ->
  body i s = if test (proc_at s i) then Ret (Some (result i)) (hit i (norm s))
             else Ret None (norm s).

Lemma kfirst_body_norm s : sched_ok s ->
  kfirst (seq 0 NPROC) body s = kfirst (seq 0 NPROC) body (norm s).
Proof.
  intros Hok. change (seq 0 NPROC) with (0%nat :: seq 1 63). cbn [kfirst]. unfold kbind.
  rewrite (body_run 0 s), (body_run 0 (norm s)) by (auto using sched_ok_norm; unfold NPROC; lia).
  rewrite norm_norm, proc_at_norm by apply Hok. done.
Qed.

Lemma kfirst_miss n a s :
  sched_ok s -> (a + n <= NPROC)%nat -> norm s = s ->
  (forall j, (a <= j < a + n)%nat -> test (proc_at s j) = false) ->
  kfirst (seq a n) body s = Ret None s.
Proof.
  revert a. induction n as [|n IH]; intros a Hok Hn Hnorm Ht; [done|].
  cbn [seq kfirst]. unfold kbind. rewrite body_run, Ht by (done || lia). simpl. rewrite Hnorm.
  apply IH; [done|lia|done|]. intros j Hj. apply Ht. lia.
Qed.

Lemma kfirst_hit n a i s :
  sched_ok s -> (a + n <= NPROC)%nat -> norm s = s -> (a <= i < a + n)%nat ->
  test (proc_at s i) = true -> (forall j, (a <= j < i)%nat -> test (proc_at s j) = false) ->
  kfirst (seq a n) body s = Ret (Some (result i)) (hit i s).
Proof.
  revert a. induction n as [|n IH]; intros a Hok Hn Hnorm Hi Ht Hj; [lia|].
  cbn [seq kfirst]. unfold kbind. rewrite body_run by (done || lia). rewrite Hnorm.
  destruct (decide (i = a)) as [->|].
  - by rewrite Ht.
  - rewrite Hj by lia. simpl. apply IH; try done; try lia. intros j Hj'. apply Hj. lia.
Qed.

(** The whole scan: the first process that passes the test, or none. *)
Lemma kfirst_none s :
  sched_ok s -> (forall i p, k_procs s !! i = Some p -> test p = false) ->
  kfirst (seq 0 NPROC) body s = Ret None (norm s).
Proof.
  intros Hok Ht. rewrite kfirst_body_norm by done.
  apply kfirst_miss; [by apply sched_ok_norm|lia|apply norm_norm, Hok|].
  intros j Hj. destruct (lookup_lt_is_Some_2 (k_procs s) j) as [p Hp].
  { rewrite (so_procs s Hok). lia. }
  rewrite proc_at_norm, (proc_at_lookup s j p Hp). eauto.
Qed.

Lemma kfirst_some s i p :
  sched_ok s -> k_procs s !! i = Some p -> test p = true ->
  (forall j q, (j < i)%nat -> k_procs s !! j = Some q -> test q = false) ->
  kfirst (seq 0 NPROC) body s = Ret (Some (result i)) (hit i (norm s)).
Proof.
  intros Hok Hp Ht Hj. rewrite kfirst_body_norm by done.
  assert (Hi : (i < NPROC)%nat) by (rewrite <- (so_procs s Hok); by eapply lookup_lt_Some).
  apply kfirst_hit; [by apply sched_ok_norm|lia|apply norm_norm, Hok|lia| |].
  - by rewrite proc_at_norm, (proc_at_lookup s i p Hp).
  - intros j Hji. destruct (lookup_lt_is_Some_2 (k_procs s) j) as [q Hq].
    { rewrite (so_procs s Hok). lia. }
    rewrite proc_at_norm, (proc_at_lookup s j q Hq). apply (Hj j q); [lia|done].
Qed.
End scan_procs.

(** ** [kill] *)

Definition kill_proc (p : proc) : proc :=
  if bool_decide (p_state p = SLEEPING) then set_state RUNNABLE (set_killed 1 p)
  else set_killed 1 p.

Definition kill_hit (i : nat) (s : kst) : kst :=
  set_procs (<[i := kill_proc (proc_at s i)]> (k_procs s)) s.

Lemma kill_visit_run pid i s :
  sched_ok s -> (i < NPROC)%nat ->
  kill_visit pid i s = if p_pid (proc_at s i) =? pid then Ret (Some 0) (kill_hit i (norm s))
                       else Ret None (norm s).
Proof.
  intros Hok Hi. pose proof (so_cpu s Hok) as Hc. pose proof (so_free s Hok i Hi) as Hf.
  unfold kill_visit, kill_hit. krun (acquire_run (LKproc i) s Hc Hf). rewrite kbind_gets.
  change (proc_at (acquired (LKproc i) s) i) with (proc_at s i).
  destruct (p_pid (proc_at s i) =? pid).
  - unfold put_proc. rewrite kbind_modify.
    set (s1 := set_procs _ (acquired (LKproc i) s)).
    assert (E : proc_at s1 i = set_killed 1 (proc_at s i)).
    { apply proc_at_lookup. simpl. apply list_lookup_insert_eq. rewrite (so_procs s Hok). lia. }
    unfold kill_proc. change (proc_at (norm s) i) with (proc_at s i).
    case_bool_decide.
    + rewrite kbind_modify, E. simpl. rewrite list_insert_insert_eq.
      krun (release_procs (LKproc i) _ s Hc Hf). done.
    + rewrite kbind_kret. krun (release_procs (LKproc i) _ s Hc Hf). done.
  - krun (release_procs (LKproc i) (k_procs s) s Hc Hf). done.
Qed.

Lemma kill_run_none pid s :
  sched_ok s -> (forall i p, k_procs s !! i = Some p -> p_pid p <> pid) ->
  kill pid s = Ret (-1) (norm s).
Proof.
  intros Hok Hn. unfold kill.
  krun (kfirst_none _ (fun p => p_pid p =? pid) (fun _ => 0) kill_hit (kill_visit_run pid) s Hok
          (fun i p Hp => proj2 (Z.eqb_neq _ _) (Hn i p Hp))).
  done.
Qed.

Lemma kill_run_some pid s i p :
  sched_ok s -> k_procs s !! i = Some p -> p_pid p = pid ->
  (forall j q, (j < i)%nat -> k_procs s !! j = Some q -> p_pid q <> pid) ->
  kill pid s = Ret 0 (set_procs (<[i := kill_proc p]> (k_procs s)) (norm s)).
Proof.
  intros Hok Hp Hpid Hj. unfold kill.
  krun (kfirst_some _ (fun p => p_pid p =? pid) (fun _ => 0) kill_hit (kill_visit_run pid) s i p
          Hok Hp (proj2 (Z.eqb_eq _ _) Hpid)
          (fun j q Hlt Hq => proj2 (Z.eqb_neq _ _) (Hj j q Hlt Hq))).
  unfold kill_hit. rewrite proc_at_norm, (proc_at_lookup s i p Hp). done.
Qed.

(** [kill] marks the first process with that pid, makes it runnable if it
    was asleep and returns 0; with no such process it returns -1 and changes
    nothing. *)
Theorem kill_spec pid s :
  sched_ok s ->
  ((forall i p, k_procs s !! i = Some p -> p_pid p <> pid) -> kill pid s = Ret (-1) (norm s)) /\
  (forall i p, k_procs s !! i = Some p -> p_pid p = pid ->
     (forall j q, (j < i)%nat -> k_procs s !! j = Some q -> p_pid q <> pid) ->
     exists p', kill pid s = Ret 0 (set_procs (<[i := p']> (k_procs s)) (norm s)) /\
       p_killed p' = 1 /\
       p_state p' = (if decide (p_state p = SLEEPING) then RUNNABLE else p_state p) /\
       p_pid p' = p_pid p /\ p_chan p' = p_chan p).
Proof.
  intros Hok. split; [by apply kill_run_none|]. intros i p Hp Hpid Hj.
  exists (kill_proc p). split; [by apply kill_run_some|]. unfold kill_proc.
  case_bool_decide; rewrite ?decide_True, ?decide_False by done; done.
Qed.

(** ** Running the scheduling code step by step

    [at_ c ps l s] is [s] with this hart's CPU structure, the process table
    and the locks replaced: every primitive of this file maps such a state
    to such a state. *)

Definition at_ (c : cpu) (ps : list proc) (l : gmap lockid spinlock) (s : kst) : kst :=
  put_cpu c (set_procs ps (set_locks l s)).

Definition push_cpu (c : cpu) : cpu :=
  mkcpu (c_proc c) (c_noff c + 1) (if c_noff c =? 0 then c_sie c else c_intena c) false.
Definition pop_cpu (c : cpu) : cpu :=
  mkcpu (c_proc c) (c_noff c - 1) (c_intena c)
    (if (c_noff c - 1 =? 0) && c_intena c then true else c_sie c).
Definition norm_cpu (c : cpu) : cpu :=
  set_intena (if c_noff c =? 0 then c_sie c else c_intena c) c.

Lemma pop_push_nested c : 0 < c_noff c -> c_sie c = false -> pop_cpu (push_cpu c) = c.
Proof.
  destruct c as [q n ie on]. unfold pop_cpu, push_cpu. simpl. intros Hn ->.
  destruct (Z.eqb_spec n 0); [lia|]. destruct (Z.eqb_spec (n + 1 - 1) 0); [lia|].
  simpl. f_equal. lia.
Qed.

Definition held_by (h : nat) : spinlock := mkspin true (Some h).

Section run_at.
Variable s : kst.
Hypothesis Htp : (k_tp s < length (k_cpus s))%nat.

Lemma at_self : at_ (mycpu s) (k_procs s) (k_locks s) s = s.
Proof. exact (put_cpu_mycpu s Htp). Qed.

Lemma mycpu_at c ps l : mycpu (at_ c ps l s) = c.
Proof. exact (mycpu_put_cpu c s Htp). Qed.

Lemma put_cpu_at c c' ps l : put_cpu c' (at_ c ps l s) = at_ c' ps l s.
Proof. exact (put_cpu_put_cpu c' c (set_procs ps (set_locks l s))). Qed.

Lemma modify_cpu_at f c ps l : modify_cpu f (at_ c ps l s) = Ret tt (at_ (f c) ps l s).
Proof. unfold modify_cpu, modify. by rewrite mycpu_at, put_cpu_at. Qed.

Lemma put_proc_at i f c ps l p :
  ps !! i = Some p -> put_proc i f (at_ c ps l s) = Ret tt (at_ c (<[i := f p]> ps) l s).
Proof.
  intros Hp. unfold put_proc, modify. rewrite (proc_at_lookup _ i p) by done. reflexivity.
Qed.

Lemma curproc_at i c ps l :
  0 <= c_noff c -> (0 < c_noff c -> c_sie c = false) -> c_proc c = Some i ->
  curproc (at_ c ps l s) = Ret i (at_ (norm_cpu c) ps l s).
Proof.
  intros Hn Hs Hp. unfold curproc.
  assert (Hok : cpu_ok (at_ c ps l s)).
  { split; [apply put_cpu_tp, Htp|]. by rewrite mycpu_at. }
  krun (myproc_run _ Hok). rewrite mycpu_at, Hp. unfold kret, norm.
  rewrite mycpu_at, put_cpu_at. reflexivity.
Qed.

Lemma acquire_at lk c ps l :
  0 <= c_noff c -> (0 < c_noff c -> c_sie c = false) -> l !! lk = Some lock_free ->
  acquire lk (at_ c ps l s) = Ret tt (at_ (push_cpu c) ps (<[lk := held_by (k_tp s)]> l) s).
Proof.
  intros Hn Hs Hl. rewrite acquire_run.
  - unfold acquired, pushed. rewrite mycpu_at, put_cpu_at. reflexivity.
  - split; [apply put_cpu_tp, Htp|]. by rewrite mycpu_at.
  - exact Hl.
Qed.

Lemma release_at lk c ps l :
  1 <= c_noff c -> c_sie c = false -> l !! lk = Some (held_by (k_tp s)) ->
  release lk (at_ c ps l s) = Ret tt (at_ (pop_cpu c) ps (<[lk := lock_free]> l) s).
Proof.
  intros Hn Hs Hl. rewrite release_run.
  - unfold released, popped. f_equal.
    change (set_locks ?l' (at_ c ps l s)) with (at_ c ps l' s).
    rewrite mycpu_at, put_cpu_at. reflexivity.
  - split; [apply put_cpu_tp, Htp|]. rewrite mycpu_at. split; [lia|done].
  - exact Hl.
  - rewrite mycpu_at. lia.
Qed.

Lemma sched_at i c ps l p :
  c_noff c = 1 -> c_sie c = false -> c_proc c = Some i -> ps !! i = Some p ->
  p_state p <> RUNNING -> l !! LKproc i = Some (held_by (k_tp s)) ->
  sched (at_ c ps l s) =
  Swtch (at_ c ps l s) (fun s' => Ret tt (put_cpu (set_intena (c_intena c) (mycpu s')) s')).
Proof.
  intros Hn Hs Hp Hps Hst Hl. unfold sched.
  krun (curproc_at i c ps l ltac:(lia) (fun _ => Hs) Hp).
  assert (norm_cpu c = c) as ->.
  { unfold norm_cpu. by rewrite Hn. }
  unfold holding, lock_at. rewrite kbind_gets. change (k_locks (at_ c ps l s)) with l.
  rewrite Hl. change (k_tp (at_ c ps l s)) with (k_tp s). simpl.
  rewrite bool_decide_true by done. simpl. rewrite kbind_gets, mycpu_at, Hn. simpl.
  rewrite kbind_gets, (proc_at_lookup _ i p) by done. rewrite bool_decide_false by done.
  unfold intr_get. rewrite kbind_gets, mycpu_at, Hs, kbind_gets, mycpu_at. reflexivity.
Qed.
End run_at.

(** ** [sleep] *)

(** What is left of [sleep] when [swtch] returns. *)
Definition sleep_tail (i : nat) (lk : lockid) (intena : bool) : K unit :=
  do! modify_cpu (set_intena intena);
  do! put_proc i (set_chan None);
  do! release (LKproc i);
  acquire lk.

Lemma sleep_at ch lk i s c ps l p :
  (k_tp s < length (k_cpus s))%nat -> c_noff c = 1 -> c_sie c = false -> c_proc c = Some i ->
  l !! lk = Some (held_by (k_tp s)) -> l !! LKproc i = Some lock_free -> ps !! i = Some p ->
  sleep ch lk (at_ c ps l s) =
  Swtch (at_ c (<[i := set_state SLEEPING (set_chan (Some ch) p)]> ps)
             (<[lk := lock_free]> (<[LKproc i := held_by (k_tp s)]> l)) s)
        (sleep_tail i lk (c_intena c)).
Proof.
  intros Htp Hn Hs Hp Hh Hf Hps.
  assert (Hne : LKproc i <> lk) by (intros <-; unfold held_by, lock_free in *; congruence).
  assert (Hlt : (i < length ps)%nat) by (by eapply lookup_lt_Some).
  unfold sleep. krun (curproc_at s Htp i c ps l ltac:(lia) (fun _ => Hs) Hp).
  assert (norm_cpu c = c) as -> by (unfold norm_cpu; by rewrite Hn).
  krun (acquire_at s Htp (LKproc i) c ps l ltac:(lia) (fun _ => Hs) Hf).
  erewrite obind_Ret by (apply (release_at s Htp); [simpl; lia|done|by rewrite lookup_insert_ne]).
  rewrite pop_push_nested by (done || lia).
  erewrite obind_Ret by (by apply put_proc_at).
  erewrite obind_Ret by (apply put_proc_at, list_lookup_insert_eq; done).
  rewrite list_insert_insert_eq. unfold kbind at 1.
  rewrite (sched_at s Htp i c _ _ (set_state SLEEPING (set_chan (Some ch) p))); try done.
  - by apply list_lookup_insert_eq.
  - rewrite lookup_insert_ne by done. apply lookup_insert_eq.
Qed.

Lemma sleep_tail_at i lk ie s c ps l p :
  (k_tp s < length (k_cpus s))%nat -> c_noff c = 1 -> c_sie c = false ->
  l !! LKproc i = Some (held_by (k_tp s)) -> l !! lk = Some lock_free -> ps !! i = Some p ->
  sleep_tail i lk ie (at_ c ps l s) =
  Ret tt (at_ (mkcpu (c_proc c) 1 ie false) (<[i := set_chan None p]> ps)
              (<[lk := held_by (k_tp s)]> (<[LKproc i := lock_free]> l)) s).
Proof.
  intros Htp Hn Hs Hh Hf Hp. assert (Hne : LKproc i <> lk) by (intros <-; unfold held_by, lock_free in *; congruence).
  unfold sleep_tail. krun (modify_cpu_at s Htp (set_intena ie) c ps l).
  erewrite obind_Ret by (by apply put_proc_at).
  erewrite obind_Ret by (apply (release_at s Htp); [simpl; lia|done|done]).
  rewrite acquire_at; [|done|simpl; lia|simpl; lia|by rewrite lookup_insert_ne].
  unfold push_cpu, pop_cpu. simpl. rewrite Hn, Hs. simpl. by destruct ie.
Qed.

(** [sleep] gives up the CPU in a state where the process is asleep on the
    channel with its own lock still held while the condition lock is already
    free, so a waker that takes the condition lock cannot be missed.  When it
    is resumed, on whatever hart and with whatever changes of the rest, it
    comes back with the condition lock held and its own lock free. *)
Theorem sleep_spec ch lk i s p :
  cpu_ok s -> c_noff (mycpu s) = 1 -> c_proc (mycpu s) = Some i ->
  is_held lk s -> is_free (LKproc i) s -> k_procs s !! i = Some p ->
  exists s1 k, sleep ch lk s = Swtch s1 k /\
    is_free lk s1 /\ is_held (LKproc i) s1 /\ mycpu s1 = mycpu s /\
    k_procs s1 = <[i := set_state SLEEPING (set_chan (Some ch) p)]> (k_procs s) /\
    forall s2 p2,
      (k_tp s2 < length (k_cpus s2))%nat -> c_noff (mycpu s2) = 1 -> c_sie (mycpu s2) = false ->
      is_held (LKproc i) s2 -> is_free lk s2 -> k_procs s2 !! i = Some p2 ->
      exists s3, k s2 = Ret tt s3 /\ is_held lk s3 /\ is_free (LKproc i) s3 /\
        c_noff (mycpu s3) = 1 /\ c_intena (mycpu s3) = c_intena (mycpu s) /\
        k_procs s3 = <[i := set_chan None p2]> (k_procs s2).
Proof.
  intros Hok Hn Hp Hh Hf Hps. pose proof Hok as (Htp & _ & Hsie). specialize (Hsie ltac:(lia)).
  assert (Hne : lk <> LKproc i) by (intros ->; unfold is_held, is_free, lock_free in *; congruence).
  pose proof (sleep_at ch lk i s (mycpu s) _ _ p Htp Hn Hsie Hp Hh Hf Hps) as E.
  rewrite at_self in E by done. do 2 eexists. split; [exact E|]. clear E. unfold is_free, is_held in *. simpl.
  rewrite lookup_insert_eq, lookup_insert_ne, lookup_insert_eq by done.
  split_and!; [done|done|apply mycpu_at, Htp|done|].
  intros s2 p2 Htp2 Hn2 Hs2 Hh2 Hf2 Hp2.
  pose proof (sleep_tail_at i lk (c_intena (mycpu s)) s2 (mycpu s2) _ _ p2
                Htp2 Hn2 Hs2 Hh2 Hf2 Hp2) as E.
  rewrite at_self in E by done. eexists. split; [exact E|]. clear E.
  rewrite mycpu_at by done. simpl.
  rewrite lookup_insert_eq, lookup_insert_ne, lookup_insert_eq by done. done.
Qed.

(** ** [scheduler] and [yield] *)

(** What is left of [scheduler]'s loop body when a process switches back. *)
Definition visit_tail (i : nat) : K unit :=
  do! modify_cpu (set_proc None);
  release (LKproc i).

(** What is left of [yield] when [swtch] returns. *)
Definition yield_tail (i : nat) (intena : bool) : K unit :=
  do! modify_cpu (set_intena intena);
  release (LKproc i).

Lemma scheduler_visit_at i s c ps l p :
  (k_tp s < length (k_cpus s))%nat -> c_noff c = 0 -> ps !! i = Some p ->
  l !! LKproc i = Some lock_free -> p_state p = RUNNABLE ->
  scheduler_visit i (at_ c ps l s) =
  Swtch (at_ (mkcpu (Some i) 1 (c_sie c) false) (<[i := set_state RUNNING p]> ps)
             (<[LKproc i := held_by (k_tp s)]> l) s)
        (visit_tail i).
Proof.
  intros Htp Hn Hp Hl Hst. unfold scheduler_visit.
  krun (acquire_at s Htp (LKproc i) c ps l ltac:(lia) ltac:(lia) Hl).
  rewrite kbind_gets, (proc_at_lookup _ i p) by done. rewrite bool_decide_true by done.
  unfold kbind at 1. erewrite obind_Ret by (by apply put_proc_at).
  erewrite obind_Ret by (by apply modify_cpu_at).
  unfold swtch, push_cpu, set_proc. rewrite Hn. reflexivity.
Qed.

Lemma visit_tail_at i s c ps l :
  (k_tp s < length (k_cpus s))%nat -> c_noff c = 1 -> c_sie c = false ->
  l !! LKproc i = Some (held_by (k_tp s)) ->
  visit_tail i (at_ c ps l s) =
  Ret tt (at_ (mkcpu None 0 (c_intena c) (c_intena c)) ps (<[LKproc i := lock_free]> l) s).
Proof.
  intros Htp Hn Hs Hl. unfold visit_tail. krun (modify_cpu_at s Htp (set_proc None) c ps l).
  rewrite release_at by (done || (simpl; lia)). unfold pop_cpu. simpl. rewrite Hn, Hs. simpl.
  by destruct (c_intena c).
Qed.

Lemma yield_tail_at i ie s c ps l :
  (k_tp s < length (k_cpus s))%nat -> c_noff c = 1 -> c_sie c = false ->
  l !! LKproc i = Some (held_by (k_tp s)) ->
  yield_tail i ie (at_ c ps l s) =
  Ret tt (at_ (mkcpu (c_proc c) 0 ie ie) ps (<[LKproc i := lock_free]> l) s).
Proof.
  intros Htp Hn Hs Hl. unfold yield_tail. krun (modify_cpu_at s Htp (set_intena ie) c ps l).
  rewrite release_at by (done || (simpl; lia)). unfold pop_cpu. simpl. rewrite Hn, Hs. simpl.
  by destruct ie.
Qed.

Lemma yield_at i s c ps l p :
  (k_tp s < length (k_cpus s))%nat -> c_noff c = 0 -> c_proc c = Some i -> ps !! i = Some p ->
  l !! LKproc i = Some lock_free ->
  yield (at_ c ps l s) =
  Swtch (at_ (mkcpu (Some i) 1 (c_sie c) false) (<[i := set_state RUNNABLE p]> ps)
             (<[LKproc i := held_by (k_tp s)]> l) s)
        (yield_tail i (c_sie c)).
Proof.
  intros Htp Hn Hp Hps Hl. assert (Hlt : (i < length ps)%nat) by (by eapply lookup_lt_Some).
  unfold yield. krun (curproc_at s Htp i c ps l ltac:(lia) ltac:(lia) Hp).
  krun (acquire_at s Htp (LKproc i) (norm_cpu c) ps l ltac:(simpl; lia) ltac:(simpl; lia) Hl).
  erewrite obind_Ret by (by apply put_proc_at).
  replace (push_cpu (norm_cpu c)) with (mkcpu (Some i) 1 (c_sie c) false)
    by (unfold push_cpu, norm_cpu; simpl; by rewrite Hn, Hp).
  unfold kbind. rewrite (sched_at s Htp i _ _ _ (set_state RUNNABLE p)); try done.
  - by apply list_lookup_insert_eq.
  - apply lookup_insert_eq.
Qed.

(** A full turn of the CPU.  The scheduler takes the process's lock and
    switches to it; the process, returning from an earlier [yield], drops that
    lock, and its next [yield] takes it again and switches back; the
    scheduler then drops it.  Nothing panics, all locks are free afterwards,
    the hart runs no process, the process is runnable again and no other
    process changed. *)
Theorem yield_turn i ie s p :
  cpu_ok s -> c_noff (mycpu s) = 0 -> is_free (LKproc i) s ->
  k_procs s !! i = Some p -> p_state p = RUNNABLE ->
  exists s1 ks s2 kp s3,
    scheduler_visit i s = Swtch s1 ks /\ p_state (proc_at s1 i) = RUNNING /\
    c_proc (mycpu s1) = Some i /\
    (do! yield_tail i ie; yield) s1 = Swtch s2 kp /\ is_held (LKproc i) s2 /\
    ks s2 = Ret tt s3 /\ k_locks s3 = k_locks s /\ k_procs s3 = k_procs s /\
    mycpu s3 = mkcpu None 0 ie ie.
Proof.
  intros (Htp & _ & _) Hn Hf Hp Hst. pose proof (lookup_lt_Some _ _ _ Hp) as Hlt.
  pose proof (scheduler_visit_at i s (mycpu s) _ _ p Htp Hn Hp Hf Hst) as E1.
  rewrite at_self in E1 by done. do 2 eexists.
  exists (at_ (mkcpu (Some i) 1 ie false) (<[i := set_state RUNNABLE p]> (k_procs s))
              (<[LKproc i := held_by (k_tp s)]> (k_locks s)) s).
  do 2 eexists. split; [exact E1|]. split_and!.
  - erewrite proc_at_lookup by (simpl; by apply list_lookup_insert_eq). done.
  - by rewrite mycpu_at.
  - erewrite obind_Ret by (apply yield_tail_at; try done; apply lookup_insert_eq).
    rewrite insert_insert_eq. rewrite (yield_at i s _ _ _ (set_state RUNNING p)); try done.
    + rewrite list_insert_insert_eq, insert_insert_eq. reflexivity.
    + by apply list_lookup_insert_eq.
    + apply lookup_insert_eq.
  - unfold is_held. simpl. by rewrite lookup_insert_eq.
  - apply visit_tail_at; try done. apply lookup_insert_eq.
  - simpl. rewrite insert_insert_eq. by apply insert_id.
  - simpl. apply list_insert_id. rewrite Hp. f_equal.
    unfold set_state. rewrite <- Hst. reflexivity.
  - by rewrite mycpu_at.
Qed.

(** ** [procnum] *)

(** [procnum] counts the slots that are not [UNUSED]. *)
Theorem procnum_spec s :
  procnum s = Ret (Z.of_nat (length (filter (fun p => p_state p <> UNUSED) (k_procs s)))) s.
Proof.
  unfold procnum, gets. f_equal.
  enough (H : forall l n, foldl (fun num p => if bool_decide (p_state p = UNUSED) then num else num + 1)
                            n l = n + Z.of_nat (length (filter (fun p => p_state p <> UNUSED) l))).
  { rewrite H. lia. }
  induction l as [|p l IH]; intros n; simpl; [lia|].
  rewrite IH, filter_cons. case_bool_decide; case_decide; simpl; try done; lia.
Qed.

(** ** Examples *)

(** Slot 0 sleeps on [CHticks] with pid 7, slot 1 runs on hart 0. *)
Definition demo_sched : kst :=
  let ps := <[0%nat := set_chan (Some CHticks) (set_state SLEEPING
                         (mkproc UNUSED None 0 0 7 None 0 0 0 0 context0 [] None [] 0))]>
            (<[1%nat := set_state RUNNING proc0]> (k_procs boot)) in
  let locks := list_to_map ((fun i => (LKproc i, lock_free)) <$> seq 0 NPROC) in
  put_cpu (mkcpu (Some 1%nat) 0 true true) (set_procs ps (set_locks locks boot)).

Lemma demo_sched_ok : sched_ok demo_sched.
Proof.
  split.
  - split; [simpl; lia|]. simpl. split; [lia|lia].
  - intros i Hi. unfold is_free.
    do 64 (destruct i as [|i]; [reflexivity|]). unfold NPROC in Hi. lia.
  - reflexivity.
Qed.

Lemma wakeup_spec_witness :
  exists s', wakeup CHticks demo_sched = Ret tt s' /\ p_state (proc_at s' 0) = RUNNABLE.
Proof.
  destruct (wakeup_spec CHticks demo_sched demo_sched_ok) as (s' & R & _ & _ & Hp).
  exists s'. split; [exact R|]. unfold proc_at. rewrite (Hp 0%nat _ eq_refl). reflexivity.
Defined.

Lemma kill_spec_witness :
  exists p', kill 7 demo_sched = Ret 0 (set_procs (<[0%nat := p']> (k_procs demo_sched)) (norm demo_sched)) /\
             p_state p' = RUNNABLE /\ p_killed p' = 1.
Proof.
  destruct (proj2 (kill_spec 7 demo_sched demo_sched_ok) 0%nat _ eq_refl eq_refl)
    as (p' & R & H1 & H2 & _).
  - intros j q Hj. lia.
  - exists p'. split; [exact R|]. split; [exact H2|exact H1].
Defined.

Lemma sleep_spec_witness :
  exists s s1 k, sleep CHticks LKticks s = Swtch s1 k /\ is_held (LKproc 1) s1.
Proof.
  pose (s := set_locks (<[LKticks := held_by 0]> (k_locks demo_sched))
               (put_cpu (mkcpu (Some 1%nat) 1 true false) demo_sched)).
  destruct (sleep_spec CHticks LKticks 1 s (set_state RUNNING proc0)) as (s1 & k & R & _ & Hh & _).
  - split; [simpl; lia|]. simpl. split; [lia|done].
  - reflexivity.
  - reflexivity.
  - reflexivity.
  - reflexivity.
  - reflexivity.
  - exists s, s1, k. split; [exact R|exact Hh].
Defined.

Lemma yield_turn_witness :
  exists s s1 ks, scheduler_visit 1 s = Swtch s1 ks /\ c_proc (mycpu s1) = Some 1%nat.
Proof.
  pose (s := put_cpu (mkcpu None 0 true true)
               (set_procs (<[1%nat := set_state RUNNABLE proc0]> (k_procs boot)) demo_sched)).
  destruct (yield_turn 1 true s (set_state RUNNABLE proc0))
    as (s1 & ks & s2 & kp & s3 & R & _ & H & _).
  - split; [simpl; lia|]. simpl. split; [lia|lia].
  - reflexivity.
  - reflexivity.
  - reflexivity.
  - reflexivity.
  - exists s, s1, ks. split; [exact R|exact H].
Defined.
