(* ===== verification/Sleeplock.v ===== *)
(** * kernel/sleeplock.c

    Long-term locks.  [acquiresleep] may switch out; its loop is bounded by
    [wakeups], the number of times one call may be woken in vain before the
    model gives up with [NoFuel].  The lemmas give the exact effect of each
    routine on a state where it does not have to wait. *)

From S2P Require Import Prelude Param Mem Kernel Spinlock Sched.
Open Scope Z_scope.

Definition wakeups : nat := 1000.

(** [while(cond) sleep(ch, lk)] *)
Fixpoint sleep_while (fuel : nat) (cond : kst -> bool) (ch : chan) (lk : lockid) : K unit :=
  match fuel with
  | O => fun _ => NoFuel
  | S fuel =>
    let! c := gets cond in
    if (c : bool) then
      do! sleep ch lk;
      sleep_while fuel cond ch lk
    else kret tt
  end.

Definition slock_at (s : kst) (sl : sleepid) : sleeplock := default (mksleep false 0) (k_slocks s !! sl).
Definition put_slock (sl : sleepid) (x : sleeplock) : K unit :=
  modify (fun s => set_slocks (<[sl := x]> (k_slocks s)) s).

(** ** Operations *)

Definition initsleeplock (sl : sleepid) : K unit :=
  do! initlock (LKsleep sl);
  put_slock sl (mksleep false 0).

Definition acquiresleep (sl : sleepid) : K unit :=
  do! acquire (LKsleep sl);
  do! sleep_while wakeups (fun s => sl_locked (slock_at s sl)) (CHsleep sl) (LKsleep sl);
  let! old := gets (fun s => slock_at s sl) in
  do! put_slock sl (mksleep true (sl_pid old));
  let! p := curproc in
  let! pid := gets (fun s => p_pid (proc_at s p)) in
  do! put_slock sl (mksleep true pid);
  release (LKsleep sl).

Definition releasesleep (sl : sleepid) : K unit :=
  do! acquire (LKsleep sl);
  do! put_slock sl (mksleep false 0);
  do! wakeup (CHsleep sl);
  release (LKsleep sl).

Definition holdingsleep (sl : sleepid) : K bool :=
  do! acquire (LKsleep sl);
  let! l := gets (fun s => slock_at s sl) in
  let! r := (if sl_locked l then
               let! p := curproc in
               gets (fun s => sl_pid l =? p_pid (proc_at s p))
             else kret false) in
  do! release (LKsleep sl);
  kret r.

(** ** Running them without contention *)

(** The spin-locks that exist from boot on. *)
Definition kernel_lock (lk : lockid) : bool :=
  match lk with
  | LKpipe _ => false
  | LKproc i => (i <? NPROC)%nat
  | LKsleep (SLbuf i) => (i <? NBUF)%nat
  | LKsleep (SLinode i) => (i <? NINODE)%nat
  | _ => true
  end.

(** The thread of process [me], with pid [pid], between critical sections. *)
Record ctx (me : nat) (pid : Z) (s : kst) : Prop := {
  cx_cpu : cpu_ok s;
  cx_procs : length (k_procs s) = NPROC;
  cx_me : c_proc (mycpu s) = Some me;
  cx_range : (me < NPROC)%nat;
  cx_pid : p_pid (proc_at s me) = pid;
  cx_locks : forall lk, kernel_lock lk = true -> is_free lk s
}.

Lemma ctx_sched me pid s : ctx me pid s -> sched_ok s.
Proof.
  intros []. split; try done. intros i Hi. apply cx_locks0. by apply Nat.ltb_lt.
Qed.

(** [s'] is [s] up to saved interrupt state and processes made runnable. *)
Definition resumed (p q : proc) : Prop := q = p \/ q = set_state RUNNABLE p.

Record woke (s s' : kst) : Prop := {
  wk_rest : s' = set_cpus (k_cpus s') (set_procs (k_procs s') s);
  wk_cpus : length (k_cpus s') = length (k_cpus s);
  wk_cpu : c_proc (mycpu s') = c_proc (mycpu s) /\ c_noff (mycpu s') = c_noff (mycpu s) /\
           c_sie (mycpu s') = c_sie (mycpu s);
  wk_procs : Forall2 resumed (k_procs s) (k_procs s')
}.

#[export] Instance resumed_refl : Reflexive resumed.
Proof. by left. Qed.
#[export] Instance resumed_trans : Transitive resumed.
Proof. intros p q r [->| ->] [->| ->]; (by left) || by right. Qed.

#[export] Instance woke_refl : Reflexive woke.
Proof. intros s. split; [reflexivity|done|done|reflexivity]. Qed.

#[export] Instance woke_trans : Transitive woke.
Proof.
  intros s1 s2 s3 [E1 L1 (C1 & C2 & C3) P1] [E2 L2 (D1 & D2 & D3) P2]. split.
  - rewrite E2 at 1. rewrite E1. reflexivity.
  - congruence.
  - split_and!; congruence.
  - by transitivity (k_procs s2).
Qed.

Lemma woke_norm s : cpu_ok s -> woke s (norm s).
Proof.
  intros (H & _ & _). split; [reflexivity| | |reflexivity].
  - unfold norm. simpl. by rewrite length_insert.
  - by rewrite mycpu_norm.
Qed.

Lemma woke_woken s ch me :
  woke s (set_procs (imap (woken ch me) (k_procs s)) s).
Proof.
  split; [reflexivity|done|done|]. simpl. apply Forall2_same_length_lookup.
  split; [by rewrite length_imap|]. intros i x y Hx. rewrite list_lookup_imap, Hx. simpl.
  intros Hy. simplify_eq. unfold woken. case_match; [by right|by left].
Qed.

(** [woke] keeps the thread's context. *)
Lemma ctx_woke me pid s s' : ctx me pid s -> woke s s' -> ctx me pid s'.
Proof.
  intros [Hc Hp Hm Hr Hpid Hl] [E L (C1 & C2 & C3) P].
  assert (Htp : k_tp s' = k_tp s) by (rewrite E; reflexivity).
  assert (Hlk : k_locks s' = k_locks s) by (rewrite E; reflexivity).
  split; [| | | | |].
  - destruct Hc as (H1 & H2 & H3). split; [rewrite Htp, L; done|]. rewrite C2, C3. done.
  - rewrite <- (Forall2_length _ _ _ P). done.
  - congruence.
  - done.
  - destruct (lookup_lt_is_Some_2 (k_procs s) me) as [p Hpp]; [rewrite Hp; lia|].
    destruct (Forall2_lookup_l _ _ _ _ _ P Hpp) as (q & Hq & Hpq).
    rewrite (proc_at_lookup s' me q Hq). rewrite (proc_at_lookup s me p Hpp) in Hpid.
    by destruct Hpq as [->| ->].
  - intros lk Hk. unfold is_free. rewrite Hlk. by apply Hl.
Qed.

(** Updates of the other globals commute with [woke] and keep the context. *)
Lemma woke_slocks v s s' : woke s s' -> woke (set_slocks v s) (set_slocks v s').
Proof. intros [E ? ? ?]. split; [|done..]. rewrite E at 1. reflexivity. Qed.
Lemma woke_bufs v s s' : woke s s' -> woke (set_bufs v s) (set_bufs v s').
Proof. intros [E ? ? ?]. split; [|done..]. rewrite E at 1. reflexivity. Qed.
Lemma woke_disk v s s' : woke s s' -> woke (set_disk v s) (set_disk v s').
Proof. intros [E ? ? ?]. split; [|done..]. rewrite E at 1. reflexivity. Qed.
Lemma woke_writes v s s' : woke s s' -> woke (set_writes v s) (set_writes v s').
Proof. intros [E ? ? ?]. split; [|done..]. rewrite E at 1. reflexivity. Qed.
Lemma woke_log v s s' : woke s s' -> woke (set_log v s) (set_log v s').
Proof. intros [E ? ? ?]. split; [|done..]. rewrite E at 1. reflexivity. Qed.

Lemma ctx_slocks me pid v s : ctx me pid s -> ctx me pid (set_slocks v s).
Proof. by intros []. Qed.
Lemma ctx_bufs me pid v s : ctx me pid s -> ctx me pid (set_bufs v s).
Proof. by intros []. Qed.
Lemma ctx_log me pid v s : ctx me pid s -> ctx me pid (set_log v s).
Proof. by intros []. Qed.
Lemma ctx_disk me pid v s : ctx me pid s -> ctx me pid (set_disk v s).
Proof. by intros []. Qed.
Lemma ctx_writes me pid v s : ctx me pid s -> ctx me pid (set_writes v s).
Proof. by intros []. Qed.
#[export] Hint Resolve woke_slocks woke_bufs woke_disk woke_writes woke_log : krun.
#[export] Hint Resolve ctx_slocks ctx_bufs ctx_log ctx_disk ctx_writes : krun.

(** ** Critical sections *)

(** [release] at the end of a critical section entered in [s] that changed
    neither the CPUs nor the locks. *)
Lemma release_after lk s t :
  cpu_ok s -> is_free lk s -> k_tp t = k_tp s ->
  k_cpus t = k_cpus (pushed s) -> k_locks t = k_locks (acquired lk s) ->
  release lk t = Ret tt (set_cpus (k_cpus (norm s)) (set_locks (k_locks s) t)).
Proof.
  intros Hc Hf Etp Ecpus Elocks.
  assert (Em : mycpu t = mycpu (pushed s)).
  { unfold mycpu. rewrite Etp, Ecpus. done. }
  rewrite release_run.
  - f_equal. pose proof (released_acquired lk s Hc Hf) as E.
    assert (Ecp : k_cpus (released lk t) = k_cpus (released lk (acquired lk s))).
    { unfold released, popped, put_cpu. simpl. rewrite Etp, Ecpus.
      change (mycpu (set_locks _ t)) with (mycpu t). rewrite Em. reflexivity. }
    rewrite E in Ecp. rewrite <- Ecp. unfold released, popped, put_cpu. simpl.
    rewrite Elocks. unfold acquired. simpl. rewrite insert_insert_eq, insert_id by done.
    reflexivity.
  - destruct (acquired_ok lk s Hc) as (H1 & H2 & H3).
    split; [rewrite Etp, Ecpus; exact H1|]. rewrite Em. split; [exact H2|exact H3].
  - unfold is_held. rewrite Elocks, Etp. apply lookup_insert_eq.
  - rewrite Em. pose proof (acquired_noff lk s Hc) as E. destruct Hc as (_ & ? & _).
    change (mycpu (pushed s)) with (mycpu (acquired lk s)). lia.
Qed.

(** The calls a critical section makes, in the state [acquire] left. *)
Lemma curproc_acquired s i :
  cpu_ok s -> c_proc (mycpu s) = Some i ->
  forall t, k_tp t = k_tp s -> k_cpus t = k_cpus (pushed s) -> curproc t = Ret i t.
Proof.
  intros Hc Hp t Etp Ecpus. pose proof (cpu_ok_pushed s Hc) as (H1 & H2 & H3).
  assert (Em : mycpu t = mycpu (pushed s)).
  { unfold mycpu. rewrite Etp, Ecpus. done. }
  assert (Ht : cpu_ok t).
  { split; [rewrite Etp, Ecpus; exact H1|]. rewrite Em. split; [exact H2|exact H3]. }
  unfold curproc. krun (myproc_run t Ht). pose proof Hc as (Htp & Hn & _).
  rewrite Em, mycpu_pushed by done. simpl. rewrite Hp. unfold kret. f_equal.
  apply norm_nested; [done|]. rewrite Em, mycpu_pushed by done. simpl. lia.
Qed.

Lemma wakeup_acquired ch s t :
  sched_ok s -> k_tp t = k_tp s -> k_cpus t = k_cpus (pushed s) ->
  (forall i, (i < NPROC)%nat -> is_free (LKproc i) t) -> k_procs t = k_procs s ->
  wakeup ch t = Ret tt (set_procs (imap (woken ch (c_proc (mycpu s))) (k_procs s)) t).
Proof.
  intros [Hc Hf Hp] Etp Ecpus Hl Eps. pose proof (cpu_ok_pushed s Hc) as (H1 & H2 & H3).
  assert (Em : mycpu t = mycpu (pushed s)).
  { unfold mycpu. rewrite Etp, Ecpus. done. }
  assert (Ht : cpu_ok t).
  { split; [rewrite Etp, Ecpus; exact H1|]. rewrite Em. split; [exact H2|exact H3]. }
  pose proof Hc as (Htp & Hn & _).
  rewrite wakeup_run by (split; [done|done|by rewrite Eps]).
  rewrite Eps, norm_nested; [|done|]; rewrite Em, mycpu_pushed by done; simpl; [done|lia].
Qed.

(** ** Code that runs inside a critical section *)

(** Interrupts are off at least one level deep. *)
Definition nested (s : kst) : Prop := cpu_ok s /\ 0 < c_noff (mycpu s).

Lemma nested_norm s : nested s -> norm s = s.
Proof. intros [H1 H2]. by apply norm_nested. Qed.

Lemma nested_acquired lk s : cpu_ok s -> nested (acquired lk s).
Proof.
  intros Hc. split; [by apply acquired_ok|]. rewrite acquired_noff by done. destruct Hc as (_ & ? & _). lia.
Qed.

Lemma pushed_norm s : cpu_ok s -> pushed (norm s) = pushed s.
Proof.
  intros Hc. unfold pushed, norm. destruct Hc as (H1 & _ & _). rewrite mycpu_put_cpu by done.
  rewrite put_cpu_put_cpu. simpl. destruct (c_noff (mycpu s) =? 0) eqn:E; simpl; rewrite ?E; reflexivity.
Qed.

Lemma acquired_norm lk s : cpu_ok s -> acquired lk (norm s) = acquired lk s.
Proof. intros Hc. unfold acquired. rewrite pushed_norm by done. reflexivity. Qed.

Lemma killed_nested p s :
  nested s -> is_free (LKproc p) s -> killed p s = Ret (p_killed (proc_at s p)) s.
Proof.
  intros [Hc Hn] Hf. unfold killed. krun (acquire_run (LKproc p) s Hc Hf). rewrite kbind_gets.
  erewrite obind_Ret by (by apply (release_after (LKproc p) s)). rewrite norm_nested by done. reflexivity.
Qed.

(** ** The operations, when nobody else holds the lock *)

Section run.
Context (me : nat) (pid : Z) (sl : sleepid) (s : kst).
Hypothesis Hctx : ctx me pid s.
Hypothesis Hlk : kernel_lock (LKsleep sl) = true.

Let Hc : cpu_ok s := cx_cpu _ _ _ Hctx.
Let Hf : is_free (LKsleep sl) s := cx_locks _ _ _ Hctx _ Hlk.

Lemma acquiresleep_run :
  sl_locked (slock_at s sl) = false ->
  exists s', acquiresleep sl s = Ret tt s' /\
    woke (set_slocks (<[sl := mksleep true pid]> (k_slocks s)) s) s'.
Proof.
  intros Hu. unfold acquiresleep. krun (acquire_run _ s Hc Hf).
  unfold wakeups. cbn [sleep_while]. unfold kbind at 1. rewrite kbind_gets.
  change (slock_at (acquired _ s) sl) with (slock_at s sl). rewrite Hu. simpl.
  rewrite kbind_gets. unfold put_slock. rewrite kbind_modify.
  erewrite obind_Ret by (eapply curproc_acquired; [exact Hc|apply Hctx|done|done]).
  rewrite kbind_gets, kbind_modify. eexists. split; [by apply (release_after _ s)|].
  simpl. rewrite insert_insert_eq.
  change (proc_at _ me) with (proc_at s me). rewrite (cx_pid _ _ _ Hctx).
  exact (woke_slocks _ _ _ (woke_norm s Hc)).
Qed.

Lemma releasesleep_run :
  exists s', releasesleep sl s = Ret tt s' /\
    woke (set_slocks (<[sl := mksleep false 0]> (k_slocks s)) s) s'.
Proof.
  unfold releasesleep. krun (acquire_run _ s Hc Hf). unfold put_slock. rewrite kbind_modify.
  erewrite obind_Ret by (eapply (wakeup_acquired _ s); [by eapply ctx_sched|done|done| |done];
    intros i Hi; unfold is_free; simpl; rewrite lookup_insert_ne by done;
    apply (cx_locks _ _ _ Hctx); by apply Nat.ltb_lt).
  eexists. split; [by apply (release_after _ s)|]. simpl.
  transitivity (set_slocks (<[sl := mksleep false 0]> (k_slocks s)) (norm s)).
  - exact (woke_slocks _ _ _ (woke_norm s Hc)).
  - exact (woke_woken (set_slocks _ (norm s)) (CHsleep sl) (c_proc (mycpu s))).
Qed.

Lemma holdingsleep_run :
  exists s', holdingsleep sl s =
    Ret (sl_locked (slock_at s sl) && (sl_pid (slock_at s sl) =? pid)) s' /\ woke s s'.
Proof.
  unfold holdingsleep. krun (acquire_run _ s Hc Hf). rewrite kbind_gets.
  change (slock_at (acquired _ s) sl) with (slock_at s sl).
  exists (norm s). split; [|by apply woke_norm].
  assert (R : release (LKsleep sl) (acquired (LKsleep sl) s) = Ret tt (norm s)).
  { by rewrite (release_after _ s). }
  destruct (sl_locked (slock_at s sl)); simpl.
  - unfold kbind at 1. erewrite obind_Ret by
      (eapply curproc_acquired; [exact Hc|apply Hctx|done|done]).
    simpl. change (proc_at _ me) with (proc_at s me). rewrite (cx_pid _ _ _ Hctx).
    krun R. done.
  - rewrite kbind_kret. krun R. done.
Qed.
End run.

(** What [woke] leaves alone. *)
Lemma woke_eqs s s' : woke s s' ->
  k_slocks s' = k_slocks s /\ k_bufs s' = k_bufs s /\ k_disk s' = k_disk s /\
  k_writes s' = k_writes s /\ k_log s' = k_log s /\ k_locks s' = k_locks s /\ k_tp s' = k_tp s.
Proof. intros [E _ _ _]. rewrite E. done. Qed.

(** A process that takes a free sleep-lock holds it, [holdingsleep] says
    so until [releasesleep] and denies it afterwards, and nothing but that lock
    (and the run state of the processes waiting for it) changes. *)
Theorem sleeplock_cycle me pid sl s :
  ctx me pid s -> kernel_lock (LKsleep sl) = true -> sl_locked (slock_at s sl) = false ->
  exists s1 s2 s3 s4,
    acquiresleep sl s = Ret tt s1 /\ holdingsleep sl s1 = Ret true s2 /\
    releasesleep sl s2 = Ret tt s3 /\ holdingsleep sl s3 = Ret false s4 /\
    ctx me pid s4 /\ woke (set_slocks (<[sl := mksleep false 0]> (k_slocks s)) s) s4.
Proof.
  intros Hx Hk Hu.
  destruct (acquiresleep_run me pid sl s Hx Hk Hu) as (s1 & R1 & W1).
  assert (X1 : ctx me pid s1) by eauto using ctx_woke, ctx_slocks.
  destruct (holdingsleep_run me pid sl s1 X1 Hk) as (s2 & R2 & W2).
  destruct (releasesleep_run me pid sl s2) as (s3 & R3 & W3); [eauto using ctx_woke|done|].
  assert (X3 : ctx me pid s3) by eauto using ctx_woke, ctx_slocks.
  destruct (holdingsleep_run me pid sl s3 X3 Hk) as (s4 & R4 & W4).
  destruct (woke_eqs _ _ W1) as (E1 & _), (woke_eqs _ _ W2) as (E2 & _),
    (woke_eqs _ _ W3) as (E3 & _).
  unfold slock_at in R2, R4. rewrite E1 in R2. rewrite E3 in R4. simpl in R2, R4.
  rewrite lookup_insert_eq in R2, R4. simpl in R2, R4. rewrite Z.eqb_refl in R2.
  exists s1, s2, s3, s4. split_and!; eauto using ctx_woke.
  etransitivity; [|exact W4]. etransitivity; [|exact W3].
  rewrite E2, E1. simpl. rewrite insert_insert_eq.
  exact (woke_slocks _ _ _ (woke_trans _ _ _ W1 W2)).
Qed.

(** A thread coming back from [sleep] to a lock that is now free. *)
Lemma sleep_while_taken sl me s c ps l pid :
  (k_tp s < length (k_cpus s))%nat -> c_noff c = 1 -> c_sie c = false -> c_proc c = Some me ->
  l !! LKsleep sl = Some (held_by (k_tp s)) -> sl_locked (slock_at s sl) = false ->
  p_pid (default proc0 (ps !! me)) = pid ->
  (let! old := gets (fun s => slock_at s sl) in
   do! put_slock sl (mksleep true (sl_pid old));
   let! p := curproc in
   let! pid := gets (fun s => p_pid (proc_at s p)) in
   do! put_slock sl (mksleep true pid);
   release (LKsleep sl)) (at_ c ps l s) =
  Ret tt (set_slocks (<[sl := mksleep true pid]> (k_slocks s))
            (at_ (pop_cpu c) ps (<[LKsleep sl := lock_free]> l) s)).
Proof.
  intros Htp Hn Hs Hp Hl Hu Hpid. rewrite kbind_gets. unfold put_slock. rewrite kbind_modify.
  change (set_slocks ?v (at_ c ps l s)) with (at_ c ps l (set_slocks v s)).
  erewrite obind_Ret by (apply curproc_at; [done|lia|done|done]).
  assert (norm_cpu c = c) as -> by (unfold norm_cpu; by rewrite Hn).
  rewrite kbind_gets, kbind_modify. simpl. rewrite insert_insert_eq.
  change (proc_at (at_ c ps l ?x) me) with (default proc0 (ps !! me)). rewrite Hpid.
  change (set_slocks ?v (at_ c ps l ?x)) with (at_ c ps l (set_slocks v x)).
  rewrite release_at; [done|done|lia|done|done].
Qed.

(** A process that finds the lock taken gives up the CPU asleep on the
    lock's channel with the inner spin-lock free.  Resumed on any hart after
    the lock was freed, it holds it under its own pid and all spin-locks it
    touched are free. *)
Theorem acquiresleep_waits me sl s p :
  cpu_ok s -> c_noff (mycpu s) = 0 -> c_proc (mycpu s) = Some me ->
  is_free (LKsleep sl) s -> is_free (LKproc me) s -> k_procs s !! me = Some p ->
  sl_locked (slock_at s sl) = true ->
  exists s1 k, acquiresleep sl s = Swtch s1 k /\
    is_free (LKsleep sl) s1 /\ k_slocks s1 = k_slocks s /\
    k_procs s1 = <[me := set_state SLEEPING (set_chan (Some (CHsleep sl)) p)]> (k_procs s) /\
    forall s2 p2,
      (k_tp s2 < length (k_cpus s2))%nat -> c_noff (mycpu s2) = 1 -> c_sie (mycpu s2) = false ->
      c_proc (mycpu s2) = Some me -> is_held (LKproc me) s2 -> is_free (LKsleep sl) s2 ->
      k_procs s2 !! me = Some p2 -> sl_locked (slock_at s2 sl) = false ->
      exists s3, k s2 = Ret tt s3 /\ is_free (LKsleep sl) s3 /\ is_free (LKproc me) s3 /\
        c_noff (mycpu s3) = 0 /\ c_sie (mycpu s3) = c_sie (mycpu s) /\
        k_slocks s3 = <[sl := mksleep true (p_pid p2)]> (k_slocks s2).
Proof.
  intros Hc Hn Hp Hf Hfp Hps Hl. pose proof Hc as (Htp & _ & _).
  unfold acquiresleep. change wakeups with (S (S 998)). generalize 998%nat as fuel. intros fuel.
  krun (acquire_run _ s Hc Hf). cbn [sleep_while]. unfold kbind at 1. rewrite kbind_gets.
  change (slock_at (acquired _ s) sl) with (slock_at s sl). rewrite Hl.
  change (acquired (LKsleep sl) s) with
    (at_ (push_cpu (mycpu s)) (k_procs s) (<[LKsleep sl := held_by (k_tp s)]> (k_locks s)) s).
  unfold kbind at 1. rewrite (sleep_at _ _ me _ _ _ _ p); try done.
  2: { unfold push_cpu. simpl. lia. }
  2: apply lookup_insert_eq.
  2: by rewrite lookup_insert_ne.
  do 2 eexists. split; [reflexivity|].
  split; [by apply lookup_insert_eq|]. split; [done|]. split; [done|].
  intros s2 p2 Htp2 Hn2 Hs2 Hp2 Hh2 Hf2 Hps2 Hu2. unfold is_free, is_held in *.
  pose proof (sleep_tail_at me (LKsleep sl) (c_intena (push_cpu (mycpu s))) s2 (mycpu s2) _ _ p2
                Htp2 Hn2 Hs2 Hh2 Hf2 Hps2) as E.
  rewrite at_self in E by done. rewrite E. cbn [obind].
  rewrite kbind_gets.
  change (slock_at (at_ _ _ _ s2) sl) with (slock_at s2 sl). rewrite Hu2.
  unfold kret at 1. cbv iota beta. eexists. split.
  { eapply (sleep_while_taken sl me s2); [done|done|done|done|apply lookup_insert_eq|done|reflexivity]. }
  rewrite list_lookup_insert_eq by (by eapply lookup_lt_Some).
  change (mycpu (set_slocks _ ?x)) with (mycpu x).
  rewrite mycpu_at by done. simpl. rewrite lookup_insert_eq, Hn. simpl.
  rewrite !lookup_insert_ne, lookup_insert_eq by done. split_and!; try done.
  by destruct (c_sie (mycpu s)).
Qed.

(** ** Examples *)

(** Slot 1, pid 7, runs on hart 0; every spin-lock of [main] is initialised. *)
Definition demo_locks : gmap lockid spinlock :=
  list_to_map ((fun lk => (lk, lock_free)) <$>
    [LKkmem; LKpid; LKwait; LKbcache; LKlog; LKitable; LKftable; LKcons; LKuart; LKticks; LKvdisk;
     LKpr] ++ (LKproc <$> seq 0 NPROC) ++ ((fun i => LKsleep (SLbuf i)) <$> seq 0 NBUF) ++
    ((fun i => LKsleep (SLinode i)) <$> seq 0 NINODE)).

Definition demo_ctx : kst :=
  let p := mkproc RUNNING None 0 0 7 None 0 0 0 0 context0 (replicate NOFILE None) None [] 0 in
  put_cpu (mkcpu (Some 1%nat) 0 true true)
    (set_procs (<[1%nat := p]> (k_procs boot)) (set_locks demo_locks boot)).

Lemma demo_ctx_ok : ctx 1 7 demo_ctx.
Proof.
  split; try done.
  - split; [simpl; lia|]. simpl. split; [lia|lia].
  - unfold NPROC. lia.
  - intros lk Hk. unfold is_free.
    destruct lk as [| | |i| |[i|i]| | | | | | | | |a]; try reflexivity; simpl in Hk;
      try apply Nat.ltb_lt in Hk; try done.
    + do 64 (destruct i as [|i]; [reflexivity|]). unfold NPROC in Hk. lia.
    + do 30 (destruct i as [|i]; [reflexivity|]). unfold NBUF, MAXOPBLOCKS in Hk. lia.
    + do 50 (destruct i as [|i]; [reflexivity|]). unfold NINODE in Hk. lia.
Qed.

Lemma sleeplock_cycle_witness :
  exists s1 s2, acquiresleep (SLbuf 3) demo_ctx = Ret tt s1 /\
                holdingsleep (SLbuf 3) s1 = Ret true s2.
Proof.
  destruct (sleeplock_cycle 1 7 (SLbuf 3) demo_ctx) as (s1 & s2 & _ & _ & R1 & R2 & _).
  - exact demo_ctx_ok.
  - reflexivity.
  - reflexivity.
  - exists s1, s2. split; [exact R1|exact R2].
Defined.

Lemma acquiresleep_waits_witness :
  let s := set_slocks {[ SLbuf 3 := mksleep true 9 ]} demo_ctx in
  exists s1 k, acquiresleep (SLbuf 3) s = Swtch s1 k /\ p_state (proc_at s1 1) = SLEEPING.
Proof.
  intros s. destruct (acquiresleep_waits 1 (SLbuf 3) s (proc_at s 1))
    as (s1 & k & R & _ & _ & Hp & _); try reflexivity.
  - exact (cx_cpu _ _ _ demo_ctx_ok).
  - exists s1, k. split; [exact R|]. unfold proc_at. rewrite Hp. reflexivity.
Defined.
