(* ===== verification/Bio.v ===== *)
(** * kernel/bio.c

    The buffer cache: [NBUF] buffers on a circular doubly linked list, most
    recently used first.  The disk is reached through the interface [Disk];
    [DiskOk] states what the driver promises: the call returns after one
    whole block was transferred.

    [bio_inv] is the cache's invariant between calls.  Its abstract view is
    the contents, reference count and lock of each cached block; the lemmas
    [bread_run], [bwrite_run], [brelse_run], ... say what each routine does to
    the view. *)

From stdpp Require Import functions.
From S2P Require Import Prelude Param Mem Kernel Spinlock Sched Sleeplock.
Open Scope Z_scope.

(** ** Fields of a buffer *)

Definition set_valid (v : bool) (b : buf) : buf :=
  mkbuf v (b_disk b) (b_dev b) (b_blockno b) (b_refcnt b) (b_prev b) (b_next b) (b_data b).
Definition set_bdisk (v : bool) (b : buf) : buf :=
  mkbuf (b_valid b) v (b_dev b) (b_blockno b) (b_refcnt b) (b_prev b) (b_next b) (b_data b).
Definition set_bdev (v : Z) (b : buf) : buf :=
  mkbuf (b_valid b) (b_disk b) v (b_blockno b) (b_refcnt b) (b_prev b) (b_next b) (b_data b).
Definition set_blockno (v : Z) (b : buf) : buf :=
  mkbuf (b_valid b) (b_disk b) (b_dev b) v (b_refcnt b) (b_prev b) (b_next b) (b_data b).
Definition set_refcnt (v : Z) (b : buf) : buf :=
  mkbuf (b_valid b) (b_disk b) (b_dev b) (b_blockno b) v (b_prev b) (b_next b) (b_data b).
Definition set_prev (v : nat) (b : buf) : buf :=
  mkbuf (b_valid b) (b_disk b) (b_dev b) (b_blockno b) (b_refcnt b) v (b_next b) (b_data b).
Definition set_next (v : nat) (b : buf) : buf :=
  mkbuf (b_valid b) (b_disk b) (b_dev b) (b_blockno b) (b_refcnt b) (b_prev b) v (b_data b).
Definition set_data (v : block) (b : buf) : buf :=
  mkbuf (b_valid b) (b_disk b) (b_dev b) (b_blockno b) (b_refcnt b) (b_prev b) (b_next b) v.

(** ** The disk driver's interface *)

Class Disk : Type := {
  (** [virtio_disk_rw(b, write)] *)
  virtio_disk_rw : nat -> bool -> K unit
}.

(** What a completed read and a completed write leave behind. *)
Definition disk_read (i : nat) (s : kst) : kst :=
  let b := buf_at s i in
  set_bufs (<[i := set_bdisk false (set_data (dget (k_disk s) (b_blockno b)) b)]> (k_bufs s)) s.
Definition disk_written (i : nat) (s : kst) : kst :=
  let b := buf_at s i in
  set_bufs (<[i := set_bdisk false b]> (k_bufs s))
    (set_disk (<[b_blockno b := b_data b]> (k_disk s))
       (set_writes (k_writes s ++ [(b_blockno b, b_data b)]) s)).

Class DiskOk `{Dk : Disk} : Prop := {
  disk_rw_read me pid i s :
    ctx me pid s -> (i < NBUF)%nat ->
    exists s', virtio_disk_rw i false s = Ret tt s' /\ woke (disk_read i s) s';
  disk_rw_write me pid i s :
    ctx me pid s -> (i < NBUF)%nat ->
    exists s', virtio_disk_rw i true s = Ret tt s' /\ woke (disk_written i s) s'
}.

(** ** Operations *)

Section bio.
Context `{Dk : Disk}.

(** The list head is [bcache.head]. *)
Definition head : nat := NBUF.

(** The body of [binit]'s loop. *)
Definition binit_visit (b : nat) : K unit :=
  let! first := gets (fun s => b_next (buf_at s head)) in
  do! put_buf b (set_next first);
  do! put_buf b (set_prev head);
  do! initsleeplock (SLbuf b);
  let! first := gets (fun s => b_next (buf_at s head)) in
  do! put_buf first (set_prev b);
  put_buf head (set_next b).

Definition binit : K unit :=
  do! initlock LKbcache;
  do! put_buf head (set_prev head);
  do! put_buf head (set_next head);
  kfor (seq 0 NBUF) binit_visit.

(** [for(b = start; b != &bcache.head; b = step(b)) if(test(b)) return b] *)
Fixpoint bscan (fuel : nat) (step : buf -> nat) (test : buf -> bool) (b : nat) : K (option nat) :=
  match fuel with
  | O => fun _ => NoFuel
  | S fuel =>
    if (b =? head)%nat then kret None else
    let! x := gets (fun s => buf_at s b) in
    if test x then kret (Some b) else bscan fuel step test (step x)
  end.

Definition bget (dev blockno : Z) : K nat :=
  do! acquire LKbcache;
  let! first := gets (fun s => b_next (buf_at s head)) in
  let! r := bscan (S NBUF) b_next
              (fun x => (b_dev x =? dev) && (b_blockno x =? blockno)) first in
  match r with
  | Some b =>
    do! put_buf b (fun x => set_refcnt (u32 (b_refcnt x + 1)) x);
    do! release LKbcache;
    do! acquiresleep (SLbuf b);
    kret b
  | None =>
    let! last := gets (fun s => b_prev (buf_at s head)) in
    let! r := bscan (S NBUF) b_prev (fun x => b_refcnt x =? 0) last in
    match r with
    | Some b =>
      do! put_buf b (set_bdev dev);
      do! put_buf b (set_blockno blockno);
      do! put_buf b (set_valid false);
      do! put_buf b (set_refcnt 1);
      do! release LKbcache;
      do! acquiresleep (SLbuf b);
      kret b
    | None => panic "bget: no buffers"
    end
  end.

Definition bread (dev blockno : Z) : K nat :=
  let! b := bget dev blockno in
  let! valid := gets (fun s => b_valid (buf_at s b)) in
  do! if! negb valid then
    (do! virtio_disk_rw b false;
     put_buf b (set_valid true));
  kret b.

Definition bwrite (b : nat) : K unit :=
  let! h := holdingsleep (SLbuf b) in
  if negb h then panic "bwrite" else
  virtio_disk_rw b true.

(** The part of [brelse] that moves an unused buffer to the front. *)
Definition brelse_front (b : nat) : K unit :=
  let! x := gets (fun s => buf_at s b) in
  do! put_buf (b_next x) (set_prev (b_prev x));
  let! x := gets (fun s => buf_at s b) in
  do! put_buf (b_prev x) (set_next (b_next x));
  let! first := gets (fun s => b_next (buf_at s head)) in
  do! put_buf b (set_next first);
  do! put_buf b (set_prev head);
  let! first := gets (fun s => b_next (buf_at s head)) in
  do! put_buf first (set_prev b);
  put_buf head (set_next b).

Definition brelse (b : nat) : K unit :=
  let! h := holdingsleep (SLbuf b) in
  if negb h then panic "brelse" else
  do! releasesleep (SLbuf b);
  do! acquire LKbcache;
  do! put_buf b (fun x => set_refcnt (u32 (b_refcnt x - 1)) x);
  let! x := gets (fun s => buf_at s b) in
  do! if! b_refcnt x =? 0 then
    brelse_front b;
  release LKbcache.

Definition bpin (b : nat) : K unit :=
  do! acquire LKbcache;
  do! put_buf b (fun x => set_refcnt (u32 (b_refcnt x + 1)) x);
  release LKbcache.

Definition bunpin (b : nat) : K unit :=
  do! acquire LKbcache;
  do! put_buf b (fun x => set_refcnt (u32 (b_refcnt x - 1)) x);
  release LKbcache.

End bio.

(** ** Circular lists through two link functions *)

(** Following [f] from [a] visits [l] and then reaches [z]. *)
Fixpoint chain (f : nat -> nat) (a : nat) (l : list nat) (z : nat) : Prop :=
  match l with
  | [] => f a = z
  | b :: l => f a = b /\ chain f b l z
  end.

Lemma chain_app f a l1 b l2 z :
  chain f a (l1 ++ b :: l2) z <-> chain f a l1 b /\ chain f b l2 z.
Proof. revert a. induction l1 as [|c l1 IH]; intros a; simpl; [done|]. rewrite IH. tauto. Qed.

Lemma chain_ext f g a l z : (forall x, x ∈ a :: l -> g x = f x) -> chain f a l z -> chain g a l z.
Proof.
  revert a. induction l as [|b l IH]; intros a He; simpl.
  - intros <-. apply He. left.
  - intros [Hf Hc]. split; [rewrite <- Hf; apply He; left|].
    apply IH; [|done]. intros x Hin. apply He. by right.
Qed.

Lemma chain_hd f a l z : chain f a l z -> f a = List.hd z l.
Proof. destruct l; simpl; tauto. Qed.

Lemma last_cons_eq (a b : nat) l : List.last (b :: l) a = List.last l b.
Proof.
  revert a b. induction l as [|c l IH]; intros a b; [done|].
  change (List.last (b :: c :: l) a) with (List.last (c :: l) a). by rewrite !(IH _ c).
Qed.

Lemma last_elem (a : nat) l : List.last l a ∈ a :: l.
Proof.
  revert a. induction l as [|b l IH]; intros a; [left|]. rewrite last_cons_eq. right. apply IH.
Qed.

(** Redirecting the last link, and a link that is not on the way. *)
Lemma chain_last f a l z z' :
  NoDup (a :: l) -> chain f a l z -> chain (<[List.last l a := z']> f) a l z'.
Proof.
  revert a. induction l as [|b l IH]; intros a Hn; cbn [chain].
  - intros _. apply fn_lookup_insert.
  - intros [Hf Hc]. apply NoDup_cons in Hn as [Ha Hn]. rewrite last_cons_eq.
    split; [|by apply IH]. rewrite fn_lookup_insert_ne; [done|].
    intros <-. apply Ha, last_elem.
Qed.

Lemma chain_other f a l z x v : x ∉ a :: l -> chain f a l z -> chain (<[x := v]> f) a l z.
Proof.
  intros Hx. apply chain_ext. intros y Hy. apply fn_lookup_insert_ne. congruence.
Qed.

(** The predecessor of [b] is where the reversed chain goes next. *)
Lemma chain_pred f a l1 b l2 z :
  chain f z (reverse (l1 ++ b :: l2)) a -> f b = List.last l1 a.
Proof.
  rewrite reverse_app, reverse_cons, <- app_assoc. simpl. intros [_ H]%chain_app.
  apply chain_hd in H. rewrite H. clear H. induction l1 as [|c l1 IH] using rev_ind; [done|].
  rewrite reverse_snoc. simpl. by rewrite List.last_last.
Qed.

Lemma chain_unlink f a l1 b l2 z :
  NoDup (a :: l1 ++ b :: l2) -> chain f a (l1 ++ b :: l2) z ->
  chain (<[List.last l1 a := f b]> f) a (l1 ++ l2) z.
Proof.
  intros Hn [H1 H2]%chain_app.
  assert (Hn1 : NoDup (a :: l1)).
  { apply (NoDup_app (a :: l1) (b :: l2)) in Hn. tauto. }
  assert (Hd : forall x, x ∈ a :: l1 -> x ∉ b :: l2).
  { apply (NoDup_app (a :: l1) (b :: l2)) in Hn. tauto. }
  destruct l2 as [|c l2].
  - rewrite app_nil_r. simpl in H2. rewrite H2. eapply chain_last; eauto.
  - destruct H2 as [E H2]. apply chain_app. rewrite E. split; [eapply chain_last; eauto|].
    apply chain_other; [|done]. intros Hx. apply (Hd _ (last_elem a l1)). by right.
Qed.

Lemma chain_push_front f a b l z :
  b ∉ a :: l -> a ∉ l -> chain f a l z -> chain (<[a := b]> (<[b := f a]> f)) a (b :: l) z.
Proof.
  intros Hb Ha Hc. simpl. rewrite fn_lookup_insert. split; [done|].
  assert (Hab : b <> a) by (intros ->; apply Hb; left).
  destruct l as [|c l]; simpl in *.
  - by rewrite fn_lookup_insert_ne, fn_lookup_insert.
  - destruct Hc as [E Hc]. rewrite fn_lookup_insert_ne, fn_lookup_insert by done. split; [done|].
    apply chain_other; [done|]. apply chain_other; [|done]. intros H. apply Hb. by right.
Qed.

Lemma chain_push_back f a b l z :
  b ∉ a :: l -> NoDup (a :: l) -> chain f a l z ->
  chain (<[List.last l a := b]> (<[b := z]> f)) a (l ++ [b]) z.
Proof.
  intros Hb Hn Hc. apply chain_app. split.
  - eapply chain_last; [done|]. apply chain_other; [done|exact Hc].
  - simpl. rewrite fn_lookup_insert_ne, fn_lookup_insert; [done|].
    intros E. apply Hb. rewrite <- E. apply last_elem.
Qed.

(** ** The buffer list *)

Definition bat (bufs : list buf) (i : nat) : buf := default buf0 (bufs !! i).
Definition upd (i : nat) (f : buf -> buf) (bufs : list buf) : list buf := <[i := f (bat bufs i)]> bufs.

Lemma put_buf_upd i f s : put_buf i f s = Ret tt (set_bufs (upd i f (k_bufs s)) s).
Proof. done. Qed.

Lemma bat_upd i f bufs j :
  (i < length bufs)%nat -> bat (upd i f bufs) j = if decide (j = i) then f (bat bufs i) else bat bufs j.
Proof.
  intros H. unfold upd, bat at 1. case_decide as E.
  - subst. by rewrite list_lookup_insert_eq.
  - by rewrite list_lookup_insert_ne.
Qed.

Lemma length_upd i f bufs : length (upd i f bufs) = length bufs.
Proof. apply length_insert. Qed.

Definition nexts (bufs : list buf) (i : nat) : nat := b_next (bat bufs i).
Definition prevs (bufs : list buf) (i : nat) : nat := b_prev (bat bufs i).

(** [l] is the order of the buffers, most recently used first. *)
Record linked (bufs : list buf) (l : list nat) : Prop := {
  ln_len : length bufs = S NBUF;
  ln_perm : l ≡ₚ seq 0 NBUF;
  ln_next : chain (nexts bufs) head l head;
  ln_prev : chain (prevs bufs) head (reverse l) head
}.

Lemma linked_lt bufs l i : linked bufs l -> i ∈ l <-> (i < NBUF)%nat.
Proof. intros H. rewrite (ln_perm _ _ H), elem_of_seq. lia. Qed.

Lemma linked_nodup bufs l : linked bufs l -> NoDup (head :: l).
Proof.
  intros H. apply NoDup_cons. split.
  - rewrite (linked_lt _ _ _ H). unfold head. lia.
  - rewrite (ln_perm _ _ H). apply NoDup_seq.
Qed.

Lemma nodup_reverse (a : nat) l : NoDup (a :: l) -> NoDup (a :: reverse l).
Proof. by rewrite reverse_Permutation. Qed.

(** Updates that leave the links alone. *)
Lemma linked_upd i f bufs l :
  (forall x, b_next (f x) = b_next x /\ b_prev (f x) = b_prev x) ->
  linked bufs l -> linked (upd i f bufs) l.
Proof.
  intros Hf [L P N V]. destruct (decide (i < length bufs)%nat) as [Hi|Hi].
  2: { unfold upd. rewrite list_insert_ge by lia. done. }
  split; [by rewrite length_upd|done| |].
  - eapply chain_ext; [|exact N]. intros x _. unfold nexts. rewrite bat_upd by done.
    case_decide; subst; [apply Hf|done].
  - eapply chain_ext; [|exact V]. intros x _. unfold prevs. rewrite bat_upd by done.
    case_decide; subst; [apply Hf|done].
Qed.

(** Both scans of [bget] visit the list in order and stop at the head. *)
Lemma bscan_run step test s l a fuel :
  chain (fun i => step (buf_at s i)) a l head -> head ∉ l -> (length l < fuel)%nat ->
  bscan fuel step test (step (buf_at s a)) s = Ret (List.find (fun i => test (buf_at s i)) l) s.
Proof.
  revert a fuel. induction l as [|b l IH]; intros a fuel Hc Hh Hf; simpl in *;
    (destruct fuel as [|fuel]; [lia|]); cbn [bscan].
  - rewrite Hc. by rewrite Nat.eqb_refl.
  - destruct Hc as [-> Hc]. rewrite not_elem_of_cons in Hh. destruct Hh as [Hb Hh].
    destruct (Nat.eqb_spec b head); [congruence|]. rewrite kbind_gets.
    destruct (test (buf_at s b)); [done|]. apply IH; [done|done|lia].
Qed.

(** ** Moving a buffer to the front *)

Definition relink (b : nat) (bufs : list buf) : list buf :=
  let bufs := upd (nexts bufs b) (set_prev (prevs bufs b)) bufs in
  let bufs := upd (prevs bufs b) (set_next (nexts bufs b)) bufs in
  let bufs := upd b (set_next (nexts bufs head)) bufs in
  let bufs := upd b (set_prev head) bufs in
  let bufs := upd (nexts bufs head) (set_prev b) bufs in
  upd head (set_next b) bufs.

Lemma nexts_set_next i v bufs j :
  (i < length bufs)%nat -> nexts (upd i (set_next v) bufs) j = (<[i := v]> (nexts bufs)) j.
Proof.
  intros H. unfold nexts. rewrite bat_upd by done. case_decide; subst.
  - by rewrite fn_lookup_insert.
  - by rewrite fn_lookup_insert_ne.
Qed.
Lemma nexts_set_prev i v bufs j : (i < length bufs)%nat -> nexts (upd i (set_prev v) bufs) j = nexts bufs j.
Proof. intros H. unfold nexts. rewrite bat_upd by done. by case_decide; subst. Qed.
Lemma prevs_set_prev i v bufs j :
  (i < length bufs)%nat -> prevs (upd i (set_prev v) bufs) j = (<[i := v]> (prevs bufs)) j.
Proof.
  intros H. unfold prevs. rewrite bat_upd by done. case_decide; subst.
  - by rewrite fn_lookup_insert.
  - by rewrite fn_lookup_insert_ne.
Qed.
Lemma prevs_set_next i v bufs j : (i < length bufs)%nat -> prevs (upd i (set_next v) bufs) j = prevs bufs j.
Proof. intros H. unfold prevs. rewrite bat_upd by done. by case_decide; subst. Qed.

Lemma last_reverse (a : nat) l : List.last (reverse l) a = List.hd a l.
Proof. destruct l; [done|]. by rewrite reverse_cons, List.last_last. Qed.

Lemma hd_elem (a : nat) l : List.hd a l ∈ a :: l.
Proof. destruct l; simpl; [left|right; left]. Qed.

(** The last four assignments of [brelse] and of [binit]'s loop. *)
Definition pushed_front (b : nat) (bufs : list buf) : list buf :=
  let q := nexts bufs head in
  upd head (set_next b) (upd q (set_prev b) (upd b (set_prev head) (upd b (set_next q) bufs))).

Lemma push_links bufs l b :
  (forall x, x ∈ head :: b :: l -> (x < length bufs)%nat) -> NoDup (head :: b :: l) ->
  chain (nexts bufs) head l head -> chain (prevs bufs) head (reverse l) head ->
  chain (nexts (pushed_front b bufs)) head (b :: l) head /\
  chain (prevs (pushed_front b bufs)) head (reverse (b :: l)) head.
Proof.
  intros Hr D HN HP. rewrite !NoDup_cons, not_elem_of_cons in D. destruct D as ((D0 & D1) & D2 & D3).
  unfold pushed_front. pose proof (chain_hd _ _ _ _ HN) as Eq. set (q := nexts bufs head) in *.
  assert (I1 : (head < length bufs)%nat) by (apply Hr; left).
  assert (I2 : (b < length bufs)%nat) by (apply Hr; right; left).
  assert (Hq : q ∈ head :: l) by (rewrite Eq; apply hd_elem).
  assert (I3 : (q < length bufs)%nat).
  { apply Hr. rewrite !elem_of_cons in *. tauto. }
  split.
  - eapply chain_ext; [|apply (chain_push_front (nexts bufs) head b l head); [|done|exact HN]].
    + intros x _. rewrite nexts_set_next by (by rewrite ?length_upd).
      destruct (decide (x = head)) as [->|Hx]; [by rewrite !fn_lookup_insert|].
      rewrite !(fn_lookup_insert_ne _ head x) by done.
      rewrite !nexts_set_prev, nexts_set_next by (by rewrite ?length_upd). done.
    + rewrite not_elem_of_cons. done.
  - rewrite reverse_cons.
    eapply chain_ext; [|apply (chain_push_back (prevs bufs) head b (reverse l) head)].
    + intros x _. rewrite last_reverse, <- Eq. rewrite prevs_set_next by (by rewrite ?length_upd).
      rewrite prevs_set_prev by (by rewrite ?length_upd).
      destruct (decide (x = q)) as [->|Hx]; [by rewrite !fn_lookup_insert|].
      rewrite !(fn_lookup_insert_ne _ q x) by done.
      rewrite prevs_set_prev by (by rewrite ?length_upd).
      destruct (decide (x = b)) as [->|Hxb]; [by rewrite !fn_lookup_insert|].
      by rewrite !(fn_lookup_insert_ne _ b x), prevs_set_next.
    + by rewrite not_elem_of_cons, elem_of_reverse.
    + apply nodup_reverse, NoDup_cons. done.
    + exact HP.
Qed.

Section relink.
Context (bufs : list buf) (l1 l2 : list nat) (b : nat).
Hypothesis Hl : linked bufs (l1 ++ b :: l2).

Let p := List.last l1 head.
Let n := List.hd head l2.
Let q := List.hd head (l1 ++ l2).
Let nx := <[p := n]> (nexts bufs).
Let pv := <[n := p]> (prevs bufs).

Lemma relink_nodup : NoDup (head :: b :: l1 ++ l2).
Proof. pose proof (linked_nodup _ _ Hl) as H. by rewrite (Permutation_middle l1 l2 b). Qed.

Lemma relink_range x : x ∈ head :: b :: l1 ++ l2 -> (x < length bufs)%nat.
Proof.
  rewrite (ln_len _ _ Hl), (Permutation_middle l1 l2 b), elem_of_cons, (linked_lt _ _ _ Hl).
  unfold head. lia.
Qed.

Lemma relink_mem : n ∈ head :: l1 ++ l2 /\ p ∈ head :: l1 ++ l2 /\ q ∈ head :: l1 ++ l2.
Proof.
  pose proof (hd_elem head l2) as E1. pose proof (last_elem head l1) as E2.
  pose proof (hd_elem head (l1 ++ l2)) as E3.
  rewrite !elem_of_cons, !elem_of_app in *. unfold n, p, q. tauto.
Qed.

Lemma relink_not_b x : x ∈ head :: l1 ++ l2 -> x <> b.
Proof.
  pose proof relink_nodup as H. rewrite !NoDup_cons, not_elem_of_cons in H.
  destruct H as ((H1 & _) & H2 & _). rewrite elem_of_cons.
  intros [E|Hx] F; [congruence|]. rewrite F in Hx. done.
Qed.

Lemma relink_ne : b <> head /\ n <> b /\ p <> b /\ q <> b.
Proof.
  destruct relink_mem as (H1 & H2 & H3). split_and!; [|by apply relink_not_b..].
  apply not_eq_sym, relink_not_b. left.
Qed.

Lemma relink_in : (n < length bufs /\ p < length bufs /\ q < length bufs /\ b < length bufs /\
                  head < length bufs)%nat.
Proof.
  destruct relink_mem as (H1 & H2 & H3). rewrite elem_of_cons in H1, H2, H3.
  split_and!; apply relink_range; rewrite !elem_of_cons; tauto.
Qed.

Lemma relink_links : nexts bufs b = n /\ prevs bufs b = p.
Proof.
  destruct Hl as [_ _ N V]. apply chain_app in N as [_ N]. apply chain_hd in N.
  split; [exact N|]. by eapply chain_pred.
Qed.

Lemma relink_next : chain nx head (l1 ++ l2) head.
Proof.
  destruct relink_links as [E _]. unfold nx. rewrite <- E.
  apply chain_unlink; [apply (linked_nodup _ _ Hl)|apply Hl].
Qed.

Lemma relink_prev : chain pv head (reverse (l1 ++ l2)) head.
Proof.
  destruct relink_links as [_ E]. unfold pv, n. rewrite <- E, <- last_reverse, reverse_app.
  pose proof (ln_prev _ _ Hl) as V. pose proof (nodup_reverse _ _ (linked_nodup _ _ Hl)) as D.
  rewrite reverse_app, reverse_cons, <- app_assoc in V, D. by apply chain_unlink.
Qed.

Lemma relink_eq :
  relink b bufs =
  upd head (set_next b) (upd q (set_prev b) (upd b (set_prev head) (upd b (set_next q)
    (upd p (set_next n) (upd n (set_prev p) bufs))))).
Proof.
  destruct relink_links as [E1 E2], relink_ne as (B1 & B2 & B3 & B4),
    relink_in as (I1 & I2 & I3 & I4 & I5). unfold relink. rewrite E1, E2.
  rewrite prevs_set_prev, fn_lookup_insert_ne, E2 by done.
  rewrite (nexts_set_prev n p bufs b), E1 by done.
  assert (Eq : nexts (upd p (set_next n) (upd n (set_prev p) bufs)) head = q).
  { rewrite nexts_set_next by (by rewrite ?length_upd).
    pose proof (chain_hd _ _ _ _ relink_next) as E. unfold nx in E. unfold q. rewrite <- E.
    destruct (decide (p = head)) as [->|Hp]; [by rewrite !fn_lookup_insert|].
    by rewrite !fn_lookup_insert_ne, nexts_set_prev. }
  rewrite Eq. rewrite nexts_set_prev, nexts_set_next by (by rewrite ?length_upd).
  by rewrite fn_lookup_insert_ne, Eq.
Qed.

Lemma linked_relink : linked (relink b bufs) (b :: l1 ++ l2).
Proof.
  destruct relink_ne as (B1 & B2 & B3 & B4), relink_in as (I1 & I2 & I3 & I4 & I5).
  rewrite relink_eq. set (bufs2 := upd p (set_next n) (upd n (set_prev p) bufs)).
  assert (N2 : forall x, nexts bufs2 x = nx x).
  { intros x. unfold bufs2, nx. rewrite nexts_set_next by (by rewrite ?length_upd).
    destruct (decide (x = p)) as [->|]; [by rewrite !fn_lookup_insert|].
    by rewrite !fn_lookup_insert_ne, nexts_set_prev. }
  assert (P2 : forall x, prevs bufs2 x = pv x).
  { intros x. unfold bufs2, pv. rewrite prevs_set_next by (by rewrite ?length_upd).
    by apply prevs_set_prev. }
  assert (Eq : nexts bufs2 head = q).
  { rewrite N2. by rewrite (chain_hd _ _ _ _ relink_next). }
  destruct (push_links bufs2 (l1 ++ l2) b) as [HN HP].
  - unfold bufs2. rewrite !length_upd. intros x. apply relink_range.
  - apply relink_nodup.
  - eapply chain_ext; [|exact relink_next]. intros x _. apply N2.
  - eapply chain_ext; [|exact relink_prev]. intros x _. apply P2.
  - unfold pushed_front in HN, HP. rewrite Eq in HN, HP. split; [|by rewrite (Permutation_middle l1 l2 b); apply Hl|done|done].
    unfold bufs2. rewrite !length_upd. apply Hl.
Qed.
End relink.

(** ** The abstract view of the cache *)

(** A buffer without its links and the driver's flag. *)
Definition core (b : buf) : buf :=
  mkbuf (b_valid b) false (b_dev b) (b_blockno b) (b_refcnt b) 0 0 (b_data b).

Lemma core_upd i f bufs j :
  (forall x, core (f x) = core x) -> (i < length bufs)%nat ->
  core (bat (upd i f bufs) j) = core (bat bufs j).
Proof. intros Hf Hi. rewrite bat_upd by done. case_decide; subst; [apply Hf|done]. Qed.

Lemma core_relink b bufs l j : linked bufs l -> (b < NBUF)%nat ->
  core (bat (relink b bufs) j) = core (bat bufs j).
Proof.
  intros H Hb. apply (linked_lt _ _ _ H) in Hb. apply list_elem_of_split in Hb as (l1 & l2 & ->).
  destruct (relink_in _ _ _ _ H) as (I1 & I2 & I3 & I4 & I5).
  rewrite (relink_eq _ _ _ _ H). by rewrite !core_upd by (rewrite ?length_upd; done).
Qed.

(** Buffer [i] is the one for block [b] of device [d]. *)
Definition cached (d : Z) (s : kst) (i : nat) (b : Z) : Prop :=
  (i < NBUF)%nat /\ b_dev (buf_at s i) = d /\ b_blockno (buf_at s i) = b.

Definition vbuf (d : Z) (s : kst) (b : Z) : option nat :=
  List.find (fun i => (b_dev (buf_at s i) =? d) && (b_blockno (buf_at s i) =? b)) (seq 0 NBUF).

(** What a reader of block [b] sees, how often it is referenced, whether
    somebody has it locked. *)
Definition content (d : Z) (s : kst) (b : Z) : block :=
  match vbuf d s b with Some i => b_data (buf_at s i) | None => dget (k_disk s) b end.
Definition refs (d : Z) (s : kst) (b : Z) : Z :=
  match vbuf d s b with Some i => b_refcnt (buf_at s i) | None => 0 end.
Definition held (d : Z) (s : kst) (b : Z) : bool :=
  match vbuf d s b with Some i => sl_locked (slock_at s (SLbuf i)) | None => false end.

(** Number of buffers in use. *)
Definition busy (s : kst) : nat :=
  length (filter (fun i => b_refcnt (buf_at s i) <> 0) (seq 0 NBUF)).

(** The invariant of the cache between calls: the list is well formed, every
    buffer of device [d] is valid, no block has two buffers, and a buffer
    nobody uses is unlocked and agrees with the disk. *)
Record bio_inv (d : Z) (s : kst) : Prop := {
  bi_list : exists l, linked (k_bufs s) l;
  bi_ref i : (i < NBUF)%nat -> 0 <= b_refcnt (buf_at s i);
  bi_dev i : (i < NBUF)%nat -> b_refcnt (buf_at s i) <> 0 -> b_dev (buf_at s i) = d;
  bi_valid i : (i < NBUF)%nat -> b_dev (buf_at s i) = d -> b_valid (buf_at s i) = true;
  bi_uniq i j b : cached d s i b -> cached d s j b -> i = j;
  bi_clean i : (i < NBUF)%nat -> b_dev (buf_at s i) = d -> b_refcnt (buf_at s i) = 0 ->
               b_data (buf_at s i) = dget (k_disk s) (b_blockno (buf_at s i));
  bi_lock i : (i < NBUF)%nat -> sl_locked (slock_at s (SLbuf i)) = true ->
              b_refcnt (buf_at s i) <> 0
}.

Lemma vbuf_cached d s b i : vbuf d s b = Some i -> cached d s i b.
Proof.
  intros H. apply List.find_some in H as [H1 H2]. apply List.in_seq in H1.
  apply andb_true_iff in H2 as [H2 H3]. apply Z.eqb_eq in H2, H3.
  split_and!; [lia|done|done].
Qed.

Lemma vbuf_none d s b i : vbuf d s b = None -> ~ cached d s i b.
Proof.
  intros H (H1 & H2 & H3).
  pose proof (List.find_none _ _ H i ltac:(apply List.in_seq; lia)) as E. simpl in E.
  rewrite H2, H3, !Z.eqb_refl in E. done.
Qed.

Lemma cached_vbuf d s b i : bio_inv d s -> cached d s i b -> vbuf d s b = Some i.
Proof.
  intros Hi Hc. destruct (vbuf d s b) as [j|] eqn:E.
  - f_equal. apply vbuf_cached in E. by apply (bi_uniq d s Hi j i b).
  - by apply (vbuf_none d s b i) in E.
Qed.

Lemma not_cached_vbuf d s b : (forall i, ~ cached d s i b) -> vbuf d s b = None.
Proof.
  intros H. destruct (vbuf d s b) as [i|] eqn:E; [|done]. apply vbuf_cached in E. by apply H in E.
Qed.

Lemma vbuf_dec d s b : bio_inv d s ->
  (exists i, cached d s i b /\ vbuf d s b = Some i) \/ ((forall i, ~ cached d s i b) /\ vbuf d s b = None).
Proof.
  intros Hi. destruct (vbuf d s b) as [i|] eqn:E.
  - left. exists i. split; [by apply vbuf_cached|done].
  - right. split; [|done]. intros i. by apply vbuf_none.
Qed.

Lemma core_fields x y : core x = core y ->
  b_valid x = b_valid y /\ b_dev x = b_dev y /\ b_blockno x = b_blockno y /\
  b_refcnt x = b_refcnt y /\ b_data x = b_data y.
Proof. unfold core. intros H. injection H. tauto. Qed.

Definition nz (r : Z) : nat := if r =? 0 then 0 else 1.

(** [s'] is [s] with the view of block [b] changed to contents [c], count
    [r] and lock [h], and that of the others unchanged. *)
Record vstep (d : Z) (b : Z) (c : block) (r : Z) (h : bool) (s s' : kst) : Prop := {
  vs_inv : bio_inv d s';
  vs_content b' : content d s' b' = if decide (b' = b) then c else content d s b';
  vs_refs b' : refs d s' b' = if decide (b' = b) then r else refs d s b';
  vs_held b' : held d s' b' = if decide (b' = b) then h else held d s b';
  vs_busy : (busy s' + nz (refs d s b) = busy s + nz r)%nat;
  vs_keep j b' : 0 < refs d s b' -> cached d s j b' -> cached d s' j b';
  vs_slock j b' : b' <> b -> 0 < refs d s b' -> cached d s j b' ->
                  slock_at s' (SLbuf j) = slock_at s (SLbuf j)
}.

Arguments vs_inv {d b c r h s s'}.
Arguments vs_content {d b c r h s s'}.
Arguments vs_refs {d b c r h s s'}.
Arguments vs_held {d b c r h s s'}.
Arguments vs_busy {d b c r h s s'}.
Arguments vs_keep {d b c r h s s'}.
Arguments vs_slock {d b c r h s s'}.

Lemma busy_replace s s' i :
  (i < NBUF)%nat ->
  (forall j, (j < NBUF)%nat -> j <> i -> b_refcnt (buf_at s' j) = b_refcnt (buf_at s j)) ->
  (busy s' + nz (b_refcnt (buf_at s i)) = busy s + nz (b_refcnt (buf_at s' i)))%nat.
Proof.
  intros Hi He. unfold busy.
  assert (G : forall l, NoDup l -> (forall j, j ∈ l -> (j < NBUF)%nat) ->
    (length (filter (fun j => b_refcnt (buf_at s' j) <> 0%Z) l) +
     (if decide (i ∈ l) then nz (b_refcnt (buf_at s i)) else 0) =
     length (filter (fun j => b_refcnt (buf_at s j) <> 0%Z) l) +
     (if decide (i ∈ l) then nz (b_refcnt (buf_at s' i)) else 0))%nat).
  { induction l as [|j l IH]; intros Hn Hl; [done|]. apply NoDup_cons in Hn as [Hj Hn].
    specialize (IH Hn (fun k Hk => Hl k (list_elem_of_further _ _ _ Hk))). rewrite !filter_cons.
    destruct (decide (i = j)) as [->|Hij].
    - rewrite (decide_False (P := j ∈ l)) in IH by done.
      rewrite !(decide_True (P := j ∈ j :: l)) by left.
      rewrite (decide_False (P := j ∈ l)) in IH by done. unfold nz.
      destruct (decide (b_refcnt (buf_at s' j) <> 0)), (decide (b_refcnt (buf_at s j) <> 0));
        zcases; simpl; lia.
    - rewrite He; [|apply Hl; left|done].
      destruct (decide (i ∈ j :: l)) as [X|X], (decide (i ∈ l)) as [Y|Y];
        rewrite elem_of_cons in X; try tauto; destruct (decide _); simpl; lia. }
  specialize (G (seq 0 NBUF) (NoDup_seq 0 NBUF)).
  rewrite decide_True in G by (apply elem_of_seq; lia).
  rewrite decide_True in G by (apply elem_of_seq; lia).
  apply G. intros j Hj%elem_of_seq. lia.
Qed.

Lemma busy_lt s i : (i < NBUF)%nat -> b_refcnt (buf_at s i) = 0 -> (busy s < NBUF)%nat.
Proof.
  intros Hi Hz. unfold busy. rewrite <- (length_seq NBUF 0) at 2.
  apply (length_filter_lt _ _ i); [apply elem_of_seq; lia|]. by intros [].
Qed.

(** Replacing one buffer, either the one that has the block already or an
    unused one. *)
Section replace.
Context (d : Z) (s s' : kst) (i : nat) (b : Z) (x : buf).
Hypothesis Hinv : bio_inv d s.
Hypothesis Hi : (i < NBUF)%nat.
Hypothesis Hcore : forall j, (j < NBUF)%nat ->
  core (buf_at s' j) = core (if decide (j = i) then x else buf_at s j).
Hypothesis Hdev : b_dev x = d.
Hypothesis Hblk : b_blockno x = b.
Hypothesis Hold : cached d s i b \/ (forall j, ~ cached d s j b) /\ b_refcnt (buf_at s i) = 0.
Hypothesis Hslock : forall j, (j < NBUF)%nat -> j <> i ->
  slock_at s' (SLbuf j) = slock_at s (SLbuf j).
Hypothesis Hdisk : forall b', b' <> b -> dget (k_disk s') b' = dget (k_disk s) b'.
Hypothesis Hlist : exists l, linked (k_bufs s') l.
Hypothesis Hvalid : b_valid x = true.
Hypothesis Href : 0 <= b_refcnt x.
Hypothesis Hclean : b_refcnt x = 0 -> b_data x = dget (k_disk s') b.
Hypothesis Hlock : sl_locked (slock_at s' (SLbuf i)) = true -> b_refcnt x <> 0.

Lemma replace_other j : (j < NBUF)%nat -> j <> i -> core (buf_at s' j) = core (buf_at s j).
Proof using Hcore. intros Hj Hn. rewrite Hcore by done. by rewrite decide_False. Qed.

Lemma replace_this : core (buf_at s' i) = core x.
Proof using Hcore Hi. rewrite Hcore by done. by rewrite decide_True. Qed.

Lemma replace_cached j b' :
  cached d s' j b' <-> (j = i /\ b' = b) \/ (j <> i /\ b' <> b /\ cached d s j b').
Proof using Hinv Hi Hcore Hdev Hblk Hold.
  destruct (decide (j = i)) as [->|Hj].
  - destruct (core_fields _ _ replace_this) as (_ & E2 & E3 & _).
    unfold cached. rewrite E2, E3, Hdev, Hblk. split.
    + intros (_ & _ & E). by left.
    + intros [[_ E]|[E _]]; [by split_and!|done].
  - split.
    + intros Hc. assert (Hlt : (j < NBUF)%nat) by apply Hc.
      destruct (core_fields _ _ (replace_other j Hlt Hj)) as (_ & E2 & E3 & _).
      assert (Hc' : cached d s j b').
      { destruct Hc as (H1 & H2 & H3). split_and!; [done|congruence|congruence]. }
      right. split_and!; [done| |done]. intros ->.
      destruct Hold as [Ho|[Ho _]]; [|by apply Ho in Hc'].
      apply Hj. by apply (bi_uniq d s Hinv j i b).
    + intros [[-> _]|(_ & _ & Hc)]; [done|]. assert (Hlt : (j < NBUF)%nat) by apply Hc.
      destruct (core_fields _ _ (replace_other j Hlt Hj)) as (_ & E2 & E3 & _).
      destruct Hc as (H1 & H2 & H3). split_and!; [done|congruence|congruence].
Qed.

Lemma replace_inv : bio_inv d s'.
Proof using All.
  assert (F : forall j, (j < NBUF)%nat -> j <> i ->
    b_valid (buf_at s' j) = b_valid (buf_at s j) /\ b_dev (buf_at s' j) = b_dev (buf_at s j) /\
    b_blockno (buf_at s' j) = b_blockno (buf_at s j) /\
    b_refcnt (buf_at s' j) = b_refcnt (buf_at s j) /\ b_data (buf_at s' j) = b_data (buf_at s j)).
  { intros j Hj Hn. by apply core_fields, replace_other. }
  destruct (core_fields _ _ replace_this) as (T1 & T2 & T3 & T4 & T5).
  split.
  - done.
  - intros j Hj. destruct (decide (j = i)) as [->|Hn]; [by rewrite T4|].
    destruct (F j Hj Hn) as (_ & _ & _ & -> & _). by apply (bi_ref d s Hinv).
  - intros j Hj. destruct (decide (j = i)) as [->|Hn]; [congruence|].
    destruct (F j Hj Hn) as (_ & -> & _ & -> & _). by apply (bi_dev d s Hinv).
  - intros j Hj. destruct (decide (j = i)) as [->|Hn]; [congruence|].
    destruct (F j Hj Hn) as (-> & -> & _). by apply (bi_valid d s Hinv).
  - intros j k b' Hj Hk. apply replace_cached in Hj, Hk.
    destruct Hj as [[-> ->]|(J1 & J2 & J3)], Hk as [[-> ?]|(K1 & K2 & K3)]; try done.
    by apply (bi_uniq d s Hinv j k b').
  - intros j Hj. destruct (decide (j = i)) as [->|Hn].
    + rewrite T3, T4, T5, Hblk. intros _. done.
    + destruct (F j Hj Hn) as (_ & -> & -> & -> & ->). intros H1 H2.
      rewrite Hdisk; [by apply (bi_clean d s Hinv)|]. intros E.
      destruct Hold as [Ho|[Ho _]]; [|by apply (Ho j); split_and!].
      apply Hn. apply (bi_uniq d s Hinv j i b); [by split_and!|done].
  - intros j Hj. destruct (decide (j = i)) as [->|Hn]; [by rewrite T4|].
    rewrite Hslock by done. destruct (F j Hj Hn) as (_ & _ & _ & -> & _).
    by apply (bi_lock d s Hinv).
Qed.

Lemma replace_vbuf b' : b' <> b ->
  vbuf d s' b' = vbuf d s b' \/
  (vbuf d s' b' = None /\ vbuf d s b' = Some i /\ b_refcnt (buf_at s i) = 0).
Proof using All.
  intros Hb. pose proof replace_inv as Hinv'.
  destruct (vbuf_dec d s b' Hinv) as [(j & Hj & ->)|[Hj ->]].
  - destruct (decide (j = i)) as [->|Hn].
    + right. split_and!; [|done|].
      * apply not_cached_vbuf. intros k. rewrite replace_cached. intros [[_ ?]|(K1 & _ & K)]; [done|].
        apply K1. by apply (bi_uniq d s Hinv k i b').
      * destruct Hold as [Ho|[_ Ho]]; [|done]. destruct Hj as (_ & _ & Hj), Ho as (_ & _ & Ho).
        congruence.
    + left. apply cached_vbuf; [done|]. apply replace_cached. by right.
  - left. apply not_cached_vbuf. intros k. rewrite replace_cached. intros [[_ ?]|(_ & _ & K)]; [done|].
    by apply (Hj k).
Qed.

Lemma replace_vstep :
  vstep d b (b_data x) (b_refcnt x) (sl_locked (slock_at s' (SLbuf i))) s s'.
Proof using All.
  pose proof replace_inv as Hinv'.
  destruct (core_fields _ _ replace_this) as (T1 & T2 & T3 & T4 & T5).
  assert (Hv : vbuf d s' b = Some i) by (apply cached_vbuf; [done|]; apply replace_cached; by left).
  assert (Hother : forall b', b' <> b ->
    content d s' b' = content d s b' /\ refs d s' b' = refs d s b' /\ held d s' b' = held d s b').
  { intros b' Hb. unfold content, refs, held.
    destruct (replace_vbuf b' Hb) as [E|(-> & E & Hz)].
    - rewrite E. destruct (vbuf d s b') as [j|] eqn:Ej; [|by rewrite Hdisk].
      apply vbuf_cached in Ej. assert (Hlt : (j < NBUF)%nat) by apply Ej.
      assert (Hn : j <> i).
      { intros ->. apply vbuf_cached, replace_cached in E as [[_ ?]|[? _]]; done. }
      destruct (core_fields _ _ (replace_other j Hlt Hn)) as (_ & _ & _ & -> & ->).
      by rewrite Hslock.
    - rewrite E, Hz. apply vbuf_cached in E as (_ & E1 & E2). split_and!.
      + rewrite (bi_clean d s Hinv i Hi E1 Hz), E2. by apply Hdisk.
      + done.
      + destruct (sl_locked (slock_at s (SLbuf i))) eqn:El; [|done].
        by apply (bi_lock d s Hinv i Hi) in El. }
  assert (Hkeep : forall j b', 0 < refs d s b' -> cached d s j b' -> cached d s' j b').
  { intros j b' Hr Hc. apply replace_cached. unfold refs in Hr.
    rewrite (cached_vbuf d s b' j Hinv Hc) in Hr. destruct Hold as [Ho|[Ho Hz]].
    - destruct (decide (j = i)) as [->|Hn].
      + left. destruct Hc as (_ & _ & Hc), Ho as (_ & _ & Ho). split; [done|congruence].
      + right. split_and!; [done| |done]. intros ->. apply Hn. by apply (bi_uniq d s Hinv j i b).
    - right. split_and!; [intros ->; lia|intros ->; by apply (Ho j)|done]. }
  split.
  - done.
  - intros b'. case_decide as E; [subst b'|by apply Hother]. unfold content. by rewrite Hv.
  - intros b'. case_decide as E; [subst b'|by apply Hother]. unfold refs. by rewrite Hv.
  - intros b'. case_decide as E; [subst b'|by apply Hother]. unfold held. by rewrite Hv.
  - rewrite <- T4. assert (Er : refs d s b = b_refcnt (buf_at s i)).
    { unfold refs. destruct Hold as [Ho|[Ho Hz]].
      - by rewrite (cached_vbuf d s b i).
      - by rewrite (not_cached_vbuf d s b). }
    rewrite Er. apply busy_replace; [done|]. intros j Hj Hn.
    by apply core_fields, replace_other.
  - exact Hkeep.
  - intros j b' Hb Hr Hc. pose proof (Hkeep j b' Hr Hc) as Hc'.
    apply replace_cached in Hc' as [[_ ?]|(Hn & _)]; [done|]. apply Hslock; [apply Hc|done].
Qed.
End replace.

(** ** The effect of a call on block [b], in buffer [i] *)

(** Only the cache, its locks and the disk changed. *)
Record quiet (s s' : kst) : Prop := {
  qt_woke : woke (set_slocks (k_slocks s') (set_bufs (k_bufs s')
              (set_disk (k_disk s') (set_writes (k_writes s') s)))) s';
  qt_slock i : slock_at s' (SLinode i) = slock_at s (SLinode i)
}.

#[export] Instance quiet_refl : Reflexive quiet.
Proof. intros s. split; [|done]. exact (woke_refl s). Qed.

#[export] Instance quiet_trans : Transitive quiet.
Proof.
  intros s1 s2 s3 [W1 L1] [W2 L2]. split; [|intros i; by rewrite L2, L1].
  etransitivity; [|exact W2]. pose proof (woke_slocks (k_slocks s3) _ _ (woke_bufs (k_bufs s3) _ _
    (woke_disk (k_disk s3) _ _ (woke_writes (k_writes s3) _ _ W1)))) as W. exact W.
Qed.

Lemma ctx_quiet me pid s s' : ctx me pid s -> quiet s s' -> ctx me pid s'.
Proof. intros Hx [W _]. eapply ctx_woke; [|exact W]. auto with krun. Qed.
#[export] Hint Resolve ctx_quiet : krun.

Lemma quiet_log s s' : quiet s s' -> k_log s' = k_log s.
Proof. intros [[E _ _ _] _]. rewrite E. done. Qed.

Record bstep (d : Z) (i : nat) (b : Z) (c : block) (r : Z) (o : sleeplock) (s s' : kst) : Prop := {
  bs_quiet : quiet s s';
  bs_view : vstep d b c r (sl_locked o) s s';
  bs_cached : cached d s' i b;
  bs_slock : slock_at s' (SLbuf i) = o
}.

Arguments bs_quiet {d i b c r o s s'}.
Arguments bs_view {d i b c r o s s'}.
Arguments bs_cached {d i b c r o s s'}.
Arguments bs_slock {d i b c r o s s'}.

(** Two calls on the same block. *)
Lemma bstep_trans d i b c r o c' r' o' s1 s2 s3 :
  bstep d i b c r o s1 s2 -> bstep d i b c' r' o' s2 s3 -> 0 < r -> bstep d i b c' r' o' s1 s3.
Proof.
  intros [Q1 [I1 C1 R1 H1 B1 K1 L1] A1 S1] [Q2 [I2 C2 R2 H2 B2 K2 L2] A2 S2] Hr.
  assert (Hp : forall b', 0 < refs d s1 b' -> 0 < refs d s2 b').
  { intros b' H. rewrite R1. by case_decide. }
  split; [by etransitivity| |done|done]. split.
  - done.
  - intros b'. rewrite C2, C1. by case_decide.
  - intros b'. rewrite R2, R1. by case_decide.
  - intros b'. rewrite H2, H1. by case_decide.
  - rewrite R1, decide_True in B2 by done. lia.
  - eauto.
  - intros j b' Hb Hr' Hc. rewrite (L2 j b') by eauto. eauto.
Qed.

Arguments bstep_trans {d i b c r o c' r' o' s1 s2 s3}.
Arguments ctx_quiet {me pid s s'}.

Lemma bstep_intro d s s' i b x o S' bufs' disk' writes' :
  bio_inv d s ->
  woke (set_slocks S' (set_bufs bufs' (set_disk disk' (set_writes writes' s)))) s' ->
  (i < NBUF)%nat ->
  (forall sl, default (mksleep false 0) (S' !! sl) =
              if decide (sl = SLbuf i) then o else slock_at s sl) ->
  (exists l, linked bufs' l) ->
  (forall j, (j < NBUF)%nat -> core (bat bufs' j) = core (if decide (j = i) then x else buf_at s j)) ->
  b_dev x = d /\ b_blockno x = b /\ b_valid x = true /\ 0 <= b_refcnt x ->
  (cached d s i b \/ (forall j, ~ cached d s j b) /\ b_refcnt (buf_at s i) = 0) ->
  (forall b', b' <> b -> dget disk' b' = dget (k_disk s) b') ->
  (b_refcnt x = 0 -> b_data x = dget disk' b /\ sl_locked o = false) ->
  bstep d i b (b_data x) (b_refcnt x) o s s' /\ k_disk s' = disk' /\ k_writes s' = writes'.
Proof.
  intros Hinv W Hi HS Hl Hc (X1 & X2 & X3 & X4) Hold Hd H0.
  destruct (woke_eqs _ _ W) as (ES & EB & ED & EW & _). simpl in *.
  assert (HS' : forall sl, slock_at s' sl = if decide (sl = SLbuf i) then o else slock_at s sl).
  { intros sl. unfold slock_at at 1. rewrite ES. apply HS. }
  assert (Ho : slock_at s' (SLbuf i) = o) by (rewrite HS'; by rewrite decide_True).
  assert (HB : forall j, buf_at s' j = bat bufs' j) by (intros j; unfold buf_at; by rewrite EB).
  split; [|done]. split.
  - split; [|intros k; rewrite HS'; by rewrite decide_False]. by rewrite ES, EB, ED, EW.
  - rewrite <- Ho. apply replace_vstep; try done.
    + intros j Hj. rewrite HB. by apply Hc.
    + intros j Hj Hn. rewrite HS'. rewrite decide_False; [done|]. congruence.
    + intros b' Hb. rewrite ED. by apply Hd.
    + by rewrite EB.
    + intros Hz. rewrite ED. by apply H0.
    + rewrite Ho. intros Hh Hz. destruct (H0 Hz). congruence.
  - specialize (Hc i Hi). rewrite decide_True in Hc by done. rewrite <- HB in Hc.
    destruct (core_fields _ _ Hc) as (_ & E1 & E2 & _). split_and!; [done|congruence|congruence].
  - done.
Qed.

(** Reading the view of the block a buffer holds. *)
Lemma cached_view d s i b :
  bio_inv d s -> cached d s i b ->
  content d s b = b_data (buf_at s i) /\ refs d s b = b_refcnt (buf_at s i) /\
  held d s b = sl_locked (slock_at s (SLbuf i)).
Proof. intros Hi Hc. unfold content, refs, held. by rewrite (cached_vbuf d s b i). Qed.

Lemma upd_core i f bufs s j :
  (i < length bufs)%nat -> bufs = k_bufs s ->
  core (bat (upd i f bufs) j) = core (if decide (j = i) then f (buf_at s i) else buf_at s j).
Proof. intros Hi ->. rewrite bat_upd by done. by case_decide. Qed.

Lemma bio_len d s : bio_inv d s -> length (k_bufs s) = S NBUF.
Proof. intros Hi. destruct (bi_list d s Hi) as [l Hl]. apply Hl. Qed.

(** A critical section of [bcache.lock] around an update of the buffers. *)
Lemma bcache_release me pid s bufs' :
  ctx me pid s ->
  exists s', release LKbcache (set_bufs bufs' (acquired LKbcache s)) = Ret tt s' /\
             woke (set_bufs bufs' s) s'.
Proof.
  intros Hx. pose proof (cx_cpu _ _ _ Hx) as Hc.
  pose proof (cx_locks _ _ _ Hx LKbcache eq_refl) as Hf.
  eexists. split; [by apply (release_after _ s)|]. exact (woke_bufs _ _ _ (woke_norm s Hc)).
Qed.

Lemma bcache_acquire me pid s : ctx me pid s -> acquire LKbcache s = Ret tt (acquired LKbcache s).
Proof. intros Hx. apply acquire_run; [apply Hx|]. by apply (cx_locks _ _ _ Hx). Qed.

Section ops.
Context `{HD : DiskOk}.
Context (me : nat) (pid : Z) (d : Z) (s : kst).
Hypothesis Hctx : ctx me pid s.
Hypothesis Hinv : bio_inv d s.

Let Hlen : length (k_bufs s) = S NBUF := bio_len d s Hinv.

Lemma cached_lt i b : cached d s i b -> (i < length (k_bufs s))%nat.
Proof using Hlen. intros (H & _). rewrite Hlen. lia. Qed.

Lemma linked_keep i f : 
  (forall x, b_next (f x) = b_next x /\ b_prev (f x) = b_prev x) ->
  exists l, linked (upd i f (k_bufs s)) l.
Proof using Hinv.
  intros Hf. destruct (bi_list d s Hinv) as [l Hl]. exists l. by apply linked_upd.
Qed.

Lemma slock_same i sl :
  default (mksleep false 0) (k_slocks s !! sl) =
  if decide (sl = SLbuf i) then slock_at s (SLbuf i) else slock_at s sl.
Proof. case_decide as E; [by subst|done]. Qed.

Lemma slock_insert i (o : sleeplock) sl :
  default (mksleep false 0) (<[SLbuf i := o]> (k_slocks s) !! sl) =
  if decide (sl = SLbuf i) then o else slock_at s sl.
Proof. case_decide as E; [subst; by rewrite lookup_insert_eq|by rewrite lookup_insert_ne]. Qed.

Definition keeps_block (f : buf -> buf) : Prop := forall x,
  b_next (f x) = b_next x /\ b_prev (f x) = b_prev x /\ b_dev (f x) = b_dev x /\
  b_blockno (f x) = b_blockno x /\ b_valid (f x) = b_valid x.

(** An update of one buffer in use. *)
Lemma upd_bstep i b f s' :
  cached d s i b -> keeps_block f -> 0 < b_refcnt (f (buf_at s i)) ->
  woke (set_bufs (upd i f (k_bufs s)) s) s' ->
  bstep d i b (b_data (f (buf_at s i))) (b_refcnt (f (buf_at s i))) (slock_at s (SLbuf i)) s s' /\
  k_disk s' = k_disk s /\ k_writes s' = k_writes s.
Proof using Hinv Hlen.
  intros Hc Hf Hr W. pose proof (cached_lt i b Hc) as Hlt.
  destruct (Hf (buf_at s i)) as (F1 & F2 & F3 & F4 & F5).
  eapply (bstep_intro d s s' i b (f (buf_at s i)) _ (k_slocks s) (upd i f (k_bufs s))
           (k_disk s) (k_writes s) Hinv W); try done.
  - apply Hc.
  - apply slock_same.
  - apply linked_keep. intros x. destruct (Hf x) as (? & ? & _). done.
  - intros j _. by apply upd_core.
  - pose proof (bi_valid d s Hinv i). destruct Hc as (? & ? & ?).
    rewrite F3, F4, F5. split_and!; [done|done|auto|lia].
  - by left.
  - lia.
Qed.

Lemma bpin_run i b :
  cached d s i b -> refs d s b + 1 < 2 ^ 32 ->
  exists s', bpin i s = Ret tt s' /\
    bstep d i b (content d s b) (refs d s b + 1) (slock_at s (SLbuf i)) s s' /\
    k_disk s' = k_disk s /\ k_writes s' = k_writes s.
Proof using All.
  intros Hc Hr. destruct (cached_view d s i b Hinv Hc) as (E1 & E2 & _).
  unfold bpin. krun (bcache_acquire me pid s Hctx). unfold put_buf. rewrite kbind_modify.
  destruct (bcache_release me pid s
    (upd i (fun x => set_refcnt (u32 (b_refcnt x + 1)) x) (k_bufs s)) Hctx) as (s' & R & W).
  exists s'. split; [exact R|]. rewrite E1, E2 in *.
  pose proof (bi_ref d s Hinv i ltac:(apply Hc)) as H0.
  rewrite <- (u32_small (b_refcnt (buf_at s i) + 1)) by lia.
  apply (upd_bstep i b (fun x => set_refcnt (u32 (b_refcnt x + 1)) x)); try done.
  simpl. rewrite u32_small by lia. lia.
Qed.

Lemma bunpin_run i b :
  cached d s i b -> 1 < refs d s b < 2 ^ 32 ->
  exists s', bunpin i s = Ret tt s' /\
    bstep d i b (content d s b) (refs d s b - 1) (slock_at s (SLbuf i)) s s' /\
    k_disk s' = k_disk s /\ k_writes s' = k_writes s.
Proof using All.
  intros Hc Hr. destruct (cached_view d s i b Hinv Hc) as (E1 & E2 & _).
  unfold bunpin. krun (bcache_acquire me pid s Hctx). unfold put_buf. rewrite kbind_modify.
  destruct (bcache_release me pid s
    (upd i (fun x => set_refcnt (u32 (b_refcnt x - 1)) x) (k_bufs s)) Hctx) as (s' & R & W).
  exists s'. split; [exact R|]. rewrite E1, E2 in *.
  rewrite <- (u32_small (b_refcnt (buf_at s i) - 1)) by lia.
  apply (upd_bstep i b (fun x => set_refcnt (u32 (b_refcnt x - 1)) x)); try done.
  simpl. rewrite u32_small by lia. lia.
Qed.

(** The caller stores [v] into [b->data]. *)
Lemma set_data_run i b v :
  cached d s i b -> 0 < refs d s b ->
  exists s', put_buf i (set_data v) s = Ret tt s' /\
    bstep d i b v (refs d s b) (slock_at s (SLbuf i)) s s' /\
    k_disk s' = k_disk s /\ k_writes s' = k_writes s.
Proof using All.
  intros Hc Hr. destruct (cached_view d s i b Hinv Hc) as (E1 & E2 & _).
  eexists. split; [done|]. rewrite E2 in *.
  by apply (upd_bstep i b (set_data v)).
Qed.

Lemma woke_written i s1 : woke s s1 -> woke (disk_written i s) (disk_written i s1).
Proof.
  intros W. destruct (woke_eqs _ _ W) as (_ & EB & ED & EW & _).
  unfold disk_written, buf_at. rewrite EB, ED, EW. auto with krun.
Qed.

Lemma woke_read i s1 : woke s s1 -> woke (disk_read i s) (disk_read i s1).
Proof.
  intros W. destruct (woke_eqs _ _ W) as (_ & EB & ED & EW & _).
  unfold disk_read, buf_at. rewrite EB, ED. auto with krun.
Qed.

Lemma holdingsleep_owner i :
  (i < NBUF)%nat -> slock_at s (SLbuf i) = mksleep true pid ->
  exists s', holdingsleep (SLbuf i) s = Ret true s' /\ woke s s'.
Proof using Hctx.
  intros Hi Ho. destruct (holdingsleep_run me pid (SLbuf i) s Hctx) as (s1 & R & W).
  { by apply Nat.ltb_lt. }
  rewrite Ho in R. simpl in R. rewrite Z.eqb_refl in R. by exists s1.
Qed.

Lemma set_slocks_self t : set_slocks (k_slocks t) t = t.
Proof. reflexivity. Qed.

Lemma bwrite_run i b :
  cached d s i b -> slock_at s (SLbuf i) = mksleep true pid ->
  exists s', bwrite i s = Ret tt s' /\
    bstep d i b (content d s b) (refs d s b) (mksleep true pid) s s' /\
    k_disk s' = <[b := content d s b]> (k_disk s) /\
    k_writes s' = k_writes s ++ [(b, content d s b)].
Proof using All.
  intros Hc Ho. destruct (cached_view d s i b Hinv Hc) as (E1 & E2 & _).
  pose proof (cached_lt i b Hc) as Hlt.
  unfold bwrite. destruct (holdingsleep_owner i) as (s1 & R1 & W1); [apply Hc|done|].
  krun R1. simpl.
  destruct (disk_rw_write me pid i s1 (ctx_woke _ _ _ _ Hctx W1)) as (s2 & R2 & W2); [apply Hc|].
  exists s2. split; [exact R2|].
  pose proof (woke_trans _ _ _ (woke_written i s1 W1) W2) as W. unfold disk_written in W.
  replace (b_blockno (buf_at s i)) with b in W by (symmetry; apply Hc). rewrite <- E1 in W.
  rewrite E1 at 1. rewrite E2. rewrite <- Ho.
  rewrite <- (set_slocks_self (set_bufs _ _)) in W.
  apply (bstep_intro d s s2 i b (buf_at s i) _ _
           (upd i (set_bdisk false) (k_bufs s)) (<[b := content d s b]> (k_disk s))
           (k_writes s ++ [(b, content d s b)]) Hinv W).
  - apply Hc.
  - apply slock_same.
  - by apply linked_keep.
  - intros j _. rewrite bat_upd by done. case_decide; [subst; done|done].
  - pose proof (bi_valid d s Hinv i). pose proof (bi_ref d s Hinv i).
    destruct Hc as (? & ? & ?). split_and!; auto.
  - by left.
  - intros b' Hb. unfold dget. by rewrite lookup_insert_ne.
  - intros Hz. exfalso. apply (bi_lock d s Hinv i); [apply Hc|by rewrite Ho|done].
Qed.

Lemma brelse_front_run i B t :
  brelse_front i (set_bufs B t) = Ret tt (set_bufs (relink i B) t).
Proof. reflexivity. Qed.

(** The new list of buffers after [brelse(i)]. *)
Definition dropref (x : buf) : buf := set_refcnt (u32 (b_refcnt x - 1)) x.
Definition brelse_bufs (i : nat) (bufs : list buf) : list buf :=
  if b_refcnt (dropref (bat bufs i)) =? 0 then relink i (upd i dropref bufs)
  else upd i dropref bufs.

Lemma brelse_bufs_linked i bufs l :
  linked bufs l -> (i < NBUF)%nat -> exists l', linked (brelse_bufs i bufs) l'.
Proof.
  intros Hl Hi. assert (H : linked (upd i dropref bufs) l) by (by apply linked_upd).
  unfold brelse_bufs. destruct (_ =? 0); [|by exists l].
  apply (linked_lt _ _ _ H) in Hi. apply list_elem_of_split in Hi as (l1 & l2 & ->).
  eexists. by apply linked_relink.
Qed.

Lemma brelse_bufs_core i bufs l j :
  linked bufs l -> (i < NBUF)%nat ->
  core (bat (brelse_bufs i bufs) j) = core (if decide (j = i) then dropref (bat bufs i) else bat bufs j).
Proof.
  intros Hl Hi. assert (H : linked (upd i dropref bufs) l) by (by apply linked_upd).
  assert (Hlt : (i < length bufs)%nat) by (rewrite (ln_len _ _ Hl); lia).
  unfold brelse_bufs. destruct (_ =? 0); [rewrite (core_relink i _ l) by done|];
    rewrite bat_upd by done; by case_decide.
Qed.

(** [brelse] up to the final state, for a buffer the caller has locked. *)
Lemma brelse_woke i :
  (i < NBUF)%nat -> slock_at s (SLbuf i) = mksleep true pid ->
  exists s', brelse i s = Ret tt s' /\
    woke (set_slocks (<[SLbuf i := mksleep false 0]> (k_slocks s))
            (set_bufs (brelse_bufs i (k_bufs s)) s)) s'.
Proof using Hctx Hinv Hlen.
  intros Hi Ho. assert (Hlt : (i < length (k_bufs s))%nat) by (rewrite Hlen; lia).
  unfold brelse. destruct (holdingsleep_owner i) as (s1 & R1 & W1); [done|done|].
  krun R1. simpl. assert (X1 : ctx me pid s1) by eauto using ctx_woke.
  destruct (releasesleep_run me pid (SLbuf i) s1 X1) as (s2 & R2 & W2); [by apply Nat.ltb_lt|].
  krun R2. assert (X2 : ctx me pid s2) by eauto using ctx_woke, ctx_slocks.
  destruct (woke_eqs _ _ W1) as (F1 & F2 & _), (woke_eqs _ _ W2) as (G1 & G2 & _).
  simpl in G1, G2. rewrite F1 in W2. rewrite F2 in G2.
  krun (bcache_acquire me pid s2 X2). erewrite obind_Ret by apply put_buf_upd. rewrite kbind_gets.
  change (k_bufs (acquired LKbcache s2)) with (k_bufs s2). rewrite G2.
  change (buf_at (set_bufs ?B (acquired LKbcache s2)) i) with (bat B i).
  fold dropref. change (fun x => set_refcnt _ x) with dropref.
  rewrite bat_upd, decide_True by done.
  destruct (bcache_release me pid s2 (brelse_bufs i (k_bufs s)) X2) as (s3 & R3 & W3).
  exists s3. split.
  - rewrite <- R3. unfold brelse_bufs. destruct (_ =? 0); [|done].
    by erewrite obind_Ret by apply brelse_front_run.
  - etransitivity; [|exact W3].
    exact (woke_bufs _ _ _ (woke_trans _ _ _ (woke_slocks _ _ _ W1) W2)).
Qed.

Lemma brelse_run i b :
  cached d s i b -> slock_at s (SLbuf i) = mksleep true pid -> refs d s b < 2 ^ 32 ->
  (refs d s b = 1 -> content d s b = dget (k_disk s) b) ->
  exists s', brelse i s = Ret tt s' /\
    bstep d i b (content d s b) (refs d s b - 1) (mksleep false 0) s s' /\
    k_disk s' = k_disk s /\ k_writes s' = k_writes s.
Proof using All.
  intros Hc Ho Hr Hcl. destruct (cached_view d s i b Hinv Hc) as (E1 & E2 & _).
  assert (Hi : (i < NBUF)%nat) by apply Hc.
  assert (Hpos : 0 < b_refcnt (buf_at s i)).
  { pose proof (bi_ref d s Hinv i Hi). pose proof (bi_lock d s Hinv i Hi) as HL.
    rewrite Ho in HL. specialize (HL eq_refl). lia. }
  destruct (brelse_woke i Hi Ho) as (s' & R & W). exists s'. split; [exact R|].
  rewrite E1, E2 in *. destruct (bi_list d s Hinv) as [l Hl].
  assert (Hu : b_refcnt (dropref (buf_at s i)) = b_refcnt (buf_at s i) - 1).
  { simpl. apply u32_small. lia. }
  rewrite <- Hu.
  apply (bstep_intro d s s' i b (dropref (buf_at s i)) _ _ _ (k_disk s) (k_writes s) Hinv W).
  - done.
  - apply slock_insert.
  - by eapply brelse_bufs_linked.
  - intros j _. by eapply brelse_bufs_core.
  - pose proof (bi_valid d s Hinv i). destruct Hc as (? & ? & ?).
    split_and!; [done|done|auto|]. rewrite Hu. lia.
  - by left.
  - done.
  - rewrite Hu. intros Hz. split; [|done]. apply Hcl. lia.
Qed.

(** ** [bget] *)

(** Both scans, for the list order [l]. *)
Definition is_block (b : Z) (x : buf) : bool := (b_dev x =? d) && (b_blockno x =? b).

Lemma is_block_cached b i : (i < NBUF)%nat -> is_block b (buf_at s i) = true <-> cached d s i b.
Proof using Type.
  clear Hlen.
  intros Hi. unfold is_block, cached. rewrite andb_true_iff, !Z.eqb_eq. tauto.
Qed.

Lemma scan_next test t l : linked (k_bufs t) l ->
  bscan (S NBUF) b_next test (b_next (buf_at t head)) t =
  Ret (List.find (fun i => test (buf_at t i)) l) t.
Proof using Type.
  clear Hlen.
  intros Hl. apply bscan_run; [apply Hl| |].
  - apply linked_nodup, NoDup_cons in Hl. tauto.
  - rewrite (ln_perm _ _ Hl), length_seq. lia.
Qed.

Lemma scan_prev test t l : linked (k_bufs t) l ->
  bscan (S NBUF) b_prev test (b_prev (buf_at t head)) t =
  Ret (List.find (fun i => test (buf_at t i)) (reverse l)) t.
Proof using Type.
  clear Hlen.
  intros Hl. apply bscan_run; [apply Hl| |].
  - apply linked_nodup, NoDup_cons in Hl. rewrite elem_of_reverse. tauto.
  - rewrite length_reverse, (ln_perm _ _ Hl), length_seq. lia.
Qed.

Lemma find_hit b i l : linked (k_bufs s) l -> cached d s i b ->
  List.find (fun i => is_block b (buf_at s i)) l = Some i.
Proof using Hinv.
  intros Hl Hc. destruct (List.find _ l) as [j|] eqn:E.
  - apply List.find_some in E as [E1 E2]. apply list_elem_of_In in E1.
    apply (linked_lt _ _ _ Hl) in E1. apply is_block_cached in E2; [|done].
    f_equal. by apply (bi_uniq d s Hinv j i b).
  - assert (Hi : (i < NBUF)%nat) by apply Hc.
    eapply (List.find_none _ _) with (x := i) in E.
    + apply is_block_cached in Hc; [|done]. congruence.
    + by apply list_elem_of_In, (linked_lt _ _ _ Hl).
Qed.

Lemma find_miss b l : linked (k_bufs s) l -> (forall i, ~ cached d s i b) ->
  List.find (fun i => is_block b (buf_at s i)) l = None.
Proof using Type.
  clear Hlen.
  intros Hl Hc. destruct (List.find _ l) as [j|] eqn:E; [|done].
  apply List.find_some in E as [E1 E2]. apply list_elem_of_In in E1.
  apply (linked_lt _ _ _ Hl) in E1. apply is_block_cached in E2; [|done]. by apply Hc in E2.
Qed.

(** The least recently used buffer nobody references. *)
Lemma find_free l : linked (k_bufs s) l -> (busy s < NBUF)%nat ->
  exists i, List.find (fun i => b_refcnt (buf_at s i) =? 0) (reverse l) = Some i /\
    (i < NBUF)%nat /\ b_refcnt (buf_at s i) = 0.
Proof using Type.
  clear Hlen.
  intros Hl Hb. destruct (List.find _ (reverse l)) as [i|] eqn:E.
  - exists i. apply List.find_some in E as [E1 E2]. apply list_elem_of_In in E1.
    rewrite elem_of_reverse in E1. apply (linked_lt _ _ _ Hl) in E1. apply Z.eqb_eq in E2. done.
  - exfalso. unfold busy in Hb.
    rewrite filter_all in Hb; [rewrite length_seq in Hb; lia|].
    apply Forall_forall. intros i Hi%elem_of_seq Hz.
    apply (List.find_none _ _) with (x := i) in E.
    + by rewrite Hz in E.
    + apply list_elem_of_In. rewrite elem_of_reverse. apply (linked_lt _ _ _ Hl). lia.
Qed.

Definition takeref (x : buf) : buf := set_refcnt (u32 (b_refcnt x + 1)) x.
Definition recycle (b : Z) (x : buf) : buf :=
  mkbuf false (b_disk x) d b 1 (b_prev x) (b_next x) (b_data x).

(** The end of both paths of [bget]. *)
Lemma bget_finish i B :
  (i < NBUF)%nat -> sl_locked (slock_at s (SLbuf i)) = false ->
  exists s', (do! release LKbcache; do! acquiresleep (SLbuf i); kret i)
               (set_bufs B (acquired LKbcache s)) = Ret i s' /\
    woke (set_slocks (<[SLbuf i := mksleep true pid]> (k_slocks s)) (set_bufs B s)) s'.
Proof using Hctx.
  intros Hi Hu. destruct (bcache_release me pid s B Hctx) as (s1 & R1 & W1). krun R1.
  destruct (woke_eqs _ _ W1) as (F1 & _).
  destruct (acquiresleep_run me pid (SLbuf i) s1) as (s2 & R2 & W2).
  - eapply ctx_woke; [|exact W1]. auto with krun.
  - by apply Nat.ltb_lt.
  - unfold slock_at in *. by rewrite F1.
  - krun R2. exists s2. split; [done|]. etransitivity; [|exact W2]. rewrite F1.
    exact (woke_slocks _ _ _ W1).
Qed.

Lemma bget_hit i b :
  cached d s i b -> sl_locked (slock_at s (SLbuf i)) = false ->
  exists s', bget d b s = Ret i s' /\
    woke (set_slocks (<[SLbuf i := mksleep true pid]> (k_slocks s))
            (set_bufs (upd i takeref (k_bufs s)) s)) s'.
Proof using Hctx Hinv.
  intros Hc Hu. destruct (bi_list d s Hinv) as [l Hl].
  unfold bget. krun (bcache_acquire me pid s Hctx). rewrite kbind_gets.
  erewrite obind_Ret by (by apply (scan_next _ (acquired LKbcache s) l)).
  change (List.find _ l) with (List.find (fun i => is_block b (buf_at s i)) l).
  rewrite (find_hit b i l) by done. erewrite obind_Ret by apply put_buf_upd.
  apply bget_finish; [apply Hc|done].
Qed.

Lemma bget_miss b l :
  linked (k_bufs s) l -> (forall i, ~ cached d s i b) -> (busy s < NBUF)%nat ->
  exists i s', bget d b s = Ret i s' /\
    List.find (fun i => b_refcnt (buf_at s i) =? 0) (reverse l) = Some i /\
    (i < NBUF)%nat /\ b_refcnt (buf_at s i) = 0 /\
    woke (set_slocks (<[SLbuf i := mksleep true pid]> (k_slocks s))
            (set_bufs (upd i (recycle b) (k_bufs s)) s)) s'.
Proof using Hctx Hinv Hlen.
  intros Hl Hc Hb. destruct (find_free l Hl Hb) as (i & Hf & Hi & Hz). exists i.
  assert (Hlt : (i < length (k_bufs s))%nat) by (rewrite Hlen; lia).
  unfold bget. krun (bcache_acquire me pid s Hctx). rewrite kbind_gets.
  erewrite obind_Ret by (by apply (scan_next _ (acquired LKbcache s) l)).
  change (List.find _ l) with (List.find (fun i => is_block b (buf_at s i)) l).
  rewrite (find_miss b l) by done. rewrite kbind_gets.
  erewrite obind_Ret by (by apply (scan_prev _ (acquired LKbcache s) l)).
  change (List.find _ (reverse l)) with (List.find (fun i => b_refcnt (buf_at s i) =? 0) (reverse l)).
  rewrite Hf. do 4 (erewrite obind_Ret by apply put_buf_upd).
  assert (E : upd i (set_refcnt 1) (upd i (set_valid false) (upd i (set_blockno b)
                (upd i (set_bdev d) (k_bufs s)))) = upd i (recycle b) (k_bufs s)).
  { apply list_eq. intros j. unfold upd, bat.
    destruct (decide (i = j)) as [->|]; [|by rewrite !list_lookup_insert_ne].
    rewrite !list_lookup_insert_eq by (rewrite ?length_insert; done). done. }
  destruct (bget_finish i (upd i (recycle b) (k_bufs s)) Hi) as (s' & R & W).
  { destruct (sl_locked _) eqn:El; [|done]. by apply (bi_lock d s Hinv) in El. }
  exists s'. split_and!; try done. rewrite <- R, <- E. reflexivity.
Qed.

(** ** [bread] *)

Lemma bread_hit i b :
  cached d s i b -> sl_locked (slock_at s (SLbuf i)) = false ->
  exists s', bread d b s = Ret i s' /\
    woke (set_slocks (<[SLbuf i := mksleep true pid]> (k_slocks s))
            (set_bufs (upd i takeref (k_bufs s)) s)) s'.
Proof using Hctx Hinv Hlen.
  intros Hc Hu. pose proof (cached_lt i b Hc) as Hlt. destruct (bget_hit i b Hc Hu) as (s1 & R1 & W1).
  exists s1. split; [|done]. unfold bread. krun R1. rewrite kbind_gets.
  destruct (woke_eqs _ _ W1) as (_ & F & _). unfold buf_at. rewrite F.
  change (default buf0 (k_bufs (set_slocks ?a (set_bufs ?B s)) !! i)) with (bat B i).
  rewrite bat_upd, decide_True by done. simpl.
  pose proof (bi_valid d s Hinv i) as V. destruct Hc as (H1 & H2 & _).
  change (bat (k_bufs s) i) with (buf_at s i). by rewrite V.
Qed.

(** What a freshly read buffer looks like. *)
Definition filled (b : Z) (x : buf) : buf :=
  mkbuf true false d b 1 (b_prev x) (b_next x) (dget (k_disk s) b).

Lemma bread_miss b l :
  linked (k_bufs s) l -> (forall i, ~ cached d s i b) -> (busy s < NBUF)%nat ->
  exists i s', bread d b s = Ret i s' /\
    List.find (fun i => b_refcnt (buf_at s i) =? 0) (reverse l) = Some i /\
    (i < NBUF)%nat /\ b_refcnt (buf_at s i) = 0 /\
    woke (set_slocks (<[SLbuf i := mksleep true pid]> (k_slocks s))
            (set_bufs (upd i (filled b) (k_bufs s)) s)) s'.
Proof using All.
  intros Hl Hc Hb. destruct (bget_miss b l Hl Hc Hb) as (i & s1 & R1 & Hf & Hi & Hz & W1).
  assert (Hlt : (i < length (k_bufs s))%nat) by (rewrite Hlen; lia).
  destruct (woke_eqs _ _ W1) as (F1 & F2 & F3 & _). simpl in F1, F2, F3.
  assert (Eb : buf_at s1 i = recycle b (buf_at s i)).
  { unfold buf_at at 1. rewrite F2. change (default buf0 (?B !! i)) with (bat B i).
    rewrite bat_upd, decide_True by done. done. }
  exists i. unfold bread. krun R1. rewrite kbind_gets, Eb. simpl.
  assert (X1 : ctx me pid s1) by (eapply ctx_woke; [|exact W1]; auto with krun).
  destruct (disk_rw_read me pid i s1 X1 Hi) as (s2 & R2 & W2).
  destruct (woke_eqs _ _ W2) as (_ & G2 & _). unfold disk_read in G2. simpl in G2.
  rewrite Eb, F2, F3 in G2. simpl in G2.
  eexists. split.
  { unfold kbind at 1. krun R2. reflexivity. }
  split_and!; try done. unfold modify. rewrite G2.
  pose proof (woke_bufs (upd i (filled b) (k_bufs s)) _ _ W1) as V1.
  pose proof (woke_bufs (upd i (filled b) (k_bufs s)) _ _ W2) as V2.
  replace (<[i := set_valid true (buf_at s2 i)]> (<[i := _]> (upd i (recycle b) (k_bufs s))))
    with (upd i (filled b) (k_bufs s)).
  - exact (woke_trans _ _ _ V1 V2).
  - unfold buf_at. rewrite G2. unfold upd.
    rewrite list_lookup_insert_eq by (by rewrite length_insert).
    rewrite !list_insert_insert_eq. done.
Qed.

Lemma bread_run b :
  held d s b = false -> 0 < refs d s b \/ (busy s < NBUF)%nat -> refs d s b + 1 < 2 ^ 32 ->
  exists i s', bread d b s = Ret i s' /\
    bstep d i b (content d s b) (refs d s b + 1) (mksleep true pid) s s' /\
    k_disk s' = k_disk s /\ k_writes s' = k_writes s.
Proof using All.
  intros Hh Hb Hr. destruct (vbuf_dec d s b Hinv) as [(i & Hc & Hv)|[Hc Hv]].
  - destruct (cached_view d s i b Hinv Hc) as (E1 & E2 & E3). rewrite E3 in Hh.
    destruct (bread_hit i b Hc Hh) as (s' & R & W). exists i, s'. split; [exact R|].
    pose proof (bi_ref d s Hinv i ltac:(apply Hc)) as H0. rewrite E1, E2 in *.
    rewrite <- (u32_small (b_refcnt (buf_at s i) + 1)) by lia. pose proof (cached_lt i b Hc) as Hlt.
    apply (bstep_intro d s s' i b (takeref (buf_at s i)) _ _ _ (k_disk s) (k_writes s) Hinv W).
    + apply Hc.
    + apply slock_insert.
    + by apply linked_keep.
    + intros j _. by apply upd_core.
    + pose proof (bi_valid d s Hinv i). destruct Hc as (? & ? & ?). simpl.
      rewrite u32_small by lia. split_and!; [done|done|auto|lia].
    + by left.
    + done.
    + simpl. rewrite u32_small; lia.
  - unfold refs, content in *. rewrite Hv in *. destruct Hb as [Hb|Hb]; [lia|].
    destruct (bi_list d s Hinv) as [l Hl].
    destruct (bread_miss b l Hl Hc Hb) as (i & s' & R & _ & Hi & Hz & W).
    assert (Hlt : (i < length (k_bufs s))%nat) by (rewrite Hlen; lia).
    exists i, s'. split; [exact R|].
    apply (bstep_intro d s s' i b (filled b (buf_at s i)) _ _ _ (k_disk s) (k_writes s) Hinv W).
    + done.
    + apply slock_insert.
    + by apply linked_keep.
    + intros j _. by apply upd_core.
    + done.
    + right. by split.
    + done.
    + done.
Qed.
End ops.

(** Views after one step, at the block it touched. *)
Lemma bstep_here d i b c r o s s' : bstep d i b c r o s s' ->
  content d s' b = c /\ refs d s' b = r /\ b_data (buf_at s' i) = c.
Proof.
  intros [_ V Hc _]. assert (E : content d s' b = c).
  { rewrite (vs_content V). by rewrite decide_True. }
  split_and!; [done| |].
  - rewrite (vs_refs V). by rewrite decide_True.
  - destruct (cached_view d s' i b (vs_inv V) Hc) as (E' & _). congruence.
Qed.

Arguments bstep_here {d i b c r o s s'}.

(** ** Clients of the cache *)

(** A client's access to one block. *)
Inductive bop : Type := BRead (b : Z) | BWrite (b : Z) (v : block).

Section client.
Context `{HD : DiskOk}.
Context (me : nat) (pid : Z) (d : Z).

Definition run_bop (o : bop) : K block :=
  match o with
  | BRead b =>
    let! i := bread d b in
    let! v := gets (fun s => b_data (buf_at s i)) in
    do! brelse i;
    kret v
  | BWrite b v =>
    let! i := bread d b in
    do! put_buf i (set_data v);
    do! bwrite i;
    do! brelse i;
    kret v
  end.

Fixpoint run_bops (l : list bop) : K (list block) :=
  match l with
  | [] => kret []
  | o :: l =>
    let! v := run_bop o in
    let! vs := run_bops l in
    kret (v :: vs)
  end.

(** The same accesses on a plain array of blocks. *)
Definition spec_bop (f : Z -> block) (o : bop) : block * (Z -> block) :=
  match o with
  | BRead b => (f b, f)
  | BWrite b v => (v, <[b := v]> f)
  end.

Fixpoint spec_bops (f : Z -> block) (l : list bop) : list block * (Z -> block) :=
  match l with
  | [] => ([], f)
  | o :: l => let (v, f) := spec_bop f o in let (vs, f) := spec_bops f l in (v :: vs, f)
  end.

(** Nobody uses a buffer. *)
Record idle (s : kst) : Prop := {
  id_ctx : ctx me pid s;
  id_inv : bio_inv d s;
  id_refs b : refs d s b = 0;
  id_held b : held d s b = false;
  id_busy : busy s = 0%nat
}.

Lemma idle_clean s b : idle s -> content d s b = dget (k_disk s) b.
Proof.
  intros [_ Hinv Hr _ _]. specialize (Hr b). unfold content, refs in *.
  destruct (vbuf d s b) as [i|] eqn:E; [|done]. apply vbuf_cached in E as (E1 & E2 & E3).
  by rewrite (bi_clean d s Hinv i), E3.
Qed.

(** A block taken and given back. *)
Lemma idle_release s s' i b v : idle s -> bstep d i b v 0 (mksleep false 0) s s' -> idle s'.
Proof.
  intros [X I R H B] [Q V _ _]. split.
  - eauto with krun.
  - apply V.
  - intros b'. rewrite (vs_refs V). by case_decide.
  - intros b'. rewrite (vs_held V). by case_decide.
  - pose proof (vs_busy V) as B1. rewrite R, B in B1. unfold nz in B1. simpl in B1. lia.
Qed.

Lemma idle_bread s b : idle s ->
  exists i s', bread d b s = Ret i s' /\
    bstep d i b (content d s b) 1 (mksleep true pid) s s' /\
    k_disk s' = k_disk s /\ k_writes s' = k_writes s.
Proof using HD.
  intros [X I R H B]. destruct (bread_run me pid d s X I b) as (i & s' & E & S1 & S2).
  - done.
  - right. rewrite B. unfold NBUF, MAXOPBLOCKS. lia.
  - rewrite R. lia.
  - rewrite R in S1. by exists i, s'.
Qed.

Lemma run_bop_spec o s f : idle s -> (forall b, content d s b = f b) ->
  exists s', run_bop o s = Ret (fst (spec_bop f o)) s' /\ idle s' /\
    (forall b, content d s' b = snd (spec_bop f o) b).
Proof using HD.
  intros Hid Hf. pose proof (idle_clean s) as Hcl. destruct o as [b|b v]; unfold run_bop.
  - destruct (idle_bread s b Hid) as (i & s1 & R1 & S1 & D1 & _). krun R1. rewrite kbind_gets.
    destruct (bstep_here S1) as (E1 & E2 & E3). rewrite E3.
    destruct (brelse_run me pid d s1 (ctx_quiet (id_ctx s Hid) (bs_quiet S1))
      (vs_inv (bs_view S1)) i b) as (s2 & R2 & S2 & _).
    + exact (bs_cached S1).
    + exact (bs_slock S1).
    + rewrite E2. lia.
    + intros _. rewrite E1, D1. by apply Hcl.
    + krun R2. exists s2. rewrite E1, E2 in S2.
      pose proof (bstep_trans S1 S2 ltac:(lia)) as S.
      split_and!; [by rewrite Hf|by eapply idle_release|].
      intros b'. rewrite (vs_content (bs_view S)).
      case_decide; [subst|]; apply Hf.
  - destruct (idle_bread s b Hid) as (i & s1 & R1 & S1 & D1 & _). krun R1.
    destruct (bstep_here S1) as (E1 & E2 & E3).
    pose proof (ctx_quiet (id_ctx s Hid) (bs_quiet S1)) as X1.
    destruct (set_data_run me pid d s1 X1 (vs_inv (bs_view S1)) i b v)
      as (s2 & R2 & S2 & D2 & _); [exact (bs_cached S1)|lia|]. krun R2.
    rewrite E2, (bs_slock S1) in S2.
    pose proof (bstep_trans S1 S2 ltac:(lia)) as S12.
    pose proof (ctx_quiet X1 (bs_quiet S2)) as X2.
    destruct (bstep_here S2) as (F1 & F2 & F3).
    destruct (bwrite_run me pid d s2 X2 (vs_inv (bs_view S2)) i b)
      as (s3 & R3 & S3 & D3 & _); [exact (bs_cached S2)|exact (bs_slock S2)|]. krun R3.
    rewrite F1, F2 in S3. rewrite F1 in D3.
    pose proof (bstep_trans S12 S3 ltac:(lia)) as S13.
    pose proof (ctx_quiet X2 (bs_quiet S3)) as X3.
    destruct (bstep_here S3) as (G1 & G2 & G3).
    destruct (brelse_run me pid d s3 X3 (vs_inv (bs_view S3)) i b)
      as (s4 & R4 & S4 & _); [exact (bs_cached S3)|exact (bs_slock S3)|lia| |].
    { intros _. rewrite G1, D3. unfold dget. by rewrite lookup_insert_eq. }
    krun R4. exists s4. rewrite G1, G2 in S4.
    pose proof (bstep_trans S13 S4 ltac:(lia)) as S.
    split_and!; [done|by eapply idle_release|].
    intros b'. rewrite (vs_content (bs_view S)). simpl.
    case_decide; [subst; by rewrite fn_lookup_insert|]. by rewrite fn_lookup_insert_ne.
Qed.

(** C14: the cache is transparent: any sequence of block reads and writes,
    however many blocks it touches and buffers it recycles, returns what a
    plain array of blocks returns; nothing panics or blocks, and at the end the
    disk itself holds that array. *)
Theorem cache_transparent l s :
  idle s ->
  exists s', run_bops l s = Ret (fst (spec_bops (content d s) l)) s' /\ idle s' /\
    (forall b, dget (k_disk s') b = snd (spec_bops (content d s) l) b).
Proof using HD.
  intros Hid.
  enough (G : forall f, (forall b, content d s b = f b) ->
    exists s', run_bops l s = Ret (fst (spec_bops f l)) s' /\ idle s' /\
      (forall b, content d s' b = snd (spec_bops f l) b)).
  { destruct (G _ (fun b => eq_refl)) as (s' & R & I & C). exists s'. split_and!; [done|done|].
    intros b. rewrite <- C. symmetry. by apply idle_clean. }
  revert s Hid. induction l as [|o l IH]; intros s Hid f Hf; [by exists s|]. cbn [run_bops spec_bops].
  destruct (run_bop_spec o s f Hid Hf) as (s1 & R1 & I1 & C1). krun R1.
  destruct (spec_bop f o) as [v f1]. simpl in *.
  destruct (IH s1 I1 f1 C1) as (s2 & R2 & I2 & C2). krun R2.
  destruct (spec_bops f1 l) as [vs f2]. by exists s2.
Qed.
End client.

(** ** [binit] *)

Definition binit_step (b : nat) (s : kst) : kst :=
  set_bufs (pushed_front b (k_bufs s))
    (set_slocks (<[SLbuf b := mksleep false 0]> (k_slocks s))
       (set_locks (<[LKsleep (SLbuf b) := lock_free]> (k_locks s)) s)).

Lemma binit_visit_run b s :
  length (k_bufs s) = S NBUF -> (b < NBUF)%nat -> binit_visit b s = Ret tt (binit_step b s).
Proof.
  intros Hl Hb. unfold binit_visit, binit_step, initsleeplock, initlock, put_lock, put_slock.
  rewrite kbind_gets. do 2 (erewrite obind_Ret by apply put_buf_upd).
  unfold kbind at 1. rewrite kbind_modify. unfold modify at 1. cbn [obind]. rewrite kbind_gets.
  erewrite obind_Ret by apply put_buf_upd. rewrite put_buf_upd. unfold pushed_front.
  change (b_next (buf_at ?t head)) with (nexts (k_bufs t) head). simpl.
  rewrite !nexts_set_prev, nexts_set_next, fn_lookup_insert_ne;
    rewrite ?length_upd, ?Hl; unfold head; try lia. reflexivity.
Qed.

(** Every list operation keeps the buffers themselves. *)
Lemma pushed_front_core b bufs j :
  length bufs = S NBUF -> (b < NBUF)%nat -> (nexts bufs head < S NBUF)%nat ->
  core (bat (pushed_front b bufs) j) = core (bat bufs j).
Proof.
  intros Hl Hb Hq. unfold pushed_front.
  rewrite !core_upd; rewrite ?length_upd, ?Hl; unfold head; done || lia.
Qed.

Record binit_inv (n : nat) (s0 s : kst) : Prop := {
  bn_len : length (k_bufs s) = S NBUF;
  bn_next : chain (nexts (k_bufs s)) head (reverse (seq 0 n)) head;
  bn_prev : chain (prevs (k_bufs s)) head (seq 0 n) head;
  bn_core j : core (buf_at s j) = core (buf_at s0 j);
  bn_lock i : (i < n)%nat -> is_free (LKsleep (SLbuf i)) s /\
                             slock_at s (SLbuf i) = mksleep false 0;
  bn_lock0 lk : is_free lk s0 -> is_free lk s;
  bn_rest : s = set_bufs (k_bufs s) (set_slocks (k_slocks s) (set_locks (k_locks s) s0))
}.

Lemma binit_inv_step n s0 s :
  (n < NBUF)%nat -> binit_inv n s0 s -> binit_inv (S n) s0 (binit_step n s).
Proof.
  intros Hn [L N P C K K0 R]. 
  assert (Hin : forall x, x ∈ head :: n :: reverse (seq 0 n) -> (x < length (k_bufs s))%nat).
  { intros x. rewrite L, !elem_of_cons, elem_of_reverse, elem_of_seq. unfold head. lia. }
  destruct (push_links (k_bufs s) (reverse (seq 0 n)) n Hin) as [HN HP].
  { rewrite !NoDup_cons, not_elem_of_cons, !elem_of_reverse, !elem_of_seq, reverse_Permutation.
    unfold head. split_and!; [lia|lia|lia|apply NoDup_seq]. }
  { done. }
  { by rewrite reverse_involutive. }
  rewrite reverse_cons, reverse_involutive in HP.
  assert (Hs : seq 0 (S n) = seq 0 n ++ [n]) by apply seq_S.
  split.
  - unfold binit_step, pushed_front. simpl. by rewrite !length_upd.
  - rewrite Hs, reverse_snoc. exact HN.
  - rewrite Hs. exact HP.
  - intros j. rewrite <- C. apply pushed_front_core; [done|done|].
    rewrite (chain_hd _ _ _ _ N), <- L. apply Hin.
    pose proof (hd_elem head (reverse (seq 0 n))) as E. rewrite !elem_of_cons in *. tauto.
  - intros i Hi. unfold is_free, slock_at, binit_step. simpl.
    destruct (decide (i = n)) as [->|Hne].
    + rewrite !lookup_insert_eq. done.
    + rewrite !lookup_insert_ne by congruence. apply K. lia.
  - intros lk Hlk. unfold is_free, binit_step. simpl.
    destruct (decide (lk = LKsleep (SLbuf n))) as [->|Hne];
      [by rewrite lookup_insert_eq|]. rewrite lookup_insert_ne by done. by apply K0.
  - rewrite R. reflexivity.
Qed.

Lemma binit_loop m n s0 s :
  (n + m = NBUF)%nat -> binit_inv n s0 s ->
  exists s', kfor (seq n m) binit_visit s = Ret tt s' /\ binit_inv NBUF s0 s'.
Proof.
  revert n s. induction m as [|m IH]; intros n s Hm Hi.
  - exists s. split; [done|]. by replace NBUF with n by lia.
  - cbn [seq kfor]. krun (binit_visit_run n s (bn_len _ _ _ Hi) ltac:(lia)).
    apply IH; [lia|]. apply binit_inv_step; [lia|done].
Qed.

Lemma k_bufs_locks L s : k_bufs (set_locks L s) = k_bufs s.
Proof. reflexivity. Qed.

Lemma binit_run s :
  length (k_bufs s) = S NBUF ->
  exists s', binit s = Ret tt s' /\
    binit_inv NBUF (set_locks (<[LKbcache := lock_free]> (k_locks s)) s) s'.
Proof.
  intros Hl. unfold binit, initlock, put_lock. rewrite kbind_modify.
  do 2 (erewrite obind_Ret by apply put_buf_upd).
  pose (s0 := set_locks (<[LKbcache := lock_free]> (k_locks s)) s).
  pose (s1 := set_bufs (upd head (set_next head) (upd head (set_prev head) (k_bufs s))) s0).
  assert (I : binit_inv 0 s0 s1).
  { unfold s1. split.
    - simpl. by rewrite !length_upd.
    - simpl. rewrite nexts_set_next, fn_lookup_insert; [done|]. rewrite length_upd, Hl. unfold head. lia.
    - simpl. rewrite prevs_set_next, prevs_set_prev, fn_lookup_insert; [done|..];
        rewrite ?length_upd, Hl; unfold head; lia.
    - intros j. etransitivity; [apply core_upd; [done|]|apply core_upd; [done|]];
        rewrite ?length_upd, Hl; unfold head; lia.
    - lia.
    - done.
    - reflexivity. }
  exact (binit_loop NBUF 0 s0 s1 eq_refl I).
Qed.

Lemma binit_inv_linked s0 s : binit_inv NBUF s0 s -> linked (k_bufs s) (reverse (seq 0 NBUF)).
Proof.
  intros []. split; [done|by rewrite reverse_Permutation|done|by rewrite reverse_involutive].
Qed.

(** A zeroed cache, after [binit]. *)
Lemma binit_bio_inv d bufs s0 s :
  d <> 0 -> (forall i, core (bat bufs i) = core buf0) -> k_bufs s0 = bufs -> binit_inv NBUF s0 s ->
  bio_inv d s /\ busy s = 0%nat /\ forall i, b_dev (buf_at s i) <> d.
Proof.
  intros Hd Hz <- I. destruct I as [L N P C K K0 R] eqn:E. clear E.
  assert (Hb : forall i, b_dev (buf_at s i) = 0 /\ b_refcnt (buf_at s i) = 0).
  { intros i. destruct (core_fields _ _ (eq_trans (C i) (Hz i))) as (_ & E1 & _ & E2 & _).
    split; [exact E1|exact E2]. }
  split_and!.
  - split.
    + eexists. by eapply binit_inv_linked.
    + intros i _. destruct (Hb i). lia.
    + intros i _. destruct (Hb i). congruence.
    + intros i _. destruct (Hb i). congruence.
    + intros i j b (_ & E & _). destruct (Hb i). congruence.
    + intros i _. destruct (Hb i). congruence.
    + intros i Hi. by destruct (K i Hi) as [_ ->].
  - unfold busy. replace (filter _ _) with (@nil nat); [done|].
    symmetry. apply filter_none, Forall_forall. intros i _. destruct (Hb i). congruence.
  - intros i. destruct (Hb i). congruence.
Qed.

(** [binit] by a thread in its context leaves an idle cache. *)
Lemma binit_idle me pid d s :
  d <> 0 -> ctx me pid s -> length (k_bufs s) = S NBUF ->
  (forall i, core (buf_at s i) = core buf0) ->
  exists s', binit s = Ret tt s' /\ idle me pid d s' /\ k_disk s' = k_disk s.
Proof.
  intros Hd Hx Hl Hz. destruct (binit_run s Hl) as (s' & R & I). exists s'. split; [exact R|].
  destruct (binit_bio_inv d _ _ s' Hd Hz (k_bufs_locks _ s) I) as (H1 & H2 & H3).
  assert (V : forall b, vbuf d s' b = None).
  { intros b. apply not_cached_vbuf. intros i (_ & E & _). by apply (H3 i). }
  destruct I as [_ _ _ _ _ K0 Er]. split; [|rewrite Er; done]. split.
  - destruct Hx as [Hc Hp Hm Hr Hpid Hlk]. rewrite Er. split; [exact Hc|exact Hp|exact Hm|exact Hr|exact Hpid|].
    intros lk Hk. change (is_free lk s'). apply K0. unfold is_free. simpl.
    destruct (decide (lk = LKbcache)) as [->|]; [by rewrite lookup_insert_eq|].
    rewrite lookup_insert_ne by done. by apply Hlk.
  - done.
  - intros b. unfold refs. by rewrite V.
  - intros b. unfold held. by rewrite V.
  - done.
Qed.

(** [binit] makes a well-formed circular list of all buffers with every
    lock free, and the zeroed cache satisfies the cache's invariant for every
    device but 0. *)
Theorem binit_spec s :
  length (k_bufs s) = S NBUF ->
  exists s', binit s = Ret tt s' /\ linked (k_bufs s') (reverse (seq 0 NBUF)) /\
    is_free LKbcache s' /\
    (forall i, (i < NBUF)%nat -> is_free (LKsleep (SLbuf i)) s' /\
                                 slock_at s' (SLbuf i) = mksleep false 0) /\
    (forall d, d <> 0 -> (forall i, core (buf_at s i) = core buf0) -> bio_inv d s' /\ busy s' = 0%nat).
Proof.
  intros Hl. destruct (binit_run s Hl) as (s' & R & I). exists s'. split_and!.
  - exact R.
  - by eapply binit_inv_linked.
  - apply (bn_lock0 _ _ _ I). unfold is_free. simpl. by rewrite lookup_insert_eq.
  - apply I.
  - intros d Hd Hz. destruct (binit_bio_inv d _ _ s' Hd Hz (k_bufs_locks _ s) I) as (H1 & H2 & _). split; [exact H1|exact H2].
Qed.

(** ** Recycling *)

Section recycling.
Context `{HD : DiskOk}.

(** A block that is not cached takes over the least recently used buffer
    that nobody references (the last such buffer in list order), which is
    returned locked, with the block's contents from the disk; when every
    buffer is referenced the call panics. *)
Theorem bread_recycles_lru me pid d b l s :
  ctx me pid s -> bio_inv d s -> linked (k_bufs s) l -> (forall i, ~ cached d s i b) ->
  match List.find (fun i => b_refcnt (buf_at s i) =? 0) (reverse l) with
  | Some i =>
    exists s', bread d b s = Ret i s' /\ cached d s' i b /\
      b_data (buf_at s' i) = dget (k_disk s) b /\ b_refcnt (buf_at s' i) = 1 /\
      slock_at s' (SLbuf i) = mksleep true pid
  | None => exists s', bread d b s = Panic "bget: no buffers" s'
  end.
Proof using HD.
  intros Hx Hi Hl Hc. destruct (List.find _ (reverse l)) as [i|] eqn:Hf.
  - assert (Hfi : (i < NBUF)%nat /\ b_refcnt (buf_at s i) = 0).
    { apply List.find_some in Hf as [E1 E2]. apply list_elem_of_In in E1.
      rewrite elem_of_reverse in E1. apply (linked_lt _ _ _ Hl) in E1. apply Z.eqb_eq in E2. done. }
    destruct Hfi as [Hlt Hz].
    destruct (bread_miss me pid d s Hx Hi b l Hl Hc) as (i' & s' & R & Hf' & _ & _ & W).
    + by apply (busy_lt s i).
    + rewrite Hf in Hf'. injection Hf' as <-. exists s'. split; [exact R|].
      destruct (woke_eqs _ _ W) as (F1 & F2 & _). simpl in F1, F2.
      assert (Hlen : (i < length (k_bufs s))%nat) by (rewrite (bio_len d s Hi); lia).
      assert (Eb : buf_at s' i = filled d s b (buf_at s i)).
      { unfold buf_at at 1. rewrite F2. change (default buf0 (?B !! i)) with (bat B i).
        by rewrite bat_upd, decide_True. }
      unfold cached, slock_at. rewrite Eb, F1, lookup_insert_eq. done.
  - unfold bread, bget. unfold kbind at 1. krun (bcache_acquire me pid s Hx). rewrite kbind_gets.
    erewrite obind_Ret by (by apply (scan_next _ (acquired LKbcache s) l)).
    change (List.find _ l) with (List.find (fun i => is_block d b (buf_at s i)) l).
    rewrite (find_miss d s b l) by done. rewrite kbind_gets.
    erewrite obind_Ret by (by apply (scan_prev _ (acquired LKbcache s) l)).
    change (List.find _ (reverse l))
      with (List.find (fun i => b_refcnt (buf_at s i) =? 0) (reverse l)).
    rewrite Hf. by eexists.
Qed.

(** The last [brelse] of a buffer makes it the most recently used one and
    keeps the order of the others; an earlier one keeps the order; in both
    cases the lock is free afterwards.  Releasing or writing a buffer the
    caller has not locked panics. *)
Theorem brelse_order me pid d i b l1 l2 s :
  ctx me pid s -> bio_inv d s -> linked (k_bufs s) (l1 ++ i :: l2) -> cached d s i b ->
  0 < refs d s b < 2 ^ 32 ->
  (slock_at s (SLbuf i) = mksleep true pid ->
   exists s', brelse i s = Ret tt s' /\ slock_at s' (SLbuf i) = mksleep false 0 /\
     linked (k_bufs s') (if refs d s b =? 1 then i :: l1 ++ l2 else l1 ++ i :: l2)) /\
  (sl_locked (slock_at s (SLbuf i)) = false ->
   (exists s', brelse i s = Panic "brelse" s') /\ (exists s', bwrite i s = Panic "bwrite" s')).
Proof using HD.
  intros Hx Hi Hl Hc Hr. assert (Hlt : (i < NBUF)%nat) by apply Hc.
  destruct (cached_view d s i b Hi Hc) as (_ & E2 & _). split.
  - intros Ho. destruct (brelse_woke me pid d s Hx Hi i Hlt Ho) as (s' & R & W).
    exists s'. split; [exact R|]. destruct (woke_eqs _ _ W) as (F1 & F2 & _). simpl in F1, F2.
    unfold slock_at. rewrite F1, F2, lookup_insert_eq. split; [done|].
    assert (H : linked (upd i dropref (k_bufs s)) (l1 ++ i :: l2)) by (by apply linked_upd).
    rewrite E2 in *. unfold brelse_bufs, dropref at 1. simpl.
    change (bat (k_bufs s) i) with (buf_at s i).
    rewrite u32_small by lia. zcases; try lia; [by apply linked_relink|done].
  - intros Hu. destruct (holdingsleep_run me pid (SLbuf i) s Hx) as (s' & R & _);
      [by apply Nat.ltb_lt|]. rewrite Hu in R. simpl in R.
    split; exists s'; [unfold brelse|unfold bwrite]; by krun R.
Qed.
End recycling.

(** ** Examples *)

(** A disk that transfers at once. *)
Definition mem_disk : Disk := {|
  virtio_disk_rw i write := modify (if write then disk_written i else disk_read i)
|}.

Lemma mem_disk_ok : DiskOk (Dk := mem_disk).
Proof. split; intros; eexists; (split; [reflexivity|reflexivity]). Qed.

(** The process of [demo_ctx] with an initialised cache. *)
Definition demo_bio : kst :=
  match binit demo_ctx with Ret _ s => s | _ => demo_ctx end.

Lemma demo_zero i : core (buf_at demo_ctx i) = core buf0.
Proof.
  unfold buf_at. change (k_bufs demo_ctx) with (replicate (S NBUF) buf0).
  destruct (decide (i < S NBUF)%nat).
  - by rewrite lookup_replicate_2.
  - by rewrite lookup_ge_None_2 by (rewrite length_replicate; lia).
Qed.

Lemma demo_bio_idle : idle 1 7 1 demo_bio /\ k_disk demo_bio = ∅.
Proof.
  destruct (binit_idle 1 7 1 demo_ctx) as (s & R & H & D);
    [lia|exact demo_ctx_ok|reflexivity|exact demo_zero|].
  unfold demo_bio. rewrite R. split; [exact H|exact D].
Qed.

Lemma cache_transparent_witness :
  exists s', run_bops (Dk := mem_disk) 1 [BWrite 5 [1]; BRead 5; BRead 6] demo_bio =
             Ret [[1]; [1]; zero_block] s'.
Proof.
  destruct (cache_transparent (HD := mem_disk_ok) 1 7 1 [BWrite 5 [1]; BRead 5; BRead 6] demo_bio)
    as (s' & R & _ & _).
  - exact (proj1 demo_bio_idle).
  - exists s'. rewrite R. simpl. rewrite fn_lookup_insert, fn_lookup_insert_ne by lia.
    rewrite (idle_clean 1 7 1 demo_bio 6 (proj1 demo_bio_idle)), (proj2 demo_bio_idle). reflexivity.
Defined.

Lemma binit_spec_witness :
  exists s', binit demo_ctx = Ret tt s' /\ linked (k_bufs s') (reverse (seq 0 NBUF)).
Proof.
  destruct (binit_spec demo_ctx) as (s' & R & H & _); [reflexivity|].
  exists s'. split; [exact R|exact H].
Defined.

Lemma bread_recycles_lru_witness :
  exists s', bread (Dk := mem_disk) 1 5 demo_bio = Ret 0%nat s' /\ b_refcnt (buf_at s' 0) = 1.
Proof.
  destruct (binit_run demo_ctx) as (s1 & R1 & I1); [reflexivity|].
  assert (E1 : demo_bio = s1) by (unfold demo_bio; by rewrite R1).
  assert (Hf : List.find (fun i => b_refcnt (buf_at demo_bio i) =? 0) (reverse (reverse (seq 0 NBUF)))
               = Some 0%nat) by (rewrite reverse_involutive; vm_compute; reflexivity).
  pose proof (bread_recycles_lru (HD := mem_disk_ok) 1 7 1 5 (reverse (seq 0 NBUF)) demo_bio
    (id_ctx _ _ _ _ (proj1 demo_bio_idle)) (id_inv _ _ _ _ (proj1 demo_bio_idle))) as H.
  rewrite Hf in H. destruct H as (s' & R & _ & _ & Hr & _).
  - rewrite E1. by eapply binit_inv_linked.
  - intros i Hc.
    assert (V : vbuf 1 demo_bio 5 = None) by (vm_compute; reflexivity).
    by apply (vbuf_none 1 demo_bio 5 i V).
  - exists s'. split; [exact R|exact Hr].
Defined.

Lemma brelse_order_witness :
  exists s1 s2 i, bread (Dk := mem_disk) 1 5 demo_bio = Ret i s1 /\
    brelse i s1 = Ret tt s2 /\ slock_at s2 (SLbuf i) = mksleep false 0.
Proof.
  destruct (idle_bread (HD := mem_disk_ok) 1 7 1 demo_bio 5 (proj1 demo_bio_idle))
    as (i & s1 & R1 & S1 & _).
  destruct (bstep_here S1) as (_ & E & _).
  destruct (bi_list _ _ (vs_inv (bs_view S1))) as [l Hl].
  pose proof (proj1 (bs_cached S1)) as Hi. apply (linked_lt _ _ _ Hl), list_elem_of_split in Hi
    as (l1 & l2 & ->).
  destruct (brelse_order (HD := mem_disk_ok) 1 7 1 i 5 l1 l2 s1) as [H _].
  - exact (ctx_quiet (id_ctx _ _ _ _ (proj1 demo_bio_idle)) (bs_quiet S1)).
  - exact (vs_inv (bs_view S1)).
  - exact Hl.
  - exact (bs_cached S1).
  - rewrite E. lia.
  - destruct (H (bs_slock S1)) as (s2 & R2 & H2 & _).
    exists s1, s2, i. split; [exact R1|split; [exact R2|exact H2]].
Defined.
