(* ===== verification/BioRules.v ===== *)
(** * Rules for clients of the buffer cache

    [view] states the abstract state of the cache as three functions of the
    block number (contents, reference count, locked or not) and the number of
    buffers in use.  Each rule says how one routine of [kernel/bio.c] moves
    it, what it does to the disk, and which buffers the caller keeps. *)

From stdpp Require Import functions.
From S2P Require Import Prelude Param Mem Kernel Spinlock Sched Sleeplock Bio.
Open Scope Z_scope.

Lemma fn_insert_same {A} (f : Z -> A) b v b' : f b = v -> (<[b := v]> f) b' = f b'.
Proof.
  intros <-. destruct (decide (b' = b)) as [->|]; [by rewrite fn_lookup_insert|].
  by rewrite fn_lookup_insert_ne.
Qed.

Section rules.
Context `{HD : DiskOk}.
Context (me : nat) (pid d : Z).

Record view (C : Z -> block) (R : Z -> Z) (H : Z -> bool) (n : nat) (s : kst) : Prop := {
  vw_ctx : ctx me pid s;
  vw_inv : bio_inv d s;
  vw_content b : content d s b = C b;
  vw_refs b : refs d s b = R b;
  vw_held b : held d s b = H b;
  vw_busy : busy s = n
}.

(** The caller has buffer [i] of block [b] locked. *)
Definition own (s : kst) (i : nat) (b : Z) : Prop :=
  cached d s i b /\ slock_at s (SLbuf i) = mksleep true pid.

(** The effect of a call on block [b]. *)
Record moved (b : Z) (s s' : kst) : Prop := {
  mv_quiet : quiet s s';
  mv_own j b' : b' <> b -> 0 < refs d s b' -> own s j b' -> own s' j b'
}.

Lemma view_ext C R H n C' R' H' n' s :
  view C R H n s -> (forall b, C b = C' b) -> (forall b, R b = R' b) -> (forall b, H b = H' b) ->
  n = n' -> view C' R' H' n' s.
Proof. intros [] HC HR HH <-. split; try done; intros; rewrite <- ?HC, <- ?HR, <- ?HH; done. Qed.

(** A buffer in use has a positive count. *)
Lemma view_refs_pos C R H n s b : view C R H n s -> 0 <= R b.
Proof.
  intros V. rewrite <- (vw_refs _ _ _ _ _ V). unfold refs.
  destruct (vbuf d s b) as [i|] eqn:E; [|done]. apply vbuf_cached in E as (E & _).
  by apply (bi_ref d s (vw_inv _ _ _ _ _ V)).
Qed.

Lemma view_clean C R H n s b : view C R H n s -> R b = 0 -> C b = dget (k_disk s) b.
Proof.
  intros V Hz. rewrite <- (vw_refs _ _ _ _ _ V) in Hz. rewrite <- (vw_content _ _ _ _ _ V).
  unfold refs, content in *. destruct (vbuf d s b) as [i|] eqn:E; [|done].
  apply vbuf_cached in E as (E1 & E2 & E3). by rewrite (bi_clean d s (vw_inv _ _ _ _ _ V) i), E3.
Qed.

Lemma own_held C R H n s i b : view C R H n s -> own s i b -> H b = true /\ 0 < R b /\
  b_data (buf_at s i) = C b.
Proof.
  intros V [Hc Ho]. pose proof (vw_inv _ _ _ _ _ V) as Hi.
  destruct (cached_view d s i b Hi Hc) as (E1 & E2 & E3).
  rewrite <- (vw_held _ _ _ _ _ V), <- (vw_refs _ _ _ _ _ V), <- (vw_content _ _ _ _ _ V).
  rewrite E1, E2, E3, Ho. split_and!; [done| |done].
  pose proof (bi_ref d s Hi i ltac:(apply Hc)). pose proof (bi_lock d s Hi i ltac:(apply Hc)) as L.
  rewrite Ho in L. specialize (L eq_refl). lia.
Qed.

(** A block has one buffer. *)
Lemma own_fun C R H n s i j b : view C R H n s -> own s i b -> own s j b -> i = j.
Proof.
  intros V [Hi _] [Hj _]. pose proof (vw_inv _ _ _ _ _ V) as I.
  apply (cached_vbuf d s b i I) in Hi. apply (cached_vbuf d s b j I) in Hj. congruence.
Qed.

(** Every routine's rule is its [bstep], read through the view. *)
Lemma bstep_view C R H n s s' i b c r o :
  view C R H n s -> bstep d i b c r o s s' ->
  view (<[b := c]> C) (<[b := r]> R) (<[b := sl_locked o]> H) (n + nz r - nz (R b)) s' /\
  moved b s s'.
Proof.
  intros [X I VC VR VH VB] [Q V Hc Ho]. split; split.
  - by eapply ctx_quiet.
  - apply V.
  - intros b'. rewrite (vs_content V). case_decide; [subst; by rewrite fn_lookup_insert|].
    by rewrite fn_lookup_insert_ne.
  - intros b'. rewrite (vs_refs V). case_decide; [subst; by rewrite fn_lookup_insert|].
    by rewrite fn_lookup_insert_ne.
  - intros b'. rewrite (vs_held V). case_decide; [subst; by rewrite fn_lookup_insert|].
    by rewrite fn_lookup_insert_ne.
  - pose proof (vs_busy V) as B. rewrite VR, VB in B. lia.
  - done.
  - intros j b' Hb Hr [Hj1 Hj2]. split; [by apply (vs_keep V)|].
    by rewrite (vs_slock V j b').
Qed.

Lemma bread_view C R H n s b :
  view C R H n s -> H b = false -> 0 < R b \/ (n < NBUF)%nat -> R b + 1 < 2 ^ 32 ->
  exists i s', bread d b s = Ret i s' /\ own s' i b /\ moved b s s' /\
    view C (<[b := R b + 1]> R) (<[b := true]> H) (n + 1 - nz (R b)) s' /\
    k_disk s' = k_disk s /\ k_writes s' = k_writes s.
Proof using HD.
  intros V Hh Hb Hr. pose proof (view_refs_pos _ _ _ _ _ b V) as Hp.
  destruct (bread_run me pid d s (vw_ctx _ _ _ _ _ V) (vw_inv _ _ _ _ _ V) b) as (i & s' & E & S & F).
  - by rewrite (vw_held _ _ _ _ _ V).
  - by rewrite (vw_refs _ _ _ _ _ V), (vw_busy _ _ _ _ _ V).
  - by rewrite (vw_refs _ _ _ _ _ V).
  - exists i, s'. split; [exact E|]. split; [exact (conj (bs_cached S) (bs_slock S))|].
    rewrite (vw_refs _ _ _ _ _ V), (vw_content _ _ _ _ _ V) in S.
    destruct (bstep_view _ _ _ _ _ _ _ _ _ _ _ V S) as [V' M]. split_and!; try apply F; try done.
    eapply view_ext; [exact V'| |done|done|].
    + intros b'. by apply fn_insert_same.
    + unfold nz. zcases; lia.
Qed.

Lemma set_data_view C R H n s i b v :
  view C R H n s -> own s i b ->
  exists s', put_buf i (set_data v) s = Ret tt s' /\ own s' i b /\ moved b s s' /\
    view (<[b := v]> C) R H n s' /\ k_disk s' = k_disk s /\ k_writes s' = k_writes s.
Proof using HD.
  intros V O. destruct (own_held _ _ _ _ _ _ _ V O) as (O1 & O2 & O3). destruct O as [Hc Ho].
  destruct (set_data_run me pid d s (vw_ctx _ _ _ _ _ V) (vw_inv _ _ _ _ _ V) i b v Hc)
    as (s' & E & S & F).
  { by rewrite (vw_refs _ _ _ _ _ V). }
  rewrite Ho in S. exists s'. split; [exact E|]. split; [exact (conj (bs_cached S) (bs_slock S))|].
  rewrite (vw_refs _ _ _ _ _ V) in S.
  destruct (bstep_view _ _ _ _ _ _ _ _ _ _ _ V S) as [V' M]. split_and!; try apply F; try done.
  eapply view_ext; [exact V'|done| | |].
  - intros b'. by apply fn_insert_same.
  - intros b'. by apply fn_insert_same.
  - unfold nz. zcases; lia.
Qed.

Lemma bwrite_view C R H n s i b :
  view C R H n s -> own s i b ->
  exists s', bwrite i s = Ret tt s' /\ own s' i b /\ moved b s s' /\ view C R H n s' /\
    k_disk s' = <[b := C b]> (k_disk s) /\ k_writes s' = k_writes s ++ [(b, C b)].
Proof using HD.
  intros V O. destruct (own_held _ _ _ _ _ _ _ V O) as (O1 & O2 & O3). destruct O as [Hc Ho].
  destruct (bwrite_run me pid d s (vw_ctx _ _ _ _ _ V) (vw_inv _ _ _ _ _ V) i b Hc Ho)
    as (s' & E & S & F).
  exists s'. split; [exact E|]. split; [exact (conj (bs_cached S) (bs_slock S))|].
  rewrite (vw_refs _ _ _ _ _ V), (vw_content _ _ _ _ _ V) in S. rewrite (vw_content _ _ _ _ _ V) in F.
  destruct (bstep_view _ _ _ _ _ _ _ _ _ _ _ V S) as [V' M]. split_and!; try apply F; try done.
  eapply view_ext; [exact V'| | | |].
  - intros b'. by apply fn_insert_same.
  - intros b'. by apply fn_insert_same.
  - intros b'. by apply fn_insert_same.
  - unfold nz. zcases; lia.
Qed.

Lemma brelse_view C R H n s i b :
  view C R H n s -> own s i b -> R b < 2 ^ 32 -> (R b = 1 -> C b = dget (k_disk s) b) ->
  exists s', brelse i s = Ret tt s' /\ moved b s s' /\
    view C (<[b := R b - 1]> R) (<[b := false]> H) (n + nz (R b - 1) - 1) s' /\
    k_disk s' = k_disk s /\ k_writes s' = k_writes s.
Proof using HD.
  intros V O Hr Hcl. destruct (own_held _ _ _ _ _ _ _ V O) as (O1 & O2 & O3). destruct O as [Hc Ho].
  destruct (brelse_run me pid d s (vw_ctx _ _ _ _ _ V) (vw_inv _ _ _ _ _ V) i b Hc Ho)
    as (s' & E & S & F).
  { by rewrite (vw_refs _ _ _ _ _ V). }
  { by rewrite (vw_refs _ _ _ _ _ V), (vw_content _ _ _ _ _ V). }
  exists s'. split; [exact E|].
  rewrite (vw_refs _ _ _ _ _ V), (vw_content _ _ _ _ _ V) in S.
  destruct (bstep_view _ _ _ _ _ _ _ _ _ _ _ V S) as [V' M]. split_and!; try apply F; try done.
  eapply view_ext; [exact V'| |done|done|].
  - intros b'. by apply fn_insert_same.
  - unfold nz. zcases; lia.
Qed.

Lemma bpin_view C R H n s i b :
  view C R H n s -> cached d s i b -> 0 < R b -> R b + 1 < 2 ^ 32 ->
  exists s', bpin i s = Ret tt s' /\ moved b s s' /\
    slock_at s' (SLbuf i) = slock_at s (SLbuf i) /\ cached d s' i b /\
    view C (<[b := R b + 1]> R) H n s' /\ k_disk s' = k_disk s /\ k_writes s' = k_writes s.
Proof using HD.
  intros V Hc Hp Hr. pose proof (vw_inv _ _ _ _ _ V) as Hi.
  destruct (cached_view d s i b Hi Hc) as (_ & _ & E3). rewrite (vw_held _ _ _ _ _ V) in E3.
  destruct (bpin_run me pid d s (vw_ctx _ _ _ _ _ V) Hi i b Hc) as (s' & E & S & F).
  { by rewrite (vw_refs _ _ _ _ _ V). }
  exists s'. split; [exact E|].
  rewrite (vw_refs _ _ _ _ _ V), (vw_content _ _ _ _ _ V) in S.
  destruct (bstep_view _ _ _ _ _ _ _ _ _ _ _ V S) as [V' M].
  split_and!; try apply F; [done|exact (bs_slock S)|exact (bs_cached S)|].
  eapply view_ext; [exact V'| |done| |].
  - intros b'. by apply fn_insert_same.
  - intros b'. by apply fn_insert_same.
  - unfold nz. zcases; lia.
Qed.

Lemma bunpin_view C R H n s i b :
  view C R H n s -> own s i b -> 1 < R b < 2 ^ 32 ->
  exists s', bunpin i s = Ret tt s' /\ own s' i b /\ moved b s s' /\
    view C (<[b := R b - 1]> R) H n s' /\ k_disk s' = k_disk s /\ k_writes s' = k_writes s.
Proof using HD.
  intros V O Hr. destruct (own_held _ _ _ _ _ _ _ V O) as (O1 & O2 & O3). destruct O as [Hc Ho].
  destruct (bunpin_run me pid d s (vw_ctx _ _ _ _ _ V) (vw_inv _ _ _ _ _ V) i b Hc)
    as (s' & E & S & F).
  { by rewrite (vw_refs _ _ _ _ _ V). }
  rewrite Ho in S. exists s'. split; [exact E|]. split; [exact (conj (bs_cached S) (bs_slock S))|].
  rewrite (vw_refs _ _ _ _ _ V), (vw_content _ _ _ _ _ V) in S.
  destruct (bstep_view _ _ _ _ _ _ _ _ _ _ _ V S) as [V' M]. split_and!; try apply F; try done.
  eapply view_ext; [exact V'| |done| |].
  - intros b'. by apply fn_insert_same.
  - intros b'. by apply fn_insert_same.
  - unfold nz. zcases; lia.
Qed.
End rules.
