(* ===== verification/Log.v ===== *)
(** * kernel/log.c

    The write-ahead log: operations as the code has them, the exact sequence
    of disk writes of a commit, recovery, and the crash theorem that ties the
    two together: whatever prefix of a commit's writes reached the disk,
    recovery leaves all of the transaction or nothing of it. *)

From stdpp Require Import functions.
From S2P Require Import Prelude Param Mem Kernel Spinlock Sched Sleeplock Bio BioRules.
Open Scope Z_scope.

(** ** Fields *)

Definition set_lh (lh : logheader) (l : log) : log :=
  mklog (log_start l) (log_size l) (log_outstanding l) (log_committing l) (log_dev l) lh.
Definition set_outstanding (n : Z) (l : log) : log :=
  mklog (log_start l) (log_size l) n (log_committing l) (log_dev l) (log_lh l).
Definition set_committing (b : bool) (l : log) : log :=
  mklog (log_start l) (log_size l) (log_outstanding l) b (log_dev l) (log_lh l).
Definition put_log (f : log -> log) : K unit := modify (fun s => set_log (f (k_log s)) s).

Definition set_n (n : Z) (l : log) : log := set_lh (mklh n (lh_block (log_lh l))) l.

(** [log.lh.block[i]]; storing past the array is undefined behaviour. *)
Definition blk (l : log) (i : Z) : Z := default 0 (lh_block (log_lh l) !! Z.to_nat i).
Definition set_blk (i v : Z) : K unit :=
  if (0 <=? i) && (i <? LOGSIZE) then
    put_log (fun l => set_lh (mklh (lh_n (log_lh l)) (<[Z.to_nat i := v]> (lh_block (log_lh l)))) l)
  else panic "log.lh.block: index out of bounds".

(** [for(i = 0; i < log.lh.n; i++) body(i)]; the fuel is one more than the
    slots of the header. *)
Fixpoint for_lh (fuel : nat) (i : Z) (body : Z -> K unit) : K unit :=
  match fuel with
  | O => fun _ => NoFuel
  | S fuel =>
    let! n := gets (fun s => lh_n (log_lh (k_log s))) in
    if i <? n then do! body i; for_lh fuel (i + 1) body else kret tt
  end.
Definition lh_fuel : nat := S (Z.to_nat LOGSIZE).

(** Offsets in [struct logheader] on disk. *)
Definition lh_n_off : Z := 0.
Definition lh_block_off (i : Z) : Z := 4 + 4 * i.
Definition sizeof_logheader : Z := 4 + 4 * LOGSIZE.

Section log.
Context `{Dk : Disk}.

(** ** Operations *)

Definition install_one (recovering : bool) (tail : Z) : K unit :=
  let! l := gets (fun s => k_log s) in
  let! lbuf := bread (log_dev l) (u32 (log_start l + tail + 1)) in
  let! l := gets (fun s => k_log s) in
  let! dbuf := bread (log_dev l) (u32 (blk l tail)) in
  let! data := gets (fun s => b_data (buf_at s lbuf)) in
  do! put_buf dbuf (set_data data);
  do! bwrite dbuf;
  do! if! negb recovering then bunpin dbuf;
  do! brelse lbuf;
  brelse dbuf.

Definition install_trans (recovering : bool) : K unit := for_lh lh_fuel 0 (install_one recovering).

Definition read_head : K unit :=
  let! l := gets (fun s => k_log s) in
  let! buf := bread (log_dev l) (u32 (log_start l)) in
  let! lh := gets (fun s => b_data (buf_at s buf)) in
  do! put_log (set_n (s32 (get32 lh_n_off lh)));
  do! for_lh lh_fuel 0 (fun i =>
        let! lh := gets (fun s => b_data (buf_at s buf)) in
        set_blk i (s32 (get32 (lh_block_off i) lh)));
  brelse buf.

Definition write_head : K unit :=
  let! l := gets (fun s => k_log s) in
  let! buf := bread (log_dev l) (u32 (log_start l)) in
  let! n := gets (fun s => lh_n (log_lh (k_log s))) in
  do! put_buf buf (fun x => set_data (put32 lh_n_off n (b_data x)) x);
  do! for_lh lh_fuel 0 (fun i =>
        let! v := gets (fun s => blk (k_log s) i) in
        put_buf buf (fun x => set_data (put32 (lh_block_off i) v (b_data x)) x));
  do! bwrite buf;
  brelse buf.

Definition recover_from_log : K unit :=
  do! read_head;
  do! install_trans true;
  do! put_log (set_n 0);
  write_head.

Definition initlog (dev : Z) (sb : superblock) : K unit :=
  if sizeof_logheader >=? BSIZE then panic "initlog: too big logheader" else
  do! initlock LKlog;
  do! put_log (fun l => mklog (s32 (sb_logstart sb)) (log_size l) (log_outstanding l)
                          (log_committing l) (log_dev l) (log_lh l));
  do! put_log (fun l => mklog (log_start l) (s32 (sb_nlog sb)) (log_outstanding l)
                          (log_committing l) (log_dev l) (log_lh l));
  do! put_log (fun l => mklog (log_start l) (log_size l) (log_outstanding l)
                          (log_committing l) dev (log_lh l));
  recover_from_log.

(** The loop of [begin_op]; [wakeups] bounds how often it is woken in vain. *)
Fixpoint begin_wait (fuel : nat) : K unit :=
  match fuel with
  | O => fun _ => NoFuel
  | S fuel =>
    let! l := gets (fun s => k_log s) in
    if log_committing l then
      do! sleep CHlog LKlog;
      begin_wait fuel
    else if lh_n (log_lh l) + (log_outstanding l + 1) * MAXOPBLOCKS >? LOGSIZE then
      do! sleep CHlog LKlog;
      begin_wait fuel
    else
      do! put_log (fun l => set_outstanding (log_outstanding l + 1) l);
      release LKlog
  end.

Definition begin_op : K unit :=
  do! acquire LKlog;
  begin_wait wakeups.

Definition write_one (tail : Z) : K unit :=
  let! l := gets (fun s => k_log s) in
  let! to := bread (log_dev l) (u32 (log_start l + tail + 1)) in
  let! l := gets (fun s => k_log s) in
  let! from := bread (log_dev l) (u32 (blk l tail)) in
  let! data := gets (fun s => b_data (buf_at s from)) in
  do! put_buf to (set_data data);
  do! bwrite to;
  do! brelse from;
  brelse to.

Definition write_log : K unit := for_lh lh_fuel 0 write_one.

Definition commit : K unit :=
  let! n := gets (fun s => lh_n (log_lh (k_log s))) in
  if! n >? 0 then
    (do! write_log;
     do! write_head;
     do! install_trans false;
     do! put_log (set_n 0);
     write_head).

Definition end_op : K unit :=
  do! acquire LKlog;
  do! put_log (fun l => set_outstanding (log_outstanding l - 1) l);
  let! l := gets (fun s => k_log s) in
  if log_committing l then panic "log.committing" else
  let! do_commit :=
    (if log_outstanding l =? 0 then
       do! put_log (set_committing true);
       kret true
     else
       do! wakeup CHlog;
       kret false) in
  do! release LKlog;
  if! (do_commit : bool) then
    (do! commit;
     do! acquire LKlog;
     do! put_log (set_committing false);
     do! wakeup CHlog;
     release LKlog).

(** The search of [log_write]: the slot of the block, or the first free one. *)
Fixpoint absorb (fuel : nat) (b : nat) (i : Z) : K Z :=
  match fuel with
  | O => fun _ => NoFuel
  | S fuel =>
    let! l := gets (fun s => k_log s) in
    if i <? lh_n (log_lh l) then
      let! blockno := gets (fun s => b_blockno (buf_at s b)) in
      if u32 (blk l i) =? blockno then kret i else absorb fuel b (i + 1)
    else kret i
  end.

Definition log_write (b : nat) : K unit :=
  do! acquire LKlog;
  let! l := gets (fun s => k_log s) in
  if (lh_n (log_lh l) >=? LOGSIZE) || (lh_n (log_lh l) >=? log_size l - 1)
  then panic "too big a transaction" else
  if log_outstanding l <? 1 then panic "log_write outside of trans" else
  let! i := absorb lh_fuel b 0 in
  let! blockno := gets (fun s => b_blockno (buf_at s b)) in
  do! set_blk i (s32 blockno);
  let! n := gets (fun s => lh_n (log_lh (k_log s))) in
  do! if! i =? n then
    (do! bpin b;
     put_log (fun l => set_n (lh_n (log_lh l) + 1) l));
  release LKlog.

End log.

(** ** Sequences of block writes *)

Definition dapply (ws : list (Z * block)) (dk : gmap Z block) : gmap Z block :=
  foldl (fun dk w => <[fst w := snd w]> dk) dk ws.
Definition fapply (ws : list (Z * block)) (f : Z -> block) : Z -> block :=
  foldl (fun f w => <[fst w := snd w]> f) f ws.

(** Between [s] and [s'] the disk completed exactly the writes [ws]. *)
Definition wrote (ws : list (Z * block)) (s s' : kst) : Prop :=
  k_disk s' = dapply ws (k_disk s) /\ k_writes s' = k_writes s ++ ws.

Lemma wrote_nil s s' : k_disk s' = k_disk s -> k_writes s' = k_writes s -> wrote [] s s'.
Proof. intros E1 E2. split; [done|]. by rewrite app_nil_r. Qed.

Lemma wrote_app ws ws' s1 s2 s3 : wrote ws s1 s2 -> wrote ws' s2 s3 -> wrote (ws ++ ws') s1 s3.
Proof.
  intros [D1 W1] [D2 W2]. split.
  - rewrite D2, D1. unfold dapply. by rewrite foldl_app.
  - by rewrite W2, W1, app_assoc.
Qed.

Lemma fapply_app ws ws' f : fapply (ws ++ ws') f = fapply ws' (fapply ws f).
Proof. apply foldl_app. Qed.

Lemma fapply_other ws f b : b ∉ ws.*1 -> fapply ws f b = f b.
Proof.
  revert f. induction ws as [|[a v] ws IH]; intros f H; [done|].
  rewrite fmap_cons, not_elem_of_cons in H. destruct H as [H1 H2].
  change (fapply ((a, v) :: ws) f) with (fapply ws (<[a := v]> f)). rewrite IH by done.
  by rewrite fn_lookup_insert_ne.
Qed.

Lemma fapply_in ws f b v : NoDup ws.*1 -> (b, v) ∈ ws -> fapply ws f b = v.
Proof.
  revert f. induction ws as [|[a w] ws IH]; intros f Hn H; [by apply elem_of_nil in H|].
  rewrite fmap_cons, NoDup_cons in Hn. destruct Hn as [H1 H2].
  change (fapply ((a, w) :: ws) f) with (fapply ws (<[a := w]> f)).
  apply elem_of_cons in H as [E|H]; [|by apply IH]. injection E as -> ->.
  rewrite fapply_other by done. by rewrite fn_lookup_insert.
Qed.

(** The array of blocks a disk holds. *)
Lemma dget_dapply ws dk b : dget (dapply ws dk) b = fapply ws (dget dk) b.
Proof.
  revert dk. induction ws as [|[a v] ws IH]; intros dk; [done|].
  change (dapply ((a, v) :: ws) dk) with (dapply ws (<[a := v]> dk)). rewrite IH.
  change (fapply ((a, v) :: ws) (dget dk)) with (fapply ws (<[a := v]> (dget dk))).
  assert (E : forall x, dget (<[a := v]> dk) x = (<[a := v]> (dget dk)) x).
  { intros x. unfold dget at 1. destruct (decide (x = a)) as [->|].
    - by rewrite lookup_insert_eq, fn_lookup_insert.
    - by rewrite lookup_insert_ne, fn_lookup_insert_ne. }
  clear IH. revert E. generalize (dget (<[a := v]> dk)). generalize (<[a := v]> (dget dk)).
  induction ws as [|[c w] ws IH]; intros f g E; [apply E|].
  apply (IH (<[c := w]> f) (<[c := w]> g)). intros x.
  destruct (decide (x = c)) as [->|]; [by rewrite !fn_lookup_insert|].
  by rewrite !fn_lookup_insert_ne.
Qed.

(** ** Loops over the header's slots *)

Lemma for_lh_run (P : nat -> kst -> Prop) n body :
  (forall i s, P i s -> lh_n (log_lh (k_log s)) = Z.of_nat n) ->
  (forall i s, (i < n)%nat -> P i s -> exists s', body (Z.of_nat i) s = Ret tt s' /\ P (S i) s') ->
  forall fuel i s, (n - i < fuel)%nat -> (i <= n)%nat -> P i s ->
  exists s', for_lh fuel (Z.of_nat i) body s = Ret tt s' /\ P n s'.
Proof.
  intros Hn Hb fuel. induction fuel as [|fuel IH]; intros i s Hf Hi HP; [lia|].
  cbn [for_lh]. rewrite kbind_gets, (Hn i s HP).
  destruct (Z.ltb_spec (Z.of_nat i) (Z.of_nat n)).
  - destruct (Hb i s ltac:(lia) HP) as (s1 & R1 & P1). krun R1.
    replace (Z.of_nat i + 1) with (Z.of_nat (S i)) by lia. apply IH; [lia|lia|done].
  - exists s. split; [done|]. by replace n with i by lia.
Qed.

(** ** The steps of the loops *)

(** The in-memory log of a transaction on blocks [L]. *)
Record log_at (st d : Z) (L : list Z) (s : kst) : Prop := {
  la_start : log_start (k_log s) = st;
  la_dev : log_dev (k_log s) = d;
  la_n : lh_n (log_lh (k_log s)) = Z.of_nat (length L);
  la_blk i b : L !! i = Some b -> blk (k_log s) (Z.of_nat i) = b
}.

Lemma log_at_quiet st d L s s' : quiet s s' -> log_at st d L s -> log_at st d L s'.
Proof. intros Q []. split; rewrite (quiet_log s s' Q); done. Qed.

Lemma log_at_log st d L s s' : k_log s' = k_log s -> log_at st d L s -> log_at st d L s'.
Proof. intros E []. split; by rewrite E. Qed.

(** A state with the same cache has the same view. *)
Lemma view_woke me pid d C R H n s s' :
  woke s s' -> view me pid d C R H n s -> view me pid d C R H n s'.
Proof.
  intros W [X I VC VR VH VB]. destruct (woke_eqs _ _ W) as (E1 & E2 & E3 & _).
  unfold content, refs, held, vbuf, busy, buf_at, slock_at in *.
  split; unfold content, refs, held, vbuf, busy, buf_at, slock_at; rewrite ?E1, ?E2, ?E3;
    try done; [by eapply ctx_woke|].
  destruct I as [I1 I2 I3 I4 I5 I6 I7]. unfold cached, buf_at, slock_at in *.
  split; unfold cached, buf_at, slock_at; rewrite ?E1, ?E2, ?E3; done.
Qed.

Definition unheld (b : Z) : bool := false.

Section steps.
Context `{HD : DiskOk}.
Context (me : nat) (pid d st : Z).

Abbreviation view := (view me pid d).
Abbreviation own := (own pid d).

(** The running state of a loop body that has [i] for [lb], [j] for [b]. *)
Lemma moved_own b s s' C R H n j b' :
  view C R H n s -> moved pid d b s s' -> b' <> b -> own s j b' -> own s' j b'.
Proof.
  intros V M Hb O. apply (mv_own _ _ _ _ _ M); try done.
  destruct (own_held _ _ _ _ _ _ _ _ _ _ V O) as (_ & Hr & _).
  by rewrite (vw_refs _ _ _ _ _ _ _ _ V).
Qed.

Lemma write_one_run C R n s L t b :
  view C R unheld n s -> log_at st d L s -> L !! t = Some b ->
  0 <= st -> st + Z.of_nat t + 1 < 2 ^ 31 -> 0 <= b < 2 ^ 31 ->
  b <> st + Z.of_nat t + 1 -> R (st + Z.of_nat t + 1) = 0 -> R b = 1 -> (n < NBUF)%nat ->
  let lb := st + Z.of_nat t + 1 in
  exists s', write_one (Z.of_nat t) s = Ret tt s' /\ quiet s s' /\
    view (<[lb := C b]> C) R unheld n s' /\ wrote [(lb, C b)] s s'.
Proof using HD.
  intros V LA Lt H0 H1 H2 Hne Rl Rb Hn lb. unfold write_one. rewrite kbind_gets.
  rewrite (la_start _ _ _ _ LA), (la_dev _ _ _ _ LA), u32_small by lia. fold lb in Hne, Rl |- *.
  destruct (bread_view _ _ _ _ _ _ _ _ lb V) as (i & s1 & R1 & O1 & M1 & V1 & D1 & W1);
    [done|by right|rewrite Rl; lia|]. krun R1.
  pose proof (log_at_quiet _ _ _ _ _ (mv_quiet _ _ _ _ _ M1) LA) as LA1.
  rewrite kbind_gets, (la_blk _ _ _ _ LA1 t b Lt), (la_dev _ _ _ _ LA1), u32_small by lia.
  destruct (bread_view _ _ _ _ _ _ _ _ b V1) as (j & s2 & R2 & O2 & M2 & V2 & D2 & W2).
  { by rewrite fn_lookup_insert_ne. }
  { rewrite fn_lookup_insert_ne by done. left. lia. }
  { rewrite fn_lookup_insert_ne by done. lia. }
  krun R2. pose proof (moved_own _ _ _ _ _ _ _ _ _ V1 M2 (not_eq_sym Hne) O1) as O1'.
  rewrite kbind_gets. destruct (own_held _ _ _ _ _ _ _ _ _ _ V2 O2) as (_ & _ & ->).
  destruct (set_data_view _ _ _ _ _ _ _ _ i lb (C b) V2 O1') as (s3 & R3 & O3 & M3 & V3 & D3 & W3).
  krun R3. pose proof (moved_own _ _ _ _ _ _ _ _ _ V2 M3 Hne O2) as O2'.
  destruct (bwrite_view _ _ _ _ _ _ _ _ i lb V3 O3) as (s4 & R4 & O4 & M4 & V4 & D4 & W4).
  krun R4. rewrite fn_lookup_insert in D4, W4.
  pose proof (moved_own _ _ _ _ _ _ _ _ _ V3 M4 Hne O2') as O2''.
  destruct (brelse_view _ _ _ _ _ _ _ _ j b V4 O2'') as (s5 & R5 & M5 & V5 & D5 & W5).
  { rewrite fn_lookup_insert, fn_lookup_insert_ne by done. lia. }
  { rewrite fn_lookup_insert, fn_lookup_insert_ne by done. lia. }
  krun R5. pose proof (moved_own _ _ _ _ _ _ _ _ _ V4 M5 (not_eq_sym Hne) O4) as O4'.
  destruct (brelse_view _ _ _ _ _ _ _ _ i lb V5 O4') as (s6 & R6 & M6 & V6 & D6 & W6).
  { rewrite !fn_lookup_insert_ne, fn_lookup_insert by done. lia. }
  { intros _. rewrite fn_lookup_insert, D5, D4. unfold dget. by rewrite lookup_insert_eq. }
  exists s6. split; [exact R6|]. split_and!.
  - destruct M1, M2, M3, M4, M5, M6. repeat (etransitivity; [eassumption|]). reflexivity.
  - eapply view_ext; [exact V6|done| | |].
    + intros x. destruct (decide (x = lb)) as [->|Hx].
      * rewrite fn_lookup_insert, !fn_lookup_insert_ne, fn_lookup_insert by done. lia.
      * rewrite fn_lookup_insert_ne by done. destruct (decide (x = b)) as [->|Hxb].
        -- rewrite !fn_lookup_insert, fn_lookup_insert_ne by done. lia.
        -- by rewrite !fn_lookup_insert_ne.
    + intros x. destruct (decide (x = lb)) as [->|Hx]; [by rewrite fn_lookup_insert|].
      rewrite fn_lookup_insert_ne by done. destruct (decide (x = b)) as [->|Hxb];
        [by rewrite fn_lookup_insert|by rewrite !fn_lookup_insert_ne].
    + rewrite !fn_lookup_insert, !fn_lookup_insert_ne, fn_lookup_insert by done.
      rewrite Rl, Rb. unfold nz. simpl. lia.
  - split; [by rewrite D6, D5, D4, D3, D2, D1|by rewrite W6, W5, W4, W3, W2, W1].
Qed.
(** The end of [install_one]: both buffers are given back. *)
Lemma install_finish C R H n s i j lb b :
  view C R H n s -> own s i lb -> own s j b -> lb <> b -> R lb = 1 -> R b = 1 ->
  C lb = dget (k_disk s) lb -> C b = dget (k_disk s) b ->
  exists s', (do! brelse i; brelse j) s = Ret tt s' /\ quiet s s' /\
    view C (<[b := 0]> (<[lb := 0]> R)) (<[b := false]> (<[lb := false]> H)) (n - 2) s' /\
    wrote [] s s'.
Proof using HD.
  intros V Oi Oj Hne Rl Rb Cl Cb.
  destruct (brelse_view _ _ _ _ _ _ _ _ i lb V Oi) as (s1 & R1 & M1 & V1 & D1 & W1);
    [lia|done|]. krun R1.
  pose proof (moved_own _ _ _ _ _ _ _ _ _ V M1 (not_eq_sym Hne) Oj) as Oj'.
  destruct (brelse_view _ _ _ _ _ _ _ _ j b V1 Oj') as (s2 & R2 & M2 & V2 & D2 & W2).
  { rewrite fn_lookup_insert_ne by done. lia. }
  { by rewrite D1. }
  exists s2. split; [exact R2|]. split_and!.
  - destruct M1, M2. by etransitivity.
  - rewrite (fn_lookup_insert_ne _ lb b), Rb, Rl in V2 by done.
    eapply view_ext; [exact V2|done|done|done|]. unfold nz. simpl. lia.
  - apply wrote_nil; congruence.
Qed.

Lemma install_one_run (rec : bool) C R n s L t b :
  view C R unheld n s -> log_at st d L s -> L !! t = Some b ->
  0 <= st -> st + Z.of_nat t + 1 < 2 ^ 31 -> 0 <= b < 2 ^ 31 ->
  b <> st + Z.of_nat t + 1 -> R (st + Z.of_nat t + 1) = 0 ->
  R b = (if rec then 0 else 1) -> (n + (if rec then 1 else 0) < NBUF)%nat ->
  let lb := st + Z.of_nat t + 1 in
  exists s', install_one rec (Z.of_nat t) s = Ret tt s' /\ quiet s s' /\
    view (<[b := C lb]> C) (<[b := 0]> R) unheld (n - if rec then 0 else 1) s' /\
    wrote [(b, C lb)] s s'.
Proof using HD.
  intros V LA Lt H0 H1 H2 Hne Rl Rb Hn lb. unfold install_one. rewrite kbind_gets.
  rewrite (la_start _ _ _ _ LA), (la_dev _ _ _ _ LA), u32_small by lia. fold lb in Hne, Rl |- *.
  pose proof (view_clean _ _ _ _ _ _ _ _ lb V Rl) as Cl.
  destruct (bread_view _ _ _ _ _ _ _ _ lb V) as (i & s1 & R1 & O1 & M1 & V1 & D1 & W1);
    [done|right; lia|rewrite Rl; lia|]. krun R1.
  pose proof (log_at_quiet _ _ _ _ _ (mv_quiet _ _ _ _ _ M1) LA) as LA1.
  rewrite kbind_gets, (la_blk _ _ _ _ LA1 t b Lt), (la_dev _ _ _ _ LA1), u32_small by lia.
  destruct (bread_view _ _ _ _ _ _ _ _ b V1) as (j & s2 & R2 & O2 & M2 & V2 & D2 & W2).
  { by rewrite fn_lookup_insert_ne. }
  { rewrite fn_lookup_insert_ne by done. rewrite Rl. unfold nz. simpl. destruct rec; lia. }
  { rewrite fn_lookup_insert_ne by done. destruct rec; lia. }
  krun R2. pose proof (moved_own _ _ _ _ _ _ _ _ _ V1 M2 (not_eq_sym Hne) O1) as O1'.
  rewrite (fn_lookup_insert_ne _ lb b) in V2 by done.
  rewrite kbind_gets. destruct (own_held _ _ _ _ _ _ _ _ _ _ V2 O1') as (_ & _ & ->).
  destruct (set_data_view _ _ _ _ _ _ _ _ j b (C lb) V2 O2) as (s3 & R3 & O3 & M3 & V3 & D3 & W3).
  krun R3. pose proof (moved_own _ _ _ _ _ _ _ _ _ V2 M3 (not_eq_sym Hne) O1') as I3.
  destruct (bwrite_view _ _ _ _ _ _ _ _ j b V3 O3) as (s4 & R4 & O4 & M4 & V4 & D4 & W4).
  krun R4. rewrite fn_lookup_insert in D4, W4.
  pose proof (moved_own _ _ _ _ _ _ _ _ _ V3 M4 (not_eq_sym Hne) I3) as I4.
  set (R5 := <[b := 1]> (<[lb := 1]> R)). set (n5 := (n + 1 + if rec then 1 else 0)%nat).
  assert (U : exists s5, (if! negb rec then bunpin j) s4 = Ret tt s5 /\ own s5 j b /\ own s5 i lb /\
            quiet s4 s5 /\ view (<[b := C lb]> C) R5 (<[b := true]> (<[lb := true]> unheld)) n5 s5 /\
            k_disk s5 = k_disk s4 /\ k_writes s5 = k_writes s4).
  { destruct rec; simpl.
    - exists s4. split_and!; try done. eapply view_ext; [exact V4|done| |done|].
      + intros x. unfold R5. rewrite Rl, Rb. done.
      + unfold n5, nz. rewrite Rl, Rb. simpl. lia.
    - destruct (bunpin_view _ _ _ _ _ _ _ _ j b V4 O4) as (s5 & E5 & O5 & M5 & V5 & D5 & W5).
      { rewrite fn_lookup_insert, Rb. lia. }
      exists s5. split_and!; try done; [|apply M5|].
      + exact (moved_own _ _ _ _ _ _ _ _ _ V4 M5 (not_eq_sym Hne) I4).
      + eapply view_ext; [exact V5|done| |done|].
        * intros x. unfold R5. rewrite fn_lookup_insert, Rl, Rb.
          destruct (decide (x = b)) as [->|]; [by rewrite !fn_lookup_insert|].
          by rewrite !(fn_lookup_insert_ne _ b x).
        * unfold n5, nz. rewrite Rl, Rb. simpl. lia. }
  destruct U as (s5 & E5 & O5 & I5 & Q5 & V5 & D5 & W5). krun E5.
  destruct (install_finish _ _ _ _ _ i j lb b V5 I5 O5) as (s6 & E6 & Q6 & V6 & D6 & W6).
  { done. }
  { unfold R5. by rewrite fn_lookup_insert_ne, fn_lookup_insert. }
  { unfold R5. by rewrite fn_lookup_insert. }
  { rewrite fn_lookup_insert_ne, D5, D4, D3, D2, D1 by done. unfold dget.
    rewrite lookup_insert_ne by done. exact Cl. }
  { rewrite fn_lookup_insert, D5, D4. unfold dget. by rewrite lookup_insert_eq. }
  exists s6. split; [exact E6|]. split_and!.
  - destruct M1, M2, M3, M4. repeat (etransitivity; [eassumption|]). reflexivity.
  - eapply view_ext; [exact V6|done| | |].
    + intros x. unfold R5. destruct (decide (x = b)) as [->|]; [by rewrite !fn_lookup_insert|].
      rewrite !(fn_lookup_insert_ne _ b x) by done. destruct (decide (x = lb)) as [->|];
        [by rewrite fn_lookup_insert, Rl|by rewrite !fn_lookup_insert_ne].
    + intros x. destruct (decide (x = b)) as [->|]; [by rewrite !fn_lookup_insert|].
      rewrite !(fn_lookup_insert_ne _ b x) by done. destruct (decide (x = lb)) as [->|];
        [by rewrite fn_lookup_insert|by rewrite !fn_lookup_insert_ne].
    + unfold n5. destruct rec; lia.
  - split.
    + rewrite D6. simpl. by rewrite D5, D4, D3, D2, D1.
    + rewrite W6, app_nil_r. by rewrite W5, W4, W3, W2, W1.
Qed.
End steps.

(** ** The header block *)

Fixpoint put_blocks (i : Z) (L : list Z) (data : block) : block :=
  match L with
  | [] => data
  | b :: L => put_blocks (i + 1) L (put32 (lh_block_off i) b data)
  end.

(** The header block [write_head] makes of the transaction [L]. *)
Definition encode (L : list Z) (old : block) : block :=
  put_blocks 0 L (put32 lh_n_off (Z.of_nat (length L)) old).

Definition head_n (data : block) : Z := s32 (get32 lh_n_off data).
Definition head_blk (data : block) (i : Z) : Z := s32 (get32 (lh_block_off i) data).

(** [data] is a header that lists the blocks [L]. *)
Record head_ok (data : block) (L : list Z) : Prop := {
  ho_n : head_n data = Z.of_nat (length L);
  ho_blk i b : L !! i = Some b -> head_blk data (Z.of_nat i) = b;
  ho_size : Z.of_nat (length L) <= LOGSIZE
}.

Lemma put_blocks_snoc i L b data :
  put_blocks i (L ++ [b]) data =
  put32 (lh_block_off (i + Z.of_nat (length L))) b (put_blocks i L data).
Proof.
  revert i data. induction L as [|c L IH]; intros i data; simpl.
  - by rewrite Z.add_0_r.
  - rewrite IH. do 2 f_equal. lia.
Qed.

Lemma length_put_blocks i L data :
  0 <= i -> lh_block_off (i + Z.of_nat (length L)) <= Z.of_nat (length data) ->
  length (put_blocks i L data) = length data.
Proof.
  revert i data. unfold lh_block_off. induction L as [|c L IH]; intros i data Hi H; simpl in *; [done|].
  rewrite IH; rewrite ?length_put32; unfold lh_block_off; lia.
Qed.

(** A field before the slots being written. *)
Lemma put_blocks_get i L data off :
  0 <= i -> 0 <= off -> off + 4 <= lh_block_off i ->
  lh_block_off (i + Z.of_nat (length L)) <= Z.of_nat (length data) ->
  get32 off (put_blocks i L data) = get32 off data.
Proof.
  revert i data. unfold lh_block_off.
  induction L as [|c L IH]; intros i data Hi H1 H2 H3; simpl in *; [done|].
  rewrite IH; try rewrite length_put32; unfold lh_block_off; try lia.
  apply get32_put32_ne; lia.
Qed.

Lemma head_ok_encode L old :
  length old = Z.to_nat BSIZE -> Z.of_nat (length L) <= LOGSIZE ->
  Forall (fun b => 0 <= b < 2 ^ 31) L -> head_ok (encode L old) L.
Proof.
  intros Ho Hl HL. unfold encode, head_n, head_blk, BSIZE, LOGSIZE, MAXOPBLOCKS in *.
  assert (H0 : length (put32 lh_n_off (Z.of_nat (length L)) old) = length old).
  { apply length_put32; unfold lh_n_off; lia. }
  split; [| |done].
  - unfold head_n. rewrite put_blocks_get; [|rewrite ?H0; unfold lh_n_off, lh_block_off; lia..].
    rewrite get32_put32 by (unfold lh_n_off; lia). rewrite u32_small by lia. apply s32_small. lia.
  - intros i b Hi. unfold head_blk.
    pose proof (lookup_lt_Some _ _ _ Hi) as Hlt. rewrite Forall_lookup in HL.
    rewrite <- (take_drop_middle L i b Hi) at 1.
    assert (E : forall L1 L2 k data, put_blocks k (L1 ++ L2) data =
                put_blocks (k + Z.of_nat (length L1)) L2 (put_blocks k L1 data)).
    { induction L1 as [|c L1 IH]; intros L2 k data; simpl; [by rewrite Z.add_0_r|].
      rewrite IH. f_equal. lia. }
    rewrite E, length_take. simpl.
    replace (0 + Z.of_nat (i `min` length L)) with (Z.of_nat i) by lia.
    pose proof (length_take L i) as LT. pose proof (length_drop L (S i)) as LD.
    assert (HP : length (put_blocks 0 (take i L) (put32 lh_n_off (Z.of_nat (length L)) old)) = length old).
    { rewrite length_put_blocks; [done|lia|]. unfold lh_block_off. lia. }
    rewrite put_blocks_get.
    + rewrite get32_put32; unfold lh_block_off; try lia.
      pose proof (HL i b Hi). rewrite u32_small by lia. apply s32_small. lia.
    + lia.
    + unfold lh_block_off. lia.
    + unfold lh_block_off. lia.
    + rewrite length_put32; unfold lh_block_off; lia.
Qed.

(** An erased header. *)
Lemma head_ok_nil old : length old = Z.to_nat BSIZE -> head_ok (encode [] old) [].
Proof. intros H. apply head_ok_encode; [done|unfold LOGSIZE, MAXOPBLOCKS; simpl; lia|constructor]. Qed.

Lemma length_encode L old :
  length old = Z.to_nat BSIZE -> Z.of_nat (length L) <= LOGSIZE ->
  length (encode L old) = Z.to_nat BSIZE.
Proof.
  intros Ho Hl. unfold encode, LOGSIZE, MAXOPBLOCKS, BSIZE in *.
  rewrite length_put_blocks; rewrite ?length_put32; unfold lh_block_off, lh_n_off; lia.
Qed.

Section heads.
Context `{HD : DiskOk}.
Context (me : nat) (pid d st : Z).
Hypothesis Hst : 0 <= st < 2 ^ 31.

Abbreviation view := (view me pid d).
Abbreviation own := (own pid d).

Lemma view_log C R H n lg s : view C R H n s -> view C R H n (set_log lg s).
Proof. intros [X I VC VR VH VB]. split; [by apply ctx_log| |done..]. by destruct I. Qed.

(** A store into the data of a buffer the caller holds. *)
Lemma put_data_view C R H n s i b (g : block -> block) :
  view C R H n s -> own s i b ->
  exists s', put_buf i (fun x => set_data (g (b_data x)) x) s = Ret tt s' /\ own s' i b /\
    quiet s s' /\ view (<[b := g (C b)]> C) R H n s' /\ wrote [] s s'.
Proof using HD.
  intros V O. destruct (own_held _ _ _ _ _ _ _ _ _ _ V O) as (_ & _ & E).
  destruct (set_data_view _ _ _ _ _ _ _ _ i b (g (C b)) V O) as (s' & R1 & O1 & M1 & V1 & D1 & W1).
  exists s'. split_and!; try done; [|apply M1|by apply wrote_nil].
  rewrite <- R1. unfold put_buf, modify. by rewrite E.
Qed.

Lemma write_head_run C R n s L :
  view C R unheld n s -> log_at st d L s -> Z.of_nat (length L) <= LOGSIZE ->
  R st = 0 -> (n < NBUF)%nat ->
  exists s', write_head s = Ret tt s' /\ quiet s s' /\
    view (<[st := encode L (C st)]> C) R unheld n s' /\ wrote [(st, encode L (C st))] s s'.
Proof using HD Hst.
  intros V LA HL Rst Hn. unfold write_head. rewrite kbind_gets.
  rewrite (la_start _ _ _ _ LA), (la_dev _ _ _ _ LA), u32_small by lia.
  destruct (bread_view _ _ _ _ _ _ _ _ st V) as (i & s1 & R1 & O1 & M1 & V1 & D1 & W1);
    [done|by right|rewrite Rst; lia|]. krun R1.
  pose proof (log_at_quiet _ _ _ _ _ (mv_quiet _ _ _ _ _ M1) LA) as LA1.
  rewrite kbind_gets, (la_n _ _ _ _ LA1).
  destruct (put_data_view _ _ _ _ _ i st (put32 lh_n_off (Z.of_nat (length L))) V1 O1)
    as (s2 & R2 & O2 & Q2 & V2 & W2). krun R2.
  set (base := put32 lh_n_off (Z.of_nat (length L)) (C st)) in *.
  set (R' := <[st := R st + 1]> R) in *. set (H' := <[st := true]> unheld) in *.
  set (n' := (n + 1 - nz (R st))%nat) in *.
  destruct (for_lh_run (fun k t => own t i st /\ quiet s2 t /\ log_at st d L t /\ wrote [] s2 t /\
      view (<[st := put_blocks 0 (take k L) base]> C) R' H' n' t) (length L)
      (fun k => let! v := gets (fun s => blk (k_log s) k) in
                put_buf i (fun x => set_data (put32 (lh_block_off k) v (b_data x)) x)))
    with (fuel := lh_fuel) (i := 0%nat) (s := s2) as (s3 & R3 & O3 & Q3 & LA3 & W3 & V3).
  - intros k t (_ & _ & LA' & _). apply LA'.
  - intros k t Hk (O & Q & LA' & W & V'). destruct (lookup_lt_is_Some_2 _ _ Hk) as [b Hb].
    rewrite kbind_gets, (la_blk _ _ _ _ LA' k b Hb).
    destruct (put_data_view _ _ _ _ _ i st (put32 (lh_block_off (Z.of_nat k)) b) V' O)
      as (t' & E' & O' & Q' & V'' & W').
    exists t'. split_and!; try done.
    + by etransitivity.
    + by eapply log_at_quiet.
    + exact (wrote_app _ _ _ _ _ W W').
    + eapply view_ext; [exact V''| |done|done|done]. intros x.
      destruct (decide (x = st)) as [->|]; [|by rewrite !fn_lookup_insert_ne].
      rewrite !fn_lookup_insert. rewrite (take_S_r L k b Hb), put_blocks_snoc, length_take.
      do 2 f_equal. lia.
  - unfold lh_fuel, LOGSIZE, MAXOPBLOCKS in *. lia.
  - lia.
  - split_and!; try done; [by eapply log_at_quiet|by apply wrote_nil].
  - krun R3. rewrite take_ge in V3 by lia. fold (encode L (C st)) in V3.
    destruct (bwrite_view _ _ _ _ _ _ _ _ i st V3 O3) as (s4 & R4 & O4 & M4 & V4 & D4 & W4).
    krun R4. rewrite fn_lookup_insert in D4, W4.
    destruct (brelse_view _ _ _ _ _ _ _ _ i st V4 O4) as (s5 & R5 & M5 & V5 & D5 & W5).
    { unfold R'. rewrite fn_lookup_insert, Rst. lia. }
    { intros _. rewrite D4, fn_lookup_insert. unfold dget. by rewrite lookup_insert_eq. }
    exists s5. split; [exact R5|]. split_and!.
    + destruct M1, M4, M5. repeat (etransitivity; [eassumption|]). reflexivity.
    + eapply view_ext; [exact V5|done| | |].
      * intros x. unfold R'. destruct (decide (x = st)) as [->|]; [|by rewrite !fn_lookup_insert_ne].
        rewrite !fn_lookup_insert, Rst. lia.
      * intros x. unfold H'. destruct (decide (x = st)) as [->|]; [|by rewrite !fn_lookup_insert_ne].
        by rewrite fn_lookup_insert.
      * unfold n', R'. rewrite fn_lookup_insert, Rst. unfold nz. simpl. lia.
    + pose proof (wrote_app _ _ _ _ _ W2 W3) as [E1 E2]. simpl in E1, E2. split.
      * by rewrite D5, D4, E1, D1.
      * rewrite W5, W4, E2, app_nil_r, W1. done.
Qed.
(** Nothing of the log changed but its header; the header keeps its slots. *)
Record header_only (s s' : kst) : Prop := {
  hd_log : k_log s' = set_lh (log_lh (k_log s')) (k_log s);
  hd_len : length (lh_block (log_lh (k_log s'))) = length (lh_block (log_lh (k_log s)));
  hd_quiet : quiet (set_log (k_log s') s) s'
}.

Lemma header_only_quiet s s' : quiet s s' -> header_only s s'.
Proof.
  intros Q. split; rewrite (quiet_log s s' Q); done.
Qed.

Lemma header_only_trans s1 s2 s3 : header_only s1 s2 -> header_only s2 s3 -> header_only s1 s3.
Proof.
  intros [E1 L1 Q1] [E2 L2 Q2]. split.
  - etransitivity; [exact E2|]. exact (f_equal (set_lh (log_lh (k_log s3))) E1).
  - congruence.
  - etransitivity; [|exact Q2]. destruct Q1 as [W1 S1].
    split; [exact (woke_log (k_log s3) _ _ W1)|exact S1].
Qed.

(** The body of [read_head]'s loop. *)
Lemma set_blk_run i v s :
  0 <= i < LOGSIZE -> Z.of_nat (length (lh_block (log_lh (k_log s)))) = LOGSIZE ->
  exists s', set_blk i v s = Ret tt s' /\ header_only s s' /\ s' = set_log (k_log s') s /\
    lh_n (log_lh (k_log s')) = lh_n (log_lh (k_log s)) /\
    (forall j, 0 <= j -> blk (k_log s') j = if j =? i then v else blk (k_log s) j).
Proof.
  intros Hi Hl. unfold set_blk.
  destruct (Z.leb_spec 0 i); [|lia]. destruct (Z.ltb_spec i LOGSIZE); [|lia]. simpl.
  eexists. split; [reflexivity|]. split_and!.
  - split; [done|simpl; by rewrite length_insert|]. simpl. reflexivity.
  - reflexivity.
  - done.
  - intros j Hj. unfold blk. simpl. destruct (Z.eqb_spec j i) as [->|].
    + by rewrite list_lookup_insert_eq by lia.
    + by rewrite list_lookup_insert_ne by lia.
Qed.

Lemma read_head_run C R n s L :
  view C R unheld n s -> log_start (k_log s) = st -> log_dev (k_log s) = d ->
  Z.of_nat (length (lh_block (log_lh (k_log s)))) = LOGSIZE ->
  head_ok (C st) L -> R st = 0 -> (n < NBUF)%nat ->
  exists s', read_head s = Ret tt s' /\ header_only s s' /\ log_at st d L s' /\
    view C R unheld n s' /\ wrote [] s s'.
Proof using HD Hst.
  intros V Est Ed Elen HO Rst Hn. unfold read_head. rewrite kbind_gets, Est, Ed, u32_small by lia.
  destruct (bread_view _ _ _ _ _ _ _ _ st V) as (i & s1 & R1 & O1 & M1 & V1 & D1 & W1);
    [done|by right|rewrite Rst; lia|]. krun R1.
  rewrite kbind_gets. destruct (own_held _ _ _ _ _ _ _ _ _ _ V1 O1) as (_ & _ & ->).
  pose proof (quiet_log _ _ (mv_quiet _ _ _ _ _ M1)) as EL.
  fold (head_n (C st)). rewrite (ho_n _ _ HO). unfold put_log at 1. rewrite kbind_modify.
  set (s2 := set_log (set_n (Z.of_nat (length L)) (k_log s1)) s1).
  assert (HO2 : header_only s1 s2) by (split; [done|done|reflexivity]).
  set (R' := <[st := R st + 1]> R) in *. set (H' := <[st := true]> unheld) in *.
  set (n' := (n + 1 - nz (R st))%nat) in *.
  destruct (for_lh_run (fun k t => own t i st /\ header_only s1 t /\ wrote [] s1 t /\
      view C R' H' n' t /\ lh_n (log_lh (k_log t)) = Z.of_nat (length L) /\
      (forall j b, (j < k)%nat -> L !! j = Some b -> blk (k_log t) (Z.of_nat j) = b)) (length L)
      (fun k => let! lh := gets (fun s => b_data (buf_at s i)) in
                set_blk k (s32 (get32 (lh_block_off k) lh))))
    with (fuel := lh_fuel) (i := 0%nat) (s := s2) as (s3 & R3 & O3 & Q3 & W3 & V3 & N3 & B3).
  - intros k t (_ & _ & _ & _ & E & _). exact E.
  - intros k t Hk (O & Q & W & V' & N & B). destruct (lookup_lt_is_Some_2 _ _ Hk) as [b Hb].
    rewrite kbind_gets. destruct (own_held _ _ _ _ _ _ _ _ _ _ V' O) as (_ & _ & ->).
    fold (head_blk (C st) (Z.of_nat k)). rewrite (ho_blk _ _ HO k b Hb).
    pose proof (ho_size _ _ HO) as HS.
    destruct (set_blk_run (Z.of_nat k) b t) as (t' & E' & Q' & F' & N' & B').
    { lia. }
    { rewrite (hd_len _ _ Q), EL. exact Elen. }
    exists t'. split; [exact E'|]. split_and!.
    + rewrite F'. exact O.
    + by eapply header_only_trans.
    + rewrite F'. exact W.
    + rewrite F'. by apply view_log.
    + congruence.
    + intros j b' Hj Hb'. rewrite B' by lia. destruct (Z.eqb_spec (Z.of_nat j) (Z.of_nat k)).
      * assert (j = k) as -> by lia. congruence.
      * apply B; [lia|done].
  - pose proof (ho_size _ _ HO). unfold lh_fuel, LOGSIZE, MAXOPBLOCKS in *. lia.
  - lia.
  - split_and!; try done; [by apply wrote_nil|by apply view_log|lia].
  - krun R3. destruct (brelse_view _ _ _ _ _ _ _ _ i st V3 O3) as (s4 & R4 & M4 & V4 & D4 & W4).
    { unfold R'. rewrite fn_lookup_insert, Rst. lia. }
    { intros _. rewrite (proj1 W3). simpl. rewrite D1. by apply (view_clean _ _ _ _ _ _ _ _ st V). }
    exists s4. split; [exact R4|].
    assert (Q : header_only s s4).
    { eapply header_only_trans; [apply header_only_quiet, (mv_quiet _ _ _ _ _ M1)|].
      eapply header_only_trans; [exact Q3|]. apply header_only_quiet, (mv_quiet _ _ _ _ _ M4). }
    pose proof (quiet_log _ _ (mv_quiet _ _ _ _ _ M4)) as E4. split_and!.
    + exact Q.
    + split; [by rewrite (hd_log _ _ Q)|by rewrite (hd_log _ _ Q)|by rewrite E4|].
      intros j b Hb. rewrite E4. apply B3; [by eapply lookup_lt_Some|done].
    + eapply view_ext; [exact V4|done| | |].
      * intros x. unfold R'. destruct (decide (x = st)) as [->|]; [|by rewrite !fn_lookup_insert_ne].
        rewrite !fn_lookup_insert, Rst. lia.
      * intros x. unfold H'. destruct (decide (x = st)) as [->|]; [|by rewrite !fn_lookup_insert_ne].
        by rewrite fn_lookup_insert.
      * unfold n', R'. rewrite fn_lookup_insert, Rst. unfold nz. simpl. lia.
    + destruct W3 as [E1 E2]. simpl in E1. rewrite app_nil_r in E2. apply wrote_nil.
      * by rewrite D4, E1, D1.
      * by rewrite W4, E2, W1.
Qed.
End heads.

(** ** Whole loops *)

(** The transaction [L] fits the log at [st] and leaves it alone. *)
Record trans_ok (st : Z) (L : list Z) : Prop := {
  tr_nodup : NoDup L;
  tr_range : Forall (fun b => 0 <= b < 2 ^ 31) L;
  tr_size : Z.of_nat (length L) < LOGSIZE;
  tr_start : 0 <= st /\ st + LOGSIZE < 2 ^ 31;
  tr_home b : b ∈ L -> ~ (st <= b < st + LOGSIZE)
}.

Definition log_block (st : Z) (i : nat) : Z := st + Z.of_nat i + 1.

(** The writes into the log and the writes home. *)
Definition log_ws (st : Z) (L : list Z) (C : Z -> block) : list (Z * block) :=
  imap (fun i b => (log_block st i, C b)) L.
Definition home_ws (st : Z) (L : list Z) (C : Z -> block) : list (Z * block) :=
  imap (fun i b => (b, C (log_block st i))) L.

Lemma log_ws_fst st L C b : b ∈ (log_ws st L C).*1 -> exists i, (i < length L)%nat /\ b = log_block st i.
Proof.
  rewrite list_elem_of_fmap. intros ([x v] & -> & H). unfold log_ws in H.
  apply list_elem_of_lookup in H as [i H]. rewrite list_lookup_imap in H.
  destruct (L !! i) eqn:E; [|done]. simpl in H. injection H as <- <-.
  exists i. split; [by eapply lookup_lt_Some|done].
Qed.

Lemma home_ws_fst st L C : (home_ws st L C).*1 = L.
Proof.
  apply list_eq. intros i. rewrite list_lookup_fmap. unfold home_ws. rewrite list_lookup_imap.
  by destruct (L !! i).
Qed.

Lemma not_log_block st L b i :
  trans_ok st L -> b ∈ L -> (i < length L)%nat -> b <> log_block st i.
Proof.
  intros T Hb Hi ->. apply (tr_home _ _ T _ Hb). pose proof (tr_size _ _ T). unfold log_block. lia.
Qed.

(** Reference counts once the blocks of [l] are released. *)
Definition zeroed (l : list Z) (R : Z -> Z) (b : Z) : Z := if decide (b ∈ l) then 0 else R b.

Section loops.
Context `{HD : DiskOk}.
Context (me : nat) (pid d st : Z) (L : list Z).
Hypothesis HT : trans_ok st L.

Abbreviation view := (view me pid d).

Lemma trans_lookup k b : L !! k = Some b ->
  0 <= st /\ log_block st k < 2 ^ 31 /\ 0 <= b < 2 ^ 31 /\ b <> log_block st k /\ (k < length L)%nat.
Proof using HT.
  intros Hk. pose proof (lookup_lt_Some _ _ _ Hk) as Hlt. destruct (tr_start _ _ HT) as [H1 H2].
  pose proof (tr_size _ _ HT). unfold log_block. split_and!; try lia.
  - pose proof (tr_range _ _ HT) as F. rewrite Forall_lookup in F. by apply (F k).
  - pose proof (tr_range _ _ HT) as F. rewrite Forall_lookup in F. by apply (F k).
  - apply (not_log_block st L b k HT); [by eapply list_elem_of_lookup_2|done].
Qed.

Lemma write_log_run C R n s :
  view C R unheld n s -> log_at st d L s -> (n < NBUF)%nat ->
  (forall b, b ∈ L -> R b = 1) -> (forall i, (i < length L)%nat -> R (log_block st i) = 0) ->
  exists s', write_log s = Ret tt s' /\ quiet s s' /\
    view (fapply (log_ws st L C) C) R unheld n s' /\ wrote (log_ws st L C) s s'.
Proof using HD HT.
  intros V LA Hn RL RS. set (ws := log_ws st L C).
  assert (Lw : length ws = length L) by apply length_imap.
  destruct (for_lh_run (fun k t => quiet s t /\ view (fapply (take k ws) C) R unheld n t /\
              wrote (take k ws) s t) (length L) write_one)
    with (fuel := lh_fuel) (i := 0%nat) (s := s) as (s' & E & Q & V' & W).
  - intros k t (Q & _). by rewrite (quiet_log s t Q), (la_n _ _ _ _ LA).
  - intros k t Hk (Q & V' & W). destruct (lookup_lt_is_Some_2 _ _ Hk) as [b Hb].
    destruct (trans_lookup k b Hb) as (B1 & B2 & B3 & B4 & B5).
    assert (Hin : b ∈ L) by (by eapply list_elem_of_lookup_2).
    destruct (write_one_run me pid d st _ R n t L k b V' (log_at_quiet _ _ _ _ _ Q LA) Hb
      B1 B2 B3 B4 (RS k Hk) (RL b Hin) Hn) as (t' & E' & Q' & V'' & W').
    assert (Cb : fapply (take k ws) C b = C b).
    { apply fapply_other. intros Hx. rewrite fmap_take in Hx. apply elem_of_take in Hx as (i & Hx & _).
      apply list_elem_of_lookup_2, log_ws_fst in Hx as (i' & Hi' & ->).
      by apply (not_log_block st L _ i' HT Hin Hi'). }
    assert (Et : take (S k) ws = take k ws ++ [(log_block st k, C b)]).
    { apply take_S_r. unfold ws, log_ws. by rewrite list_lookup_imap, Hb. }
    exists t'. rewrite Cb in V'', W'. split_and!; [exact E'|by etransitivity| |].
    + rewrite Et, fapply_app. exact V''.
    + rewrite Et. by eapply wrote_app.
  - pose proof (tr_size _ _ HT). unfold lh_fuel, LOGSIZE, MAXOPBLOCKS in *. lia.
  - lia.
  - split_and!; [reflexivity|done|by apply wrote_nil].
  - exists s'. rewrite take_ge in V', W by lia. split_and!; try done.
Qed.

Lemma install_run (rec : bool) C R n s :
  view C R unheld n s -> log_at st d L s -> (n + (if rec then 1 else 0) < NBUF)%nat ->
  (length L <= n \/ rec = true)%nat ->
  (forall b, b ∈ L -> R b = if rec then 0 else 1) ->
  (forall i, (i < length L)%nat -> R (log_block st i) = 0) ->
  exists s', install_trans rec s = Ret tt s' /\ quiet s s' /\
    view (fapply (home_ws st L C) C) (zeroed L R) unheld (n - if rec then 0 else length L) s' /\
    wrote (home_ws st L C) s s'.
Proof using HD HT.
  intros V LA Hn Hbusy RL RS. set (ws := home_ws st L C).
  assert (Lw : length ws = length L) by apply length_imap.
  destruct (for_lh_run (fun k t => quiet s t /\ wrote (take k ws) s t /\
      view (fapply (take k ws) C) (zeroed (take k L) R) unheld (n - if rec then 0 else k) t)
      (length L) (install_one rec))
    with (fuel := lh_fuel) (i := 0%nat) (s := s) as (s' & E & Q & W & V').
  - intros k t (Q & _). by rewrite (quiet_log s t Q), (la_n _ _ _ _ LA).
  - intros k t Hk (Q & W & V'). destruct (lookup_lt_is_Some_2 _ _ Hk) as [b Hb].
    destruct (trans_lookup k b Hb) as (B1 & B2 & B3 & B4 & B5).
    assert (Hin : b ∈ L) by (by eapply list_elem_of_lookup_2).
    assert (Hnew : b ∉ take k L).
    { intros Hx. apply elem_of_take in Hx as (j & Hj & Hlt).
      pose proof (NoDup_lookup _ _ _ _ (tr_nodup _ _ HT) Hb Hj). lia. }
    assert (Hlb : log_block st k ∉ L).
    { intros Hx. by apply (not_log_block st L _ k HT Hx Hk). }
    assert (Htk : forall x, x ∈ take k L -> x ∈ L).
    { intros x Hx. apply elem_of_take in Hx as (j & Hj & _). by eapply list_elem_of_lookup_2. }
    destruct (install_one_run me pid d st rec _ _ _ t L k b V' (log_at_quiet _ _ _ _ _ Q LA) Hb
      B1 B2 B3 B4) as (t' & E' & Q' & V'' & W').
    { unfold zeroed. rewrite decide_False by auto. by apply RS. }
    { unfold zeroed. rewrite decide_False by done. by apply RL. }
    { destruct rec; lia. }
    assert (Cb : fapply (take k ws) C (log_block st k) = C (log_block st k)).
    { apply fapply_other. rewrite fmap_take. unfold ws. rewrite home_ws_fst. auto. }
    fold (log_block st k) in V'', W'.
    assert (Et : take (S k) ws = take k ws ++ [(b, C (log_block st k))]).
    { apply take_S_r. unfold ws, home_ws. by rewrite list_lookup_imap, Hb. }
    exists t'. rewrite Cb in V'', W'. split_and!; [exact E'|by etransitivity| |].
    + rewrite Et. by eapply wrote_app.
    + rewrite Et, fapply_app. eapply view_ext; [exact V''|done| |done|].
      * intros x. unfold zeroed. rewrite (take_S_r L k b Hb).
        destruct (decide (x = b)) as [->|Hxb].
        -- rewrite fn_lookup_insert, decide_True; [done|]. rewrite elem_of_app. right. left.
        -- rewrite fn_lookup_insert_ne by done.
           destruct (decide (x ∈ take k L)) as [D|D], (decide (x ∈ take k L ++ [b])) as [D'|D'];
             rewrite elem_of_app, list_elem_of_singleton in D'; tauto.
      * destruct rec; lia.
  - pose proof (tr_size _ _ HT). unfold lh_fuel, LOGSIZE, MAXOPBLOCKS in *. lia.
  - lia.
  - split_and!; [reflexivity|by apply wrote_nil|]. rewrite !take_0.
    eapply view_ext; [exact V|done| |done|destruct rec; lia].
    intros x. unfold zeroed. rewrite decide_False; [done|]. apply not_elem_of_nil.
  - exists s'. rewrite (take_ge ws) in V', W by lia. rewrite (take_ge L) in V' by lia.
    split_and!; try done.
Qed.
End loops.

(** ** Commit and recovery *)

(** Every write of a commit, in order: the log, the header, the home
    locations, the erased header. *)
Definition commit_ws (st : Z) (L : list Z) (C : Z -> block) : list (Z * block) :=
  log_ws st L C ++ [(st, encode L (C st))] ++ ((fun b => (b, C b)) <$> L) ++
  [(st, encode [] (encode L (C st)))].

Definition recover_ws (st : Z) (L : list Z) (C : Z -> block) : list (Z * block) :=
  home_ws st L C ++ [(st, encode [] (C st))].

Lemma commit_ws_ext st L f g : (forall b, f b = g b) -> commit_ws st L f = commit_ws st L g.
Proof.
  intros E. unfold commit_ws, log_ws. rewrite E. f_equal; [|f_equal; f_equal].
  - apply imap_ext. intros i x _. by rewrite E.
  - apply list_fmap_ext. intros i x _. by rewrite E.
Qed.

Lemma log_at_set_n st d L s : log_at st d L s -> log_at st d [] (set_log (set_n 0 (k_log s)) s).
Proof. intros []. split; try done. Qed.

Lemma header_only_set_n v s : header_only s (set_log (set_n v (k_log s)) s).
Proof. split; [done|done|reflexivity]. Qed.

Lemma wrote_set_log ws lg s s' : wrote ws s s' -> wrote ws s (set_log lg s').
Proof. done. Qed.

Lemma fapply_log_ws st L C i b :
  trans_ok st L -> L !! i = Some b -> fapply (log_ws st L C) C (log_block st i) = C b.
Proof.
  intros HT Hi. apply fapply_in.
  - apply NoDup_alt. intros j k x. rewrite !list_lookup_fmap. unfold log_ws.
    rewrite !list_lookup_imap. destruct (L !! j), (L !! k); simpl; try done.
    intros [= <-] [= E]. unfold log_block in E. lia.
  - apply (list_elem_of_lookup_2 _ i). unfold log_ws. by rewrite list_lookup_imap, Hi.
Qed.

Lemma home_ws_logged st L C :
  trans_ok st L ->
  home_ws st L (<[st := encode L (C st)]> (fapply (log_ws st L C) C)) = (fun b => (b, C b)) <$> L.
Proof.
  intros HT. apply list_eq. intros i. unfold home_ws. rewrite list_lookup_imap, list_lookup_fmap.
  destruct (L !! i) as [b|] eqn:E; simpl; [|done]. do 2 f_equal.
  rewrite fn_lookup_insert_ne by (unfold log_block; lia). by apply fapply_log_ws.
Qed.

Section commit.
Context `{HD : DiskOk}.
Context (me : nat) (pid d st : Z) (L : list Z).
Hypothesis HT : trans_ok st L.

Abbreviation view := (view me pid d).

Lemma st_not_home : st ∉ L.
Proof using HT. intros H. apply (tr_home _ _ HT _ H). unfold LOGSIZE, MAXOPBLOCKS. lia. Qed.

Lemma st_range : 0 <= st < 2 ^ 31.
Proof using HT. pose proof (tr_start _ _ HT). unfold LOGSIZE, MAXOPBLOCKS in *. lia. Qed.

Lemma st_not_logged (C : Z -> block) : fapply (log_ws st L C) C st = C st.
Proof.
  apply fapply_other. intros (i & _ & E)%log_ws_fst. unfold log_block in E. lia.
Qed.

Lemma commit_run C R n s :
  view C R unheld n s -> log_at st d L s -> L <> [] -> (length L <= n < NBUF)%nat ->
  (forall b, b ∈ L -> R b = 1) -> (forall b, st <= b < st + LOGSIZE -> R b = 0) ->
  exists s', commit s = Ret tt s' /\ header_only s s' /\ log_at st d [] s' /\
    view (fapply (commit_ws st L C) C) (zeroed L R) unheld (n - length L) s' /\
    wrote (commit_ws st L C) s s'.
Proof using HD HT.
  intros V LA Hne Hn RL RS. pose proof st_range as Hst. pose proof (tr_size _ _ HT) as Hsz.
  assert (RB : forall i, (i < length L)%nat -> R (log_block st i) = 0).
  { intros i Hi. apply RS. unfold log_block. lia. }
  assert (Rst : R st = 0) by (apply RS; unfold LOGSIZE, MAXOPBLOCKS; lia).
  unfold commit. rewrite kbind_gets, (la_n _ _ _ _ LA).
  destruct (Z.gtb_spec (Z.of_nat (length L)) 0); [|destruct L; simpl in *; done || lia].
  destruct (write_log_run me pid d st L HT C R n s V LA) as (s1 & E1 & Q1 & V1 & W1); [lia|done..|].
  krun E1. pose proof (log_at_quiet _ _ _ _ _ Q1 LA) as LA1.
  destruct (write_head_run me pid d st Hst _ R n s1 L V1 LA1) as (s2 & E2 & Q2 & V2 & W2); [lia|done|lia|].
  krun E2. pose proof (log_at_quiet _ _ _ _ _ Q2 LA1) as LA2. rewrite st_not_logged in V2, W2.
  destruct (install_run me pid d st L HT false _ R n s2 V2 LA2) as (s3 & E3 & Q3 & V3 & W3);
    [lia|lia|done|done|].
  krun E3. rewrite home_ws_logged in V3, W3 by done.
  pose proof (log_at_quiet _ _ _ _ _ Q3 LA2) as LA3. unfold put_log. rewrite kbind_modify.
  destruct (write_head_run me pid d st Hst _ _ _ _ [] (view_log _ _ _ _ _ _ _ _ _ V3)
    (log_at_set_n _ _ _ _ LA3)) as (s4 & E4 & Q4 & V4 & W4).
  { unfold LOGSIZE, MAXOPBLOCKS. simpl. lia. }
  { unfold zeroed. rewrite decide_False; [done|exact st_not_home]. }
  { lia. }
  assert (Cst : fapply ((fun b => (b, C b)) <$> L)
            (<[st := encode L (C st)]> (fapply (log_ws st L C) C)) st = encode L (C st)).
  { rewrite fapply_other, fn_lookup_insert; [done|]. rewrite <- list_fmap_compose.
    rewrite list_fmap_id. exact st_not_home. }
  rewrite Cst in V4, W4. exists s4. split; [exact E4|]. split_and!.
  - eapply header_only_trans; [apply header_only_quiet, Q1|].
    eapply header_only_trans; [apply header_only_quiet, Q2|].
    eapply header_only_trans; [apply header_only_quiet, Q3|].
    eapply header_only_trans; [apply header_only_set_n|apply header_only_quiet, Q4].
  - eapply log_at_quiet; [exact Q4|]. by eapply log_at_set_n.
  - unfold commit_ws. rewrite !fapply_app. exact V4.
  - unfold commit_ws. eapply wrote_app; [exact W1|]. eapply wrote_app; [exact W2|].
    eapply wrote_app; [apply W3|exact W4].
Qed.

Lemma recover_run C R n s :
  view C R unheld n s -> log_start (k_log s) = st -> log_dev (k_log s) = d ->
  Z.of_nat (length (lh_block (log_lh (k_log s)))) = LOGSIZE -> head_ok (C st) L ->
  (n + 1 < NBUF)%nat -> (forall b, b ∈ L -> R b = 0) ->
  (forall b, st <= b < st + LOGSIZE -> R b = 0) ->
  exists s', recover_from_log s = Ret tt s' /\ header_only s s' /\ log_at st d [] s' /\
    view (fapply (recover_ws st L C) C) R unheld n s' /\ wrote (recover_ws st L C) s s'.
Proof using HD HT.
  intros V Est Ed Elen HO Hn RL RS. pose proof st_range as Hst. pose proof (tr_size _ _ HT) as Hsz.
  assert (RB : forall i, (i < length L)%nat -> R (log_block st i) = 0).
  { intros i Hi. apply RS. unfold log_block. lia. }
  assert (Rst : R st = 0) by (apply RS; unfold LOGSIZE, MAXOPBLOCKS; lia).
  unfold recover_from_log.
  destruct (read_head_run me pid d st Hst C R n s L V Est Ed Elen HO Rst) as (s1 & E1 & Q1 & LA1 & V1 & W1);
    [lia|]. krun E1.
  destruct (install_run me pid d st L HT true C R n s1 V1 LA1) as (s2 & E2 & Q2 & V2 & W2);
    [lia|by right|done|done|].
  krun E2. pose proof (log_at_quiet _ _ _ _ _ Q2 LA1) as LA2. unfold put_log. rewrite kbind_modify.
  assert (RZ : forall b, zeroed L R b = R b).
  { intros b. unfold zeroed. case_decide; [symmetry; by apply RL|done]. }
  destruct (write_head_run me pid d st Hst _ _ _ _ [] (view_log _ _ _ _ _ _ _ _ _ V2)
    (log_at_set_n _ _ _ _ LA2)) as (s3 & E3 & Q3 & V3 & W3).
  { unfold LOGSIZE, MAXOPBLOCKS. simpl. lia. }
  { by rewrite RZ. }
  { lia. }
  assert (Cst : fapply (home_ws st L C) C st = C st).
  { apply fapply_other. rewrite home_ws_fst. exact st_not_home. }
  rewrite Cst in V3, W3. exists s3. split; [exact E3|]. split_and!.
  - eapply header_only_trans; [exact Q1|].
    eapply header_only_trans; [apply header_only_quiet, Q2|].
    eapply header_only_trans; [apply header_only_set_n|apply header_only_quiet, Q3].
  - eapply log_at_quiet; [exact Q3|]. by eapply log_at_set_n.
  - unfold recover_ws. rewrite fapply_app. eapply view_ext; [exact V3|done|done|done|lia].
  - unfold recover_ws. pose proof (wrote_app _ _ _ _ _ W1 W2) as W. simpl in W.
    eapply wrote_app; [exact W|exact W3].
Qed.
End commit.

(** ** Crashes *)

Definition in_log (st b : Z) : Prop := st <= b < st + LOGSIZE.

(** Recovery from the header's point of view: [g] is what it makes of [f]. *)
Definition recovers (st : Z) (f g : Z -> block) : Prop :=
  exists L, trans_ok st L /\ head_ok (f st) L /\ forall b, fapply (recover_ws st L f) f b = g b.

Lemma recover_nil st f b : ~ in_log st b -> fapply (recover_ws st [] f) f b = f b.
Proof.
  intros Hb. apply fapply_other. unfold recover_ws, home_ws. simpl.
  rewrite list_elem_of_singleton. intros ->. apply Hb. unfold in_log, LOGSIZE, MAXOPBLOCKS. lia.
Qed.

Lemma trans_le st L : trans_ok st L -> Z.of_nat (length L) <= LOGSIZE.
Proof. intros T. pose proof (tr_size _ _ T). lia. Qed.

Lemma trans_nil st L : trans_ok st L -> trans_ok st [].
Proof.
  intros T. split; [constructor|constructor|unfold LOGSIZE, MAXOPBLOCKS; simpl; lia|apply T|].
  intros b Hb. by apply elem_of_nil in Hb.
Qed.

(** Recovery of a committed header copies every logged block home. *)
Lemma recover_home st L f b : trans_ok st L -> ~ in_log st b ->
  fapply (recover_ws st L f) f b =
  match list_find (eq b) L with Some (i, _) => f (log_block st i) | None => f b end.
Proof.
  intros T Hb. unfold recover_ws. rewrite fapply_app.
  change (fapply [(st, ?v)] ?g) with (<[st := v]> g).
  rewrite fn_lookup_insert_ne by (intros <-; apply Hb; unfold in_log, LOGSIZE, MAXOPBLOCKS; lia).
  destruct (list_find (eq b) L) as [[i x]|] eqn:E.
  - apply list_find_Some in E as (E & <- & _). apply fapply_in.
    + rewrite home_ws_fst. apply T.
    + apply (list_elem_of_lookup_2 _ i). unfold home_ws. by rewrite list_lookup_imap, E.
  - apply fapply_other. rewrite home_ws_fst. apply list_find_None in E.
    rewrite Forall_forall in E. intros Hin. by apply (E b Hin).
Qed.

Lemma take_app_cases {A} p (l1 l2 : list A) :
  (p <= length l1)%nat /\ take p (l1 ++ l2) = take p l1 \/
  (length l1 < p)%nat /\ take p (l1 ++ l2) = l1 ++ take (p - length l1) l2.
Proof.
  destruct (decide (p <= length l1)%nat) as [H|H].
  - left. split; [done|]. by rewrite take_app_le.
  - right. split; [lia|]. by rewrite take_app_ge by lia.
Qed.

Lemma fapply_take_other p ws f b : b ∉ ws.*1 -> fapply (take p ws) f b = f b.
Proof.
  intros H. apply fapply_other. rewrite fmap_take. intros Hx.
  apply elem_of_take in Hx as (i & Hi & _). apply H. by eapply list_elem_of_lookup_2.
Qed.

Lemma st_in_log st : in_log st st.
Proof. unfold in_log, LOGSIZE, MAXOPBLOCKS. lia. Qed.

Lemma list_find_In (b : Z) (l : list Z) : b ∈ l -> exists i, list_find (eq b) l = Some (i, b) /\ l !! i = Some b.
Proof.
  intros Hb. destruct (list_find_elem_of (eq b) l b Hb eq_refl) as [[i x] E].
  exists i. rewrite E. apply list_find_Some in E as (E & <- & _). done.
Qed.

(** The disk after the first [p] writes of a commit that started from the
    disk [f] with the new contents [C], and what recovery makes of it. *)
Section crash.
Context (st : Z) (L : list Z) (f C : Z -> block).
Hypothesis HT : trans_ok st L.
Hypothesis Hst : C st = f st.
Hypothesis Hlen : length (f st) = Z.to_nat BSIZE.
Hypothesis Hempty : head_ok (f st) [].
Hypothesis Hrest : forall b, b ∉ L -> C b = f b.

Lemma home_not_log b i : ~ in_log st b -> (i < length L)%nat -> b <> log_block st i.
Proof.
  intros Hb Hi ->. apply Hb. unfold in_log, log_block. pose proof (tr_size _ _ HT). lia.
Qed.

Lemma not_in_log_ws b : ~ in_log st b -> b ∉ (log_ws st L C).*1.
Proof. intros Hb (i & Hi & E)%log_ws_fst. by apply (home_not_log b i). Qed.

Lemma fmap_pair_fst (l : list Z) : ((fun b => (b, C b)) <$> l).*1 = l.
Proof. rewrite <- list_fmap_compose. apply list_fmap_id. Qed.

(** The disk once the log and the header are written and [q] blocks home. *)
Let f1 := <[st := encode L (C st)]> (fapply (log_ws st L C) f).
Definition partly (q : nat) : Z -> block := fapply (take q ((fun b => (b, C b)) <$> L)) f1.

Lemma partly_st q : partly q st = encode L (C st).
Proof.
  unfold partly. rewrite fapply_take_other; [by unfold f1; rewrite fn_lookup_insert|].
  rewrite fmap_pair_fst. intros H. by apply (tr_home _ _ HT _ H), st_in_log.
Qed.

Lemma log_ws_ext_base (g h : Z -> block) i b : L !! i = Some b ->
  fapply (log_ws st L g) h (log_block st i) = g b.
Proof.
  intros Hi. apply fapply_in.
  - apply NoDup_alt. intros j k x. rewrite !list_lookup_fmap. unfold log_ws.
    rewrite !list_lookup_imap. destruct (L !! j), (L !! k); simpl; try done.
    intros [= <-] [= E]. unfold log_block in E. lia.
  - apply (list_elem_of_lookup_2 _ i). unfold log_ws. by rewrite list_lookup_imap, Hi.
Qed.

Lemma partly_log q i b : L !! i = Some b -> partly q (log_block st i) = C b.
Proof.
  intros Hi. unfold partly. pose proof (lookup_lt_Some _ _ _ Hi) as Hlt.
  rewrite fapply_take_other.
  - unfold f1. rewrite fn_lookup_insert_ne by (unfold log_block; lia). by apply log_ws_ext_base.
  - rewrite fmap_pair_fst. intros H. by apply (not_log_block st L _ i HT H Hlt).
Qed.

Lemma partly_other q b : ~ in_log st b -> b ∉ L -> partly q b = C b.
Proof.
  intros Hb HL. unfold partly. rewrite fapply_take_other by (by rewrite fmap_pair_fst).
  unfold f1. rewrite fn_lookup_insert_ne by (intros <-; apply Hb, st_in_log).
  rewrite fapply_other by (by apply not_in_log_ws). symmetry. by apply Hrest.
Qed.

Lemma partly_all b : ~ in_log st b -> partly (length L) b = C b.
Proof.
  intros Hb. destruct (decide (b ∈ L)) as [H|H]; [|by apply partly_other].
  unfold partly. rewrite take_ge by (rewrite length_fmap; lia). apply fapply_in.
  - rewrite fmap_pair_fst. apply HT.
  - apply list_elem_of_fmap. by exists b.
Qed.

Lemma commit_final b : ~ in_log st b -> fapply (commit_ws st L C) f b = C b.
Proof.
  intros Hb. unfold commit_ws. rewrite !fapply_app.
  change (fapply [(st, ?v)] ?h) with (<[st := v]> h).
  rewrite fn_lookup_insert_ne by (intros <-; apply Hb, st_in_log).
  rewrite <- (partly_all b Hb). unfold partly. by rewrite take_ge by (by rewrite length_fmap).
Qed.

(** What recovery makes of the disk after [p] writes. *)
Lemma crash_recovers p :
  let g := fapply (take p (commit_ws st L C)) f in
  exists L', trans_ok st L' /\ head_ok (g st) L' /\
    forall b, ~ in_log st b ->
      fapply (recover_ws st L' g) g b = if decide (p <= length L)%nat then f b else C b.
Proof using All.
  intros g. assert (Lw : length (log_ws st L C) = length L) by apply length_imap.
  unfold commit_ws in g. destruct (take_app_cases p (log_ws st L C)
    ([(st, encode L (C st))] ++ ((fun b => (b, C b)) <$> L) ++ [(st, encode [] (encode L (C st)))]))
    as [[Hp E]|[Hp E]].
  - exists []. unfold g. rewrite E.
    assert (G : forall b, ~ in_log st b \/ b = st -> fapply (take p (log_ws st L C)) f b = f b).
    { intros b Hb. apply fapply_take_other. intros (i & Hi & Ei)%log_ws_fst. destruct Hb as [Hb| ->].
      - by apply (home_not_log b i).
      - unfold log_block in Ei. lia. }
    split_and!; [by eapply trans_nil|rewrite G by (by right); done|].
    intros b Hb. rewrite recover_nil, decide_True by (done || lia). apply G. by left.
  - unfold g. rewrite E. rewrite fapply_app. clear g E.
    destruct (p - length (log_ws st L C))%nat as [|q] eqn:Eq; [lia|].
    cbn [app take].
    change (fapply ((st, ?v) :: ?ws) ?h) with (fapply ws (<[st := v]> h)). fold f1.
    destruct (take_app_cases q ((fun b => (b, C b)) <$> L) [(st, encode [] (encode L (C st)))])
      as [[Hq E]|[Hq E]]; rewrite E; rewrite length_fmap in Hq.
    + exists L. fold (partly q). split_and!; [done| |].
      * rewrite partly_st, Hst. apply head_ok_encode; [done|exact (trans_le st L HT)|apply HT].
      * intros b Hb. rewrite recover_home, decide_False by (done || lia). destruct (decide (b ∈ L)) as [H|H].
        -- destruct (list_find_In b L H) as (i & -> & Hi). by apply partly_log.
        -- destruct (list_find (eq b) L) as [[i x]|] eqn:F; [|by apply partly_other].
           apply list_find_Some in F as (F & <- & _). by apply list_elem_of_lookup_2 in F.
    + rewrite fapply_app. rewrite (take_ge [_]) by (rewrite length_fmap; simpl; lia).
      change (fapply [(st, ?v)] ?h) with (<[st := v]> h).
      assert (E2 : fapply ((fun b => (b, C b)) <$> L) f1 = partly (length L)).
      { unfold partly. by rewrite take_ge by (by rewrite length_fmap). }
      rewrite E2. exists []. split_and!; [by eapply trans_nil| |].
      * rewrite fn_lookup_insert. apply head_ok_nil. rewrite Hst. apply length_encode; [done|exact (trans_le st L HT)].
      * intros b Hb. rewrite recover_nil, decide_False by (done || lia).
        rewrite fn_lookup_insert_ne by (intros <-; apply Hb, st_in_log). by apply partly_all.
Qed.
End crash.

Section theorems.
Context `{HD : DiskOk}.
Context (me : nat) (pid d : Z).

Lemma idle_view s : idle me pid d s -> view me pid d (dget (k_disk s)) (fun _ => 0) unheld 0 s.
Proof.
  intros I. split; try apply I. intros b. by eapply idle_clean.
Qed.

Lemma view_idle C n s : view me pid d C (fun _ => 0) unheld n s -> n = 0%nat -> idle me pid d s.
Proof. intros [X I _ VR VH VB] ->. by split. Qed.

(** The state [initlog] hands to [recover_from_log]. *)
Definition log_set (st size : Z) (s : kst) : kst :=
  set_log (mklog st size (log_outstanding (k_log s)) (log_committing (k_log s)) d (log_lh (k_log s)))
    (set_locks (<[LKlog := lock_free]> (k_locks s)) s).

Lemma initlog_run sb s L :
  let st := sb_logstart sb in
  idle me pid d (set_locks (<[LKlog := lock_free]> (k_locks s)) s) ->
  Z.of_nat (length (lh_block (log_lh (k_log s)))) = LOGSIZE ->
  trans_ok st L -> head_ok (dget (k_disk s) st) L ->
  exists s', initlog d sb s = Ret tt s' /\ idle me pid d s' /\ log_at st d [] s' /\
    header_only (log_set st (s32 (sb_nlog sb)) s) s' /\
    wrote (recover_ws st L (dget (k_disk s))) s s'.
Proof using HD.
  intros st I Hlen T HO. pose proof (st_range st L T) as Hr.
  unfold initlog. change (sizeof_logheader >=? BSIZE) with false. cbv iota.
  unfold initlock, put_lock, put_log. rewrite !kbind_modify. simpl. fold st.
  rewrite s32_small by lia.
  change (set_log _ _) with (log_set st (s32 (sb_nlog sb)) s).
  destruct (recover_run me pid d st L T (dget (k_disk s)) (fun _ => 0) 0
    (log_set st (s32 (sb_nlog sb)) s)) as (s' & R & Q & LA & V & W); try done.
  - apply view_log. exact (idle_view _ I).
  - unfold NBUF. lia.
  - exists s'. split_and!; [exact R| |exact LA|exact Q|exact W]. by eapply view_idle.
Qed.

(** A transaction about to commit: nobody is in a file-system call, the
    blocks of [L] are pinned with their new contents, every other block is as
    on disk, and the header on disk is empty. *)
Record ready (st : Z) (L : list Z) (s : kst) : Prop := {
  rd_trans : trans_ok st L;
  rd_log : log_at st d L s;
  rd_view : view me pid d (content d s) (fun b => if decide (b ∈ L) then 1 else 0) unheld
              (length L) s;
  rd_room : (length L < NBUF)%nat;
  rd_head : length (dget (k_disk s) st) = Z.to_nat BSIZE /\ head_ok (dget (k_disk s) st) []
}.

Lemma ready_commit st L s : ready st L s -> L <> [] ->
  exists s', commit s = Ret tt s' /\ header_only s s' /\ log_at st d [] s' /\
    idle me pid d s' /\ wrote (commit_ws st L (content d s)) s s'.
Proof using HD.
  intros [T LA V Hn _] Hne.
  destruct (commit_run me pid d st L T _ _ _ s V LA Hne) as (s' & R & Q & LA' & V' & W).
  - lia.
  - intros b Hb. by rewrite decide_True.
  - intros b Hb. rewrite decide_False; [done|]. intros H. by apply (tr_home _ _ T _ H).
  - exists s'. split_and!; try done. eapply view_idle; [|exact (Nat.sub_diag (length L))].
    eapply view_ext; [exact V'|done| |done|done].
    intros b. unfold zeroed. by case_decide.
Qed.

Lemma ready_rest st L s b : ready st L s -> b ∉ L -> content d s b = dget (k_disk s) b.
Proof.
  intros [T LA V Hn _] Hb. eapply (view_clean _ _ _ _ _ _ _ _ b V). by rewrite decide_False.
Qed.

Lemma ready_head st L s : ready st L s -> content d s st = dget (k_disk s) st.
Proof.
  intros Hr. apply (ready_rest st L); [done|]. intros H.
  apply (tr_home _ _ (rd_trans _ _ _ Hr) _ H). apply st_in_log.
Qed.

(** [commit] writes exactly the log blocks, then the header, then the home
    blocks, then the empty header, in this order; afterwards every block of
    the transaction is on disk at home, the log is empty and no buffer is
    pinned. *)
Theorem commit_installs st L s :
  ready st L s -> L <> [] ->
  exists s', commit s = Ret tt s' /\
    k_writes s' = k_writes s ++ commit_ws st L (content d s) /\
    (forall b, ~ in_log st b -> dget (k_disk s') b = content d s b) /\
    lh_n (log_lh (k_log s')) = 0 /\ (forall b, refs d s' b = 0).
Proof using HD.
  intros Hr Hne. destruct (ready_commit st L s Hr Hne) as (s' & R & Q & LA & I & W).
  exists s'. split_and!; [exact R|apply W| |apply LA|apply I].
  intros b Hb. rewrite (proj1 W), dget_dapply. destruct (rd_head _ _ _ Hr) as [H1 H2].
  apply commit_final; eauto using rd_trans, ready_rest, ready_head.
Qed.

(** Recovery from the disk left by the first [p] writes of the commit. *)
Lemma ready_crash st L s p sb s1 :
  ready st L s -> sb_logstart sb = st ->
  idle me pid d (set_locks (<[LKlog := lock_free]> (k_locks s1)) s1) ->
  Z.of_nat (length (lh_block (log_lh (k_log s1)))) = LOGSIZE ->
  k_disk s1 = dapply (take p (commit_ws st L (content d s))) (k_disk s) ->
  exists s2, initlog d sb s1 = Ret tt s2 /\ lh_n (log_lh (k_log s2)) = 0 /\ idle me pid d s2 /\
    forall b, ~ in_log st b ->
      dget (k_disk s2) b = if decide (p <= length L)%nat then dget (k_disk s) b else content d s b.
Proof using HD.
  intros Hr Est I Hlen Ed. destruct (rd_head _ _ _ Hr) as [H1 H2].
  destruct (crash_recovers st L (dget (k_disk s)) (content d s)) with (p := p)
    as (L' & T' & HO' & G); eauto using rd_trans, ready_rest, ready_head.
  assert (Ef : forall b, dget (k_disk s1) b =
               fapply (take p (commit_ws st L (content d s))) (dget (k_disk s)) b).
  { intros b. rewrite Ed. apply dget_dapply. }
  destruct (initlog_run sb s1 L') as (s2 & R & I2 & LA & _ & W); rewrite ?Est; try done.
  { by rewrite Ef. }
  exists s2. split_and!; [exact R|apply LA|exact I2|].
  intros b Hb. rewrite <- (G b Hb). rewrite (proj1 W), dget_dapply, Est.
  rewrite !recover_home by done. by destruct (list_find _ _) as [[i x]|]; rewrite Ef.
Qed.

(** The commit is atomic.  Let the power fail after any number [p] of the
    commit's disk writes, and let the kernel boot again from that disk.  Then
    [initlog] returns; every block outside the log has its old contents if the
    header had not been written yet, and its new contents otherwise, for all
    blocks of the transaction at once; and the log is empty. *)
Theorem commit_crash_atomic st L s p sb s1 :
  ready st L s -> L <> [] -> sb_logstart sb = st ->
  idle me pid d (set_locks (<[LKlog := lock_free]> (k_locks s1)) s1) ->
  Z.of_nat (length (lh_block (log_lh (k_log s1)))) = LOGSIZE ->
  k_disk s1 = dapply (take p (commit_ws st L (content d s))) (k_disk s) ->
  (exists s', commit s = Ret tt s' /\ k_writes s' = k_writes s ++ commit_ws st L (content d s)) /\
  (exists s2, initlog d sb s1 = Ret tt s2 /\ lh_n (log_lh (k_log s2)) = 0 /\ idle me pid d s2 /\
     forall b, ~ in_log st b ->
       dget (k_disk s2) b = if decide (p <= length L)%nat then dget (k_disk s) b else content d s b).
Proof using HD.
  intros Hr Hne Est I Hlen Ed. split; [|by apply (ready_crash st L s p sb s1)].
  destruct (ready_commit st L s Hr Hne) as (s' & R & _ & _ & _ & W). exists s'.
  split; [exact R|apply W].
Qed.
End theorems.

(** ** [log_write] *)

Section log_write.
Context `{HD : DiskOk}.
Context (me : nat) (pid d st : Z).

Abbreviation view := (view me pid d).
Abbreviation own := (own pid d).

(** The search stops at the block's slot, or at the first free one. *)
Lemma absorb_run L b i fuel k s :
  log_at st d L s -> Forall (fun b => 0 <= b < 2 ^ 31) L -> b_blockno (buf_at s i) = b ->
  (k <= length L)%nat -> (length L - k < fuel)%nat -> (forall j, (j < k)%nat -> L !! j <> Some b) ->
  absorb fuel i (Z.of_nat k) s =
  Ret (Z.of_nat (match list_find (eq b) L with Some (j, _) => j | None => length L end)) s.
Proof.
  intros LA HL Hb. revert k. induction fuel as [|fuel IH]; intros k Hk Hf Hj; [lia|].
  cbn [absorb]. rewrite kbind_gets, (la_n _ _ _ _ LA).
  destruct (Z.ltb_spec (Z.of_nat k) (Z.of_nat (length L))) as [Hlt|Hge].
  - destruct (lookup_lt_is_Some_2 L k) as [x Hx]; [lia|]. rewrite kbind_gets, Hb.
    rewrite (la_blk _ _ _ _ LA k x Hx). rewrite Forall_lookup in HL.
    rewrite u32_small by (pose proof (HL k x Hx); lia).
    destruct (Z.eqb_spec x b) as [->|Hne].
    + assert (list_find (eq b) L = Some (k, b)) as ->; [|done].
      apply list_find_Some. split_and!; [done|done|]. intros j y Hy Hlt' <-. by apply (Hj j).
    + replace (Z.of_nat k + 1) with (Z.of_nat (S k)) by lia. apply IH; [lia|lia|].
      intros j Hjk Hj'. destruct (decide (j = k)) as [->|]; [congruence|]. apply (Hj j); [lia|done].
  - assert (list_find (eq b) L = None) as ->.
    { apply list_find_None, Forall_forall. intros x Hx <-.
      apply list_elem_of_lookup in Hx as [j Hx]. pose proof (lookup_lt_Some _ _ _ Hx).
      apply (Hj j); [lia|done]. }
    unfold kret. do 2 f_equal. lia.
Qed.

(** [bpin] while [log.lock] is held. *)
Lemma bpin_locked i s t :
  ctx me pid s -> (exists lg, t = set_log lg (acquired LKlog s)) ->
  bpin i t = Ret tt (set_bufs (upd i takeref (k_bufs s)) t).
Proof.
  intros Hx [lg ->]. pose proof (cx_cpu _ _ _ Hx) as Hc. unfold bpin.
  assert (Hok : cpu_ok (set_log lg (acquired LKlog s))) by exact (acquired_ok LKlog s Hc).
  assert (Hf : is_free LKbcache (set_log lg (acquired LKlog s))).
  { unfold is_free. simpl. rewrite lookup_insert_ne by done. by apply (cx_locks _ _ _ Hx). }
  krun (acquire_run LKbcache _ Hok Hf). unfold put_buf. rewrite kbind_modify.
  rewrite (release_after LKbcache (set_log lg (acquired LKlog s))) by done.
  rewrite norm_nested; [reflexivity|done|].
  pose proof (acquired_noff LKlog s Hc) as E. destruct Hc as (_ & Hn & _).
  change (mycpu (set_log lg (acquired LKlog s))) with (mycpu (acquired LKlog s)). lia.
Qed.

(** The final [release], after the log became [lg] and the buffers [B]. *)
Lemma log_release lg B s :
  ctx me pid s ->
  exists s', release LKlog (set_log lg (set_bufs B (acquired LKlog s))) = Ret tt (set_log lg s') /\
             woke (set_bufs B s) s'.
Proof.
  intros Hx. pose proof (cx_cpu _ _ _ Hx) as Hc. exists (set_bufs B (norm s)). split.
  - rewrite (release_after LKlog s); try done. by apply (cx_locks _ _ _ Hx).
  - exact (woke_bufs _ _ _ (woke_norm s Hc)).
Qed.

Definition logged (b : Z) (L : list Z) : list Z := if decide (b ∈ L) then L else L ++ [b].

Lemma log_at_intro L lg s :
  log_start lg = st -> log_dev lg = d -> lh_n (log_lh lg) = Z.of_nat (length L) ->
  (forall i b, L !! i = Some b -> blk lg (Z.of_nat i) = b) -> log_at st d L (set_log lg s).
Proof. intros. by split. Qed.

(** The log after [log_write] of block [b]. *)
Lemma logged_at L b lg s :
  log_at st d L s -> b ∉ L -> 
  (forall j, blk lg (Z.of_nat j) = if (j =? length L)%nat then b else blk (k_log s) (Z.of_nat j)) ->
  log_start lg = st -> log_dev lg = d -> lh_n (log_lh lg) = Z.of_nat (length L) + 1 ->
  log_at st d (L ++ [b]) (set_log lg s).
Proof.
  intros [A1 A2 A3 A4] Hb Hblk E1 E2 E3. split; simpl; [done|done|rewrite length_app; simpl; lia|].
  intros j x Hx. rewrite Hblk. destruct (Nat.eqb_spec j (length L)) as [->|Hne].
  - rewrite lookup_app_r, Nat.sub_diag in Hx by lia. by injection Hx.
  - apply A4. rewrite lookup_app_l in Hx; [done|]. apply lookup_lt_Some in Hx.
    rewrite length_app in Hx. simpl in Hx. lia.
Qed.

Lemma log_write_run C R H n s L i b :
  view C R H n s -> own s i b -> log_at st d L s -> Forall (fun b => 0 <= b < 2 ^ 31) L ->
  0 <= b < 2 ^ 31 -> Z.of_nat (length (lh_block (log_lh (k_log s)))) = LOGSIZE ->
  Z.of_nat (length L) < LOGSIZE -> Z.of_nat (length L) < log_size (k_log s) - 1 ->
  1 <= log_outstanding (k_log s) -> R b + 1 < 2 ^ 32 ->
  exists s', log_write i s = Ret tt s' /\ (forall j b', own s j b' -> own s' j b') /\
    log_at st d (logged b L) s' /\
    view C (if decide (b ∈ L) then R else <[b := R b + 1]> R) H n s' /\ wrote [] s s' /\
    header_only s s'.
Proof using HD.
  intros V O LA HL Hb Hlen Hn1 Hn2 Ho Hr. pose proof (vw_ctx _ _ _ _ _ _ _ _ V) as Hx.
  pose proof (cx_cpu _ _ _ Hx) as Hc. destruct (proj1 O) as (Hi & _ & Ebn).
  pose proof (bio_len d s (vw_inv _ _ _ _ _ _ _ _ V)) as Hbl.
  unfold log_write. krun (acquire_run LKlog s Hc (cx_locks _ _ _ Hx LKlog eq_refl)).
  rewrite kbind_gets. change (k_log (acquired LKlog s)) with (k_log s). rewrite (la_n _ _ _ _ LA).
  destruct (Z.geb_spec (Z.of_nat (length L)) LOGSIZE); [lia|].
  destruct (Z.geb_spec (Z.of_nat (length L)) (log_size (k_log s) - 1)); [lia|]. simpl.
  destruct (Z.ltb_spec (log_outstanding (k_log s)) 1); [lia|].
  assert (LAt : log_at st d L (acquired LKlog s)) by (by eapply log_at_log; [|exact LA]).
  pose proof (absorb_run L b i lh_fuel 0 _ LAt HL Ebn ltac:(lia)
    ltac:(unfold lh_fuel, LOGSIZE, MAXOPBLOCKS in *; lia) ltac:(lia)) as RA.
  change (Z.of_nat 0) with 0 in RA. krun RA. rewrite kbind_gets.
  change (b_blockno (buf_at (acquired LKlog s) i)) with (b_blockno (buf_at s i)). rewrite Ebn, s32_small by lia.
  set (k := match list_find (eq b) L with Some (j, _) => j | None => length L end).
  assert (Hk : (k <= length L)%nat).
  { unfold k. destruct (list_find (eq b) L) as [[j x]|] eqn:E; [|lia].
    apply list_find_Some in E as (E & _). apply lookup_lt_Some in E. lia. }
  destruct (set_blk_run (Z.of_nat k) b (acquired LKlog s)) as (t & RB & HH & Et & En & Eb); [lia|done|].
  krun RB. set (lg := k_log t) in *. rewrite Et. rewrite kbind_gets.
  change (k_log (set_log lg (acquired LKlog s))) with lg. rewrite En.
  change (k_log (acquired LKlog s)) with (k_log s) in *. rewrite (la_n _ _ _ _ LA).
  destruct HH as [HH1 HH2 _]. fold lg in HH1, HH2.
  change (k_log (acquired LKlog s)) with (k_log s) in *.
  destruct (decide (b ∈ L)) as [Hin|Hnin].
  - destruct (list_find_In b L Hin) as (j & Ej & Hj). unfold k in *. rewrite Ej in *.
    pose proof (lookup_lt_Some _ _ _ Hj) as Hlt.
    destruct (Z.eqb_spec (Z.of_nat j) (Z.of_nat (length L))); [lia|]. rewrite kbind_kret.
    destruct (log_release lg (k_bufs s) s Hx) as (s' & RR & W). exists (set_log lg s').
    split; [exact RR|]. change (set_bufs (k_bufs s) s) with s in W.
    destruct (woke_eqs _ _ W) as (E1 & E2 & E3 & E4 & _).
    assert (Q : quiet s s').
    { split; [|intros x; unfold slock_at; by rewrite E1]. rewrite E1, E2, E3, E4. exact W. }
    split_and!.
    + intros j' b' Oj. unfold own, BioRules.own, cached, buf_at, slock_at in *. simpl.
      by rewrite E1, E2.
    + unfold logged. rewrite decide_True by done. apply (log_at_intro L lg).
      * rewrite HH1. apply LA.
      * rewrite HH1. apply LA.
      * rewrite En. apply LA.
      * intros x y Hy. rewrite Eb by lia. destruct (Z.eqb_spec (Z.of_nat x) (Z.of_nat j)).
        -- assert (x = j) as -> by lia. congruence.
        -- by apply LA.
    + apply view_log. by eapply view_woke.
    + by apply wrote_nil.
    + split; [done|done|]. destruct Q as [QW QS]. split; [exact (woke_log lg _ _ QW)|exact QS].
  - assert (Ek : list_find (eq b) L = None).
    { apply list_find_None, Forall_forall. intros x Hx' <-. done. }
    unfold k in *. rewrite Ek in *. rewrite Z.eqb_refl.
    unfold kbind at 1. erewrite obind_Ret by (apply (bpin_locked i s); [done|by exists lg]).
    unfold put_log, modify. cbn [obind].
    set (lg' := set_n (lh_n (log_lh lg) + 1) lg).
    destruct (log_release lg' (upd i takeref (k_bufs s)) s Hx) as (s' & RR & W).
    exists (set_log lg' s'). split; [exact RR|].
    destruct (own_held _ _ _ _ _ _ _ _ _ _ V O) as (_ & Hpos & _).
    pose proof (vw_inv _ _ _ _ _ _ _ _ V) as Hinv.
    destruct (cached_view d s i b Hinv (proj1 O)) as (_ & E2 & _).
    rewrite (vw_refs _ _ _ _ _ _ _ _ V) in E2.
    destruct (upd_bstep d s Hinv i b takeref s') as (S & D & W'); try done.
    { apply O. }
    { simpl. rewrite u32_small; lia. }
    pose proof (bstep_view _ _ _ _ _ _ _ _ _ _ _ _ _ _ V S) as [V' M].
    split_and!.
    + intros j' b' Oj. destruct (decide (b' = b)) as [->|Hb'].
      2: { change (own s' j' b'). eapply moved_own; [exact V|exact M|exact Hb'|exact Oj]. }
      rewrite (own_fun _ _ _ _ _ _ _ _ _ _ _ V Oj O).
      exact (conj (bs_cached S) (eq_trans (bs_slock S) (proj2 O))).
    + unfold logged. rewrite decide_False by done. 
      apply (logged_at L b lg' s'); [eapply log_at_quiet; [exact (bs_quiet S)|exact LA]|done| |..].
      * intros j. change (blk lg' (Z.of_nat j)) with (blk lg (Z.of_nat j)). rewrite Eb by lia.
        rewrite (quiet_log _ _ (bs_quiet S)).
        destruct (Z.eqb_spec (Z.of_nat j) (Z.of_nat (length L))), (Nat.eqb_spec j (length L)); done || lia.
      * change (log_start lg') with (log_start lg). rewrite HH1. apply LA.
      * change (log_dev lg') with (log_dev lg). rewrite HH1. apply LA.
      * change (lh_n (log_lh lg')) with (lh_n (log_lh lg) + 1). rewrite En, (la_n _ _ _ _ LA). done.
    + apply view_log.
      destruct (own_held _ _ _ _ _ _ _ _ _ _ V O) as (Hh & _ & Hd).
      eapply view_ext; [exact V'| | | |].
      * intros x. apply fn_insert_same. symmetry. exact Hd.
      * intros x. simpl. rewrite E2, u32_small by lia. done.
      * intros x. apply fn_insert_same. by rewrite (proj2 O).
      * unfold nz. simpl. rewrite <- E2, u32_small by lia. zcases; lia.
    + by apply wrote_nil.
    + split; [|done|].
      * change (set_lh (log_lh lg') lg = set_lh (log_lh lg') (k_log s)). rewrite HH1. reflexivity.
      * destruct (bs_quiet S) as [QW QS]. split; [exact (woke_log lg' _ _ QW)|exact QS].
Qed.
End log_write.

(** ** [begin_op] and [end_op] *)

Section ops.
Context `{HD : DiskOk}.
Context (me : nat) (pid d st : Z).

Lemma log_acquire s : ctx me pid s -> acquire LKlog s = Ret tt (acquired LKlog s).
Proof. intros Hx. apply acquire_run; [apply Hx|]. by apply (cx_locks _ _ _ Hx). Qed.

Lemma log_release_only lg s :
  ctx me pid s ->
  exists s', release LKlog (set_log lg (acquired LKlog s)) = Ret tt s' /\ woke (set_log lg s) s'.
Proof.
  intros Hx. destruct (log_release me pid lg (k_bufs s) s Hx) as (s' & R & W).
  exists (set_log lg s'). split; [exact R|]. exact (woke_log lg _ _ W).
Qed.

Lemma log_wakeup_release lg s :
  ctx me pid s ->
  exists s', (do! wakeup CHlog; release LKlog) (set_log lg (acquired LKlog s)) = Ret tt s' /\
             woke (set_log lg s) s'.
Proof.
  intros Hx. pose proof (cx_cpu _ _ _ Hx) as Hc.
  erewrite obind_Ret by (eapply (wakeup_acquired _ s); [by eapply ctx_sched|done|done| |done];
    intros i Hi; unfold is_free; simpl; rewrite lookup_insert_ne by done;
    apply (cx_locks _ _ _ Hx); by apply Nat.ltb_lt).
  eexists. split; [apply (release_after LKlog s); try done; by apply (cx_locks _ _ _ Hx)|].
  simpl. transitivity (set_log lg (norm s)).
  - exact (woke_log _ _ _ (woke_norm s Hc)).
  - exact (woke_woken (set_log lg (norm s)) CHlog (c_proc (mycpu s))).
Qed.

Lemma begin_op_run s :
  ctx me pid s -> log_committing (k_log s) = false ->
  lh_n (log_lh (k_log s)) + (log_outstanding (k_log s) + 1) * MAXOPBLOCKS <= LOGSIZE ->
  exists s', begin_op s = Ret tt s' /\
    woke (set_log (set_outstanding (log_outstanding (k_log s) + 1) (k_log s)) s) s'.
Proof.
  intros Hx Hc Hr. unfold begin_op. krun (log_acquire s Hx).
  change wakeups with (S 999). generalize 999%nat as fuel. intros fuel. cbn [begin_wait].
  rewrite kbind_gets. change (k_log (acquired LKlog s)) with (k_log s). rewrite Hc.
  destruct (Z.gtb_spec (lh_n (log_lh (k_log s)) + (log_outstanding (k_log s) + 1) * MAXOPBLOCKS) LOGSIZE);
    [lia|]. unfold put_log. rewrite kbind_modify.
  apply log_release_only. done.
Qed.

(** Other operations are still running: nothing is written. *)
Lemma end_op_nested s :
  ctx me pid s -> log_committing (k_log s) = false -> log_outstanding (k_log s) <> 1 ->
  exists s', end_op s = Ret tt s' /\
    woke (set_log (set_outstanding (log_outstanding (k_log s) - 1) (k_log s)) s) s'.
Proof.
  intros Hx Hc Ho. unfold end_op. krun (log_acquire s Hx). unfold put_log at 1.
  rewrite kbind_modify, kbind_gets. simpl. rewrite Hc.
  destruct (Z.eqb_spec (log_outstanding (k_log s) - 1) 0); [lia|].
  destruct (log_wakeup_release (set_outstanding (log_outstanding (k_log s) - 1) (k_log s)) s Hx)
    as (s' & R & W). exists s'. split; [|exact W].
  unfold kbind in R |- *. simpl in R |- *. destruct (wakeup CHlog _); simpl in *; try done.
  unfold kret. simpl. rewrite R. done.
Qed.

(** The last operation commits. *)
Lemma end_op_commits L s :
  ready me pid d st L s -> L <> [] -> log_committing (k_log s) = false ->
  log_outstanding (k_log s) = 1 -> Z.of_nat (length (lh_block (log_lh (k_log s)))) = LOGSIZE ->
  exists s', end_op s = Ret tt s' /\ idle me pid d s' /\ log_at st d [] s' /\
    wrote (commit_ws st L (content d s)) s s' /\
    log_outstanding (k_log s') = 0 /\ log_committing (k_log s') = false /\
    log_size (k_log s') = log_size (k_log s) /\
    Z.of_nat (length (lh_block (log_lh (k_log s')))) = LOGSIZE.
Proof using HD.
  intros Hr Hne Hc Ho Hlen. pose proof (vw_ctx _ _ _ _ _ _ _ _ (rd_view _ _ _ _ _ _ Hr)) as Hx.
  unfold end_op. krun (log_acquire s Hx). unfold put_log. rewrite kbind_modify, kbind_gets.
  simpl. rewrite Hc, Ho. simpl. unfold kbind at 1. rewrite kbind_modify. cbn [kret obind].
  set (lg := set_committing true (set_outstanding 0 (k_log s))).
  destruct (log_release_only lg s Hx) as (s1 & R1 & W1).
  change (set_log _ (set_log _ (acquired LKlog s))) with (set_log lg (acquired LKlog s)).
  krun R1. destruct (woke_eqs _ _ W1) as (A1 & A2 & A3 & A4 & A5 & _). simpl in A1, A2, A3, A4, A5.
  assert (EC : forall b, content d s1 b = content d s b).
  { intros b. unfold content, vbuf, buf_at. by rewrite A2, A3. }
  assert (Hr1 : ready me pid d st L s1).
  { destruct Hr as [T LA V Hn HH]. split; [done| | |done|by rewrite A3].
    - destruct LA as [B1 B2 B3 B4]. split; rewrite A5; done.
    - eapply view_woke; [exact W1|]. apply view_log.
      eapply view_ext; [exact V| |done|done|done]. intros b. by rewrite EC. }
  destruct (ready_commit me pid d st L s1 Hr1 Hne) as (s2 & R2 & H2 & LA2 & I2 & W2).
  unfold kbind at 1. rewrite R2. cbn [obind].
  krun (log_acquire s2 (id_ctx _ _ _ _ I2)). rewrite kbind_modify.
  destruct (log_wakeup_release (set_committing false (k_log s2)) s2 (id_ctx _ _ _ _ I2))
    as (s3 & R3 & W3). exists s3. split; [exact R3|].
  destruct (woke_eqs _ _ W3) as (B1 & B2 & B3 & B4 & B5 & _). simpl in B1, B2, B3, B4, B5.
  pose proof (hd_log _ _ H2) as HL. rewrite A5 in HL. split_and!.
  - eapply view_idle; [|done]. eapply view_woke; [exact W3|]. apply view_log.
    apply idle_view. exact I2.
  - destruct LA2 as [C1 C2 C3 C4]. split; rewrite B5; done.
  - destruct W2 as [D1 D2]. rewrite (commit_ws_ext st L _ _ EC) in D1, D2.
    split; [by rewrite B3, D1, A3|by rewrite B4, D2, A4].
  - by rewrite B5, HL.
  - by rewrite B5.
  - by rewrite B5, HL.
  - rewrite B5. simpl. rewrite (hd_len _ _ H2), A5. exact Hlen.
Qed.
End ops.

(** ** Whole transactions *)

Section txn.
Context `{HD : DiskOk}.
Context (me : nat) (pid d st : Z).

Abbreviation view := (view me pid d).

(** A client of the log: [begin_op], some block updates, [end_op]. *)
Definition txn_write (w : Z * block) : K unit :=
  let! i := bread d (fst w) in
  do! put_buf i (set_data (snd w));
  do! log_write i;
  brelse i.

Definition run_txn (ws : list (Z * block)) : K unit :=
  do! begin_op;
  do! kfor ws txn_write;
  end_op.

(** The distinct blocks of the transaction, in order of first write. *)
Definition txn_blocks (ws : list (Z * block)) : list Z := foldl (fun L w => logged (fst w) L) [] ws.

Definition pinned (L : list Z) (b : Z) : Z := if decide (b ∈ L) then 1 else 0.

Lemma logged_length b L : (length L <= length (logged b L) <= S (length L))%nat.
Proof. unfold logged. case_decide; [lia|]. rewrite length_app. simpl. lia. Qed.

Lemma logged_elem b L x : x ∈ logged b L <-> x = b \/ x ∈ L.
Proof.
  unfold logged. case_decide as D; [|rewrite elem_of_app, list_elem_of_singleton; tauto].
  split; [tauto|]. by intros [->|].
Qed.

Lemma logged_nodup b L : NoDup L -> NoDup (logged b L).
Proof.
  intros H. unfold logged. case_decide; [done|]. apply NoDup_app. split_and!; [done| |].
  - intros x Hx Hb%list_elem_of_singleton. by subst.
  - apply NoDup_singleton.
Qed.

Lemma txn_write_run C n s L b v :
  view C (pinned L) unheld n s -> n = length L -> log_at st d L s ->
  Forall (fun b => 0 <= b < 2 ^ 31) L -> 0 <= b < 2 ^ 31 ->
  Z.of_nat (length (lh_block (log_lh (k_log s)))) = LOGSIZE ->
  (length L < NBUF)%nat -> Z.of_nat (length L) < LOGSIZE ->
  Z.of_nat (length L) < log_size (k_log s) - 1 -> 1 <= log_outstanding (k_log s) ->
  exists s', txn_write (b, v) s = Ret tt s' /\
    view (<[b := v]> C) (pinned (logged b L)) unheld (length (logged b L)) s' /\
    log_at st d (logged b L) s' /\ wrote [] s s' /\ header_only s s'.
Proof using HD.
  intros V -> LA HL Hb Hlen Hn1 Hn2 Hn3 Ho. unfold txn_write. simpl.
  assert (Rb : 0 <= pinned L b <= 1) by (unfold pinned; case_decide; lia).
  destruct (bread_view _ _ _ _ _ _ _ _ b V) as (i & s1 & R1 & O1 & M1 & V1 & D1 & W1);
    [done|by right|lia|]. krun R1.
  destruct (set_data_view _ _ _ _ _ _ _ _ i b v V1 O1) as (s2 & R2 & O2 & M2 & V2 & D2 & W2).
  krun R2. pose proof (mv_quiet _ _ _ _ _ M1) as Q1. pose proof (mv_quiet _ _ _ _ _ M2) as Q2.
  pose proof (quiet_trans _ _ _ Q1 Q2) as Q12. pose proof (quiet_log _ _ Q12) as EL.
  destruct (log_write_run me pid d st _ _ _ _ s2 L i b V2 O2) as (s3 & R3 & O3 & LA3 & V3 & W3 & H3);
    rewrite ?EL; try done.
  { by eapply log_at_quiet. }
  { rewrite fn_lookup_insert. lia. }
  krun R3. set (R' := if decide (b ∈ L) then _ else _) in V3.
  assert (E2 : R' b = 2).
  { unfold R', pinned. destruct (decide (b ∈ L)); rewrite !fn_lookup_insert; lia. }
  destruct (brelse_view _ _ _ _ _ _ _ _ i b V3 (O3 _ _ O2)) as (s4 & R4 & M4 & V4 & D4 & W4); [lia|lia|].
  exists s4. split; [exact R4|]. pose proof (mv_quiet _ _ _ _ _ M4) as Q4. split_and!.
  - rewrite E2 in V4. eapply view_ext; [exact V4|done| | |].
    + intros x. destruct (decide (x = b)) as [->|Hx].
      * rewrite fn_lookup_insert. unfold pinned. rewrite decide_True; [done|]. apply logged_elem. tauto.
      * rewrite fn_lookup_insert_ne by done. unfold R', pinned.
        destruct (decide (b ∈ L)); rewrite !fn_lookup_insert_ne by done;
          destruct (decide (x ∈ L)) as [D|D], (decide (x ∈ logged b L)) as [D'|D'];
          rewrite logged_elem in D'; tauto.
    + intros x. destruct (decide (x = b)) as [->|Hx]; [by rewrite fn_lookup_insert|].
      by rewrite !fn_lookup_insert_ne.
    + unfold nz, pinned, logged. simpl. destruct (decide (b ∈ L)); simpl; [lia|].
      rewrite length_app. simpl. lia.
  - by eapply log_at_quiet.
  - destruct W3 as [X1 X2]. simpl in X1. rewrite app_nil_r in X2. apply wrote_nil; congruence.
  - eapply header_only_trans; [apply header_only_quiet, Q12|].
    eapply header_only_trans; [exact H3|apply header_only_quiet, Q4].
Qed.
(** The log between transactions. *)
Record quiescent (s : kst) : Prop := {
  qs_idle : idle me pid d s;
  qs_log : log_at st d [] s;
  qs_free : log_outstanding (k_log s) = 0 /\ log_committing (k_log s) = false;
  qs_len : Z.of_nat (length (lh_block (log_lh (k_log s)))) = LOGSIZE;
  qs_head : length (dget (k_disk s) st) = Z.to_nat BSIZE /\ head_ok (dget (k_disk s) st) []
}.

(** A transaction the log has room for, on blocks outside the log. *)
Record txn_ok (ws : list (Z * block)) (s : kst) : Prop := {
  tx_some : ws <> [];
  tx_blocks w : w ∈ ws -> 0 <= fst w < 2 ^ 31 /\ ~ in_log st (fst w);
  tx_size : Z.of_nat (length (txn_blocks ws)) <= MAXOPBLOCKS;
  tx_room : MAXOPBLOCKS < log_size (k_log s) - 1;
  tx_start : 0 <= st /\ st + LOGSIZE < 2 ^ 31
}.

Lemma txn_blocks_mono L (ws : list (Z * block)) :
  (length L <= length (foldl (fun L w => logged (fst w) L) L ws))%nat.
Proof.
  revert L. induction ws as [|w ws IH]; intros L; simpl; [lia|].
  pose proof (logged_length (fst w) L). specialize (IH (logged (fst w) L)). lia.
Qed.

Lemma txn_loop (m : nat) ws C L s :
  view C (pinned L) unheld (length L) s -> log_at st d L s ->
  Forall (fun b => 0 <= b < 2 ^ 31) L -> (forall w, w ∈ ws -> 0 <= fst w < 2 ^ 31) ->
  Z.of_nat (length (lh_block (log_lh (k_log s)))) = LOGSIZE ->
  (length (foldl (fun L w => logged (fst w) L) L ws) <= m)%nat ->
  Z.of_nat m < LOGSIZE -> Z.of_nat m < log_size (k_log s) - 1 -> 1 <= log_outstanding (k_log s) ->
  exists s', kfor ws txn_write s = Ret tt s' /\
    let L' := foldl (fun L w => logged (fst w) L) L ws in
    view (fapply ws C) (pinned L') unheld (length L') s' /\ log_at st d L' s' /\
    wrote [] s s' /\ header_only s s'.
Proof using HD.
  revert C L s. induction ws as [|[b v] ws IH]; intros C L s V LA HL Hws Hlen Hsz Hm1 Hr Ho.
  - exists s. split; [done|]. simpl. split_and!; [done|done|by apply wrote_nil|].
    apply header_only_quiet. reflexivity.
  - cbn [kfor]. simpl in Hsz. pose proof (txn_blocks_mono (logged b L) ws) as Hm.
    pose proof (logged_length b L) as Hl. pose proof (Hws (b, v) ltac:(left)) as Hb. simpl in Hb.
    destruct (txn_write_run C _ s L b v V eq_refl LA HL Hb) as (s1 & R1 & V1 & LA1 & W1 & H1);
      [done|unfold LOGSIZE, MAXOPBLOCKS, NBUF in *; lia|lia|lia|done|].
    krun R1. pose proof (hd_log _ _ H1) as EL.
    destruct (IH _ _ s1 V1 LA1) as (s2 & R2 & V2 & LA2 & W2 & H2).
    + apply Forall_forall. intros x Hx. apply logged_elem in Hx as [->|Hx]; [done|].
      rewrite Forall_forall in HL. by apply HL.
    + intros w Hw. apply Hws. by right.
    + rewrite (hd_len _ _ H1). done.
    + done.
    + done.
    + by rewrite EL.
    + by rewrite EL.
    + exists s2. split; [exact R2|]. split_and!; [done|done| |by eapply header_only_trans].
      exact (wrote_app _ _ _ _ _ W1 W2).
Qed.

(** A transaction up to the point where [end_op] commits it. *)
Lemma txn_ready ws s :
  quiescent s -> txn_ok ws s ->
  exists s1, (do! begin_op; kfor ws txn_write) s = Ret tt s1 /\
    ready me pid d st (txn_blocks ws) s1 /\ (forall b, content d s1 b = fapply ws (dget (k_disk s)) b) /\
    k_disk s1 = k_disk s /\ k_writes s1 = k_writes s /\
    log_outstanding (k_log s1) = 1 /\ log_committing (k_log s1) = false /\
    Z.of_nat (length (lh_block (log_lh (k_log s1)))) = LOGSIZE.
Proof using HD.
  intros [I LA [O1 O2] Hlen HH] [T1 T2 T3 T4 T5].
  destruct (begin_op_run me pid s (id_ctx _ _ _ _ I) O2) as (s1 & R1 & W1).
  { rewrite (la_n _ _ _ _ LA), O1. unfold LOGSIZE, MAXOPBLOCKS. simpl. lia. }
  destruct (woke_eqs _ _ W1) as (A1 & A2 & A3 & A4 & A5 & _). simpl in A1, A2, A3, A4, A5.
  rewrite O1 in A5. krun R1.
  destruct (txn_loop (Z.to_nat MAXOPBLOCKS) ws (dget (k_disk s)) [] s1) as (s2 & R2 & V2 & LA2 & W2 & H2).
  - eapply view_woke; [exact W1|]. apply view_log.
    eapply view_ext; [apply idle_view; exact I|done| |done|done].
    intros b. unfold pinned. rewrite decide_False; [done|]. apply not_elem_of_nil.
  - destruct LA as [B1 B2 B3 B4]. split; rewrite A5; done.
  - constructor.
  - intros w Hw. by apply T2.
  - by rewrite A5.
  - unfold txn_blocks in T3. lia.
  - unfold LOGSIZE, MAXOPBLOCKS. lia.
  - rewrite A5. unfold MAXOPBLOCKS in *. simpl. lia.
  - rewrite A5. simpl. lia.
  - fold (txn_blocks ws) in V2, LA2. pose proof (hd_log _ _ H2) as EL. rewrite A5 in EL.
    destruct W2 as [D1 D2]. simpl in D1. rewrite app_nil_r in D2.
    assert (HE : forall x, x ∈ txn_blocks ws -> exists w, w ∈ ws /\ x = fst w).
    { intros x. unfold txn_blocks.
      enough (G : forall L, x ∈ foldl (fun L w => logged (fst w) L) L ws ->
                  x ∈ L \/ exists w, w ∈ ws /\ x = fst w).
      { intros Hx. destruct (G [] Hx) as [Hn|Hw]; [by apply elem_of_nil in Hn|done]. }
      clear. induction ws as [|w ws IH]; intros L; simpl; [tauto|]. intros Hx.
      destruct (IH _ Hx) as [Hl|(w' & Hw & ->)].
      - apply logged_elem in Hl as [->|Hl]; [|by left]. right. exists w. split; [left|done].
      - right. exists w'. split; [by right|done]. }
    assert (HN : NoDup (txn_blocks ws)).
    { unfold txn_blocks. enough (G : forall L, NoDup L -> NoDup (foldl (fun L w => logged (fst w) L) L ws))
        by (apply G; constructor).
      clear. induction ws as [|w ws IH]; intros L HL; simpl; [done|]. apply IH. by apply logged_nodup. }
    exists s2. split; [exact R2|]. split_and!.
    + split.
      * split; [done| | |done|].
        -- apply Forall_forall. intros x Hx. destruct (HE x Hx) as (w & Hw & ->). by apply T2.
        -- unfold LOGSIZE, MAXOPBLOCKS in *. lia.
        -- intros x Hx. destruct (HE x Hx) as (w & Hw & ->). by apply T2.
      * exact LA2.
      * eapply view_ext; [exact V2| |done|done|done]. intros b. symmetry.
        apply (vw_content _ _ _ _ _ _ _ _ V2).
      * unfold NBUF, MAXOPBLOCKS in *. lia.
      * by rewrite D1, A3.
    + apply (vw_content _ _ _ _ _ _ _ _ V2).
    + by rewrite D1, A3.
    + by rewrite D2, A4.
    + by rewrite EL.
    + by rewrite EL.
    + rewrite (hd_len _ _ H2), A5. exact Hlen.
Qed.

Lemma txn_blocks_ne ws : ws <> [] -> txn_blocks ws <> [].
Proof.
  intros Hne E. destruct ws as [|w ws]; [done|]. unfold txn_blocks in E. simpl in E.
  pose proof (txn_blocks_mono (logged (fst w) []) ws) as Hm. rewrite E in Hm.
  assert (Hin : fst w ∈ logged (fst w) []) by (apply logged_elem; by left).
  destruct (logged (fst w) []); [by apply elem_of_nil in Hin|]. simpl in Hm. lia.
Qed.

(** A file-system transaction is atomic and durable.  [begin_op], any
    updates of at most [MAXOPBLOCKS] distinct blocks through the cache with
    [log_write], and [end_op] all return.  Nothing reaches the disk before
    [end_op]; after it the disk holds exactly the updated blocks and the log
    is empty and ready again.  If instead the machine stops after any number
    of the disk writes, booting from that disk recovers either none of the
    updates or all of them. *)
Theorem transaction_atomic ws s :
  quiescent s -> txn_ok ws s ->
  let old := dget (k_disk s) in let new := fapply ws old in
  let wlog := commit_ws st (txn_blocks ws) new in
  (exists s', run_txn ws s = Ret tt s' /\ quiescent s' /\ k_writes s' = k_writes s ++ wlog /\
     forall b, ~ in_log st b -> dget (k_disk s') b = new b) /\
  (forall p sb s1,
     sb_logstart sb = st ->
     idle me pid d (set_locks (<[LKlog := lock_free]> (k_locks s1)) s1) ->
     Z.of_nat (length (lh_block (log_lh (k_log s1)))) = LOGSIZE ->
     k_disk s1 = dapply (take p wlog) (k_disk s) ->
     exists s2, initlog d sb s1 = Ret tt s2 /\
       ((forall b, ~ in_log st b -> dget (k_disk s2) b = old b) \/
        (forall b, ~ in_log st b -> dget (k_disk s2) b = new b))).
Proof using HD.
  intros Hq Htx old new wlog. destruct (txn_ready ws s Hq Htx) as (s1 & R1 & Hr & EC & ED & EW & O1 & O2 & EL).
  pose proof (txn_blocks_ne ws (tx_some _ _ Htx)) as Hne.
  assert (Ew : commit_ws st (txn_blocks ws) (content d s1) = wlog) by (by apply commit_ws_ext).
  split.
  - destruct (end_op_commits me pid d st _ s1 Hr Hne O2 O1 EL)
      as (s2 & R2 & I2 & LA2 & W2 & O3 & O4 & _ & EL2).
    exists s2. rewrite Ew in W2. destruct W2 as [D2 W2]. split.
    { unfold run_txn. unfold kbind in R1 |- *. destruct (begin_op s) as [[] s0| | | |]; try done.
      simpl in R1 |- *. rewrite R1. exact R2. }
    destruct (rd_head _ _ _ _ _ _ Hr) as [H1 H2].
    assert (F : forall b, ~ in_log st b -> dget (k_disk s2) b = new b).
    { intros b Hb. unfold new. rewrite <- EC, D2, dget_dapply, <- Ew. apply commit_final; eauto using
        rd_trans, ready_rest, ready_head. }
    split_and!; [|by rewrite W2, EW|exact F]. split; try done.
    rewrite D2, dget_dapply. unfold wlog, commit_ws. rewrite !app_assoc, fapply_app.
    change (fapply [(st, ?v)] ?h) with (<[st := v]> h). rewrite fn_lookup_insert.
    assert (Hl : length (encode (txn_blocks ws) (new st)) = Z.to_nat BSIZE).
    { apply length_encode; [|apply (trans_le st), (rd_trans _ _ _ _ _ _ Hr)]. unfold new.
      rewrite <- EC. by rewrite (ready_head me pid d st _ s1 Hr). }
    split; [|by apply head_ok_nil]. apply length_encode; [done|unfold LOGSIZE, MAXOPBLOCKS; simpl; lia].
  - intros p sb s2 E1 I2 L2 D2.
    destruct (ready_crash me pid d st _ s1 p sb s2 Hr E1 I2 L2) as (s3 & R3 & _ & _ & G).
    { rewrite Ew, ED. exact D2. }
    exists s3. split; [exact R3|]. destruct (decide (p <= length (txn_blocks ws))%nat).
    + left. intros b Hb. rewrite G by done. by rewrite ED.
    + right. intros b Hb. rewrite G by done. apply EC.
Qed.
End txn.

(** ** Recovery that is itself interrupted *)

Lemma recover_prefix st L f p :
  trans_ok st L -> head_ok (f st) L -> length (f st) = Z.to_nat BSIZE ->
  let g := fapply (take p (recover_ws st L f)) f in
  exists L', trans_ok st L' /\ head_ok (g st) L' /\
    forall b, ~ in_log st b -> fapply (recover_ws st L' g) g b = fapply (recover_ws st L f) f b.
Proof.
  intros T HO Hlen g. assert (Lw : length (home_ws st L f) = length L) by apply length_imap.
  unfold recover_ws in g.
  destruct (take_app_cases p (home_ws st L f) [(st, encode [] (f st))]) as [[Hp E]|[Hp E]];
    unfold g; rewrite E; clear g E.
  - assert (G : forall b, b ∉ L -> fapply (take p (home_ws st L f)) f b = f b).
    { intros b Hb. apply fapply_take_other. by rewrite home_ws_fst. }
    assert (Hst : st ∉ L) by (intros H; by apply (tr_home _ _ T _ H), st_in_log).
    exists L. split_and!; [done|by rewrite G|].
    intros b Hb. rewrite !recover_home by done.
    destruct (list_find (eq b) L) as [[i x]|] eqn:F.
    + apply list_find_Some in F as (F & <- & _). apply G. intros H.
      apply (not_log_block st L _ i T H); [by eapply lookup_lt_Some|done].
    + apply G. intros H. destruct (list_find_In b L H) as (i & Ei & _). congruence.
  - rewrite (take_ge [_]) by (simpl; lia). fold (recover_ws st L f).
    exists []. split_and!; [by eapply trans_nil| |].
    + unfold recover_ws. rewrite fapply_app. change (fapply [(st, ?v)] ?h) with (<[st := v]> h).
      rewrite fn_lookup_insert. by apply head_ok_nil.
    + intros b Hb. by rewrite recover_nil.
Qed.

Section more.
Context `{HD : DiskOk}.
Context (me : nat) (pid d : Z).

(** C32: recovery can be interrupted and repeated.  If the machine stops after
    any number of the disk writes of [initlog] and boots again, the second
    recovery leaves the same contents in every block outside the log as an
    uninterrupted one. *)
Theorem recovery_idempotent sb s L p s1 :
  let st := sb_logstart sb in
  idle me pid d (set_locks (<[LKlog := lock_free]> (k_locks s)) s) ->
  Z.of_nat (length (lh_block (log_lh (k_log s)))) = LOGSIZE ->
  trans_ok st L -> head_ok (dget (k_disk s) st) L -> length (dget (k_disk s) st) = Z.to_nat BSIZE ->
  idle me pid d (set_locks (<[LKlog := lock_free]> (k_locks s1)) s1) ->
  Z.of_nat (length (lh_block (log_lh (k_log s1)))) = LOGSIZE ->
  k_disk s1 = dapply (take p (recover_ws st L (dget (k_disk s)))) (k_disk s) ->
  exists s2 s3, initlog d sb s = Ret tt s2 /\
    k_writes s2 = k_writes s ++ recover_ws st L (dget (k_disk s)) /\
    initlog d sb s1 = Ret tt s3 /\
    forall b, ~ in_log st b -> dget (k_disk s3) b = dget (k_disk s2) b.
Proof using HD.
  intros st I Hlen T HO Hbs I1 Hlen1 Ed.
  destruct (initlog_run me pid d sb s L I Hlen T HO) as (s2 & R2 & _ & _ & _ & W2).
  destruct (recover_prefix st L (dget (k_disk s)) p T HO Hbs) as (L' & T' & HO' & G).
  assert (Ef : forall b, dget (k_disk s1) b =
               fapply (take p (recover_ws st L (dget (k_disk s)))) (dget (k_disk s)) b).
  { intros b. rewrite Ed. apply dget_dapply. }
  destruct (initlog_run me pid d sb s1 L' I1 Hlen1 T') as (s3 & R3 & _ & _ & _ & W3).
  { fold st. by rewrite Ef. }
  exists s2, s3. split_and!; [done|apply W2|done|].
  intros b Hb. rewrite (proj1 W3), (proj1 W2), !dget_dapply. fold st. rewrite <- (G b Hb).
  rewrite !(recover_home st L') by done. by destruct (list_find _ _) as [[i x]|]; rewrite Ef.
Qed.

(** [log_write] writes nothing to disk.  The first one for a block appends
    it to the transaction and pins its buffer with one more reference; every
    later one for the same block is absorbed: the list and the reference count
    stay.  The buffer stays locked by the caller and no contents change. *)
Theorem log_write_absorbs st C R H n s L i b :
  view me pid d C R H n s -> own pid d s i b -> log_at st d L s ->
  Forall (fun b => 0 <= b < 2 ^ 31) L -> 0 <= b < 2 ^ 31 ->
  Z.of_nat (length (lh_block (log_lh (k_log s)))) = LOGSIZE ->
  Z.of_nat (length L) < LOGSIZE -> Z.of_nat (length L) < log_size (k_log s) - 1 ->
  1 <= log_outstanding (k_log s) -> R b + 1 < 2 ^ 32 ->
  exists s', log_write i s = Ret tt s' /\ own pid d s' i b /\
    log_at st d (if decide (b ∈ L) then L else L ++ [b]) s' /\
    (forall b', refs d s' b' = if decide (b' = b /\ b ∉ L) then R b + 1 else R b') /\
    (forall b', content d s' b' = C b') /\ k_disk s' = k_disk s /\ k_writes s' = k_writes s.
Proof using HD.
  intros V O LA HL Hb Hlen Hn1 Hn2 Ho Hr.
  destruct (log_write_run me pid d st C R H n s L i b V O LA HL Hb Hlen Hn1 Hn2 Ho Hr)
    as (s' & E & O' & LA' & V' & [D W] & _).
  exists s'. split_and!; [exact E|exact (O' _ _ O)|exact LA'| |apply V'|exact D|by rewrite W, app_nil_r].
  intros b'. rewrite (vw_refs _ _ _ _ _ _ _ _ V'). destruct (decide (b ∈ L)) as [Hin|Hnin].
  - rewrite decide_False; [done|]. tauto.
  - destruct (decide (b' = b)) as [->|Hne].
    + by rewrite fn_lookup_insert, decide_True.
    + rewrite fn_lookup_insert_ne, decide_False by (done || tauto). done.
Qed.

Lemma log_write_panics i s :
  ctx me pid s ->
  lh_n (log_lh (k_log s)) >= LOGSIZE \/ lh_n (log_lh (k_log s)) >= log_size (k_log s) - 1 ->
  exists s', log_write i s = Panic "too big a transaction" s'.
Proof.
  intros Hx Hn. unfold log_write. krun (log_acquire me pid s Hx). rewrite kbind_gets.
  change (k_log (acquired LKlog s)) with (k_log s).
  destruct (Z.geb_spec (lh_n (log_lh (k_log s))) LOGSIZE); simpl; [by eexists|].
  destruct (Z.geb_spec (lh_n (log_lh (k_log s))) (log_size (k_log s) - 1)); [by eexists|]. lia.
Qed.

Lemma begin_op_thrice s :
  ctx me pid s -> lh_n (log_lh (k_log s)) = 0 -> log_outstanding (k_log s) = 0 ->
  log_committing (k_log s) = false ->
  exists s3, (do! begin_op; do! begin_op; begin_op) s = Ret tt s3 /\
             woke (set_log (set_outstanding 3 (k_log s)) s) s3.
Proof.
  intros Hx Hn Ho Hc.
  destruct (begin_op_run me pid s Hx Hc) as (s1 & R1 & W1).
  { rewrite Hn, Ho. unfold LOGSIZE, MAXOPBLOCKS. lia. }
  krun R1. destruct (woke_eqs _ _ W1) as (_ & _ & _ & _ & E1 & _). simpl in E1. rewrite Ho in *.
  assert (X1 : ctx me pid s1) by (eapply ctx_woke; [|exact W1]; auto with krun).
  destruct (begin_op_run me pid s1 X1) as (s2 & R2 & W2); rewrite ?E1; [done|simpl|].
  { rewrite Hn. unfold LOGSIZE, MAXOPBLOCKS. lia. }
  krun R2. destruct (woke_eqs _ _ W2) as (_ & _ & _ & _ & E2 & _). simpl in E2. rewrite E1 in *.
  assert (X2 : ctx me pid s2) by (eapply ctx_woke; [|exact W2]; auto with krun).
  destruct (begin_op_run me pid s2 X2) as (s3 & R3 & W3); rewrite ?E2; [done|simpl|].
  { rewrite Hn. unfold LOGSIZE, MAXOPBLOCKS. lia. }
  exists s3. split; [exact R3|]. rewrite E2 in W3. simpl in *.
  etransitivity; [|exact W3]. etransitivity; [|apply (woke_log _ _ _ W2)].
  exact (woke_log _ _ _ W1).
Qed.

Lemma logged_distinct (ws : list (Z * block)) :
  NoDup ws.*1 -> foldl (fun L w => logged (fst w) L) [] ws = ws.*1.
Proof.
  enough (G : forall L, NoDup (L ++ ws.*1) -> foldl (fun L w => logged (fst w) L) L ws = L ++ ws.*1)
    by (intros; by apply G).
  induction ws as [|w ws IH]; intros L HL; simpl; [by rewrite app_nil_r|].
  assert (E : logged w.1 L = L ++ [w.1]).
  { unfold logged. rewrite decide_False; [done|]. intros Hx. apply NoDup_app in HL as (_ & N & _).
    apply (N _ Hx). left. }
  rewrite E, IH; rewrite <- app_assoc; done.
Qed.

(** A transaction with no room left in the log. *)
Lemma last_write_panics st C L s b v :
  view me pid d C (pinned L) unheld (length L) s -> log_at st d L s -> b ∉ L -> (length L < NBUF)%nat ->
  log_size (k_log s) - 1 <= Z.of_nat (length L) ->
  exists s', txn_write d (b, v) s = Panic "too big a transaction" s'.
Proof using HD.
  intros V LA Hb HL Hsz. destruct (bread_view _ _ _ _ _ _ _ _ b V) as (i & s1 & R1 & O1 & M1 & V1 & _).
  { done. }
  { by right. }
  { unfold pinned. rewrite decide_False by done. lia. }
  destruct (set_data_view _ _ _ _ _ _ _ _ i b v V1 O1) as (s2 & R2 & O2 & M2 & V2 & _).
  pose proof (quiet_log _ _ (quiet_trans _ _ _ (mv_quiet _ _ _ _ _ M1) (mv_quiet _ _ _ _ _ M2))) as E2.
  destruct (log_write_panics i s2 (vw_ctx _ _ _ _ _ _ _ _ V2)) as (s3 & R3).
  { right. rewrite E2, (la_n _ _ _ _ LA). lia. }
  exists s3. unfold txn_write. simpl. krun R1. krun R2. by apply obind_Panic.
Qed.

Lemma fresh_last (l : list Z) a b : NoDup (l ++ [a; b]) -> (a ∉ l) /\ b ∉ l ++ [a].
Proof using.
  intros (_ & N1 & N2)%NoDup_app. rewrite NoDup_cons, list_elem_of_singleton in N2. split.
  - intros Hx. apply (N1 _ Hx). left.
  - rewrite not_elem_of_app, list_elem_of_singleton. split; [|intros ->; tauto]. intros Hx. apply (N1 _ Hx). right. left.
Qed.

(** C38: the reservation of [begin_op] is one block short.  With the log size
    [mkfs] writes into the superblock ([nlog = LOGSIZE]), an empty log admits
    three operations of [MAXOPBLOCKS] blocks each, but when together they
    update their 30 distinct blocks the last [log_write] panics: the header
    takes one of the log's blocks and only 29 are left. *)
Theorem reservation_overflow st ws w29 w30 s :
  quiescent me pid d st s -> log_size (k_log s) = LOGSIZE ->
  (0 <= st /\ st + LOGSIZE < 2 ^ 31) ->
  (forall w, w ∈ ws ++ [w29; w30] -> 0 <= fst w < 2 ^ 31) ->
  NoDup (ws ++ [w29; w30]).*1 -> length ws = 28%nat ->
  exists s3 s', (do! begin_op; do! begin_op; begin_op) s = Ret tt s3 /\
    kfor (ws ++ [w29; w30]) (txn_write d) s3 = Panic "too big a transaction" s'.
Proof using HD.
  intros [I LA [O1 O2] Hlen HH] Hsz Hst Hws Hnd H28.
  destruct (begin_op_thrice s (id_ctx _ _ _ _ I)) as (s3 & R3 & W3); try done.
  { apply LA. }
  destruct (woke_eqs _ _ W3) as (A1 & A2 & A3 & A4 & A5 & _). simpl in A1, A2, A3, A4, A5.
  rewrite fmap_app in Hnd.
  assert (V3 : view me pid d (dget (k_disk s)) (pinned []) unheld 0 s3).
  { eapply view_woke; [exact W3|]. apply view_log.
    eapply view_ext; [apply idle_view; exact I|done| |done|done].
    intros b. unfold pinned. rewrite decide_False; [done|]. apply not_elem_of_nil. }
  assert (LA3 : log_at st d [] s3).
  { destruct LA as [B1 B2 B3 B4]. split; rewrite A5; done. }
  assert (Hfold : foldl (fun L w => logged (fst w) L) [] ws = ws.*1).
  { apply logged_distinct. apply NoDup_app in Hnd. tauto. }
  destruct (txn_loop me pid d st 28 ws _ [] s3 V3 LA3) as (s4 & R4 & V4 & LA4 & W4 & H4);
    rewrite ?A5, ?Hfold; try done; simpl; try lia.
  { intros w Hw. apply Hws. rewrite elem_of_app. by left. }
  { rewrite length_fmap. lia. }
  { rewrite Hsz. unfold LOGSIZE, MAXOPBLOCKS. lia. }
  rewrite Hfold in V4, LA4. pose proof (hd_log _ _ H4) as EL. rewrite A5 in EL.
  destruct w29 as [b29 v29], w30 as [b30 v30].
  destruct (fresh_last (ws.*1) b29 b30 Hnd) as [N29 N30].
  destruct (txn_write_run me pid d st _ _ s4 (ws.*1) b29 v29 V4) as (s5 & R5 & V5 & LA5 & W5 & H5).
  { reflexivity. }
  { exact LA4. }
  { apply Forall_forall. intros x (w & -> & Hw)%list_elem_of_fmap. apply Hws. rewrite elem_of_app. by left. }
  { apply (Hws (b29, v29)). rewrite elem_of_app. right. left. }
  { rewrite (hd_len _ _ H4), A5. exact Hlen. }
  { rewrite length_fmap, H28. unfold NBUF. lia. }
  { rewrite length_fmap, H28. unfold LOGSIZE, MAXOPBLOCKS. lia. }
  { rewrite length_fmap, H28, EL. simpl. rewrite Hsz. unfold LOGSIZE, MAXOPBLOCKS. lia. }
  { rewrite EL. simpl. lia. }
  assert (E29 : logged b29 (ws.*1) = ws.*1 ++ [b29]).
  { unfold logged. by rewrite decide_False. }
  rewrite E29 in V5, LA5.
  assert (Hl : length (ws.*1 ++ [b29]) = 29%nat) by (rewrite length_app, length_fmap, H28; done).
  destruct (last_write_panics st _ _ s5 b30 v30 V5 LA5 N30) as (s6 & R6).
  { rewrite Hl. unfold NBUF. lia. }
  { rewrite (hd_log _ _ H5), Hl. simpl. rewrite EL. simpl. rewrite Hsz. unfold LOGSIZE, MAXOPBLOCKS. lia. }
  exists s3, s6. split; [exact R3|]. rewrite (kfor_app _ _ _ _ _ R4). cbn [kfor]. krun R5. by apply obind_Panic.
Qed.
End more.

(** ** Examples *)

(** The process of [demo_ctx] with an initialised cache and the log of a
    freshly booted file system: start 2, [LOGSIZE] blocks, empty header. *)
Definition empty_lh : logheader := mklh 0 (replicate (Z.to_nat LOGSIZE) 0).
Definition demo_log : kst := set_log (mklog 2 LOGSIZE 0 false 1 empty_lh) demo_bio.

Lemma idle_log me pid d lg s : idle me pid d s -> idle me pid d (set_log lg s).
Proof. intros I. eapply view_idle; [|done]. apply view_log, idle_view. exact I. Qed.

Lemma demo_head : length zero_block = Z.to_nat BSIZE /\ head_ok zero_block [].
Proof.
  split; [apply length_replicate|]. split; [vm_compute; reflexivity| |].
  - intros i b Hb. by rewrite lookup_nil in Hb.
  - unfold LOGSIZE, MAXOPBLOCKS. simpl. lia.
Qed.

Lemma demo_log_quiescent : quiescent 1 7 1 2 demo_log.
Proof.
  destruct demo_bio_idle as [I D]. split.
  - apply idle_log. exact I.
  - split; [reflexivity|reflexivity|reflexivity|]. intros i b Hb. by rewrite lookup_nil in Hb.
  - split; reflexivity.
  - reflexivity.
  - change (k_disk demo_log) with (k_disk demo_bio). rewrite D. exact demo_head.
Qed.

(** A machine that boots from the disk [D]. *)
Lemma demo_reboot D : exists s, idle 1 7 1 (set_locks (<[LKlog := lock_free]> (k_locks s)) s) /\
  Z.of_nat (length (lh_block (log_lh (k_log s)))) = LOGSIZE /\ k_disk s = D.
Proof.
  destruct (binit_idle 1 7 1 (set_disk D demo_ctx)) as (s & R & H & E);
    [lia|apply ctx_disk, demo_ctx_ok|reflexivity|exact demo_zero|].
  pose (lg := mklog 0 0 0 false 0 empty_lh). exists (set_log lg s). split_and!.
  - change (k_locks (set_log lg s)) with (k_locks s).
    rewrite insert_id by (apply (cx_locks _ _ _ (id_ctx _ _ _ _ H)); reflexivity).
    exact (idle_log 1 7 1 lg s H).
  - reflexivity.
  - exact E.
Qed.

Definition demo_ws : list (Z * block) := [(100, [1]); (101, [2]); (100, [3])].

Lemma demo_txn_ok : txn_ok 2 demo_ws demo_log.
Proof.
  split.
  - done.
  - intros w Hw. unfold demo_ws in Hw. unfold in_log, LOGSIZE, MAXOPBLOCKS.
    repeat (apply elem_of_cons in Hw as [->|Hw]; [simpl; lia|]). by apply elem_of_nil in Hw.
  - vm_compute. discriminate.
  - vm_compute. reflexivity.
  - unfold LOGSIZE, MAXOPBLOCKS. lia.
Qed.

Lemma transaction_atomic_witness :
  exists s', run_txn (Dk := mem_disk) 1 demo_ws demo_log = Ret tt s' /\ dget (k_disk s') 100 = [3].
Proof.
  destruct (transaction_atomic (HD := mem_disk_ok) 1 7 1 2 demo_ws demo_log) as [(s' & R & _ & _ & H) _].
  - exact demo_log_quiescent.
  - exact demo_txn_ok.
  - exists s'. split; [exact R|]. rewrite H by (unfold in_log, LOGSIZE, MAXOPBLOCKS; lia).
    reflexivity.
Defined.

Lemma commit_installs_witness :
  exists s s', commit (Dk := mem_disk) s = Ret tt s' /\ dget (k_disk s') 101 = [2].
Proof.
  destruct (txn_ready (HD := mem_disk_ok) 1 7 1 2 demo_ws demo_log demo_log_quiescent demo_txn_ok)
    as (s & _ & Hr & EC & _).
  destruct (commit_installs (HD := mem_disk_ok) 1 7 1 2 (txn_blocks demo_ws) s Hr) as (s' & R & _ & H & _).
  - vm_compute. discriminate.
  - exists s, s'. split; [exact R|]. rewrite H by (unfold in_log, LOGSIZE, MAXOPBLOCKS; lia).
    rewrite EC. reflexivity.
Defined.

Lemma commit_crash_atomic_witness :
  exists s s1 sb s2, ready 1 7 1 2 (txn_blocks demo_ws) s /\
    initlog (Dk := mem_disk) 1 sb s1 = Ret tt s2 /\ dget (k_disk s2) 101 = [2].
Proof.
  destruct (txn_ready (HD := mem_disk_ok) 1 7 1 2 demo_ws demo_log demo_log_quiescent demo_txn_ok)
    as (s & _ & Hr & EC & _).
  destruct (demo_reboot (dapply (take 4 (commit_ws 2 (txn_blocks demo_ws) (content 1 s))) (k_disk s)))
    as (s1 & I1 & L1 & D1).
  destruct (commit_crash_atomic (HD := mem_disk_ok) 1 7 1 2 (txn_blocks demo_ws) s 4
    (mksb 0 0 0 0 30 2 0 0) s1 Hr) as (_ & s2 & R & _ & _ & H).
  - vm_compute. discriminate.
  - reflexivity.
  - exact I1.
  - exact L1.
  - exact D1.
  - exists s, s1, (mksb 0 0 0 0 30 2 0 0), s2. split; [exact Hr|]. split; [exact R|].
    rewrite H by (unfold in_log, LOGSIZE, MAXOPBLOCKS; lia). rewrite EC. reflexivity.
Defined.

(** The disk of a machine that stopped right after the header of a two-block
    transaction was written: blocks 100 and 101 are in the log, not yet home. *)
Definition committed_ws : list (Z * block) := [(3, [1]); (4, [2]); (2, encode [100; 101] zero_block)].
Definition committed_disk : gmap Z block := dapply committed_ws ∅.

Lemma committed_head :
  trans_ok 2 [100; 101] /\ head_ok (dget committed_disk 2) [100; 101] /\ length (dget committed_disk 2) = Z.to_nat BSIZE.
Proof.
  split_and!.
  - split; [apply (bool_decide_unpack _); vm_compute; exact Logic.I| |unfold LOGSIZE, MAXOPBLOCKS; simpl; lia|
      unfold LOGSIZE, MAXOPBLOCKS; lia|].
    + repeat constructor; simpl; lia.
    + intros b Hb. unfold LOGSIZE, MAXOPBLOCKS. repeat (apply elem_of_cons in Hb as [->|Hb]; [lia|]). by apply elem_of_nil in Hb.
  - split; [vm_compute; reflexivity| |unfold LOGSIZE, MAXOPBLOCKS; simpl; lia].
    intros [|[|[|i]]] b Hb; try (injection Hb as <-; vm_compute; reflexivity); discriminate.
  - vm_compute. reflexivity.
Qed.

(** The machine boots from that disk, stops again when recovery has copied
    block 100 home but not block 101, and boots once more: the second recovery
    has both blocks home. *)
Lemma recovery_idempotent_witness :
  exists s s1 s2 s3, k_disk s = committed_disk /\ dget (k_disk s) 100 <> [1] /\ dget (k_disk s) 101 <> [2] /\
    initlog (Dk := mem_disk) 1 (mksb 0 0 0 0 30 2 0 0) s = Ret tt s2 /\
    k_writes s2 = k_writes s ++ [(100, [1]); (101, [2]); (2, encode [] (dget committed_disk 2))] /\
    dget (k_disk s1) 100 = [1] /\ dget (k_disk s1) 101 <> [2] /\
    initlog (Dk := mem_disk) 1 (mksb 0 0 0 0 30 2 0 0) s1 = Ret tt s3 /\
    dget (k_disk s3) 100 = [1] /\ dget (k_disk s3) 101 = [2].
Proof.
  destruct committed_head as (T & H1 & H2). destruct (demo_reboot committed_disk) as (s & I & L & D).
  destruct (demo_reboot (dapply (take 1 (recover_ws 2 [100; 101] (dget committed_disk))) committed_disk)) as (s1 & I1 & L1 & D1).
  destruct (recovery_idempotent (HD := mem_disk_ok) 1 7 1 (mksb 0 0 0 0 30 2 0 0) s [100; 101] 1 s1)
    as (s2 & s3 & R2 & W & R3 & E); simpl; rewrite ?D, ?D1; try assumption.
  - reflexivity.
  - destruct (initlog_run (HD := mem_disk_ok) 1 7 1 (mksb 0 0 0 0 30 2 0 0) s [100; 101] I L T) as (s2' & R2' & _ & _ & _ & W2 & _).
    { simpl. rewrite D. exact H1. }
    rewrite R2 in R2'. injection R2' as <-. simpl in W2. rewrite D in W, W2.
    exists s, s1, s2, s3. rewrite !E, W2, D, D1 by (unfold in_log, LOGSIZE, MAXOPBLOCKS; simpl; lia).
    split_and!; try assumption; try (vm_compute; reflexivity); try (vm_compute; discriminate).
Defined.

Lemma log_write_absorbs_witness :
  exists s s' i, log_write i s = Ret tt s' /\ refs 1 s 100 = 1 /\ refs 1 s' 100 = 2.
Proof.
  destruct demo_log_quiescent as [I LA [O1 O2] Hlen _].
  destruct (begin_op_run 1 7 demo_log (id_ctx _ _ _ _ I) O2) as (s1 & _ & W1).
  { rewrite O1, (la_n _ _ _ _ LA). unfold LOGSIZE, MAXOPBLOCKS. simpl. lia. }
  destruct (woke_eqs _ _ W1) as (_ & _ & _ & _ & A5 & _).
  pose proof (view_woke 1 7 1 _ _ _ _ _ _ W1 (view_log 1 7 1 _ _ _ _ _ _ (idle_view 1 7 1 _ I))) as V1.
  destruct (bread_view (HD := mem_disk_ok) 1 7 1 _ _ _ _ _ 100 V1)
    as (i & s2 & _ & O & M & V & _); [reflexivity|right; unfold NBUF; lia|lia|].
  pose proof (eq_trans (quiet_log _ _ (mv_quiet _ _ _ _ _ M)) A5) as EL.
  destruct (log_write_absorbs (HD := mem_disk_ok) 1 7 1 2 _ _ _ _ s2 [] i 100 V O)
    as (s3 & R & _ & _ & H & _).
  - destruct LA as [B1 B2 B3 B4]. split; rewrite EL; [exact B1|exact B2|exact B3|exact B4].
  - constructor.
  - lia.
  - rewrite EL. exact Hlen.
  - unfold LOGSIZE, MAXOPBLOCKS. simpl. lia.
  - rewrite EL. vm_compute. reflexivity.
  - rewrite EL. change (1 <= 1). lia.
  - rewrite fn_lookup_insert. lia.
  - exists s2, s3, i. split; [exact R|]. split.
    + rewrite (vw_refs _ _ _ _ _ _ _ _ V). reflexivity.
    + rewrite H, decide_True by (split; [done|apply not_elem_of_nil]).
      rewrite fn_lookup_insert. reflexivity.
Defined.

Lemma reservation_overflow_witness :
  exists s3 s' ws, (do! begin_op; do! begin_op; begin_op) demo_log = Ret tt s3 /\
    kfor ws (txn_write (Dk := mem_disk) 1) s3 = Panic "too big a transaction" s' /\
    length ws = Z.to_nat (3 * MAXOPBLOCKS).
Proof.
  pose (ws := (fun i : nat => (100 + Z.of_nat i, @nil Z)) <$> seq 0 28).
  destruct (reservation_overflow (HD := mem_disk_ok) 1 7 1 2 ws (128, []) (129, []) demo_log)
    as (s3 & s' & R3 & R').
  - exact demo_log_quiescent.
  - reflexivity.
  - unfold LOGSIZE, MAXOPBLOCKS. lia.
  - intros w. unfold ws. rewrite elem_of_app, list_elem_of_fmap.
    intros [(i & -> & Hi%elem_of_seq)|Hw]; simpl; [lia|].
    repeat (apply elem_of_cons in Hw as [->|Hw]; [simpl; lia|]). by apply elem_of_nil in Hw.
  - apply (bool_decide_unpack _). vm_compute. exact Logic.I.
  - reflexivity.
  - exists s3, s', (ws ++ [(128, []); (129, [])]). split; [exact R3|]. split; [exact R'|reflexivity].
Defined.
