(* ===== verification/Txn.v ===== *)
(** * Rules for code that runs inside a transaction

    [op_view C L hs s]: block [b] reads as [C b]; the blocks of [L] are in the
    log, each pinned once; the process has the buffers of [hs] locked, the last
    one taken first.  [op_open]: a transaction is open.  Each rule says how one
    call moves [C], [L] and [hs]; [op_step] is what such a call leaves alone:
    the disk, every global but the cache and the header of the log, and the
    buffers of the caller.  [op_atomic] lifts what is shown of a body to the
    whole operation, crashes included. *)

From stdpp Require Import functions.
From S2P Require Import Prelude Param Mem Kernel Spinlock Sched Sleeplock Bio BioRules Log.
Open Scope Z_scope.

(** ** References to a block *)

Definition refs_of (L hs : list Z) (b : Z) : Z := pinned L b + pinned hs b.
Definition held_of (hs : list Z) (b : Z) : bool := bool_decide (b ∈ hs).
Definition busy_of (L hs : list Z) : nat := length L + length (filter (fun b => b ∉ L) hs).

Lemma pinned_range L b : 0 <= pinned L b <= 1.
Proof. unfold pinned. case_decide; lia. Qed.

Lemma pinned_cons L b x : b ∉ L -> pinned (b :: L) x = (<[b := 1]> (pinned L)) x.
Proof.
  intros Hb. unfold pinned. destruct (decide (x = b)) as [->|Hx].
  - rewrite fn_lookup_insert, decide_True by (apply list_elem_of_here). done.
  - rewrite fn_lookup_insert_ne by done.
    pose proof (elem_of_cons L x b) as E. destruct (decide (x ∈ b :: L)), (decide (x ∈ L)); tauto.
Qed.

Lemma pinned_logged L b x : pinned (logged b L) x = (<[b := 1]> (pinned L)) x.
Proof.
  unfold pinned. pose proof (logged_elem b L x) as E. destruct (decide (x = b)) as [->|Hx].
  - rewrite fn_lookup_insert, decide_True by tauto. done.
  - rewrite fn_lookup_insert_ne by done.
    destruct (decide (x ∈ logged b L)), (decide (x ∈ L)); try done; tauto.
Qed.

Lemma busy_of_cons L hs b : busy_of L (b :: hs) = (busy_of L hs + 1 - nz (pinned L b))%nat.
Proof.
  unfold busy_of, pinned, nz. rewrite filter_cons. destruct (decide (b ∈ L)) as [Hb|Hb].
  - rewrite decide_False by tauto. simpl. lia.
  - rewrite decide_True by done. simpl. lia.
Qed.

Lemma busy_of_le L hs : (busy_of L hs <= length L + length hs)%nat.
Proof. unfold busy_of. pose proof (length_filter (fun b => b ∉ L) hs). lia. Qed.

Lemma busy_of_logged L hs b : b ∉ hs -> busy_of (logged b L) (b :: hs) = busy_of L (b :: hs).
Proof.
  intros Hb. unfold busy_of, logged. destruct (decide (b ∈ L)) as [Hl|Hl]; [done|].
  rewrite !filter_cons, length_app. rewrite decide_False by set_solver. rewrite decide_True by done.
  assert (E : filter (fun x => x ∉ L ++ [b]) hs = filter (fun x => x ∉ L) hs).
  { clear Hl. induction hs as [|x hs IH]; [done|]. rewrite !filter_cons, IH by set_solver.
    apply decide_ext. set_solver. }
  rewrite E. simpl. lia.
Qed.

Lemma Forall_logged (P : Z -> Prop) b L : P b -> Forall P L -> Forall P (logged b L).
Proof.
  intros Hb HL. apply Forall_forall. intros x Hx. apply logged_elem in Hx as [->|Hx]; [done|].
  rewrite Forall_forall in HL. by apply HL.
Qed.

(** ** Accesses to devices *)

Lemma woke_io v s s' : woke s s' -> woke (set_io v s) (set_io v s').
Proof. intros [E ? ? ?]. split; [|done..]. rewrite E at 1. reflexivity. Qed.
Lemma quiet_io v s s' : quiet s s' -> quiet (set_io v s) (set_io v s').
Proof. intros [W S]. split; [exact (woke_io v _ _ W)|exact S]. Qed.
Lemma header_only_io v s s' : header_only s s' -> header_only (set_io v s) (set_io v s').
Proof. intros [E Hl Q]. split; [exact E|exact Hl|exact (quiet_io v _ _ Q)]. Qed.
Lemma header_only_keeps s s' : header_only s s' -> k_io s' = k_io s /\ k_sb s' = k_sb s /\
  k_inodes s' = k_inodes s /\ k_pr s' = k_pr s /\ k_mem s' = k_mem s.
Proof. intros [_ _ [[E _ _ _] _]]. rewrite E. done. Qed.

Section rules.
Context `{HD : DiskOk}.
Context (me : nat) (pid d st : Z).

Abbreviation view := (view me pid d).
Abbreviation own := (own pid d).

Record op_view (C : Z -> block) (L hs : list Z) (s : kst) : Prop := {
  ov_view : view C (refs_of L hs) (held_of hs) (busy_of L hs) s;
  ov_log : log_at st d L s;
  ov_range : Forall (fun b => 0 <= b < 2 ^ 31) L;
  ov_nodup : NoDup L;
  ov_held : NoDup hs;
  ov_slots : Z.of_nat (length (lh_block (log_lh (k_log s)))) = LOGSIZE;
  ov_size : LOGSIZE <= log_size (k_log s)
}.

(** Inside [begin_op] / [end_op]. *)
Definition op_open (s : kst) : Prop := 1 <= log_outstanding (k_log s).

(** The call accessed devices as [io] says and moved the cache and the header of
    the log; the process keeps its buffers [hs]. *)
Record op_does (hs : list Z) (io : list ioev) (s s' : kst) : Prop := {
  os_rest : header_only (set_io (k_io s ++ io) s) s';
  os_disk : wrote [] s s';
  os_own j b : b ∈ hs -> own s j b -> own s' j b
}.
Definition op_step (hs : list Z) : kst -> kst -> Prop := op_does hs [].

Lemma op_does_trans hs io1 io2 s1 s2 s3 :
  op_does hs io1 s1 s2 -> op_does hs io2 s2 s3 -> op_does hs (io1 ++ io2) s1 s3.
Proof.
  intros [H1 W1 O1] [H2 W2 O2]. split.
  - eapply header_only_trans; [|exact H2]. rewrite app_assoc.
    pose proof (header_only_io (k_io s2 ++ io2) _ _ H1) as H. rewrite (proj1 (header_only_keeps _ _ H1)) in H |- *.
    exact H.
  - exact (wrote_app _ _ _ _ _ W1 W2).
  - eauto.
Qed.

Lemma header_only_step hs s s' :
  header_only s s' -> wrote [] s s' -> (forall j b, b ∈ hs -> own s j b -> own s' j b) -> op_step hs s s'.
Proof. intros H W O. split; [by rewrite app_nil_r|done|done]. Qed.

#[global] Instance op_step_refl hs : Reflexive (op_step hs).
Proof. intros s. apply header_only_step; [apply header_only_quiet; reflexivity|by apply wrote_nil|done]. Qed.

#[global] Instance op_step_trans hs : Transitive (op_step hs).
Proof. intros s1 s2 s3. apply (op_does_trans hs [] []). Qed.

Lemma op_does_sub hs hs' io s s' : hs ⊆ hs' -> op_does hs' io s s' -> op_does hs io s s'.
Proof. intros Hs [H W O]. split; [done|done|]. intros j b Hb. apply O. by apply Hs. Qed.

Lemma op_does_log hs io s s' : op_does hs io s s' ->
  log_outstanding (k_log s') = log_outstanding (k_log s) /\
  log_committing (k_log s') = log_committing (k_log s) /\
  log_size (k_log s') = log_size (k_log s) /\
  length (lh_block (log_lh (k_log s'))) = length (lh_block (log_lh (k_log s))).
Proof. intros [[E Hl _] _ _]. split_and!; [by rewrite E..|exact Hl]. Qed.

Lemma op_does_open hs io s s' : op_does hs io s s' -> op_open s -> op_open s'.
Proof. intros S. unfold op_open. by rewrite (proj1 (op_does_log _ _ _ _ S)). Qed.

Lemma op_does_keeps hs io s s' : op_does hs io s s' -> k_sb s' = k_sb s /\ k_inodes s' = k_inodes s /\
  k_pr s' = k_pr s /\ k_mem s' = k_mem s /\ k_disk s' = k_disk s /\ k_io s' = k_io s ++ io.
Proof.
  intros [H [E1 E2] _]. destruct (header_only_keeps _ _ H) as (A0 & A & B & C & M). by split_and!.
Qed.

(** A block that is neither logged nor held has reached the disk. *)
Lemma op_view_clean C L hs s b :
  op_view C L hs s -> b ∉ hs -> b ∈ L \/ C b = dget (k_disk s) b.
Proof.
  intros V Hb. destruct (decide (b ∈ L)) as [Hl|Hl]; [by left|right].
  eapply view_clean; [apply V|]. unfold refs_of, pinned. by rewrite !decide_False.
Qed.

(** A call that only moved the cache. *)
Lemma quiet_op_step hs s s' :
  quiet s s' -> k_disk s' = k_disk s -> k_writes s' = k_writes s ->
  (forall j b, b ∈ hs -> own s j b -> own s' j b) -> op_step hs s s'.
Proof.
  intros Q E1 E2 O. apply header_only_step; [by apply header_only_quiet|by apply wrote_nil|done].
Qed.

Lemma own_moved C R H n (hs : list Z) b s s' j b' :
  view C R H n s -> moved pid d b s s' -> b ∉ hs -> b' ∈ hs -> own s j b' -> own s' j b'.
Proof. intros V M Hb Hb' O. eapply moved_own; [exact V|exact M| |exact O]. by intros ->. Qed.

Lemma op_view_quiet C C' L hs hs' s s' :
  op_view C L hs s -> quiet s s' -> NoDup hs' ->
  view C' (refs_of L hs') (held_of hs') (busy_of L hs') s' -> op_view C' L hs' s'.
Proof.
  intros V Q Hn V'. destruct V as [_ LA HR HN _ HL HS]. pose proof (quiet_log _ _ Q) as E.
  split; try done; rewrite ?E; try done. by eapply log_at_quiet.
Qed.

(** ** [bread], a store, [log_write], [brelse] *)

Lemma op_bread C L hs s b :
  op_view C L hs s -> b ∉ hs -> (length L + length hs < NBUF)%nat ->
  exists i s', bread d b s = Ret i s' /\ own s' i b /\ b_data (buf_at s' i) = C b /\
    op_view C L (b :: hs) s' /\ op_step hs s s'.
Proof using HD.
  intros V Hb Hn. pose proof (busy_of_le L hs) as Hle. pose proof (pinned_range L b) as Hp.
  assert (Hz : pinned hs b = 0) by (unfold pinned; by rewrite decide_False).
  destruct (bread_view _ _ _ _ _ _ _ _ b (ov_view _ _ _ _ V)) as (i & s' & R & O & M & V' & D & W).
  { unfold held_of. by rewrite bool_decide_false. }
  { right. lia. }
  { unfold refs_of. lia. }
  exists i, s'. split; [exact R|]. split; [exact O|].
  split; [apply (own_held _ _ _ _ _ _ _ _ _ _ V' O)|]. pose proof (mv_quiet _ _ _ _ _ M) as Q. split.
  - eapply op_view_quiet; [exact V|exact Q|constructor; [done|apply V]|].
    eapply view_ext; [exact V'|done| | |].
    + intros x. unfold refs_of. rewrite pinned_cons by done. destruct (decide (x = b)) as [->|Hx].
      * rewrite !fn_lookup_insert. lia.
      * by rewrite !fn_lookup_insert_ne.
    + intros x. unfold held_of. destruct (decide (x = b)) as [->|Hx].
      * rewrite fn_lookup_insert, bool_decide_true by (apply list_elem_of_here). done.
      * rewrite fn_lookup_insert_ne by done. apply bool_decide_ext. rewrite elem_of_cons. tauto.
    + rewrite busy_of_cons. unfold refs_of. by rewrite Hz, Z.add_0_r.
  - apply quiet_op_step; try done. intros j b' Hb' Oj.
    eapply own_moved; [apply V|exact M|exact Hb|exact Hb'|exact Oj].
Qed.

Lemma op_store C L hs s i b (g : block -> block) :
  op_view C L (b :: hs) s -> own s i b ->
  exists s', put_buf i (fun x => set_data (g (b_data x)) x) s = Ret tt s' /\
    op_view (<[b := g (C b)]> C) L (b :: hs) s' /\ op_step (b :: hs) s s'.
Proof using HD.
  intros V O. destruct (own_held _ _ _ _ _ _ _ _ _ _ (ov_view _ _ _ _ V) O) as (_ & _ & E).
  destruct (set_data_view _ _ _ _ _ _ _ _ i b (g (C b)) (ov_view _ _ _ _ V) O)
    as (s' & R & O' & M & V' & D & W).
  exists s'. split; [rewrite <- R; unfold put_buf, modify; by rewrite E|].
  pose proof (mv_quiet _ _ _ _ _ M) as Q. split.
  - eapply op_view_quiet; [exact V|exact Q|apply V|exact V'].
  - apply quiet_op_step; try done. intros j b' Hb' Oj. destruct (decide (b' = b)) as [->|Hne].
    + by rewrite (own_fun _ _ _ _ _ _ _ _ _ _ _ (ov_view _ _ _ _ V) Oj O).
    + eapply moved_own; [apply V|exact M|done|exact Oj].
Qed.

Lemma op_log_write C L hs s i b :
  op_view C L (b :: hs) s -> op_open s -> own s i b -> 0 <= b < 2 ^ 31 -> Z.of_nat (length L) < LOGSIZE - 1 ->
  exists s', log_write i s = Ret tt s' /\
    op_view C (logged b L) (b :: hs) s' /\ op_step (b :: hs) s s'.
Proof using HD.
  intros V Hop O Hb Hl. pose proof (pinned_range L b) as Hp.
  pose proof (ov_held _ _ _ _ V) as Hnd. apply NoDup_cons in Hnd as [Hnb Hnh].
  assert (Hone : pinned (b :: hs) b = 1) by (unfold pinned; by rewrite decide_True by (apply list_elem_of_here)).
  destruct (log_write_run me pid d st _ _ _ _ s L i b (ov_view _ _ _ _ V) O)
    as (s' & R & O' & LA & V' & W & H); try apply V; try done; try lia.
  { pose proof (ov_size _ _ _ _ V). lia. }
  { unfold refs_of. lia. }
  exists s'. split; [exact R|].
  assert (S : op_step (b :: hs) s s') by (apply header_only_step; [done|done|intros j b' _; apply O']).
  destruct (op_does_log _ _ _ _ S) as (_ & _ & A3 & A4). split; [split|exact S].
  - eapply view_ext; [exact V'|done| |done|symmetry; by apply busy_of_logged].
    intros x. unfold refs_of. rewrite pinned_logged. destruct (decide (x = b)) as [->|Hx].
    + rewrite fn_lookup_insert, Hone.
      destruct (decide (b ∈ L)) as [D|D]; rewrite ?fn_lookup_insert, ?Hone; unfold pinned;
        [rewrite decide_True by done|rewrite decide_False by done]; lia.
    + rewrite fn_lookup_insert_ne by done. destruct (decide (b ∈ L)); [done|].
      by rewrite fn_lookup_insert_ne.
  - exact LA.
  - apply Forall_logged; [done|apply V].
  - apply logged_nodup, V.
  - apply V.
  - rewrite A4. apply V.
  - rewrite A3. apply V.
Qed.

Lemma op_brelse C L hs s i b :
  op_view C L (b :: hs) s -> own s i b -> b ∈ L \/ C b = dget (k_disk s) b ->
  exists s', brelse i s = Ret tt s' /\ op_view C L hs s' /\ op_step hs s s'.
Proof using HD.
  intros V O Hcl. pose proof (ov_held _ _ _ _ V) as Hnd. apply NoDup_cons in Hnd as [Hnb Hnh].
  assert (Hz : pinned hs b = 0) by (unfold pinned; by rewrite decide_False).
  assert (E : refs_of L (b :: hs) b = pinned L b + 1).
  { unfold refs_of. rewrite pinned_cons, fn_lookup_insert by done. done. }
  pose proof (pinned_range L b) as Hp.
  destruct (brelse_view _ _ _ _ _ _ _ _ i b (ov_view _ _ _ _ V) O) as (s' & R & M & V' & D & W).
  { rewrite E. lia. }
  { rewrite E. unfold pinned. destruct Hcl as [Hl|Hc]; [rewrite decide_True by done; lia|done]. }
  exists s'. split; [exact R|]. pose proof (mv_quiet _ _ _ _ _ M) as Q. split.
  - eapply op_view_quiet; [exact V|exact Q|done|]. rewrite E in V'.
    eapply view_ext; [exact V'|done| | |].
    + intros x. unfold refs_of. destruct (decide (x = b)) as [->|Hx].
      * rewrite fn_lookup_insert, Hz. lia.
      * rewrite fn_lookup_insert_ne by done. rewrite pinned_cons, fn_lookup_insert_ne by done. done.
    + intros x. unfold held_of. destruct (decide (x = b)) as [->|Hx].
      * rewrite fn_lookup_insert. by rewrite bool_decide_false.
      * rewrite fn_lookup_insert_ne by done. apply bool_decide_ext. rewrite elem_of_cons. tauto.
    + rewrite busy_of_cons. replace (pinned L b + 1 - 1) with (pinned L b) by lia.
      unfold nz. zcases; lia.
  - apply quiet_op_step; try done. intros j b' Hb' Oj.
    eapply own_moved; [apply V|exact M|exact Hnb|exact Hb'|exact Oj].
Qed.

(** A message on the console. *)
Lemma op_prints C L hs io s s' :
  op_view C L hs s -> woke (set_io (k_io s ++ io) s) s' -> op_view C L hs s' /\ op_does hs io s s'.
Proof using.
  intros V W. destruct (woke_eqs _ _ W) as (E1 & E2 & E3 & E4 & E5 & _). simpl in *.
  assert (V1 : view C (refs_of L hs) (held_of hs) (busy_of L hs) (set_io (k_io s ++ io) s)).
  { destruct (ov_view _ _ _ _ V) as [X I VC VR VH VB]. split; [by destruct X|by destruct I|done..]. }
  split.
  - destruct V as [_ LA HR HN HH HL HS]. split; rewrite ?E5; try done; [by eapply view_woke|].
    by eapply log_at_log.
  - split.
    + apply header_only_quiet. split; [|intros i; unfold slock_at; by rewrite E1].
      rewrite E1, E2, E3, E4. exact W.
    + by apply wrote_nil.
    + intros j b _. unfold own, BioRules.own, cached, buf_at, slock_at. by rewrite E1, E2.
Qed.

Lemma op_woke C L hs s s' : op_view C L hs s -> woke s s' -> op_view C L hs s' /\ op_step hs s s'.
Proof using. intros V W. apply op_prints; [exact V|]. by rewrite app_nil_r. Qed.

(** A logged update of a buffer the process holds, then its release. *)
Lemma op_finish C L hs s i b (g : block -> block) :
  op_view C L (b :: hs) s -> op_open s -> own s i b -> 0 <= b < 2 ^ 31 -> Z.of_nat (length L) < LOGSIZE - 1 ->
  exists s', (forall A (k : K A),
      (do! put_buf i (fun x => set_data (g (b_data x)) x); do! log_write i; do! brelse i; k) s = k s') /\
    (do! put_buf i (fun x => set_data (g (b_data x)) x); do! log_write i; brelse i) s = Ret tt s' /\
    op_view (<[b := g (C b)]> C) (logged b L) hs s' /\ op_step hs s s'.
Proof using HD.
  intros V Hop O Hb Hl. destruct (op_store _ _ _ _ _ _ g V O) as (s1 & R1 & V1 & S1).
  assert (O1 : own s1 i b) by (apply (os_own _ _ _ _ S1); [apply list_elem_of_here|done]).
  destruct (op_log_write _ _ _ _ _ _ V1 (op_does_open _ _ _ _ S1 Hop) O1 Hb Hl) as (s2 & R2 & V2 & S2).
  assert (O2 : own s2 i b) by (apply (os_own _ _ _ _ S2); [apply list_elem_of_here|done]).
  destruct (op_brelse _ _ _ _ _ _ V2 O2) as (s3 & R3 & V3 & S3).
  { left. apply logged_elem. by left. }
  exists s3. split_and!.
  - intros A k. krun R1. krun R2. krun R3. done.
  - krun R1. krun R2. exact R3.
  - exact V3.
  - etransitivity; [|exact S3]. apply (op_does_sub hs (b :: hs)); [set_solver|].
    by etransitivity.
Qed.

(** The whole sequence. *)
Lemma op_update C L hs s b (g : block -> block) :
  op_view C L hs s -> op_open s -> b ∉ hs -> 0 <= b < 2 ^ 31 -> Z.of_nat (length L) < LOGSIZE - 1 ->
  (length L + length hs < NBUF)%nat ->
  exists s', (let! i := bread d b in do! put_buf i (fun x => set_data (g (b_data x)) x);
              do! log_write i; brelse i) s = Ret tt s' /\
    op_view (<[b := g (C b)]> C) (logged b L) hs s' /\ op_step hs s s'.
Proof using HD.
  intros V Hop Hb Hr Hl Hn. destruct (op_bread _ _ _ _ _ V Hb Hn) as (i & s1 & R1 & O1 & _ & V1 & S1).
  destruct (op_finish _ _ _ _ _ _ g V1 (op_does_open _ _ _ _ S1 Hop) O1 Hr Hl) as (s2 & _ & R2 & V2 & S2).
  exists s2. split_and!; [krun R1; exact R2|exact V2|by etransitivity].
Qed.

(** A block read and released. *)
Lemma op_read C L hs s b A (k : block -> K A) :
  op_view C L hs s -> b ∉ hs -> (length L + length hs < NBUF)%nat ->
  exists s', (let! i := bread d b in let! data := gets (fun s => b_data (buf_at s i)) in
              do! brelse i; k data) s = k (C b) s' /\
    op_view C L hs s' /\ op_step hs s s'.
Proof using HD.
  intros V Hb Hn. destruct (op_bread _ _ _ _ _ V Hb Hn) as (i & s1 & R1 & O1 & E1 & V1 & S1).
  destruct (op_brelse _ _ _ _ _ _ V1 O1) as (s2 & R2 & V2 & S2).
  { rewrite (proj1 (os_disk _ _ _ _ S1)). by eapply op_view_clean. }
  exists s2. split_and!; [|exact V2|by etransitivity].
  krun R1. rewrite kbind_gets, E1. krun R2. done.
Qed.

End rules.

(** The page tables of processes stay. *)
Definition same_mem (me : nat) (s s' : kst) : Prop :=
  k_mem s' = k_mem s /\ p_pagetable (proc_at s' me) = p_pagetable (proc_at s me).

Lemma woke_same_mem me s s' : woke s s' -> same_mem me s s'.
Proof.
  intros [E _ _ P]. split; [by rewrite E|]. unfold proc_at.
  destruct (k_procs s !! me) as [p|] eqn:Hp.
  - destruct (Forall2_lookup_l _ _ _ _ _ P Hp) as (q & -> & [->| ->]); done.
  - apply lookup_ge_None in Hp. rewrite (Forall2_length _ _ _ P) in Hp. by rewrite lookup_ge_None_2.
Qed.

Lemma same_mem_trans me s1 s2 s3 : same_mem me s1 s2 -> same_mem me s2 s3 -> same_mem me s1 s3.
Proof. intros [A1 A2] [B1 B2]. split; congruence. Qed.

Lemma op_does_same_mem me pid d hs io s s' : op_does pid d hs io s s' -> same_mem me s s'.
Proof. intros [[_ _ [W _]] _ _]. destruct (woke_same_mem me _ _ W) as [A B]. by split. Qed.

(** ** Changes of the inode table *)

Lemma woke_inodes v s s' : woke s s' -> woke (set_inodes v s) (set_inodes v s').
Proof. intros [E ? ? ?]. split; [|done..]. rewrite E at 1. reflexivity. Qed.

Section inodes.
Context (me : nat) (pid d st : Z).

Lemma op_does_inodes v hs io s s' :
  op_does pid d hs io s s' -> op_does pid d hs io (set_inodes v s) (set_inodes v s').
Proof.
  intros [[E1 E2 [W S]] D O]. split; [|exact D|exact O]. split; [exact E1|exact E2|].
  split; [exact (woke_inodes v _ _ W)|exact S].
Qed.

Lemma op_view_inodes v C L hs s :
  op_view me pid d st C L hs s -> op_view me pid d st C L hs (set_inodes v s).
Proof.
  intros [[X I VC VR VH VB] LA HR HN HH HL HS]. split; try done; [|by destruct LA].
  split; [by destruct X|by destruct I|done..].
Qed.

(** A call that may also have changed the inode table. *)
Definition fs_does (hs : list Z) (io : list ioev) (s s' : kst) : Prop :=
  op_does pid d hs io (set_inodes (k_inodes s') s) s'.

Lemma fs_does_op hs io s s' : op_does pid d hs io s s' -> fs_does hs io s s'.
Proof. intros H. unfold fs_does. rewrite (proj1 (proj2 (op_does_keeps _ _ _ _ _ _ H))). exact H. Qed.

Lemma fs_does_set hs v s : fs_does hs [] s (set_inodes v s).
Proof. apply op_step_refl. Qed.

Lemma fs_does_trans hs io1 io2 s1 s2 s3 :
  fs_does hs io1 s1 s2 -> fs_does hs io2 s2 s3 -> fs_does hs (io1 ++ io2) s1 s3.
Proof.
  intros H1 H2. eapply op_does_trans; [|exact H2]. exact (op_does_inodes (k_inodes s3) _ _ _ _ H1).
Qed.

Lemma fs_does_keeps hs io s s' : fs_does hs io s s' -> k_sb s' = k_sb s /\ k_pr s' = k_pr s /\
  k_mem s' = k_mem s /\ k_disk s' = k_disk s /\ k_io s' = k_io s ++ io.
Proof. intros H. by destruct (op_does_keeps _ _ _ _ _ _ H) as (? & _ & ? & ? & ? & ?). Qed.

Lemma fs_does_same_mem hs io s s' : fs_does hs io s s' -> same_mem me s s'.
Proof. intros H. exact (op_does_same_mem me _ _ _ _ _ _ H). Qed.

Lemma fs_does_open hs io s s' : fs_does hs io s s' -> op_open s -> op_open s'.
Proof. intros H Ho. by apply (op_does_open _ _ _ _ _ _ H). Qed.
End inodes.

(** ** Operations as transactions *)

Section atomic.
Context `{HD : DiskOk}.
Context (me : nat) (pid d st : Z).

Abbreviation op_view := (op_view me pid d st).

(** [begin_op] on a log at rest opens an empty transaction. *)
Lemma op_begin s :
  quiescent me pid d st s -> LOGSIZE <= log_size (k_log s) ->
  exists s1, begin_op s = Ret tt s1 /\ op_view (dget (k_disk s)) [] [] s1 /\ op_open s1 /\
    woke (set_log (set_outstanding 1 (k_log s)) s) s1.
Proof using.
  intros [I LA [O1 O2] Hlen HH] Hs.
  destruct (begin_op_run me pid s (id_ctx _ _ _ _ I) O2) as (s1 & R1 & W1).
  { rewrite (la_n _ _ _ _ LA), O1. unfold LOGSIZE, MAXOPBLOCKS. simpl. lia. }
  rewrite O1 in W1. exists s1. split; [exact R1|].
  destruct (woke_eqs _ _ W1) as (A1 & A2 & A3 & A4 & A5 & _). simpl in A1, A2, A3, A4, A5.
  split; [|split; [unfold op_open; by rewrite A5|exact W1]]. split.
  - eapply view_woke; [exact W1|]. apply view_log.
    eapply view_ext; [apply idle_view; exact I|done| |done|done]. intros b. unfold refs_of, pinned.
    rewrite decide_False; [done|]. apply not_elem_of_nil.
  - destruct LA as [B1 B2 B3 B4]. split; rewrite A5; done.
  - constructor.
  - constructor.
  - constructor.
  - by rewrite A5.
  - by rewrite A5.
Qed.

(** What the body of an operation leaves alone. *)
Record op_body (s1 s2 : kst) : Prop := {
  ob_open : log_outstanding (k_log s2) = log_outstanding (k_log s1);
  ob_committing : log_committing (k_log s2) = log_committing (k_log s1);
  ob_disk : wrote [] s1 s2
}.

#[global] Instance op_body_refl : Reflexive op_body.
Proof. intros s. split; [done|done|by apply wrote_nil]. Qed.

#[global] Instance op_body_trans : Transitive op_body.
Proof.
  intros s1 s2 s3 [A1 A2 A3] [B1 B2 B3]. split; [congruence|congruence|]. exact (wrote_app _ _ _ _ _ A3 B3).
Qed.

Lemma op_does_body hs io s s' : op_does pid d hs io s s' -> op_body s s'.
Proof. intros S. destruct (op_does_log _ _ _ _ _ _ S) as (A & B & _). split; [done|done|apply S]. Qed.

Lemma op_ready C L s :
  op_view C L [] s -> L <> [] -> Z.of_nat (length L) < LOGSIZE -> (forall b, b ∈ L -> ~ in_log st b) ->
  0 <= st /\ st + LOGSIZE < 2 ^ 31 ->
  length (dget (k_disk s) st) = Z.to_nat BSIZE /\ head_ok (dget (k_disk s) st) [] ->
  ready me pid d st L s /\ forall b, content d s b = C b.
Proof using.
  intros [V LA HR HN HH HL HS] Hne Hl Hin Hst Hh. pose proof (vw_content _ _ _ _ _ _ _ _ V) as HC.
  split; [|done]. split; [split; try done; lia|done| |unfold NBUF, LOGSIZE, MAXOPBLOCKS in *; lia|done].
  eapply view_ext; [exact V|by intros b| |done|].
  - intros b. unfold refs_of. change (pinned [] b) with 0. by rewrite Z.add_0_r.
  - unfold busy_of. simpl. lia.
Qed.

(** An operation from [begin_op] to [end_op], and a crash inside it. *)
Lemma op_runs_atomic {A} (k : K A) (a : A) C' L s :
  quiescent me pid d st s -> LOGSIZE <= log_size (k_log s) -> 0 <= st /\ st + LOGSIZE < 2 ^ 31 ->
  (forall s1, begin_op s = Ret tt s1 -> op_view (dget (k_disk s)) [] [] s1 -> op_open s1 -> woke (set_log (set_outstanding 1 (k_log s)) s) s1 ->
     exists s2, k s1 = Ret a s2 /\ op_view C' L [] s2 /\ op_body s1 s2) ->
  L <> [] -> Z.of_nat (length L) < LOGSIZE -> (forall b, b ∈ L -> ~ in_log st b) ->
  (exists s', (do! begin_op; let! x := k in do! end_op; kret x) s = Ret a s' /\ quiescent me pid d st s' /\
     k_writes s' = k_writes s ++ commit_ws st L C' /\
     forall b, ~ in_log st b -> dget (k_disk s') b = C' b) /\
  (forall p sb s1,
     sb_logstart sb = st ->
     idle me pid d (set_locks (<[LKlog := lock_free]> (k_locks s1)) s1) ->
     Z.of_nat (length (lh_block (log_lh (k_log s1)))) = LOGSIZE ->
     k_disk s1 = dapply (take p (commit_ws st L C')) (k_disk s) ->
     exists s2, initlog d sb s1 = Ret tt s2 /\
       ((forall b, ~ in_log st b -> dget (k_disk s2) b = dget (k_disk s) b) \/
        (forall b, ~ in_log st b -> dget (k_disk s2) b = C' b))).
Proof using HD.
  intros Hq Hs Hst Hk Hne Hl Hin. destruct (op_begin s Hq Hs) as (s1 & R1 & V1 & P1 & W1).
  destruct (woke_eqs _ _ W1) as (_ & _ & A3 & A4 & A5 & _). simpl in A3, A4, A5.
  destruct (Hk s1 R1 V1 P1 W1) as (s2 & R2 & V2 & [B1 B2 [B3 B4]]). rewrite A5 in B1, B2.
  simpl in B1, B2, B3. rewrite app_nil_r in B4.
  destruct (op_ready _ _ _ V2 Hne Hl Hin Hst) as [Hr EC]; [rewrite B3, A3; apply Hq|].
  assert (Ew : commit_ws st L (content d s2) = commit_ws st L C') by (by apply commit_ws_ext).
  split.
  - destruct (end_op_commits me pid d st L s2 Hr Hne) as (s3 & R3 & I3 & LA3 & W3 & O3 & O4 & _ & EL3);
      [by rewrite B2, (proj2 (qs_free _ _ _ _ _ Hq))|done|apply V2|].
    exists s3. rewrite Ew in W3. destruct W3 as [D3 W3].
    split; [krun R1; krun R2; krun R3; done|].
    assert (F : forall b, ~ in_log st b -> dget (k_disk s3) b = C' b).
    { intros b Hb. rewrite <- EC, D3, dget_dapply, <- Ew. destruct (rd_head _ _ _ _ _ _ Hr) as [H1 H2].
      apply commit_final; eauto using rd_trans, ready_rest, ready_head. }
    split_and!; [|by rewrite W3, B4, A4|exact F]. split; try done.
    rewrite D3, dget_dapply. unfold commit_ws. rewrite !app_assoc, fapply_app.
    change (fapply [(st, ?v)] ?h) with (<[st := v]> h). rewrite fn_lookup_insert.
    assert (Hl' : length (encode L (C' st)) = Z.to_nat BSIZE).
    { apply length_encode; [|lia]. rewrite <- EC, (ready_head me pid d st _ s2 Hr). apply Hr. }
    split; [|by apply head_ok_nil]. apply length_encode; [done|unfold LOGSIZE, MAXOPBLOCKS; simpl; lia].
  - intros p sb s3 E1 I3 L3 D3.
    destruct (ready_crash me pid d st _ s2 p sb s3 Hr E1 I3 L3) as (s4 & R4 & _ & _ & G).
    { by rewrite Ew, B3, A3. }
    exists s4. split; [exact R4|]. destruct (decide (p <= length L)%nat).
    + left. intros b Hb. rewrite G by done. by rewrite B3, A3.
    + right. intros b Hb. rewrite G by done. apply EC.
Qed.

(** C1: every operation on the file system is atomic.  Let a program [k] run
    between [begin_op] and [end_op] and turn the block contents of the disk
    into [C'], touching the blocks [L].  Then the whole operation returns what
    [k] returns, the disk holds [C'] outside the log and the log is at rest
    again; and if the machine stops after any number of the operation's disk
    writes, [initlog] recovers the contents before the operation or [C']. *)
Theorem op_atomic {A} (k : K A) (a : A) C' L s :
  quiescent me pid d st s -> LOGSIZE <= log_size (k_log s) -> 0 <= st /\ st + LOGSIZE < 2 ^ 31 ->
  (forall s1, begin_op s = Ret tt s1 -> op_view (dget (k_disk s)) [] [] s1 -> op_open s1 -> woke (set_log (set_outstanding 1 (k_log s)) s) s1 ->
     exists s2, k s1 = Ret a s2 /\ op_view C' L [] s2 /\ op_body s1 s2) ->
  L <> [] -> Z.of_nat (length L) < LOGSIZE -> (forall b, b ∈ L -> ~ in_log st b) ->
  (exists s', (do! begin_op; let! x := k in do! end_op; kret x) s = Ret a s' /\ quiescent me pid d st s' /\
     k_writes s' = k_writes s ++ commit_ws st L C' /\
     forall b, ~ in_log st b -> dget (k_disk s') b = C' b) /\
  (forall p sb s1,
     sb_logstart sb = st ->
     idle me pid d (set_locks (<[LKlog := lock_free]> (k_locks s1)) s1) ->
     Z.of_nat (length (lh_block (log_lh (k_log s1)))) = LOGSIZE ->
     k_disk s1 = dapply (take p (commit_ws st L C')) (k_disk s) ->
     exists s2, initlog d sb s1 = Ret tt s2 /\
       ((forall b, ~ in_log st b -> dget (k_disk s2) b = dget (k_disk s) b) \/
        (forall b, ~ in_log st b -> dget (k_disk s2) b = C' b))).
Proof using HD. apply op_runs_atomic. Qed.
End atomic.
