(* ===== verification/Vm.v ===== *)
(** * kernel/vm.c: page tables and user memory

    A page table is a page of RAM holding 512 little-endian entries; [walk]
    returns the address of an entry, 0 standing for the null pointer.

    [copyout] takes the bytes at its kernel source address and [copyin]
    returns the bytes it stores at its kernel destination: the kernel objects
    on the other side ([struct buf], [struct proc], locals) are not part of
    RAM in this model. *)

From S2P Require Import Prelude Param Mem CString Kernel Spinlock Kalloc.
Open Scope Z_scope.

Definition load64 (a : Z) : K Z := gets (fun s => ld64 (k_mem s) a).
Definition store64 (a v : Z) : K unit := modify (fun s => set_mem (st64 (k_mem s) a v) s).

(** [x & mask] as a condition *)
Definition has (x mask : Z) : bool := negb (Z.land x mask =? 0).

Section vm.
Context `{L : Linker}.

(** ** Walking *)

(** One iteration of [walk]'s loop: the next table, or [None] to return 0. *)
Definition walk_step (pagetable va level : Z) (alloc : bool) : K (option Z) :=
  let pte := pagetable + 8 * PX level va in
  let! v := load64 pte in
  if has v PTE_V then kret (Some (PTE2PA v))
  else if negb alloc then kret None
  else
    let! page := kalloc in
    if page =? 0 then kret None else
    do! modify_mem (fun m => memset m page 0 PGSIZE);
    do! store64 pte (Z.lor (PA2PTE page) PTE_V);
    kret (Some page).

Definition walk (pagetable va : Z) (alloc : bool) : K Z :=
  if va >=? MAXVA then panic "walk" else
  let! t1 := walk_step pagetable va 2 alloc in
  match t1 with
  | None => kret 0
  | Some t1 =>
    let! t0 := walk_step t1 va 1 alloc in
    match t0 with
    | None => kret 0
    | Some t0 => kret (t0 + 8 * PX 0 va)
    end
  end.

Definition walkaddr (pagetable va : Z) : K Z :=
  if va >=? MAXVA then kret 0 else
  let! pte := walk pagetable va false in
  if pte =? 0 then kret 0 else
  let! v := load64 pte in
  if negb (has v PTE_V) then kret 0 else
  if negb (has v PTE_U) then kret 0 else
  kret (PTE2PA v).

(** ** Mapping *)

Fixpoint mappages_loop (fuel : nat) (pagetable a last pa perm : Z) : K Z :=
  match fuel with
  | O => fun _ => NoFuel
  | S fuel =>
    let! pte := walk pagetable a true in
    if pte =? 0 then kret (-1) else
    let! v := load64 pte in
    if has v PTE_V then panic "mappages: remap" else
    do! store64 pte (Z.lor (Z.lor (PA2PTE pa) perm) PTE_V);
    if a =? last then kret 0 else
    mappages_loop fuel pagetable (u64 (a + PGSIZE)) last (u64 (pa + PGSIZE)) perm
  end.

(** One step per page up to [last], or up to [MAXVA], where [walk] panics. *)
Definition mappages_fuel (a last : Z) : nat :=
  if a <=? last then S (Z.to_nat ((last - a) / PGSIZE)) else S (Z.to_nat ((MAXVA - a) / PGSIZE)).

Definition mappages (pagetable va size pa perm : Z) : K Z :=
  if size =? 0 then panic "mappages: size" else
  let a := PGROUNDDOWN va in
  let last := PGROUNDDOWN (u64 (va + size - 1)) in
  mappages_loop (mappages_fuel a last) pagetable a last pa perm.

Definition kvmmap (kpgtbl va pa sz perm : Z) : K unit :=
  let! r := mappages kpgtbl va sz pa perm in
  if! negb (r =? 0) then panic "kvmmap".

(** [proc_mapstacks] of proc.c *)
Definition proc_mapstacks (kpgtbl : Z) : K unit :=
  kfor (seq 0 NPROC) (fun p =>
    let! pa := kalloc in
    if pa =? 0 then panic "kalloc" else
    kvmmap kpgtbl (KSTACK (Z.of_nat p)) pa PGSIZE (Z.lor PTE_R PTE_W)).

Definition kvmmake : K Z :=
  let! kpgtbl := kalloc in
  do! modify_mem (fun m => memset m kpgtbl 0 PGSIZE);
  do! kvmmap kpgtbl UART0 UART0 PGSIZE (Z.lor PTE_R PTE_W);
  do! kvmmap kpgtbl VIRTIO0 VIRTIO0 PGSIZE (Z.lor PTE_R PTE_W);
  do! kvmmap kpgtbl PLIC PLIC 0x400000 (Z.lor PTE_R PTE_W);
  do! kvmmap kpgtbl KERNBASE KERNBASE (sym_etext - KERNBASE) (Z.lor PTE_R PTE_X);
  do! kvmmap kpgtbl sym_etext sym_etext (PHYSTOP - sym_etext) (Z.lor PTE_R PTE_W);
  do! kvmmap kpgtbl TRAMPOLINE sym_trampoline PGSIZE (Z.lor PTE_R PTE_X);
  do! proc_mapstacks kpgtbl;
  kret kpgtbl.

Definition kvminit : K unit :=
  let! t := kvmmake in
  modify (set_kpagetable t).

(** ** Unmapping *)

Fixpoint uvmunmap_loop (fuel : nat) (pagetable a stop : Z) (do_free : bool) : K unit :=
  match fuel with
  | O => fun _ => NoFuel
  | S fuel =>
    if a <? stop then
      let! pte := walk pagetable a false in
      if pte =? 0 then panic "uvmunmap: walk" else
      let! v := load64 pte in
      if negb (has v PTE_V) then panic "uvmunmap: not mapped" else
      if PTE_FLAGS v =? PTE_V then panic "uvmunmap: not a leaf" else
      do! if! do_free then kfree (PTE2PA v);
      do! store64 pte 0;
      uvmunmap_loop fuel pagetable (u64 (a + PGSIZE)) stop do_free
    else kret tt
  end.

Definition uvmunmap (pagetable va npages : Z) (do_free : bool) : K unit :=
  if negb (va mod PGSIZE =? 0) then panic "uvmunmap: not aligned" else
  uvmunmap_loop (S (Z.to_nat npages)) pagetable va (u64 (va + npages * PGSIZE)) do_free.

Definition uvmcreate : K Z :=
  let! pagetable := kalloc in
  if pagetable =? 0 then kret 0 else
  do! modify_mem (fun m => memset m pagetable 0 PGSIZE);
  kret pagetable.

(** [src] is the [sz] bytes of the initial program. *)
Definition uvmfirst (pagetable : Z) (src : list Z) : K unit :=
  if Z.of_nat (length src) >=? PGSIZE then panic "uvmfirst: more than a page" else
  let! mem := kalloc in
  do! modify_mem (fun m => memset m mem 0 PGSIZE);
  let! _ := mappages pagetable 0 PGSIZE mem (Z.lor (Z.lor (Z.lor PTE_W PTE_R) PTE_X) PTE_U) in
  modify_mem (fun m => st_bytes m mem src).

Definition uvmdealloc (pagetable oldsz newsz : Z) : K Z :=
  if newsz >=? oldsz then kret oldsz else
  do! if! PGROUNDUP newsz <? PGROUNDUP oldsz then
    (let npages := s32 ((PGROUNDUP oldsz - PGROUNDUP newsz) / PGSIZE) in
     uvmunmap pagetable (PGROUNDUP newsz) npages true);
  kret newsz.

Fixpoint uvmalloc_loop (fuel : nat) (pagetable a oldsz newsz xperm : Z) : K Z :=
  match fuel with
  | O => fun _ => NoFuel
  | S fuel =>
    if a <? newsz then
      let! mem := kalloc in
      if mem =? 0 then
        let! _ := uvmdealloc pagetable a oldsz in
        kret 0
      else
      do! modify_mem (fun m => memset m mem 0 PGSIZE);
      let! r := mappages pagetable a PGSIZE mem (Z.lor (Z.lor PTE_R PTE_U) xperm) in
      if negb (r =? 0) then
        do! kfree mem;
        let! _ := uvmdealloc pagetable a oldsz in
        kret 0
      else uvmalloc_loop fuel pagetable (u64 (a + PGSIZE)) oldsz newsz xperm
    else kret newsz
  end.

Definition uvmalloc (pagetable oldsz newsz xperm : Z) : K Z :=
  if newsz <? oldsz then kret oldsz else
  let oldsz := PGROUNDUP oldsz in
  uvmalloc_loop (S (S (Z.to_nat ((newsz - oldsz) / PGSIZE)))) pagetable oldsz oldsz newsz xperm.

(** [depth] bounds the recursion: a page table has three levels. *)
Fixpoint freewalk_at (depth : nat) (pagetable : Z) : K unit :=
  match depth with
  | O => fun _ => NoFuel
  | S depth =>
    do! kfor (seq 0 512) (fun i =>
          let! pte := load64 (pagetable + 8 * Z.of_nat i) in
          if has pte PTE_V && (Z.land pte (Z.lor (Z.lor PTE_R PTE_W) PTE_X) =? 0) then
            do! freewalk_at depth (PTE2PA pte);
            store64 (pagetable + 8 * Z.of_nat i) 0
          else if has pte PTE_V then panic "freewalk: leaf"
          else kret tt);
    kfree pagetable
  end.

Definition freewalk (pagetable : Z) : K unit := freewalk_at 3 pagetable.

Definition uvmfree (pagetable sz : Z) : K unit :=
  do! if! sz >? 0 then uvmunmap pagetable 0 (PGROUNDUP sz / PGSIZE) true;
  freewalk pagetable.

Definition uvmcopy_err (new i : Z) : K Z :=
  do! uvmunmap new 0 (i / PGSIZE) true;
  kret (-1).

Fixpoint uvmcopy_loop (fuel : nat) (old new i sz : Z) : K Z :=
  match fuel with
  | O => fun _ => NoFuel
  | S fuel =>
    if i <? sz then
      let! pte := walk old i false in
      if pte =? 0 then panic "uvmcopy: pte should exist" else
      let! v := load64 pte in
      if negb (has v PTE_V) then panic "uvmcopy: page not present" else
      let pa := PTE2PA v in
      let flags := PTE_FLAGS v in
      let! mem := kalloc in
      if mem =? 0 then uvmcopy_err new i else
      do! modify_mem (fun m => memmove m mem pa PGSIZE);
      let! r := mappages new i PGSIZE mem flags in
      if negb (r =? 0) then
        do! kfree mem;
        uvmcopy_err new i
      else uvmcopy_loop fuel old new (u64 (i + PGSIZE)) sz
    else kret 0
  end.

Definition uvmcopy (old new sz : Z) : K Z :=
  uvmcopy_loop (S (S (Z.to_nat (sz / PGSIZE)))) old new 0 sz.

Definition uvmclear (pagetable va : Z) : K unit :=
  let! pte := walk pagetable va false in
  if pte =? 0 then panic "uvmclear" else
  let! v := load64 pte in
  store64 pte (Z.land v (Z.lnot PTE_U)).

(** ** Copying between user and kernel memory *)

(** Bytes the copy loops transfer in one page, and how often they run: once
    per page the range touches. *)
Definition in_page (va va0 len : Z) : Z := let n := PGSIZE - (va - va0) in if n >? len then len else n.
Definition copy_fuel (len : Z) : nat := S (S (S (Z.to_nat (len / PGSIZE)))).

Fixpoint copyout_loop (fuel : nat) (pagetable dstva : Z) (src : list Z) : K Z :=
  match fuel with
  | O => fun _ => NoFuel
  | S fuel =>
    let len := Z.of_nat (length src) in
    if len >? 0 then
      let va0 := PGROUNDDOWN dstva in
      let! pa0 := walkaddr pagetable va0 in
      if pa0 =? 0 then kret (-1) else
      let n := in_page dstva va0 len in
      do! modify_mem (fun m => st_bytes m (pa0 + (dstva - va0)) (take (Z.to_nat n) src));
      copyout_loop fuel pagetable (u64 (va0 + PGSIZE)) (drop (Z.to_nat n) src)
    else kret 0
  end.

Definition copyout (pagetable dstva : Z) (src : list Z) : K Z :=
  copyout_loop (copy_fuel (Z.of_nat (length src))) pagetable dstva src.

(** The status and the bytes stored at [dst]. *)
Fixpoint copyin_loop (fuel : nat) (pagetable : Z) (dst : list Z) (srcva len : Z) : K (Z * list Z) :=
  match fuel with
  | O => fun _ => NoFuel
  | S fuel =>
    if len >? 0 then
      let va0 := PGROUNDDOWN srcva in
      let! pa0 := walkaddr pagetable va0 in
      if pa0 =? 0 then kret (-1, dst) else
      let n := in_page srcva va0 len in
      let! bytes := gets (fun s => ld_bytes (k_mem s) (pa0 + (srcva - va0)) (Z.to_nat n)) in
      copyin_loop fuel pagetable (dst ++ bytes) (u64 (va0 + PGSIZE)) (len - n)
    else kret (0, dst)
  end.

Definition copyin (pagetable srcva len : Z) : K (Z * list Z) :=
  copyin_loop (copy_fuel len) pagetable [] srcva len.

(** The inner loop of [copyinstr]: the bytes copied and whether it met the
    terminator. *)
Fixpoint copy_until_nul (m : memory) (p : Z) (n : nat) : list Z * bool :=
  match n with
  | O => ([], false)
  | S n =>
    if ld8 m p =? 0 then ([0], true)
    else let (l, got_null) := copy_until_nul m (p + 1) n in (ld8 m p :: l, got_null)
  end.

Fixpoint copyinstr_loop (fuel : nat) (pagetable : Z) (dst : list Z) (srcva max : Z) : K (Z * list Z) :=
  match fuel with
  | O => fun _ => NoFuel
  | S fuel =>
    if max >? 0 then
      let va0 := PGROUNDDOWN srcva in
      let! pa0 := walkaddr pagetable va0 in
      if pa0 =? 0 then kret (-1, dst) else
      let n := in_page srcva va0 max in
      let! m := gets (fun s => k_mem s) in
      let (bytes, got_null) := copy_until_nul m (pa0 + (srcva - va0)) (Z.to_nat n) in
      if (got_null : bool) then kret (0, dst ++ bytes)
      else copyinstr_loop fuel pagetable (dst ++ bytes) (u64 (va0 + PGSIZE)) (max - n)
    else kret (-1, dst)
  end.

Definition copyinstr (pagetable srcva max : Z) : K (Z * list Z) :=
  copyinstr_loop (copy_fuel max) pagetable [] srcva max.

End vm.
