(* ===== verification/PageTable.v ===== *)
(** * Page tables as maps

    The abstract view of a three-level page table is [xpte]: the entry that
    governs each virtual address, 0 where there is none.  [pt_ok] says the
    tables form a tree of distinct pages that are not on the free list.  The
    theorems state [walk], [mappages], [uvmunmap] and [walkaddr] of
    [kernel/vm.c] on this view. *)

From S2P Require Import Prelude Param Mem CString Kernel Spinlock Kalloc Sched Sleeplock Vm.
Open Scope Z_scope.

(** ** Entries and nodes *)

Definition ent (m : memory) (t i : Z) : Z := ld64 m (t + 8 * i).
Definition child (m : memory) (t i : Z) : option Z :=
  if has (ent m t i) PTE_V then Some (PTE2PA (ent m t i)) else None.

(** The table reached from [t] along a list of indices. *)
Fixpoint node (m : memory) (t : Z) (p : list Z) : option Z :=
  match p with
  | [] => Some t
  | i :: p => child m t i ≫= fun t' => node m t' p
  end.

Definition idx (i : Z) : Prop := 0 <= i < 512.
Definition path (p : list Z) : Prop := (length p <= 2)%nat /\ Forall idx p.

Definition vpath (va : Z) : list Z := [PX 2 va; PX 1 va].

(** The entry for [va]. *)
Definition xpte (m : memory) (root va : Z) : Z :=
  match node m root (vpath va) with
  | Some t => ent m t (PX 0 va)
  | None => 0
  end.

Lemma node_snoc m t p i : node m t (p ++ [i]) = node m t p ≫= fun u => child m u i.
Proof.
  revert t. induction p as [|j p IH]; intros t; simpl.
  - by destruct (child m t i).
  - destruct (child m t j); simpl; [apply IH|done].
Qed.

Lemma node_app m t p q : node m t (p ++ q) = node m t p ≫= fun u => node m u q.
Proof.
  revert t. induction p as [|j p IH]; intros t; simpl; [done|].
  destruct (child m t j); simpl; [apply IH|done].
Qed.

Lemma path_snoc p i : path (p ++ [i]) -> path p /\ idx i.
Proof.
  intros [H1 H2]. rewrite length_app in H1. simpl in H1. apply Forall_app in H2 as [H2 H3].
  apply Forall_cons in H3 as [H3 _]. split; [split; [lia|done]|done].
Qed.

Lemma path_vpath va : path (vpath va).
Proof. split; [done|]. repeat constructor; apply PX_range. Qed.

Section tables.
Context `{L : Linker, !LinkerOk}.

(** The tables are distinct pages, none of them free. *)
Record pt_ok (m : memory) (root : Z) (l : list Z) : Prop := {
  po_page p t : path p -> node m root p = Some t -> page_ok t;
  po_free p t : path p -> node m root p = Some t -> t ∉ l;
  po_inj p q t : path p -> path q -> node m root p = Some t -> node m root q = Some t -> p = q
}.

(** Entries above the last level lead to tables: no permission bits; and the
    upper half of the root, beyond [MAXVA], is empty. *)
Record pt_shape (m : memory) (root : Z) : Prop := {
  sh_inner p i t : path (p ++ [i]) -> node m root p = Some t -> has (ent m t i) PTE_V = true ->
    Z.land (ent m t i) (Z.lor (Z.lor PTE_R PTE_W) PTE_X) = 0;
  sh_low i : 256 <= i < 512 -> child m root i = None
}.

(** Entries of pages in use agree, except entry [i] of table [t]. *)
Definition same_ents (l : list Z) (t i : Z) (m m' : memory) : Prop :=
  forall u j, page_ok u -> u ∉ l -> idx j -> ~ (u = t /\ j = i) -> ent m' u j = ent m u j.

(** Paths that do not go through the changed entry lead where they did. *)
Lemma node_frame m m' root l t i p q :
  pt_ok m root l -> same_ents l t i m m' -> path p -> node m root p = Some t -> path q ->
  (forall q', q <> p ++ i :: q') -> node m' root q = node m root q.
Proof.
  intros Hok Hs Hp Ht. induction q as [|j q IH] using rev_ind; intros Hq Hn; [done|].
  destruct (path_snoc _ _ Hq) as [Hq' Hj]. rewrite !node_snoc. rewrite IH; [|done|].
  - destruct (node m root q) as [u|] eqn:Eu; [|done]. simpl. unfold child.
    rewrite Hs; [done|by eapply po_page|by eapply po_free|done|].
    intros [-> ->]. apply (Hn []). f_equal. by apply (po_inj _ _ _ Hok q p t).
  - intros q' E. apply (Hn (q' ++ [j])). by rewrite E, <- app_assoc.
Qed.

Lemma not_through_self {A} (p : list A) i q' : p <> p ++ i :: q'.
Proof. intros E. apply (f_equal length) in E. rewrite length_app in E. simpl in E. lia. Qed.

(** ** Adding an empty table *)

Section add.
Context (m m' : memory) (root : Z) (l : list Z) (t i n : Z) (p : list Z).
Hypothesis Hok : pt_ok m root (n :: l).
Hypothesis Hs : same_ents (n :: l) t i m m'.
Hypothesis Hp : path p.
Hypothesis Ht : node m root p = Some t.
Hypothesis Hi : idx i.
Hypothesis Hold : child m t i = None.
Hypothesis Hnew : child m' t i = Some n.
Hypothesis Hzero : forall j, idx j -> ent m' n j = 0.
Hypothesis Hn : page_ok n.
Hypothesis Hnl : n ∉ l.

Lemma add_through q' : Forall idx q' ->
  node m' root (p ++ i :: q') = match q' with [] => Some n | _ => None end.
Proof using Hok Hs Hp Ht Hnew Hzero.
  intros Hq. rewrite node_app. rewrite (node_frame m m' root (n :: l) t i p p) by
    (done || apply not_through_self).
  rewrite Ht. simpl. rewrite Hnew. simpl. destruct q' as [|j q']; [done|]. simpl.
  apply Forall_cons in Hq as [Hj _]. unfold child. by rewrite Hzero.
Qed.

(** A path goes through the changed entry or not. *)
Lemma through_dec q : path q ->
  (exists q', q = p ++ i :: q' /\ Forall idx q') \/ (forall q', q <> p ++ i :: q').
Proof using Type.
  intros [_ Hq]. destruct (decide ((p ++ [i]) `prefix_of` q)) as [[q' E]|E].
  - left. exists q'. rewrite E, <- app_assoc in Hq. apply Forall_app in Hq as [_ Hq].
    apply Forall_cons in Hq as [_ Hq]. rewrite E, <- app_assoc. done.
  - right. intros q' ->. apply E. exists q'. by rewrite <- app_assoc.
Qed.

(** Every table afterwards is the new one or an old one. *)
Lemma add_nodes q u : path q -> node m' root q = Some u ->
  (q = p ++ [i] /\ u = n) \/ node m root q = Some u.
Proof using Hok Hs Hp Ht Hnew Hzero.
  intros Hq Hu. destruct (through_dec q Hq) as [(q' & -> & Hq')|E].
  - left. rewrite add_through in Hu by done. destruct q'; [|done]. injection Hu as <-. done.
  - right. rewrite <- Hu. symmetry. by apply (node_frame m m' root (n :: l) t i p).
Qed.

Lemma add_mono q u : path q -> node m root q = Some u -> node m' root q = node m root q.
Proof using Hok Hs Hp Ht Hold.
  intros Hq Hu. apply (node_frame m m' root (n :: l) t i p); try done. intros q' ->.
  rewrite node_app, Ht in Hu. simpl in Hu. by rewrite Hold in Hu.
Qed.

Lemma add_pt_ok : pt_ok m' root l.
Proof using All.
  assert (Hne : forall q u, path q -> node m root q = Some u -> u <> n).
  { intros q u Hq Hu ->. apply (po_free _ _ _ Hok q n Hq Hu). left. }
  split.
  - intros q u Hq Hu. destruct (add_nodes q u Hq Hu) as [[_ ->]|Ho]; [done|].
    by apply (po_page _ _ _ Hok q).
  - intros q u Hq Hu Hin. destruct (add_nodes q u Hq Hu) as [[_ ->]|Ho]; [done|].
    apply (po_free _ _ _ Hok q u Hq Ho). by right.
  - intros q r u Hq Hr Hu Hv.
    destruct (add_nodes q u Hq Hu) as [[Eq ->]|Ho], (add_nodes r _ Hr Hv) as [[Er E]|Ho'].
    + congruence.
    + by apply Hne in Ho'.
    + subst u. by apply Hne in Ho.
    + by apply (po_inj _ _ _ Hok q r u).
Qed.

Lemma add_shape : (length p <= 1)%nat -> (p = [] -> i < 256) ->
  Z.land (ent m' t i) (Z.lor (Z.lor PTE_R PTE_W) PTE_X) = 0 -> pt_shape m root -> pt_shape m' root.
Proof using Hok Hs Hp Ht Hnew Hzero.
  intros Hlen Hlow Hfl [S1 S2].
  assert (Hr : path []) by (split; [simpl; lia|constructor]). split.
  - intros q j u Hq Hu Hv. destruct (path_snoc _ _ Hq) as [Hq' Hj].
    destruct (add_nodes q u Hq' Hu) as [[-> ->]|Ho]; [by rewrite Hzero in Hv |- *|].
    destruct (decide (u = t /\ j = i)) as [[-> ->]|Hne]; [done|].
    rewrite Hs in Hv |- *; try done; try (by apply (po_page _ _ _ Hok q)); try (by apply (po_free _ _ _ Hok q)).
    by apply (S1 q j u).
  - intros j Hj. rewrite <- (S2 j Hj). unfold child. rewrite Hs; [done| | |unfold idx; lia|].
    + exact (po_page _ _ _ Hok [] root Hr eq_refl).
    + exact (po_free _ _ _ Hok [] root Hr eq_refl).
    + intros [-> ->]. rewrite (po_inj _ _ _ Hok p [] t Hp Hr Ht eq_refl) in Hlow. specialize (Hlow eq_refl). lia.
Qed.

(** An empty table changes no translation. *)
Lemma add_xpte va : (length p <= 1)%nat -> xpte m' root va = xpte m root va.
Proof using All.
  intros Hlen. unfold xpte. pose proof (path_vpath va) as Hv.
  destruct (through_dec (vpath va) Hv) as [(q' & E & Hq')|E].
  - rewrite E, add_through by done. rewrite node_app, Ht. simpl. rewrite Hold. simpl.
    destruct q'; [|done]. apply Hzero, PX_range.
  - rewrite (node_frame m m' root (n :: l) t i p _ Hok Hs Hp Ht Hv E).
    destruct (node m root (vpath va)) as [u|] eqn:Eu; [|done].
    apply Hs; [by apply (po_page _ _ _ Hok (vpath va))|by apply (po_free _ _ _ Hok (vpath va))|
      apply PX_range|]. intros [-> _].
    pose proof (po_inj _ _ _ Hok (vpath va) p t Hv Hp Eu Ht) as Ev.
    rewrite <- Ev in Hlen. simpl in Hlen. lia.
Qed.
End add.

(** ** Writing a leaf entry *)

(** The page of a virtual address is its three indices. *)
Lemma same_page va va' :
  0 <= va < MAXVA -> 0 <= va' < MAXVA -> vpath va' = vpath va -> PX 0 va' = PX 0 va ->
  va' / PGSIZE = va / PGSIZE.
Proof.
  unfold vpath. intros Hv Hv' [= E2 E1] E0. rewrite !PX_eq in E0, E1, E2 by lia.
  change MAXVA with (2 ^ 38) in *. unfold PGSIZE. simpl in *. zlia.
Qed.

Lemma PX_page level va : 0 <= level -> PX level va = (va / PGSIZE / 2 ^ (9 * level)) mod 512.
Proof.
  intros Hl. rewrite PX_eq by done. unfold PGSIZE. rewrite Z.div_div by lia.
  rewrite Z.pow_add_r by lia. done.
Qed.

Lemma same_page_idx va va' :
  va' / PGSIZE = va / PGSIZE -> vpath va' = vpath va /\ PX 0 va' = PX 0 va.
Proof. unfold vpath. intros E. rewrite !PX_page by lia. by rewrite E. Qed.

Section leaf.
Context (m m' : memory) (root : Z) (l : list Z) (va t v : Z).
Hypothesis Hok : pt_ok m root l.
Hypothesis Hva : 0 <= va < MAXVA.
Hypothesis Ht : node m root (vpath va) = Some t.
Hypothesis Hs : same_ents l t (PX 0 va) m m'.
Hypothesis Hv : ent m' t (PX 0 va) = v.

Lemma leaf_node q : path q -> node m' root q = node m root q.
Proof using Hok Ht Hs.
  intros Hq. eapply (node_frame m m' root l t (PX 0 va) (vpath va)); eauto using path_vpath.
  intros q' ->. destruct Hq as [Hq _]. rewrite length_app in Hq. simpl in Hq. lia.
Qed.

Lemma leaf_pt_ok : pt_ok m' root l.
Proof using Hok Ht Hs.
  split; intros *.
  - intros Hp. rewrite leaf_node by done. by apply (po_page _ _ _ Hok).
  - intros Hp. rewrite leaf_node by done. by apply (po_free _ _ _ Hok).
  - intros Hp Hq. rewrite !leaf_node by done. by apply (po_inj _ _ _ Hok).
Qed.

Lemma leaf_shape : pt_shape m root -> pt_shape m' root.
Proof using Hok Ht Hs.
  intros [S1 S2].
  assert (Hr : path []) by (split; [simpl; lia|constructor]).
  assert (He : forall q u j, path q -> (length q <= 1)%nat -> node m root q = Some u -> idx j -> ent m' u j = ent m u j).
  { intros q u j Hq Hlen Hu Hj. apply Hs; [by apply (po_page _ _ _ Hok q)|by apply (po_free _ _ _ Hok q)|done|].
    intros [-> _]. rewrite (po_inj _ _ _ Hok q (vpath va) t Hq (path_vpath va) Hu Ht) in Hlen. simpl in Hlen. lia. }
  split.
  - intros q j u Hq Hu. destruct (path_snoc _ _ Hq) as [Hq' Hj]. rewrite leaf_node in Hu by done.
    rewrite (He q u j Hq'); [by apply (S1 q)| |done|done]. destruct Hq as [Hq _]. rewrite length_app in Hq. simpl in Hq. lia.
  - intros j Hj. rewrite <- (S2 j Hj). unfold child. by rewrite (He [] root j Hr) by (simpl; unfold idx; lia || done).
Qed.

Lemma leaf_xpte va' : 0 <= va' < MAXVA ->
  xpte m' root va' = if decide (va' / PGSIZE = va / PGSIZE) then v else xpte m root va'.
Proof using All.
  intros Hva'. unfold xpte. rewrite leaf_node by apply path_vpath. case_decide as E.
  - destruct (same_page_idx va va' E) as [-> ->]. by rewrite Ht, Hv.
  - destruct (node m root (vpath va')) as [u|] eqn:Eu; [|done].
    apply Hs; [by eapply (po_page _ _ _ Hok), Eu; apply path_vpath|
      by eapply (po_free _ _ _ Hok), Eu; apply path_vpath|apply PX_range|].
    intros [-> E0]. apply E, same_page; try done.
    apply (po_inj _ _ _ Hok _ _ t); eauto using path_vpath.
Qed.
End leaf.
(** ** Entries as numbers *)

Lemma has_V v : has v PTE_V = Z.odd v.
Proof.
  unfold has, PTE_V. change (Z.shiftl 1 0) with (Z.ones 1). rewrite Z.land_ones by lia.
  rewrite Zmod_odd. by destruct (Z.odd v).
Qed.

(** What [mappages] and [walk] store. *)
Definition mkpte (pa perm : Z) : Z := Z.lor (Z.lor (PA2PTE pa) perm) PTE_V.

Lemma lor_V_range perm : 0 <= perm < 1024 -> 0 <= Z.lor perm PTE_V < 1024.
Proof.
  intros Hp. assert (Hz : Z.lor perm PTE_V = Z.lor perm PTE_V mod 2 ^ 10); [|rewrite Hz; zlia].
  symmetry. apply Z.bits_inj'. intros n Hn. rewrite Z.testbit_mod_pow2 by lia.
  destruct (Z.ltb_spec n 10); [done|]. rewrite andb_false_l, Z.lor_spec.
  rewrite <- (Z.mod_small perm (2 ^ 10)) by lia. rewrite Z.testbit_mod_pow2 by lia.
  rewrite (proj2 (Z.ltb_ge n 10)) by lia. rewrite andb_false_l, orb_false_l.
  change PTE_V with (2 ^ 0). symmetry. apply Z.pow2_bits_false. lia.
Qed.

Lemma mkpte_eq pa perm :
  0 <= pa < 2 ^ 56 -> 0 <= perm < 1024 -> mkpte pa perm = pa / 4096 * 1024 + Z.lor perm PTE_V.
Proof.
  intros Hpa Hp. unfold mkpte. rewrite <- Z.lor_assoc. apply PA2PTE_lor; [done|].
  by apply lor_V_range.
Qed.

Lemma mkpte_spec pa perm :
  0 <= pa < 2 ^ 56 -> pa mod PGSIZE = 0 -> 0 <= perm < 1024 ->
  has (mkpte pa perm) PTE_V = true /\ PTE2PA (mkpte pa perm) = pa /\
  PTE_FLAGS (mkpte pa perm) = Z.lor perm PTE_V /\ 0 <= mkpte pa perm < 2 ^ 64.
Proof.
  intros Hpa Ha Hp. pose proof (lor_V_range perm Hp) as Hr. unfold PGSIZE in Ha.
  rewrite mkpte_eq by done. split_and!.
  - rewrite has_V. replace (pa / 4096 * 1024) with (2 * (pa / 4096 * 512)) by lia.
    rewrite Z.add_comm, Z.odd_add_mul_2. rewrite <- Z.bit0_odd, Z.lor_spec. by rewrite orb_true_r.
  - rewrite PTE2PA_eq by zlia. zlia.
  - rewrite PTE_FLAGS_eq. zlia.
  - zlia.
  - zlia.
Qed.

Lemma page_bounds p : page_ok p -> 0 <= p < 2 ^ 56 /\ p mod PGSIZE = 0.
Proof.
  intros Hp. pose proof (page_pos p Hp). destruct Hp as [Ha Hb]. unfold PHYSTOP, KERNBASE in Hb. lia.
Qed.

(** ** Stores into tables *)

Lemma slot_disjoint u j t i :
  page_ok u -> page_ok t -> idx j -> idx i -> ~ (u = t /\ j = i) ->
  u + 8 * j + 8 <= t + 8 * i \/ t + 8 * i + 8 <= u + 8 * j.
Proof.
  intros Hu Ht Hj Hi Hne. unfold idx in *. destruct (decide (u = t)) as [->|Hut]; [lia|].
  destruct (page_disjoint u t Hu Ht Hut); unfold PGSIZE in *; lia.
Qed.

Lemma ent_store m t i v u j :
  page_ok t -> idx i -> page_ok u -> idx j ->
  ent (st64 m (t + 8 * i) v) u j = if decide (u = t /\ j = i) then u64 v else ent m u j.
Proof.
  intros Ht Hi Hu Hj. unfold ent. case_decide as E.
  - destruct E as [-> ->]. rewrite ld_st_eq. done.
  - apply ld_st_ne. simpl. pose proof (slot_disjoint u j t i Hu Ht Hj Hi E). lia.
Qed.

(** A slot is inside its table's page. *)
Lemma store_outside m t i v a :
  idx i -> a < t \/ t + PGSIZE <= a -> ld8 (st64 m (t + 8 * i) v) a = ld8 m a.
Proof. intros Hi Ha. unfold idx, PGSIZE in *. apply ld8_st_out. simpl. lia. Qed.

(** Changing memory but not the free pages. *)
Lemma kmem_inv_mem m s l :
  kmem_inv s l -> mem_ok m -> (forall q, q ∈ l -> ld64 m q = ld64 (k_mem s) q) ->
  kmem_inv (set_mem m s) l.
Proof.
  intros [H1 H2 H3 H4 H5 H6] Hm Hq. split; try done.
  apply (flist_ext (k_mem s) m); [|done]. intros q Hl. symmetry. by apply Hq.
Qed.

Lemma store_kmem t i v s l :
  kmem_inv s l -> page_ok t -> t ∉ l -> idx i -> kmem_inv (set_mem (st64 (k_mem s) (t + 8 * i) v) s) l.
Proof.
  intros Hk Ht Hn Hi. apply kmem_inv_mem; [done|apply st_ok, Hk|].
  intros q Hq. apply ld_st_ne. pose proof (ki_pages _ _ Hk) as Hp. rewrite Forall_forall in Hp.
  assert (Hne : q <> t) by (by intros ->).
  destruct (page_disjoint q t (Hp q Hq) Ht Hne); unfold idx, PGSIZE in *; simpl; lia.
Qed.

(** ** How the operations change the tables *)

Definition is_node (m : memory) (root t : Z) : Prop := exists p, path p /\ node m root p = Some t.

(** From [s] with free pages [l] to [s'] with free pages [l']: the pages taken
    out of [l] have become tables; memory outside the tables and [l] is untouched, and
    so is the rest of the state. *)
Record pt_rel (root : Z) (l : list Z) (s : kst) (l' : list Z) (s' : kst) : Prop := {
  pr_kmem : kmem_inv s' l';
  pr_ok : pt_ok (k_mem s') root l';
  pr_frame : norm s' = set_mem (k_mem s') (set_freelist (k_freelist s') (norm s));
  pr_used : exists us, l = us ++ l' /\ Forall (is_node (k_mem s') root) us;
  pr_mono t : is_node (k_mem s) root t -> is_node (k_mem s') root t;
  pr_nodes t : is_node (k_mem s') root t -> is_node (k_mem s) root t \/ t ∈ l;
  pr_out a : (forall q, is_node (k_mem s) root q \/ q ∈ l -> a < q \/ q + PGSIZE <= a) ->
    ld8 (k_mem s') a = ld8 (k_mem s) a;
  pr_shape : pt_shape (k_mem s) root -> pt_shape (k_mem s') root
}.

Lemma pt_rel_refl root l s : kmem_inv s l -> pt_ok (k_mem s) root l -> pt_rel root l s l s.
Proof. intros Hk Ho. split; [done|done|reflexivity|by exists []|auto|auto|auto|auto]. Qed.

Lemma pt_rel_norm root l s :
  kmem_inv s l -> pt_ok (k_mem s) root l -> pt_rel root l s l (norm s).
Proof.
  intros Hk Ho. split; [by apply kmem_inv_norm|done| |by exists []|auto|auto|auto|auto].
  rewrite norm_norm by apply Hk. reflexivity.
Qed.

Lemma pt_rel_trans root l1 s1 l2 s2 l3 s3 :
  pt_rel root l1 s1 l2 s2 -> pt_rel root l2 s2 l3 s3 -> pt_rel root l1 s1 l3 s3.
Proof.
  intros [K1 O1 F1 (u1 & E1 & T1) G1 N1 M1 S1] [K2 O2 F2 (u2 & E2 & T2) G2 N2 M2 S2].
  assert (Hsub : forall q, q ∈ l2 -> q ∈ l1) by (intros; rewrite E1, elem_of_app; auto).
  split; [done|done| | |auto| | |auto].
  - rewrite F2, F1. reflexivity.
  - exists (u1 ++ u2). rewrite E1, E2, app_assoc. split; [done|]. apply Forall_app. split; [|done].
    by apply (Forall_impl _ _ _ T1).
  - intros t Ht. destruct (N2 t Ht) as [Ho|Hl]; [by apply N1|auto].
  - intros a Ha. rewrite M2; [by apply M1|]. intros q [Hq|Hq]; apply Ha; [by apply N1|auto].
Qed.

(** ** [walk] without allocation *)

Definition leaf_addr (m : memory) (root va : Z) : Z :=
  match node m root (vpath va) with
  | Some t => t + 8 * PX 0 va
  | None => 0
  end.

Lemma walk_step_child t va level alloc s u :
  child (k_mem s) t (PX level va) = Some u -> walk_step t va level alloc s = Ret (Some u) s.
Proof.
  unfold child, ent. intros Hc. unfold walk_step, load64. rewrite kbind_gets.
  case_match; [|done]. by injection Hc as ->.
Qed.

Lemma walk_step_none t va level s :
  child (k_mem s) t (PX level va) = None -> walk_step t va level false s = Ret None s.
Proof.
  unfold child, ent. intros Hc. unfold walk_step, load64. rewrite kbind_gets. by case_match.
Qed.

Lemma walk_run root va s :
  va < MAXVA -> walk root va false s = Ret (leaf_addr (k_mem s) root va) s.
Proof.
  intros Hva. unfold walk, leaf_addr, vpath. rewrite Z.geb_leb.
  destruct (Z.leb_spec MAXVA va); [lia|]. simpl.
  destruct (child (k_mem s) root (PX 2 va)) as [t1|] eqn:E1; simpl.
  - krun (walk_step_child root va 2 false s t1 E1).
    destruct (child (k_mem s) t1 (PX 1 va)) as [t0|] eqn:E0; simpl.
    + by krun (walk_step_child t1 va 1 false s t0 E0).
    + by krun (walk_step_none t1 va 1 s E0).
  - by krun (walk_step_none root va 2 s E1).
Qed.

(** ** [walk] with allocation *)

Lemma zeroed_ent m n j : idx j -> ent (memset m n 0 PGSIZE) n j = 0.
Proof.
  intros Hj. apply ld_zero. intros b Hb. unfold idx in Hj. rewrite ld8_memset_in; [done|].
  unfold PGSIZE. simpl in Hb. lia.
Qed.

Lemma same_outside_ent n m m' u j :
  same_outside n m m' -> page_ok n -> page_ok u -> u <> n -> idx j -> ent m' u j = ent m u j.
Proof.
  intros Hs Hn Hu Hne Hj. apply ld_ext. intros b Hb. apply Hs. unfold idx in Hj. simpl in Hb.
  destruct (page_disjoint u n Hu Hn Hne); unfold PGSIZE in *; lia.
Qed.

(** The memory in which [walk] has linked the zeroed page [n] at entry [i] of
    table [t]. *)
Section link.
Context (s s1 : kst) (root t i n : Z) (l : list Z) (p : list Z).
Hypothesis Hk : kmem_inv s (n :: l).
Hypothesis Ho : pt_ok (k_mem s) root (n :: l).
Hypothesis Hp : path p.
Hypothesis Hlen : (length p <= 1)%nat.
Hypothesis Ht : node (k_mem s) root p = Some t.
Hypothesis Hi : idx i.
Hypothesis Hold : child (k_mem s) t i = None.
Hypothesis Hlow : p = [] -> i < 256.
Hypothesis Hk1 : kmem_inv s1 l.
Hypothesis Hst : kmem_step s s1.
Hypothesis Hso : same_outside n (k_mem s) (k_mem s1).

Definition link_mem : memory :=
  st64 (memset (k_mem s1) n 0 PGSIZE) (t + 8 * i) (Z.lor (PA2PTE n) PTE_V).

Lemma link_page : page_ok n /\ n ∉ l.
Proof using Hk.
  clear -Hk. pose proof (ki_pages _ _ Hk) as Hp. apply Forall_cons in Hp as [Hp _].
  pose proof (ki_nodup _ _ Hk) as Hn. apply NoDup_cons in Hn as [Hn _]. done.
Qed.

Lemma link_table : page_ok t /\ t ∉ n :: l.
Proof using Ho Hp Ht.
  clear -Ho Hp Ht. split; [by apply (po_page _ _ _ Ho p)|by apply (po_free _ _ _ Ho p)].
Qed.

Lemma link_outside :
  same_outside n (k_mem s) (memset (k_mem s1) n 0 PGSIZE).
Proof using Hso.
  clear -Hso. intros a Ha. rewrite ld8_memset_out by (unfold PGSIZE in *; lia). by apply Hso.
Qed.

Lemma link_pte : Z.lor (PA2PTE n) PTE_V = mkpte n 0.
Proof using Type. clear. unfold mkpte. by rewrite Z.lor_0_r. Qed.

Lemma link_same : same_ents (n :: l) t i (k_mem s) link_mem.
Proof using All.
  destruct link_page as [Hn Hnl], link_table as [Htp Htl]. intros u j Hu Hul Hj Hne.
  unfold link_mem. rewrite ent_store by done. rewrite decide_False by done.
  apply (same_outside_ent n); auto using link_outside. set_solver.
Qed.

Lemma link_child : child link_mem t i = Some n.
Proof using All.
  destruct link_page as [Hn Hnl], link_table as [Htp Htl]. unfold child, link_mem.
  destruct (page_bounds n Hn) as [Hb Ha]. destruct (mkpte_spec n 0 Hb Ha) as (E1 & E2 & _ & E3); [lia|].
  rewrite !ent_store by done. rewrite !decide_True by done. rewrite link_pte.
  rewrite u64_small by done. by rewrite E1, E2.
Qed.

Lemma link_flags : Z.land (ent link_mem t i) (Z.lor (Z.lor PTE_R PTE_W) PTE_X) = 0.
Proof using All.
  destruct link_page as [Hn Hnl], link_table as [Htp Htl]. unfold link_mem.
  destruct (page_bounds n Hn) as [Hb Ha]. destruct (mkpte_spec n 0 Hb Ha) as (_ & _ & _ & E3); [lia|].
  rewrite ent_store by done. rewrite decide_True by done. rewrite link_pte, u64_small by done.
  rewrite mkpte_eq by (done || lia). change (Z.lor (Z.lor PTE_R PTE_W) PTE_X) with (Z.land (Z.ones 10) 14).
  rewrite Z.land_assoc, Z.land_ones by lia. rewrite Z.add_comm, Z.mod_add by lia. reflexivity.
Qed.

Lemma link_zero j : idx j -> ent link_mem n j = 0.
Proof using All.
  intros Hj. destruct link_page as [Hn Hnl], link_table as [Htp Htl]. unfold link_mem.
  rewrite ent_store by done. rewrite decide_False by set_solver. by apply zeroed_ent.
Qed.

Lemma link_node : node link_mem root (p ++ [i]) = Some n.
Proof using All.
  apply (add_through (k_mem s) link_mem root l t i n p Ho link_same Hp Ht link_child link_zero []).
  constructor.
Qed.

Lemma link_rel : pt_rel root (n :: l) s l (set_mem link_mem s1).
Proof using All.
  destruct link_page as [Hn Hnl], link_table as [Htp Htl]. split.
  - apply kmem_inv_mem; [done|unfold link_mem; apply st_ok, memset_ok, Hk1|].
    intros q Hq. pose proof (ki_pages _ _ Hk1) as Hps. rewrite Forall_forall in Hps.
    pose proof (Hps q Hq) as Hqp. replace q with (q + 8 * 0) by lia.
    change (ent link_mem q 0 = ent (k_mem s1) q 0).
    assert (Hi0 : idx 0) by (unfold idx; lia). unfold link_mem. rewrite ent_store by done.
    rewrite decide_False by set_solver. apply (same_outside_ent n); try done; [|set_solver].
    apply same_outside_memset.
  - apply (add_pt_ok (k_mem s) link_mem root l t i n p); auto using link_same, link_child, link_zero.
  - rewrite Hst. change (set_mem link_mem (set_freelist (k_freelist s1) (norm (norm s))) =
      set_mem link_mem (set_freelist (k_freelist s1) (norm s))). by rewrite norm_norm by apply Hk.
  - exists [n]. split; [done|]. constructor; [|constructor]. exists (p ++ [i]). split; [|exact link_node].
    split; [rewrite length_app; simpl; lia|]. apply Forall_app. split; [apply Hp|by constructor].
  - intros u (q & Hq & Hu). exists q. split; [done|]. simpl. rewrite <- Hu.
    by apply (add_mono (k_mem s) link_mem root l t i n p Ho link_same Hp Ht Hold q u).
  - intros u (q & Hq & Hu). simpl in Hu.
    destruct (add_nodes (k_mem s) link_mem root l t i n p Ho link_same Hp Ht link_child link_zero q u Hq Hu)
      as [[_ ->]|Hu']; [right; left|left; by exists q].
  - intros a Ha. simpl. unfold link_mem.
    rewrite store_outside; [|done|apply Ha; left; by exists p].
    apply link_outside. apply Ha. right. left.
  - apply (add_shape (k_mem s) link_mem root l t i n p); auto using link_same, link_child, link_zero, link_flags.
Qed.

Lemma link_xpte va : xpte link_mem root va = xpte (k_mem s) root va.
Proof using All.
  destruct link_page as [Hn Hnl].
  apply (add_xpte (k_mem s) link_mem root l t i n p); auto using link_same, link_child, link_zero.
Qed.
End link.

Lemma PX_low va : 0 <= va < MAXVA -> PX 2 va < 256.
Proof. intros Hva. rewrite PX_eq by lia. change MAXVA with (2 ^ 38) in Hva. simpl. zlia. Qed.

Lemma walk_step_alloc root va p t s l :
  kmem_inv s l -> pt_ok (k_mem s) root l -> path p -> (length p <= 1)%nat ->
  node (k_mem s) root p = Some t -> 0 <= va < MAXVA ->
  let level := 2 - Z.of_nat (length p) in
  exists r l' s', walk_step t va level true s = Ret r s' /\ pt_rel root l s l' s' /\
    (forall va', xpte (k_mem s') root va' = xpte (k_mem s) root va') /\
    (length l <= S (length l'))%nat /\
    match r with
    | Some u => node (k_mem s') root (p ++ [PX level va]) = Some u
    | None => l' = []
    end.
Proof.
  intros Hk Ho Hp Hlen Ht Hva level. pose proof (PX_range level va) as Hi.
  assert (Hlow : p = [] -> PX level va < 256) by (intros ->; change level with 2; by apply PX_low).
  destruct (child (k_mem s) t (PX level va)) as [u|] eqn:Hc.
  - exists (Some u), l, s. rewrite (walk_step_child t va level true s u Hc).
    split_and!; [done|by apply pt_rel_refl|done|lia|]. by rewrite node_snoc, Ht.
  - assert (Hv : has (ld64 (k_mem s) (t + 8 * PX level va)) PTE_V = false).
    { unfold child, ent in Hc. by case_match. }
    unfold walk_step, load64. rewrite kbind_gets, Hv. simpl. destruct l as [|n l].
    + destruct (kalloc_inv_empty s Hk) as [R Hk']. krun R. exists None, [], (norm s).
      split_and!; [done|by apply pt_rel_norm|done|simpl; lia|done].
    + destruct (kalloc_inv s n l Hk) as (s1 & R & Hk1 & Hst & Hso & _). krun R.
      pose proof (page_pos n (proj1 (link_page s n l Hk))) as Hpos.
      destruct (Z.eqb_spec n 0); [lia|].
      exists (Some n), l, (set_mem (link_mem s1 t (PX level va) n) s1).
      unfold modify_mem, store64. rewrite !kbind_modify. split_and!; [reflexivity| | |simpl; lia|].
      * by apply (link_rel s s1 root t _ n l p).
      * intros va'. by apply (link_xpte s s1 root t _ n l p).
      * by apply (link_node s s1 root t _ n l p).
Qed.

Lemma walk_alloc root va s l :
  kmem_inv s l -> pt_ok (k_mem s) root l -> 0 <= va < MAXVA ->
  exists r l' s', walk root va true s = Ret r s' /\ pt_rel root l s l' s' /\
    (forall va', xpte (k_mem s') root va' = xpte (k_mem s) root va') /\
    (length l <= length l' + 2)%nat /\
    ((r = 0 /\ l' = []) \/
     (exists t, node (k_mem s') root (vpath va) = Some t /\ r = t + 8 * PX 0 va)).
Proof.
  intros Hk Ho Hva. unfold walk. rewrite Z.geb_leb. destruct (Z.leb_spec MAXVA va); [lia|].
  assert (Hp0 : path []) by (split; [simpl; lia|constructor]).
  destruct (walk_step_alloc root va [] root s l Hk Ho Hp0 (le_S _ _ (le_n _)) eq_refl Hva) as (r1 & l1 & s1 & R1 & P1 & X1 & C1 & N1).
  simpl in R1, N1. change (2 - 0) with 2 in *. krun R1. destruct r1 as [t1|].
  - assert (Hp1 : path [PX 2 va]) by (split; [simpl; lia|repeat constructor; apply PX_range]).
    destruct (walk_step_alloc root va [PX 2 va] t1 s1 l1 (pr_kmem _ _ _ _ _ P1) (pr_ok _ _ _ _ _ P1) Hp1 (le_n _) N1 Hva)
      as (r0 & l0 & s0 & R0 & P0 & X0 & C0 & N0).
    simpl in R0, N0. change (2 - 1) with 1 in *. krun R0.
    pose proof (pt_rel_trans _ _ _ _ _ _ _ P1 P0) as P.
    assert (X : forall va', xpte (k_mem s0) root va' = xpte (k_mem s) root va') by (intros; by rewrite X0).
    destruct r0 as [t0|].
    + exists (t0 + 8 * PX 0 va), l0, s0. split_and!; [done|done|done|lia|]. right. by exists t0.
    + exists 0, l0, s0. split_and!; [done|done|done|lia|]. by left.
  - exists 0, l1, s1. split_and!; [done|done|done|lia|]. by left.
Qed.

(** ** Storing a leaf entry *)

Definition put_leaf (root va v : Z) (s : kst) : kst :=
  set_mem (st64 (k_mem s) (leaf_addr (k_mem s) root va) v) s.

Lemma leaf_addr_node m root va t : node m root (vpath va) = Some t -> leaf_addr m root va = t + 8 * PX 0 va.
Proof. unfold leaf_addr. by intros ->. Qed.

Lemma load_leaf m root va t :
  node m root (vpath va) = Some t -> ld64 m (leaf_addr m root va) = xpte m root va.
Proof. unfold leaf_addr, xpte, ent. by intros ->. Qed.

Lemma leaf_pos m root l va t :
  pt_ok m root l -> node m root (vpath va) = Some t -> leaf_addr m root va <> 0.
Proof.
  intros Ho Ht. rewrite (leaf_addr_node _ _ _ _ Ht). pose proof (PX_range 0 va).
  pose proof (page_pos t (po_page _ _ _ Ho _ _ (path_vpath va) Ht)). lia.
Qed.

Lemma put_leaf_rel root va v t s l :
  kmem_inv s l -> pt_ok (k_mem s) root l -> 0 <= va < MAXVA ->
  node (k_mem s) root (vpath va) = Some t -> 0 <= v < 2 ^ 64 ->
  pt_rel root l s l (put_leaf root va v s) /\
  (forall va', 0 <= va' < MAXVA -> xpte (k_mem (put_leaf root va v s)) root va' =
     if decide (va' / PGSIZE = va / PGSIZE) then v else xpte (k_mem s) root va').
Proof.
  intros Hk Ho Hva Ht Hv. pose proof (path_vpath va) as Hp. pose proof (PX_range 0 va) as Hi.
  pose proof (po_page _ _ _ Ho _ _ Hp Ht) as Htp. pose proof (po_free _ _ _ Ho _ _ Hp Ht) as Htl.
  unfold put_leaf. rewrite (leaf_addr_node _ _ _ _ Ht).
  set (m' := st64 (k_mem s) (t + 8 * PX 0 va) v).
  assert (Hs : same_ents l t (PX 0 va) (k_mem s) m').
  { intros u j Hu _ Hj Hne. unfold m'. rewrite ent_store by done. by rewrite decide_False. }
  assert (He : ent m' t (PX 0 va) = v).
  { unfold m'. rewrite ent_store by done. rewrite decide_True by done. by apply u64_small. }
  split; [split|].
  - by apply store_kmem.
  - by apply (leaf_pt_ok (k_mem s) m' root l va t).
  - reflexivity.
  - by exists [].
  - intros u (q & Hq & Hu). exists q. split; [done|]. simpl.
    by rewrite (leaf_node (k_mem s) m' root l va t Ho Ht Hs q Hq).
  - intros u (q & Hq & Hu). simpl in Hu.
    rewrite (leaf_node (k_mem s) m' root l va t Ho Ht Hs q Hq) in Hu. left. by exists q.
  - intros a Ha. simpl. unfold m'. apply store_outside; [done|]. apply Ha. left. by exists (vpath va).
  - by apply (leaf_shape (k_mem s) m' root l va t).
  - intros va' Hva'. by apply (leaf_xpte (k_mem s) m' root l va t v).
Qed.

(** ** [mappages] *)

(** [f] with the pages from [a] up to [e] mapped to [pa], [pa + PGSIZE], ... *)
Definition mapped (a e pa perm : Z) (f : Z -> Z) (va : Z) : Z :=
  if decide (a <= va < e) then mkpte (pa + (PGROUNDDOWN va - a)) perm else f va.

Lemma page_eq va a : 0 <= va -> a mod PGSIZE = 0 ->
  (va / PGSIZE = a / PGSIZE <-> a <= va < a + PGSIZE).
Proof. unfold PGSIZE. intros. zlia. Qed.

Lemma PGROUNDDOWN_page va : 0 <= va < 2 ^ 64 -> PGROUNDDOWN va = va / PGSIZE * PGSIZE.
Proof. intros. rewrite PGROUNDDOWN_eq by lia. unfold PGSIZE. zlia. Qed.

(** One page of [mappages]. *)
Lemma map_step root a pa perm s l :
  kmem_inv s l -> pt_ok (k_mem s) root l -> 0 <= a < MAXVA -> a mod PGSIZE = 0 ->
  0 <= pa < 2 ^ 56 -> pa mod PGSIZE = 0 -> 0 <= perm < 1024 ->
  has (xpte (k_mem s) root a) PTE_V = false ->
  exists pte l' s', walk root a true s = Ret pte s' /\ pt_rel root l s l' s' /\
    (forall va, xpte (k_mem s') root va = xpte (k_mem s) root va) /\
    (length l <= length l' + 2)%nat /\
    ((pte = 0 /\ l' = []) \/
     (pte <> 0 /\ has (ld64 (k_mem s') pte) PTE_V = false /\
      exists s'', store64 pte (mkpte pa perm) s' = Ret tt s'' /\ pt_rel root l s l' s'' /\
        forall va, 0 <= va < MAXVA -> xpte (k_mem s'') root va =
          mapped a (a + PGSIZE) pa perm (xpte (k_mem s) root) va)).
Proof.
  intros Hk Ho Ha Hal Hpa Hpal Hperm Hun.
  destruct (walk_alloc root a s l Hk Ho Ha) as (pte & l' & s' & R & P & X & C & Hr).
  exists pte, l', s'. split_and!; [done|done|done|done|]. destruct Hr as [Hr|(t & Ht & ->)]; [by left|].
  right. rewrite <- (leaf_addr_node _ _ _ _ Ht).
  destruct (mkpte_spec pa perm Hpa Hpal Hperm) as (_ & _ & _ & Hrange).
  split; [by apply (leaf_pos _ _ l' _ t (pr_ok _ _ _ _ _ P))|].
  split; [by rewrite (load_leaf _ _ _ _ Ht), X|].
  destruct (put_leaf_rel root a (mkpte pa perm) t s' l' (pr_kmem _ _ _ _ _ P) (pr_ok _ _ _ _ _ P) Ha Ht Hrange)
    as [P' X'].
  exists (put_leaf root a (mkpte pa perm) s'). split; [reflexivity|].
  split; [by apply (pt_rel_trans _ _ _ _ _ _ _ P P')|].
  intros va Hva. rewrite X' by done. unfold mapped. rewrite X.
  pose proof (page_eq va a (proj1 Hva) Hal) as Hpe.
  destruct (decide (va / PGSIZE = a / PGSIZE)) as [E|E]; case_decide as E'; try tauto.
  f_equal. rewrite PGROUNDDOWN_page by (change MAXVA with (2 ^ 38) in Hva; lia). rewrite E.
  unfold PGSIZE in *. zlia.
Qed.

Lemma mappages_loop_run n root a pa perm s l :
  kmem_inv s l -> pt_ok (k_mem s) root l -> 0 <= a -> a mod PGSIZE = 0 ->
  a + Z.of_nat n * PGSIZE < MAXVA ->
  0 <= pa -> pa + Z.of_nat n * PGSIZE < 2 ^ 56 -> pa mod PGSIZE = 0 -> 0 <= perm < 1024 ->
  (forall va, a <= va <= a + Z.of_nat n * PGSIZE -> has (xpte (k_mem s) root va) PTE_V = false) ->
  exists r e l' s', mappages_loop (S n) root a (a + Z.of_nat n * PGSIZE) pa perm s = Ret r s' /\
    pt_rel root l s l' s' /\
    (forall va, 0 <= va < MAXVA -> xpte (k_mem s') root va = mapped a e pa perm (xpte (k_mem s) root) va) /\
    (length l <= length l' + 2 * S n)%nat /\
    ((r = 0 /\ e = a + Z.of_nat n * PGSIZE + PGSIZE) \/
     (r = -1 /\ l' = [] /\ a <= e <= a + Z.of_nat n * PGSIZE /\ e mod PGSIZE = 0)).
Proof.
  revert a pa s l. induction n as [|n IH]; intros a pa s l Hk Ho Ha Hal Hlast Hpa Hpl Hpal Hperm Hun;
    (destruct (map_step root a pa perm s l) as (pte & l1 & s1 & R & P & X & C & Hr);
      [done|done|unfold PGSIZE in *; lia|done|unfold PGSIZE in *; lia|done|done|apply Hun; unfold PGSIZE; lia|]);
    cbn [mappages_loop]; krun R.
  1,2: destruct Hr as [[-> Hl]|(Hne & Hv & s2 & R2 & P2 & X2)].
  1,3: exists (-1), a, l1, s1; (split_and!; [done|done| |lia|right; unfold PGSIZE; split_and!; done || lia]);
    intros va Hva; rewrite X; unfold mapped; rewrite decide_False by lia; done.
  - destruct (Z.eqb_spec pte 0); [done|]. unfold load64. rewrite kbind_gets, Hv.
    krun R2. rewrite Z.mul_0_l, Z.add_0_r, Z.eqb_refl.
    exists 0, (a + PGSIZE), l1, s2. split_and!; [done|done|done|lia|by left].
  - destruct (Z.eqb_spec pte 0); [done|]. unfold load64. rewrite kbind_gets, Hv.
    krun R2. change MAXVA with (2 ^ 38) in Hlast.
    destruct (Z.eqb_spec a (a + Z.of_nat (S n) * PGSIZE)); [unfold PGSIZE in *; lia|].
    rewrite (u64_small (a + PGSIZE)), (u64_small (pa + PGSIZE)) by (unfold PGSIZE in *; lia).
    destruct (IH (a + PGSIZE) (pa + PGSIZE) s2 l1) as (r & e & l' & s' & R' & P' & X' & C' & Hr).
    all: try (apply (pr_kmem _ _ _ _ _ P2) || apply (pr_ok _ _ _ _ _ P2) || done).
    all: change MAXVA with (2 ^ 38) in *; unfold PGSIZE in *; try lia; try zlia.
    { intros va Hva. rewrite X2 by lia. unfold mapped. rewrite decide_False by lia. apply Hun. lia. }
    exists r, e, l', s'.
    replace (a + Z.of_nat (S n) * 4096) with (a + 4096 + Z.of_nat n * 4096) by lia.
    split_and!; [exact R'|by apply (pt_rel_trans _ _ _ _ _ _ _ P2 P')| |lia|].
    + intros va Hva. rewrite X' by done. unfold mapped. rewrite X2 by done. unfold mapped.
      destruct Hr as [Hr|Hr]; repeat case_decide; try lia; try done.
      * f_equal. lia.
      * f_equal. lia.
    + destruct Hr as [[-> ->]|(-> & -> & Hr & Hr')]; [by left|right]. split_and!; done || lia.
Qed.

Lemma mappages_run root va size pa perm s l :
  kmem_inv s l -> pt_ok (k_mem s) root l ->
  0 <= va -> 0 < size -> va + size <= MAXVA ->
  0 <= pa -> pa + size + PGSIZE <= 2 ^ 56 -> pa mod PGSIZE = 0 -> 0 <= perm < 1024 ->
  (forall x, PGROUNDDOWN va <= x < va + size -> has (xpte (k_mem s) root x) PTE_V = false) ->
  exists r e l' s', mappages root va size pa perm s = Ret r s' /\ pt_rel root l s l' s' /\
    (forall x, 0 <= x < MAXVA ->
       xpte (k_mem s') root x = mapped (PGROUNDDOWN va) e pa perm (xpte (k_mem s) root) x) /\
    Z.of_nat (length l) <=
      Z.of_nat (length l') + 2 * ((PGROUNDUP (va + size) - PGROUNDDOWN va) / PGSIZE) /\
    ((r = 0 /\ e = PGROUNDUP (va + size)) \/
     (r = -1 /\ l' = [] /\ PGROUNDDOWN va <= e < va + size /\ e mod PGSIZE = 0)).
Proof.
  intros Hk Ho Hva Hsz Htop Hpa Hpl Hpal Hperm Hun.
  assert (HM : MAXVA = 2 ^ 38) by reflexivity.
  unfold mappages. destruct (Z.eqb_spec size 0) as [|_]; [lia|]. rewrite u64_small by lia.
  rewrite !PGROUNDDOWN_eq, PGROUNDUP_eq by lia.
  rewrite PGROUNDDOWN_eq in Hun. set (a := va - va mod PGSIZE) in *.
  set (n := Z.to_nat ((va + size - 1 - (va + size - 1) mod PGSIZE - a) / PGSIZE)).
  assert (Hn : va + size - 1 - (va + size - 1) mod PGSIZE = a + Z.of_nat n * PGSIZE).
  { unfold n, a, PGSIZE in *. zlia. }
  rewrite Hn. unfold mappages_fuel. destruct (Z.leb_spec a (a + Z.of_nat n * PGSIZE)); [|unfold PGSIZE in *; lia].
  replace (a + Z.of_nat n * PGSIZE - a) with (Z.of_nat n * PGSIZE) by lia.
  rewrite Z.div_mul by done. rewrite Nat2Z.id.
  destruct (mappages_loop_run n root a pa perm s l) as (r & e & l' & s' & R & P & X & C & Hr); try done.
  - unfold a, PGSIZE in *. zlia.
  - unfold a, PGSIZE in *. zlia.
  - unfold PGSIZE in *. zlia.
  - unfold a, PGSIZE in *. zlia.
  - intros x Hx. apply Hun. unfold PGSIZE in *. zlia.
  - exists r, e, l', s'. split_and!; [done|done|done|unfold a, PGSIZE in *; zlia|].
    destruct Hr as [[-> ->]|(-> & -> & Hr & Hr')].
    + left. split; [done|]. unfold a, PGSIZE in *. zlia.
    + right. split_and!; try done; unfold PGSIZE in *; zlia.
Qed.

(** C16: [mappages] of a range that is not mapped yet either maps every page of
    the range to consecutive physical pages with the given permissions and
    returns 0, or returns -1 because memory ran out while building tables,
    after mapping some first pages only; every other translation, and memory
    outside the tables, is unchanged, and at most two tables are added per
    page. *)
Theorem mappages_spec root va size pa perm s l :
  kmem_inv s l -> pt_ok (k_mem s) root l ->
  0 <= va -> 0 < size -> va + size <= MAXVA ->
  0 <= pa -> pa + size + PGSIZE <= 2 ^ 56 -> pa mod PGSIZE = 0 -> 0 <= perm < 1024 ->
  (forall x, PGROUNDDOWN va <= x < va + size -> has (xpte (k_mem s) root x) PTE_V = false) ->
  exists r e l' s', mappages root va size pa perm s = Ret r s' /\ pt_rel root l s l' s' /\
    (forall x, 0 <= x < MAXVA ->
       xpte (k_mem s') root x = mapped (PGROUNDDOWN va) e pa perm (xpte (k_mem s) root) x) /\
    Z.of_nat (length l) <=
      Z.of_nat (length l') + 2 * ((PGROUNDUP (va + size) - PGROUNDDOWN va) / PGSIZE) /\
    ((r = 0 /\ e = PGROUNDUP (va + size)) \/
     (r = -1 /\ l' = [] /\ PGROUNDDOWN va <= e < va + size /\ e mod PGSIZE = 0)).
Proof. apply mappages_run. Qed.

(** ** [walkaddr] *)

(** What [walkaddr] returns. *)
Definition user_pa (m : memory) (root va : Z) : Z :=
  let v := xpte m root va in if has v PTE_V && has v PTE_U then PTE2PA v else 0.

Lemma has_0 mask : has 0 mask = false.
Proof. reflexivity. Qed.

Lemma walkaddr_run root va s l :
  pt_ok (k_mem s) root l -> va < MAXVA -> walkaddr root va s = Ret (user_pa (k_mem s) root va) s.
Proof.
  intros Ho Hva. unfold walkaddr, user_pa. rewrite Z.geb_leb.
  destruct (Z.leb_spec MAXVA va); [lia|]. krun (walk_run root va s Hva).
  destruct (node (k_mem s) root (vpath va)) as [t|] eqn:Ht.
  - rewrite (proj2 (Z.eqb_neq _ _)) by (by apply (leaf_pos _ _ l _ t)). unfold load64.
    rewrite kbind_gets, (load_leaf _ _ _ _ Ht).
    destruct (has (xpte (k_mem s) root va) PTE_V); simpl; [|done].
    by destruct (has (xpte (k_mem s) root va) PTE_U).
  - unfold leaf_addr, xpte. rewrite Ht. reflexivity.
Qed.

(** ** [uvmunmap] *)

(** Changes that keep the tables. *)
Lemma node_ext m m' root q :
  (forall u j, is_node m root u -> idx j -> ent m' u j = ent m u j) -> path q ->
  node m' root q = node m root q.
Proof.
  intros He. induction q as [|j q IH] using rev_ind; intros Hq; [done|].
  destruct (path_snoc _ _ Hq) as [Hq' Hj]. rewrite !node_snoc, IH by done.
  destruct (node m root q) as [u|] eqn:Eu; [|done]. simpl. unfold child.
  by rewrite He by (done || by exists q).
Qed.

Lemma xpte_ext m m' root va :
  (forall u j, is_node m root u -> idx j -> ent m' u j = ent m u j) ->
  xpte m' root va = xpte m root va.
Proof.
  intros He. unfold xpte. rewrite (node_ext m m') by (done || apply path_vpath).
  destruct (node m root (vpath va)) as [u|] eqn:Eu; [|done].
  apply He; [exists (vpath va); split; [apply path_vpath|done]|apply PX_range].
Qed.

(** From [s] with free pages [l] to [s'] with the pages [fs] given back: the
    tables are the same, memory outside them and [fs] is untouched. *)
Record unmap_rel (root : Z) (l : list Z) (s : kst) (fs : list Z) (s' : kst) : Prop := {
  ur_kmem : kmem_inv s' (fs ++ l);
  ur_ok : pt_ok (k_mem s') root (fs ++ l);
  ur_frame : norm s' = set_mem (k_mem s') (set_freelist (k_freelist s') (norm s));
  ur_nodes p : path p -> node (k_mem s') root p = node (k_mem s) root p;
  ur_out a : (forall q, is_node (k_mem s) root q \/ q ∈ fs -> a < q \/ q + PGSIZE <= a) ->
    ld8 (k_mem s') a = ld8 (k_mem s) a;
  ur_shape : pt_shape (k_mem s) root -> pt_shape (k_mem s') root
}.

Lemma shape_ext m m' root :
  (forall u j, is_node m root u -> idx j -> ent m' u j = ent m u j) -> pt_shape m root -> pt_shape m' root.
Proof.
  intros He [S1 S2]. assert (Hn : forall q, path q -> node m' root q = node m root q) by (intros; by apply node_ext).
  split.
  - intros q j u Hq Hu. destruct (path_snoc _ _ Hq) as [Hq' Hj]. rewrite Hn in Hu by done.
    rewrite He; [by apply (S1 q)|by exists q|done].
  - intros j Hj. rewrite <- (S2 j Hj). unfold child. rewrite He; [done| |unfold idx; lia].
    exists []. split; [split; [simpl; lia|constructor]|done].
Qed.

Lemma is_node_ext m m' root t :
  (forall p, path p -> node m' root p = node m root p) -> is_node m' root t <-> is_node m root t.
Proof.
  intros Hx. split; intros (p & Hp & Ht); exists p; (split; [done|]).
  - by rewrite <- Hx.
  - by rewrite Hx.
Qed.

Lemma unmap_refl root l s : kmem_inv s l -> pt_ok (k_mem s) root l -> unmap_rel root l s [] s.
Proof. intros Hk Ho. split; [done|done|reflexivity|auto|auto|auto]. Qed.

Lemma unmap_trans root l s1 f1 s2 f2 s3 :
  unmap_rel root l s1 f1 s2 -> unmap_rel root (f1 ++ l) s2 f2 s3 ->
  unmap_rel root l s1 (f2 ++ f1) s3.
Proof.
  intros [K1 O1 F1 N1 M1 S1] [K2 O2 F2 N2 M2 S2]. split; [by rewrite <- app_assoc|by rewrite <- app_assoc| | | |auto].
  - rewrite F2, F1. reflexivity.
  - intros p Hp. by rewrite N2, N1.
  - intros a Ha. rewrite M2; [apply M1|]; intros q Hq; apply Ha; rewrite elem_of_app;
      [tauto|rewrite (is_node_ext _ _ _ _ N1) in Hq; tauto].
Qed.

(** Giving back a page that is not a table. *)
Lemma free_rel root l s pa :
  kmem_inv s l -> pt_ok (k_mem s) root l -> page_ok pa -> pa ∉ l -> ~ is_node (k_mem s) root pa ->
  exists s', kfree pa s = Ret tt s' /\ unmap_rel root l s [pa] s' /\
    (forall va, xpte (k_mem s') root va = xpte (k_mem s) root va).
Proof.
  intros Hk Ho Hp Hl Hn. destruct (kfree_inv s pa l Hk Hp Hl) as (s' & R & Hk' & Hst & Hso).
  assert (He : forall u j, is_node (k_mem s) root u -> idx j -> ent (k_mem s') u j = ent (k_mem s) u j).
  { intros u j Hu Hj. apply (same_outside_ent pa); try done.
    - destruct Hu as (p & Hpp & Hu). by apply (po_page _ _ _ Ho p).
    - by intros ->. }
  assert (Hnode : forall p, path p -> node (k_mem s') root p = node (k_mem s) root p)
    by (intros; by apply node_ext).
  exists s'. split_and!; [done| |intros; by apply xpte_ext]. split; [done| | |done| |by apply shape_ext].
  - split; intros *.
    + intros Hq. rewrite Hnode by done. by apply (po_page _ _ _ Ho).
    + intros Hq. rewrite Hnode by done. intros Ht. apply not_elem_of_cons.
      split; [intros ->; apply Hn; by exists p|by apply (po_free _ _ _ Ho p)].
    + intros Hq Hq'. rewrite !Hnode by done. by apply (po_inj _ _ _ Ho).
  - rewrite Hst. change (set_mem (k_mem s') (set_freelist (k_freelist s') (norm (norm s))) =
      set_mem (k_mem s') (set_freelist (k_freelist s') (norm s))). by rewrite norm_norm by apply Hk.
  - intros a Ha. apply Hso, Ha. right. left.
Qed.

(** The physical pages behind [n] pages of virtual memory from [a]. *)
Fixpoint upages (m : memory) (root a : Z) (n : nat) : list Z :=
  match n with
  | O => []
  | S n => PTE2PA (xpte m root a) :: upages m root (a + PGSIZE) n
  end.

Lemma upages_ext m m' root a n :
  (forall va, a <= va -> va < a + Z.of_nat n * PGSIZE -> xpte m' root va = xpte m root va) ->
  upages m' root a n = upages m root a n.
Proof.
  revert a. induction n as [|n IH]; intros a He; simpl; [done|]. f_equal.
  - by rewrite He by (unfold PGSIZE; lia).
  - apply IH. intros va H1 H2. apply He; unfold PGSIZE in *; lia.
Qed.

Lemma upages_lookup m root a n i : (i < n)%nat ->
  upages m root a n !! i = Some (PTE2PA (xpte m root (a + Z.of_nat i * PGSIZE))).
Proof.
  revert a i. induction n as [|n IH]; intros a i Hi; [lia|]. destruct i as [|i]; simpl.
  - by rewrite Z.add_0_r.
  - rewrite IH by lia. do 3 f_equal. unfold PGSIZE. lia.
Qed.

Lemma length_upages m root a n : length (upages m root a n) = n.
Proof. revert a. induction n as [|n IH]; intros a; simpl; [done|]. by rewrite IH. Qed.

(** Every page of the range is a mapped leaf. *)
Definition leaves (m : memory) (root a : Z) (n : nat) : Prop :=
  forall va, a <= va < a + Z.of_nat n * PGSIZE ->
    has (xpte m root va) PTE_V = true /\ PTE_FLAGS (xpte m root va) <> PTE_V.

(** Pages that may be given back: allocator pages, neither free nor tables. *)
Definition freeable (m : memory) (root : Z) (l fs : list Z) : Prop :=
  NoDup fs /\ forall pa, pa ∈ fs -> page_ok pa /\ (pa ∉ l) /\ (~ is_node m root pa).

Lemma unmap_step root va (do_free : bool) s l :
  kmem_inv s l -> pt_ok (k_mem s) root l -> 0 <= va < MAXVA ->
  has (xpte (k_mem s) root va) PTE_V = true ->
  let pa := PTE2PA (xpte (k_mem s) root va) in
  (do_free = true -> page_ok pa /\ (pa ∉ l) /\ (~ is_node (k_mem s) root pa)) ->
  exists s1 s2, (if do_free then kfree pa else kret tt) s = Ret tt s1 /\
    store64 (leaf_addr (k_mem s) root va) 0 s1 = Ret tt s2 /\
    unmap_rel root l s (if do_free then [pa] else []) s2 /\
    (forall va', 0 <= va' < MAXVA -> xpte (k_mem s2) root va' =
       if decide (va' / PGSIZE = va / PGSIZE) then 0 else xpte (k_mem s) root va').
Proof.
  intros Hk Ho Hva Hv pa Hf.
  destruct (node (k_mem s) root (vpath va)) as [t|] eqn:Ht; cycle 1.
  { unfold xpte in Hv. by rewrite Ht in Hv. }
  set (fs := if do_free then [pa] else []).
  assert (exists s1, (if do_free then kfree pa else kret tt) s = Ret tt s1 /\
    unmap_rel root l s fs s1 /\ (forall va, xpte (k_mem s1) root va = xpte (k_mem s) root va))
    as (s1 & R1 & U1 & X1).
  { destruct do_free.
    - destruct (Hf eq_refl) as (H1 & H2 & H3). by apply free_rel.
    - exists s. split_and!; [done|by apply unmap_refl|done]. }
  pose proof (ur_nodes _ _ _ _ _ U1 (vpath va) (path_vpath va)) as Hn. rewrite Ht in Hn.
  destruct (put_leaf_rel root va 0 t s1 (fs ++ l) (ur_kmem _ _ _ _ _ U1) (ur_ok _ _ _ _ _ U1) Hva Hn)
    as [P X2]; [lia|].
  exists s1, (put_leaf root va 0 s1). split_and!; [done| | |].
  - rewrite (leaf_addr_node _ _ _ _ Ht). unfold put_leaf. by rewrite (leaf_addr_node _ _ _ _ Hn).
  - apply (unmap_trans root l s fs s1 [] _ U1). destruct P as [K O F _ _ N M Sh]. split; [done|done|done| | |done].
    + intros p Hp. apply (leaf_node (k_mem s1) _ root (fs ++ l) va t (ur_ok _ _ _ _ _ U1) Hn); [|done].
      intros u j Hu _ Hj Hne. simpl. rewrite (leaf_addr_node _ _ _ _ Hn).
      rewrite ent_store; [by rewrite decide_False| |apply PX_range|done|done].
      by apply (po_page _ _ _ (ur_ok _ _ _ _ _ U1) (vpath va)), Hn; apply path_vpath.
    + intros a Ha. simpl. rewrite (leaf_addr_node _ _ _ _ Hn). apply store_outside; [apply PX_range|].
      apply Ha. left. exists (vpath va). split; [apply path_vpath|done].
  - intros va' Hva'. rewrite X2 by done. by rewrite X1.
Qed.

Lemma uvmunmap_loop_run n root a (do_free : bool) s l :
  kmem_inv s l -> pt_ok (k_mem s) root l -> 0 <= a -> a mod PGSIZE = 0 ->
  a + Z.of_nat n * PGSIZE <= MAXVA -> leaves (k_mem s) root a n ->
  (do_free = true -> freeable (k_mem s) root l (upages (k_mem s) root a n)) ->
  exists s', uvmunmap_loop (S n) root a (a + Z.of_nat n * PGSIZE) do_free s = Ret tt s' /\
    unmap_rel root l s (if do_free then rev (upages (k_mem s) root a n) else []) s' /\
    (forall va, 0 <= va < MAXVA -> xpte (k_mem s') root va =
       if decide (a <= va < a + Z.of_nat n * PGSIZE) then 0 else xpte (k_mem s) root va).
Proof.
  assert (HM : MAXVA = 2 ^ 38) by reflexivity.
  revert a s l. induction n as [|n IH]; intros a s l Hk Ho Ha Hal Htop Hlv Hfr.
  - cbn [uvmunmap_loop]. rewrite (proj2 (Z.ltb_ge _ _)) by lia. exists s. split_and!; [done| |].
    + simpl. destruct do_free; by apply unmap_refl.
    + intros va Hva. by rewrite decide_False by lia.
  - assert (Ha' : 0 <= a < MAXVA) by (unfold PGSIZE in *; lia).
    destruct (Hlv a) as [Hv Hfl]; [unfold PGSIZE; lia|].
    destruct (node (k_mem s) root (vpath a)) as [t|] eqn:Ht; cycle 1.
    { unfold xpte in Hv. by rewrite Ht in Hv. }
    destruct (unmap_step root a do_free s l Hk Ho Ha' Hv) as (s1 & s2 & R1 & R2 & U & X).
    { intros E. destruct (Hfr E) as [_ Hfr']. apply Hfr'. left. }
    set (n' := S n) at 1. cbn [uvmunmap_loop]. rewrite (proj2 (Z.ltb_lt _ _)) by (unfold PGSIZE; lia).
    krun (walk_run root a s (proj2 Ha')).
    rewrite (proj2 (Z.eqb_neq _ _)) by (by apply (leaf_pos _ _ l _ t)).
    unfold load64. rewrite kbind_gets, (load_leaf _ _ _ _ Ht), Hv.
    rewrite (proj2 (Z.eqb_neq _ _)) by done. cbn [negb]. krun R1. krun R2.
    rewrite (u64_small (a + PGSIZE)) by (unfold PGSIZE in *; lia).
    set (f1 := if do_free then [PTE2PA (xpte (k_mem s) root a)] else []) in U.
    assert (X' : forall va, a + PGSIZE <= va -> va < a + PGSIZE + Z.of_nat n * PGSIZE ->
      xpte (k_mem s2) root va = xpte (k_mem s) root va).
    { intros va H1 H2. rewrite X by (unfold PGSIZE in *; lia). apply decide_False.
      rewrite page_eq by (done || unfold PGSIZE in *; lia). lia. }
    pose proof (upages_ext _ _ _ _ _ X') as Hup.
    replace (a + Z.of_nat (S n) * PGSIZE) with (a + PGSIZE + Z.of_nat n * PGSIZE) by (unfold PGSIZE; lia).
    destruct (IH (a + PGSIZE) s2 (f1 ++ l) (ur_kmem _ _ _ _ _ U) (ur_ok _ _ _ _ _ U)) as (s' & R & U' & X'').
    + unfold PGSIZE; lia.
    + unfold PGSIZE in *. zlia.
    + unfold PGSIZE in *. lia.
    + intros va Hva. rewrite X' by lia. apply Hlv. unfold PGSIZE in *. lia.
    + intros E. destruct (Hfr E) as [Hnd Hall]. rewrite Hup. cbn [upages] in Hnd.
      apply NoDup_cons in Hnd as [Hni Hnd]. split; [done|]. intros pa Hpa.
      destruct (Hall pa) as (H1 & H2 & H3); [by right|]. split_and!; [done| |].
      * unfold f1. rewrite E. simpl. apply not_elem_of_cons. split; [by intros ->|done].
      * by rewrite (is_node_ext _ _ _ _ (ur_nodes _ _ _ _ _ U)).
    + exists s'. split_and!; [done| |].
      * pose proof (unmap_trans _ _ _ _ _ _ _ U U') as UU. rewrite Hup in UU.
        destruct do_free; [|done]. cbn [upages rev]. done.
      * intros va Hva. rewrite X'' by done. rewrite X by done.
        pose proof (page_eq va a (proj1 Hva) Hal) as Hpe.
        repeat case_decide; try done; unfold PGSIZE in *; lia.
Qed.

Lemma uvmunmap_run root va npages (do_free : bool) s l :
  kmem_inv s l -> pt_ok (k_mem s) root l -> 0 <= va -> va mod PGSIZE = 0 -> 0 <= npages ->
  va + npages * PGSIZE <= MAXVA -> leaves (k_mem s) root va (Z.to_nat npages) ->
  (do_free = true -> freeable (k_mem s) root l (upages (k_mem s) root va (Z.to_nat npages))) ->
  exists s', uvmunmap root va npages do_free s = Ret tt s' /\
    unmap_rel root l s (if do_free then rev (upages (k_mem s) root va (Z.to_nat npages)) else []) s' /\
    (forall x, 0 <= x < MAXVA -> xpte (k_mem s') root x =
       if decide (va <= x < va + npages * PGSIZE) then 0 else xpte (k_mem s) root x).
Proof.
  intros Hk Ho Ha Hal Hn Htop Hlv Hfr. unfold uvmunmap. rewrite (proj2 (Z.eqb_eq _ _) Hal). cbn [negb].
  destruct (uvmunmap_loop_run (Z.to_nat npages) root va do_free s l) as (s' & R & U & X); try done.
  { by rewrite Z2Nat.id. }
  rewrite Z2Nat.id in R, X by done. rewrite u64_small by (change MAXVA with (2 ^ 38) in Htop; unfold PGSIZE in *; lia).
  by exists s'.
Qed.

(** C17: [uvmunmap] of a range of mapped leaves removes exactly its
    translations, keeps the tables and, when asked to, gives every physical
    page of the range back to the allocator. *)
Theorem uvmunmap_spec root va npages (do_free : bool) s l :
  kmem_inv s l -> pt_ok (k_mem s) root l -> 0 <= va -> va mod PGSIZE = 0 -> 0 <= npages ->
  va + npages * PGSIZE <= MAXVA -> leaves (k_mem s) root va (Z.to_nat npages) ->
  (do_free = true -> freeable (k_mem s) root l (upages (k_mem s) root va (Z.to_nat npages))) ->
  exists s', uvmunmap root va npages do_free s = Ret tt s' /\
    unmap_rel root l s (if do_free then rev (upages (k_mem s) root va (Z.to_nat npages)) else []) s' /\
    (forall x, 0 <= x < MAXVA -> xpte (k_mem s') root x =
       if decide (va <= x < va + npages * PGSIZE) then 0 else xpte (k_mem s) root x).
Proof. apply uvmunmap_run. Qed.

(** ** New tables and new pages *)

Lemma empty_table m root l :
  page_ok root -> root ∉ l -> (forall j, idx j -> ent m root j = 0) ->
  pt_ok m root l /\ (forall t, is_node m root t -> t = root) /\ (forall va, xpte m root va = 0).
Proof.
  intros Hr Hl Hz.
  assert (Hn : forall q t, path q -> node m root q = Some t -> q = [] /\ t = root).
  { intros [|i q] t [_ Hq] Ht; simpl in Ht; [by injection Ht|]. apply Forall_cons in Hq as [Hi _].
    unfold child in Ht. by rewrite Hz, has_0 in Ht. }
  split_and!.
  - split; intros *.
    + intros Hp Ht. by destruct (Hn _ _ Hp Ht) as [_ ->].
    + intros Hp Ht. by destruct (Hn _ _ Hp Ht) as [_ ->].
    + intros Hp Hq Ht Ht'. destruct (Hn _ _ Hp Ht) as [-> _], (Hn _ _ Hq Ht') as [-> _]. done.
  - intros t (p & Hp & Ht). by destruct (Hn _ _ Hp Ht).
  - intros va. unfold xpte. destruct (node m root (vpath va)) eqn:E; [|done].
    by destruct (Hn _ _ (path_vpath va) E).
Qed.

Lemma lone_shape m root l : pt_ok m root l -> (forall t, is_node m root t -> t = root) -> pt_shape m root.
Proof.
  intros Ho Hn. assert (Hr : path []) by (split; [simpl; lia|constructor]).
  assert (Hc : forall j, idx j -> child m root j = None).
  { intros j Hj. destruct (child m root j) as [t|] eqn:E; [|done]. exfalso.
    assert (Hj1 : path [j]) by (split; [simpl; lia|by constructor]).
    assert (Ht : node m root [j] = Some t) by (simpl; by rewrite E). assert (t = root) as -> by (apply Hn; by exists [j]).
    pose proof (po_inj _ _ _ Ho [j] [] root Hj1 Hr Ht eq_refl). done. }
  split; [|intros j Hj; apply Hc; unfold idx; lia]. intros p i t Hp Ht Hv. destruct (path_snoc _ _ Hp) as [Hp' Hi].
  assert (t = root) as -> by (apply Hn; by exists p). specialize (Hc i Hi). unfold child in Hc. by rewrite Hv in Hc.
Qed.

Lemma uvmcreate_run s p l :
  kmem_inv s (p :: l) ->
  exists s', uvmcreate s = Ret p s' /\ kmem_inv s' l /\ pt_ok (k_mem s') p l /\
    (forall t, is_node (k_mem s') p t -> t = p) /\ (forall va, xpte (k_mem s') p va = 0) /\
    kmem_step s s' /\ same_outside p (k_mem s) (k_mem s').
Proof.
  intros Hk. destruct (kalloc_inv s p l Hk) as (s1 & R & Hk1 & Hst & Hso & _).
  destruct (link_page s p l Hk) as [Hp Hl]. unfold uvmcreate. krun R.
  pose proof (page_pos p Hp). destruct (Z.eqb_spec p 0); [lia|].
  unfold modify_mem. rewrite kbind_modify.
  set (m := memset (k_mem s1) p 0 PGSIZE). exists (set_mem m s1).
  destruct (empty_table m p l Hp Hl) as (H1 & H2 & H3); [intros; by apply zeroed_ent|].
  split_and!; [reflexivity| |done|done|done|rewrite Hst; reflexivity|].
  2: { intros a Ha. rewrite <- Hso by done. by apply same_outside_memset. }
  apply kmem_inv_mem; [done|apply memset_ok, Hk1|]. intros q Hq.
  pose proof (ki_pages _ _ Hk1) as Hps. rewrite Forall_forall in Hps.
  assert (Hne : q <> p) by (by intros ->). apply ld_memset_out; [unfold PGSIZE; lia|].
  destruct (page_disjoint q p (Hps q Hq) Hp Hne); unfold PGSIZE in *; simpl; lia.
Qed.

(** A page taken from the allocator is not a table, and its contents do not
    matter to the tables. *)
Lemma kalloc_tables root s q l :
  kmem_inv s (q :: l) -> pt_ok (k_mem s) root (q :: l) ->
  exists s', kalloc s = Ret q s' /\ kmem_inv s' l /\ pt_ok (k_mem s') root l /\
    (forall va, xpte (k_mem s') root va = xpte (k_mem s) root va) /\
    (forall p, path p -> node (k_mem s') root p = node (k_mem s) root p) /\
    (~ is_node (k_mem s') root q) /\ page_ok q /\ q ∉ l.
Proof.
  intros Hk Ho. destruct (kalloc_inv s q l Hk) as (s1 & R & Hk1 & Hst & Hso & _).
  destruct (link_page s q l Hk) as [Hq Hl].
  assert (Hnq : ~ is_node (k_mem s) root q).
  { intros (p & Hp & Ht). apply (po_free _ _ _ Ho p q Hp Ht). left. }
  assert (He : forall u j, is_node (k_mem s) root u -> idx j -> ent (k_mem s1) u j = ent (k_mem s) u j).
  { intros u j Hu Hj. apply (same_outside_ent q); try done; [|by intros ->].
    destruct Hu as (p & Hp & Ht). by apply (po_page _ _ _ Ho p). }
  assert (Hnode : forall p, path p -> node (k_mem s1) root p = node (k_mem s) root p)
    by (intros; by apply node_ext).
  exists s1. split_and!; try done; [|intros; by apply xpte_ext|by rewrite (is_node_ext _ _ _ _ Hnode)].
  split; intros *.
  - intros Hp. rewrite Hnode by done. by apply (po_page _ _ _ Ho).
  - intros Hp Ht Hin. rewrite Hnode in Ht by done. apply (po_free _ _ _ Ho p t Hp Ht). by right.
  - intros Hp Hq'. rewrite !Hnode by done. by apply (po_inj _ _ _ Ho).
Qed.
End tables.

(** ** A process with one page, for evaluating the theorems *)

Section demo.
#[local] Existing Instance demo_linker.
#[local] Existing Instance demo_linker_ok.

Definition demo_perm : Z := Z.lor (Z.lor PTE_R PTE_W) PTE_U.

(** An empty page table and a fresh page, with 22 pages left. *)
Lemma demo_tables : exists s root q l, kmem_inv s l /\ pt_ok (k_mem s) root l /\
  (forall va, xpte (k_mem s) root va = 0) /\ (~ is_node (k_mem s) root q) /\ page_ok q /\ (q ∉ l) /\
  length l = 22%nat /\ pt_shape (k_mem s) root.
Proof.
  destruct demo_booted as [s Hk].
  assert (Hd : demo_pages = demo_page :: (demo_page - PGSIZE) :: drop 2 demo_pages) by reflexivity.
  assert (Hl : length (drop 2 demo_pages) = 22%nat) by reflexivity.
  rewrite Hd in Hk. destruct (uvmcreate_run s _ _ Hk) as (s1 & _ & Hk1 & Ho1 & N1 & X1 & _).
  destruct (kalloc_tables demo_page s1 _ _ Hk1 Ho1) as (s2 & _ & Hk2 & Ho2 & X2 & N2 & Hn & Hp & Hq).
  exists s2, demo_page, (demo_page - PGSIZE), (drop 2 demo_pages).
  split_and!; [exact Hk2|exact Ho2| |exact Hn|exact Hp|exact Hq|exact Hl|].
  - intros va. rewrite X2. apply X1.
  - apply (lone_shape _ _ _ Ho2). intros t Ht. apply N1. by rewrite <- (is_node_ext _ _ _ _ N2).
Qed.

Lemma mappages_spec_witness :
  exists root q s s', mappages root 0 PGSIZE q demo_perm s = Ret 0 s' /\
    xpte (k_mem s') root 8 = mkpte q demo_perm /\ xpte (k_mem s') root PGSIZE = 0.
Proof.
  destruct demo_tables as (s & root & q & l & Hk & Ho & X & Hn & Hq & Hl & Hlen & Hsh).
  destruct (page_bounds q Hq) as [Hb Ha]. destruct Hq as [_ Hq2].
  destruct (mappages_spec root 0 PGSIZE q demo_perm s l) as (r & e & l' & s' & R & P & X' & C & Hr).
  - exact Hk.
  - exact Ho.
  - lia.
  - reflexivity.
  - vm_compute. discriminate.
  - apply Hb.
  - unfold PHYSTOP, KERNBASE, PGSIZE in *. lia.
  - exact Ha.
  - vm_compute. split; [discriminate|reflexivity].
  - intros x _. rewrite X. reflexivity.
  - exists root, q, s, s'. rewrite Hlen in C.
    replace ((PGROUNDUP (0 + PGSIZE) - PGROUNDDOWN 0) / PGSIZE) with 1 in C by (vm_compute; reflexivity).
    destruct Hr as [[-> ->]|(_ & -> & _)]; [|simpl in C; lia].
    split; [exact R|]. rewrite !X' by (vm_compute; split; [discriminate|reflexivity]).
    unfold mapped. rewrite decide_True by (vm_compute; split; [discriminate|reflexivity]).
    rewrite decide_False by (vm_compute; intros [_ H]; discriminate). rewrite X. split; [|reflexivity].
    f_equal. replace (PGROUNDDOWN 8) with 0 by (vm_compute; reflexivity).
    replace (PGROUNDDOWN 0) with 0 by (vm_compute; reflexivity). lia.
Defined.

(** The page mapped at address 0. *)
Lemma demo_mapped : exists s root q l, kmem_inv s l /\ pt_ok (k_mem s) root l /\
  (forall va, 0 <= va < MAXVA ->
     xpte (k_mem s) root va = if decide (va < PGSIZE) then mkpte q demo_perm else 0) /\
  (~ is_node (k_mem s) root q) /\ page_ok q /\ (q ∉ l) /\ (18 < length l)%nat /\ pt_shape (k_mem s) root.
Proof.
  destruct demo_tables as (s & root & q & l & Hk & Ho & X & Hn & Hq & Hl & Hlen & Hsh).
  pose proof Hq as Hq'. destruct (page_bounds q Hq) as [Hb Ha]. destruct Hq' as [_ Hq2].
  destruct (mappages_run root 0 PGSIZE q demo_perm s l Hk Ho) as (r & e & l' & s' & R & P & X' & C & Hr);
    [lia|reflexivity|vm_compute; discriminate|lia|unfold PHYSTOP, KERNBASE, PGSIZE in *; lia|done|
     vm_compute; split; [discriminate|reflexivity]|intros; by rewrite X|].
  rewrite Hlen in C.
  replace ((PGROUNDUP (0 + PGSIZE) - PGROUNDDOWN 0) / PGSIZE) with 1 in C by (vm_compute; reflexivity).
  exists s', root, q, l'. split_and!; [apply P|apply P| | |done| |lia|by apply P].
  - intros va Hva. rewrite X' by done.
    destruct Hr as [[-> ->]|(_ & -> & _)]; [|simpl in C; lia].
    unfold mapped. replace (PGROUNDDOWN 0) with 0 by (vm_compute; reflexivity).
    replace (PGROUNDUP (0 + PGSIZE)) with PGSIZE by (vm_compute; reflexivity).
    rewrite PGROUNDDOWN_eq, X. repeat case_decide; try lia. f_equal.
    rewrite Z.mod_small by lia. lia.
  - intros Hin. destruct (pr_nodes _ _ _ _ _ P q Hin); done.
  - intros Hin. destruct (pr_used _ _ _ _ _ P) as (us & E & _). apply Hl. rewrite E, elem_of_app. by right.
Qed.

Lemma uvmunmap_spec_witness :
  exists root s s', uvmunmap root 0 1 true s = Ret tt s' /\
    has (xpte (k_mem s) root 0) PTE_V = true /\ xpte (k_mem s') root 0 = 0.
Proof.
  destruct demo_mapped as (s & root & q & l & Hk & Ho & X & Hn & Hq & Hl & _).
  destruct (page_bounds q Hq) as [Hb Ha].
  destruct (mkpte_spec q demo_perm Hb Ha) as (Hv & Hpa & Hfl & _);
    [vm_compute; split; [discriminate|reflexivity]|].
  assert (X0 : xpte (k_mem s) root 0 = mkpte q demo_perm).
  { rewrite X by (vm_compute; split; [discriminate|reflexivity]). reflexivity. }
  destruct (uvmunmap_spec root 0 1 true s l) as (s' & R & U & X').
  - exact Hk.
  - exact Ho.
  - lia.
  - reflexivity.
  - lia.
  - vm_compute. discriminate.
  - intros va Hva. rewrite X by (change MAXVA with (2 ^ 38); unfold PGSIZE in *; simpl in *; lia).
    rewrite decide_True by (unfold PGSIZE in *; simpl in *; lia). split; [exact Hv|].
    rewrite Hfl. vm_compute. discriminate.
  - intros _. change (Z.to_nat 1) with 1%nat. cbn [upages]. rewrite X0, Hpa.
    split; [apply NoDup_singleton|]. intros pa Hin. apply list_elem_of_singleton in Hin as ->. auto.
  - exists root, s, s'. split; [exact R|]. split; [rewrite X0; exact Hv|].
    rewrite X' by (vm_compute; split; [discriminate|reflexivity]). reflexivity.
Defined.
End demo.
