(* ===== verification/UserCopy.v ===== *)
(** * Copies between the kernel and user memory

    [copyin], [copyout] and [copyinstr] of [kernel/vm.c] on the abstract view
    of a page table: the byte at user address [va] is the byte of RAM at
    [uaddr va]. *)

From S2P Require Import Prelude Param Mem CString Kernel Spinlock Kalloc Sched Sleeplock Vm PageTable.
Open Scope Z_scope.

Section user.
Context `{L : Linker, !LinkerOk}.

(** ** User memory *)

Definition uaddr (m : memory) (root va : Z) : Z := user_pa m root va + va mod PGSIZE.

Fixpoint ubytes (m : memory) (root va : Z) (n : nat) : list Z :=
  match n with
  | O => []
  | S n => ld8 m (uaddr m root va) :: ubytes m root (va + 1) n
  end.

(** [n] bytes at [va] that user code may access. *)
Definition user_ok (m : memory) (root va n : Z) : Prop :=
  0 <= va /\ va + n <= MAXVA /\ forall x, va <= x < va + n -> user_pa m root x <> 0.

Lemma user_pa_page m root va va' :
  va' / PGSIZE = va / PGSIZE -> user_pa m root va' = user_pa m root va.
Proof.
  intros E. unfold user_pa, xpte. destruct (same_page_idx va va' E) as [-> ->]. done.
Qed.

Lemma user_pa_down m root va : 0 <= va -> user_pa m root (PGROUNDDOWN va) = user_pa m root va.
Proof. intros Hva. apply user_pa_page. rewrite PGROUNDDOWN_eq. unfold PGSIZE. zlia. Qed.

Lemma length_ubytes m root va n : length (ubytes m root va n) = n.
Proof. revert va; induction n; intros; simpl; auto. Qed.

Lemma ubytes_app m root va n1 n2 :
  ubytes m root va (n1 + n2) = ubytes m root va n1 ++ ubytes m root (va + Z.of_nat n1) n2.
Proof.
  revert va. induction n1 as [|n1 IH]; intros va; simpl.
  - by rewrite Z.add_0_r.
  - rewrite IH. do 3 f_equal. lia.
Qed.

(** Inside one page the bytes are consecutive. *)
Lemma ubytes_page m root va n :
  0 <= va -> va mod PGSIZE + Z.of_nat n <= PGSIZE ->
  ubytes m root va n = ld_bytes m (uaddr m root va) n.
Proof.
  revert va. induction n as [|n IH]; intros va Hva Hn; simpl; [done|]. f_equal.
  destruct n as [|n]; [done|]. rewrite IH; [|lia|unfold PGSIZE in *; zlia].
  f_equal. unfold uaddr. rewrite (user_pa_page m root va (va + 1)) by (unfold PGSIZE in *; zlia).
  unfold PGSIZE in *. zlia.
Qed.

Lemma ubytes_ext m m' root va n :
  (forall x, va <= x < va + Z.of_nat n -> ld8 m' (uaddr m' root x) = ld8 m (uaddr m root x)) ->
  ubytes m' root va n = ubytes m root va n.
Proof.
  revert va. induction n as [|n IH]; intros va He; simpl; [done|]. f_equal.
  - apply He. lia.
  - apply IH. intros x Hx. apply He. lia.
Qed.

(** ** The loops *)

(** Enough iterations for the bytes left in the first page and the rest. *)
Definition copy_need (va len : Z) : Z := (va mod PGSIZE + len + PGSIZE - 1) / PGSIZE.

Lemma copy_fuel_enough va len : 0 <= len -> copy_need va len < Z.of_nat (copy_fuel len).
Proof. intros. unfold copy_need, copy_fuel, PGSIZE. zlia. Qed.

(** What one iteration does to the arguments. *)
Lemma in_page_spec va len :
  0 <= va -> 0 < len ->
  let n := in_page va (PGROUNDDOWN va) len in
  0 < n <= len /\ va mod PGSIZE + n <= PGSIZE /\ va - PGROUNDDOWN va = va mod PGSIZE /\
  (len = n \/ PGROUNDDOWN va + PGSIZE = va + n) /\
  copy_need (PGROUNDDOWN va + PGSIZE) (len - n) < copy_need va len.
Proof.
  intros Hva Hlen n. unfold n, in_page, copy_need. rewrite PGROUNDDOWN_eq. unfold PGSIZE.
  assert (E : (va - va mod 4096 + 4096) mod 4096 = 0) by zlia. rewrite E.
  replace (va - (va - va mod 4096)) with (va mod 4096) by lia.
  pose proof (Z.mod_pos_bound va 4096). rewrite Z.gtb_ltb.
  destruct (Z.ltb_spec len (4096 - va mod 4096)); split_and!; try lia; zlia.
Qed.

Lemma copyin_loop_run fuel root dst va len s l :
  pt_ok (k_mem s) root l -> 0 <= len -> user_ok (k_mem s) root va len ->
  copy_need va len < Z.of_nat fuel ->
  copyin_loop fuel root dst va len s = Ret (0, dst ++ ubytes (k_mem s) root va (Z.to_nat len)) s.
Proof.
  intros Ho. revert dst va len. induction fuel as [|fuel IH]; intros dst va len Hlen Hu Hf.
  { unfold copy_need, PGSIZE in Hf. zlia. }
  simpl. rewrite Z.gtb_ltb. destruct (Z.ltb_spec 0 len) as [Hl|Hl]; cycle 1.
  { replace len with 0 by lia. simpl. by rewrite app_nil_r. }
  destruct Hu as (Hva & Htop & Hu). pose proof (in_page_spec va len Hva Hl) as (H1 & H2 & H3 & H4 & H5).
  set (n := in_page va (PGROUNDDOWN va) len) in *.
  assert (HM : MAXVA = 2 ^ 38) by reflexivity.
  assert (Hd : 0 <= PGROUNDDOWN va <= va) by (rewrite PGROUNDDOWN_eq; unfold PGSIZE; zlia).
  krun (walkaddr_run root (PGROUNDDOWN va) s l Ho ltac:(lia)).
  rewrite user_pa_down by done. rewrite (proj2 (Z.eqb_neq _ _)) by (apply Hu; lia).
  rewrite kbind_gets. rewrite H3. rewrite u64_small by (unfold PGSIZE; lia).
  change (user_pa (k_mem s) root va + va mod PGSIZE) with (uaddr (k_mem s) root va).
  rewrite <- ubytes_page by lia.
  replace (Z.to_nat len) with (Z.to_nat n + Z.to_nat (len - n))%nat by lia.
  rewrite ubytes_app, app_assoc, Z2Nat.id by lia.
  destruct H4 as [E|E].
  - rewrite IH; [|lia| |lia].
    + by replace (Z.to_nat (len - n)) with 0%nat by lia.
    + split_and!; [lia| |intros; lia]. rewrite E, Z.sub_diag, Z.add_0_r.
      rewrite PGROUNDDOWN_eq. unfold PGSIZE in *. rewrite HM in *. zlia.
  - rewrite E in *. apply IH; [lia| |lia]. split_and!; [lia|lia|]. intros x Hx. apply Hu. lia.
Qed.

Lemma copyin_run root va len s l :
  pt_ok (k_mem s) root l -> 0 <= len -> user_ok (k_mem s) root va len ->
  copyin root va len s = Ret (0, ubytes (k_mem s) root va (Z.to_nat len)) s.
Proof.
  intros Ho Hl Hu. unfold copyin. rewrite (copyin_loop_run _ root [] va len s l); [done|done|done|done|].
  by apply copy_fuel_enough.
Qed.

(** ** [copyout] *)

(** The bytes behind the range are distinct and hold no page table. *)
Record private (m : memory) (root va n : Z) : Prop := {
  pv_user : user_ok m root va n;
  pv_inj x y : va <= x < va + n -> va <= y < va + n -> uaddr m root x = uaddr m root y -> x = y;
  pv_tab x q : va <= x < va + n -> is_node m root q ->
    uaddr m root x < q \/ q + PGSIZE <= uaddr m root x
}.

(** The tables did not change. *)
Definition same_tables (root : Z) (m m' : memory) : Prop :=
  (forall p, path p -> node m' root p = node m root p) /\
  (forall va, xpte m' root va = xpte m root va).

Lemma same_tables_uaddr root m m' va : same_tables root m m' -> uaddr m' root va = uaddr m root va.
Proof. intros [_ E]. unfold uaddr, user_pa. by rewrite E. Qed.

Lemma same_tables_pt_ok root m m' l : same_tables root m m' -> pt_ok m root l -> pt_ok m' root l.
Proof.
  intros [E _] Ho. split; intros *.
  - intros Hp. rewrite E by done. by apply (po_page _ _ _ Ho).
  - intros Hp. rewrite E by done. by apply (po_free _ _ _ Ho).
  - intros Hp Hq. rewrite !E by done. by apply (po_inj _ _ _ Ho).
Qed.

Lemma same_tables_trans root m1 m2 m3 :
  same_tables root m1 m2 -> same_tables root m2 m3 -> same_tables root m1 m3.
Proof.
  intros [A1 B1] [A2 B2]. split; [intros p Hp; by rewrite A2, A1|intros va; by rewrite B2, B1].
Qed.

Lemma private_same root m m' va n : same_tables root m m' -> private m root va n -> private m' root va n.
Proof.
  intros Hs [[H1 [H2 H3]] Hi Ht]. split; [split_and!; [done|done|]| |].
  - intros x Hx. destruct Hs as [_ Hs]. unfold user_pa. rewrite Hs. by apply H3.
  - intros x y Hx Hy. rewrite !(same_tables_uaddr root m m') by done. by apply Hi.
  - intros x q Hx Hq. rewrite (same_tables_uaddr root m m') by done. apply Ht; [done|].
    by rewrite <- (is_node_ext m m' root q (proj1 Hs)).
Qed.

Lemma private_sub root m va n va' n' :
  private m root va n -> va <= va' -> va' + n' <= va + n -> va' <= MAXVA -> private m root va' n'.
Proof.
  intros [[H1 [H2 H3]] Hi Ht] Hl Hr Hm. split; [split_and!; [lia|lia|]| |].
  - intros x Hx. apply H3. lia.
  - intros x y Hx Hy. apply Hi; lia.
  - intros x q Hx. apply Ht. lia.
Qed.

Lemma uaddr_shift m root va k :
  0 <= va -> 0 <= k -> va mod PGSIZE + k < PGSIZE -> uaddr m root (va + k) = uaddr m root va + k.
Proof.
  intros Hva Hk Hp. unfold uaddr. rewrite (user_pa_page m root va (va + k)) by (unfold PGSIZE in *; zlia).
  unfold PGSIZE in *. zlia.
Qed.

(** Storing into a part of one user page. *)
Lemma store_user m root va (bs : list Z) :
  private m root va (Z.of_nat (length bs)) -> va mod PGSIZE + Z.of_nat (length bs) <= PGSIZE ->
  same_tables root m (st_bytes m (uaddr m root va) bs).
Proof.
  intros Hp Hpg. destruct (decide (bs = [])) as [->|Hne]; [by split|].
  assert (Hlen : 0 < Z.of_nat (length bs)) by (destruct bs; simpl; [done|lia]).
  pose proof (pv_user _ _ _ _ Hp) as (Hva & _ & _).
  assert (He : forall u j, is_node m root u -> idx j ->
    ent (st_bytes m (uaddr m root va) bs) u j = ent m u j).
  { intros u j Hu Hj. apply ld_ext. intros b Hb. simpl in Hb. apply ld8_st_bytes_out. intros Hin.
    pose proof (pv_tab _ _ _ _ Hp (va + (b - uaddr m root va)) u) as Hd.
    rewrite uaddr_shift in Hd by lia. unfold idx in Hj. destruct Hd; [lia|done|..]; unfold PGSIZE in *; lia. }
  split; [intros; by apply node_ext|intros; by apply xpte_ext].
Qed.

Lemma copyout_loop_run fuel root va (src : list Z) s l :
  pt_ok (k_mem s) root l -> private (k_mem s) root va (Z.of_nat (length src)) -> bytes_ok src ->
  copy_need va (Z.of_nat (length src)) < Z.of_nat fuel ->
  exists m', copyout_loop fuel root va src s = Ret 0 (set_mem m' s) /\
    same_tables root (k_mem s) m' /\ ubytes m' root va (length src) = src /\
    (forall a, (forall x, va <= x < va + Z.of_nat (length src) -> a <> uaddr (k_mem s) root x) ->
       ld8 m' a = ld8 (k_mem s) a) /\ (mem_ok (k_mem s) -> mem_ok m').
Proof.
  assert (HM : MAXVA = 2 ^ 38) by reflexivity.
  revert va src s. induction fuel as [|fuel IH]; intros va src s Ho Hp Hb Hf.
  { unfold copy_need, PGSIZE in Hf. zlia. }
  cbn [copyout_loop]. rewrite Z.gtb_ltb. destruct (Z.ltb_spec 0 (Z.of_nat (length src))) as [Hl|Hl]; cycle 1.
  { destruct src; [|simpl in Hl; lia]. exists (k_mem s). split_and!; [done|by split|done|done|done]. }
  pose proof (pv_user _ _ _ _ Hp) as (Hva & Htop & Hu).
  pose proof (in_page_spec va _ Hva Hl) as (H1 & H2 & H3 & H4 & H5).
  set (n := in_page va (PGROUNDDOWN va) (Z.of_nat (length src))) in *.
  assert (Hd : 0 <= PGROUNDDOWN va <= va) by (rewrite PGROUNDDOWN_eq; unfold PGSIZE; zlia).
  krun (walkaddr_run root (PGROUNDDOWN va) s l Ho ltac:(lia)).
  rewrite user_pa_down by done. rewrite (proj2 (Z.eqb_neq _ _)) by (apply Hu; lia).
  rewrite H3, u64_small by (unfold PGSIZE; lia).
  change (user_pa (k_mem s) root va + va mod PGSIZE) with (uaddr (k_mem s) root va).
  unfold modify_mem. rewrite kbind_modify.
  set (b1 := take (Z.to_nat n) src). set (b2 := drop (Z.to_nat n) src).
  assert (L1 : length b1 = Z.to_nat n) by (unfold b1; rewrite length_take; lia).
  assert (L2 : Z.of_nat (length b2) = Z.of_nat (length src) - n) by (unfold b2; rewrite length_drop; lia).
  assert (Hb1 : bytes_ok b1) by (by apply Forall_take). assert (Hb2 : bytes_ok b2) by (by apply Forall_drop).
  set (m1 := st_bytes (k_mem s) (uaddr (k_mem s) root va) b1).
  assert (S1 : same_tables root (k_mem s) m1).
  { apply store_user; [|lia]. apply (private_sub root _ va _ va _ Hp); lia. }
  assert (U1 : ubytes m1 root va (Z.to_nat n) = b1).
  { rewrite ubytes_page by lia. rewrite (same_tables_uaddr root _ _ va S1). unfold m1.
    rewrite <- L1. by apply ld_st_bytes_same. }
  assert (O1 : forall a, (forall x, va <= x < va + Z.of_nat (length src) -> a <> uaddr (k_mem s) root x) ->
    ld8 m1 a = ld8 (k_mem s) a).
  { intros a Ha. apply ld8_st_bytes_out. rewrite L1. intros Hin.
    apply (Ha (va + (a - uaddr (k_mem s) root va))); [lia|]. rewrite uaddr_shift by lia. lia. }
  replace src with (b1 ++ b2) by apply take_drop.
  assert (Hstop : b2 = [] \/ PGROUNDDOWN va + PGSIZE = va + n).
  { destruct H4 as [E|E]; [left|by right]. apply nil_length_inv. lia. }
  destruct Hstop as [E|E].
  - rewrite E, app_nil_r. exists m1. split_and!; [|done|by rewrite L1| |apply st_bytes_mem_ok].
    + destruct fuel; [unfold copy_need, PGSIZE in *; zlia|]. reflexivity.
    + intros a Ha. apply O1. intros x Hx. apply Ha. rewrite E in L2. simpl in L2. lia.
  - rewrite E in *.
    destruct (IH (va + n) b2 (set_mem m1 s)) as (m' & R & S2 & U2 & O2 & M2).
    + by apply (same_tables_pt_ok root (k_mem s)).
    + apply (private_same root (k_mem s)); [done|]. apply (private_sub root _ va _ _ _ Hp); lia.
    + done.
    + rewrite L2. lia.
    + exists m'. split_and!; [exact R|by apply (same_tables_trans root _ m1)| | |].
      * rewrite length_app, ubytes_app, L1, Z2Nat.id, U2 by lia. f_equal. rewrite <- U1.
        apply ubytes_ext. intros x Hx. rewrite (same_tables_uaddr root m1 m' x S2).
        apply O2. intros y Hy. simpl. rewrite !(same_tables_uaddr root (k_mem s) m1) by done. intros Ea.
        pose proof (pv_inj _ _ _ _ Hp x y) as Hi. specialize (Hi ltac:(lia) ltac:(lia) Ea). lia.
      * intros a Ha. rewrite O2; simpl.
        -- apply O1. intros x Hx. apply Ha. rewrite length_app. lia.
        -- intros x Hx. rewrite (same_tables_uaddr root (k_mem s) m1) by done. apply Ha. rewrite length_app. lia.
      * intros Hm. apply M2. by apply st_bytes_mem_ok.
Qed.

Lemma copyout_run root va (src : list Z) s l :
  pt_ok (k_mem s) root l -> private (k_mem s) root va (Z.of_nat (length src)) -> bytes_ok src ->
  exists m', copyout root va src s = Ret 0 (set_mem m' s) /\
    same_tables root (k_mem s) m' /\ ubytes m' root va (length src) = src /\
    (forall a, (forall x, va <= x < va + Z.of_nat (length src) -> a <> uaddr (k_mem s) root x) ->
       ld8 m' a = ld8 (k_mem s) a) /\ (mem_ok (k_mem s) -> mem_ok m').
Proof.
  intros Ho Hp Hb. apply (copyout_loop_run _ root va src s l); try done. apply copy_fuel_enough. lia.
Qed.

(** C18: [copyout] to a user range writes exactly the range's bytes, and
    [copyin] from it then returns what was written, across page boundaries. *)
Theorem copyout_copyin root va (src : list Z) s l :
  pt_ok (k_mem s) root l -> private (k_mem s) root va (Z.of_nat (length src)) -> bytes_ok src ->
  exists s', copyout root va src s = Ret 0 s' /\
    copyin root va (Z.of_nat (length src)) s' = Ret (0, src) s' /\
    (forall a, (forall x, va <= x < va + Z.of_nat (length src) -> a <> uaddr (k_mem s) root x) ->
       ld8 (k_mem s') a = ld8 (k_mem s) a).
Proof.
  intros Ho Hp Hb. destruct (copyout_run root va src s l Ho Hp Hb) as (m' & R & S & U & O & _).
  exists (set_mem m' s). split_and!; [done| |done].
  rewrite (copyin_run root va _ (set_mem m' s) l).
  - simpl. by rewrite Nat2Z.id, U.
  - by apply (same_tables_pt_ok root (k_mem s)).
  - lia.
  - apply (pv_user m' root va). by apply (private_same root (k_mem s)).
Qed.
End user.

(** ** [either_copyout] and [either_copyin] of proc.c

    A kernel address is either in RAM or that of a local variable, which this
    model keeps outside RAM: a copy to a local returns its bytes, a copy from
    a local is given them. *)

Inductive dst : Type := ToUser (va : Z) | ToRam (a : Z) | ToLocal.
Inductive src : Type := FromUser (va : Z) | FromRam (a : Z) | FromLocal (bs : list Z).

(** [dst += m], [src += m] *)
Definition dst_add (d : dst) (m : Z) : dst :=
  match d with
  | ToUser va => ToUser (u64 (va + m))
  | ToRam a => ToRam (a + m)
  | ToLocal => ToLocal
  end.
Definition src_add (x : src) (m : Z) : src :=
  match x with
  | FromUser va => FromUser (u64 (va + m))
  | FromRam a => FromRam (a + m)
  | FromLocal bs => FromLocal (drop (Z.to_nat m) bs)
  end.

Section either.
Context `{L : Linker}.

(** The status and the bytes stored in a local. *)
Definition either_copyout (d : dst) (bs : list Z) : K (Z * list Z) :=
  let! p := myproc in
  match d with
  | ToUser va =>
    match p with
    | None => panic "kerneltrap"
    | Some p =>
      let! pt := gets (fun s => p_pagetable (proc_at s p)) in
      let! r := copyout pt va bs in
      kret (r, [])
    end
  | ToRam a => do! modify_mem (fun m => st_bytes m a bs); kret (0, [])
  | ToLocal => kret (0, bs)
  end.

(** The status and the bytes read. *)
Definition either_copyin (x : src) (len : Z) : K (Z * list Z) :=
  let! p := myproc in
  match x with
  | FromUser va =>
    match p with
    | None => panic "kerneltrap"
    | Some p =>
      let! pt := gets (fun s => p_pagetable (proc_at s p)) in
      copyin pt va len
    end
  | FromRam a => gets (fun s => (0, ld_bytes (k_mem s) a (Z.to_nat len)))
  | FromLocal bs => kret (0, take (Z.to_nat len) bs)
  end.
End either.

Section demo.
#[local] Existing Instance demo_linker.
#[local] Existing Instance demo_linker_ok.

(** The page of [demo_mapped] is private memory of its process; a free page
    [f] is apart from it and from the page tables. *)
Lemma demo_private : exists s root l f, pt_ok (k_mem s) root l /\ private (k_mem s) root 4090 6 /\
  mem_ok (k_mem s) /\
  (forall u, is_node (k_mem s) root u -> u + PGSIZE <= f \/ f + PGSIZE <= u) /\
  (forall x, 4090 <= x < 4096 -> uaddr (k_mem s) root x < f \/ f + PGSIZE <= uaddr (k_mem s) root x).
Proof.
  destruct demo_mapped as (s & root & q & l & Hk & Ho & X & Hn & Hq & Hl & Hlen & Hsh).
  destruct (page_bounds q Hq) as [Hb Ha].
  destruct (mkpte_spec q demo_perm Hb Ha) as (Hv & Hpa & Hfl & _);
    [vm_compute; split; [discriminate|reflexivity]|].
  assert (Hu : has (mkpte q demo_perm) PTE_U = true).
  { unfold has. apply negb_true_iff, Z.eqb_neq. intros E.
    apply (f_equal (fun z => Z.testbit z 4)) in E. revert E. unfold mkpte.
    rewrite Z.land_spec, !Z.lor_spec. change (Z.testbit demo_perm 4) with true.
    rewrite orb_true_r. discriminate. }
  assert (Hp : forall x, 0 <= x < PGSIZE -> user_pa (k_mem s) root x = q).
  { intros x Hx. unfold user_pa. rewrite X by (change MAXVA with (2 ^ 38); unfold PGSIZE in *; lia).
    rewrite decide_True by lia. by rewrite Hv, Hu, Hpa. }
  assert (Ha' : forall x, 0 <= x < PGSIZE -> uaddr (k_mem s) root x = q + x).
  { intros x Hx. unfold uaddr. rewrite Hp by done. by rewrite Z.mod_small. }
  destruct l as [|f l]; [simpl in Hlen; lia|].
  assert (Hf : page_ok f) by (pose proof (ki_pages _ _ Hk) as Hall; by apply Forall_cons in Hall as [? _]).
  exists s, root, (f :: l), f. split; [exact Ho|]. split; cycle 1.
  { split; [apply Hk|]. split.
    - intros u (p & Hpp & Ht). apply (page_disjoint f u Hf (po_page _ _ _ Ho p u Hpp Ht)).
      intros <-. apply (po_free _ _ _ Ho p f Hpp Ht). by left.
    - intros x Hx. rewrite Ha' by (unfold PGSIZE; lia).
      destruct (page_disjoint f q Hf Hq) as [?|?]; [intros <-; apply Hl; by left|..]; unfold PGSIZE in *; lia. }
  unfold PGSIZE in *. split.
  - split_and!; [lia|vm_compute; discriminate|]. intros x Hx. rewrite Hp by lia.
    pose proof (page_pos q Hq). lia.
  - intros x y Hx Hy. rewrite !Ha' by lia. lia.
  - intros x u Hx Hu'. rewrite Ha' by lia. pose proof Hu' as (p & Hpp & Ht).
    assert (Hne : q <> u) by (by intros ->).
    destruct (page_disjoint q u Hq (po_page _ _ _ Ho p u Hpp Ht) Hne); unfold PGSIZE in *; lia.
Qed.

Lemma copyout_copyin_witness :
  exists root s s', copyout root 4090 [1; 2; 3; 4; 5; 6] s = Ret 0 s' /\
    copyin root 4090 6 s' = Ret (0, [1; 2; 3; 4; 5; 6]) s'.
Proof.
  destruct demo_private as (s & root & l & f & Ho & Hp & _).
  destruct (copyout_copyin root 4090 [1; 2; 3; 4; 5; 6] s l) as (s' & R1 & R2 & _).
  - exact Ho.
  - exact Hp.
  - repeat constructor; lia.
  - exists root, s, s'. split; [exact R1|exact R2].
Defined.
End demo.
