(* ===== verification/FreeVm.v ===== *)
(** * Giving an address space back: [freewalk] and [uvmfree] of kernel/vm.c

    [freewalk] returns every table to the allocator once no leaf is left;
    [uvmfree] returns the pages of the process before that. *)

From S2P Require Import Prelude Param Mem CString Kernel Spinlock Kalloc Sched Sleeplock Vm PageTable UserCopy.
Open Scope Z_scope.

Definition RWX : Z := Z.lor (Z.lor PTE_R PTE_W) PTE_X.

(** The tables of the tree of height [d] below [t], and that the tree can be
    freed: entries that are valid lead to tables, and the last level is empty. *)
Fixpoint tree (d : nat) (m : memory) (t : Z) : list Z :=
  match d with
  | O => []
  | S d => t :: flat_map (fun i => if has (ent m t (Z.of_nat i)) PTE_V
                                   then tree d m (PTE2PA (ent m t (Z.of_nat i))) else []) (seq 0 512)
  end.

Fixpoint closed (d : nat) (m : memory) (t : Z) : Prop :=
  match d with
  | O => False
  | S d => forall i, idx i -> has (ent m t i) PTE_V = true ->
             Z.land (ent m t i) RWX = 0 /\ closed d m (PTE2PA (ent m t i))
  end.

Definition below (d : nat) (m : memory) (t : Z) (i : nat) : list Z :=
  if has (ent m t (Z.of_nat i)) PTE_V then tree d m (PTE2PA (ent m t (Z.of_nat i))) else [].

Lemma flat_map_ext' {A B} (f g : A -> list B) l : (forall x, x ∈ l -> f x = g x) -> flat_map f l = flat_map g l.
Proof. induction l as [|x l IH]; intros H; simpl; [done|]. rewrite (H x) by left. f_equal. apply IH. intros. apply H. by right. Qed.

Lemma elem_of_flat_map {A B} (f : A -> list B) l y : y ∈ flat_map f l <-> exists x, x ∈ l /\ y ∈ f x.
Proof. rewrite list_elem_of_In, in_flat_map. by setoid_rewrite list_elem_of_In. Qed.

(** Memory that agrees on the tables of a tree has the same tree. *)
Lemma tree_ext d : forall m m' t,
  (forall q j, q ∈ tree d m t -> idx j -> ent m' q j = ent m q j) ->
  tree d m' t = tree d m t /\ (closed d m t -> closed d m' t).
Proof.
  induction d as [|d IH]; intros m m' t He; cbn [tree closed]; [done|].
  assert (Ht : forall i, idx i -> ent m' t i = ent m t i) by (intros; apply He; [left|done]).
  assert (Hsub : forall i, (i < 512)%nat -> has (ent m t (Z.of_nat i)) PTE_V = true ->
    forall q j, q ∈ tree d m (PTE2PA (ent m t (Z.of_nat i))) -> idx j -> ent m' q j = ent m q j).
  { intros i Hi Hv q j Hq Hj. apply He; [|done]. right. apply elem_of_flat_map. exists i. rewrite Hv.
    split; [apply elem_of_seq; lia|done]. }
  split.
  - f_equal. apply flat_map_ext'. intros i Hi. apply elem_of_seq in Hi. rewrite Ht by (unfold idx; lia).
    destruct (has _ _) eqn:Hv; [|done]. apply IH, Hsub; [lia|done].
  - intros Hc i Hi. rewrite Ht by done. intros Hv. destruct (Hc i Hi Hv) as [H1 H2]. split; [done|].
    unfold idx in Hi. apply (IH m m'); [|done]. replace i with (Z.of_nat (Z.to_nat i)) in Hv |- * by lia. apply Hsub; [lia|done].
Qed.

(** The tables of a tree are what the paths into it reach. *)
Lemma elem_of_tree d : forall m t q,
  q ∈ tree d m t <-> exists p, (length p < d)%nat /\ Forall idx p /\ node m t p = Some q.
Proof.
  induction d as [|d IH]; intros m t q; cbn [tree].
  - split; [by intros ?%elem_of_nil|intros (p & Hp & _); lia].
  - rewrite elem_of_cons, elem_of_flat_map. split.
    + intros [->|(i & Hi & Hq)]; [exists []; split; [simpl; lia|split; [constructor|done]]|].
      apply elem_of_seq in Hi. destruct (has _ _) eqn:Hv; [|by apply elem_of_nil in Hq].
      apply IH in Hq as (p & Hp & Hf & Hn). exists (Z.of_nat i :: p). split; [simpl; lia|].
      split; [constructor; [unfold idx; lia|done]|]. simpl. unfold child. by rewrite Hv.
    + intros ([|i p] & Hp & Hf & Hn); [injection Hn as ->; by left|right].
      apply Forall_cons in Hf as [Hi Hf]. simpl in Hn, Hp. unfold child in Hn. destruct (has _ _) eqn:Hv; [|done]. simpl in Hn.
      exists (Z.to_nat i). unfold idx in Hi. rewrite Z2Nat.id by lia. rewrite Hv. split; [apply elem_of_seq; lia|].
      apply IH. exists p. split_and!; [lia|done|done].
Qed.

Lemma NoDup_flat_map {A B} (f : A -> list B) l :
  NoDup l -> (forall x, x ∈ l -> NoDup (f x)) -> (forall x y z, x ∈ l -> y ∈ l -> z ∈ f x -> z ∈ f y -> x = y) ->
  NoDup (flat_map f l).
Proof.
  induction 1 as [|x l Hx Hl IH]; intros Hf Hd; simpl; [constructor|]. apply NoDup_app. split_and!.
  - apply Hf. left.
  - intros z Hz Hz'. apply elem_of_flat_map in Hz' as (y & Hy & Hzy).
    rewrite (Hd x y z) in Hx; [done|left|by right|done|done].
  - apply IH; [intros; apply Hf; by right|]. intros y y' z Hy Hy'. apply Hd; by right.
Qed.

Lemma NoDup_tree d : forall m t,
  (forall p p' q, (length p < d)%nat -> (length p' < d)%nat -> Forall idx p -> Forall idx p' ->
     node m t p = Some q -> node m t p' = Some q -> p = p') -> NoDup (tree d m t).
Proof.
  induction d as [|d IH]; intros m t Hi; cbn [tree]; [constructor|].
  assert (Hb : forall i q, i ∈ seq 0 512 -> q ∈ below d m t i ->
    exists p, (length p < d)%nat /\ Forall idx (Z.of_nat i :: p) /\ node m t (Z.of_nat i :: p) = Some q).
  { intros i q Hin Hq. apply elem_of_seq in Hin. unfold below in Hq. destruct (has _ _) eqn:Hv; [|by apply elem_of_nil in Hq].
    apply elem_of_tree in Hq as (p & Hp & Hf & Hn). exists p. split; [done|]. split; [constructor; [unfold idx; lia|done]|].
    simpl. unfold child. by rewrite Hv. }
  apply NoDup_cons. split.
  - intros Hin. apply elem_of_flat_map in Hin as (i & Hin & Hq). destruct (Hb i t Hin Hq) as (p & Hp & Hf & Hn).
    pose proof (Hi [] (Z.of_nat i :: p) t) as E. simpl in E. discriminate E; try done; lia || constructor.
  - apply NoDup_flat_map; [apply NoDup_seq| |].
    + intros i Hin. change (NoDup (below d m t i)). unfold below. destruct (has _ _) eqn:Hv; [|constructor]. apply elem_of_seq in Hin.
      apply IH. intros p p' q Hp Hp' Hf Hf' Hn Hn'. enough (Z.of_nat i :: p = Z.of_nat i :: p') by congruence.
      apply (Hi _ _ q); simpl; try lia; try (constructor; [unfold idx; lia|done]); unfold child; by rewrite Hv.
    + intros i j q Hin Hjn Hqi Hqj. destruct (Hb i q Hin Hqi) as (p & Hp & Hf & Hn), (Hb j q Hjn Hqj) as (p' & Hp' & Hf' & Hn').
      assert (E : Z.of_nat i :: p = Z.of_nat j :: p') by (apply (Hi _ _ q); simpl; try lia; done). injection E as E _. lia.
Qed.

Section free.
Context `{L : Linker, HL : !LinkerOk}.

(** From [s] with the free pages [l] to [s'] with [ps] free as well; only the
    pages [cs] may have changed. *)
Record freed (cs ps l : list Z) (s s' : kst) : Prop := {
  fr_kmem : exists l', kmem_inv s' l' /\ l' ≡ₚ ps ++ l;
  fr_frame : norm s' = set_mem (k_mem s') (set_freelist (k_freelist s') (norm s));
  fr_out a : (forall q, q ∈ cs -> a < q \/ q + PGSIZE <= a) -> ld8 (k_mem s') a = ld8 (k_mem s) a
}.

Lemma freed_refl cs l s : kmem_inv s l -> freed cs [] l s s.
Proof. intros Hk. split; [by exists l|reflexivity|done]. Qed.

Lemma freed_trans cs cs1 cs2 ps1 ps2 l l1 s1 s2 s3 :
  freed cs1 ps1 l s1 s2 -> l1 ≡ₚ ps1 ++ l -> freed cs2 ps2 l1 s2 s3 ->
  (forall q, q ∈ cs1 \/ q ∈ cs2 -> q ∈ cs) -> freed cs (ps1 ++ ps2) l s1 s3.
Proof.
  intros [_ F1 O1] P1 [(l' & K & P) F2 O2] Hs. split.
  - exists l'. split; [done|]. rewrite P, P1. rewrite !app_assoc. f_equiv. apply Permutation_app_comm.
  - rewrite F2, F1. reflexivity.
  - intros a Ha. rewrite O2, O1; [done|auto|auto].
Qed.

(** A page whose bytes do not change keeps its entries. *)
Lemma freed_ent cs ps l s s' u j :
  freed cs ps l s s' -> Forall page_ok cs -> page_ok u -> u ∉ cs -> idx j -> ent (k_mem s') u j = ent (k_mem s) u j.
Proof.
  intros F Hcs Hu Hn Hj. apply ld_ext. intros b Hb. apply (fr_out _ _ _ _ _ F). intros q Hq.
  rewrite Forall_forall in Hcs. assert (u <> q) by (by intros ->). unfold idx in Hj. simpl in Hb.
  destruct (page_disjoint u q Hu (Hcs q Hq)); try done; unfold PGSIZE in *; lia.
Qed.

Definition free_entry (d : nat) (t : Z) (i : nat) : K unit :=
  let! pte := load64 (t + 8 * Z.of_nat i) in
  if has pte PTE_V && (Z.land pte RWX =? 0) then
    do! freewalk_at d (PTE2PA pte);
    store64 (t + 8 * Z.of_nat i) 0
  else if has pte PTE_V then panic "freewalk: leaf"
  else kret tt.

(** What [freewalk_at] does for a tree. *)
Definition frees (d : nat) : Prop := forall t s l,
  kmem_inv s l -> closed d (k_mem s) t -> Forall page_ok (tree d (k_mem s) t) -> NoDup (tree d (k_mem s) t ++ l) ->
  exists s', freewalk_at d t s = Ret tt s' /\ freed (tree d (k_mem s) t) (tree d (k_mem s) t) l s s'.

Lemma free_entry_run d t i s l : frees d -> (i < 512)%nat ->
  kmem_inv s l -> (forall v, v = ent (k_mem s) t (Z.of_nat i) -> has v PTE_V = true -> Z.land v RWX = 0 /\ closed d (k_mem s) (PTE2PA v)) ->
  page_ok t -> Forall page_ok (below d (k_mem s) t i) -> NoDup (t :: below d (k_mem s) t i ++ l) ->
  exists s' , free_entry d t i s = Ret tt s' /\ freed (t :: below d (k_mem s) t i) (below d (k_mem s) t i) l s s' /\
    (forall j, idx j -> j <> Z.of_nat i -> ent (k_mem s') t j = ent (k_mem s) t j).
Proof.
  intros Hd Hi Hk Hc Ht Hp Hnd. unfold free_entry, load64. rewrite kbind_gets.
  fold (ent (k_mem s) t (Z.of_nat i)). unfold below in *. set (v := ent (k_mem s) t (Z.of_nat i)) in *.
  destruct (has v PTE_V) eqn:Hv; cbn [andb].
  - destruct (Hc v eq_refl Hv) as [H1 H2]. rewrite (proj2 (Z.eqb_eq _ _) H1).
    apply NoDup_cons in Hnd as [Hnt Hnd]. rewrite elem_of_app in Hnt.
    destruct (Hd (PTE2PA v) s l Hk H2 Hp Hnd) as (s1 & R & F). krun R.
    destruct (fr_kmem _ _ _ _ _ F) as (l1 & K1 & P1).
    assert (Htl : t ∉ l1) by (rewrite P1, elem_of_app; tauto).
    assert (Hidx : idx (Z.of_nat i)) by (unfold idx; lia).
    assert (Fs : freed [t] [] l1 s1 (set_mem (st64 (k_mem s1) (t + 8 * Z.of_nat i) 0) s1)).
    { split; [exists l1; split; [by apply store_kmem|done]|reflexivity|].
      intros a Ha. apply store_outside; [done|]. apply Ha. left. }
    eexists. split; [reflexivity|]. split.
    + rewrite <- (app_nil_r (tree d (k_mem s) (PTE2PA v))) at 2. eapply freed_trans; [exact F|exact P1|exact Fs|].
      intros q [Hq|Hq]; [by right|]. apply list_elem_of_singleton in Hq as ->. left.
    + intros j Hj Hne. cbn [k_mem set_mem]. rewrite ent_store by done. rewrite decide_False by tauto.
      apply (freed_ent _ _ _ _ _ _ _ F); try done. tauto.
  - exists s. split; [done|]. split; [by apply freed_refl|done].
Qed.

Lemma free_entries_run d t : frees d -> forall n j s l, (j + n <= 512)%nat ->
  kmem_inv s l -> (forall i v, (j <= i < j + n)%nat -> v = ent (k_mem s) t (Z.of_nat i) -> has v PTE_V = true ->
    Z.land v RWX = 0 /\ closed d (k_mem s) (PTE2PA v)) ->
  let ps := flat_map (below d (k_mem s) t) (seq j n) in
  page_ok t -> Forall page_ok ps -> NoDup (t :: ps ++ l) ->
  exists s', kfor (seq j n) (free_entry d t) s = Ret tt s' /\ freed (t :: ps) ps l s s'.
Proof.
  intros Hd. induction n as [|n IH]; intros j s l Hj Hk Hc ps Ht Hp Hnd; unfold ps in *; clear ps.
  { exists s. split; [done|]. by apply freed_refl. }
  cbn [seq flat_map kfor] in *. apply Forall_app in Hp as [Hp1 Hp2].
  set (b := below d (k_mem s) t j) in *. set (ps := flat_map (below d (k_mem s) t) (seq (S j) n)) in *.
  pose proof Hnd as Hnd'. apply NoDup_cons in Hnd' as [Hnt Hnd']. rewrite !elem_of_app in Hnt.
  rewrite <- app_assoc in Hnd'. apply NoDup_app in Hnd' as (N1 & N2 & N3). apply NoDup_app in N3 as (N4 & N5 & N6).
  destruct (free_entry_run d t j s l Hd ltac:(lia) Hk) as (s1 & R & F & E); try done.
  { intros v Ev. apply (Hc j v); [lia|done]. }
  { apply NoDup_cons. rewrite elem_of_app. split; [tauto|]. apply NoDup_app. split_and!; [done| |done].
    intros q Hq Hl. apply (N2 q Hq). rewrite elem_of_app. by right. }
  fold b in F. krun R. destruct (fr_kmem _ _ _ _ _ F) as (l1 & K1 & P1).
  assert (Hcs : Forall page_ok (t :: b)) by (by constructor).
  assert (Hx : forall i, (S j <= i < S j + n)%nat -> ent (k_mem s1) t (Z.of_nat i) = ent (k_mem s) t (Z.of_nat i)).
  { intros i Hi. apply E; [unfold idx|]; lia. }
  assert (Hsame : forall i, (S j <= i < S j + n)%nat -> has (ent (k_mem s) t (Z.of_nat i)) PTE_V = true ->
    forall q k, q ∈ tree d (k_mem s) (PTE2PA (ent (k_mem s) t (Z.of_nat i))) -> idx k -> ent (k_mem s1) q k = ent (k_mem s) q k).
  { intros i Hi Hv q k Hq Hk'. assert (Hqs : q ∈ ps).
    { apply elem_of_flat_map. exists i. split; [apply elem_of_seq; lia|]. unfold below. by rewrite Hv. }
    rewrite Forall_forall in Hp2. apply (freed_ent _ _ _ _ _ _ _ F Hcs); [by apply Hp2| |done].
    rewrite elem_of_cons. intros [->|Hqb]; [tauto|]. apply (N2 q Hqb). rewrite elem_of_app. by left. }
  assert (Hps : flat_map (below d (k_mem s1) t) (seq (S j) n) = ps).
  { apply flat_map_ext'. intros i Hi. apply elem_of_seq in Hi. unfold below. rewrite Hx by done.
    destruct (has _ _) eqn:Hv; [|done]. apply tree_ext. by apply Hsame. }
  destruct (IH (S j) s1 l1) as (s2 & R2 & F2); rewrite ?Hps; try done; [lia| | |].
  { intros i v Hi -> . rewrite Hx by done. intros Hv. destruct (Hc i _ ltac:(lia) eq_refl Hv) as [H1 H2]. split; [done|].
    apply (tree_ext d (k_mem s)); [by apply Hsame|done]. }
  { apply NoDup_cons. split; [rewrite elem_of_app, P1, elem_of_app; tauto|]. apply NoDup_app. split_and!; [done| |].
    - intros q Hq. rewrite P1, elem_of_app. intros [Hb|Hl]; [apply (N2 q Hb); rewrite elem_of_app; by left|by apply (N5 q)].
    - rewrite P1. apply NoDup_app. split_and!; [done| |done]. intros q Hq Hl. apply (N2 q Hq). rewrite elem_of_app. by right. }
  rewrite Hps in F2. exists s2. split; [done|]. eapply freed_trans; [exact F|exact P1|exact F2|].
  intros q. rewrite !elem_of_cons, elem_of_app. tauto.
Qed.

Lemma freewalk_at_run d : frees d.
Proof using HL.
  induction d as [|d IH]; intros t s l Hk Hc Hp Hnd; [done|]. cbn [freewalk_at].
  cbn [tree] in *. change (flat_map _ _) with (flat_map (below d (k_mem s) t) (seq 0 512)) in Hp, Hnd |- *.
  apply Forall_cons in Hp as [Ht Hp]. set (ps := flat_map _ _) in *.
  destruct (free_entries_run d t IH 512 0 s l) as (s1 & R & F); try done.
  { intros i v Hi ->. apply Hc. unfold idx. lia. }
  change (flat_map _ _) with ps in F. 
  destruct (fr_kmem _ _ _ _ _ F) as (l1 & K1 & P1). pose proof Hnd as Hnd'. apply NoDup_cons in Hnd' as [Hnt _].
  destruct (kfree_inv s1 t l1 K1 Ht) as (s2 & R2 & K2 & St & So); [by rewrite P1|].
  exists s2. split; [krun R; exact R2|].
  assert (F2 : freed [t] [t] l1 s1 s2).
  { split; [by exists (t :: l1)| |intros a Ha; apply So, Ha; left]. rewrite St.
    change (set_mem (k_mem s2) (set_freelist (k_freelist s2) (norm (norm s1))) = set_mem (k_mem s2) (set_freelist (k_freelist s2) (norm s1))).
    by rewrite norm_norm by apply K1. }
  assert (F3 : freed (t :: ps) (ps ++ [t]) l s s2).
  { eapply freed_trans; [exact F|exact P1|exact F2|]. intros q [Hq|Hq]; [done|]. apply list_elem_of_singleton in Hq as ->. left. }
  destruct F3 as [(l2 & K & P) Fr O]. split; [|done|done]. exists l2. split; [done|]. rewrite P. f_equiv. by rewrite Permutation_app_comm.
Qed.

(** ** From page tables to trees *)

Definition va_of (i j k : Z) : Z := i * 2 ^ 30 + j * 2 ^ 21 + k * 2 ^ 12.

Lemma va_of_idx i j k : 0 <= i < 256 -> idx j -> idx k ->
  0 <= va_of i j k < MAXVA /\ vpath (va_of i j k) = [i; j] /\ PX 0 (va_of i j k) = k.
Proof.
  unfold va_of, idx, vpath. change MAXVA with (2 ^ 38). intros Hi Hj Hk. rewrite !PX_eq by lia. simpl. split; [lia|].
  split; [f_equal; [|f_equal]|]; zlia.
Qed.

Lemma tables_closed m root l :
  pt_ok m root l -> pt_shape m root -> (forall va, 0 <= va < MAXVA -> has (xpte m root va) PTE_V = false) ->
  closed 3 m root.
Proof using Type.
  intros Ho [S1 S2] Hx i Hi Hv.
  assert (Hlow : 0 <= i < 256).
  { destruct (decide (i < 256)); [unfold idx in Hi; lia|]. unfold idx in Hi. pose proof (S2 i ltac:(lia)) as E. unfold child in E. by rewrite Hv in E. }
  assert (Hn1 : node m root [i] = Some (PTE2PA (ent m root i))) by (simpl; unfold child; by rewrite Hv).
  split. { apply (S1 [] i root); [split; [simpl; lia|by apply Forall_singleton]|done|done]. }
  intros j Hj Hv'. set (t1 := PTE2PA (ent m root i)) in *.
  split. { apply (S1 [i] j t1); [split; [simpl; lia|apply Forall_cons_2; [done|]; by apply Forall_singleton]|done|done]. }
  intros k Hk Hv''. destruct (va_of_idx i j k Hlow Hj Hk) as (H1 & H2 & H3). exfalso.
  specialize (Hx _ H1). unfold xpte in Hx. rewrite H2, H3 in Hx. simpl in Hx. unfold child in Hx.
  rewrite Hv in Hx. simpl in Hx. fold t1 in Hx. rewrite Hv' in Hx. simpl in Hx. by rewrite Hv'' in Hx.
Qed.

Lemma is_node_tree m root q : is_node m root q <-> q ∈ tree 3 m root.
Proof using Type.
  rewrite elem_of_tree. unfold is_node, path. split; intros (p & H); exists p; repeat split; try apply H; destruct H as [H _]; lia.
Qed.

(** [freewalk] of tables without leaves. *)
Lemma freewalk_run root s l :
  kmem_inv s l -> pt_ok (k_mem s) root l -> pt_shape (k_mem s) root ->
  (forall va, 0 <= va < MAXVA -> has (xpte (k_mem s) root va) PTE_V = false) ->
  exists s', freewalk root s = Ret tt s' /\ freed (tree 3 (k_mem s) root) (tree 3 (k_mem s) root) l s s' /\
    NoDup (tree 3 (k_mem s) root ++ l).
Proof using HL.
  intros Hk Ho Hs Hx. assert (Hnd : NoDup (tree 3 (k_mem s) root ++ l)).
  { apply NoDup_app. split_and!; [|intros q Hq|apply Hk].
    - apply NoDup_tree. intros p p' q Hp Hp' Hf Hf'. apply (po_inj _ _ _ Ho); split; try done; lia.
    - apply is_node_tree in Hq as (p & Hp & Hn). by apply (po_free _ _ _ Ho p). }
  destruct (freewalk_at_run 3 root s l Hk) as (s' & R & F); [by apply (tables_closed _ _ l)| |done|by exists s'].
  apply Forall_forall. intros q Hq. apply is_node_tree in Hq as (p & Hp & Hn). by apply (po_page _ _ _ Ho p).
Qed.

Lemma uvmfree_run root sz n s l :
  kmem_inv s l -> pt_ok (k_mem s) root l -> pt_shape (k_mem s) root ->
  (Z.of_nat n - 1) * PGSIZE < sz <= Z.of_nat n * PGSIZE -> Z.of_nat n * PGSIZE <= MAXVA ->
  leaves (k_mem s) root 0 n -> freeable (k_mem s) root l (upages (k_mem s) root 0 n) ->
  (forall va, Z.of_nat n * PGSIZE <= va < MAXVA -> has (xpte (k_mem s) root va) PTE_V = false) ->
  exists s' ts, uvmfree root sz s = Ret tt s' /\ (forall t, t ∈ ts <-> is_node (k_mem s) root t) /\
    NoDup (ts ++ upages (k_mem s) root 0 n ++ l) /\
    freed (ts ++ upages (k_mem s) root 0 n) (ts ++ upages (k_mem s) root 0 n) l s s'.
Proof using HL.
  intros Hk Ho Hs Hsz Htop Hlv Hfr Hx. assert (Hps : PGSIZE = 4096) by reflexivity. unfold uvmfree.
  set (up := upages (k_mem s) root 0 n) in *.
  assert (exists s1, (if! sz >? 0 then uvmunmap root 0 (PGROUNDUP sz / PGSIZE) true) s = Ret tt s1 /\
    unmap_rel root l s (rev up) s1 /\ forall va, 0 <= va < MAXVA -> has (xpte (k_mem s1) root va) PTE_V = false)
    as (s1 & R1 & [K1 O1 F1 N1 M1 S1] & X1).
  { destruct (Z.gtb_spec sz 0) as [Hpos|Hneg].
    - assert (Hn : PGROUNDUP sz / PGSIZE = Z.of_nat n).
      { change MAXVA with (2 ^ 38) in Htop. rewrite PGROUNDUP_eq by (rewrite Hps in *; lia). rewrite Hps in *. zlia. }
      rewrite Hn. destruct (uvmunmap_run root 0 (Z.of_nat n) true s l) as (s1 & R & U & X); rewrite ?Nat2Z.id; try done; [lia|].
      rewrite Nat2Z.id in U. exists s1. split; [done|]. split; [done|]. intros va Hva. rewrite X by done.
      case_decide; [apply has_0|]. apply Hx. lia.
    - assert (n = 0)%nat as -> by (rewrite Hps in *; lia). exists s. split; [done|]. split; [by apply unmap_refl|].
      intros va Hva. apply Hx. lia. }
  erewrite obind_Ret by exact R1. cbv beta.
  destruct (freewalk_run root s1 (rev up ++ l) K1 O1 (S1 Hs) X1) as (s2 & R2 & F2 & Nd).
  assert (Hnode : forall t, t ∈ tree 3 (k_mem s1) root <-> is_node (k_mem s) root t).
  { intros t. by rewrite <- is_node_tree, (is_node_ext _ _ _ _ N1). }
  assert (Hperm : tree 3 (k_mem s1) root ++ rev up ++ l ≡ₚ tree 3 (k_mem s1) root ++ up ++ l).
  { f_equiv. f_equiv. symmetry. apply Permutation_rev. }
  exists s2, (tree 3 (k_mem s1) root). split; [done|]. split; [done|]. split; [by rewrite <- Hperm|].
  destruct F2 as [(l2 & K2 & P2) Fr O2]. split.
  - exists l2. split; [done|]. by rewrite P2, Hperm, app_assoc.
  - rewrite Fr, F1. reflexivity.
  - intros a Ha. rewrite O2 by (intros q Hq; apply Ha; rewrite elem_of_app; by left). apply M1.
    intros q [Hq|Hq]; apply Ha; rewrite elem_of_app; [left; by apply Hnode|right].
    by apply list_elem_of_In, in_rev, list_elem_of_In in Hq.
Qed.

(** C20: [uvmfree] gives a whole address space back.  For a process whose [n]
    pages are mapped to distinct pages that are neither free nor tables, and
    that maps nothing else, it ends without panic; afterwards exactly these
    pages and the tables have joined the free list, each once, and memory
    outside them is unchanged. *)
Theorem uvmfree_spec root sz n s l :
  kmem_inv s l -> pt_ok (k_mem s) root l -> pt_shape (k_mem s) root ->
  (Z.of_nat n - 1) * PGSIZE < sz <= Z.of_nat n * PGSIZE -> Z.of_nat n * PGSIZE <= MAXVA ->
  leaves (k_mem s) root 0 n -> freeable (k_mem s) root l (upages (k_mem s) root 0 n) ->
  (forall va, Z.of_nat n * PGSIZE <= va < MAXVA -> has (xpte (k_mem s) root va) PTE_V = false) ->
  exists s' ts, uvmfree root sz s = Ret tt s' /\ (forall t, t ∈ ts <-> is_node (k_mem s) root t) /\
    NoDup (ts ++ upages (k_mem s) root 0 n ++ l) /\
    freed (ts ++ upages (k_mem s) root 0 n) (ts ++ upages (k_mem s) root 0 n) l s s'.
Proof using HL. apply uvmfree_run. Qed.
End free.

Section demo.
#[local] Existing Instance demo_linker.
#[local] Existing Instance demo_linker_ok.

(** A process with one page. *)
Lemma uvmfree_spec_witness : exists root s s' l l', kmem_inv s l /\ uvmfree root PGSIZE s = Ret tt s' /\
  kmem_inv s' l' /\ (length l < length l')%nat.
Proof.
  destruct demo_mapped as (s & root & q & l & Hk & Ho & X & Hn & Hq & Hl & Hlen & Hsh).
  destruct (page_bounds q Hq) as [Hb Ha].
  destruct (mkpte_spec q demo_perm Hb Ha) as (Hv & Hpa & Hfl & _); [vm_compute; split; [discriminate|reflexivity]|].
  assert (X0 : forall va, 0 <= va < PGSIZE -> xpte (k_mem s) root va = mkpte q demo_perm).
  { intros va Hva. rewrite X by (change MAXVA with (2 ^ 38); unfold PGSIZE in *; lia). apply decide_True. lia. }
  assert (Hup : upages (k_mem s) root 0 1 = [q]) by (simpl; rewrite X0, Hpa by (unfold PGSIZE; lia); reflexivity).
  destruct (uvmfree_spec root PGSIZE 1 s l) as (s' & ts & R & _ & _ & F).
  - exact Hk.
  - exact Ho.
  - exact Hsh.
  - unfold PGSIZE. simpl. lia.
  - vm_compute. discriminate.
  - intros va Hva. rewrite X0 by (unfold PGSIZE in *; lia). split; [exact Hv|]. rewrite Hfl. vm_compute. discriminate.
  - rewrite Hup. split; [apply NoDup_singleton|]. intros pa Hpa'. apply list_elem_of_singleton in Hpa' as ->. by split_and!.
  - intros va Hva. rewrite X by (unfold PGSIZE in *; lia). rewrite decide_False by (unfold PGSIZE in *; lia). reflexivity.
  - destruct (fr_kmem _ _ _ _ _ F) as (l' & K & P). exists root, s, s', l, l'. split; [exact Hk|]. split; [exact R|]. split; [exact K|].
    rewrite P, Hup, !length_app. simpl. lia.
Defined.
End demo.
