(* ===== verification/ForkVm.v ===== *)
(** * Copying an address space: [uvmcopy] of kernel/vm.c

    What [fork] does with memory.  The child's table ends up with a fresh page
    for every page of the parent, with the same permissions and the same
    bytes, and the parent is not touched; when memory runs out, everything
    mapped so far is given back. *)

From S2P Require Import Prelude Param Mem CString Kernel Spinlock Kalloc Sched Sleeplock Vm PageTable UserCopy.
Open Scope Z_scope.

Section copy.
Context `{L : Linker, HL : !LinkerOk}.
Context (old new : Z) (s0 : kst) (l0 : list Z).

Abbreviation m0 := (k_mem s0).

(** The physical page and the permissions of a parent's page. *)
Definition page_of (va : Z) : Z := PTE2PA (xpte m0 old va).
Definition perm_of (va : Z) : Z := PTE_FLAGS (xpte m0 old va).

Definition in_page (q a : Z) : Prop := q <= a < q + PGSIZE.

(** Parent and child at the start: two trees of tables that share no page;
    the first [n] pages of the parent are mapped leaves, backed by pages that
    are neither free nor tables of the child, and the child maps nothing there. *)
Record forkable (n : nat) : Prop := {
  fk_kmem : kmem_inv s0 l0;
  fk_new : pt_ok m0 new l0;
  fk_old : pt_ok m0 old l0;
  fk_apart t : is_node m0 old t -> ~ is_node m0 new t;
  fk_top : Z.of_nat n * PGSIZE <= MAXVA;
  fk_leaf : leaves m0 old 0 n;
  fk_page va : 0 <= va < Z.of_nat n * PGSIZE -> page_ok (page_of va) /\ (page_of va ∉ l0) /\ ~ is_node m0 new (page_of va);
  fk_empty va : 0 <= va < Z.of_nat n * PGSIZE -> has (xpte m0 new va) PTE_V = false
}.

(** After [j] pages: the child has the pages [ps], of which the first [j] are
    mapped and at most one more is filled; the free pages are [l]. *)
Record copying (j : nat) (ps l : list Z) (s : kst) : Prop := {
  cp_kmem : kmem_inv s l;
  cp_ok : pt_ok (k_mem s) new l;
  cp_frame : norm s = set_mem (k_mem s) (set_freelist (k_freelist s) (norm s0));
  cp_used q : q ∈ l0 -> q ∈ l \/ is_node (k_mem s) new q \/ q ∈ ps;
  cp_sub q : q ∈ l -> q ∈ l0;
  cp_nodes t : is_node (k_mem s) new t -> is_node m0 new t \/ t ∈ l0;
  cp_out a : (forall q, is_node m0 new q \/ q ∈ l0 -> a < q \/ q + PGSIZE <= a) -> ld8 (k_mem s) a = ld8 m0 a;
  cp_len : (j <= length ps <= S j)%nat;
  cp_nodup : NoDup ps;
  cp_pages q : q ∈ ps -> q ∈ l0 /\ (q ∉ l) /\ (~ is_node (k_mem s) new q);
  cp_map va : 0 <= va < MAXVA -> xpte (k_mem s) new va =
    if decide (va < Z.of_nat j * PGSIZE)
    then mkpte (default 0 (ps !! Z.to_nat (va / PGSIZE))) (perm_of va) else xpte m0 new va;
  cp_data i q o : ps !! i = Some q -> 0 <= o < PGSIZE ->
    ld8 (k_mem s) (q + o) = ld8 m0 (page_of (Z.of_nat i * PGSIZE) + o);
  cp_shape : pt_shape m0 new -> pt_shape (k_mem s) new;
  cp_mono t : is_node m0 new t -> is_node (k_mem s) new t
}.

Context (n : nat).
Hypothesis F : forkable n.

Lemma free_page_ok q : q ∈ l0 -> page_ok q.
Proof using All. intros Hq. pose proof (ki_pages _ _ (fk_kmem _ F)) as Hps. rewrite Forall_forall in Hps. by apply Hps. Qed.

Lemma new_page_ok t : is_node m0 new t -> page_ok t.
Proof using All. intros (p & Hp & Ht). exact (po_page _ _ _ (fk_new _ F) p t Hp Ht). Qed.

(** A page that is neither free nor a table of the child does not change. *)
Lemma page_outside q a : page_ok q -> q ∉ l0 -> ~ is_node m0 new q -> in_page q a ->
  forall u, is_node m0 new u \/ u ∈ l0 -> a < u \/ u + PGSIZE <= a.
Proof using All.
  intros Hq Hl Hn Ha u Hu.
  assert (page_ok u /\ u <> q) as [Hup Hne].
  { destruct Hu as [Hu|Hu]; split; [by apply new_page_ok|by intros ->|by apply free_page_ok|by intros ->]. }
  unfold in_page in Ha. destruct (page_disjoint u q Hup Hq Hne); lia.
Qed.

Lemma kept_page j ps l s q a :
  copying j ps l s -> page_ok q -> q ∉ l0 -> ~ is_node m0 new q -> in_page q a -> ld8 (k_mem s) a = ld8 m0 a.
Proof using All. intros C Hq Hl Hn Ha. apply (cp_out _ _ _ _ C). by apply (page_outside q). Qed.

(** So the parent's tables are what they were. *)
Lemma old_xpte j ps l s va : copying j ps l s -> xpte (k_mem s) old va = xpte m0 old va /\
  node (k_mem s) old (vpath va) = node m0 old (vpath va).
Proof using All.
  intros C. assert (He : forall u i, is_node m0 old u -> idx i -> ent (k_mem s) u i = ent m0 u i).
  { intros u i Hu Hi. apply ld_ext. intros b Hb. destruct Hu as (p & Hp & Hu).
    apply (kept_page j ps l s u); [done|exact (po_page _ _ _ (fk_old _ F) p u Hp Hu)|exact (po_free _ _ _ (fk_old _ F) p u Hp Hu)| |].
    - apply (fk_apart _ F). by exists p.
    - unfold in_page, PGSIZE, idx in *. lia. }
  split; [by apply xpte_ext|apply node_ext; [done|apply path_vpath]].
Qed.

Lemma copying_start : copying 0 [] l0 s0.
Proof using All.
  split; [apply F|apply F|reflexivity|by left|done|by left|done|simpl; lia|constructor| | |done|done|done].
  - intros q Hq. by apply elem_of_nil in Hq.
  - intros va Hva. by rewrite decide_False by (simpl; lia).
Qed.

(** The tables of the child do not notice a change of a page that is none of them. *)
Lemma tables_outside q s m' l :
  pt_ok (k_mem s) new l -> page_ok q -> ~ is_node (k_mem s) new q -> same_outside q (k_mem s) m' ->
  (forall p, path p -> node m' new p = node (k_mem s) new p) /\ (forall va, xpte m' new va = xpte (k_mem s) new va) /\
  (pt_shape (k_mem s) new -> pt_shape m' new).
Proof using.
  intros Ho Hq Hn Hs. assert (He : forall u j, is_node (k_mem s) new u -> idx j -> ent m' u j = ent (k_mem s) u j).
  { intros u j Hu Hj. apply (same_outside_ent q); try done; [|by intros ->].
    destruct Hu as (p & Hp & Hu). exact (po_page _ _ _ Ho p u Hp Hu). }
  split_and!; intros; [by apply node_ext|by apply xpte_ext|by apply (shape_ext (k_mem s))].
Qed.

Lemma pt_ok_nodes m m' l l' :
  (forall p, path p -> node m' new p = node m new p) -> (forall t, is_node m new t -> t ∉ l') -> pt_ok m new l -> pt_ok m' new l'.
Proof using.
  intros Hn Hl [O1 O2 O3]. split; intros *.
  - intros Hp. rewrite Hn by done. by apply O1.
  - intros Hp Ht. rewrite Hn in Ht by done. apply Hl. by exists p.
  - intros Hp Hq. rewrite !Hn by done. by apply O3.
Qed.

(** A page is taken from the free list and filled with the parent's. *)
Lemma copying_fill j ps q l s s2 :
  copying j ps (q :: l) s -> length ps = j -> kmem_inv s2 l ->
  norm s2 = set_mem (k_mem s2) (set_freelist (k_freelist s2) (norm s)) -> same_outside q (k_mem s) (k_mem s2) ->
  (forall o, 0 <= o < PGSIZE -> ld8 (k_mem s2) (q + o) = ld8 m0 (page_of (Z.of_nat j * PGSIZE) + o)) ->
  copying j (ps ++ [q]) l s2.
Proof using All.
  intros C Hlen Hk Hf Hso Hd. destruct C as [K O Fr U Sb N Out Ln Nd Pg Mp Dt Sh Mo].
  assert (Hq0 : q ∈ l0) by (apply Sb; left). pose proof (free_page_ok q Hq0) as Hqp.
  pose proof (ki_nodup _ _ K) as Hnd. apply NoDup_cons in Hnd as [Hql _].
  assert (Hnq : ~ is_node (k_mem s) new q).
  { intros (p & Hp & Ht). apply (po_free _ _ _ O p q Hp Ht). left. }
  destruct (tables_outside q s (k_mem s2) _ O Hqp Hnq Hso) as (Hn & Hx & Hsh).
  assert (Hqps : q ∉ ps) by (intros Hin; destruct (Pg q Hin) as (_ & Hno & _); apply Hno; left).
  split; [done| | | | | | | | | | | |auto|].
  - eapply pt_ok_nodes; [exact Hn| |exact O]. intros t (p & Hp & Ht) Hin. apply (po_free _ _ _ O p t Hp Ht). by right.
  - rewrite Hf, Fr. reflexivity.
  - intros q' Hq'. rewrite (is_node_ext _ _ _ _ Hn), elem_of_app, list_elem_of_singleton.
    destruct (U q' Hq') as [Hu|Hu]; [|tauto]. apply elem_of_cons in Hu as [->|Hu]; tauto.
  - intros q' Hq'. apply Sb. by right.
  - intros t. rewrite (is_node_ext _ _ _ _ Hn). apply N.
  - intros a Ha. rewrite Hso; [by apply Out|]. apply Ha. by right.
  - rewrite length_app. simpl. lia.
  - apply NoDup_app. split_and!; [done| |repeat constructor; set_solver].
    intros u Hu Hin. apply list_elem_of_singleton in Hin as ->. done.
  - intros q' Hq'. rewrite (is_node_ext _ _ _ _ Hn). apply elem_of_app in Hq' as [Hq'|Hq'].
    + destruct (Pg q' Hq') as (P1 & P2 & P3). split_and!; [done| |done]. intros Hin. apply P2. by right.
    + apply list_elem_of_singleton in Hq' as ->. done.
  - intros va Hva. rewrite Hx, Mp by done. case_decide as E; [|done]. rewrite lookup_app_l; [done|].
    rewrite Hlen. unfold PGSIZE in *. zlia.
  - intros i q' o Hi Ho. destruct (decide (i < length ps)%nat) as [Hlt|Hge].
    + rewrite lookup_app_l in Hi by done. rewrite <- (Dt i q' o Hi Ho). apply Hso.
      assert (Hin : q' ∈ ps) by (by eapply list_elem_of_lookup_2). destruct (Pg q' Hin) as (P1 & _).
      assert (q' <> q) by (by intros ->). destruct (page_disjoint q' q (free_page_ok q' P1) Hqp); [done|lia|lia].
    + rewrite lookup_app_r in Hi by lia. destruct (i - length ps)%nat as [|x] eqn:Ex; [|by destruct x].
      injection Hi as <-. assert (i = j) as -> by lia. by apply Hd.
  - intros t Ht. rewrite (is_node_ext _ _ _ _ Hn). auto.
Qed.

(** The permissions of a mapped page contain the valid bit. *)
Lemma perm_valid va : 0 <= va < Z.of_nat n * PGSIZE ->
  0 <= perm_of va < 1024 /\ Z.lor (perm_of va) PTE_V = perm_of va /\ perm_of va <> PTE_V.
Proof using All.
  intros Hva. destruct (fk_leaf _ F va) as [Hv Hf]; [lia|]. unfold perm_of in *. rewrite PTE_FLAGS_eq in *.
  split; [apply Z.mod_pos_bound; lia|]. split; [|done]. rewrite has_V in Hv.
  apply Z.bits_inj'. intros k Hk. rewrite Z.lor_spec. change PTE_V with 1. destruct (decide (k = 0)) as [->|Hk0].
  - change 1024 with (2 ^ 10). rewrite Z.mod_pow2_bits_low by lia. rewrite Z.bit0_odd, Hv. done.
  - replace (Z.testbit 1 k) with false; [apply orb_false_r|]. symmetry. apply (Z.bits_above_log2 1 k); simpl; lia.
Qed.

Lemma page_range q : page_ok q -> 0 <= q < 2 ^ 56 /\ q mod PGSIZE = 0 /\ q + PGSIZE + PGSIZE <= 2 ^ 56.
Proof using All.
  intros Hq. destruct (page_bounds q Hq) as [H1 H2]. destruct Hq as [_ [_ Hq]]. split_and!; [lia|lia|done|].
  assert (PHYSTOP + PGSIZE + PGSIZE <= 2 ^ 56) by (vm_compute; discriminate). lia.
Qed.

(** The page is mapped, or there is no memory for the tables. *)
Lemma copying_map j ps q l s :
  copying j (ps ++ [q]) l s -> length ps = j -> (j < n)%nat ->
  exists r l' s', mappages new (Z.of_nat j * PGSIZE) PGSIZE q (perm_of (Z.of_nat j * PGSIZE)) s = Ret r s' /\
    (length l <= length l' + 2)%nat /\
    (r = 0 /\ copying (S j) (ps ++ [q]) l' s' \/ r = -1 /\ l' = [] /\ copying j (ps ++ [q]) l' s').
Proof using All.
  intros C Hlen Hj. pose proof C as [K O Fr U Sb N Out Ln Nd Pg Mp Dt Sh Mo]. set (a := Z.of_nat j * PGSIZE).
  assert (HM : MAXVA = 2 ^ 38) by reflexivity. pose proof (fk_top _ F) as Htop.
  assert (Hps : PGSIZE = 4096) by reflexivity.
  assert (Ha : 0 <= a /\ a + PGSIZE <= Z.of_nat n * PGSIZE /\ a mod PGSIZE = 0) by (unfold a; rewrite Hps; zlia).
  assert (Hqin : q ∈ ps ++ [q]) by (apply elem_of_app; right; left). destruct (Pg q Hqin) as (Q1 & Q2 & Q3).
  destruct (page_range q (free_page_ok q Q1)) as (B1 & B2 & B3).
  destruct (perm_valid a) as (R1 & _ & _); [lia|].
  assert (Hdn : PGROUNDDOWN a = a) by (rewrite PGROUNDDOWN_eq by lia; lia).
  assert (Hup : PGROUNDUP (a + PGSIZE) = a + PGSIZE) by (rewrite PGROUNDUP_eq by lia; rewrite Hps in *; zlia).
  destruct (mappages_run new a PGSIZE q (perm_of a) s l) as (r & e & l' & s' & R & P & X & Hc & Hr); try done; try lia.
  { intros x Hx. rewrite Hdn in Hx. rewrite Mp by lia. rewrite decide_False by (fold a; lia). apply (fk_empty _ F). lia. }
  rewrite Hdn, Hup in *. replace (a + PGSIZE - a) with PGSIZE in Hc by lia. change (PGSIZE / PGSIZE) with 1 in Hc.
  exists r, l', s'. split; [done|]. split; [lia|]. destruct P as [K' O' Fr' (us & Eu & Tu) G' N' Out' Sh'].
  assert (Base : forall j', (j' <= length (ps ++ [q]) <= S j')%nat ->
    (forall va, 0 <= va < MAXVA -> xpte (k_mem s') new va =
      if decide (va < Z.of_nat j' * PGSIZE)
      then mkpte (default 0 ((ps ++ [q]) !! Z.to_nat (va / PGSIZE))) (perm_of va) else xpte m0 new va) ->
    copying j' (ps ++ [q]) l' s').
  { intros j' Hj' HX. split; try done.
    - rewrite Fr', Fr. reflexivity.
    - intros u Hu. destruct (U u Hu) as [H1|[H1|H1]]; [|right; left; by apply G'|tauto].
      rewrite Eu in H1. apply elem_of_app in H1 as [H1|H1]; [|by left]. right. left. rewrite Forall_forall in Tu. by apply Tu.
    - intros u Hu. apply Sb. rewrite Eu. apply elem_of_app. by right.
    - intros u Hu. destruct (N' u Hu) as [H1|H1]; [by apply N|right; by apply Sb].
    - intros b Hb. rewrite Out'; [by apply Out|]. intros u [Hu|Hu]; apply Hb; [by apply N|right; by apply Sb].
    - intros u Hu. destruct (Pg u Hu) as (P1 & P2 & P3). split_and!; [done| |].
      + intros Hin. apply P2. rewrite Eu. apply elem_of_app. by right.
      + intros Hn. destruct (N' u Hn); tauto.
    - intros i u o Hi Ho. rewrite <- (Dt i u o Hi Ho). apply Out'. intros v Hv.
      assert (Hu : u ∈ ps ++ [q]) by (by eapply list_elem_of_lookup_2). destruct (Pg u Hu) as (P1 & P2 & P3).
      assert (Hvp : page_ok v).
      { destruct Hv as [Hv|Hv]; [destruct (N v Hv); [by apply new_page_ok|by apply free_page_ok]|by apply free_page_ok, Sb]. }
      assert (v <> u) by (intros ->; tauto). destruct (page_disjoint v u Hvp (free_page_ok u P1)); [done|lia|lia].
    - auto.
    - auto. }
  destruct Hr as [[-> ->]|(-> & -> & He & He')]; [left; split; [done|]|right; split; [done|]; split; [done|]]; apply Base.
  - rewrite length_app. simpl. lia.
  - intros va Hva. rewrite X by done. unfold mapped. rewrite Mp by done. fold a.
    rewrite Hps in *. repeat case_decide; try lia; try done.
    f_equal; [|unfold perm_of; f_equal; unfold xpte, vpath].
    + rewrite lookup_app_r by (rewrite Hlen; zlia). rewrite Hlen.
      replace (Z.to_nat (va / 4096) - j)%nat with 0%nat by (unfold a in *; zlia). simpl.
      rewrite PGROUNDDOWN_eq by lia. rewrite Hps. unfold a in *. zlia.
    + assert (Hpg : a / PGSIZE = va / PGSIZE) by (rewrite Hps; zlia). by rewrite !(PX_page _ a), !(PX_page _ va), Hpg by lia.
  - done.
  - intros va Hva. rewrite X by done. unfold mapped. rewrite Mp by done. rewrite decide_False; [done|].
    rewrite Hps in *. zlia.
Qed.

(** The page that could not be mapped is given back. *)
Lemma copying_unfill j ps q l s :
  copying j (ps ++ [q]) l s -> length ps = j ->
  exists s', kfree q s = Ret tt s' /\ copying j ps (q :: l) s'.
Proof using All.
  intros C Hlen. destruct C as [K O Fr U Sb N Out Ln Nd Pg Mp Dt Sh Mo].
  assert (Hqin : q ∈ ps ++ [q]) by (apply elem_of_app; right; left). destruct (Pg q Hqin) as (Q1 & Q2 & Q3).
  pose proof (free_page_ok q Q1) as Hqp. destruct (kfree_inv s q l K Hqp Q2) as (s' & R & Hk & Hst & Hso).
  destruct (tables_outside q s (k_mem s') _ O Hqp Q3 Hso) as (Hn & Hx & Hsh).
  apply NoDup_app in Nd as (Nd & Nq & _).
  exists s'. split; [done|]. split; [done| | | | | | |lia|done| | | |auto|].
  - eapply pt_ok_nodes; [exact Hn| |exact O]. intros t (p & Hp & Ht) Hin. apply elem_of_cons in Hin as [->|Hin].
    + apply Q3. by exists p.
    + by apply (po_free _ _ _ O p t Hp Ht).
  - rewrite Hst. change (norm (set_mem (k_mem s') (set_freelist (k_freelist s') (norm s)))) with
      (set_mem (k_mem s') (set_freelist (k_freelist s') (norm (norm s)))). rewrite norm_norm by apply K. rewrite Fr. reflexivity.
  - intros u Hu. rewrite (is_node_ext _ _ _ _ Hn), elem_of_cons. destruct (U u Hu) as [H1|[H1|H1]]; [tauto|tauto|].
    rewrite elem_of_app, list_elem_of_singleton in H1. tauto.
  - intros u Hu. apply elem_of_cons in Hu as [->|Hu]; auto.
  - intros t. rewrite (is_node_ext _ _ _ _ Hn). apply N.
  - intros a Ha. rewrite Hso; [by apply Out|]. apply Ha. by right.
  - intros u Hu. rewrite (is_node_ext _ _ _ _ Hn). destruct (Pg u) as (P1 & P2 & P3); [apply elem_of_app; by left|].
    split_and!; [done| |done]. apply not_elem_of_cons. split; [|done]. intros ->. apply (Nq q); [done|left].
  - intros va Hva. rewrite Hx, Mp by done. case_decide as E; [|done]. rewrite lookup_app_l; [done|].
    rewrite Hlen. unfold PGSIZE in *. zlia.
  - intros i u o Hi Ho. rewrite <- (Dt i u o (lookup_app_l_Some _ _ _ _ Hi) Ho). apply Hso.
    assert (Hu : u ∈ ps) by (by eapply list_elem_of_lookup_2). destruct (Pg u) as (P1 & _); [apply elem_of_app; by left|].
    assert (u <> q) by (intros ->; apply (Nq q); [done|left]).
    destruct (page_disjoint u q (free_page_ok u P1) Hqp); [done|lia|lia].
  - intros t Ht. rewrite (is_node_ext _ _ _ _ Hn). auto.
Qed.

(** The child's pages, once they are mapped. *)
Lemma copied_pages j ps l s : copying j ps l s -> length ps = j -> (j <= n)%nat ->
  upages (k_mem s) new 0 j = ps /\ leaves (k_mem s) new 0 j /\
  forall va, 0 <= va < Z.of_nat j * PGSIZE -> exists q, ps !! Z.to_nat (va / PGSIZE) = Some q /\
    PTE2PA (xpte (k_mem s) new va) = q /\ PTE_FLAGS (xpte (k_mem s) new va) = perm_of va /\ has (xpte (k_mem s) new va) PTE_V = true.
Proof using All.
  intros C Hlen Hj. pose proof (fk_top _ F) as Htop. assert (Hps : PGSIZE = 4096) by reflexivity.
  assert (E : forall va, 0 <= va < Z.of_nat j * PGSIZE -> exists q, ps !! Z.to_nat (va / PGSIZE) = Some q /\
    PTE2PA (xpte (k_mem s) new va) = q /\ PTE_FLAGS (xpte (k_mem s) new va) = perm_of va /\ has (xpte (k_mem s) new va) PTE_V = true).
  { intros va Hva. destruct (lookup_lt_is_Some_2 ps (Z.to_nat (va / PGSIZE))) as [q Hq]; [rewrite Hps in *; zlia|].
    exists q. assert (Hva' : 0 <= va < Z.of_nat n * PGSIZE) by (rewrite Hps in *; lia).
    rewrite (cp_map _ _ _ _ C), decide_True, Hq by (rewrite Hps in *; lia). simpl.
    destruct (perm_valid va Hva') as (R1 & R2 & _).
    destruct (cp_pages _ _ _ _ C q) as (Q1 & _); [by eapply list_elem_of_lookup_2|].
    destruct (page_range q (free_page_ok q Q1)) as (B1 & B2 & _).
    destruct (mkpte_spec q (perm_of va) B1 B2 R1) as (M1 & M2 & M3 & _). rewrite M3, R2. done. }
  split_and!; [| |exact E].
  - apply list_eq. intros i. destruct (decide (i < j)%nat) as [Hi|Hi].
    + rewrite upages_lookup by done. rewrite Z.add_0_l. destruct (E (Z.of_nat i * PGSIZE)) as (q & Hq & <- & _); [rewrite Hps; lia|].
      rewrite Z.div_mul, Nat2Z.id in Hq by done. by rewrite Hq.
    + rewrite !lookup_ge_None_2; [done|lia|rewrite length_upages; lia].
  - intros va Hva. destruct (E va) as (q & _ & _ & Ef & Ev); [lia|]. split; [done|]. rewrite Ef.
    apply perm_valid. rewrite Hps in *. lia.
Qed.

(** How a call that could not copy everything ends. *)
Record undone (s : kst) : Prop := {
  un_free : exists l, kmem_inv s l /\ pt_ok (k_mem s) new l /\ (forall q, q ∈ l -> q ∈ l0) /\
    forall q, q ∈ l0 -> q ∈ l \/ is_node (k_mem s) new q;
  un_frame : norm s = set_mem (k_mem s) (set_freelist (k_freelist s) (norm s0));
  un_map va : 0 <= va < MAXVA -> has (xpte (k_mem s) new va) PTE_V = has (xpte m0 new va) PTE_V;
  un_out a : (forall q, is_node m0 new q \/ q ∈ l0 -> a < q \/ q + PGSIZE <= a) -> ld8 (k_mem s) a = ld8 m0 a;
  un_rest va : Z.of_nat n * PGSIZE <= va < MAXVA -> xpte (k_mem s) new va = xpte m0 new va;
  un_nodes t : is_node (k_mem s) new t -> is_node m0 new t \/ t ∈ l0;
  un_mono t : is_node m0 new t -> is_node (k_mem s) new t;
  un_shape : pt_shape m0 new -> pt_shape (k_mem s) new
}.

Lemma uvmcopy_err_run j ps l s : copying j ps l s -> length ps = j -> (j <= n)%nat ->
  exists s', uvmcopy_err new (Z.of_nat j * PGSIZE) s = Ret (-1) s' /\ undone s'.
Proof using All.
  intros C Hlen Hj. destruct (copied_pages _ _ _ _ C Hlen Hj) as (Eu & Hlv & _).
  pose proof C as [K O Fr U Sb N Out Ln Nd Pg Mp Dt Sh Mo]. pose proof (fk_top _ F) as Htop.
  unfold uvmcopy_err. rewrite Z.div_mul by done.
  destruct (uvmunmap_run new 0 (Z.of_nat j) true s l K O) as (s' & R & [K' O' Fr' N' Out' Sh'] & X);
    rewrite ?Nat2Z.id in *; try done; try (unfold PGSIZE in *; lia).
  { intros _. rewrite Eu. split; [done|]. intros q Hq. destruct (Pg q Hq) as (P1 & P2 & P3). split_and!; [by apply free_page_ok|done|done]. }
  rewrite Eu in *. krun R. exists s'. split; [done|]. split.
  - exists (rev ps ++ l). split_and!; [done|done| |].
    + intros q Hq. apply elem_of_app in Hq as [Hq|Hq]; [|by apply Sb]. apply Pg. by apply list_elem_of_In, in_rev, list_elem_of_In in Hq.
    + intros q Hq. rewrite (is_node_ext _ _ _ _ N'), elem_of_app. destruct (U q Hq) as [H1|[H1|H1]]; [tauto|tauto|].
      left. left. by apply list_elem_of_In, in_rev, list_elem_of_In in H1.
  - rewrite Fr', Fr. reflexivity.
  - intros va Hva. rewrite X by done. case_decide as E; [|rewrite Mp by done; by rewrite decide_False by lia].
    symmetry. apply (fk_empty _ F). unfold PGSIZE in *. lia.
  - intros a Ha. rewrite Out'; [by apply Out|]. intros q [Hq|Hq]; apply Ha; [by apply N|right].
    apply Pg. by apply list_elem_of_In, in_rev, list_elem_of_In in Hq.
  - intros va Hva. assert (0 <= va) by (unfold PGSIZE in *; lia). rewrite X, Mp by lia.
    rewrite !decide_False; [done|unfold PGSIZE in *; lia|unfold PGSIZE in *; lia].
  - intros t. rewrite (is_node_ext _ _ _ _ N'). apply N.
  - intros t Ht. rewrite (is_node_ext _ _ _ _ N'). auto.
  - auto.
Qed.

(** One page: [kalloc] and [memmove]. *)
Lemma copy_page j ps q l s : copying j ps (q :: l) s -> length ps = j -> (j < n)%nat ->
  exists s1, kalloc s = Ret q s1 /\
    copying j (ps ++ [q]) l (set_mem (memmove (k_mem s1) q (page_of (Z.of_nat j * PGSIZE)) PGSIZE) s1).
Proof using All.
  intros C Hlen Hj. destruct (kalloc_inv s q l (cp_kmem _ _ _ _ C)) as (s1 & R & Hk & Hst & Hso & _).
  exists s1. split; [done|]. set (a := Z.of_nat j * PGSIZE). set (m := memmove (k_mem s1) q (page_of a) PGSIZE).
  assert (Hva : 0 <= a < Z.of_nat n * PGSIZE) by (unfold a, PGSIZE; lia).
  destruct (fk_page _ F a Hva) as (P1 & P2 & P3).
  assert (Hq0 : q ∈ l0) by (apply (cp_sub _ _ _ _ C); left). pose proof (free_page_ok q Hq0) as Hqp.
  assert (Hne : page_of a <> q) by (intros E; by rewrite E in P2).
  pose proof (ki_nodup _ _ (cp_kmem _ _ _ _ C)) as Hnd. apply NoDup_cons in Hnd as [Hql _].
  assert (Hmm : forall b, ld8 m b = if (q <=? b) && (b <? q + PGSIZE) then ld8 (k_mem s1) (page_of a + (b - q)) else ld8 (k_mem s1) b).
  { intros b. apply ld8_memmove; [apply Hk|unfold PGSIZE; lia]. }
  assert (Hso2 : same_outside q (k_mem s1) m).
  { intros b Hb. rewrite Hmm. destruct (Z.leb_spec q b), (Z.ltb_spec b (q + PGSIZE)); try done. lia. }
  apply (copying_fill j ps q l s); try done.
  - apply kmem_inv_mem; [done|apply memmove_ok, Hk|]. intros u Hu. apply ld_ext. intros b Hb. apply Hso2.
    assert (u <> q) by (by intros ->).
    destruct (page_disjoint u q) as [Hd|Hd]; [by apply free_page_ok, (cp_sub _ _ _ _ C); right|done|done| |]; unfold PGSIZE in *; simpl in Hb; lia.
  - simpl. rewrite Hst. change (norm (set_mem m (set_mem (k_mem s1) (set_freelist (k_freelist s1) (norm s))))) with
      (set_mem m (set_freelist (k_freelist s1) (norm (norm s)))). rewrite norm_norm by apply C. reflexivity.
  - intros b Hb. simpl. by rewrite Hso2, Hso.
  - intros o Ho. simpl. rewrite Hmm. destruct (Z.leb_spec q (q + o)), (Z.ltb_spec (q + o) (q + PGSIZE)); try lia. simpl.
    replace (q + o - q) with o by lia. fold a. rewrite Hso.
    + apply (kept_page j ps (q :: l) s (page_of a)); try done. unfold in_page. lia.
    + destruct (page_disjoint (page_of a) q P1 Hqp Hne); lia.
Qed.

Context (sz : Z).
Hypothesis Hsz : (Z.of_nat n - 1) * PGSIZE < sz <= Z.of_nat n * PGSIZE.

Lemma uvmcopy_loop_run fuel : forall j ps l s,
  copying j ps l s -> length ps = j -> (j <= n)%nat -> (n - j < fuel)%nat ->
  (length l0 <= length l + 3 * j)%nat ->
  exists r s', uvmcopy_loop fuel old new (Z.of_nat j * PGSIZE) sz s = Ret r s' /\
    (r = 0 /\ (exists ps' l', copying n ps' l' s' /\ length ps' = n) \/
     r = -1 /\ undone s' /\ (length l0 <= 3 * n)%nat).
Proof using All.
  induction fuel as [|fuel IH]; intros j ps l s C Hlen Hj Hf Hc; [lia|]. cbn [uvmcopy_loop].
  pose proof (fk_top _ F) as Htop. change MAXVA with (2 ^ 38) in Htop. assert (Hps : PGSIZE = 4096) by reflexivity.
  destruct (Z.ltb_spec (Z.of_nat j * PGSIZE) sz) as [Hlt|Hge].
  2: { assert (j = n) as -> by (rewrite Hps in *; lia). exists 0, s. split; [done|]. left. split; [done|]. by exists ps, l. }
  assert (Hjn : (j < n)%nat) by (rewrite Hps in *; lia). set (a := Z.of_nat j * PGSIZE) in *.
  assert (Hva : 0 <= a < Z.of_nat n * PGSIZE) by (unfold a; rewrite Hps; lia).
  destruct (fk_leaf _ F a) as [Hv _]; [lia|]. destruct (old_xpte _ _ _ _ a C) as [Ex En].
  destruct (node m0 old (vpath a)) as [t|] eqn:Ht; [|unfold xpte in Hv; by rewrite Ht in Hv].
  assert (Ham : a < MAXVA) by (change MAXVA with (2 ^ 38); lia).
  assert (Hleaf : leaf_addr (k_mem s) old a <> 0).
  { rewrite (leaf_addr_node _ _ _ _ En). pose proof (page_pos t (po_page _ _ _ (fk_old _ F) _ _ (path_vpath a) Ht)).
    pose proof (PX_range 0 a). lia. }
  krun (walk_run old a s Ham). rewrite (proj2 (Z.eqb_neq _ _)) by done.
  unfold load64. rewrite kbind_gets, (load_leaf _ _ _ _ En), Ex, Hv. cbn [negb].
  change (PTE2PA (xpte m0 old a)) with (page_of a). change (PTE_FLAGS (xpte m0 old a)) with (perm_of a).
  destruct l as [|q l].
  - destruct (kalloc_inv_empty s (cp_kmem _ _ _ _ C)) as [R Hk]. krun R. cbn [Z.eqb].
    assert (C' : copying j ps [] (norm s)).
    { destruct C as [K O Fr U Sb N Out Ln Nd Pg Mp Dt Sh Mo]. split; try done. rewrite norm_norm by apply K. exact Fr. }
    destruct (uvmcopy_err_run j ps [] (norm s) C' Hlen Hj) as (s' & R' & Un). exists (-1), s'. split; [exact R'|].
    right. simpl in Hc. split_and!; [done|done|lia].
  - destruct (copy_page j ps q l s C Hlen Hjn) as (s1 & R & C1). krun R.
    assert (Hq0 : q ∈ l0) by (apply (cp_sub _ _ _ _ C); left). pose proof (page_pos q (free_page_ok q Hq0)).
    destruct (Z.eqb_spec q 0); [lia|]. unfold modify_mem. rewrite kbind_modify.
    destruct (copying_map j ps q l _ C1 Hlen Hjn) as (r & l' & s' & R2 & Hl & Hr). fold a in R2, C1 |- *. krun R2.
    destruct Hr as [[-> C2]|(-> & -> & C2)]; cbn [Z.eqb negb].
    + rewrite u64_small by (unfold a; rewrite Hps in *; lia).
      destruct (IH (S j) (ps ++ [q]) l' s' C2) as (r & s2 & R3 & Hr); [rewrite length_app; simpl; lia|lia|lia|simpl in Hc; lia|].
      exists r, s2. split; [|exact Hr]. rewrite <- R3. f_equal. unfold a. rewrite Hps. lia.
    + destruct (copying_unfill j ps q [] s' C2 Hlen) as (s2 & R3 & C3). krun R3.
      destruct (uvmcopy_err_run j ps [q] s2 C3 Hlen Hj) as (s3 & R' & Un). exists (-1), s3. split; [exact R'|].
      right. simpl in Hc, Hl. split_and!; [done|done|lia].
Qed.

(** Byte [va] of the child. *)
Definition child_byte (m : memory) (va : Z) : Z := ld8 m (PTE2PA (xpte m new va) + va mod PGSIZE).

(** Everything was copied and the pages [l] are still free. *)
Record copied (m : memory) (l : list Z) : Prop := {
  co_ok : pt_ok m new l;
  co_left q : q ∈ l -> q ∈ l0;
  co_nodes t : is_node m new t -> is_node m0 new t \/ t ∈ l0;
  co_own va : 0 <= va < Z.of_nat n * PGSIZE -> PTE2PA (xpte m new va) ∈ l0 /\ PTE2PA (xpte m new va) ∉ l;
  co_flags va : 0 <= va < Z.of_nat n * PGSIZE -> PTE_FLAGS (xpte m new va) = perm_of va;
  co_bytes va : 0 <= va < Z.of_nat n * PGSIZE -> child_byte m va = ld8 m0 (page_of va + va mod PGSIZE);
  co_inj va va' : 0 <= va < Z.of_nat n * PGSIZE -> 0 <= va' < Z.of_nat n * PGSIZE ->
    PTE2PA (xpte m new va) = PTE2PA (xpte m new va') -> va / PGSIZE = va' / PGSIZE;
  co_rest va : Z.of_nat n * PGSIZE <= va < MAXVA -> xpte m new va = xpte m0 new va
}.

Lemma uvmcopy_run :
  exists r s', uvmcopy old new sz s0 = Ret r s' /\
    norm s' = set_mem (k_mem s') (set_freelist (k_freelist s') (norm s0)) /\
    (forall q a, page_ok q -> (q ∉ l0) -> ~ is_node m0 new q -> in_page q a -> ld8 (k_mem s') a = ld8 m0 a) /\
    (forall va, xpte (k_mem s') old va = xpte m0 old va) /\
    (r = 0 /\ (exists l, kmem_inv s' l /\ copied (k_mem s') l) \/
     r = -1 /\ undone s' /\ (length l0 <= 3 * n)%nat).
Proof using All.
  assert (Hps : PGSIZE = 4096) by reflexivity. pose proof (fk_top _ F) as Htop.
  destruct (uvmcopy_loop_run (S (S (Z.to_nat (sz / PGSIZE)))) 0 [] l0 s0) as (r & s' & R & Hr);
    [apply copying_start|done|lia|rewrite Hps in *; zlia|lia|].
  exists r, s'. split; [exact R|].
  destruct Hr as [(-> & ps & l & C & Hlen)|(-> & Un & Hc)].
  - split; [apply C|]. split; [intros q a; by apply (kept_page n ps l s')|].
    split; [intros va; apply (old_xpte _ _ _ _ va C)|]. left. split; [done|].
    destruct (copied_pages _ _ _ _ C Hlen ltac:(lia)) as (_ & _ & E).
    exists l. split; [apply C|]. split; [apply C|apply C|apply C| | | | |].
    + intros va Hva. destruct (E va Hva) as (q & Hq & -> & _).
      destruct (cp_pages _ _ _ _ C q) as (P1 & P2 & _); [by eapply list_elem_of_lookup_2|done].
    + intros va Hva. by destruct (E va Hva) as (q & Hq & Ep & Ef & _).
    + intros va Hva. destruct (E va Hva) as (q & Hq & Ep & _). unfold child_byte. rewrite Ep.
      rewrite (cp_data _ _ _ _ C _ _ _ Hq) by (rewrite Hps; zlia). f_equal. f_equal. unfold page_of. f_equal.
      assert (Hpg : Z.of_nat (Z.to_nat (va / PGSIZE)) * PGSIZE / PGSIZE = va / PGSIZE) by (rewrite Hps; zlia).
      unfold xpte, vpath. by rewrite !PX_page, Hpg by lia.
    + intros va va' Hva Hva' Heq. destruct (E va Hva) as (q & Hq & Ep & _), (E va' Hva') as (q' & Hq' & Ep' & _).
      rewrite Ep, Ep' in Heq. subst q'. pose proof (NoDup_lookup _ _ _ _ (cp_nodup _ _ _ _ C) Hq Hq'). rewrite Hps in *. zlia.
    + intros va Hva. rewrite (cp_map _ _ _ _ C) by (rewrite Hps in *; lia). by rewrite decide_False by lia.
  - split; [apply Un|]. assert (Hkeep : forall q a, page_ok q -> (q ∉ l0) -> ~ is_node m0 new q -> in_page q a -> ld8 (k_mem s') a = ld8 m0 a).
    { intros q a Hq Hl Hn Ha. apply (un_out _ Un). by apply (page_outside q). }
    split; [exact Hkeep|]. split; [|right; by split_and!].
    intros va. apply xpte_ext. intros u i Hu Hi. apply ld_ext. intros b Hb. destruct (Hu) as (p & Hp & Ht).
    apply (Hkeep u); [exact (po_page _ _ _ (fk_old _ F) p u Hp Ht)|exact (po_free _ _ _ (fk_old _ F) p u Hp Ht)|by apply (fk_apart _ F)|].
    unfold in_page, PGSIZE, idx in *. lia.
Qed.

(** C19: [fork] copies memory.  [uvmcopy] of the first [n] pages, for a parent
    and a child that share no tables, returns 0 and then the child maps each
    of these pages with the parent's permissions to a page of its own, taken
    from the free list, with the parent's bytes; or it returns -1, which it
    does only when at most three free pages per page were left, and then the
    child maps nothing more than before and every free page is free again
    unless it became a table of the child.  In both cases all memory that is
    neither free nor a table of the child, so the parent's pages and tables,
    is unchanged, and the child's tables are well-formed. *)
Theorem uvmcopy_spec :
  exists r s', uvmcopy old new sz s0 = Ret r s' /\
    norm s' = set_mem (k_mem s') (set_freelist (k_freelist s') (norm s0)) /\
    (forall q a, page_ok q -> (q ∉ l0) -> ~ is_node m0 new q -> in_page q a -> ld8 (k_mem s') a = ld8 m0 a) /\
    (forall va, xpte (k_mem s') old va = xpte m0 old va) /\
    (r = 0 /\ (exists l, kmem_inv s' l /\ copied (k_mem s') l) \/
     r = -1 /\ undone s' /\ (length l0 <= 3 * n)%nat).
Proof using All. exact uvmcopy_run. Qed.
End copy.

Section demo.
#[local] Existing Instance demo_linker.
#[local] Existing Instance demo_linker_ok.

(** A parent with one page at address 0, and a new table. *)
Lemma demo_forkable : exists s l old new, forkable old new s l 1.
Proof.
  destruct demo_mapped as (s & root & q & l & Hk & Ho & X & Hn & Hq & Hl & Hlen & Hsh).
  destruct l as [|p l]; [simpl in Hlen; lia|].
  destruct (uvmcreate_run s p l Hk) as (s1 & _ & Hk1 & Ho1 & N1 & X1 & _ & Hso).
  destruct (link_page s p l Hk) as [Hp _].
  assert (Hpn : ~ is_node (k_mem s) root p) by (intros (u & Hu & Ht); apply (po_free _ _ _ Ho u p Hu Ht); left).
  assert (He : forall u j, is_node (k_mem s) root u -> idx j -> ent (k_mem s1) u j = ent (k_mem s) u j).
  { intros u j Hu Hj. apply (same_outside_ent p); try done; [|by intros ->].
    destruct Hu as (r & Hr & Ht). exact (po_page _ _ _ Ho r u Hr Ht). }
  assert (Hnode : forall r, path r -> node (k_mem s1) root r = node (k_mem s) root r) by (intros; by apply node_ext).
  assert (Hx : forall va, xpte (k_mem s1) root va = xpte (k_mem s) root va) by (intros; by apply xpte_ext).
  destruct (page_bounds q Hq) as [Hb Ha].
  destruct (mkpte_spec q demo_perm Hb Ha) as (Hv & Hpa & Hfl & _); [vm_compute; split; [discriminate|reflexivity]|].
  assert (X0 : forall va, 0 <= va < Z.of_nat 1 * PGSIZE -> xpte (k_mem s1) root va = mkpte q demo_perm).
  { intros va Hva. rewrite Hx, X by (change MAXVA with (2 ^ 38); unfold PGSIZE in *; lia). apply decide_True. unfold PGSIZE in *. lia. }
  exists s1, l, root, p. split; [done|done| | |vm_compute; discriminate| | |].
  - destruct Ho as [O1 O2 O3]. split; intros *.
    + intros Hr. rewrite Hnode by done. by apply O1.
    + intros Hr Ht Hin. rewrite Hnode in Ht by done. apply (O2 p0 t Hr Ht). by right.
    + intros Hr Hr'. rewrite !Hnode by done. by apply O3.
  - intros t Ht Ht'. rewrite (N1 t Ht') in Ht. apply Hpn. by rewrite (is_node_ext _ _ _ _ Hnode) in Ht.
  - intros va Hva. rewrite X0 by lia. split; [done|]. rewrite Hfl. vm_compute. discriminate.
  - intros va Hva. unfold page_of. rewrite X0, Hpa by done. split_and!; [done| |].
    + intros Hin. apply Hl. by right.
    + intros Hin. apply Hl. rewrite (N1 q Hin). left.
  - intros va Hva. by rewrite X1.
Qed.

Lemma uvmcopy_spec_witness : exists old new s r s',
  uvmcopy old new PGSIZE s = Ret r s' /\ xpte (k_mem s') old 0 = xpte (k_mem s) old 0.
Proof.
  destruct demo_forkable as (s & l & old & new & Fk). exists old, new, s.
  destruct (uvmcopy_spec old new s l 1 Fk PGSIZE) as (r & s' & R & _ & _ & Hx & _).
  - unfold PGSIZE. simpl. lia.
  - exists r, s'. split; [exact R|apply Hx].
Defined.
End demo.
