(* ===== verification/Uart.v ===== *)
(** * kernel/uart.c: the serial port

    A device register answers a read with a value that depends on the
    accesses made so far: the class [Devices] is that function, and every
    access is recorded in [k_io].  A loop that polls a register is bounded by
    [polls]. *)

From S2P Require Import Prelude Param Mem Kernel Spinlock Sched Sleeplock.
Open Scope Z_scope.

(** ** Device registers *)

(** The value a read of the register at an address returns after a history
    of accesses. *)
Class Devices : Type := dev_read : list ioev -> Z -> Z.

Definition mmio_write (a v : Z) : K unit :=
  modify (fun s => set_io (k_io s ++ [IoWrite a v]) s).

(** A read through a pointer to an unsigned type of the given width. *)
Definition mmio_read `{D : Devices} (width : Z -> Z) (a : Z) : K Z := fun s =>
  let v := width (dev_read (k_io s) a) in
  Ret v (set_io (k_io s ++ [IoRead a v]) s).

Definition polls : nat := 1000.

(** [for(;;) ;] *)
Definition hang {A} : K A := fun s => Spin s.

(** ** Registers of the 16550 *)

Definition RHR : Z := 0.
Definition THR : Z := 0.
Definition IER : Z := 1.
Definition IER_RX_ENABLE : Z := Z.shiftl 1 0.
Definition IER_TX_ENABLE : Z := Z.shiftl 1 1.
Definition FCR : Z := 2.
Definition FCR_FIFO_ENABLE : Z := Z.shiftl 1 0.
Definition FCR_FIFO_CLEAR : Z := Z.shiftl 3 1.
Definition LCR : Z := 3.
Definition LCR_EIGHT_BITS : Z := Z.shiftl 3 0.
Definition LCR_BAUD_LATCH : Z := Z.shiftl 1 7.
Definition LSR : Z := 5.
Definition LSR_RX_READY : Z := Z.shiftl 1 0.
Definition LSR_TX_IDLE : Z := Z.shiftl 1 5.
Definition UART_TX_BUF_SIZE : Z := 32.

Section uart.
Context `{D : Devices}.

Definition ReadReg (reg : Z) : K Z := mmio_read u8 (UART0 + reg).
Definition WriteReg (reg v : Z) : K unit := mmio_write (UART0 + reg) (u8 v).

Definition set_tx_buf (b : list Z) (u : uart) : uart := mkuart b (tx_w u) (tx_r u).
Definition set_tx_w (w : Z) (u : uart) : uart := mkuart (tx_buf u) w (tx_r u).
Definition set_tx_r (r : Z) (u : uart) : uart := mkuart (tx_buf u) (tx_w u) r.
Definition put_uart (f : uart -> uart) : K unit := modify (fun s => set_uart (f (k_uart s)) s).

(** ** Operations *)

Definition uartinit : K unit :=
  do! WriteReg IER 0x00;
  do! WriteReg LCR LCR_BAUD_LATCH;
  do! WriteReg 0 0x03;
  do! WriteReg 1 0x00;
  do! WriteReg LCR LCR_EIGHT_BITS;
  do! WriteReg FCR (Z.lor FCR_FIFO_ENABLE FCR_FIFO_CLEAR);
  do! WriteReg IER (Z.lor IER_TX_ENABLE IER_RX_ENABLE);
  initlock LKuart.

(** At most [UART_TX_BUF_SIZE] characters are waiting, so the loop sends at
    most that many. *)
Fixpoint uartstart_loop (fuel : nat) : K unit :=
  match fuel with
  | O => fun _ => NoFuel
  | S fuel =>
    let! u := gets (fun s => k_uart s) in
    if tx_w u =? tx_r u then kret tt else
    let! lsr := ReadReg LSR in
    if Z.land lsr LSR_TX_IDLE =? 0 then kret tt else
    let c := default 0 (tx_buf u !! Z.to_nat (tx_r u mod UART_TX_BUF_SIZE)) in
    do! put_uart (set_tx_r (u64 (tx_r u + 1)));
    do! wakeup CHuart;
    do! WriteReg THR c;
    uartstart_loop fuel
  end.

Definition uartstart : K unit := uartstart_loop (S (Z.to_nat UART_TX_BUF_SIZE)).

Definition uartputc (c : Z) : K unit :=
  do! acquire LKuart;
  let! p := gets (fun s => panicked (k_pr s)) in
  if (p : bool) then hang else
  do! sleep_while wakeups
        (fun s => tx_w (k_uart s) =? u64 (tx_r (k_uart s) + UART_TX_BUF_SIZE)) CHuart LKuart;
  do! put_uart (fun u =>
        set_tx_buf (<[Z.to_nat (tx_w u mod UART_TX_BUF_SIZE) := u8 c]> (tx_buf u)) u);
  do! put_uart (fun u => set_tx_w (u64 (tx_w u + 1)) u);
  do! uartstart;
  release LKuart.

(** [while((ReadReg(LSR) & LSR_TX_IDLE) == 0) ;] *)
Fixpoint wait_tx_idle (fuel : nat) : K unit :=
  match fuel with
  | O => fun _ => NoFuel
  | S fuel =>
    let! lsr := ReadReg LSR in
    if Z.land lsr LSR_TX_IDLE =? 0 then wait_tx_idle fuel else kret tt
  end.

Definition uartputc_sync (c : Z) : K unit :=
  do! push_off;
  let! p := gets (fun s => panicked (k_pr s)) in
  if (p : bool) then hang else
  do! wait_tx_idle polls;
  do! WriteReg THR c;
  pop_off.

Definition uartgetc : K Z :=
  let! lsr := ReadReg LSR in
  if negb (Z.land lsr 0x01 =? 0) then ReadReg RHR else kret (-1).

End uart.
