(* ===== verification/Printf.v ===== *)
(** * kernel/printf.c: formatted console output

    [consputc] of [console.c] is here too, being what [printf] prints with.
    A format string is a list of bytes without its terminator.  [printf]
    takes its variable arguments as a list; C leaves a call with too few
    arguments undefined, and the model then reads 0.

    [panic] of the monad stops a computation; [panic_print] is what the code
    does in that situation: it prints the message and stops the hart. *)

From S2P Require Import Prelude Param Mem Kernel Spinlock Sched Sleeplock Uart.
Open Scope Z_scope.

Definition BACKSPACE : Z := 0x100.

Inductive parg : Type := Parg (v : Z) | Pstr (s : option (list Z)).

Definition arg_num (a : parg) : Z := match a with Parg v => v | Pstr _ => 0 end.
Definition arg_str (a : parg) : option (list Z) := match a with Parg _ => None | Pstr s => s end.
Definition next_arg (args : list parg) : parg := default (Parg 0) (head args).

Definition digits : list Z := bytes_of "0123456789abcdef".
Definition digit (d : Z) : Z := default 0 (digits !! Z.to_nat d).

(** The digits [printint] stores in its buffer, least significant first.
    A 32-bit number has at most 32 digits in any base. *)
Fixpoint digits_of (fuel : nat) (x base : Z) : list Z :=
  match fuel with
  | O => []
  | S fuel =>
    digit (x mod base) :: (if x / base =? 0 then [] else digits_of fuel (x / base) base)
  end.

(** What is in [buf] when the number has been converted. *)
Definition printint_buf (xx base : Z) (sign : bool) : list Z :=
  let neg := sign && (xx <? 0) in
  let x := if neg then u32 (- xx) else u32 xx in
  digits_of 33 x base ++ (if neg then bytes_of "-" else []).

Definition set_locking (b : bool) : K unit := modify (fun s => set_pr (mkpr b (panicked (k_pr s))) s).
Definition set_panicked : K unit := modify (fun s => set_pr (mkpr (pr_locking (k_pr s)) true) s).

Section printf.
Context `{D : Devices}.

Definition consputc (c : Z) : K unit :=
  if c =? BACKSPACE then
    do! uartputc_sync 8;
    do! uartputc_sync 32;
    uartputc_sync 8
  else uartputc_sync c.

Definition printint (xx base : Z) (sign : bool) : K unit :=
  kfor (rev (printint_buf xx base sign)) consputc.

Fixpoint printptr_loop (n : nat) (x : Z) : K unit :=
  match n with
  | O => kret tt
  | S n =>
    do! consputc (digit (Z.shiftr x (8 * 8 - 4)));
    printptr_loop n (u64 (Z.shiftl x 4))
  end.

Definition printptr (x : Z) : K unit :=
  do! consputc 48;
  do! consputc 120;
  printptr_loop 16 x.

(** One conversion, after its [%]: the arguments it leaves. *)
Definition printf_conv (c : Z) (args : list parg) : K (list parg) :=
  if c =? 100 (* d *) then
    do! printint (s32 (arg_num (next_arg args))) 10 true; kret (tail args)
  else if c =? 120 (* x *) then
    do! printint (s32 (arg_num (next_arg args))) 16 true; kret (tail args)
  else if c =? 112 (* p *) then
    do! printptr (u64 (arg_num (next_arg args))); kret (tail args)
  else if c =? 115 (* s *) then
    do! kfor (default (bytes_of "(null)") (arg_str (next_arg args))) consputc; kret (tail args)
  else if c =? 37 (* % *) then
    do! consputc 37; kret args
  else
    do! consputc 37; do! consputc c; kret args.

Fixpoint printf_loop (fmt : list Z) (args : list parg) : K unit :=
  match fmt with
  | [] => kret tt
  | c :: fmt =>
    if negb (c =? 37) then do! consputc c; printf_loop fmt args
    else
      match fmt with
      | [] => kret tt
      | c :: fmt => let! args := printf_conv c args in printf_loop fmt args
      end
  end.

Definition printf (fmt : list Z) (args : list parg) : K unit :=
  let! locking := gets (fun s => pr_locking (k_pr s)) in
  do! if! locking then acquire LKpr;
  do! printf_loop fmt args;
  if! locking then release LKpr.

Definition panic_print (s : list Z) : K unit :=
  do! set_locking false;
  do! printf (bytes_of "panic: ") [];
  do! printf s [];
  do! printf [10] [];
  do! set_panicked;
  hang.

Definition printfinit : K unit :=
  do! initlock LKpr;
  set_locking true.

End printf.
