(* ===== verification/Fs.v ===== *)
(** * kernel/fs.c: blocks, inodes, directories, paths

    An inode pointer is the index of its entry in [itable.inode], a path and
    a name are lists of bytes; a name buffer has [DIRSIZ] bytes and ends at
    its first zero byte, a path has no terminator.  Loops over the disk are
    bounded by the sizes in the super block or in the inode. *)

From S2P Require Import Prelude Param Mem CString Kernel Spinlock Kalloc Sched Sleeplock Vm PageTable UserCopy Uart Printf Bio Log.
Open Scope Z_scope.

(** ** Structures on disk *)

Definition T_DIR : Z := 1.
Definition T_FILE : Z := 2.
Definition T_DEVICE : Z := 3.

(** A [short] at a byte offset. *)
Definition get16 (off : Z) (l : list Z) : Z := s16 (le_val (slice (Z.to_nat off) 2 l)).
Definition put16 (off v : Z) (l : list Z) : list Z := splice (Z.to_nat off) (le_bytes 2 v) l.

(** [struct superblock]: eight 32-bit fields. *)
Definition sb_of (l : list Z) : superblock :=
  mksb (get32 0 l) (get32 4 l) (get32 8 l) (get32 12 l)
       (get32 16 l) (get32 20 l) (get32 24 l) (get32 28 l).

(** [IBLOCK], [BBLOCK] *)
Definition IBLOCK (i : Z) (sb : superblock) : Z := u32 (i / IPB + sb_inodestart sb).
Definition BBLOCK (b : Z) (sb : superblock) : Z := u32 (b / BPB + sb_bmapstart sb).

(** Byte offset of [(struct dinode* )bp->data + inum % IPB], and of its fields. *)
Definition dip (inum : Z) : Z := inum mod IPB * sizeof_dinode.
Definition di_type : Z := 0.
Definition di_major : Z := 2.
Definition di_minor : Z := 4.
Definition di_nlink : Z := 6.
Definition di_size : Z := 8.
Definition di_addrs (i : nat) : Z := 12 + 4 * Z.of_nat i.
Definition naddrs : nat := Z.to_nat (NDIRECT + 1).

(** ** Fields of an inode *)

Definition inode_at (s : kst) (i : nat) : inode := default inode0 (k_inodes s !! i).
Definition put_inode (i : nat) (f : inode -> inode) : K unit :=
  modify (fun s => set_inodes (<[i := f (inode_at s i)]> (k_inodes s)) s).

Definition set_iref (r : Z) (x : inode) : inode :=
  mkinode (i_dev x) (i_inum x) r (i_valid x) (i_type x) (i_major x) (i_minor x) (i_nlink x)
    (i_size x) (i_addrs x).
Definition set_ivalid (v : bool) (x : inode) : inode :=
  mkinode (i_dev x) (i_inum x) (i_ref x) v (i_type x) (i_major x) (i_minor x) (i_nlink x)
    (i_size x) (i_addrs x).
Definition set_itype (v : Z) (x : inode) : inode :=
  mkinode (i_dev x) (i_inum x) (i_ref x) (i_valid x) v (i_major x) (i_minor x) (i_nlink x)
    (i_size x) (i_addrs x).
Definition set_imajor (v : Z) (x : inode) : inode :=
  mkinode (i_dev x) (i_inum x) (i_ref x) (i_valid x) (i_type x) v (i_minor x) (i_nlink x)
    (i_size x) (i_addrs x).
Definition set_iminor (v : Z) (x : inode) : inode :=
  mkinode (i_dev x) (i_inum x) (i_ref x) (i_valid x) (i_type x) (i_major x) v (i_nlink x)
    (i_size x) (i_addrs x).
Definition set_inlink (v : Z) (x : inode) : inode :=
  mkinode (i_dev x) (i_inum x) (i_ref x) (i_valid x) (i_type x) (i_major x) (i_minor x) v
    (i_size x) (i_addrs x).
Definition set_isize (v : Z) (x : inode) : inode :=
  mkinode (i_dev x) (i_inum x) (i_ref x) (i_valid x) (i_type x) (i_major x) (i_minor x)
    (i_nlink x) v (i_addrs x).
Definition set_iaddrs (v : list Z) (x : inode) : inode :=
  mkinode (i_dev x) (i_inum x) (i_ref x) (i_valid x) (i_type x) (i_major x) (i_minor x)
    (i_nlink x) (i_size x) v.
Definition iaddr (x : inode) (i : nat) : Z := default 0 (i_addrs x !! i).
Definition set_iaddr (i : nat) (v : Z) (x : inode) : inode := set_iaddrs (<[i := v]> (i_addrs x)) x.

(** The dinode fields as [iupdate] stores them, and as [ilock] reads them. *)
Definition put_dinode (o : Z) (x : inode) (l : list Z) : list Z :=
  splice (Z.to_nat (o + di_addrs 0)) (concat (map (le_bytes 4) (i_addrs x)))
    (put32 (o + di_size) (i_size x)
      (put16 (o + di_nlink) (i_nlink x)
        (put16 (o + di_minor) (i_minor x)
          (put16 (o + di_major) (i_major x)
            (put16 (o + di_type) (i_type x) l))))).
Definition load_dinode (o : Z) (l : list Z) (x : inode) : inode :=
  set_iaddrs (map (fun i => get32 (o + di_addrs i) l) (seq 0 naddrs))
    (set_isize (get32 (o + di_size) l)
      (set_inlink (get16 (o + di_nlink) l)
        (set_iminor (get16 (o + di_minor) l)
          (set_imajor (get16 (o + di_major) l)
            (set_itype (get16 (o + di_type) l) x))))).

(** ** Bits of the free map *)

Definition bit_used (data : list Z) (bi : Z) : bool :=
  negb (Z.land (default 0 (data !! Z.to_nat (bi / 8))) (Z.shiftl 1 (bi mod 8)) =? 0).
Definition set_bit (bi : Z) (data : list Z) : list Z :=
  <[Z.to_nat (bi / 8) := u8 (Z.lor (default 0 (data !! Z.to_nat (bi / 8))) (Z.shiftl 1 (bi mod 8)))]> data.
Definition clear_bit (bi : Z) (data : list Z) : list Z :=
  <[Z.to_nat (bi / 8) := u8 (Z.land (default 0 (data !! Z.to_nat (bi / 8)))
                              (Z.lnot (Z.shiftl 1 (bi mod 8))))]> data.

(** The inner loop of [balloc]: the first clear bit [bi] below [BPB] with
    [b + bi < size]. *)
Fixpoint find_clear (fuel : nat) (data : list Z) (b size bi : Z) : option Z :=
  match fuel with
  | O => None
  | S fuel =>
    if (bi <? BPB) && (b + bi <? size) then
      if bit_used data bi then find_clear fuel data b size (bi + 1) else Some bi
    else None
  end.

Section fs.
Context `{Dk : Disk, D : Devices, L : Linker}.

Definition buf_data (b : nat) : K block := gets (fun s => b_data (buf_at s b)).

(** ** Blocks *)

Definition readsb (dev : Z) : K superblock :=
  let! bp := bread dev 1 in
  let! data := buf_data bp in
  do! brelse bp;
  kret (sb_of data).

Definition fsinit (dev : Z) : K unit :=
  let! sb := readsb dev in
  do! modify (set_sb sb);
  if negb (sb_magic sb =? FSMAGIC) then panic "invalid file system" else
  initlog dev sb.

Definition bzero (dev bno : Z) : K unit :=
  let! bp := bread dev bno in
  do! put_buf bp (set_data zero_block);
  do! log_write bp;
  brelse bp.

Fixpoint balloc_loop (fuel : nat) (dev b : Z) : K Z :=
  match fuel with
  | O => fun _ => NoFuel
  | S fuel =>
    let! sb := gets (fun s => k_sb s) in
    if b <? sb_size sb then
      let! bp := bread dev (BBLOCK b sb) in
      let! data := buf_data bp in
      match find_clear (S (Z.to_nat BPB)) data b (sb_size sb) 0 with
      | Some bi =>
        do! put_buf bp (fun x => set_data (set_bit bi (b_data x)) x);
        do! log_write bp;
        do! brelse bp;
        do! bzero dev (b + bi);
        kret (b + bi)
      | None =>
        do! brelse bp;
        balloc_loop fuel dev (b + BPB)
      end
    else
      do! printf (bytes_of "balloc: out of blocks" ++ [10]) [];
      kret 0
  end.

Definition balloc (dev : Z) : K Z :=
  let! sb := gets (fun s => k_sb s) in
  balloc_loop (S (S (Z.to_nat (sb_size sb / BPB)))) dev 0.

Definition bfree (dev b : Z) : K unit :=
  let! sb := gets (fun s => k_sb s) in
  let! bp := bread dev (BBLOCK b sb) in
  let bi := b mod BPB in
  let! data := buf_data bp in
  if negb (bit_used data bi) then panic "freeing free block" else
  do! put_buf bp (fun x => set_data (clear_bit bi (b_data x)) x);
  do! log_write bp;
  brelse bp.

(** ** Inodes *)

Definition iinit : K unit :=
  do! initlock LKitable;
  kfor (seq 0 NINODE) (fun i => initsleeplock (SLinode i)).

(** The search of [iget]: the entry that holds the inode, else the first
    entry that was free. *)
Fixpoint iget_scan (dev inum : Z) (empty : option nat) (i : nat) (l : list inode) : (nat + option nat) :=
  match l with
  | [] => inr empty
  | ip :: l =>
    if (i_ref ip >? 0) && (i_dev ip =? dev) && (i_inum ip =? inum) then inl i
    else
      let empty := if bool_decide (empty = None) && (i_ref ip =? 0) then Some i else empty in
      iget_scan dev inum empty (S i) l
  end.

Definition iget (dev inum : Z) : K nat :=
  do! acquire LKitable;
  let! l := gets (fun s => k_inodes s) in
  match iget_scan dev inum None 0 l with
  | inl ip =>
    do! put_inode ip (fun x => set_iref (i_ref x + 1) x);
    do! release LKitable;
    kret ip
  | inr None => panic "iget: no inodes"
  | inr (Some ip) =>
    do! put_inode ip (fun x =>
          mkinode dev inum 1 false (i_type x) (i_major x) (i_minor x) (i_nlink x) (i_size x) (i_addrs x));
    do! release LKitable;
    kret ip
  end.

Fixpoint ialloc_loop (fuel : nat) (dev type inum : Z) : K (option nat) :=
  match fuel with
  | O => fun _ => NoFuel
  | S fuel =>
    let! sb := gets (fun s => k_sb s) in
    if inum <? sb_ninodes sb then
      let! bp := bread dev (IBLOCK inum sb) in
      let! data := buf_data bp in
      if get16 (dip inum + di_type) data =? 0 then
        do! put_buf bp (fun x =>
              set_data (splice (Z.to_nat (dip inum)) (replicate (Z.to_nat sizeof_dinode) 0) (b_data x)) x);
        do! put_buf bp (fun x => set_data (put16 (dip inum + di_type) type (b_data x)) x);
        do! log_write bp;
        do! brelse bp;
        let! ip := iget dev inum in
        kret (Some ip)
      else
        do! brelse bp;
        ialloc_loop fuel dev type (inum + 1)
    else
      do! printf (bytes_of "ialloc: no inodes" ++ [10]) [];
      kret None
  end.

Definition ialloc (dev type : Z) : K (option nat) :=
  let! sb := gets (fun s => k_sb s) in
  ialloc_loop (S (Z.to_nat (sb_ninodes sb))) dev type 1.

Definition iupdate (ip : nat) : K unit :=
  let! x := gets (fun s => inode_at s ip) in
  let! sb := gets (fun s => k_sb s) in
  let! bp := bread (i_dev x) (IBLOCK (i_inum x) sb) in
  let! x := gets (fun s => inode_at s ip) in
  do! put_buf bp (fun b => set_data (put_dinode (dip (i_inum x)) x (b_data b)) b);
  do! log_write bp;
  brelse bp.

Definition idup (ip : nat) : K nat :=
  do! acquire LKitable;
  do! put_inode ip (fun x => set_iref (i_ref x + 1) x);
  do! release LKitable;
  kret ip.

Definition ilock (ip : option nat) : K unit :=
  match ip with
  | None => panic "ilock"
  | Some ip =>
    let! x := gets (fun s => inode_at s ip) in
    if i_ref x <? 1 then panic "ilock" else
    do! acquiresleep (SLinode ip);
    let! x := gets (fun s => inode_at s ip) in
    if i_valid x then kret tt else
    let! sb := gets (fun s => k_sb s) in
    let! bp := bread (i_dev x) (IBLOCK (i_inum x) sb) in
    let! data := buf_data bp in
    do! put_inode ip (fun x => load_dinode (dip (i_inum x)) data x);
    do! brelse bp;
    do! put_inode ip (set_ivalid true);
    let! x := gets (fun s => inode_at s ip) in
    if! i_type x =? 0 then panic "ilock: no type"
  end.

Definition iunlock (ip : option nat) : K unit :=
  match ip with
  | None => panic "iunlock"
  | Some ip =>
    let! h := holdingsleep (SLinode ip) in
    let! x := gets (fun s => inode_at s ip) in
    if negb h || (i_ref x <? 1) then panic "iunlock" else
    releasesleep (SLinode ip)
  end.

(** ** Content of inodes *)

Definition bmap (ip : nat) (bn : Z) : K Z :=
  let! x := gets (fun s => inode_at s ip) in
  if bn <? NDIRECT then
    let addr := iaddr x (Z.to_nat bn) in
    if negb (addr =? 0) then kret addr else
    let! addr := balloc (i_dev x) in
    if addr =? 0 then kret 0 else
    do! put_inode ip (set_iaddr (Z.to_nat bn) addr);
    kret addr
  else
  let bn := bn - NDIRECT in
  if bn <? NINDIRECT then
    let! addr :=
      (let addr := iaddr x (Z.to_nat NDIRECT) in
       if negb (addr =? 0) then kret addr else
       let! addr := balloc (i_dev x) in
       do! if! negb (addr =? 0) then put_inode ip (set_iaddr (Z.to_nat NDIRECT) addr);
       kret addr) in
    if addr =? 0 then kret 0 else
    let! bp := bread (i_dev x) addr in
    let! a := buf_data bp in
    let! addr :=
      (let addr := get32 (4 * bn) a in
       if negb (addr =? 0) then kret addr else
       let! addr := balloc (i_dev x) in
       do! if! negb (addr =? 0) then
         (do! put_buf bp (fun b => set_data (put32 (4 * bn) addr (b_data b)) b);
          log_write bp);
       kret addr) in
    do! brelse bp;
    kret addr
  else panic "bmap: out of range".

Definition itrunc (ip : nat) : K unit :=
  do! kfor (seq 0 (Z.to_nat NDIRECT)) (fun i =>
        let! x := gets (fun s => inode_at s ip) in
        if! negb (iaddr x i =? 0) then
          (do! bfree (i_dev x) (iaddr x i);
           put_inode ip (set_iaddr i 0)));
  let! x := gets (fun s => inode_at s ip) in
  do! if! negb (iaddr x (Z.to_nat NDIRECT) =? 0) then
    (let! bp := bread (i_dev x) (iaddr x (Z.to_nat NDIRECT)) in
     do! kfor (seq 0 (Z.to_nat NINDIRECT)) (fun j =>
           let! a := buf_data bp in
           if! negb (get32 (4 * Z.of_nat j) a =? 0) then
             bfree (i_dev x) (get32 (4 * Z.of_nat j) a));
     do! brelse bp;
     do! bfree (i_dev x) (iaddr x (Z.to_nat NDIRECT));
     put_inode ip (set_iaddr (Z.to_nat NDIRECT) 0));
  do! put_inode ip (set_isize 0);
  iupdate ip.

Definition iput (ip : nat) : K unit :=
  do! acquire LKitable;
  let! x := gets (fun s => inode_at s ip) in
  do! if! (i_ref x =? 1) && i_valid x && (i_nlink x =? 0) then
    (do! acquiresleep (SLinode ip);
     do! release LKitable;
     do! itrunc ip;
     do! put_inode ip (set_itype 0);
     do! iupdate ip;
     do! put_inode ip (set_ivalid false);
     do! releasesleep (SLinode ip);
     acquire LKitable);
  do! put_inode ip (fun x => set_iref (i_ref x - 1) x);
  release LKitable.

Definition iunlockput (ip : nat) : K unit :=
  do! iunlock (Some ip);
  iput ip.

(** [struct stat]: dev, ino, type, nlink, 4 bytes of padding, size. *)
Definition stati (ip : nat) : K (list Z) :=
  gets (fun s =>
    let x := inode_at s ip in
    le_bytes 4 (i_dev x) ++ le_bytes 4 (i_inum x) ++ le_bytes 2 (i_type x) ++
    le_bytes 2 (i_nlink x) ++ replicate 4 0 ++ le_bytes 8 (i_size x)).

(** [min(n - tot, BSIZE - off % BSIZE)] *)
Definition chunk (off n tot : Z) : Z := Z.min (n - tot) (BSIZE - off mod BSIZE).

(** One iteration per block the range touches. *)
Definition rw_fuel (n : Z) : nat := S (S (S (Z.to_nat (n / BSIZE)))).

(** [tot] as the code returns it, and the bytes stored in a local. *)
Fixpoint readi_loop (fuel : nat) (ip : nat) (d : dst) (off n tot : Z) (acc : list Z) : K (Z * list Z) :=
  match fuel with
  | O => fun _ => NoFuel
  | S fuel =>
    if tot <? n then
      let! addr := bmap ip (off / BSIZE) in
      if addr =? 0 then kret (tot, acc) else
      let! x := gets (fun s => inode_at s ip) in
      let! bp := bread (i_dev x) addr in
      let m := chunk off n tot in
      let! data := buf_data bp in
      let! (r, bs) := either_copyout d (slice (Z.to_nat (off mod BSIZE)) (Z.to_nat m) data) in
      if r =? -1 then
        do! brelse bp;
        kret (-1, acc)
      else
        do! brelse bp;
        readi_loop fuel ip (dst_add d m) (off + m) n (tot + m) (acc ++ bs)
    else kret (tot, acc)
  end.

Definition readi (ip : nat) (d : dst) (off n : Z) : K (Z * list Z) :=
  let! x := gets (fun s => inode_at s ip) in
  if (off >? i_size x) || (u32 (off + n) <? off) then kret (0, []) else
  let n := if u32 (off + n) >? i_size x then u32 (i_size x - off) else n in
  readi_loop (rw_fuel n) ip d off n 0 [].

(** [tot] and the offset reached. *)
Fixpoint writei_loop (fuel : nat) (ip : nat) (x : src) (off n tot : Z) : K (Z * Z) :=
  match fuel with
  | O => fun _ => NoFuel
  | S fuel =>
    if tot <? n then
      let! addr := bmap ip (off / BSIZE) in
      if addr =? 0 then kret (tot, off) else
      let! i := gets (fun s => inode_at s ip) in
      let! bp := bread (i_dev i) addr in
      let m := chunk off n tot in
      let! (r, bs) := either_copyin x m in
      do! put_buf bp (fun b => set_data (splice (Z.to_nat (off mod BSIZE)) bs (b_data b)) b);
      if r =? -1 then
        do! brelse bp;
        kret (tot, off)
      else
        do! log_write bp;
        do! brelse bp;
        writei_loop fuel ip (src_add x m) (off + m) n (tot + m)
    else kret (tot, off)
  end.

Definition writei (ip : nat) (x : src) (off n : Z) : K Z :=
  let! i := gets (fun s => inode_at s ip) in
  if (off >? i_size i) || (u32 (off + n) <? off) then kret (-1) else
  if u32 (off + n) >? MAXFILE * BSIZE then kret (-1) else
  let! (tot, off) := writei_loop (rw_fuel n) ip x off n 0 in
  let! i := gets (fun s => inode_at s ip) in
  do! if! off >? i_size i then put_inode ip (set_isize off);
  do! iupdate ip;
  kret tot.

(** ** Directories *)

(** [struct dirent] *)
Definition sizeof_dirent : Z := 2 + DIRSIZ.
Definition de_inum (de : list Z) : Z := le_val (slice 0 2 de).
Definition de_name (de : list Z) : list Z := slice 2 (Z.to_nat DIRSIZ) de.

(** [strncmp] and [strncpy] on two buffers of their own. *)
Definition namecmp (s t : list Z) : Z :=
  strncmp (st_bytes (st_bytes ∅ 0 s) 256 t) 0 256 DIRSIZ.
Definition name_copy (name : list Z) : list Z :=
  ld_bytes (strncpy (st_bytes ∅ 256 name) 0 256 DIRSIZ) 0 (Z.to_nat DIRSIZ).

(** The inode found and the offset of its entry. *)
Fixpoint dirlookup_loop (fuel : nat) (dp : nat) (name : list Z) (off : Z) : K (option (nat * Z)) :=
  match fuel with
  | O => fun _ => NoFuel
  | S fuel =>
    let! x := gets (fun s => inode_at s dp) in
    if off <? i_size x then
      let! (r, de) := readi dp ToLocal off sizeof_dirent in
      if negb (r =? sizeof_dirent) then panic "dirlookup read" else
      if de_inum de =? 0 then dirlookup_loop fuel dp name (off + sizeof_dirent) else
      if namecmp name (de_name de) =? 0 then
        let! ip := iget (i_dev x) (de_inum de) in
        kret (Some (ip, off))
      else dirlookup_loop fuel dp name (off + sizeof_dirent)
    else kret None
  end.

Definition dir_fuel (size : Z) : nat := S (S (Z.to_nat (size / sizeof_dirent))).

Definition dirlookup (dp : nat) (name : list Z) : K (option (nat * Z)) :=
  let! x := gets (fun s => inode_at s dp) in
  if negb (i_type x =? T_DIR) then panic "dirlookup not DIR" else
  dirlookup_loop (dir_fuel (i_size x)) dp name 0.

(** The search of [dirlink] for an empty entry: its offset. *)
Fixpoint dirlink_slot (fuel : nat) (dp : nat) (off : Z) : K Z :=
  match fuel with
  | O => fun _ => NoFuel
  | S fuel =>
    let! x := gets (fun s => inode_at s dp) in
    if off <? i_size x then
      let! (r, de) := readi dp ToLocal off sizeof_dirent in
      if negb (r =? sizeof_dirent) then panic "dirlink read" else
      if de_inum de =? 0 then kret off else dirlink_slot fuel dp (off + sizeof_dirent)
    else kret off
  end.

Definition dirlink (dp : nat) (name : list Z) (inum : Z) : K Z :=
  let! r := dirlookup dp name in
  match r with
  | Some (ip, _) =>
    do! iput ip;
    kret (-1)
  | None =>
    let! x := gets (fun s => inode_at s dp) in
    let! off := dirlink_slot (dir_fuel (i_size x)) dp 0 in
    let de := le_bytes 2 inum ++ name_copy name in
    let! r := writei dp (FromLocal de) off sizeof_dirent in
    if negb (r =? sizeof_dirent) then kret (-1) else kret 0
  end.

(** ** Paths *)

Definition slash : Z := 47.
Fixpoint skip_slashes (path : list Z) : list Z :=
  match path with
  | c :: path' => if c =? slash then skip_slashes path' else path
  | [] => []
  end.
(** The element up to the next slash, and the rest. *)
Fixpoint take_elem (path : list Z) : list Z * list Z :=
  match path with
  | c :: path' =>
    if c =? slash then ([], path)
    else let (e, r) := take_elem path' in (c :: e, r)
  | [] => ([], [])
  end.

(** The path after the element, and the name buffer. *)
Definition skipelem (path name : list Z) : option (list Z * list Z) :=
  match skip_slashes path with
  | [] => None
  | p =>
    let (s, p) := take_elem p in
    let len := Z.of_nat (length s) in
    let name :=
      if len >=? DIRSIZ then take (Z.to_nat DIRSIZ) s
      else splice 0 (s ++ [0]) name in
    Some (skip_slashes p, name)
  end.

(** The inode and the final name buffer; each round shortens the path. *)
Fixpoint namex_loop (fuel : nat) (ip : nat) (path : list Z) (nameiparent : bool) (name : list Z)
  : K (option nat * list Z) :=
  match fuel with
  | O => fun _ => NoFuel
  | S fuel =>
    match skipelem path name with
    | None =>
      if nameiparent then
        do! iput ip;
        kret (None, name)
      else kret (Some ip, name)
    | Some (path, name) =>
      do! ilock (Some ip);
      let! x := gets (fun s => inode_at s ip) in
      if negb (i_type x =? T_DIR) then
        do! iunlockput ip;
        kret (None, name)
      else if nameiparent && bool_decide (path = []) then
        do! iunlock (Some ip);
        kret (Some ip, name)
      else
        let! next := dirlookup ip name in
        match next with
        | None =>
          do! iunlockput ip;
          kret (None, name)
        | Some (next, _) =>
          do! iunlockput ip;
          namex_loop fuel next path nameiparent name
        end
    end
  end.

Definition namex (path : list Z) (nameiparent : bool) (name : list Z) : K (option nat * list Z) :=
  let! ip :=
    (if bool_decide (hd 0 path = slash) then iget ROOTDEV ROOTINO
     else
       let! p := curproc in
       let! cwd := gets (fun s => p_cwd (proc_at s p)) in
       match cwd with
       | None => panic "kerneltrap"
       | Some cwd => idup cwd
       end) in
  namex_loop (S (length path)) ip path nameiparent name.

Definition name0 : list Z := replicate (Z.to_nat DIRSIZ) 0.

Definition namei (path : list Z) : K (option nat) :=
  let! (ip, _) := namex path false name0 in
  kret ip.

Definition nameiparent (path name : list Z) : K (option nat * list Z) := namex path true name.

End fs.
