(* ===== verification/Bitmap.v ===== *)
(** * The free-block bitmap of kernel/fs.c

    [balloc] and [bfree] test, set and clear single bits of a bitmap block;
    here a block is the set of the numbers of its used blocks. *)

From S2P Require Import Prelude Param Mem CString Kernel Spinlock Kalloc Sched Sleeplock Vm PageTable UserCopy Uart Printf Bio Log Fs.
Open Scope Z_scope.

(** The byte of a block's bit, and whether there is one. *)
Definition bmbyte (data : list Z) (bi : Z) : Z := default 0 (data !! Z.to_nat (bi / 8)).
Definition in_map (data : list Z) (bi : Z) : Prop := 0 <= bi < 8 * Z.of_nat (length data).

Lemma in_map_byte data bi : in_map data bi -> (Z.to_nat (bi / 8) < length data)%nat.
Proof. unfold in_map. intros. zlia. Qed.

Lemma land_bit x n : 0 <= n -> negb (Z.land x (Z.shiftl 1 n) =? 0) = Z.testbit x n.
Proof.
  intros Hn. rewrite Z.shiftl_1_l. destruct (Z.testbit x n) eqn:E.
  - apply negb_true_iff, Z.eqb_neq. intros H. apply (f_equal (fun z => Z.testbit z n)) in H.
    rewrite Z.land_spec, Z.bits_0, Z.pow2_bits_true, E in H by lia. done.
  - apply negb_false_iff, Z.eqb_eq, Z.bits_inj'. intros i Hi. rewrite Z.land_spec, Z.bits_0.
    destruct (decide (i = n)) as [->|]; [by rewrite E|]. by rewrite Z.pow2_bits_false, andb_false_r by lia.
Qed.

Lemma bit_used_testbit data bi : bit_used data bi = Z.testbit (bmbyte data bi) (bi mod 8).
Proof. apply land_bit. zlia. Qed.

Lemma testbit_u8 x i : 0 <= i < 8 -> Z.testbit (u8 x) i = Z.testbit x i.
Proof. intros. unfold u8. by rewrite Z.mod_pow2_bits_low by lia. Qed.

Lemma same_byte b bi : 0 <= b -> 0 <= bi -> Z.to_nat (b / 8) = Z.to_nat (bi / 8) -> b mod 8 = bi mod 8 -> b = bi.
Proof. intros. zlia. Qed.

(** A byte replaced by one that differs from it in one bit. *)
Lemma bit_used_insert data bi v x b :
  in_map data bi -> 0 <= b ->
  (forall i, 0 <= i < 8 -> Z.testbit v i = if i =? bi mod 8 then x else Z.testbit (bmbyte data bi) i) ->
  bit_used (<[Z.to_nat (bi / 8) := v]> data) b = if b =? bi then x else bit_used data b.
Proof.
  intros Hin Hb Hv. rewrite !bit_used_testbit. unfold bmbyte in *.
  destruct (decide (Z.to_nat (b / 8) = Z.to_nat (bi / 8))) as [E|E].
  - rewrite E, list_lookup_insert_eq by (by apply in_map_byte). simpl. rewrite Hv by zlia.
    destruct (Z.eqb_spec (b mod 8) (bi mod 8)) as [Em|Em], (Z.eqb_spec b bi) as [->|Hne]; try done.
    by destruct (Hne (same_byte b bi Hb (proj1 Hin) E Em)).
  - rewrite list_lookup_insert_ne by done. by destruct (Z.eqb_spec b bi) as [->|].
Qed.

Lemma bit_used_set data bi b :
  in_map data bi -> 0 <= b -> bit_used (set_bit bi data) b = if b =? bi then true else bit_used data b.
Proof.
  intros Hin Hb. unfold set_bit. apply bit_used_insert; [done|done|]. intros i Hi.
  rewrite testbit_u8, Z.lor_spec, Z.shiftl_1_l by done. fold (bmbyte data bi).
  destruct (Z.eqb_spec i (bi mod 8)) as [->|].
  - rewrite Z.pow2_bits_true by zlia. apply orb_true_r.
  - rewrite Z.pow2_bits_false by lia. apply orb_false_r.
Qed.

Lemma bit_used_clear data bi b :
  in_map data bi -> 0 <= b -> bit_used (clear_bit bi data) b = if b =? bi then false else bit_used data b.
Proof.
  intros Hin Hb. unfold clear_bit. apply bit_used_insert; [done|done|]. intros i Hi.
  rewrite testbit_u8, Z.land_spec, Z.lnot_spec, Z.shiftl_1_l by (done || lia). fold (bmbyte data bi).
  destruct (Z.eqb_spec i (bi mod 8)) as [->|].
  - rewrite Z.pow2_bits_true by zlia. apply andb_false_r.
  - rewrite Z.pow2_bits_false by lia. apply andb_true_r.
Qed.

Lemma length_set_bit bi data : length (set_bit bi data) = length data.
Proof. apply length_insert. Qed.

Lemma bit_used_zero b : bit_used zero_block b = false.
Proof.
  rewrite bit_used_testbit. unfold bmbyte, zero_block.
  destruct (replicate (Z.to_nat BSIZE) 0 !! Z.to_nat (b / 8)) as [x|] eqn:E; [|apply Z.bits_0].
  apply lookup_replicate in E as [-> _]. apply Z.bits_0.
Qed.

(** The search finds the first block that is free. *)
Lemma find_clear_Some fuel data b size bi r :
  find_clear fuel data b size bi = Some r ->
  bi <= r /\ r < BPB /\ b + r < size /\ bit_used data r = false /\
  forall i, bi <= i < r -> bit_used data i = true.
Proof.
  revert bi. induction fuel as [|fuel IH]; intros bi H; simpl in H; [done|].
  destruct (Z.ltb_spec bi BPB), (Z.ltb_spec (b + bi) size); simpl in H; try done.
  destruct (bit_used data bi) eqn:E.
  - destruct (IH _ H) as (A1 & A2 & A3 & A4 & A5). split_and!; try done; [lia|].
    intros i Hi. destruct (decide (i = bi)) as [->|]; [done|]. apply A5. lia.
  - injection H as <-. split_and!; try done; intros; lia.
Qed.

Lemma find_clear_None fuel data b size bi :
  find_clear fuel data b size bi = None -> BPB - bi <= Z.of_nat fuel ->
  forall i, bi <= i < BPB -> b + i < size -> bit_used data i = true.
Proof.
  revert bi. induction fuel as [|fuel IH]; intros bi H Hf i Hi Hs; [lia|]. simpl in H.
  destruct (Z.ltb_spec bi BPB), (Z.ltb_spec (b + bi) size); simpl in H; try lia.
  destruct (bit_used data bi) eqn:E; [|done].
  destruct (decide (i = bi)) as [->|]; [done|]. apply (IH (bi + 1)); [done|lia|lia|done].
Qed.
