(* ===== verification/Console.v ===== *)
(** * kernel/console.c: console input and output

    With [uartintr] of [uart.c], which feeds [consoleintr], and [procdump] of
    [proc.c], which it calls. *)

From S2P Require Import Prelude Param Mem CString Kernel Spinlock Kalloc Sched Sleeplock Vm PageTable UserCopy Uart Printf.
Open Scope Z_scope.

Definition INPUT_BUF_SIZE : Z := 128.
Definition CONSOLE : nat := 1.

(** [C(x)]: control characters *)
Definition C_ (x : Z) : Z := x - 64.
Definition ctl_P : Z := C_ 80.
Definition ctl_U : Z := C_ 85.
Definition ctl_H : Z := C_ 72.
Definition ctl_D : Z := C_ 68.
Definition DEL : Z := 127.
Definition newline : Z := 10.
Definition carriage_return : Z := 13.

Definition set_cons_buf (b : list Z) (c : console) : console := mkcons b (cons_r c) (cons_w c) (cons_e c).
Definition set_cons_r (r : Z) (c : console) : console := mkcons (cons_buf c) r (cons_w c) (cons_e c).
Definition set_cons_w (w : Z) (c : console) : console := mkcons (cons_buf c) (cons_r c) w (cons_e c).
Definition set_cons_e (e : Z) (c : console) : console := mkcons (cons_buf c) (cons_r c) (cons_w c) e.
Definition put_cons (f : console -> console) : K unit := modify (fun s => set_cons (f (k_cons s)) s).

(** [cons.buf[i % INPUT_BUF_SIZE]] *)
Definition cons_char (c : console) (i : Z) : Z := default 0 (cons_buf c !! Z.to_nat (i mod INPUT_BUF_SIZE)).
Definition store_char (i x : Z) (c : console) : console :=
  set_cons_buf (<[Z.to_nat (i mod INPUT_BUF_SIZE) := u8 x]> (cons_buf c)) c.

Section console.
Context `{D : Devices, L : Linker}.

(** ** [procdump] of proc.c *)

Definition state_name (st : procstate) : list Z :=
  match st with
  | UNUSED => bytes_of "unused" | USED => bytes_of "used" | SLEEPING => bytes_of "sleep "
  | RUNNABLE => bytes_of "runble" | RUNNING => bytes_of "run   " | ZOMBIE => bytes_of "zombie"
  end.

(** The bytes of a name up to its terminator. *)
Fixpoint until_nul (l : list Z) : list Z :=
  match l with
  | [] => []
  | c :: l => if c =? 0 then [] else c :: until_nul l
  end.

Definition procdump : K unit :=
  do! printf [newline] [];
  kfor (seq 0 NPROC) (fun i =>
    let! p := gets (fun s => proc_at s i) in
    if bool_decide (p_state p = UNUSED) then kret tt else
    do! printf (bytes_of "%d %s %s")
          [Parg (p_pid p); Pstr (Some (state_name (p_state p))); Pstr (Some (until_nul (p_name p)))];
    printf [newline] []).

(** ** Writing *)

(** The loop of [consolewrite] from [i]: how many characters were written. *)
Fixpoint consolewrite_loop (fuel : nat) (x : src) (i n : Z) : K Z :=
  match fuel with
  | O => fun _ => NoFuel
  | S fuel =>
    if i <? n then
      let! (r, bs) := either_copyin (src_add x i) 1 in
      if r =? -1 then kret i else
      do! uartputc (hd 0 bs);
      consolewrite_loop fuel x (i + 1) n
    else kret i
  end.

Definition consolewrite (x : src) (n : Z) : K Z := consolewrite_loop (S (Z.to_nat n)) x 0 n.

(** ** Reading *)

(** [while(cons.r == cons.w)]: [false] when the process was killed. *)
Fixpoint cons_wait (fuel : nat) : K bool :=
  match fuel with
  | O => fun _ => NoFuel
  | S fuel =>
    let! c := gets (fun s => k_cons s) in
    if cons_r c =? cons_w c then
      let! p := curproc in
      let! k := killed p in
      if negb (k =? 0) then
        do! release LKcons;
        kret false
      else
        do! sleep CHcons LKcons;
        cons_wait fuel
    else kret true
  end.

(** The bytes still wanted when the loop ends, [None] when killed. *)
Fixpoint consoleread_loop (fuel : nat) (d : dst) (target n : Z) : K (option Z) :=
  match fuel with
  | O => fun _ => NoFuel
  | S fuel =>
    if n >? 0 then
      let! ok := cons_wait wakeups in
      if negb ok then kret None else
      let! cs := gets (fun s => k_cons s) in
      let c := cons_char cs (cons_r cs) in
      do! put_cons (fun x => set_cons_r (u32 (cons_r x + 1)) x);
      if c =? ctl_D then
        do! if! n <? target then put_cons (fun x => set_cons_r (u32 (cons_r x - 1)) x);
        kret (Some n)
      else
      let! (r, _) := either_copyout d [c] in
      if r =? -1 then kret (Some n) else
      if c =? newline then kret (Some (n - 1)) else
      consoleread_loop fuel (dst_add d 1) target (n - 1)
    else kret (Some n)
  end.

Definition consoleread (d : dst) (n : Z) : K Z :=
  do! acquire LKcons;
  let! r := consoleread_loop (S (Z.to_nat n)) d n n in
  match r with
  | None => kret (-1)
  | Some rest =>
    do! release LKcons;
    kret (n - rest)
  end.

(** ** Input *)

(** [while(cons.e != cons.w && cons.buf[(cons.e-1) % SIZE] != '\n')]: at most
    a bufferful. *)
Fixpoint kill_line (fuel : nat) : K unit :=
  match fuel with
  | O => fun _ => NoFuel
  | S fuel =>
    let! c := gets (fun s => k_cons s) in
    if negb (cons_e c =? cons_w c) && negb (cons_char c (u32 (cons_e c - 1)) =? newline) then
      do! put_cons (fun x => set_cons_e (u32 (cons_e x - 1)) x);
      do! consputc BACKSPACE;
      kill_line fuel
    else kret tt
  end.

Definition consoleintr (c : Z) : K unit :=
  do! acquire LKcons;
  do!
    (if c =? ctl_P then procdump
     else if c =? ctl_U then kill_line (S (Z.to_nat INPUT_BUF_SIZE))
     else if (c =? ctl_H) || (c =? DEL) then
       let! x := gets (fun s => k_cons s) in
       if! negb (cons_e x =? cons_w x) then
         (do! put_cons (fun x => set_cons_e (u32 (cons_e x - 1)) x);
          consputc BACKSPACE)
     else
       let! x := gets (fun s => k_cons s) in
       if! negb (c =? 0) && (u32 (cons_e x - cons_r x) <? INPUT_BUF_SIZE) then
         (let c := if c =? carriage_return then newline else c in
          do! consputc c;
          do! put_cons (fun x => store_char (cons_e x) c x);
          do! put_cons (fun x => set_cons_e (u32 (cons_e x + 1)) x);
          let! x := gets (fun s => k_cons s) in
          if! (c =? newline) || (c =? ctl_D) || (u32 (cons_e x - cons_r x) =? INPUT_BUF_SIZE) then
            (do! put_cons (fun x => set_cons_w (cons_e x) x);
             wakeup CHcons)));
  release LKcons.

Definition consoleinit : K unit :=
  do! initlock LKcons;
  do! uartinit;
  modify (fun s => set_devsw (<[CONSOLE := Some DEVconsole]> (k_devsw s)) s).

(** [while(1){ c = uartgetc(); if(c == -1) break; consoleintr(c); }] *)
Fixpoint uartintr_loop (fuel : nat) : K unit :=
  match fuel with
  | O => fun _ => NoFuel
  | S fuel =>
    let! c := uartgetc in
    if c =? -1 then kret tt else
    do! consoleintr c;
    uartintr_loop fuel
  end.

Definition uartintr : K unit :=
  do! uartintr_loop polls;
  do! acquire LKuart;
  do! uartstart;
  release LKuart.

End console.
