(* ===== verification/ConsoleLine.v ===== *)
(** * The line discipline of kernel/console.c

    The contract of [consoleintr]: the input buffer of the console, with its
    three 32-bit indices that wrap around, is a pair of queues, the input that
    readers may take and the line being edited.  The serial port is assumed to
    be ready to send whenever it is asked; everything sent is recorded. *)

From S2P Require Import Prelude Param Mem CString Kernel Spinlock Kalloc Sched Sleeplock Vm PageTable UserCopy Uart Printf Console.
Open Scope Z_scope.

(** ** The buffer *)

Record cons_is (c : console) (ready edit : list Z) : Prop := {
  ci_buf : Z.of_nat (length (cons_buf c)) = INPUT_BUF_SIZE;
  ci_size : Z.of_nat (length ready + length edit) <= INPUT_BUF_SIZE;
  ci_r : 0 <= cons_r c < 2 ^ 32;
  ci_w : cons_w c = u32 (cons_r c + Z.of_nat (length ready));
  ci_e : cons_e c = u32 (cons_r c + Z.of_nat (length ready + length edit));
  ci_chars i x : (ready ++ edit) !! i = Some x -> cons_char c (cons_r c + Z.of_nat i) = x;
  ci_line : ~ In newline edit
}.

(** What a key does to the two queues. *)
Definition discipline (c : Z) (st : list Z * list Z) : list Z * list Z :=
  let (ready, edit) := st in
  if c =? ctl_U then (ready, [])
  else if (c =? ctl_H) || (c =? DEL) then (ready, removelast edit)
  else if (c =? 0) || (INPUT_BUF_SIZE <=? Z.of_nat (length ready + length edit)) then (ready, edit)
  else
    let c := if c =? carriage_return then newline else c in
    if (c =? newline) || (c =? ctl_D) || (Z.of_nat (length ready + length edit) + 1 =? INPUT_BUF_SIZE)
    then (ready ++ edit ++ [c], [])
    else (ready, edit ++ [c]).

Definition erase : list Z := [8; 32; 8].

(** What a key makes appear on the terminal. *)
Definition echo (c : Z) (st : list Z * list Z) : list Z :=
  let (ready, edit) := st in
  if c =? ctl_U then concat (replicate (length edit) erase)
  else if (c =? ctl_H) || (c =? DEL) then (if bool_decide (edit = []) then [] else erase)
  else if (c =? 0) || (INPUT_BUF_SIZE <=? Z.of_nat (length ready + length edit)) then []
  else [if c =? carriage_return then newline else c].

Lemma char_u32 c i j : cons_char c (u32 i + j) = cons_char c (i + j).
Proof. unfold cons_char, u32, INPUT_BUF_SIZE. do 3 f_equal. zlia. Qed.

Lemma removelast_take (l : list Z) : removelast l = take (length l - 1) l.
Proof.
  induction l as [|x l IH]; [done|]. destruct l as [|y l]; [done|].
  change (removelast (x :: y :: l)) with (x :: removelast (y :: l)). rewrite IH. simpl. by rewrite Nat.sub_0_r.
Qed.

(** Taking back the last character of the line. *)
Lemma erase_is c ready edit :
  cons_is c ready edit -> edit <> [] -> cons_is (set_cons_e (u32 (cons_e c - 1)) c) ready (removelast edit).
Proof.
  intros [H1 H2 H3 H4 H5 H6 H7] Hne. rewrite removelast_take.
  assert (Hl : (0 < length edit)%nat) by (destruct edit; simpl; [done|lia]).
  split; cbn [set_cons_e cons_buf cons_r cons_w cons_e]; rewrite ?length_take; try done; [lia| | |].
  - rewrite H5. unfold u32. rewrite Zminus_mod_idemp_l. f_equal. lia.
  - intros i x Hi. apply (H6 i). rewrite lookup_app in Hi |- *.
    destruct (ready !! i); [done|]. apply lookup_take_Some in Hi. apply Hi.
  - intros Hin. apply H7. rewrite <- (take_drop (length edit - 1) edit). apply in_or_app. by left.
Qed.

(** The last character is not where the readable input ends. *)
Lemma edit_empty_iff c ready edit : cons_is c ready edit -> cons_e c = cons_w c <-> edit = [].
Proof.
  intros [H1 H2 H3 H4 H5 _ _]. rewrite H4, H5. unfold u32, INPUT_BUF_SIZE in *. split.
  - intros E. apply nil_length_inv. zlia.
  - intros ->. simpl. do 2 f_equal. lia.
Qed.

Lemma edit_last c ready edit :
  cons_is c ready edit -> edit <> [] -> cons_char c (u32 (cons_e c - 1)) <> newline.
Proof.
  intros Hc Hne. pose proof Hc as [H1 H2 H3 H4 H5 H6 H7].
  destruct (exists_last Hne) as (l & x & ->). rewrite H5.
  assert (E : cons_char c (u32 (u32 (cons_r c + Z.of_nat (length ready + length (l ++ [x]))) - 1)) = x).
  { rewrite <- (Z.add_0_r (u32 (_ - 1))), char_u32, Z.add_0_r, length_app. simpl.
    replace (u32 (cons_r c + Z.of_nat (length ready + (length l + 1))) - 1)
      with (u32 (cons_r c + Z.of_nat (length ready + (length l + 1))) + -1) by lia.
    rewrite char_u32. replace (cons_r c + Z.of_nat (length ready + (length l + 1)) + -1)
      with (cons_r c + Z.of_nat (length ready + length l)) by lia.
    apply H6. rewrite lookup_app_r by lia. replace (length ready + length l - length ready)%nat with (length l) by lia.
    rewrite lookup_app_r, Nat.sub_diag by lia. done. }
  rewrite E. intros ->. apply H7. apply in_or_app. right. by left.
Qed.

(** Storing a character behind the line. *)
Lemma store_is c ready edit x :
  cons_is c ready edit -> Z.of_nat (length ready + length edit) < INPUT_BUF_SIZE -> 0 <= x < 256 ->
  let c' := store_char (cons_e c) x c in
  let c' := set_cons_e (u32 (cons_e c' + 1)) c' in
  (x <> newline -> cons_is c' ready (edit ++ [x])) /\
  cons_is (set_cons_w (cons_e c') c') (ready ++ edit ++ [x]) [].
Proof.
  intros [H1 H2 H3 H4 H5 H6 H7] Hlt Hx c1 c2.
  assert (Hb : Z.of_nat (length (cons_buf c2)) = INPUT_BUF_SIZE).
  { unfold c2, c1, store_char. cbn [set_cons_e set_cons_buf cons_buf]. by rewrite length_insert. }
  assert (He : cons_e c2 = u32 (cons_r c + (Z.of_nat (length ready + length edit) + 1))).
  { unfold c2, c1. cbn [set_cons_e store_char set_cons_buf cons_e]. rewrite H5. unfold u32.
    rewrite Zplus_mod_idemp_l. f_equal. lia. }
  assert (Hch : forall i y, (ready ++ edit ++ [x]) !! i = Some y -> cons_char c2 (cons_r c + Z.of_nat i) = y).
  { intros i y Hi. unfold cons_char, c2, c1, store_char. cbn [set_cons_e set_cons_buf cons_buf]. rewrite H5.
    assert (Hi' := lookup_lt_Some _ _ _ Hi). rewrite !length_app in Hi'. simpl in Hi'.
    assert (Hm : u32 (cons_r c + Z.of_nat (length ready + length edit)) mod INPUT_BUF_SIZE =
      (cons_r c + Z.of_nat (length ready + length edit)) mod INPUT_BUF_SIZE) by (unfold u32, INPUT_BUF_SIZE; zlia).
    rewrite Hm. destruct (decide (i = (length ready + length edit)%nat)) as [->|Hne].
    - rewrite list_lookup_insert_eq.
      + rewrite app_assoc, lookup_app_r in Hi by (rewrite length_app; lia). rewrite length_app, Nat.sub_diag in Hi.
        injection Hi as <-. simpl. by apply u8_small.
      + unfold INPUT_BUF_SIZE in *. zlia.
    - rewrite list_lookup_insert_ne by (unfold INPUT_BUF_SIZE in *; zlia). apply (H6 i).
      rewrite app_assoc, lookup_app_l in Hi by (rewrite length_app; lia). done. }
  split.
  - intros Hnl. split; try done.
    + rewrite length_app. simpl. lia.
    + rewrite He, length_app. simpl. do 2 f_equal. lia.
    + rewrite in_app_iff. simpl. intuition congruence.
  - assert (Hl : length (ready ++ edit ++ [x]) = (length ready + length edit + 1)%nat).
    { rewrite !length_app. simpl. lia. }
    split; cbn [set_cons_w cons_buf cons_r cons_w cons_e]; rewrite ?Hl; try done; simpl length.
    + lia.
    + rewrite He. do 2 f_equal. lia.
    + rewrite He. do 2 f_equal. lia.
    + intros i y Hi. rewrite app_nil_r in Hi. by apply Hch.
    + tauto.
Qed.

(** ** Sending *)

(** The bytes put into the transmit register. *)
Definition sends (io : list ioev) : list Z :=
  omap (fun ev => match ev with IoWrite a v => if a =? UART0 + THR then Some v else None | IoRead _ _ => None end) io.

Lemma sends_app io1 io2 : sends (io1 ++ io2) = sends io1 ++ sends io2.
Proof. apply omap_app. Qed.

Section run.
Context `{D : Devices, L : Linker}.
Hypothesis tx_idle : forall hist, Z.land (dev_read hist (UART0 + LSR)) LSR_TX_IDLE <> 0.

(** A bit of the low byte is the same in the byte. *)
Lemma land_u8 x k : Z.land k 255 = k -> Z.land (u8 x) k = Z.land x k.
Proof using.
  intros <-. rewrite (Z.land_comm k), !Z.land_assoc. f_equal. unfold u8. change 255 with (Z.ones 8).
  rewrite <- Z.land_ones by lia. by rewrite <- Z.land_assoc, Z.land_diag.
Qed.

(** The program sends [l] and changes nothing but the record of accesses. *)
Definition transmits (k : K unit) (l : list Z) : Prop :=
  forall t, nested t -> panicked (k_pr t) = false ->
  exists io, k t = Ret tt (set_io (k_io t ++ io) t) /\ sends io = l.

Lemma uartputc_sync_transmits c : transmits (uartputc_sync c) [u8 c].
Proof using tx_idle.
  intros t Ht Hp. pose proof Ht as [Hc Hn]. pose proof Hc as (Htp & _ & _).
  set (v := u8 (dev_read (k_io t) (UART0 + LSR))).
  exists [IoRead (UART0 + LSR) v; IoWrite (UART0 + THR) (u8 c)]. split; [|reflexivity].
  unfold uartputc_sync. krun (push_off_run t Htp). rewrite kbind_gets. change (k_pr (pushed t)) with (k_pr t).
  rewrite Hp.
  assert (R : wait_tx_idle polls (pushed t) = Ret tt (set_io (k_io t ++ [IoRead (UART0 + LSR) v]) (pushed t))).
  { change polls with (S 999). cbn [wait_tx_idle]. unfold ReadReg, mmio_read, kbind, obind.
    change (k_io (pushed t)) with (k_io t). fold v. pose proof (tx_idle (k_io t)) as Hi.
    rewrite <- land_u8 in Hi by done. fold v in Hi. apply Z.eqb_neq in Hi. by rewrite Hi. }
  krun R. unfold WriteReg, mmio_write. rewrite kbind_modify. pose proof (cpu_ok_pushed t Hc) as (P1 & P2 & P3).
  rewrite pop_off_run.
  - f_equal. transitivity (set_io (k_io t ++ [IoRead (UART0 + LSR) v; IoWrite (UART0 + THR) (u8 c)]) (popped (pushed t))).
    + cbn [k_io set_io]. by rewrite <- app_assoc.
    + by rewrite popped_pushed, nested_norm.
  - exact P1.
  - change (mycpu (set_io _ _)) with (mycpu (pushed t)). by rewrite mycpu_pushed.
  - change (mycpu (set_io _ _)) with (mycpu (pushed t)). rewrite mycpu_pushed by done. simpl. lia.
Qed.

Lemma transmits_seq k1 k2 l1 l2 :
  transmits k1 l1 -> transmits k2 l2 -> transmits (do! k1; k2) (l1 ++ l2).
Proof using.
  intros H1 H2 t Ht Hp. destruct (H1 t Ht Hp) as (io1 & R1 & E1).
  destruct (H2 (set_io (k_io t ++ io1) t) Ht Hp) as (io2 & R2 & E2).
  exists (io1 ++ io2). split; [|by rewrite sends_app, E1, E2].
  krun R1. rewrite R2. cbn [k_io set_io]. by rewrite app_assoc.
Qed.

Lemma consputc_transmits c : 0 <= c < 256 -> transmits (consputc c) [c].
Proof using tx_idle.
  intros Hc. unfold consputc. destruct (Z.eqb_spec c BACKSPACE) as [->|]; [unfold BACKSPACE in Hc; lia|].
  rewrite <- (u8_small c Hc) at 2. apply uartputc_sync_transmits.
Qed.

Lemma consputc_erase : transmits (consputc BACKSPACE) erase.
Proof using tx_idle.
  change erase with ([u8 8] ++ [u8 32] ++ [u8 8]).
  apply transmits_seq; [apply uartputc_sync_transmits|].
  apply transmits_seq; apply uartputc_sync_transmits.
Qed.

(** ** Keys *)

(** A key handled inside the critical section: from queues [st] to [st'],
    with [l] on the terminal. *)
Definition handles (k : K unit) (t : kst) (st' : list Z * list Z) (l : list Z) : Prop :=
  exists c' io, k t = Ret tt (set_io (k_io t ++ io) (set_cons c' t)) /\
    cons_is c' st'.1 st'.2 /\ sends io = l.

Lemma kill_line_handles fuel t ready edit :
  nested t -> panicked (k_pr t) = false -> cons_is (k_cons t) ready edit -> (length edit < fuel)%nat ->
  handles (kill_line fuel) t (ready, []) (concat (replicate (length edit) erase)).
Proof using tx_idle.
  revert t edit. induction fuel as [|fuel IH]; intros t edit Ht Hp Hc Hf; [lia|]. cbn [kill_line].
  unfold handles. rewrite kbind_gets. destruct (decide (edit = [])) as [->|Hne].
  - exists (k_cons t), []. rewrite (proj2 (edit_empty_iff _ _ _ Hc) eq_refl), Z.eqb_refl. cbn [negb andb].
    split; [|split; [exact Hc|done]]. rewrite app_nil_r. reflexivity.
  - destruct (Z.eqb_spec (cons_e (k_cons t)) (cons_w (k_cons t))) as [E|_]; [by apply (edit_empty_iff _ _ _ Hc) in E|].
    pose proof (edit_last _ _ _ Hc Hne) as Hl. apply Z.eqb_neq in Hl. rewrite Hl. cbn [negb andb].
    unfold put_cons. rewrite kbind_modify. set (c1 := set_cons_e _ (k_cons t)).
    pose proof (erase_is _ _ _ Hc Hne) as Hc1. fold c1 in Hc1.
    destruct (consputc_erase (set_cons c1 t) Ht Hp) as (io1 & R1 & E1).
    destruct (IH (set_io (k_io t ++ io1) (set_cons c1 t)) (removelast edit) Ht Hp Hc1) as (c' & io & R & Hc' & E).
    { rewrite removelast_take, length_take. destruct edit; simpl in *; [done|lia]. }
    exists c', (io1 ++ io). split; [|split; [exact Hc'|]].
    + krun R1. etransitivity; [exact R|]. cbn [k_io set_io]. by rewrite app_assoc.
    + rewrite sends_app, E1, E, removelast_take, length_take.
      destruct edit as [|x edit]; [done|]. cbn [length replicate concat]. do 3 f_equal. lia.
Qed.

Lemma erase_handles t ready edit :
  nested t -> panicked (k_pr t) = false -> cons_is (k_cons t) ready edit ->
  handles (let! x := gets (fun s => k_cons s) in
    if! negb (cons_e x =? cons_w x) then
      (do! put_cons (fun x => set_cons_e (u32 (cons_e x - 1)) x); consputc BACKSPACE))
    t (ready, removelast edit) (if bool_decide (edit = []) then [] else erase).
Proof using tx_idle.
  intros Ht Hp Hc. unfold handles. rewrite kbind_gets. case_bool_decide as Hne.
  - subst edit. rewrite (proj2 (edit_empty_iff _ _ _ Hc) eq_refl), Z.eqb_refl. cbn [negb].
    exists (k_cons t), []. split; [|split; [exact Hc|done]]. rewrite app_nil_r. reflexivity.
  - destruct (Z.eqb_spec (cons_e (k_cons t)) (cons_w (k_cons t))) as [E|_]; [by apply (edit_empty_iff _ _ _ Hc) in E|].
    cbn [negb]. unfold put_cons. rewrite kbind_modify. set (c1 := set_cons_e _ (k_cons t)).
    destruct (consputc_erase (set_cons c1 t) Ht Hp) as (io1 & R1 & E1).
    exists c1, io1. split; [exact R1|]. split; [exact (erase_is _ _ _ Hc Hne)|exact E1].
Qed.

(** How full the buffer is, as the code computes it. *)
Lemma fill_level c ready edit :
  cons_is c ready edit -> u32 (cons_e c - cons_r c) = Z.of_nat (length ready + length edit).
Proof using.
  intros [H1 H2 H3 H4 H5 _ _]. rewrite H5. unfold u32, INPUT_BUF_SIZE in *. zlia.
Qed.

Section key.
Context (s : kst) (ready edit : list Z).
Hypothesis Hs : sched_ok s.
Hypothesis Hlk : is_free LKcons s.
Hypothesis Hpan : panicked (k_pr s) = false.
Hypothesis Hcons : cons_is (k_cons s) ready edit.

Let t := acquired LKcons s.

(** The processes after a key: the readers are woken when there is more to
    read. *)
Definition key_procs (st' : list Z * list Z) : list proc :=
  if bool_decide (st'.1 = ready) then k_procs s
  else imap (woken CHcons (c_proc (mycpu s))) (k_procs s).

(** The state when [consoleintr] returns. *)
Definition key_done (st' : list Z * list Z) (c' : console) (io : list ioev) : kst :=
  set_procs (key_procs st') (set_io (k_io s ++ io) (set_cons c' (norm s))).

Lemma key_release st' c' io :
  release LKcons (set_procs (key_procs st') (set_io (k_io s ++ io) (set_cons c' t))) = Ret tt (key_done st' c' io).
Proof using Hs Hlk. rewrite (release_after LKcons s); [done|apply Hs|done..]. Qed.

Lemma key_wakeup c' io :
  wakeup CHcons (set_io (k_io s ++ io) (set_cons c' t)) =
  Ret tt (set_procs (imap (woken CHcons (c_proc (mycpu s))) (k_procs s)) (set_io (k_io s ++ io) (set_cons c' t))).
Proof using Hs.
  apply wakeup_acquired; try done. intros i Hi. unfold is_free. simpl.
  rewrite lookup_insert_ne by done. by apply (so_free _ Hs).
Qed.

(** Any other key: it is stored if there is room, and ends the line if it is
    a newline, an end of file or the last that fits. *)
Lemma store_handles c :
  0 <= c < 256 -> c <> ctl_U -> c <> ctl_H -> c <> DEL ->
  let st' := discipline c (ready, edit) in
  exists c' io,
    (let! x := gets (fun s => k_cons s) in
     if! negb (c =? 0) && (u32 (cons_e x - cons_r x) <? INPUT_BUF_SIZE) then
       (let c := if c =? carriage_return then newline else c in
        do! consputc c;
        do! put_cons (fun x => store_char (cons_e x) c x);
        do! put_cons (fun x => set_cons_e (u32 (cons_e x + 1)) x);
        let! x := gets (fun s => k_cons s) in
        if! (c =? newline) || (c =? ctl_D) || (u32 (cons_e x - cons_r x) =? INPUT_BUF_SIZE) then
          (do! put_cons (fun x => set_cons_w (cons_e x) x);
           wakeup CHcons))) t =
    Ret tt (set_procs (key_procs st') (set_io (k_io s ++ io) (set_cons c' t))) /\
    cons_is c' st'.1 st'.2 /\ sends io = echo c (ready, edit).
Proof using tx_idle Hs Hpan Hcons.
  intros Hc HU HH HD. cbv zeta. rewrite kbind_gets. change (k_cons t) with (k_cons s).
  rewrite (fill_level _ _ _ Hcons). unfold discipline, echo, key_procs.
  destruct (Z.eqb_spec c ctl_U) as [|_]; [done|]. destruct (Z.eqb_spec c ctl_H) as [|_]; [done|].
  destruct (Z.eqb_spec c DEL) as [|_]; [done|]. cbn [orb].
  assert (Hnop : (Ret tt t : outcome unit) = Ret tt (set_procs (k_procs s) (set_io (k_io s ++ []) (set_cons (k_cons s) t)))).
  { rewrite app_nil_r. reflexivity. }
  destruct (Z.eqb_spec c 0) as [->|_]; cbn [negb andb orb].
  { exists (k_cons s), []. cbn [fst]. rewrite bool_decide_true by done. split; [exact Hnop|done]. }
  destruct (Z.ltb_spec (Z.of_nat (length ready + length edit)) INPUT_BUF_SIZE) as [Hlt|Hge], 
    (Z.leb_spec INPUT_BUF_SIZE (Z.of_nat (length ready + length edit))); try lia; cycle 1.
  { exists (k_cons s), []. cbn [fst]. rewrite bool_decide_true by done. split; [exact Hnop|done]. }
  set (c1 := if c =? carriage_return then newline else c).
  assert (Hc1 : 0 <= c1 < 256) by (unfold c1, newline; destruct (c =? carriage_return); lia).
  destruct (consputc_transmits c1 Hc1 t (nested_acquired LKcons s (so_cpu _ Hs)) Hpan) as (io & R & E).
  krun R. unfold put_cons. rewrite !kbind_modify, kbind_gets. cbn [k_cons set_cons set_io].
  change (k_cons t) with (k_cons s). change (k_io t) with (k_io s).
  destruct (store_is _ _ _ c1 Hcons Hlt Hc1) as [Hst Hcommit]. cbv zeta in Hst, Hcommit.
  set (c2 := set_cons_e _ (store_char (cons_e (k_cons s)) c1 (k_cons s))) in *.
  assert (Hfill : u32 (cons_e c2 - cons_r c2) = Z.of_nat (length ready + length edit) + 1).
  { pose proof Hcons as [H1 H2 H3 H4 H5 _ _]. unfold c2. cbn [set_cons_e store_char set_cons_buf cons_e cons_r]. rewrite H5.
    unfold u32, INPUT_BUF_SIZE in *. zlia. }
  rewrite Hfill.
  destruct ((c1 =? newline) || (c1 =? ctl_D) || (Z.of_nat (length ready + length edit) + 1 =? INPUT_BUF_SIZE)) eqn:Ecm.
  - exists (set_cons_w (cons_e c2) c2), io. cbn [fst snd]. rewrite bool_decide_false.
    + split; [|split; [exact Hcommit|exact E]]. rewrite kbind_modify.
      match goal with |- wakeup _ ?x = _ =>
        change x with (set_io (k_io s ++ io) (set_cons (set_cons_w (cons_e c2) c2) t)) end.
      exact (key_wakeup (set_cons_w (cons_e c2) c2) io).
    + intros Eq. apply (f_equal length) in Eq. rewrite !length_app in Eq. simpl in Eq. lia.
  - exists c2, io. cbn [fst snd]. rewrite bool_decide_true by done. split; [reflexivity|]. split; [|exact E].
    apply Hst. intros ->. by rewrite Z.eqb_refl in Ecm.
Qed.

(** C25: [consoleintr] is a line editor: whatever the indices of the buffer,
    a key changes the readable input and the line being edited as the line
    discipline says, echoes it on the terminal, and wakes the readers exactly
    when there is more for them to read. *)
Theorem consoleintr_edits c :
  0 <= c < 256 -> c <> ctl_P ->
  let st' := discipline c (ready, edit) in
  exists c' io, consoleintr c s = Ret tt (key_done st' c' io) /\
    cons_is c' st'.1 st'.2 /\ sends io = echo c (ready, edit).
Proof using All.
  intros Hc HP. cbv zeta. unfold consoleintr.
  krun (acquire_run LKcons s (so_cpu _ Hs) Hlk). fold t.
  destruct (Z.eqb_spec c ctl_P) as [|_]; [done|].
  assert (Hn : nested t) by (apply nested_acquired, Hs).
  assert (Hfin : forall (k : K unit) st' l, st'.1 = ready -> handles k t st' l ->
    exists c' io, (do! k; release LKcons) t = Ret tt (key_done st' c' io) /\ cons_is c' st'.1 st'.2 /\ sends io = l).
  { intros k st' l Hst (c' & io & R & Hi & E). exists c', io. split; [|done]. krun R.
    etransitivity; [|apply key_release]. unfold key_procs. rewrite bool_decide_true by done. reflexivity. }
  destruct (Z.eqb_spec c ctl_U) as [->|HU].
  { apply (Hfin _ (ready, [])); [reflexivity|]. apply kill_line_handles; [exact Hn|exact Hpan|exact Hcons|].
    pose proof (ci_size _ _ _ Hcons). unfold INPUT_BUF_SIZE in *. lia. }
  destruct (Z.eqb_spec c ctl_H) as [->|HH].
  { apply (Hfin _ (ready, removelast edit)); [reflexivity|]. apply erase_handles; [exact Hn|exact Hpan|exact Hcons]. }
  destruct (Z.eqb_spec c DEL) as [->|HD].
  { apply (Hfin _ (ready, removelast edit)); [reflexivity|]. apply erase_handles; [exact Hn|exact Hpan|exact Hcons]. }
  cbn [orb]. destruct (store_handles c Hc HU HH HD) as (c' & io & R & Hi & E).
  exists c', io. split; [|done]. krun R. apply key_release.
Qed.
End key.
End run.

(** ** Example *)

Section demo.
#[local] Instance demo_devices : Devices := fun _ _ => 0x20.
#[local] Existing Instance demo_linker.

(** [hi] has been typed, across the point where the indices wrap around. *)
Definition demo_cons : console :=
  mkcons (<[127%nat := 104]> (<[0%nat := 105]> (replicate 128 0))) (2 ^ 32 - 1) (2 ^ 32 - 1) 1.

Lemma demo_cons_is : cons_is demo_cons [] [104; 105].
Proof.
  split; try reflexivity; try (simpl; unfold INPUT_BUF_SIZE; lia).
  - intros [|[|i]] x [= <-]; reflexivity.
  - simpl. unfold newline. lia.
Qed.

(** The return key makes the line readable. *)
Lemma consoleintr_edits_witness : exists c' io,
  consoleintr 13 (set_cons demo_cons demo_ctx) =
    Ret tt (key_done (set_cons demo_cons demo_ctx) [] ([104; 105; 10], []) c' io) /\
  cons_is c' [104; 105; 10] [] /\ sends io = [10].
Proof.
  assert (Hidle : forall hist, Z.land (dev_read hist (UART0 + LSR)) LSR_TX_IDLE <> 0).
  { intros hist. vm_compute. discriminate. }
  apply (consoleintr_edits Hidle (set_cons demo_cons demo_ctx) [] [104; 105]).
  - destruct (ctx_sched _ _ _ demo_ctx_ok) as [H1 H2 H3]. split; [exact H1|exact H2|exact H3].
  - exact (cx_locks _ _ _ demo_ctx_ok LKcons eq_refl).
  - reflexivity.
  - exact demo_cons_is.
  - lia.
  - discriminate.
Defined.
End demo.
