(* ===== verification/Balloc.v ===== *)
(** * Block allocation of kernel/fs.c inside a transaction

    The free map on disk is the set of used blocks, [used]: [balloc] takes the
    lowest free block and [bfree] gives a block back.  The statements are over
    [op_view], so they hold wherever in a transaction the calls are made, with
    other buffers held or not. *)

From stdpp Require Import functions.
From S2P Require Import Prelude Param Mem CString Kernel Spinlock Kalloc Sched Sleeplock Bio BioRules Log Txn Vm PageTable UserCopy Uart Printf Fs Bitmap Console ConsoleLine.
Open Scope Z_scope.

(** ** The free map *)

(** The first block after the bit map. *)
Definition dstart (sb : superblock) : Z := sb_bmapstart sb + sb_size sb / BPB + 1.

(** The layout [mkfs] makes: log, inodes, bit map, data, one after the other. *)
Record sb_ok (sb : superblock) : Prop := {
  sbo_size : 0 < sb_size sb <= 2 ^ 31;
  sbo_log : 0 <= sb_logstart sb /\ sb_logstart sb + LOGSIZE <= sb_inodestart sb;
  sbo_inodes : 0 <= sb_ninodes sb /\ sb_inodestart sb + sb_ninodes sb / IPB < sb_bmapstart sb;
  sbo_data : dstart sb <= sb_size sb
}.

Definition valid_block (sb : superblock) (b : Z) : Prop := 0 <= b < sb_size sb.
Definition data_block (sb : superblock) (b : Z) : Prop := dstart sb <= b < sb_size sb.

(** The bit of block [b]. *)
Definition used (sb : superblock) (C : Z -> block) (b : Z) : bool :=
  bit_used (C (BBLOCK b sb)) (b mod BPB).

(** The bit map has whole blocks and marks everything that is not data. *)
Record bitmap_ok (sb : superblock) (C : Z -> block) : Prop := {
  bo_len b : valid_block sb b -> length (C (BBLOCK b sb)) = Z.to_nat BSIZE;
  bo_meta b : 0 <= b < dstart sb -> used sb C b = true
}.

(** What [balloc] makes of the blocks, and what [bfree] does. *)
Definition allocated (sb : superblock) (r : Z) (C : Z -> block) : Z -> block :=
  <[r := zero_block]> (<[BBLOCK r sb := set_bit (r mod BPB) (C (BBLOCK r sb))]> C).
Definition freed (sb : superblock) (r : Z) (C : Z -> block) : Z -> block :=
  <[BBLOCK r sb := clear_bit (r mod BPB) (C (BBLOCK r sb))]> C.

(** A data block in use. *)
Definition taken (sb : superblock) (C : Z -> block) (x : Z) : Prop :=
  data_block sb x /\ used sb C x = true.

Lemma BPB_pos : 0 < BPB.
Proof. unfold BPB, BSIZE. lia. Qed.

Lemma layout sb : sb_ok sb -> 0 <= sb_logstart sb /\ sb_logstart sb + LOGSIZE <= sb_inodestart sb /\
  0 < sb_inodestart sb < sb_bmapstart sb /\ sb_bmapstart sb < dstart sb /\ dstart sb <= sb_size sb <= 2 ^ 31.
Proof.
  intros [H1 H2 H3 H4]. assert (0 <= sb_ninodes sb / IPB) by (apply Z.div_pos; [lia|reflexivity]).
  assert (0 <= sb_size sb / BPB) by (apply Z.div_pos; [lia|apply BPB_pos]). unfold dstart, LOGSIZE, MAXOPBLOCKS in *. lia.
Qed.

Lemma BBLOCK_range sb b : sb_ok sb -> valid_block sb b ->
  BBLOCK b sb = b / BPB + sb_bmapstart sb /\ sb_bmapstart sb <= BBLOCK b sb < dstart sb.
Proof.
  intros Hs [Hb1 Hb2]. pose proof (layout sb Hs) as Hl. pose proof BPB_pos.
  assert (b / BPB <= sb_size sb / BPB) by (apply Z.div_le_mono; lia).
  assert (0 <= b / BPB) by (apply Z.div_pos; lia). unfold dstart in *.
  assert (BBLOCK b sb = b / BPB + sb_bmapstart sb) as -> by (unfold BBLOCK; rewrite u32_small; lia). lia.
Qed.

Lemma BBLOCK_31 sb b : sb_ok sb -> valid_block sb b -> 0 <= BBLOCK b sb < 2 ^ 31.
Proof. intros Hs Hb. pose proof (BBLOCK_range sb b Hs Hb). pose proof (layout sb Hs). lia. Qed.

Lemma BBLOCK_used sb C b : sb_ok sb -> bitmap_ok sb C -> valid_block sb b -> used sb C (BBLOCK b sb) = true.
Proof.
  intros Hs Ho Hb. pose proof (BBLOCK_range sb b Hs Hb). pose proof (layout sb Hs). apply (bo_meta _ _ Ho). lia.
Qed.

(** A free block is a data block. *)
Lemma free_data sb C r : bitmap_ok sb C -> valid_block sb r -> used sb C r = false -> data_block sb r.
Proof.
  intros Ho Hr Hu. split; [|apply Hr]. destruct (Z.lt_ge_cases r (dstart sb)) as [Hlt|]; [|done].
  rewrite (bo_meta _ _ Ho r) in Hu; [done|]. destruct Hr. lia.
Qed.

Lemma data_valid sb b : sb_ok sb -> data_block sb b -> valid_block sb b.
Proof. intros Hs [H1 H2]. pose proof (layout sb Hs). unfold valid_block. lia. Qed.

Lemma data_not_map sb b x : sb_ok sb -> valid_block sb b -> data_block sb x -> BBLOCK b sb <> x.
Proof. intros Hs Hb [H1 H2] E. pose proof (BBLOCK_range sb b Hs Hb). lia. Qed.

(** Blocks of one bit-map block differ in their bit. *)
Lemma BBLOCK_inj sb b b' : sb_ok sb -> valid_block sb b -> valid_block sb b' ->
  BBLOCK b sb = BBLOCK b' sb -> b mod BPB = b' mod BPB -> b = b'.
Proof.
  intros Hs Hb Hb' E Em. rewrite (proj1 (BBLOCK_range sb b Hs Hb)), (proj1 (BBLOCK_range sb b' Hs Hb')) in E.
  pose proof (Z.div_mod b BPB). pose proof (Z.div_mod b' BPB). unfold BPB, BSIZE in *. lia.
Qed.

(** The multiple of [k] below a number. *)
Lemma div_aligned k b x : 0 < k -> b mod k = 0 -> b <= x < b + k -> x / k = b / k /\ x mod k = x - b.
Proof.
  intros Hk Hb Hx. pose proof (Z.div_mod b k ltac:(lia)) as E.
  assert (Ed : x / k = b / k) by (symmetry; apply (Z.div_unique x k (b / k) (x - b)); lia).
  split; [done|]. pose proof (Z.div_mod x k ltac:(lia)). rewrite Ed in *. lia.
Qed.

Lemma in_map_mod sb C b : bitmap_ok sb C -> valid_block sb b -> in_map (C (BBLOCK b sb)) (b mod BPB).
Proof.
  intros Ho Hb. unfold in_map. rewrite (bo_len _ _ Ho b Hb). pose proof (Z.mod_pos_bound b BPB BPB_pos).
  unfold BPB, BSIZE in *. lia.
Qed.

(** The bits of one map block. *)
Lemma used_group sb C b x :
  b mod BPB = 0 -> b <= x < b + BPB -> used sb C x = bit_used (C (BBLOCK b sb)) (x - b).
Proof.
  intros Hb Hx. unfold used, BBLOCK. by destruct (div_aligned BPB b x BPB_pos Hb Hx) as [-> ->].
Qed.

(** The map after one bit has been written. *)
Lemma used_write sb C r x (v : bool) (g : block -> block) :
  sb_ok sb -> valid_block sb r -> valid_block sb x ->
  (forall b, 0 <= b -> bit_used (g (C (BBLOCK r sb))) b =
    if b =? r mod BPB then v else bit_used (C (BBLOCK r sb)) b) ->
  used sb (<[BBLOCK r sb := g (C (BBLOCK r sb))]> C) x = if x =? r then v else used sb C x.
Proof.
  intros Hs Hr Hx Hg. unfold used. destruct (decide (BBLOCK x sb = BBLOCK r sb)) as [E|E].
  - rewrite E, fn_lookup_insert, Hg by (apply Z.mod_pos_bound, BPB_pos).
    destruct (Z.eqb_spec (x mod BPB) (r mod BPB)) as [Em|Em], (Z.eqb_spec x r) as [->|Hne]; try done.
    by destruct (Hne (BBLOCK_inj sb x r Hs Hx Hr E Em)).
  - rewrite fn_lookup_insert_ne by done. by destruct (Z.eqb_spec x r) as [->|].
Qed.

Lemma used_allocated sb C r x :
  sb_ok sb -> bitmap_ok sb C -> valid_block sb r -> used sb C r = false -> valid_block sb x ->
  used sb (allocated sb r C) x = if x =? r then true else used sb C x.
Proof.
  intros Hs Ho Hr Hu Hx. rewrite <- (used_write sb C r x true (set_bit (r mod BPB))); try done.
  - unfold allocated, used. rewrite fn_lookup_insert_ne; [done|]. intros E.
    pose proof (BBLOCK_used sb C x Hs Ho Hx). congruence.
  - intros b Hb. apply bit_used_set; [by eapply in_map_mod|done].
Qed.

Lemma used_freed sb C r x :
  sb_ok sb -> bitmap_ok sb C -> valid_block sb r -> valid_block sb x ->
  used sb (freed sb r C) x = if x =? r then false else used sb C x.
Proof.
  intros Hs Ho Hr Hx. apply used_write; try done.
  intros b Hb. apply bit_used_clear; [by eapply in_map_mod|done].
Qed.

Lemma allocated_ok sb C r :
  sb_ok sb -> bitmap_ok sb C -> valid_block sb r -> used sb C r = false ->
  bitmap_ok sb (allocated sb r C).
Proof.
  intros Hs Ho Hr Hu. split.
  - intros b Hb. unfold allocated. rewrite fn_lookup_insert_ne.
    + destruct (decide (BBLOCK b sb = BBLOCK r sb)) as [->|E].
      * rewrite fn_lookup_insert, length_set_bit. by apply (bo_len _ _ Ho).
      * rewrite fn_lookup_insert_ne by done. by apply (bo_len _ _ Ho).
    + intros E. pose proof (BBLOCK_used sb C b Hs Ho Hb). congruence.
  - intros b Hb. pose proof (layout sb Hs). rewrite used_allocated by (done || unfold valid_block; lia).
    rewrite (bo_meta _ _ Ho b Hb). by case_match.
Qed.

Lemma freed_ok sb C r :
  sb_ok sb -> bitmap_ok sb C -> data_block sb r -> bitmap_ok sb (freed sb r C).
Proof.
  intros Hs Ho Hr. split.
  - intros b Hb. unfold freed. destruct (decide (BBLOCK b sb = BBLOCK r sb)) as [E|E].
    + rewrite E, fn_lookup_insert. unfold clear_bit. rewrite length_insert, <- E. by apply (bo_len _ _ Ho).
    + rewrite fn_lookup_insert_ne by done. by apply (bo_len _ _ Ho).
  - intros b Hb. pose proof (layout sb Hs). pose proof (data_valid _ _ Hs Hr).
    rewrite used_freed, (bo_meta _ _ Ho b Hb) by (done || unfold valid_block; lia).
    destruct (Z.eqb_spec b r) as [->|]; [|done]. destruct Hr. lia.
Qed.

(** There is a lowest free block, or none. *)
Lemma lowest_free sb C :
  (exists r, valid_block sb r /\ used sb C r = false /\ forall x, 0 <= x < r -> used sb C x = true) \/
  (forall x, valid_block sb x -> used sb C x = true).
Proof.
  enough (H : forall n : nat, (exists r, 0 <= r < Z.of_nat n /\ used sb C r = false /\
                      forall x, 0 <= x < r -> used sb C x = true) \/
                   (forall x, 0 <= x < Z.of_nat n -> used sb C x = true)).
  { destruct (H (Z.to_nat (sb_size sb))) as [(r & Hr & Hu & Hlow)|Hall].
    - left. exists r. split; [split; lia|done].
    - right. intros x [H1 H2]. apply Hall. lia. }
  induction n as [|n [(r & Hr & Hu & Hlow)|IH]]; [right; lia|left; exists r; split_and!; try done; lia|].
  destruct (used sb C (Z.of_nat n)) eqn:E.
  - right. intros x Hx. destruct (decide (x = Z.of_nat n)) as [->|]; [done|]. apply IH. lia.
  - left. exists (Z.of_nat n). split_and!; [lia|lia|done|done].
Qed.

(** A data block in use is left alone by an allocation. *)
Lemma allocated_taken sb C r x :
  sb_ok sb -> bitmap_ok sb C -> data_block sb r -> used sb C r = false -> taken sb C x ->
  x <> r /\ taken sb (allocated sb r C) x /\ allocated sb r C x = C x.
Proof.
  intros Hs Ho Hr Hu [Hx1 Hx2]. assert (x <> r) by congruence.
  pose proof (data_valid _ _ Hs Hr) as Hr'. pose proof (data_valid _ _ Hs Hx1) as Hx'.
  split_and!; [done|split; [done|]|].
  - rewrite used_allocated by done. by destruct (x =? r).
  - unfold allocated. rewrite !fn_lookup_insert_ne; [done|by apply data_not_map|done].
Qed.

(** ** Messages *)

Section messages.
Context `{D : Devices}.
Hypothesis tx_idle : forall hist, Z.land (dev_read hist (UART0 + LSR)) LSR_TX_IDLE <> 0.

(** Text without conversions. *)
Definition plain (l : list Z) : Prop := Forall (fun c => 0 <= c < 256 /\ c <> 37) l.
#[export] Instance plain_dec l : Decision (plain l).
Proof. unfold plain. apply _. Defined.

Lemma printf_loop_plain l args : plain l -> transmits (printf_loop l args) l.
Proof using tx_idle.
  induction 1 as [|c l [Hc Hp] _ IH]; cbn [printf_loop].
  - intros t _ _. exists []. split; [|done]. by rewrite app_nil_r.
  - destruct (Z.eqb_spec c 37); [done|]. simpl negb. cbv iota.
    apply (transmits_seq _ _ [c] l); [by apply consputc_transmits|exact IH].
Qed.

Lemma printf_plain me pid l args s :
  plain l -> ctx me pid s -> pr_locking (k_pr s) = true -> panicked (k_pr s) = false ->
  exists io s', printf l args s = Ret tt s' /\ sends io = l /\ woke (set_io (k_io s ++ io) s) s' .
Proof using tx_idle.
  intros Hl Hx Hk Hp. pose proof (cx_cpu _ _ _ Hx) as Hc. pose proof (cx_locks _ _ _ Hx LKpr eq_refl) as Hf.
  destruct (printf_loop_plain l args Hl (acquired LKpr s)) as (io & R & E); [by apply nested_acquired|done|].
  exists io. unfold printf. rewrite kbind_gets, Hk. krun (acquire_run LKpr s Hc Hf). krun R.
  change (k_io (acquired LKpr s)) with (k_io s).
  exists (set_io (k_io s ++ io) (norm s)). split_and!; [|exact E|].
  - rewrite (release_after LKpr s); done.
  - exact (woke_io _ _ _ (woke_norm s Hc)).
Qed.
End messages.

(** ** The calls *)

Section calls.
Context `{HD : DiskOk, D : Devices}.
Context (me : nat) (pid d st : Z) (sb : superblock).
Hypothesis Hsb : sb_ok sb.

Abbreviation op_view := (op_view me pid d st).
Abbreviation op_step := (op_step pid d).

Lemma bzero_run C L hs s b :
  op_view C L hs s -> op_open s -> b ∉ hs -> 0 <= b < 2 ^ 31 -> Z.of_nat (length L) < LOGSIZE - 1 ->
  (length L + length hs < NBUF)%nat ->
  exists s', bzero d b s = Ret tt s' /\
    op_view (<[b := zero_block]> C) (logged b L) hs s' /\ op_step hs s s'.
Proof using HD. intros. by apply (op_update me pid d st C L hs s b (fun _ => zero_block)). Qed.

(** The searched range has a free block: the lowest one is taken. *)
Lemma balloc_loop_takes fuel C L hs s b r :
  op_view C L hs s -> op_open s -> k_sb s = sb -> bitmap_ok sb C -> Forall (taken sb C) hs ->
  0 <= b -> b mod BPB = 0 -> b <= r -> valid_block sb r -> used sb C r = false ->
  (forall x, b <= x < r -> used sb C x = true) -> r / BPB - b / BPB < Z.of_nat fuel ->
  Z.of_nat (length L) + 2 < LOGSIZE -> (length hs <= 1)%nat ->
  exists s', balloc_loop fuel d b s = Ret r s' /\
    op_view (allocated sb r C) (logged r (logged (BBLOCK r sb) L)) hs s' /\ op_step hs s s'.
Proof using HD Hsb.
  intros V Hop Es Ho Ha. revert b s V Hop Es. induction fuel as [|fuel IH]; intros b s V Hop Es Hb Hm Hbr Hr Hu Hlow Hf HL Hh.
  { assert (b / BPB <= r / BPB) by (apply Z.div_le_mono; [apply BPB_pos|lia]). lia. }
  pose proof BPB_pos as Hbp. assert (Hvb : valid_block sb b) by (unfold valid_block in *; lia).
  rewrite Forall_forall in Ha.
  assert (Hin : BBLOCK b sb ∉ hs) by (intros Hi; by apply (data_not_map sb b _ Hsb Hvb (proj1 (Ha _ Hi)))).
  cbn [balloc_loop]. rewrite kbind_gets, Es. destruct (Z.ltb_spec b (sb_size sb)); [|unfold valid_block in *; lia].
  destruct (op_bread _ _ _ _ _ _ _ _ _ V Hin) as (i & s1 & R1 & O1 & E1 & V1 & S1).
  { unfold NBUF, LOGSIZE, MAXOPBLOCKS in *. lia. }
  krun R1. unfold buf_data. rewrite kbind_gets, E1.
  destruct (find_clear _ (C (BBLOCK b sb)) b (sb_size sb) 0) as [bi|] eqn:Ef.
  - apply find_clear_Some in Ef as (F1 & F2 & F3 & F4 & F5).
    assert (r = b + bi) as ->.
    { rewrite <- (Z.add_simpl_l b bi) in F4. rewrite <- used_group in F4 by lia.
      destruct (Z.lt_trichotomy r (b + bi)) as [Hlt|[->|Hgt]]; [|done|].
      - rewrite (used_group sb C b) in Hu by lia. rewrite F5 in Hu by lia. done.
      - rewrite Hlow in F4 by lia. done. }
    assert ((b + bi) / BPB = b / BPB /\ (b + bi) mod BPB = bi) as [Ed Em].
    { rewrite <- (Z.add_simpl_l b bi) at 3. apply div_aligned; lia. }
    assert (EB : BBLOCK (b + bi) sb = BBLOCK b sb) by (unfold BBLOCK; by rewrite Ed).
    destruct (op_finish me pid d st _ _ _ _ _ _ (set_bit bi) V1 (op_does_open _ _ _ _ _ _ S1 Hop) O1) as (s2 & R2 & _ & V2 & S2).
    { by apply BBLOCK_31. }
    { lia. }
    rewrite R2. pose proof (logged_length (BBLOCK b sb) L) as Hll.
    destruct (bzero_run _ _ _ _ (b + bi) V2 (op_does_open _ _ _ _ _ _ S2 (op_does_open _ _ _ _ _ _ S1 Hop))) as (s3 & R3 & V3 & S3).
    { intros Hi. destruct (Ha _ Hi) as [_ Hx]. congruence. }
    { pose proof (sbo_size _ Hsb). unfold valid_block in *. lia. }
    { lia. }
    { unfold NBUF, LOGSIZE, MAXOPBLOCKS in *. lia. }
    krun R3. exists s3. split; [done|]. split; [|etransitivity; [exact S1|by etransitivity]].
    unfold allocated. rewrite EB, Em. exact V3.
  - pose proof (find_clear_None _ _ _ _ _ Ef) as Hall.
    destruct (op_brelse _ _ _ _ _ _ _ _ _ _ V1 O1) as (s2 & R2 & V2 & S2).
    { rewrite (proj1 (os_disk _ _ _ _ _ _ S1)). by eapply op_view_clean. }
    krun R2. assert (S12 : op_step hs s s2) by (by etransitivity).
    assert (Hge : b + BPB <= r).
    { destruct (Z.le_gt_cases (b + BPB) r); [done|]. rewrite (used_group sb C b) in Hu by lia.
      rewrite (Hall ltac:(lia) (r - b)) in Hu by (unfold valid_block in *; lia). done. }
    assert (Ed : (b + BPB) / BPB = b / BPB + 1).
    { rewrite <- (Z.mul_1_l BPB) at 1. by rewrite Z.div_add by lia. }
    destruct (IH (b + BPB) s2 V2 (op_does_open _ _ _ _ _ _ S12 Hop)) as (s3 & R3 & V3 & S3); try done; try lia.
    { by rewrite (proj1 (op_does_keeps _ _ _ _ _ _ S12)). }
    { rewrite <- (Z.mul_1_l BPB) at 1. by rewrite Z_mod_plus_full. }
    { intros x Hx. apply Hlow. lia. }
    exists s3. split_and!; [exact R3|exact V3|by etransitivity].
Qed.

Definition out_of_blocks : list Z := bytes_of "balloc: out of blocks" ++ [10].

Hypothesis tx_idle : forall hist, Z.land (dev_read hist (UART0 + LSR)) LSR_TX_IDLE <> 0.

(** No free block from [b] on: a message, and 0. *)
Lemma balloc_loop_full fuel C L hs s b :
  op_view C L hs s -> k_sb s = sb -> Forall (taken sb C) hs ->
  pr_locking (k_pr s) = true -> panicked (k_pr s) = false ->
  0 <= b -> b mod BPB = 0 -> (forall x, b <= x < sb_size sb -> used sb C x = true) ->
  0 <= sb_size sb / BPB - b / BPB + 1 < Z.of_nat fuel -> Z.of_nat (length L) + 2 < LOGSIZE -> (length hs <= 1)%nat ->
  exists io s', balloc_loop fuel d b s = Ret 0 s' /\ sends io = out_of_blocks /\
    op_view C L hs s' /\ op_does pid d hs io s s'.
Proof using HD Hsb tx_idle.
  intros V Es Ha Hk Hp. revert b s V Es Hk Hp.
  induction fuel as [|fuel IH]; intros b s V Es Hk Hp Hb Hm Hall Hf HL Hh; pose proof BPB_pos as Hbp.
  { lia. }
  cbn [balloc_loop]. rewrite kbind_gets, Es. destruct (Z.ltb_spec b (sb_size sb)) as [Hlt|Hge].
  - rewrite Forall_forall in Ha. assert (Hvb : valid_block sb b) by (split; lia).
    assert (Hin : BBLOCK b sb ∉ hs) by (intros Hi; by apply (data_not_map sb b _ Hsb Hvb (proj1 (Ha _ Hi)))).
    destruct (op_bread _ _ _ _ _ _ _ _ _ V Hin) as (i & s1 & R1 & O1 & E1 & V1 & S1).
    { unfold NBUF, LOGSIZE, MAXOPBLOCKS in *. lia. }
    krun R1. unfold buf_data. rewrite kbind_gets, E1.
    destruct (find_clear _ (C (BBLOCK b sb)) b (sb_size sb) 0) as [bi|] eqn:Ef.
    { apply find_clear_Some in Ef as (F1 & F2 & F3 & F4 & F5).
      rewrite <- (Z.add_simpl_l b bi), <- used_group, Hall in F4 by lia. done. }
    destruct (op_brelse _ _ _ _ _ _ _ _ _ _ V1 O1) as (s2 & R2 & V2 & S2).
    { rewrite (proj1 (os_disk _ _ _ _ _ _ S1)). by eapply op_view_clean. }
    krun R2. assert (S12 : op_step hs s s2) by (by etransitivity).
    destruct (op_does_keeps _ _ _ _ _ _ S12) as (K1 & _ & K2 & _).
    assert (Ed : (b + BPB) / BPB = b / BPB + 1).
    { rewrite <- (Z.mul_1_l BPB) at 1. by rewrite Z.div_add by lia. }
    assert (b / BPB <= sb_size sb / BPB) by (apply Z.div_le_mono; lia).
    destruct (IH (b + BPB) s2 V2) as (io & s3 & R3 & E3 & V3 & S3);
      rewrite ?K1, ?K2; try done; try lia.
    { rewrite <- (Z.mul_1_l BPB) at 1. by rewrite Z_mod_plus_full. }
    { intros x Hx. apply Hall. lia. }
    exists io, s3. split_and!; [exact R3|exact E3|exact V3|]. exact (op_does_trans _ _ _ [] io _ _ _ S12 S3).
  - destruct (printf_plain tx_idle me pid out_of_blocks [] s) as (io & s' & R & E & W); try done.
    { refine (bool_decide_unpack _ _). vm_compute. exact I. }
    { apply V. }
    krun R. exists io, s'. destruct (op_prints _ _ _ _ _ _ _ _ _ _ V W) as [V' S']. by split_and!.
Qed.

Section spec.
Context (C : Z -> block) (L hs : list Z) (s : kst).
Hypothesis V : op_view C L hs s.
Hypothesis Hop : op_open s.
Hypothesis Es : k_sb s = sb.
Hypothesis Ho : bitmap_ok sb C.
Hypothesis Ha : Forall (taken sb C) hs.
Hypothesis Hh : (length hs <= 1)%nat.
Hypothesis HL : Z.of_nat (length L) + 2 < LOGSIZE.

Lemma balloc_takes r :
  valid_block sb r -> used sb C r = false -> (forall x, 0 <= x < r -> used sb C x = true) ->
  exists s', balloc d s = Ret r s' /\
    op_view (allocated sb r C) (logged r (logged (BBLOCK r sb) L)) hs s' /\ op_step hs s s'.
Proof using HD Hsb V Hop Es Ho Ha Hh HL.
  intros Hr Hu Hlow. unfold balloc. rewrite kbind_gets, Es. unfold valid_block in *.
  assert (r / BPB <= sb_size sb / BPB) by (apply Z.div_le_mono; [apply BPB_pos|lia]).
  assert (0 <= r / BPB) by (apply Z.div_pos; [lia|apply BPB_pos]).
  apply balloc_loop_takes; try done; try lia. rewrite Zdiv_0_l. lia.
Qed.

Lemma balloc_full :
  pr_locking (k_pr s) = true -> panicked (k_pr s) = false ->
  (forall x, valid_block sb x -> used sb C x = true) ->
  exists io s', balloc d s = Ret 0 s' /\ sends io = out_of_blocks /\
    op_view C L hs s' /\ op_does pid d hs io s s'.
Proof using HD Hsb V Es Ha Hh HL tx_idle.
  intros Hk Hp Hall. unfold balloc. rewrite kbind_gets, Es. pose proof (sbo_size _ Hsb).
  assert (0 <= sb_size sb / BPB) by (apply Z.div_pos; [lia|apply BPB_pos]).
  apply balloc_loop_full; try done; try lia. rewrite Zdiv_0_l. lia.
Qed.

(** Either way. *)
Lemma balloc_any :
  pr_locking (k_pr s) = true -> panicked (k_pr s) = false ->
  exists a io C' L' s', balloc d s = Ret a s' /\ op_view C' L' hs s' /\ op_does pid d hs io s s' /\
    ((a = 0 /\ C' = C /\ L' = L /\ forall x, valid_block sb x -> used sb C x = true) \/
     (data_block sb a /\ used sb C a = false /\ C' = allocated sb a C /\ L' = logged a (logged (BBLOCK a sb) L))).
Proof using HD Hsb V Hop Es Ho Ha Hh HL tx_idle.
  intros Hk Hp. destruct (lowest_free sb C) as [(r & Hr & Hu & Hlow)|Hall].
  - destruct (balloc_takes r Hr Hu Hlow) as (s' & R & V' & S').
    exists r, [], (allocated sb r C), (logged r (logged (BBLOCK r sb) L)), s'.
    split_and!; [done|done|done|]. right. split_and!; [by eapply free_data|done..].
  - destruct (balloc_full Hk Hp Hall) as (io & s' & R & E & V' & S').
    exists 0, io, C, L, s'. split_and!; [done|done|done|]. by left.
Qed.

(** C31: [balloc] is a first-fit allocator, inside any transaction and with
    another buffer held or not.  If some block is free it returns the lowest
    free block, zeroed; exactly that block becomes used, the free map stays
    well formed, and no other block changes.  If none is free it prints a
    message and returns 0, and nothing changes. *)
Theorem balloc_spec :
  pr_locking (k_pr s) = true -> panicked (k_pr s) = false ->
  (forall r, valid_block sb r -> used sb C r = false -> (forall x, 0 <= x < r -> used sb C x = true) ->
    exists s' C', balloc d s = Ret r s' /\ op_step hs s s' /\
      op_view C' (logged r (logged (BBLOCK r sb) L)) hs s' /\ bitmap_ok sb C' /\ C' r = zero_block /\
      (forall x, valid_block sb x -> used sb C' x = (x =? r) || used sb C x) /\
      (forall x, x <> r -> x <> BBLOCK r sb -> C' x = C x)) /\
  ((forall x, valid_block sb x -> used sb C x = true) ->
    exists io s', balloc d s = Ret 0 s' /\ sends io = out_of_blocks /\
      op_view C L hs s' /\ op_does pid d hs io s s').
Proof using HD Hsb V Hop Es Ho Ha Hh HL tx_idle.
  intros Hk Hp. split; [|by apply balloc_full]. intros r Hr Hu Hlow.
  destruct (balloc_takes r Hr Hu Hlow) as (s' & R & V' & S'). exists s', (allocated sb r C).
  split_and!; [done|done|done|by apply allocated_ok| | |].
  - unfold allocated. apply fn_lookup_insert.
  - intros x Hx. rewrite used_allocated by done. by destruct (x =? r).
  - intros x H1 H2. unfold allocated. by rewrite !fn_lookup_insert_ne.
Qed.

Lemma bfree_run r :
  valid_block sb r -> used sb C r = true ->
  exists s', bfree d r s = Ret tt s' /\ op_view (freed sb r C) (logged (BBLOCK r sb) L) hs s' /\ op_step hs s s'.
Proof using HD Hsb V Hop Es Ha Hh HL.
  intros Hr Hu. pose proof Ha as Ha'. rewrite Forall_forall in Ha'.
  assert (Hin : BBLOCK r sb ∉ hs) by (intros Hi; by apply (data_not_map sb r _ Hsb Hr (proj1 (Ha' _ Hi)))).
  destruct (op_bread _ _ _ _ _ _ _ _ _ V Hin) as (i & s1 & R1 & O1 & E1 & V1 & S1).
  { unfold NBUF, LOGSIZE, MAXOPBLOCKS in *. lia. }
  unfold bfree. rewrite kbind_gets, Es. krun R1. unfold buf_data. rewrite kbind_gets, E1.
  unfold used in Hu. rewrite Hu. simpl.
  destruct (op_finish me pid d st _ _ _ _ _ _ (clear_bit (r mod BPB)) V1 (op_does_open _ _ _ _ _ _ S1 Hop) O1) as (s2 & _ & R2 & V2 & S2).
  { by apply BBLOCK_31. }
  { lia. }
  exists s2. split_and!; [exact R2|exact V2|by etransitivity].
Qed.

(** [bfree] gives back a used block: exactly its bit is cleared, in one
    logged update of the free map, and every block keeps its contents but that
    of the map.  Freeing a free block panics. *)
Theorem bfree_spec r :
  data_block sb r ->
  (used sb C r = true -> exists s' C', bfree d r s = Ret tt s' /\ op_step hs s s' /\
      op_view C' (logged (BBLOCK r sb) L) hs s' /\ bitmap_ok sb C' /\
      (forall x, valid_block sb x -> used sb C' x = negb (x =? r) && used sb C x) /\
      (forall x, x <> BBLOCK r sb -> C' x = C x)) /\
  (used sb C r = false -> exists s', bfree d r s = Panic "freeing free block" s').
Proof using HD Hsb V Hop Es Ho Ha Hh HL.
  intros Hd. pose proof (data_valid _ _ Hsb Hd) as Hr. split; intros Hu.
  - destruct (bfree_run r Hr Hu) as (s' & R & V' & S'). exists s', (freed sb r C).
    split_and!; [done|done|done|by apply freed_ok| |].
    + intros x Hx. rewrite used_freed by done. by destruct (x =? r).
    + intros x Hx. unfold freed. by rewrite fn_lookup_insert_ne.
  - pose proof Ha as Ha'. rewrite Forall_forall in Ha'.
    assert (Hin : BBLOCK r sb ∉ hs) by (intros Hi; by apply (data_not_map sb r _ Hsb Hr (proj1 (Ha' _ Hi)))).
    destruct (op_bread _ _ _ _ _ _ _ _ _ V Hin) as (i & s1 & R1 & O1 & E1 & V1 & S1).
    { unfold NBUF, LOGSIZE, MAXOPBLOCKS in *. lia. }
    exists s1. unfold bfree. rewrite kbind_gets, Es. krun R1. unfold buf_data. rewrite kbind_gets, E1.
    unfold used in Hu. by rewrite Hu.
Qed.
End spec.
End calls.

(** ** Example *)

(** The mounted file system of the disk [D]: log at block 2, super block
    [demo_sb]. *)
Definition demo_sb : superblock := mksb FSMAGIC 1000 954 200 LOGSIZE 2 32 45.

Definition mounted (D : gmap Z block) (its : list inode) (s : kst) : Prop :=
  quiescent 1 7 1 2 s /\ log_size (k_log s) = LOGSIZE /\ k_disk s = D /\ k_sb s = demo_sb /\
  k_pr s = mkpr true false /\ k_inodes s = its.

Lemma idle_globals me pid d s its pr sb :
  idle me pid d s -> idle me pid d (set_inodes its (set_pr pr (set_sb sb s))).
Proof. intros [X I IR IH IB]. split; [by destruct X|by destruct I|done..]. Qed.

Lemma demo_mounted D its : D !! 2 = None -> exists s, mounted D its s.
Proof.
  intros H2. destruct (demo_reboot D) as (s & I & Hl & Hd).
  pose (lg := mklog 2 LOGSIZE 0 false 1 empty_lh).
  exists (set_inodes its (set_pr (mkpr true false) (set_sb demo_sb
           (set_log lg (set_locks (<[LKlog := lock_free]> (k_locks s)) s))))).
  split; [|done]. split.
  - apply idle_globals, idle_log, I.
  - split; [done..|]. intros i b Hb. by rewrite lookup_nil in Hb.
  - done.
  - reflexivity.
  - change (k_disk (set_inodes its _)) with (k_disk s). rewrite Hd. unfold dget. rewrite H2. exact demo_head.
Qed.

(** Blocks 0 to 46 (super block, log, inodes, bit map, one data block) are used. *)
Definition demo_bitmap : block := foldr set_bit zero_block (seqZ 0 47).
Definition demo_disk : gmap Z block := {[ 45 := demo_bitmap ]}.

Lemma demo_sb_ok : sb_ok demo_sb.
Proof. split; vm_compute; intuition congruence. Qed.

Lemma demo_BBLOCK b : valid_block demo_sb b -> BBLOCK b demo_sb = 45.
Proof.
  intros [H1 H2]. simpl in H2. unfold BBLOCK, BPB, BSIZE. rewrite Z.div_small by lia. reflexivity.
Qed.

Lemma demo_used x : 0 <= x < 47 -> used demo_sb (dget demo_disk) x = true.
Proof.
  intros Hx. assert (Forall (fun x => used demo_sb (dget demo_disk) x = true) (seqZ 0 47)) as HF
    by (refine (bool_decide_unpack _ _); vm_compute; exact I).
  rewrite Forall_forall in HF. apply HF. apply elem_of_seqZ. lia.
Qed.

Lemma demo_bitmap_ok : bitmap_ok demo_sb (dget demo_disk).
Proof.
  split; intros b Hb.
  - rewrite demo_BBLOCK by done. vm_compute. reflexivity.
  - apply demo_used. change (dstart demo_sb) with 46 in Hb. lia.
Qed.

Section demo.
#[local] Instance demo_devices : Devices := fun _ _ => 0x20.

Lemma demo_idle hist : Z.land (dev_read hist (UART0 + LSR)) LSR_TX_IDLE <> 0.
Proof. vm_compute. discriminate. Qed.

(** The first free block is 47. *)
Lemma demo_first : valid_block demo_sb 47 /\ used demo_sb (dget demo_disk) 47 = false /\
  forall x, 0 <= x < 47 -> used demo_sb (dget demo_disk) x = true.
Proof.
  split; [vm_compute; intuition congruence|]. split; [vm_compute; reflexivity|exact demo_used].
Qed.

Lemma balloc_spec_witness : exists s s' C',
  balloc (Dk := mem_disk) 1 s = Ret 47 s' /\ op_view 1 7 1 2 C' [45; 47] [] s' /\ C' 47 = zero_block.
Proof.
  destruct (demo_mounted demo_disk [] eq_refl) as (s0 & Hq & Hl & Hd & Hs & Hp & _).
  destruct (op_begin 1 7 1 2 s0 Hq) as (s & _ & V & P & W); [by rewrite Hl|]. rewrite Hd in V.
  assert (Es : k_sb s = demo_sb) by (rewrite (wk_rest _ _ W); exact Hs).
  assert (Ep : k_pr s = mkpr true false) by (rewrite (wk_rest _ _ W); exact Hp).
  destruct demo_first as (F1 & F2 & F3).
  destruct (proj1 (balloc_spec (HD := mem_disk_ok) 1 7 1 2 demo_sb demo_sb_ok demo_idle (dget demo_disk) [] [] s
    V P Es demo_bitmap_ok (Forall_nil_2 _) ltac:(simpl; lia) ltac:(unfold LOGSIZE, MAXOPBLOCKS; simpl; lia)
    ltac:(by rewrite Ep) ltac:(by rewrite Ep)) 47 F1 F2 F3) as (s' & C' & R & _ & V' & _ & Z' & _).
  exists s, s', C'. split_and!; [exact R|exact V'|exact Z'].
Defined.

Lemma bfree_spec_witness : exists s s' C',
  bfree (Dk := mem_disk) 1 46 s = Ret tt s' /\ op_view 1 7 1 2 C' [45] [] s' /\ used demo_sb C' 46 = false.
Proof.
  destruct (demo_mounted demo_disk [] eq_refl) as (s0 & Hq & Hl & Hd & Hs & Hp & _).
  destruct (op_begin 1 7 1 2 s0 Hq) as (s & _ & V & P & W); [by rewrite Hl|]. rewrite Hd in V.
  assert (Es : k_sb s = demo_sb) by (rewrite (wk_rest _ _ W); exact Hs).
  assert (Hv : data_block demo_sb 46) by (vm_compute; intuition congruence).
  destruct (proj1 (bfree_spec (HD := mem_disk_ok) 1 7 1 2 demo_sb demo_sb_ok (dget demo_disk) [] [] s
    V P Es demo_bitmap_ok (Forall_nil_2 _) ltac:(simpl; lia) ltac:(unfold LOGSIZE, MAXOPBLOCKS; simpl; lia)
    46 Hv) ltac:(vm_compute; reflexivity))
    as (s' & C' & R & _ & V' & _ & U & _).
  exists s, s', C'. split_and!; [exact R|exact V'|]. by rewrite U.
Defined.
End demo.
