(* ===== verification/Blockmap.v ===== *)
(** * The blocks of a file: [bmap] of kernel/fs.c

    [fblock C x bn] is the disk block that holds block [bn] of the file whose
    inode is [x], through its direct addresses or its indirect block, 0 if it
    has none; [inode_ok] says that a file's blocks are data blocks in use, no
    two the same.  [bmap] returns [fblock], and allocates the block when there
    is none, without disturbing any other block of the file. *)

From stdpp Require Import functions.
From S2P Require Import Prelude Param Mem CString Kernel Spinlock Kalloc Sched Sleeplock Bio BioRules Log Txn Vm PageTable UserCopy Uart Printf Fs Bitmap Console ConsoleLine Balloc.
Open Scope Z_scope.

(** ** The map *)

Definition indirect (x : inode) : Z := iaddr x (Z.to_nat NDIRECT).

Definition fblock (C : Z -> block) (x : inode) (bn : Z) : Z :=
  if bn <? NDIRECT then iaddr x (Z.to_nat bn)
  else if indirect x =? 0 then 0 else get32 (4 * (bn - NDIRECT)) (C (indirect x)).

Definition in_file (bn : Z) : Prop := 0 <= bn < MAXFILE.

(** Every block has its size. *)
Definition whole (C : Z -> block) : Prop := forall b, length (C b) = Z.to_nat BSIZE.

Record inode_ok (sb : superblock) (C : Z -> block) (x : inode) : Prop := {
  io_addrs : length (i_addrs x) = naddrs;
  io_indirect : indirect x <> 0 -> taken sb C (indirect x);
  io_block bn : in_file bn -> fblock C x bn <> 0 -> taken sb C (fblock C x bn);
  io_inj bn bn' : in_file bn -> in_file bn' -> fblock C x bn <> 0 -> fblock C x bn = fblock C x bn' -> bn = bn';
  io_ne bn : in_file bn -> fblock C x bn <> 0 -> fblock C x bn <> indirect x
}.

(** A block the file does not use. *)
Definition fresh (C : Z -> block) (x : inode) (a : Z) : Prop :=
  a <> 0 /\ a <> indirect x /\ forall bn, in_file bn -> fblock C x bn <> a.

Lemma iaddr_set i v x j :
  (i < length (i_addrs x))%nat -> iaddr (set_iaddr i v x) j = if decide (j = i) then v else iaddr x j.
Proof.
  intros Hi. unfold iaddr. simpl. case_decide as E; [subst; by rewrite list_lookup_insert_eq|].
  by rewrite list_lookup_insert_ne.
Qed.

Lemma zero_get32 j : 0 <= j < NINDIRECT -> get32 (4 * j) zero_block = 0.
Proof.
  intros Hj. unfold get32, slice, zero_block. rewrite drop_replicate, take_replicate.
  change NINDIRECT with 256 in Hj. change (Z.to_nat BSIZE) with 1024%nat.
  replace (4 `min` (1024 - Z.to_nat (4 * j)))%nat with 4%nat by lia. done.
Qed.

Lemma taken_nonzero sb C b : sb_ok sb -> taken sb C b -> b <> 0.
Proof. intros Hs [[H1 H2] _]. pose proof (layout sb Hs). lia. Qed.

Lemma free_fresh sb C x a :
  sb_ok sb -> inode_ok sb C x -> data_block sb a -> used sb C a = false -> fresh C x a.
Proof.
  intros Hs Hx Hd Hu. assert (Ha : a <> 0) by (destruct Hd; pose proof (layout sb Hs); lia).
  split_and!; [done| |].
  - intros E. destruct (decide (indirect x = 0)); [congruence|].
    destruct (io_indirect _ _ _ Hx) as [_ Hu']; [done|]. congruence.
  - intros bn Hbn E. destruct (io_block _ _ _ Hx bn Hbn) as [_ Hu']; congruence.
Qed.

(** The blocks [C] became [C'] without a loss. *)
Record grown (sb : superblock) (C C' : Z -> block) : Prop := {
  gr_bitmap : bitmap_ok sb C';
  gr_whole : whole C';
  gr_keep b : taken sb C b -> taken sb C' b /\ C' b = C b;
  gr_meta b : b < sb_bmapstart sb -> C' b = C b
}.

Lemma grown_trans sb C1 C2 C3 : grown sb C1 C2 -> grown sb C2 C3 -> grown sb C1 C3.
Proof.
  intros [A1 A2 A3 A4] [B1 B2 B3 B4]. split; [done|done| |intros b Hb; by rewrite B4, A4].
  intros b Hb. destruct (A3 b Hb) as [H1 E1]. destruct (B3 b H1) as [H2 E2]. split; [done|congruence].
Qed.

Lemma grown_refl sb C : bitmap_ok sb C -> whole C -> grown sb C C.
Proof. by split. Qed.

Lemma grown_allocated sb C a :
  sb_ok sb -> bitmap_ok sb C -> whole C -> data_block sb a -> used sb C a = false ->
  grown sb C (allocated sb a C) /\ taken sb (allocated sb a C) a /\ allocated sb a C a = zero_block.
Proof.
  intros Hs Ho Hw Hd Hu. pose proof (data_valid _ _ Hs Hd) as Hv. split_and!.
  - split; [by apply allocated_ok| | |].
    + intros b. unfold allocated. destruct (decide (b = a)) as [->|Hb].
      * rewrite fn_lookup_insert. apply length_replicate.
      * rewrite fn_lookup_insert_ne by done. destruct (decide (b = BBLOCK a sb)) as [->|Hb'].
        -- rewrite fn_lookup_insert, length_set_bit. apply Hw.
        -- rewrite fn_lookup_insert_ne by done. apply Hw.
    + intros b Hb. by destruct (allocated_taken sb C a b Hs Ho Hd Hu Hb) as (_ & H1 & H2).
    + intros b Hb. pose proof (BBLOCK_range sb a Hs Hv). pose proof (layout sb Hs). destruct Hd.
      unfold allocated. rewrite !fn_lookup_insert_ne by lia. done.
  - split; [done|]. rewrite used_allocated by done. by rewrite Z.eqb_refl.
  - unfold allocated. apply fn_lookup_insert.
Qed.

(** ** Changes of the map *)

Section changes.
Context (sb : superblock).
Hypothesis Hsb : sb_ok sb.

Lemma fblock_grown C C' x : inode_ok sb C x -> grown sb C C' ->
  inode_ok sb C' x /\ forall bn, fblock C' x bn = fblock C x bn.
Proof using.
  intros Hx G. assert (E : forall bn, fblock C' x bn = fblock C x bn).
  { intros bn. unfold fblock. destruct (bn <? NDIRECT); [done|].
    destruct (Z.eqb_spec (indirect x) 0) as [|Hi]; [done|].
    by rewrite (proj2 (gr_keep _ _ _ G _ (io_indirect _ _ _ Hx Hi))). }
  split; [|exact E]. destruct Hx as [A1 A2 A3 A4 A5]. split; [done| | | |].
  - intros Hi. by apply (gr_keep _ _ _ G), A2.
  - intros bn. rewrite E. intros Hb H0. by apply (gr_keep _ _ _ G), A3.
  - intros bn bn'. rewrite !E. apply A4.
  - intros bn. rewrite E. apply A5.
Qed.

(** One more block in the map, at [bn]. *)
Lemma inode_ok_add C x C' x' bn a :
  inode_ok sb C x -> length (i_addrs x') = naddrs -> indirect x' = indirect x -> in_file bn ->
  fresh C x a -> taken sb C' a -> (forall b, taken sb C b -> taken sb C' b) ->
  (forall j, in_file j -> fblock C' x' j = if decide (j = bn) then a else fblock C x j) ->
  inode_ok sb C' x'.
Proof using.
  intros [A1 A2 A3 A4 A5] Hl Ei Hbn (F1 & F2 & F3) Ta Tk E. split; [done| | | |].
  - rewrite Ei. intros Hi. by apply Tk, A2.
  - intros j Hj. rewrite E by done. case_decide; [done|]. intros H0. by apply Tk, A3.
  - intros j j' Hj Hj'. rewrite !E by done. repeat case_decide; subst; try done.
    + intros _ E'. destruct (F3 j' Hj'). done.
    + intros _ E'. by destruct (F3 j Hj).
    + by apply A4.
  - intros j Hj. rewrite E, Ei by done. case_decide; [done|]. by apply A5.
Qed.

Lemma add_direct C x bn a :
  inode_ok sb C x -> 0 <= bn < NDIRECT -> fresh C x a -> taken sb C a ->
  let x' := set_iaddr (Z.to_nat bn) a x in
  inode_ok sb C x' /\ forall j, in_file j -> fblock C x' j = if decide (j = bn) then a else fblock C x j.
Proof using.
  intros Hx Hbn Hf Ht x'. pose proof (io_addrs _ _ _ Hx) as Hl.
  assert (Hlt : (Z.to_nat bn < length (i_addrs x))%nat) by (rewrite Hl; unfold naddrs, NDIRECT in *; lia).
  assert (Ei : indirect x' = indirect x).
  { unfold indirect, x'. rewrite iaddr_set by done. rewrite decide_False; [done|]. unfold NDIRECT in *. lia. }
  assert (E : forall j, in_file j -> fblock C x' j = if decide (j = bn) then a else fblock C x j).
  { intros j [Hj _]. unfold fblock. rewrite Ei. destruct (Z.ltb_spec j NDIRECT).
    - unfold x'. rewrite iaddr_set by done. destruct (decide (j = bn)), (decide (Z.to_nat j = Z.to_nat bn)); done || lia.
    - rewrite decide_False by lia. done. }
  split; [|exact E]. eapply inode_ok_add; [exact Hx| |exact Ei| |exact Hf|exact Ht|done|exact E].
  - unfold x'. simpl. by rewrite length_insert.
  - unfold in_file, MAXFILE. change NINDIRECT with 256. lia.
Qed.

(** An empty indirect block. *)
Lemma add_indirect C x a :
  inode_ok sb C x -> indirect x = 0 -> fresh C x a -> taken sb C a -> C a = zero_block ->
  let x' := set_iaddr (Z.to_nat NDIRECT) a x in
  inode_ok sb C x' /\ indirect x' = a /\ forall j, in_file j -> fblock C x' j = fblock C x j.
Proof using.
  intros Hx Hi (F1 & F2 & F3) Ht Hz x'. pose proof (io_addrs _ _ _ Hx) as Hl.
  assert (Hlt : (Z.to_nat NDIRECT < length (i_addrs x))%nat) by (rewrite Hl; unfold naddrs, NDIRECT in *; lia).
  assert (Ei : indirect x' = a).
  { unfold indirect, x'. by rewrite iaddr_set, decide_True. }
  assert (E : forall j, in_file j -> fblock C x' j = fblock C x j).
  { intros j [Hj Hj']. unfold fblock. rewrite Ei, Hi. destruct (Z.ltb_spec j NDIRECT).
    - unfold x'. rewrite iaddr_set, decide_False by (done || lia). done.
    - destruct (Z.eqb_spec a 0); [done|]. rewrite Hz. apply zero_get32. unfold MAXFILE in *. lia. }
  split_and!; [|done|done]. destruct Hx as [A1 A2 A3 A4 A5]. split.
  - unfold x'. simpl. by rewrite length_insert.
  - by rewrite Ei.
  - intros j Hj. rewrite E by done. by apply A3.
  - intros j j' Hj Hj'. rewrite !E by done. by apply A4.
  - intros j Hj. rewrite E, Ei by done. intros _. by apply F3.
Qed.

(** An entry of the indirect block. *)
Lemma used_data_write C b v x : data_block sb b -> valid_block sb x -> used sb (<[b := v]> C) x = used sb C x.
Proof using Hsb. intros Hb Hx. unfold used. by rewrite fn_lookup_insert_ne by (by apply not_eq_sym, data_not_map). Qed.

Lemma taken_data_write C b v x : data_block sb b -> taken sb (<[b := v]> C) x <-> taken sb C x.
Proof using Hsb.
  intros Hb. unfold taken. split; intros [H1 H2]; (split; [done|]);
    [rewrite used_data_write in H2|rewrite used_data_write]; try done; by apply data_valid.
Qed.

(** A write of a data block leaves the bit map alone. *)
Lemma bitmap_ok_data_write C b v : bitmap_ok sb C -> data_block sb b -> bitmap_ok sb (<[b := v]> C).
Proof using Hsb.
  intros [A1 A2] Hb. pose proof (layout sb Hsb). split.
  - intros x Hx. rewrite fn_lookup_insert_ne by (by apply not_eq_sym, data_not_map). by apply A1.
  - intros x Hx. rewrite used_data_write by (done || unfold valid_block; lia). by apply A2.
Qed.

Lemma whole_write C b v : whole C -> length v = Z.to_nat BSIZE -> whole (<[b := v]> C).
Proof using.
  intros Hw Hv x. destruct (decide (x = b)) as [->|]; [by rewrite fn_lookup_insert|].
  by rewrite fn_lookup_insert_ne.
Qed.

Lemma add_entry C x bn a :
  inode_ok sb C x -> whole C -> NDIRECT <= bn < MAXFILE -> indirect x <> 0 -> fresh C x a -> taken sb C a ->
  let C' := <[indirect x := put32 (4 * (bn - NDIRECT)) a (C (indirect x))]> C in
  inode_ok sb C' x /\ whole C' /\ (forall j, in_file j -> fblock C' x j = if decide (j = bn) then a else fblock C x j).
Proof using Hsb.
  intros Hx Hw Hbn Hi Hf Ht C'. pose proof (io_indirect _ _ _ Hx Hi) as Ti.
  assert (Hlen : Z.of_nat (length (C (indirect x))) = BSIZE) by (rewrite Hw; reflexivity).
  unfold MAXFILE in Hbn. change NINDIRECT with 256 in Hbn.
  assert (E : forall j, in_file j -> fblock C' x j = if decide (j = bn) then a else fblock C x j).
  { intros j [Hj Hj']. unfold MAXFILE in Hj'. change NINDIRECT with 256 in Hj'. unfold fblock.
    destruct (Z.ltb_spec j NDIRECT); [rewrite decide_False by lia; done|].
    destruct (Z.eqb_spec (indirect x) 0); [done|]. unfold C'. rewrite fn_lookup_insert. unfold BSIZE in *.
    case_decide as Ej; [subst; rewrite get32_put32 by lia|by rewrite get32_put32_ne by lia].
    apply u32_small. destruct Ht as [[H1 H2] _]. pose proof (layout sb Hsb). lia. }
  split_and!; [| |exact E].
  - eapply inode_ok_add; [exact Hx|apply Hx|done| |exact Hf| | |exact E].
    + unfold in_file, MAXFILE. change NINDIRECT with 256. unfold NDIRECT in *. lia.
    + by apply taken_data_write; [apply Ti|].
    + intros b Hb. by apply taken_data_write; [apply Ti|].
  - apply whole_write; [done|]. rewrite length_put32; unfold BSIZE in *; [lia|lia|lia].
Qed.
End changes.

(** ** [bmap] *)

Section bmap.
Context `{HD : DiskOk, D : Devices}.
Context (me : nat) (pid d st : Z) (sb : superblock) (ip : nat).
Hypothesis Hsb : sb_ok sb.
Hypothesis tx_idle : forall hist, Z.land (dev_read hist (UART0 + LSR)) LSR_TX_IDLE <> 0.

(** The file system around the file of inode [x], entry [ip] of the table. *)
Record file_view (C : Z -> block) (L hs : list Z) (x : inode) (s : kst) : Prop := {
  fv_view : op_view me pid d st C L hs s;
  fv_held : Forall (taken sb C) hs /\ (length hs <= 1)%nat;
  fv_sb : k_sb s = sb;
  fv_pr : pr_locking (k_pr s) = true /\ panicked (k_pr s) = false;
  fv_inode : k_inodes s !! ip = Some x;
  fv_dev : i_dev x = d;
  fv_bitmap : bitmap_ok sb C;
  fv_whole : whole C;
  fv_ok : inode_ok sb C x
}.

Lemma inode_at_view C L hs x s : file_view C L hs x s -> inode_at s ip = x.
Proof using. intros V. unfold inode_at. by rewrite (fv_inode _ _ _ _ _ V). Qed.

(** How a call may change the file: more blocks, other fields the same. *)
Record file_step (hs : list Z) (C : Z -> block) (L : list Z) (x : inode) (s : kst)
                 (C' : Z -> block) (L' : list Z) (x' : inode) (s' : kst) : Prop := {
  fs_view : file_view C' L' hs x' s';
  fs_does_io : exists io, fs_does pid d hs io s s';
  fs_table : k_inodes s' = <[ip := x']> (k_inodes s);
  fs_fields : x' = set_iaddrs (i_addrs x') x
}.

Lemma file_step_refl hs C L x s : file_view C L hs x s -> file_step hs C L x s C L x s.
Proof using.
  intros V. split; [done| | |by destruct x].
  - exists []. apply fs_does_op, op_step_refl.
  - by rewrite list_insert_id by apply V.
Qed.

Lemma file_step_trans hs C1 L1 x1 s1 C2 L2 x2 s2 C3 L3 x3 s3 :
  file_step hs C1 L1 x1 s1 C2 L2 x2 s2 -> file_step hs C2 L2 x2 s2 C3 L3 x3 s3 -> file_step hs C1 L1 x1 s1 C3 L3 x3 s3.
Proof using.
  intros [A1 [io1 A2] A3 A4] [B1 [io2 B2] B3 B4]. split; [done| | |].
  - exists (io1 ++ io2). by eapply fs_does_trans.
  - by rewrite B3, A3, list_insert_insert_eq.
  - rewrite B4, A4. done.
Qed.

Lemma file_step_open hs C L x s C' L' x' s' : file_step hs C L x s C' L' x' s' -> op_open s -> op_open s'.
Proof using. intros [_ [io H] _ _]. by apply (fs_does_open _ _ _ _ _ _ H). Qed.

(** Steps that leave the table alone, and the stores into it. *)
Lemma file_step_op hs C L x s C' L' s' io :
  file_view C L hs x s -> op_does pid d hs io s s' -> op_view me pid d st C' L' hs s' ->
  bitmap_ok sb C' -> whole C' -> inode_ok sb C' x -> (forall b, taken sb C b -> taken sb C' b) ->
  file_step hs C L x s C' L' x s'.
Proof using.
  intros V S V' Ho Hw Hx Ht. destruct (op_does_keeps _ _ _ _ _ _ S) as (K1 & K2 & K3 & _).
  destruct V as [_ [F0 F0'] F1 F2 F3 F4 _ _ _]. split.
  - split; rewrite ?K1, ?K2, ?K3; try done. split; [|done]. eapply Forall_impl; [exact F0|exact Ht].
  - exists io. by apply fs_does_op.
  - by rewrite K2, list_insert_id.
  - by destruct x.
Qed.

Lemma file_step_put hs C L x s (f : inode -> inode) :
  file_view C L hs x s -> f x = set_iaddrs (i_addrs (f x)) x -> inode_ok sb C (f x) ->
  exists s', put_inode ip f s = Ret tt s' /\ file_step hs C L x s C L (f x) s'.
Proof using.
  intros V Ef Hx. exists (set_inodes (<[ip := f x]> (k_inodes s)) s).
  split; [unfold put_inode, modify; by rewrite (inode_at_view _ _ _ _ _ V)|].
  destruct V as [F0 F0' F1 F2 F3 F4 F5 F6 _]. split; [|exists []; apply fs_does_set|done|done].
  split; try done; [by apply op_view_inodes| |by rewrite Ef]. simpl. apply list_lookup_insert_eq.
  by eapply lookup_lt_Some.
Qed.

(** A bit-map block. *)
Definition map_block (b : Z) : Prop := sb_bmapstart sb <= b < dstart sb.

Lemma logged_pair L a b : data_block sb a -> b ∈ logged a (logged (BBLOCK a sb) L) ->
  b ∈ L \/ map_block b \/ (b = a /\ a <> 0).
Proof using Hsb.
  intros Ha. assert (a <> 0) by (destruct Ha; pose proof (layout sb Hsb); lia).
  rewrite !logged_elem. intros [->|[->|Hl]]; [tauto| |tauto].
  right; left. apply BBLOCK_range; [done|by apply data_valid].
Qed.

Lemma length_logged_pair L a : (length (logged a (logged (BBLOCK a sb) L)) <= length L + 2)%nat.
Proof using. pose proof (logged_length (BBLOCK a sb) L). pose proof (logged_length a (logged (BBLOCK a sb) L)). lia. Qed.

(** [balloc] for the file. *)
Lemma file_balloc C L hs x s :
  file_view C L hs x s -> op_open s -> Z.of_nat (length L) + 2 < LOGSIZE ->
  exists a C' L' s', balloc d s = Ret a s' /\ file_step hs C L x s C' L' x s' /\ grown sb C C' /\
    (exists io, op_does pid d hs io s s') /\ (forall b, b ∈ L -> b ∈ L') /\
    (length L' <= length L + 2)%nat /\ (forall b, b ∈ L' -> b ∈ L \/ map_block b \/ (b = a /\ a <> 0)) /\
    ((a = 0 /\ C' = C /\ forall y, valid_block sb y -> used sb C y = true) \/
     (taken sb C' a /\ fresh C' x a /\ C' a = zero_block /\ used sb C a = false)).
Proof using All.
  intros V Hop HL. pose proof V as [F0 [F1 F1'] F2 [F3 F3'] F4 F5 F6 F7 F8].
  destruct (balloc_any me pid d st sb Hsb tx_idle C L hs s F0 Hop F2 F6 F1 F1' HL F3 F3')
    as (a & io & C' & L' & s' & R & V' & S' & [(-> & -> & -> & Hall)|(Hd & Hu & -> & ->)]).
  - exists 0, C, L, s'. split_and!; [done| |by apply grown_refl|by exists io|done|lia|tauto|left; done].
    by eapply file_step_op.
  - destruct (grown_allocated sb C a Hsb F6 F7 Hd Hu) as (G & Ta & Za).
    destruct (fblock_grown sb C _ x F8 G) as [Hx Ef].
    eexists a, _, _, s'. split_and!; [exact R| |exact G|by exists io| |apply length_logged_pair| |].
    + eapply file_step_op; [exact V|exact S'|exact V'|apply G|apply G|exact Hx|].
      intros b Hb. by apply (gr_keep _ _ _ G).
    + intros b Hb. rewrite !logged_elem. tauto.
    + intros b. by apply logged_pair.
    + right. split_and!; [done| |done|done]. destruct (free_fresh sb C x a Hsb F8 Hd Hu) as (H1 & H2 & H3).
      split_and!; [done|done|]. intros bn Hbn. rewrite Ef. by apply H3.
Qed.

(** What [bmap] makes of the map, with [a] for block [bn]. *)
Record bmap_post (bn a : Z) (C : Z -> block) (L : list Z) (x : inode)
                 (C' : Z -> block) (L' : list Z) (x' : inode) : Prop := {
  bm_old : fblock C x bn <> 0 -> a = fblock C x bn /\ C' = C /\ x' = x;
  bm_map j : in_file j -> fblock C' x' j = if decide (j = bn) then a else fblock C x j;
  bm_keep b : taken sb C b -> taken sb C' b /\ (b <> indirect x -> C' b = C b);
  bm_new : fblock C x bn = 0 -> a <> 0 -> C' a = zero_block;
  bm_full : a = 0 -> forall y, valid_block sb y -> used sb C' y = true;
  bm_len : (length L' <= length L + 5)%nat;
  bm_log b : b ∈ L' -> b ∈ L \/ map_block b \/ (b = a /\ a <> 0) \/ (b = indirect x' /\ indirect x' <> 0);
  bm_indirect : indirect x <> 0 -> indirect x' = indirect x;
  bm_meta b : b < sb_bmapstart sb -> C' b = C b;
  bm_fresh : fblock C x bn = 0 -> ~ taken sb C a;
  bm_ifresh : indirect x = 0 -> ~ taken sb C (indirect x')
}.

(** The block is there. *)
Lemma not_taken_0 C b : b = 0 -> ~ taken sb C b.
Proof using Hsb. intros -> T. by apply (taken_nonzero sb C 0). Qed.

Lemma unused_not_taken C b : used sb C b = false -> ~ taken sb C b.
Proof using. intros U [_ T]. congruence. Qed.

Lemma bmap_post_old bn C L x :
  fblock C x bn <> 0 -> bmap_post bn (fblock C x bn) C L x C L x.
Proof using Hsb.
  intros H. split; [done| |done|congruence|congruence|lia|intros b; tauto|done|done|done|apply not_taken_0].
  intros j Hj. destruct (decide (j = bn)) as [->|]; done.
Qed.

Lemma bmap_direct C L x s bn :
  file_view C L [] x s -> op_open s -> 0 <= bn < NDIRECT -> Z.of_nat (length L) + 2 < LOGSIZE ->
  exists a C' L' x' s', bmap ip bn s = Ret a s' /\ file_step [] C L x s C' L' x' s' /\
    bmap_post bn a C L x C' L' x'.
Proof using All.
  intros V Hop Hbn HL. unfold bmap. rewrite kbind_gets, (inode_at_view _ _ _ _ _ V).
  destruct (Z.ltb_spec bn NDIRECT); [|lia].
  assert (Ef : fblock C x bn = iaddr x (Z.to_nat bn)) by (unfold fblock; destruct (Z.ltb_spec bn NDIRECT); [done|lia]).
  destruct (Z.eqb_spec (iaddr x (Z.to_nat bn)) 0) as [E0|E0]; cbn [negb].
  2: { exists (fblock C x bn), C, L, x, s. rewrite <- Ef in E0 |- *. split_and!; [done|by apply file_step_refl|].
       by apply bmap_post_old. }
  rewrite (fv_dev _ _ _ _ _ V). rewrite <- Ef in E0.
  destruct (file_balloc C L [] x s V Hop HL) as (a & C1 & L1 & s1 & R1 & S1 & G & _ & _ & Hlen & Hlog & Hres).
  destruct (fblock_grown sb C C1 x (fv_ok _ _ _ _ _ V) G) as [Hx1 Em]. krun R1.
  destruct Hres as [(-> & -> & Hall)|(Ta & Fa & Za & Ua)].
  - simpl. exists 0, C, L1, x, s1. split_and!; [done|done|].
    split; [done| |done|done|done|lia| |done|done|by intros _; apply not_taken_0|apply not_taken_0].
    + intros j Hj. destruct (decide (j = bn)) as [->|]; done.
    + intros b Hb. specialize (Hlog b Hb). tauto.
  - destruct (Z.eqb_spec a 0) as [->|Ha]; [by destruct Fa|].
    destruct (add_direct sb C1 x bn a Hx1 Hbn Fa Ta) as [Hx2 Em2].
    destruct (file_step_put [] C1 L1 x s1 (set_iaddr (Z.to_nat bn) a) (fs_view _ _ _ _ _ _ _ _ _ S1) eq_refl Hx2)
      as (s2 & R2 & S2). krun R2.
    exists a, C1, L1, (set_iaddr (Z.to_nat bn) a x), s2. split_and!; [done|by eapply file_step_trans|].
    assert (Ei : indirect (set_iaddr (Z.to_nat bn) a x) = indirect x).
    { unfold indirect. rewrite iaddr_set, decide_False; [done|unfold NDIRECT in *; lia|].
      rewrite (io_addrs _ _ _ Hx1). unfold naddrs, NDIRECT in *. lia. }
    split; [done| |intros b Hb; by destruct (gr_keep _ _ _ G b Hb)|done|done|lia| |done|apply G|
            intros _; by apply unused_not_taken|rewrite Ei; apply not_taken_0].
    + intros j Hj. rewrite Em2, Em by done. done.
    + intros b Hb. specialize (Hlog b Hb). tauto.
Qed.

(** The address of the indirect block. *)
Definition bmap_ind (x : inode) : K Z :=
  let addr := iaddr x (Z.to_nat NDIRECT) in
  if negb (addr =? 0) then kret addr else
  let! addr := balloc (i_dev x) in
  do! if! negb (addr =? 0) then put_inode ip (set_iaddr (Z.to_nat NDIRECT) addr);
  kret addr.

Lemma bmap_ind_run C L x s :
  file_view C L [] x s -> op_open s -> Z.of_nat (length L) + 2 < LOGSIZE ->
  exists ia C' L' x' s', bmap_ind x s = Ret ia s' /\ file_step [] C L x s C' L' x' s' /\ grown sb C C' /\
    (forall j, in_file j -> fblock C' x' j = fblock C x j) /\ (length L' <= length L + 2)%nat /\
    (forall b, b ∈ L' -> b ∈ L \/ map_block b \/ (b = ia /\ ia <> 0)) /\ indirect x' = ia /\
    (indirect x <> 0 -> C' = C /\ x' = x) /\ (indirect x = 0 -> ia <> 0 -> used sb C ia = false) /\
    (ia = 0 -> forall y, valid_block sb y -> used sb C' y = true).
Proof using All.
  intros V Hop HL. unfold bmap_ind. change (iaddr x (Z.to_nat NDIRECT)) with (indirect x).
  destruct (Z.eqb_spec (indirect x) 0) as [E0|E0]; cbn [negb].
  2: { exists (indirect x), C, L, x, s. split_and!; try done; [by apply file_step_refl| |lia|tauto].
       by apply grown_refl; apply V. }
  rewrite (fv_dev _ _ _ _ _ V).
  destruct (file_balloc C L [] x s V Hop HL) as (a & C1 & L1 & s1 & R1 & S1 & G & _ & _ & Hlen & Hlog & Hres).
  destruct (fblock_grown sb C C1 x (fv_ok _ _ _ _ _ V) G) as [Hx1 Em]. krun R1.
  destruct Hres as [(-> & -> & Hall)|(Ta & Fa & Za & Ua)].
  - simpl. exists 0, C, L1, x, s1. split_and!; try done.
  - destruct (Z.eqb_spec a 0) as [->|Ha]; [by destruct Fa|]. cbn [negb].
    destruct (add_indirect sb C1 x a Hx1 E0 Fa Ta Za) as (Hx2 & Ei & Em2).
    destruct (file_step_put [] C1 L1 x s1 (set_iaddr (Z.to_nat NDIRECT) a) (fs_view _ _ _ _ _ _ _ _ _ S1) eq_refl Hx2)
      as (s2 & R2 & S2). krun R2.
    exists a, C1, L1, (set_iaddr (Z.to_nat NDIRECT) a x), s2.
    split_and!; try done; [by eapply file_step_trans|]. intros j Hj. by rewrite Em2, Em.
Qed.

(** The entry of the indirect block [ia]. *)
Definition bmap_entry (dev ia bn : Z) : K Z :=
  let! bp := bread dev ia in
  let! a := buf_data bp in
  let! addr :=
    (let addr := get32 (4 * bn) a in
     if negb (addr =? 0) then kret addr else
     let! addr := balloc dev in
     do! if! negb (addr =? 0) then
       (do! put_buf bp (fun b => set_data (put32 (4 * bn) addr (b_data b)) b);
        log_write bp);
     kret addr) in
  do! brelse bp;
  kret addr.

(** The indirect block is held while its entry is read and filled in. *)
Section entry.
Context (C : Z -> block) (L : list Z) (x : inode) (s : kst) (bn : Z).
Hypothesis V : file_view C L [] x s.
Hypothesis Hop : op_open s.
Hypothesis Hbn : NDIRECT <= bn < MAXFILE.
Hypothesis Hi : indirect x <> 0.
Hypothesis HL : Z.of_nat (length L) + 3 < LOGSIZE.

Lemma fblock_entry : fblock C x bn = get32 (4 * (bn - NDIRECT)) (C (indirect x)).
Proof using Hbn Hi.
  clear HL. unfold fblock. destruct (Z.ltb_spec bn NDIRECT); [lia|]. by destruct (Z.eqb_spec (indirect x) 0).
Qed.

(** The new entry is stored and logged. *)
Lemma entry_store C1 L1 s1 s2 io i a :
  op_step pid d [] s s1 -> own pid d s1 i (indirect x) -> op_does pid d [indirect x] io s1 s2 ->
  file_view C1 L1 [indirect x] x s2 -> fresh C1 x a -> taken sb C1 a -> (length L1 <= length L + 2)%nat ->
  let C2 := <[indirect x := put32 (4 * (bn - NDIRECT)) a (C1 (indirect x))]> C1 in
  exists s4, (do! put_buf i (fun b => set_data (put32 (4 * (bn - NDIRECT)) a (b_data b)) b); do! log_write i; brelse i) s2
             = Ret tt s4 /\ op_view me pid d st C2 (logged (indirect x) L1) [] s4 /\
    (exists io, op_does pid d [] io s s4) /\ inode_ok sb C2 x /\ whole C2 /\ bitmap_ok sb C2 /\
    (forall j, in_file j -> fblock C2 x j = if decide (j = bn) then a else fblock C1 x j) /\
    (forall b, taken sb C2 b <-> taken sb C1 b).
Proof using All.
  intros S1 O1 S2 V2 Fa Ta Hlen C2. pose proof (fv_ok _ _ _ _ _ V2) as Hx.
  pose proof (io_indirect _ _ _ Hx Hi) as Ti.
  assert (O2 : own pid d s2 i (indirect x)) by (apply (os_own _ _ _ _ _ _ S2); [apply list_elem_of_here|done]).
  destruct (op_finish me pid d st C1 L1 [] s2 i (indirect x) (put32 (4 * (bn - NDIRECT)) a)) as (s4 & _ & R & V4 & S4).
  - apply V2.
  - apply (op_does_open _ _ _ _ _ _ S2), (op_does_open _ _ _ _ _ _ S1), Hop.
  - exact O2.
  - destruct Ti as [[H1 H2] _]. pose proof (layout sb Hsb). lia.
  - lia.
  - exists s4. destruct (add_entry sb Hsb C1 x bn a Hx (fv_whole _ _ _ _ _ V2) Hbn Hi Fa Ta) as (A1 & A2 & A3).
    split_and!; [exact R|exact V4| |exact A1|exact A2| |exact A3|].
    + exists (([] ++ io) ++ []). eapply op_does_trans; [|exact S4]. eapply op_does_trans; [exact S1|].
      apply (op_does_sub pid d [] [indirect x]); [set_solver|exact S2].
    + apply bitmap_ok_data_write; [done|apply V2|apply Ti].
    + intros b. by apply taken_data_write; [|apply Ti].
Qed.

Lemma bmap_entry_run :
  exists a C' L' s', bmap_entry d (indirect x) (bn - NDIRECT) s = Ret a s' /\
    file_step [] C L x s C' L' x s' /\ bmap_post bn a C L x C' L' x /\ (length L' <= length L + 3)%nat.
Proof using All.
  pose proof (fv_ok _ _ _ _ _ V) as Hx. pose proof (io_indirect _ _ _ Hx Hi) as Ti.
  destruct (op_bread me pid d st C L [] s (indirect x) (fv_view _ _ _ _ _ V)) as (i & s1 & R1 & O1 & E1 & V1 & S1).
  { apply not_elem_of_nil. }
  { unfold NBUF, LOGSIZE, MAXOPBLOCKS in *. simpl. lia. }
  unfold bmap_entry. krun R1. unfold buf_data. rewrite kbind_gets, E1. rewrite <- fblock_entry.
  assert (Hcl : indirect x ∈ L \/ C (indirect x) = dget (k_disk s) (indirect x)).
  { apply (op_view_clean me pid d st C L [] s); [apply V|apply not_elem_of_nil]. }
  destruct (Z.eqb_spec (fblock C x bn) 0) as [E0|E0]; cbn [negb].
  2: { rewrite kbind_kret. destruct (op_brelse _ _ _ _ _ _ _ _ _ _ V1 O1) as (s2 & R2 & V2 & S2).
       { by rewrite (proj1 (os_disk _ _ _ _ _ _ S1)). }
       krun R2. exists (fblock C x bn), C, L, s2. split_and!; [done| |by apply bmap_post_old|lia].
       eapply (file_step_op [] C L x s C L s2 []); try done; try apply V. by etransitivity. }
  assert (VF : file_view C L [indirect x] x s1).
  { destruct (op_does_keeps _ _ _ _ _ _ S1) as (K1 & K2 & K3 & _). pose proof V as [_ _ F1 F2 F3 F4 F5 F6 F7].
    split; rewrite ?K1, ?K2, ?K3; try done. split; [by constructor|simpl; lia]. }
  destruct (file_balloc C L [indirect x] x s1 VF (op_does_open _ _ _ _ _ _ S1 Hop) ltac:(lia))
    as (a & C1 & L1 & s2 & R2 & S2 & G & (io & D2) & Hsub & Hlen & Hlog & Hres).
  unfold kbind at 1. cbv beta. krun R2.
  destruct (fblock_grown sb C C1 x Hx G) as [Hx1 Em].
  destruct Hres as [(-> & -> & Hall)|(Ta & Fa & Za & Ua)].
  - cbn [Z.eqb negb]. rewrite kbind_kret. cbn [kret obind].
    assert (O2 : own pid d s2 i (indirect x)) by (apply (os_own _ _ _ _ _ _ D2); [apply list_elem_of_here|done]).
    destruct (op_brelse me pid d st C L1 [] s2 i (indirect x)) as (s3 & R3 & V3 & S3); [apply S2|done| |].
    { destruct Hcl as [Hc|Hc]; [left; by apply Hsub|right].
      by rewrite (proj1 (os_disk _ _ _ _ _ _ D2)), (proj1 (os_disk _ _ _ _ _ _ S1)). }
    krun R3. exists 0, C, L1, s3. split_and!; [done| | |lia].
    + eapply (file_step_op [] C L x s C L1 s3); try done; try apply V.
      eapply op_does_trans; [|exact S3]. eapply op_does_trans; [exact S1|].
      apply (op_does_sub pid d [] [indirect x]); [set_solver|exact D2].
    + split; [done| |done|done|done|lia| |done|done|by intros _; apply not_taken_0|done].
      * intros j Hj. destruct (decide (j = bn)) as [->|]; done.
      * intros b Hb. specialize (Hlog b Hb). tauto.
  - destruct (Z.eqb_spec a 0) as [->|Ha]; [by destruct Fa|]. cbn [negb].
    destruct (entry_store C1 L1 s1 s2 io i a S1 O1 D2 (fs_view _ _ _ _ _ _ _ _ _ S2) Fa Ta Hlen)
      as (s4 & R4 & V4 & (io' & D4) & A1 & A2 & A3 & A4 & A5).
    exists a, (<[indirect x := put32 (4 * (bn - NDIRECT)) a (C1 (indirect x))]> C1), (logged (indirect x) L1), s4.
    pose proof (logged_length (indirect x) L1) as Hll. split_and!; [| | |lia].
    + revert R4. unfold kbind. destruct (put_buf i _ s2) as [[] s5| | | |]; try done. cbn [obind].
      destruct (log_write i s5) as [[] s6| | | |]; try done. cbn [obind kret].
      intros R4. by rewrite R4.
    + eapply (file_step_op [] C L x s); try done. intros b Hb. apply A5. by apply (gr_keep _ _ _ G).
    + split; [done| | | |done|lia| |done| |intros _; by apply unused_not_taken|done].
      * intros j Hj. rewrite A4, Em by done. done.
      * intros b Hb. destruct (gr_keep _ _ _ G b Hb) as [G1 G2]. split; [by apply A5|].
        intros Hne. by rewrite fn_lookup_insert_ne.
      * intros _ _. rewrite fn_lookup_insert_ne; [done|]. by destruct Fa as (_ & F2 & _).
      * intros b Hb. apply logged_elem in Hb as [->|Hb]; [tauto|]. specialize (Hlog b Hb). tauto.
      * intros b Hb. destruct Ti as [[Ti1 _] _]. pose proof (layout sb Hsb).
        rewrite fn_lookup_insert_ne by lia. by apply (gr_meta _ _ _ G).
Qed.
End entry.

Lemma bmap_run C L x s bn :
  file_view C L [] x s -> op_open s -> in_file bn -> Z.of_nat (length L) + 5 < LOGSIZE ->
  exists a C' L' x' s', bmap ip bn s = Ret a s' /\ file_step [] C L x s C' L' x' s' /\
    bmap_post bn a C L x C' L' x'.
Proof using All.
  intros V Hop Hbn HL. destruct (Z.lt_ge_cases bn NDIRECT) as [Hd|Hd].
  { apply bmap_direct; try done; [destruct Hbn; lia|lia]. }
  assert (Hb : NDIRECT <= bn < MAXFILE) by (destruct Hbn; lia).
  assert (Eb : bmap ip bn s =
    (let! ia := bmap_ind x in if ia =? 0 then kret 0 else bmap_entry (i_dev x) ia (bn - NDIRECT)) s).
  { unfold bmap. rewrite kbind_gets, (inode_at_view _ _ _ _ _ V).
    destruct (Z.ltb_spec bn NDIRECT); [lia|]. destruct (Z.ltb_spec (bn - NDIRECT) NINDIRECT); [reflexivity|].
    unfold MAXFILE in *. lia. }
  destruct (bmap_ind_run C L x s V Hop ltac:(lia))
    as (ia & C1 & L1 & x1 & s1 & R1 & S1 & G & Em & Hlen & Hlog & Ei & Hsame & Hfree & Hfull).
  rewrite Eb. krun R1. destruct (Z.eqb_spec ia 0) as [E0|E0].
  - exists 0, C1, L1, x1, s1. split_and!; [done|done|]. rewrite E0 in *.
    assert (Ez : indirect x = 0).
    { destruct (decide (indirect x = 0)) as [|Hn]; [done|]. destruct (Hsame Hn) as [_ ->]. done. }
    assert (Ef : fblock C x bn = 0).
    { unfold fblock. rewrite Ez. destruct (Z.ltb_spec bn NDIRECT); [lia|done]. }
    split; [done| |intros b H; by destruct (gr_keep _ _ _ G b H)|done|by intros _; apply Hfull|lia| |congruence|
           apply G|by intros _; apply not_taken_0|by intros _; apply not_taken_0].
    + intros j Hj. rewrite Em by done. destruct (decide (j = bn)) as [->|]; done.
    + intros b H. specialize (Hlog b H). tauto.
  - pose proof (fs_view _ _ _ _ _ _ _ _ _ S1) as V1.
    assert (Hi1 : indirect x1 <> 0) by congruence.
    destruct (bmap_entry_run C1 L1 x1 s1 bn V1 (file_step_open _ _ _ _ _ _ _ _ _ S1 Hop) Hb Hi1 ltac:(lia))
      as (a & C2 & L2 & s2 & R2 & S2 & [B1 B2 B3 B4 B5 B6 B7 _ B8 B9 _] & Hl2).
    rewrite <- Ei, <- (fv_dev _ _ _ _ _ V) in *. rewrite R2.
    exists a, C2, L2, x1, s2. split_and!; [done|by eapply file_step_trans|]. split; try done; [| | | |lia| | | | |].
    + intros H0. rewrite <- Em in H0 by done. destruct (B1 H0) as (-> & -> & _). rewrite Em in H0 |- * by done.
      assert (Hn : indirect x <> 0).
      { intros Hz. apply H0. unfold fblock. rewrite Hz. destruct (Z.ltb_spec bn NDIRECT); [lia|done]. }
      destruct (Hsame Hn) as [-> ->]. done.
    + intros j Hj. rewrite B2 by done. by rewrite Em.
    + intros b H. destruct (gr_keep _ _ _ G b H) as [T1 E1]. destruct (B3 b T1) as [T2 E2]. split; [done|].
      intros Hne. rewrite E2, E1; [done|]. intros ->. destruct (decide (indirect x = 0)) as [Hz|Hz].
      * destruct H as [_ H]. rewrite Hfree in H; done.
      * destruct (Hsame Hz) as [_ ->]. done.
    + intros H0. apply B4. by rewrite Em.
    + intros b H. destruct (B7 b H) as [H1|[H1|[H1|H1]]]; [|tauto..]. destruct (Hlog b H1) as [H2|[H2|H2]]; tauto.
    + intros Hn. by destruct (Hsame Hn) as [_ ->].
    + intros b H. rewrite B8 by done. by apply (gr_meta _ _ _ G).
    + intros H0 T. rewrite <- Em in H0 by done. apply (B9 H0). by apply (gr_keep _ _ _ G).
    + intros H0. apply unused_not_taken, Hfree; [done|congruence].
Qed.
End bmap.
