(* ===== verification/Path.v ===== *)
(** * Path names

    [skipelem] of [kernel/fs.c] against the definition of a path as the list
    of its elements: the non-empty parts between slashes. *)

From S2P Require Import Prelude Param Mem CString Kernel Spinlock Kalloc Sched Sleeplock Vm PageTable UserCopy Uart Printf Bio Log Fs Console.
Open Scope Z_scope.

(** ** The elements of a path *)

(** The parts between slashes, empty ones included. *)
Fixpoint split (path : list Z) : list (list Z) :=
  match path with
  | [] => [[]]
  | c :: path =>
    if c =? slash then [] :: split path
    else match split path with
         | e :: es => (c :: e) :: es
         | [] => [[c]]
         end
  end.

Definition nonempty (e : list Z) : bool := negb (bool_decide (e = [])).
Definition elements (path : list Z) : list (list Z) := filter nonempty (split path).

(** ** Lemmas *)

Lemma split_slash p : split (slash :: p) = [] :: split p.
Proof. reflexivity. Qed.

Lemma elements_slash p : elements (slash :: p) = elements p.
Proof. unfold elements. by rewrite split_slash. Qed.

Lemma elements_skip p : elements (skip_slashes p) = elements p.
Proof.
  induction p as [|c p IH]; simpl; [done|]. destruct (Z.eqb_spec c slash) as [->|]; [|done].
  by rewrite elements_slash.
Qed.

Lemma skip_hd p : hd 0 (skip_slashes p) <> slash.
Proof. induction p as [|c p IH]; simpl; [done|]. by destruct (Z.eqb_spec c slash). Qed.

Lemma skip_length p : (length (skip_slashes p) <= length p)%nat.
Proof. induction p as [|c p IH]; simpl; [done|]. case_match; simpl; lia. Qed.

Lemma skip_Forall (P : Z -> Prop) p : Forall P p -> Forall P (skip_slashes p).
Proof. induction 1; simpl; [constructor|]. case_match; [done|by constructor]. Qed.

(** The first element of a path is what [take_elem] finds. *)
Lemma split_take p e r :
  take_elem p = (e, r) -> exists es, split p = e :: es /\ split r = [] :: es.
Proof.
  revert e r. induction p as [|c p IH]; intros e r H; simpl in H.
  - injection H as <- <-. by exists [].
  - destruct (Z.eqb_spec c slash) as [->|Hc].
    + injection H as <- <-. exists (split p). by rewrite split_slash.
    + destruct (take_elem p) as [e' r'] eqn:E. injection H as <- <-.
      destruct (IH e' r' eq_refl) as (es & E1 & E2). exists es. simpl.
      rewrite (proj2 (Z.eqb_neq c slash) Hc), E1. done.
Qed.

Lemma take_elem_app p : let (e, r) := take_elem p in p = e ++ r.
Proof.
  induction p as [|c p IH]; simpl; [done|]. destruct (c =? slash); [done|].
  destruct (take_elem p) as [e r]. by rewrite IH.
Qed.

Lemma take_elem_nonempty p e r : p <> [] -> hd 0 p <> slash -> take_elem p = (e, r) -> e <> [].
Proof.
  destruct p as [|c p]; [done|]. simpl. intros _ Hc. rewrite (proj2 (Z.eqb_neq c slash) Hc).
  destruct (take_elem p). by intros [= <- _].
Qed.

Lemma elements_take p e r :
  p <> [] -> hd 0 p <> slash -> take_elem p = (e, r) -> elements p = e :: elements r.
Proof.
  intros Hp Hh Ht. destruct (split_take p e r Ht) as (es & E1 & E2).
  pose proof (take_elem_nonempty p e r Hp Hh Ht) as He.
  assert (Hn : nonempty e = true) by (unfold nonempty; by rewrite bool_decide_false).
  unfold elements. rewrite E1, E2. rewrite filter_cons_True by (by rewrite Hn). done.
Qed.

Lemma until_nul_id l : Forall (fun c => c <> 0) l -> until_nul l = l.
Proof.
  induction 1 as [|c l Hc _ IH]; simpl; [done|]. rewrite (proj2 (Z.eqb_neq c 0) Hc). by rewrite IH.
Qed.

Lemma until_nul_app l r : Forall (fun c => c <> 0) l -> until_nul (l ++ 0 :: r) = l.
Proof.
  induction 1 as [|c l Hc _ IH]; simpl; [done|]. rewrite (proj2 (Z.eqb_neq c 0) Hc). by rewrite IH.
Qed.

(** The name buffer after a copy holds the element, cut at [DIRSIZ] bytes. *)
Lemma name_buffer (e name : list Z) :
  Forall (fun c => c <> 0) e -> length name = Z.to_nat DIRSIZ ->
  let name' := if Z.of_nat (length e) >=? DIRSIZ then take (Z.to_nat DIRSIZ) e else splice 0 (e ++ [0]) name in
  length name' = Z.to_nat DIRSIZ /\ until_nul name' = take (Z.to_nat DIRSIZ) e.
Proof.
  intros He Hn. simpl. rewrite Z.geb_leb. unfold DIRSIZ in *.
  destruct (Z.leb_spec 14 (Z.of_nat (length e))).
  - rewrite length_take. split; [lia|]. by apply until_nul_id, Forall_take.
  - split; [rewrite length_splice; [done|rewrite length_app; simpl; lia]|].
    unfold splice. simpl. rewrite <- app_assoc. simpl. rewrite until_nul_app by done.
    by rewrite take_ge by lia.
Qed.

Lemma skipelem_run path name :
  Forall (fun c => c <> 0) path -> length name = Z.to_nat DIRSIZ ->
  match skipelem path name with
  | None => elements path = []
  | Some (path', name') =>
    exists e, elements path = e :: elements path' /\
      length name' = Z.to_nat DIRSIZ /\ until_nul name' = take (Z.to_nat DIRSIZ) e /\
      hd 0 path' <> slash /\ (length path' < length path)%nat
  end.
Proof.
  intros Hz Hn. unfold skipelem. rewrite <- (elements_skip path).
  pose proof (skip_hd path) as Hh. pose proof (skip_length path) as Hl.
  pose proof (skip_Forall _ path Hz) as Hz'.
  destruct (skip_slashes path) as [|c p] eqn:E; [done|].
  destruct (take_elem (c :: p)) as [e r] eqn:Et.
  pose proof (take_elem_app (c :: p)) as Ha. rewrite Et in Ha.
  assert (Hcp : c :: p <> []) by done. pose proof (take_elem_nonempty _ e r Hcp Hh Et) as He.
  assert (Hez : Forall (fun c => c <> 0) e) by (rewrite Ha in Hz'; by apply Forall_app in Hz' as [? _]).
  destruct (name_buffer e name Hez Hn) as [N1 N2].
  exists e. split_and!; [|done|done|apply skip_hd|].
  - rewrite elements_skip. by apply elements_take.
  - pose proof (skip_length r). rewrite Ha, length_app in Hl. destruct e; [done|]. simpl in *. lia.
Qed.

Lemma splice_bytes off l m : bytes_ok l -> bytes_ok m -> bytes_ok (splice off l m).
Proof. intros Hl Hm. unfold splice, bytes_ok in *. repeat apply Forall_app_2; auto using Forall_take, Forall_drop. Qed.

Lemma skipelem_rest (P : Z -> Prop) path name path' name' :
  Forall P path -> skipelem path name = Some (path', name') -> Forall P path'.
Proof.
  intros Hp E. unfold skipelem in E. pose proof (skip_Forall _ path Hp) as Hs.
  destruct (skip_slashes path) as [|c p]; [done|]. pose proof (take_elem_app (c :: p)) as Ha.
  destruct (take_elem (c :: p)) as [e r]. injection E as <- _. rewrite Ha in Hs. apply Forall_app in Hs as [_ Hr].
  by apply skip_Forall.
Qed.

Lemma elements_nil p : hd 0 p <> slash -> elements p = [] -> p = [].
Proof.
  intros Hh E. destruct p as [|c p]; [done|]. destruct (take_elem (c :: p)) as [e r] eqn:Et.
  rewrite (elements_take (c :: p) e r ltac:(discriminate) Hh Et) in E. discriminate.
Qed.

Lemma skipelem_bytes path name path' name' :
  bytes_ok path -> bytes_ok name -> skipelem path name = Some (path', name') -> bytes_ok name'.
Proof.
  intros Hp Hn E. unfold skipelem in E. pose proof (skip_Forall _ path Hp) as Hs.
  destruct (skip_slashes path) as [|c p]; [done|]. pose proof (take_elem_app (c :: p)) as Ha.
  destruct (take_elem (c :: p)) as [e r]. injection E as _ <-. rewrite Ha in Hs. apply Forall_app in Hs as [He _].
  case_match; [by apply Forall_take|]. apply splice_bytes; [|done]. apply Forall_app_2; [done|]. repeat constructor; lia.
Qed.

(** [skipelem] returns null exactly when the path has no element;
    otherwise it leaves the first element, cut at [DIRSIZ] bytes, in the name
    buffer, whatever was there before, and returns a shorter path that has
    the remaining elements and does not start with a slash. *)
Theorem skipelem_elements path name :
  Forall (fun c => c <> 0) path -> length name = Z.to_nat DIRSIZ ->
  match skipelem path name with
  | None => elements path = []
  | Some (path', name') =>
    exists e, elements path = e :: elements path' /\
      length name' = Z.to_nat DIRSIZ /\ until_nul name' = take (Z.to_nat DIRSIZ) e /\
      hd 0 path' <> slash /\ (length path' < length path)%nat
  end.
Proof. apply skipelem_run. Qed.

(** [skipelem("///a//bb", name) = "bb"], setting [name] to ["a"]. *)
Lemma skipelem_elements_witness :
  skipelem (bytes_of "///a//bb") (replicate 14 7) =
    Some (bytes_of "bb", bytes_of "a" ++ 0 :: replicate 12 7) /\
  elements (bytes_of "///a//bb") = [bytes_of "a"; bytes_of "bb"].
Proof.
  pose proof (skipelem_elements (bytes_of "///a//bb") (replicate 14 7)) as H.
  assert (E : skipelem (bytes_of "///a//bb") (replicate 14 7) =
    Some (bytes_of "bb", bytes_of "a" ++ 0 :: replicate 12 7)) by (vm_compute; reflexivity).
  rewrite E in H. destruct H as (e & H1 & _ & H3 & _).
  - repeat constructor; discriminate.
  - reflexivity.
  - split; [exact E|]. vm_compute in H3. vm_compute. reflexivity.
Defined.
