(* ===== verification/Inode.v ===== *)
(** * Inodes, on disk and in the table

    The encoding of an inode in its block ([iupdate], [ilock] of
    [kernel/fs.c]) and the table of inodes in use ([iget], [idup]). *)

From S2P Require Import Prelude Param Mem CString Kernel Spinlock Kalloc Sched Sleeplock Vm PageTable UserCopy Uart Printf Bio Log Fs.
Open Scope Z_scope.

(** ** Fields in a block *)

Lemma s16_le_val v : - 2 ^ 15 <= v < 2 ^ 15 -> s16 (le_val (le_bytes 2 v)) = v.
Proof. intros Hv. rewrite le_val_le_bytes. uns. change (256 ^ Z.of_nat 2) with (2 ^ 16). zlia. Qed.

Lemma le_val_small n v : 0 <= v < 256 ^ Z.of_nat n -> le_val (le_bytes n v) = v.
Proof. intros Hv. rewrite le_val_le_bytes. by apply Z.mod_small. Qed.

Lemma length_words (l : list Z) : length (concat (map (le_bytes 4) l)) = (4 * length l)%nat.
Proof.
  induction l as [|v l IH]; [done|]. cbn [map concat]. rewrite length_app, length_le_bytes, IH. simpl. lia.
Qed.

Lemma slice_words (l : list Z) i v :
  l !! i = Some v -> slice (4 * i) 4 (concat (map (le_bytes 4) l)) = le_bytes 4 v.
Proof.
  revert i. induction l as [|w l IH]; intros [|i] H; try done; cbn [map concat].
  - injection H as ->. unfold slice. rewrite drop_0. apply take_app_length'. by rewrite length_le_bytes.
  - simpl in H. rewrite <- (IH i H). unfold slice. f_equal.
    rewrite drop_app_ge by (rewrite length_le_bytes; lia). f_equal. rewrite length_le_bytes. lia.
Qed.

(** A part of what was stored. *)
Lemma slice_splice_in off bs l k n :
  (off + length bs <= length l)%nat -> (k + n <= length bs)%nat ->
  slice (off + k) n (splice off bs l) = slice k n bs.
Proof.
  intros H Hk. unfold slice, splice. rewrite <- drop_drop.
  rewrite drop_app_length' by (rewrite length_take; lia).
  rewrite drop_app_le by lia. rewrite take_app_le; [done|]. rewrite length_drop. lia.
Qed.

(** ** The encoding of an inode *)

(** An inode whose fields fit the types of [struct dinode]. *)
Record dinode_ok (x : inode) : Prop := {
  do_type : - 2 ^ 15 <= i_type x < 2 ^ 15;
  do_major : - 2 ^ 15 <= i_major x < 2 ^ 15;
  do_minor : - 2 ^ 15 <= i_minor x < 2 ^ 15;
  do_nlink : - 2 ^ 15 <= i_nlink x < 2 ^ 15;
  do_size : 0 <= i_size x < 2 ^ 32;
  do_len : length (i_addrs x) = naddrs;
  do_addrs : Forall (fun a => 0 <= a < 2 ^ 32) (i_addrs x)
}.

(** The place of an inode in its block. *)
Definition slot (o : Z) (l : list Z) : Prop := 0 <= o /\ o + sizeof_dinode <= Z.of_nat (length l).

Lemma dip_slot inum l : 0 <= inum -> Z.of_nat (length l) = BSIZE -> slot (dip inum) l.
Proof.
  intros Hi Hl. unfold slot, dip. rewrite Hl.
  change sizeof_dinode with 64. change IPB with 16. unfold BSIZE. zlia.
Qed.

Lemma length_put_dinode o x l :
  slot o l -> length (i_addrs x) = naddrs -> length (put_dinode o x l) = length l.
Proof.
  unfold slot. change sizeof_dinode with 64. change naddrs with 13%nat. intros [H1 H2] Hl.
  unfold put_dinode, put16, put32, di_addrs, di_size, di_nlink, di_minor, di_major, di_type.
  repeat (rewrite length_splice; [|rewrite ?length_words, ?length_le_bytes, ?Hl; repeat (rewrite length_splice; [|rewrite ?length_le_bytes]); lia]).
  done.
Qed.

(** Lengths of blocks built by nested stores. *)
Ltac slen :=
  rewrite ?length_words, ?length_le_bytes;
  first [lia | rewrite length_splice; [slen|slen]].

Section encoding.
Context (o : Z) (x : inode) (l : list Z).
Hypothesis Hs : slot o l.
Hypothesis Hx : dinode_ok x.

Ltac open_dinode :=
  pose proof (do_len x Hx) as Hl; destruct Hs as [H1 H2]; revert H2 Hl;
  change sizeof_dinode with 64; change naddrs with 13%nat; intros H2 Hl;
  unfold get16, get32, put_dinode, put16, put32, di_addrs, di_size, di_nlink, di_minor, di_major, di_type.

(** Look below the [k] outer stores, which are elsewhere. *)
Tactic Notation "below" integer(k) := do k (rewrite slice_splice_ne; [|slen|slen]).

Lemma slice_here off n v (m : list Z) :
  0 <= off -> (Z.to_nat off + n <= length m)%nat ->
  slice (Z.to_nat off) n (splice (Z.to_nat off) (le_bytes n v) m) = le_bytes n v.
Proof using Type.
  intros Ho Hm. pose proof (slice_splice (Z.to_nat off) (le_bytes n v) m) as E.
  rewrite length_le_bytes in E. by apply E.
Qed.

Lemma put_type : get16 (o + di_type) (put_dinode o x l) = i_type x.
Proof using Hs Hx.
  open_dinode. below 5. rewrite slice_here by (lia || slen). apply s16_le_val, Hx.
Qed.
Lemma put_major : get16 (o + di_major) (put_dinode o x l) = i_major x.
Proof using Hs Hx.
  open_dinode. below 4. rewrite slice_here by (lia || slen). apply s16_le_val, Hx.
Qed.
Lemma put_minor : get16 (o + di_minor) (put_dinode o x l) = i_minor x.
Proof using Hs Hx.
  open_dinode. below 3. rewrite slice_here by (lia || slen). apply s16_le_val, Hx.
Qed.
Lemma put_nlink : get16 (o + di_nlink) (put_dinode o x l) = i_nlink x.
Proof using Hs Hx.
  open_dinode. below 2. rewrite slice_here by (lia || slen). apply s16_le_val, Hx.
Qed.
Lemma put_size : get32 (o + di_size) (put_dinode o x l) = i_size x.
Proof using Hs Hx.
  open_dinode. below 1. rewrite slice_here by (lia || slen). apply le_val_small, Hx.
Qed.

Lemma put_addr i a : i_addrs x !! i = Some a -> get32 (o + di_addrs i) (put_dinode o x l) = a.
Proof using Hs Hx.
  intros Ha. pose proof (lookup_lt_Some _ _ _ Ha) as Hi. pose proof (do_addrs x Hx) as Hr.
  rewrite Forall_lookup in Hr. specialize (Hr i a Ha). open_dinode.
  replace (Z.to_nat (o + (12 + 4 * Z.of_nat i))) with (Z.to_nat (o + (12 + 4 * Z.of_nat 0)) + 4 * i)%nat by lia.
  rewrite slice_splice_in by slen. rewrite (slice_words _ _ _ Ha). by apply le_val_small.
Qed.

Lemma put_addrs : map (fun i => get32 (o + di_addrs i) (put_dinode o x l)) (seq 0 naddrs) = i_addrs x.
Proof using Hs Hx.
  rewrite <- (do_len x Hx). apply list_eq. intros i. rewrite list_lookup_fmap.
  destruct (i_addrs x !! i) as [a|] eqn:Ha.
  - rewrite lookup_seq_lt by (by eapply lookup_lt_Some). simpl. by rewrite (put_addr i a Ha).
  - apply lookup_ge_None in Ha. by rewrite lookup_seq_ge.
Qed.

(** Bytes outside the inode's place stay. *)
Lemma put_other off n :
  0 <= off -> off + Z.of_nat n <= o \/ o + sizeof_dinode <= off ->
  slice (Z.to_nat off) n (put_dinode o x l) = slice (Z.to_nat off) n l.
Proof using Hs Hx.
  intros Ho Hd. open_dinode. revert Hd. change sizeof_dinode with 64. intros Hd. below 6. done.
Qed.
End encoding.

(** The inode as [ilock] finds it after [iupdate] stored [x]: identity,
    references and validity are those of the table entry. *)
Definition reloaded (x y : inode) : inode :=
  mkinode (i_dev y) (i_inum y) (i_ref y) (i_valid y) (i_type x) (i_major x) (i_minor x) (i_nlink x)
    (i_size x) (i_addrs x).

Lemma dip_disjoint i j :
  0 <= i -> 0 <= j -> i mod IPB <> j mod IPB ->
  dip i + sizeof_dinode <= dip j \/ dip j + sizeof_dinode <= dip i.
Proof. intros Hi Hj. unfold dip. change sizeof_dinode with 64. change IPB with 16. zlia. Qed.

(** An inode that [iupdate] stored in its block is read back by [ilock]
    field for field, and every other inode of the block reads as before. *)
Theorem dinode_roundtrip inum x l y :
  0 <= inum -> Z.of_nat (length l) = BSIZE -> dinode_ok x ->
  load_dinode (dip inum) (put_dinode (dip inum) x l) y = reloaded x y /\
  forall j, 0 <= j -> j mod IPB <> inum mod IPB ->
    load_dinode (dip j) (put_dinode (dip inum) x l) y = load_dinode (dip j) l y.
Proof.
  intros Hi Hl Hx. pose proof (dip_slot inum l Hi Hl) as Hs. split.
  - unfold load_dinode, reloaded. rewrite put_type, put_major, put_minor, put_nlink, put_size, put_addrs by done.
    reflexivity.
  - intros j Hj Hne. pose proof (dip_slot j l Hj Hl) as Hsj.
    pose proof (dip_disjoint j inum Hj Hi Hne) as Hd. destruct Hs as [Hs1 Hs2], Hsj as [Hsj1 _].
    assert (Hf : forall k n, 0 <= k -> k + Z.of_nat n <= sizeof_dinode ->
      slice (Z.to_nat (dip j + k)) n (put_dinode (dip inum) x l) = slice (Z.to_nat (dip j + k)) n l).
    { intros k n Hk Hn. apply put_other; [done|done|lia|]. lia. }
    change sizeof_dinode with 64 in Hf. unfold load_dinode, get16, get32.
    unfold di_type, di_major, di_minor, di_nlink, di_size.
    rewrite !Hf by (simpl; lia). f_equal. apply map_ext_in. intros k Hk. apply in_seq in Hk.
    change naddrs with 13%nat in Hk. rewrite Hf by (unfold di_addrs; simpl; lia). done.
Qed.

Lemma dinode_roundtrip_witness :
  load_dinode (dip 17) (put_dinode (dip 17) (mkinode 1 17 1 true T_FILE 0 0 1 300 (45 :: replicate 12 0)) zero_block)
    (mkinode 1 17 3 false 0 0 0 0 0 (replicate 13 0)) =
  mkinode 1 17 3 false T_FILE 0 0 1 300 (45 :: replicate 12 0).
Proof.
  destruct (dinode_roundtrip 17 (mkinode 1 17 1 true T_FILE 0 0 1 300 (45 :: replicate 12 0)) zero_block
    (mkinode 1 17 3 false 0 0 0 0 0 (replicate 13 0))) as [E _].
  - lia.
  - unfold zero_block. rewrite length_replicate. reflexivity.
  - split; cbn; unfold T_FILE; try lia; try reflexivity. do 13 (apply List.Forall_cons; [lia|]). constructor.
  - rewrite E. reflexivity.
Defined.

(** ** The table of inodes in use *)

(** No inode has two entries in use. *)
Record itable_ok (l : list inode) : Prop := {
  it_len : length l = NINODE;
  it_ref i x : l !! i = Some x -> 0 <= i_ref x;
  it_unique i j x y : l !! i = Some x -> l !! j = Some y -> 0 < i_ref x -> 0 < i_ref y ->
    i_dev x = i_dev y -> i_inum x = i_inum y -> i = j
}.

Definition is_inode (dev inum : Z) (x : inode) : Prop := 0 < i_ref x /\ i_dev x = dev /\ i_inum x = inum.

Lemma iget_test dev inum x :
  (i_ref x >? 0) && (i_dev x =? dev) && (i_inum x =? inum) = true <-> is_inode dev inum x.
Proof. unfold is_inode. rewrite !andb_true_iff, Z.gtb_lt, !Z.eqb_eq. tauto. Qed.

(** The search finds the inode's entry, else the first free one, if any. *)
Lemma iget_scan_spec dev inum l : forall i empty,
  match iget_scan dev inum empty i l with
  | inl k => exists j x, k = (i + j)%nat /\ l !! j = Some x /\ is_inode dev inum x
  | inr e =>
    (forall j x, l !! j = Some x -> ~ is_inode dev inum x) /\
    match e with
    | None => empty = None /\ forall j x, l !! j = Some x -> i_ref x <> 0
    | Some k => empty = Some k \/ (exists j x, k = (i + j)%nat /\ l !! j = Some x /\ i_ref x = 0)
    end
  end.
Proof.
  induction l as [|y l IH]; intros i empty; cbn [iget_scan].
  { split; [done|]. destruct empty; [by left|done]. }
  destruct ((i_ref y >? 0) && (i_dev y =? dev) && (i_inum y =? inum)) eqn:E.
  { exists 0%nat, y. split_and!; [lia|done|by apply iget_test]. }
  assert (Hy : ~ is_inode dev inum y) by (rewrite <- iget_test; by rewrite E).
  set (empty' := if bool_decide (empty = None) && (i_ref y =? 0) then Some i else empty).
  specialize (IH (S i) empty'). destruct (iget_scan dev inum empty' (S i) l) as [k|e].
  - destruct IH as (j & x & -> & Hj & Hx). exists (S j), x. split_and!; [lia|done|done].
  - destruct IH as [Hn He]. split; [intros [|j] x Hj; [by injection Hj as <-|by apply (Hn j)]|].
    unfold empty' in He. destruct e as [k|].
    + destruct He as [He|(j & x & -> & Hj & Hx)]; [|right; exists (S j), x; split_and!; [lia|done|done]].
      case_bool_decide as Eb; simpl in He; [|by left]. destruct (Z.eqb_spec (i_ref y) 0) as [E0|]; [|by left].
      injection He as <-. right. exists 0%nat, y. split_and!; [lia|done|done].
    + destruct He as [He Hr]. case_bool_decide as Eb; simpl in He; [|by subst].
      destruct (Z.eqb_spec (i_ref y) 0) as [E0|E0]; [done|]. split; [done|].
      intros [|j] x Hj; [by injection Hj as <-|by apply (Hr j)].
Qed.

(** [release] at the end of a critical section that changed inodes only. *)
Lemma itable_release l s :
  cpu_ok s -> is_free LKitable s ->
  release LKitable (set_inodes l (acquired LKitable s)) = Ret tt (set_inodes l (norm s)).
Proof. intros Hc Hf. by rewrite (release_after LKitable s) by done. Qed.

Lemma inode_at_lookup s i x : k_inodes s !! i = Some x -> inode_at s i = x.
Proof. intros H. unfold inode_at. by rewrite H. Qed.

(** The entry [iget] takes over. *)
Definition fresh_inode (dev inum : Z) (x : inode) : inode :=
  mkinode dev inum 1 false (i_type x) (i_major x) (i_minor x) (i_nlink x) (i_size x) (i_addrs x).

Lemma iget_run dev inum s :
  cpu_ok s -> is_free LKitable s ->
  iget dev inum s =
  match iget_scan dev inum None 0 (k_inodes s) with
  | inl ip => Ret ip (set_inodes (<[ip := set_iref (i_ref (inode_at s ip) + 1) (inode_at s ip)]> (k_inodes s)) (norm s))
  | inr (Some ip) => Ret ip (set_inodes (<[ip := fresh_inode dev inum (inode_at s ip)]> (k_inodes s)) (norm s))
  | inr None => Panic "iget: no inodes" (acquired LKitable s)
  end.
Proof.
  intros Hc Hf. unfold iget. krun (acquire_run _ s Hc Hf). rewrite kbind_gets.
  change (k_inodes (acquired LKitable s)) with (k_inodes s).
  destruct (iget_scan dev inum None 0 (k_inodes s)) as [ip|[ip|]]; [| |done];
    unfold put_inode; rewrite kbind_modify; krun (itable_release _ s Hc Hf); reflexivity.
Qed.

(** Replacing entry [ip], which is the inode's entry or is free. *)
Lemma itable_insert l ip x y dev inum :
  itable_ok l -> l !! ip = Some x -> 0 < i_ref y -> i_dev y = dev -> i_inum y = inum ->
  (forall j z, j <> ip -> l !! j = Some z -> ~ is_inode dev inum z) -> itable_ok (<[ip := y]> l).
Proof.
  intros [H1 H2 H3] Hx Hr Hd Hi Hn. pose proof (lookup_lt_Some _ _ _ Hx) as Hlt. split.
  - by rewrite length_insert.
  - intros i z Hz. destruct (decide (i = ip)) as [->|Hne].
    + rewrite list_lookup_insert_eq in Hz by done. injection Hz as <-. lia.
    + rewrite list_lookup_insert_ne in Hz by done. by apply (H2 i).
  - intros i j u v Hu Hv Hru Hrv Ed Ei.
    destruct (decide (i = ip)) as [->|Hip], (decide (j = ip)) as [->|Hjp]; [done| | |].
    + rewrite list_lookup_insert_eq in Hu by done. injection Hu as <-.
      rewrite list_lookup_insert_ne in Hv by done. destruct (Hn j v Hjp Hv). by rewrite <- Hd, <- Hi.
    + rewrite list_lookup_insert_eq in Hv by done. injection Hv as <-.
      rewrite list_lookup_insert_ne in Hu by done. destruct (Hn i u Hip Hu). by rewrite <- Hd, <- Hi.
    + rewrite list_lookup_insert_ne in Hu, Hv by done. by apply (H3 i j u v).
Qed.

(** Every way [iget] ends. *)
Lemma iget_cases dev inum s :
  cpu_ok s -> is_free LKitable s -> itable_ok (k_inodes s) ->
  (exists ip x y, iget dev inum s = Ret ip (set_inodes (<[ip := y]> (k_inodes s)) (norm s)) /\
     k_inodes s !! ip = Some x /\ itable_ok (<[ip := y]> (k_inodes s)) /\
     ((is_inode dev inum x /\ y = set_iref (i_ref x + 1) x) \/
      (i_ref x = 0 /\ y = fresh_inode dev inum x /\
       forall j z, k_inodes s !! j = Some z -> ~ is_inode dev inum z))) \/
  (iget dev inum s = Panic "iget: no inodes" (acquired LKitable s) /\
   forall j z, k_inodes s !! j = Some z -> 0 < i_ref z /\ ~ is_inode dev inum z).
Proof.
  intros Hc Hf Hok. rewrite iget_run by done.
  pose proof (iget_scan_spec dev inum (k_inodes s) 0 None) as Hs.
  destruct (iget_scan dev inum None 0 (k_inodes s)) as [ip|[ip|]].
  - left. destruct Hs as (j & x & -> & Hj & Hx). simpl. rewrite (inode_at_lookup s j x Hj).
    exists j, x, (set_iref (i_ref x + 1) x). split_and!; [done|done| |by left].
    destruct Hx as (Hr & Hd & Hi). apply (itable_insert _ _ x _ dev inum); try done; [simpl; lia|].
    intros k z Hk Hz (Hrz & Hdz & Hiz). apply Hk. apply (it_unique _ Hok k j z x); congruence.
  - left. destruct Hs as [Hn [Hs|(j & x & -> & Hj & Hx)]]; [done|]. simpl.
    rewrite (inode_at_lookup s j x Hj). exists j, x, (fresh_inode dev inum x).
    split_and!; [done|done| |by right]. apply (itable_insert _ _ x _ dev inum); try done.
    intros k z _ Hz. by apply (Hn k).
  - right. destruct Hs as (Hn & _ & Hr). split; [done|]. intros j z Hz. split; [|by apply (Hn j)].
    pose proof (it_ref _ Hok j z Hz). pose proof (Hr j z Hz). lia.
Qed.

(** [iget] returns the entry of the inode with one more reference, or
    takes over a free entry with one reference and no contents; no inode ever
    has two entries; it panics exactly when the inode is not in the table and
    every entry is in use. *)
Theorem iget_spec dev inum s :
  cpu_ok s -> is_free LKitable s -> itable_ok (k_inodes s) ->
  (exists ip x y, iget dev inum s = Ret ip (set_inodes (<[ip := y]> (k_inodes s)) (norm s)) /\
     k_inodes s !! ip = Some x /\ itable_ok (<[ip := y]> (k_inodes s)) /\
     ((is_inode dev inum x /\ y = set_iref (i_ref x + 1) x) \/
      (i_ref x = 0 /\ y = fresh_inode dev inum x /\
       forall j z, k_inodes s !! j = Some z -> ~ is_inode dev inum z))) \/
  (iget dev inum s = Panic "iget: no inodes" (acquired LKitable s) /\
   forall j z, k_inodes s !! j = Some z -> 0 < i_ref z /\ ~ is_inode dev inum z).
Proof. apply iget_cases. Qed.

Lemma iget_spec_witness :
  exists s y, iget ROOTDEV ROOTINO s = Ret 0%nat (set_inodes (<[0%nat := y]> (k_inodes s)) (norm s)) /\ i_ref y = 1.
Proof.
  pose (s := set_locks {[LKitable := lock_free]} boot). exists s.
  destruct (iget_spec ROOTDEV ROOTINO s) as [(ip & x & y & R & Hx & _ & Hy)|[_ H]].
  - exact boot_cpu_ok.
  - reflexivity.
  - split; [reflexivity| |].
    + intros i x Hx. apply lookup_replicate in Hx as [-> _]. reflexivity.
    + intros i j x z Hx _ Hr. apply lookup_replicate in Hx as [-> _]. discriminate.
  - exists y. assert (Hx0 : x = inode0) by (by apply lookup_replicate in Hx as [-> _]).
    destruct Hy as [[(Hr & _ & _) _]|(_ & -> & _)]; [rewrite Hx0 in Hr; discriminate|].
    assert (E : ip = 0%nat).
    { rewrite iget_run in R by (exact boot_cpu_ok || reflexivity).
      change (iget_scan ROOTDEV ROOTINO None 0 (k_inodes s)) with (@inr nat (option nat) (Some 0%nat)) in R.
      injection R as <- _. reflexivity. }
    subst ip. split; [exact R|reflexivity].
  - destruct (H 0%nat inode0) as [Hr _]; [reflexivity|]. discriminate.
Defined.
