(* ===== verification/Contents.v ===== *)
(** * The contents of a file: [readi] and [writei] of kernel/fs.c

    [fbyte C x off] is byte [off] of the file of inode [x] when the blocks
    read as [C].  [readi] delivers these bytes; [writei] changes exactly the
    bytes it is given, allocates the blocks that are missing, makes the file
    longer, and stores the inode; no other file changes. *)

From stdpp Require Import functions.
From S2P Require Import Prelude Param Mem CString Kernel Spinlock Kalloc Sched Sleeplock Bio BioRules Log Txn Vm PageTable UserCopy Uart Printf Fs Bitmap Console ConsoleLine Balloc Blockmap Inode.
Open Scope Z_scope.

Definition fbyte (C : Z -> block) (x : inode) (off : Z) : Z :=
  let a := fblock C x (off / BSIZE) in
  if a =? 0 then 0 else default 0 (C a !! Z.to_nat (off mod BSIZE)).

(** [n] bytes from [off] on. *)
Definition fbytes (C : Z -> block) (x : inode) (off n : Z) : list Z :=
  map (fun i => fbyte C x (off + Z.of_nat i)) (seq 0 (Z.to_nat n)).

Definition MAXSIZE : Z := MAXFILE * BSIZE.

(** A file has a block for every byte. *)
Record file_ok (C : Z -> block) (x : inode) : Prop := {
  fo_size : 0 <= i_size x <= MAXSIZE;
  fo_holes bn : 0 <= bn -> bn * BSIZE < i_size x -> fblock C x bn <> 0
}.

Lemma BSIZE_pos : 0 < BSIZE.
Proof. reflexivity. Qed.

Lemma length_fbytes C x off n : length (fbytes C x off n) = Z.to_nat n.
Proof. unfold fbytes. by rewrite length_map, length_seq. Qed.

Lemma lookup_fbytes C x off n i : (i < Z.to_nat n)%nat -> fbytes C x off n !! i = Some (fbyte C x (off + Z.of_nat i)).
Proof. intros Hi. unfold fbytes. rewrite list_lookup_fmap, lookup_seq_lt by done. done. Qed.

Lemma fbytes_app C x off m n : 0 <= m -> 0 <= n -> fbytes C x off (m + n) = fbytes C x off m ++ fbytes C x (off + m) n.
Proof.
  intros Hm Hn. unfold fbytes. rewrite Z2Nat.inj_add, seq_app, map_app by done. f_equal.
  rewrite <- (Nat.add_0_r (0 + Z.to_nat m)%nat), <- fmap_add_seq, map_map. apply map_ext. intros i. f_equal. lia.
Qed.

(** The position of byte [o] in a range of one block. *)
Lemma block_pos off m o :
  0 <= m -> off mod BSIZE + m <= BSIZE -> off <= o < off + m ->
  o / BSIZE = off / BSIZE /\ o mod BSIZE = off mod BSIZE + (o - off).
Proof.
  intros Hm Hb Ho. pose proof (Z.div_mod off BSIZE ltac:(discriminate)) as E.
  pose proof (Z.mod_pos_bound off BSIZE BSIZE_pos).
  assert (Ed : o / BSIZE = off / BSIZE)
    by (symmetry; apply (Z.div_unique o BSIZE (off / BSIZE) (off mod BSIZE + (o - off))); lia).
  split; [done|]. pose proof (Z.div_mod o BSIZE ltac:(discriminate)). rewrite Ed in *. lia.
Qed.

(** A piece of one block. *)
Lemma fbytes_block C x off m :
  whole C -> 0 <= off -> 0 <= m -> off mod BSIZE + m <= BSIZE -> fblock C x (off / BSIZE) <> 0 ->
  slice (Z.to_nat (off mod BSIZE)) (Z.to_nat m) (C (fblock C x (off / BSIZE))) = fbytes C x off m.
Proof.
  intros Hw Ho Hm Hb Hn. pose proof (Z.mod_pos_bound off BSIZE BSIZE_pos) as Hp. apply list_eq. intros i.
  destruct (decide (i < Z.to_nat m)%nat) as [Hi|Hi].
  - rewrite lookup_fbytes by done. unfold slice. rewrite lookup_take_lt, lookup_drop by done. unfold fbyte.
    destruct (block_pos off m (off + Z.of_nat i) Hm Hb ltac:(lia)) as [-> ->].
    destruct (Z.eqb_spec (fblock C x (off / BSIZE)) 0); [done|].
    replace (Z.to_nat (off mod BSIZE + (off + Z.of_nat i - off))) with (Z.to_nat (off mod BSIZE) + i)%nat by lia.
    destruct (C (fblock C x (off / BSIZE)) !! (Z.to_nat (off mod BSIZE) + i)%nat) as [v|] eqn:E; [done|].
    apply lookup_ge_None in E. rewrite Hw in E. unfold BSIZE in *. lia.
  - rewrite (lookup_ge_None_2 (fbytes _ _ _ _)) by (rewrite length_fbytes; lia).
    unfold slice. by rewrite lookup_take_ge by lia.
Qed.

(** [chunk] stays in the block. *)
Lemma chunk_range off n tot : tot < n ->
  0 < chunk off n tot <= n - tot /\ off mod BSIZE + chunk off n tot <= BSIZE /\
  (chunk off n tot = n - tot \/ (off + chunk off n tot) / BSIZE = off / BSIZE + 1).
Proof.
  intros Ht. unfold chunk. pose proof (Z.mod_pos_bound off BSIZE BSIZE_pos) as Hp.
  split_and!; [lia|lia|lia|]. destruct (Z.le_gt_cases (n - tot) (BSIZE - off mod BSIZE)); [left; lia|right].
  rewrite Z.min_r by lia. pose proof (Z.div_mod off BSIZE ltac:(discriminate)).
  symmetry. apply (Z.div_unique _ BSIZE _ 0); lia.
Qed.

(** The blocks from [off] to [e]. *)
Definition span (off e : Z) : Z := if off <? e then (e - 1) / BSIZE - off / BSIZE + 1 else 0.

Lemma span_step off n tot : tot < n ->
  span (off + chunk off n tot) (off + (n - tot)) + 1 <= span off (off + (n - tot)).
Proof.
  intros Ht. destruct (chunk_range off n tot Ht) as (H1 & H2 & H3). unfold span.
  destruct (Z.ltb_spec off (off + (n - tot))); [|lia].
  assert (off / BSIZE <= (off + (n - tot) - 1) / BSIZE) by (apply Z.div_le_mono; [reflexivity|lia]).
  destruct (Z.ltb_spec (off + chunk off n tot) (off + (n - tot))); [|lia]. destruct H3 as [H3|H3]; lia.
Qed.

Lemma span_pos off e : 0 <= span off e.
Proof.
  unfold span. destruct (Z.ltb_spec off e); [|lia].
  assert (off / BSIZE <= (e - 1) / BSIZE) by (apply Z.div_le_mono; [reflexivity|lia]). lia.
Qed.

Lemma span_fuel off n : 0 <= n -> span off (off + n) < Z.of_nat (rw_fuel n).
Proof.
  intros Hn. assert (0 <= n / BSIZE) by (apply Z.div_pos; [done|reflexivity]).
  unfold rw_fuel, span. destruct (Z.ltb_spec off (off + n)); [|lia].
  pose proof (Z.div_mod n BSIZE ltac:(discriminate)). pose proof (Z.div_mod off BSIZE ltac:(discriminate)).
  pose proof (Z.div_mod (off + n - 1) BSIZE ltac:(discriminate)).
  pose proof (Z.mod_pos_bound n BSIZE BSIZE_pos). pose proof (Z.mod_pos_bound off BSIZE BSIZE_pos).
  pose proof (Z.mod_pos_bound (off + n - 1) BSIZE BSIZE_pos). unfold BSIZE in *. lia.
Qed.

(** ** Reading *)

Section read.
Context `{HD : DiskOk, D : Devices, Lk : Linker}.
Context (me : nat) (pid d st : Z) (sb : superblock) (ip : nat).
Hypothesis Hsb : sb_ok sb.

Abbreviation file_view := (file_view me pid d st sb ip).

Lemma file_view_op C L hs x s s' io :
  file_view C L hs x s -> op_does pid d hs io s s' -> op_view me pid d st C L hs s' -> file_view C L hs x s'.
Proof using.
  intros V S V'. destruct (op_does_keeps _ _ _ _ _ _ S) as (K1 & K2 & K3 & _).
  destruct V as [_ F0 F1 F2 F3 F4 F5 F6 F7]. split; rewrite ?K1, ?K2, ?K3; done.
Qed.

(** [bmap] of a block the file has writes nothing; no transaction is needed. *)
Lemma bmap_mapped C L x s bn :
  file_view C L [] x s -> in_file bn -> fblock C x bn <> 0 -> (length L < NBUF)%nat ->
  exists s', bmap ip bn s = Ret (fblock C x bn) s' /\ file_view C L [] x s' /\ op_step pid d [] s s'.
Proof using HD Hsb.
  intros V Hbn Hn HL. unfold bmap. rewrite kbind_gets, (inode_at_view _ _ _ _ _ _ _ _ _ _ _ V).
  destruct (Z.ltb_spec bn NDIRECT) as [Hd|Hd].
  - assert (Ef : fblock C x bn = iaddr x (Z.to_nat bn)) by (unfold fblock; destruct (Z.ltb_spec bn NDIRECT); [done|lia]).
    rewrite <- Ef. apply Z.eqb_neq in Hn. rewrite Hn. exists s. split_and!; [done|done|reflexivity].
  - assert (Hi : indirect x <> 0).
    { intros Hz. apply Hn. unfold fblock. rewrite Hz. destruct (Z.ltb_spec bn NDIRECT); [lia|done]. }
    assert (Ef : fblock C x bn = get32 (4 * (bn - NDIRECT)) (C (indirect x))) by
      (unfold fblock; destruct (Z.ltb_spec bn NDIRECT), (Z.eqb_spec (indirect x) 0); done || lia).
    destruct (Z.ltb_spec (bn - NDIRECT) NINDIRECT); [|destruct Hbn; unfold MAXFILE in *; lia].
    change (iaddr x (Z.to_nat NDIRECT)) with (indirect x).
    pose proof Hi as Hi'. apply Z.eqb_neq in Hi'. rewrite Hi'. cbn [negb]. rewrite kbind_kret, Hi'.
    rewrite (fv_dev _ _ _ _ _ _ _ _ _ _ _ V).
    destruct (op_bread me pid d st C L [] s (indirect x)) as (i & s1 & R1 & O1 & E1 & V1 & S1);
      [apply V|apply not_elem_of_nil|simpl; lia|].
    krun R1. unfold buf_data. rewrite kbind_gets, E1, <- Ef.
    pose proof Hn as Hn'. apply Z.eqb_neq in Hn'. rewrite Hn'. cbn [negb]. rewrite kbind_kret.
    destruct (op_brelse _ _ _ _ _ _ _ _ _ _ V1 O1) as (s2 & R2 & V2 & S2).
    { rewrite (proj1 (os_disk _ _ _ _ _ _ S1)). eapply op_view_clean; [apply V|apply not_elem_of_nil]. }
    krun R2. exists s2. assert (S : op_step pid d [] s s2) by (by etransitivity).
    split_and!; [done|by eapply file_view_op|done].
Qed.

Lemma copyout_local bs s : cpu_ok s -> exists s', either_copyout ToLocal bs s = Ret (0, bs) s' /\ woke s s'.
Proof using.
  intros Hc. unfold either_copyout. krun (myproc_run s Hc). exists (norm s). split; [done|by apply woke_norm].
Qed.

Lemma readi_loop_run C L x fuel off n tot acc s :
  file_view C L [] x s -> file_ok C x -> (length L + 1 < NBUF)%nat -> 0 <= off -> 0 <= tot <= n ->
  off + (n - tot) <= i_size x -> span off (off + (n - tot)) < Z.of_nat fuel ->
  exists s', readi_loop fuel ip ToLocal off n tot acc s = Ret (n, acc ++ fbytes C x off (n - tot)) s' /\
    file_view C L [] x s' /\ op_step pid d [] s s'.
Proof using HD Hsb.
  intros V Ho HL. revert off tot acc s V. induction fuel as [|fuel IH]; intros off tot acc s V Hoff Ht Hs Hf.
  { pose proof (span_pos off (off + (n - tot))). lia. }
  cbn [readi_loop]. destruct (Z.ltb_spec tot n) as [Hlt|Hge].
  2: { replace (n - tot) with 0 by lia. exists s. assert (tot = n) as -> by lia.
       split_and!; [by rewrite app_nil_r|done|reflexivity]. }
  destruct (chunk_range off n tot Hlt) as (H1 & H2 & _). pose proof (span_step off n tot Hlt) as Hsp.
  pose proof (fo_size _ _ Ho) as Hsz. unfold MAXSIZE in Hsz.
  pose proof (Z.div_mod off BSIZE ltac:(discriminate)) as Ed. pose proof (Z.mod_pos_bound off BSIZE BSIZE_pos) as Hp.
  assert (Hbn : in_file (off / BSIZE)).
  { split; [apply Z.div_pos; [done|reflexivity]|]. apply Z.div_lt_upper_bound; [reflexivity|lia]. }
  assert (Hm : fblock C x (off / BSIZE) <> 0) by (apply (fo_holes _ _ Ho); [apply Hbn|lia]).
  destruct (bmap_mapped C L x s _ V Hbn Hm ltac:(lia)) as (s1 & R1 & V1 & S1). krun R1.
  pose proof Hm as Hm'. apply Z.eqb_neq in Hm'. rewrite Hm'.
  rewrite kbind_gets, (inode_at_view _ _ _ _ _ _ _ _ _ _ _ V1), (fv_dev _ _ _ _ _ _ _ _ _ _ _ V1).
  destruct (op_bread me pid d st C L [] s1 (fblock C x (off / BSIZE))) as (i & s2 & R2 & O2 & E2 & V2 & S2);
    [apply V1|apply not_elem_of_nil|simpl; lia|].
  krun R2. unfold buf_data. rewrite kbind_gets, E2, fbytes_block; try done; [|apply V|lia].
  destruct (copyout_local (fbytes C x off (chunk off n tot)) s2) as (s3 & R3 & W3).
  { apply (cx_cpu me pid), V2. }
  destruct (op_woke _ _ _ _ _ _ _ _ _ V2 W3) as [V3 S3]. krun R3. simpl.
  destruct (op_brelse me pid d st C L [] s3 i (fblock C x (off / BSIZE)) V3) as (s4 & R4 & V4 & S4).
  { apply (os_own _ _ _ _ _ _ S3); [apply list_elem_of_here|done]. }
  { rewrite (proj1 (os_disk _ _ _ _ _ _ S3)), (proj1 (os_disk _ _ _ _ _ _ S2)).
    eapply op_view_clean; [apply V1|apply not_elem_of_nil]. }
  krun R4. assert (S14 : op_step pid d [] s1 s4).
  { etransitivity; [exact S2|]. etransitivity; [|exact S4]. apply (op_does_sub _ _ [] [fblock C x (off / BSIZE)]); [set_solver|exact S3]. }
  destruct (IH (off + chunk off n tot) (tot + chunk off n tot) (acc ++ fbytes C x off (chunk off n tot)) s4)
    as (s5 & R5 & V5 & S5); try lia.
  { by eapply file_view_op. }
  { replace (off + chunk off n tot + (n - (tot + chunk off n tot))) with (off + (n - tot)) by lia. lia. }
  exists s5. split_and!; [|done|by etransitivity; [exact S1|etransitivity]].
  rewrite R5, <- app_assoc. do 3 f_equal.
  rewrite <- fbytes_app by lia. f_equal. lia.
Qed.

Lemma readi_run C L x s off n :
  file_view C L [] x s -> file_ok C x -> (length L + 1 < NBUF)%nat -> 0 <= off -> 0 <= n -> off + n < 2 ^ 32 ->
  let m := Z.max 0 (Z.min n (i_size x - off)) in
  exists s', readi ip ToLocal off n s = Ret (m, fbytes C x off m) s' /\
    file_view C L [] x s' /\ op_step pid d [] s s'.
Proof using HD Hsb.
  intros V Ho HL Hoff Hn Hov m. pose proof (fo_size _ _ Ho) as Hsz.
  assert (HM : MAXSIZE < 2 ^ 32) by reflexivity.
  unfold readi. rewrite kbind_gets, (inode_at_view _ _ _ _ _ _ _ _ _ _ _ V). rewrite u32_small by lia.
  destruct (Z.gtb_spec off (i_size x)) as [Hgt|Hle]; simpl orb; cbv iota.
  { unfold m. rewrite Z.max_l by lia. exists s. split_and!; [done|done|reflexivity]. }
  destruct (Z.ltb_spec (off + n) off); [lia|]. cbv iota.
  assert (E : (if off + n >? i_size x then u32 (i_size x - off) else n) = m).
  { unfold m. destruct (Z.gtb_spec (off + n) (i_size x)); [rewrite u32_small by lia|]; lia. }
  rewrite E. assert (Hm : 0 <= m /\ off + m <= i_size x) by (unfold m; lia).
  destruct (readi_loop_run C L x (rw_fuel m) off m 0 [] s V Ho HL Hoff ltac:(lia) ltac:(lia)) as (s' & R & V' & S').
  { rewrite Z.sub_0_r. apply span_fuel. lia. }
  rewrite Z.sub_0_r in R. exists s'. by split_and!.
Qed.
End read.
