(* ===== verification/Writei.v ===== *)
(** * [writei] of kernel/fs.c

    What one call of [writei] does to the contents of its file, to the blocks
    of the disk and to the transaction it runs in. *)

From stdpp Require Import functions.
From S2P Require Import Prelude Param Mem CString Kernel Spinlock Kalloc Sched Sleeplock Bio BioRules Log Txn Vm PageTable UserCopy Uart Printf Fs Bitmap Console ConsoleLine Balloc Blockmap Inode Contents.
Open Scope Z_scope.

Lemma lookup_splice off bs l i :
  (off + length bs <= length l)%nat ->
  splice off bs l !! i =
    if decide (off <= i < off + length bs)%nat then bs !! (i - off)%nat else l !! i.
Proof.
  intros H. unfold splice. destruct (decide (i < off)%nat) as [H1|H1].
  - rewrite decide_False by lia. rewrite lookup_app_l by (rewrite length_take; lia). by rewrite lookup_take_lt.
  - rewrite lookup_app_r by (rewrite length_take; lia). rewrite length_take, Nat.min_l by lia.
    destruct (decide (i < off + length bs)%nat) as [H2|H2].
    + rewrite decide_True by lia. by rewrite lookup_app_l by lia.
    + rewrite decide_False by lia. rewrite lookup_app_r, lookup_drop by lia. f_equal. lia.
Qed.

(** A block of the file. *)
Definition belongs (C : Z -> block) (x : inode) (b : Z) : Prop :=
  b = indirect x \/ exists bn, in_file bn /\ fblock C x bn = b.

(** The bytes of a file after [bs] has been written at [off]. *)
Definition patch (off : Z) (bs : list Z) (f : Z -> Z) (o : Z) : Z :=
  if (off <=? o) && (o <? off + Z.of_nat (length bs)) then default 0 (bs !! Z.to_nat (o - off)) else f o.

Lemma patch_nil off f o : patch off [] f o = f o.
Proof. unfold patch. simpl length. destruct (Z.leb_spec off o), (Z.ltb_spec o (off + Z.of_nat 0)); (done || lia). Qed.

Lemma patch_app off bs bs' f o :
  patch (off + Z.of_nat (length bs)) bs' (patch off bs f) o = patch off (bs ++ bs') f o.
Proof.
  unfold patch. rewrite length_app, Nat2Z.inj_add.
  destruct (Z.leb_spec off o), (Z.ltb_spec o (off + Z.of_nat (length bs))),
    (Z.leb_spec (off + Z.of_nat (length bs)) o), (Z.ltb_spec o (off + Z.of_nat (length bs) + Z.of_nat (length bs'))),
    (Z.ltb_spec o (off + (Z.of_nat (length bs) + Z.of_nat (length bs')))); simpl; try lia; try done.
  - rewrite lookup_app_l by lia. done.
  - rewrite lookup_app_r by lia. do 2 f_equal. lia.
Qed.

Lemma in_file_div o : 0 <= o < MAXSIZE -> in_file (o / BSIZE).
Proof.
  intros Ho. unfold MAXSIZE in Ho. split; [apply Z.div_pos; [lia|reflexivity]|].
  apply Z.div_lt_upper_bound; [reflexivity|lia].
Qed.

Section pure.
Context (sb : superblock).
Hypothesis Hsb : sb_ok sb.

(** [bmap] does not change what the file reads as. *)
Lemma bmap_bytes bn a C L x C' L' x' o :
  bmap_post sb bn a C L x C' L' x' -> inode_ok sb C x -> in_file bn -> 0 <= o < MAXSIZE ->
  fbyte C' x' o = fbyte C x o.
Proof using.
  intros B Hx Hbn Ho. apply in_file_div in Ho. destruct (decide (fblock C x bn = 0)) as [E0|E0].
  2: { by destruct (bm_old _ _ _ _ _ _ _ _ _ B E0) as (_ & -> & ->). }
  unfold fbyte. rewrite (bm_map _ _ _ _ _ _ _ _ _ B) by done. destruct (decide (o / BSIZE = bn)) as [E|E].
  - rewrite E, E0. simpl. destruct (Z.eqb_spec a 0) as [|Ha]; [done|].
    rewrite (bm_new _ _ _ _ _ _ _ _ _ B E0 Ha). unfold zero_block.
    destruct (replicate (Z.to_nat BSIZE) 0 !! Z.to_nat (o mod BSIZE)) as [v|] eqn:El; [|done].
    by apply lookup_replicate in El as [-> _].
  - destruct (Z.eqb_spec (fblock C x (o / BSIZE)) 0) as [|Hn]; [done|].
    destruct (bm_keep _ _ _ _ _ _ _ _ _ B _ (io_block _ _ _ Hx _ Ho Hn)) as [_ Ek].
    rewrite Ek; [done|]. by apply (io_ne _ _ _ Hx).
Qed.

(** Blocks of other files stay what they were. *)
Lemma bmap_others bn a C L x C' L' x' b :
  bmap_post sb bn a C L x C' L' x' -> in_file bn -> taken sb C b -> ~ belongs C x b ->
  ~ belongs C' x' b /\ C' b = C b.
Proof using Hsb.
  intros B Hbn T Hb. split.
  - intros [->|(j & Hj & E)].
    + destruct (decide (indirect x = 0)) as [Hz|Hz]; [by apply (bm_ifresh _ _ _ _ _ _ _ _ _ B)|].
      apply Hb. left. by apply (bm_indirect _ _ _ _ _ _ _ _ _ B).
    + rewrite (bm_map _ _ _ _ _ _ _ _ _ B) in E by done. case_decide as Ej.
      * subst. destruct (decide (fblock C x bn = 0)) as [E0|E0]; [by apply (bm_fresh _ _ _ _ _ _ _ _ _ B)|].
        destruct (bm_old _ _ _ _ _ _ _ _ _ B E0) as (E & _). apply Hb. right. exists bn. done.
      * apply Hb. right. by exists j.
  - apply (bm_keep _ _ _ _ _ _ _ _ _ B b T). intros ->. apply Hb. by left.
Qed.

(** Bytes stored into block [off / BSIZE] of the file. *)
Section store.
Context (C : Z -> block) (x : inode) (off : Z) (bs : list Z).
Hypothesis Hx : inode_ok sb C x.
Hypothesis Hw : whole C.
Hypothesis Hm : bitmap_ok sb C.
Hypothesis Hoff : 0 <= off < MAXSIZE.
Hypothesis Hfit : off mod BSIZE + Z.of_nat (length bs) <= BSIZE.
Let a := fblock C x (off / BSIZE).
Hypothesis Ha : a <> 0.
Let C' := <[a := splice (Z.to_nat (off mod BSIZE)) bs (C a)]> C.

Lemma store_taken : taken sb C a.
Proof using Hx Hoff Ha. apply (io_block _ _ _ Hx); [by apply in_file_div|done]. Qed.

Lemma store_fblock j : fblock C' x j = fblock C x j.
Proof using Hx Hoff Ha.
  unfold fblock. destruct (j <? NDIRECT); [done|]. destruct (Z.eqb_spec (indirect x) 0); [done|].
  unfold C'. rewrite fn_lookup_insert_ne; [done|]. apply (io_ne _ _ _ Hx); [by apply in_file_div|done].
Qed.

Lemma store_ok : inode_ok sb C' x /\ whole C' /\ bitmap_ok sb C' /\ forall b, taken sb C' b <-> taken sb C b.
Proof using All.
  pose proof store_taken as Ta. pose proof (Z.mod_pos_bound off BSIZE BSIZE_pos).
  assert (T : forall b, taken sb C' b <-> taken sb C b) by (intros b; apply taken_data_write; [done|apply Ta]).
  split_and!; [| | |exact T].
  - destruct Hx as [A1 A2 A3 A4 A5]. split; [done| | | |].
    + intros Hi. by apply T, A2.
    + intros j Hj. rewrite store_fblock. intros Hn. by apply T, A3.
    + intros j j'. rewrite !store_fblock. apply A4.
    + intros j. rewrite store_fblock. apply A5.
  - apply whole_write; [done|]. rewrite length_splice, Hw; [done|]. rewrite Hw. lia.
  - apply bitmap_ok_data_write; [done|done|apply Ta].
Qed.

Lemma store_bytes o : 0 <= o < MAXSIZE -> fbyte C' x o = patch off bs (fbyte C x) o.
Proof using All.
  intros Ho. pose proof (in_file_div o Ho) as Hj. pose proof (in_file_div off Hoff) as Hjo.
  pose proof (Z.mod_pos_bound off BSIZE BSIZE_pos) as Hp. pose proof (Z.mod_pos_bound o BSIZE BSIZE_pos) as Hpo.
  unfold fbyte at 1. rewrite store_fblock. unfold patch.
  destruct (Z.leb_spec off o) as [H1|H1], (Z.ltb_spec o (off + Z.of_nat (length bs))) as [H2|H2]; simpl.
  { destruct (block_pos off (Z.of_nat (length bs)) o) as [Ed Em]; [lia|lia|lia|]. rewrite Ed, Em. fold a.
    destruct (Z.eqb_spec a 0); [done|]. unfold C'. rewrite fn_lookup_insert, lookup_splice by (rewrite Hw; lia).
    rewrite decide_True by lia. do 2 f_equal. lia. }
  all: unfold fbyte; destruct (Z.eqb_spec (fblock C x (o / BSIZE)) 0) as [|Hn]; [done|]; unfold C';
    destruct (decide (fblock C x (o / BSIZE) = a)) as [E|E]; [|by rewrite fn_lookup_insert_ne];
    assert (Ed : o / BSIZE = off / BSIZE) by (apply (io_inj _ _ _ Hx); done);
    rewrite E, fn_lookup_insert, lookup_splice by (rewrite Hw; lia);
    rewrite decide_False; [done|]; pose proof (Z.div_mod o BSIZE ltac:(discriminate));
    pose proof (Z.div_mod off BSIZE ltac:(discriminate)); rewrite Ed in *; lia.
Qed.
End store.
End pure.

(** ** The source of the bytes *)

Lemma src_add_add x k m : 0 <= k -> 0 <= m -> src_add (src_add x k) m = src_add x (k + m).
Proof.
  intros Hk Hm. destruct x as [va|a|bs]; simpl.
  - f_equal. unfold u64. rewrite Zplus_mod_idemp_l. f_equal. lia.
  - f_equal. lia.
  - rewrite drop_drop. do 2 f_equal. lia.
Qed.

Section loop.
Context `{HD : DiskOk, D : Devices, Lk : Linker}.
Context (me : nat) (pid d st : Z) (sb : superblock) (ip : nat).
Hypothesis Hsb : sb_ok sb.
Hypothesis tx_idle : forall hist, Z.land (dev_read hist (UART0 + LSR)) LSR_TX_IDLE <> 0.

Abbreviation file_view := (file_view me pid d st sb ip).
Abbreviation file_step := (file_step me pid d st sb ip).

(** The process can read [bs] from the source. *)
Definition gives (x : src) (bs : list Z) (s : kst) : Prop :=
  src_add x 0 = x /\
  forall k m t, 0 <= k -> 0 <= m -> k + m <= Z.of_nat (length bs) -> ctx me pid t -> same_mem me s t ->
  exists t', either_copyin (src_add x k) m t = Ret (0, slice (Z.to_nat k) (Z.to_nat m) bs) t' /\ woke t t'.

Lemma gives_local bs s : gives (FromLocal bs) bs s.
Proof using.
  split; [done|]. intros k m t Hk Hm Hl Hx _. unfold either_copyin. pose proof (cx_cpu _ _ _ Hx) as Hc.
  krun (myproc_run t Hc). exists (norm t). split; [done|by apply woke_norm].
Qed.

Lemma gives_same x bs s s' : gives x bs s -> same_mem me s s' -> gives x bs s'.
Proof using.
  intros [E G] Hs. split; [done|]. intros k m t Hk Hm Hl Hx Ht. apply G; try done.
  by eapply same_mem_trans.
Qed.

(** ** One call so far *)

(** From the file [C0], [x0] of state [s0] to [C], [x] of [s]: [bs] has been
    written at [off]; the blocks [ds] have been written to. *)
Record wrote_to (off : Z) (bs ds : list Z) (C0 : Z -> block) (L0 : list Z) (x0 : inode) (s0 : kst)
                (C : Z -> block) (L : list Z) (x : inode) (s : kst) : Prop := {
  wt_step : file_step [] C0 L0 x0 s0 C L x s;
  wt_bytes o : 0 <= o < MAXSIZE -> fbyte C x o = patch off bs (fbyte C0 x0) o;
  wt_mapped bn : in_file bn ->
    fblock C0 x0 bn <> 0 \/ (off < (bn + 1) * BSIZE /\ bn * BSIZE < off + Z.of_nat (length bs) /\ bs <> []) ->
    fblock C x bn <> 0;
  wt_taken b : taken sb C0 b -> taken sb C b;
  wt_others b : taken sb C0 b -> ~ belongs C0 x0 b -> ~ belongs C x b /\ C b = C0 b;
  wt_meta b : b < sb_bmapstart sb -> C b = C0 b;
  wt_log b : b ∈ L -> b ∈ L0 \/ map_block sb b \/ (b = indirect x /\ indirect x <> 0) \/ (b ∈ ds /\ data_block sb b)
}.

Lemma wrote_to_refl off C L x s : file_view C L [] x s -> wrote_to off [] [] C L x s C L x s.
Proof using.
  intros V. split; try done; [by apply file_step_refl| | |tauto].
  - intros o Ho. unfold patch.
    destruct (Z.leb_spec off o), (Z.ltb_spec o (off + Z.of_nat (length (@nil Z)))); simpl in *; done || lia.
  - intros bn Hbn [H|(_ & _ & H)]; done.
Qed.

(** The blocks a call may add to the transaction. *)
Lemma wrote_to_length off bs ds C0 L0 x0 s0 C L x s :
  wrote_to off bs ds C0 L0 x0 s0 C L x s ->
  Z.of_nat (length L) <= Z.of_nat (length L0) + (dstart sb - sb_bmapstart sb) + 1 + Z.of_nat (length ds).
Proof using Hsb.
  intros W. pose proof (layout sb Hsb) as Hl.
  assert (Hsub : L ⊆+ L0 ++ seqZ (sb_bmapstart sb) (dstart sb - sb_bmapstart sb) ++ [indirect x] ++ ds).
  { apply NoDup_submseteq; [apply (ov_nodup me pid d st C L [] s), W|]. intros b Hb.
    rewrite !elem_of_app, elem_of_seqZ, list_elem_of_singleton.
    destruct (wt_log _ _ _ _ _ _ _ _ _ _ _ W b Hb) as [H1|[[H1 H2]|[[H1 _]|[H1 _]]]]; [tauto| |tauto|tauto].
    right; left. lia. }
  apply submseteq_length in Hsub. rewrite !length_app, length_seqZ in Hsub. simpl in Hsub. lia.
Qed.

(** After [bmap] of some block. *)
Lemma wrote_to_bmap off bs ds C0 L0 x0 s0 C L x s bn a C1 L1 x1 s1 :
  wrote_to off bs ds C0 L0 x0 s0 C L x s -> in_file bn ->
  bmap_post sb bn a C L x C1 L1 x1 -> file_step [] C L x s C1 L1 x1 s1 ->
  wrote_to off bs (a :: ds) C0 L0 x0 s0 C1 L1 x1 s1.
Proof using Hsb.
  intros W Hbn B S. pose proof (wt_step _ _ _ _ _ _ _ _ _ _ _ W) as S0.
  pose proof (fs_view _ _ _ _ _ _ _ _ _ _ _ _ _ _ _ S0) as V. pose proof (fv_ok _ _ _ _ _ _ _ _ _ _ _ V) as Hx.
  split.
  - by eapply file_step_trans.
  - intros o Ho. rewrite (bmap_bytes sb _ _ _ _ _ _ _ _ o B Hx Hbn Ho). by apply (wt_bytes _ _ _ _ _ _ _ _ _ _ _ W).
  - intros j Hj Hc. pose proof (wt_mapped _ _ _ _ _ _ _ _ _ _ _ W j Hj Hc) as Hn.
    rewrite (bm_map _ _ _ _ _ _ _ _ _ B) by done. case_decide as E; [|done]. subst j.
    by rewrite (proj1 (bm_old _ _ _ _ _ _ _ _ _ B Hn)).
  - intros b Hb. apply (bm_keep _ _ _ _ _ _ _ _ _ B). by apply (wt_taken _ _ _ _ _ _ _ _ _ _ _ W).
  - intros b Hb Hn. destruct (wt_others _ _ _ _ _ _ _ _ _ _ _ W b Hb Hn) as [N1 E1]. rewrite <- E1.
    apply (bmap_others sb Hsb _ _ _ _ _ _ _ _ b B Hbn); [by apply (wt_taken _ _ _ _ _ _ _ _ _ _ _ W)|done].
  - intros b Hb. rewrite (bm_meta _ _ _ _ _ _ _ _ _ B) by done. by apply (wt_meta _ _ _ _ _ _ _ _ _ _ _ W).
  - intros b Hb. rewrite elem_of_cons.
    destruct (bm_log _ _ _ _ _ _ _ _ _ B b Hb) as [H2|[H2|[[-> H2]|H2]]]; [|tauto| |tauto].
    2: { pose proof (fv_ok _ _ _ _ _ _ _ _ _ _ _ (fs_view _ _ _ _ _ _ _ _ _ _ _ _ _ _ _ S)) as Hx1.
         pose proof (io_block _ _ _ Hx1 bn Hbn) as Ta. rewrite (bm_map _ _ _ _ _ _ _ _ _ B), decide_True in Ta by done.
         destruct (Ta H2) as [Ta1 _]. tauto. }
    destruct (wt_log _ _ _ _ _ _ _ _ _ _ _ W b H2) as [H3|[H3|[[H3 H4]|H3]]]; [tauto|tauto| |tauto].
    right; right; left. rewrite (bm_indirect _ _ _ _ _ _ _ _ _ B) by done. done.
Qed.

(** After bytes have been stored into a block the file has. *)
Lemma wrote_to_store off bs piece ds C0 L0 x0 s0 C L x s L' s' io :
  wrote_to off bs ds C0 L0 x0 s0 C L x s ->
  let pos := off + Z.of_nat (length bs) in let a := fblock C x (pos / BSIZE) in
  0 <= pos < MAXSIZE -> pos mod BSIZE + Z.of_nat (length piece) <= BSIZE -> a <> 0 -> a ∈ ds ->
  let C' := <[a := splice (Z.to_nat (pos mod BSIZE)) piece (C a)]> C in
  op_does pid d [] io s s' -> op_view me pid d st C' L' [] s' ->
  (forall b, b ∈ L' -> b = a \/ b ∈ L) ->
  wrote_to off (bs ++ piece) ds C0 L0 x0 s0 C' L' x s'.
Proof using Hsb.
  intros W pos a Hpos Hfit Ha Hd C' S V' Hlog. pose proof (wt_step _ _ _ _ _ _ _ _ _ _ _ W) as S0.
  pose proof (fs_view _ _ _ _ _ _ _ _ _ _ _ _ _ _ _ S0) as V. pose proof (in_file_div pos Hpos) as Hbn.
  pose proof V as [_ _ _ _ _ _ Hm Hw Hx].
  destruct (store_ok sb Hsb C x pos piece Hx Hw Hm Hpos Hfit Ha) as (T1 & T2 & T3 & T4).
  pose proof (store_fblock sb C x pos piece Hx Hpos Ha) as Tf. pose proof (store_taken sb C x pos Hx Hpos Ha) as Ta.
  pose proof (store_bytes sb Hsb C x pos piece Hx Hw Hm Hpos Hfit Ha) as Tb.
  fold a in T1, T2, T3, T4, Tf, Ta, Tb. fold C' in T1, T2, T3, T4, Tf, Tb.
  split.
  - eapply file_step_trans; [exact S0|].
    eapply file_step_op; [exact V|exact S|exact V'|exact T3|exact T2|exact T1|]. intros b Hb. by apply T4.
  - intros o Ho. rewrite Tb, <- patch_app by done. unfold patch at 1 2. fold pos.
    destruct ((pos <=? o) && (o <? pos + Z.of_nat (length piece))); [done|].
    by apply (wt_bytes _ _ _ _ _ _ _ _ _ _ _ W).
  - intros bn Hin Hc. rewrite Tf. destruct (decide (bn = pos / BSIZE)) as [->|E]; [done|].
    apply (wt_mapped _ _ _ _ _ _ _ _ _ _ _ W); [done|]. destruct Hc as [Hc|(H1 & H2 & _)]; [by left|right].
    rewrite length_app, Nat2Z.inj_add in H2. pose proof (Z.div_mod pos BSIZE ltac:(discriminate)) as Ed.
    pose proof (Z.mod_pos_bound pos BSIZE BSIZE_pos) as Hp.
    assert (Hlt : bn < pos / BSIZE \/ pos / BSIZE < bn) by lia. destruct Hlt as [Hlt|Hlt].
    + assert (bn * BSIZE + BSIZE <= BSIZE * (pos / BSIZE)) by (unfold BSIZE in *; lia).
      split_and!; [done|unfold BSIZE in *; lia|]. intros ->. unfold pos in *. simpl in *. unfold BSIZE in *. lia.
    + assert (BSIZE * (pos / BSIZE) + BSIZE <= bn * BSIZE) by (unfold BSIZE in *; lia). lia.
  - intros b Hb. apply T4. by apply (wt_taken _ _ _ _ _ _ _ _ _ _ _ W).
  - intros b Hb Hn. destruct (wt_others _ _ _ _ _ _ _ _ _ _ _ W b Hb Hn) as [N1 E1]. split.
    + intros [->|(j & Hj & E)]; apply N1; [by left|right]. exists j. by rewrite <- Tf.
    + unfold C'. rewrite fn_lookup_insert_ne, E1; [done|]. intros <-. apply N1. right. by exists (pos / BSIZE).
  - intros b Hb. unfold C'. destruct Ta as [[Ta _] _]. pose proof (layout sb Hsb).
    rewrite fn_lookup_insert_ne by lia. by apply (wt_meta _ _ _ _ _ _ _ _ _ _ _ W).
  - intros b Hb. destruct (Hlog b Hb) as [->|H1]; [destruct Ta; tauto|]. by apply (wt_log _ _ _ _ _ _ _ _ _ _ _ W).
Qed.

(** [bread], the copy, [log_write], [brelse] of one round. *)
Lemma write_block C L x s a x0 bs s0 k m off :
  file_view C L [] x s -> op_open s -> taken sb C a -> gives x0 bs s0 -> same_mem me s0 s ->
  0 <= k -> 0 <= m -> k + m <= Z.of_nat (length bs) -> Z.of_nat (length L) < LOGSIZE - 1 ->
  let C' := <[a := splice off (slice (Z.to_nat k) (Z.to_nat m) bs) (C a)]> C in
  exists s', (forall A (f g : K A),
    (let! i := gets (fun s => inode_at s ip) in
     let! bp := bread (i_dev i) a in
     let! (r, bs) := either_copyin (src_add x0 k) m in
     do! put_buf bp (fun b => set_data (splice off bs (b_data b)) b);
     if r =? -1 then do! brelse bp; g else do! log_write bp; do! brelse bp; f) s = f s') /\
    op_view me pid d st C' (logged a L) [] s' /\ op_step pid d [] s s'.
Proof using All.
  intros V Hop Ta [_ G] Hm Hk Hm0 Hkm HL C'. pose proof (layout sb Hsb) as Hl. destruct Ta as [[Ta1 Ta2] _].
  destruct (op_bread me pid d st C L [] s a) as (i & s1 & R1 & O1 & E1 & V1 & S1);
    [apply V|apply not_elem_of_nil|unfold NBUF, LOGSIZE, MAXOPBLOCKS in *; simpl; lia|].
  destruct (G k m s1 Hk Hm0 Hkm) as (s2 & R2 & W2).
  { apply V1. }
  { eapply same_mem_trans; [exact Hm|]. by eapply op_does_same_mem. }
  destruct (op_woke _ _ _ _ _ _ _ _ _ V1 W2) as [V2 S2].
  assert (O2 : own pid d s2 i a) by (apply (os_own _ _ _ _ _ _ S2); [apply list_elem_of_here|done]).
  destruct (op_finish me pid d st C L [] s2 i a (splice off (slice (Z.to_nat k) (Z.to_nat m) bs)) V2)
    as (s3 & R3 & _ & V3 & S3); [|done|lia|done|].
  { apply (op_does_open _ _ _ _ _ _ S2), (op_does_open _ _ _ _ _ _ S1), Hop. }
  exists s3. split_and!; [|exact V3|].
  - intros A f g. rewrite kbind_gets, (inode_at_view _ _ _ _ _ _ _ _ _ _ _ V), (fv_dev _ _ _ _ _ _ _ _ _ _ _ V).
    krun R1. krun R2. cbn [Z.eqb]. apply R3.
  - etransitivity; [exact S1|]. etransitivity; [|exact S3].
    apply (op_does_sub _ _ [] [a]); [set_solver|exact S2].
Qed.

Lemma take_slice (bs : list Z) k m : 0 <= k -> 0 <= m ->
  take (Z.to_nat (k + m)) bs = take (Z.to_nat k) bs ++ slice (Z.to_nat k) (Z.to_nat m) bs.
Proof using. intros Hk Hm. unfold slice. rewrite Z2Nat.inj_add by done. symmetry. apply take_take_drop. Qed.

Section run.
Context (x0 : src) (bs : list Z) (off : Z) (C0 : Z -> block) (L0 : list Z) (i0 : inode) (s0 : kst).
Hypothesis Hg : gives x0 bs s0.
Hypothesis Hop : op_open s0.
Hypothesis Hoff : 0 <= off.
Let n := Z.of_nat (length bs).
Hypothesis Hend : off + n <= MAXSIZE.

(** The call [writei] makes of its loop, started in [s0]. *)
Lemma writei_loop_run fuel tot ds C L x s :
  wrote_to off (take (Z.to_nat tot) bs) ds C0 L0 i0 s0 C L x s -> 0 <= tot <= n ->
  span (off + tot) (off + n) < Z.of_nat fuel ->
  Z.of_nat (length L0) + (dstart sb - sb_bmapstart sb) + Z.of_nat (length ds) + span (off + tot) (off + n) + 7 <= LOGSIZE ->
  exists tot' ds' C' L' x' s',
    writei_loop fuel ip (src_add x0 tot) (off + tot) n tot s = Ret (tot', off + tot') s' /\ tot <= tot' <= n /\
    wrote_to off (take (Z.to_nat tot') bs) ds' C0 L0 i0 s0 C' L' x' s' /\
    Z.of_nat (length ds') <= Z.of_nat (length ds) + span (off + tot) (off + n) /\
    (tot' < n -> forall y, valid_block sb y -> used sb C' y = true) /\
    (tot' < n -> tot' = tot \/ (off + tot') mod BSIZE = 0).
Proof using All.
  revert tot ds C L x s. induction fuel as [|fuel IH]; intros tot ds C L x s W Ht Hf Hroom.
  { pose proof (span_pos (off + tot) (off + n)). lia. }
  pose proof (span_pos (off + tot) (off + n)) as Hsp0.
  cbn [writei_loop]. destruct (Z.ltb_spec tot n) as [Hlt|Hge].
  2: { exists tot, ds, C, L, x, s. assert (tot = n) as -> by lia. split_and!; try done; lia. }
  set (m := chunk (off + tot) n tot). destruct (chunk_range (off + tot) n tot Hlt) as (H1 & H2 & _). fold m in H1, H2.
  pose proof (span_step (off + tot) n tot Hlt) as Hsp. fold m in Hsp.
  replace (off + tot + (n - tot)) with (off + n) in Hsp by lia. pose proof (span_pos (off + tot + m) (off + n)) as Hsp1.
  pose proof (wrote_to_length _ _ _ _ _ _ _ _ _ _ _ W) as Hlen. pose proof (wt_step _ _ _ _ _ _ _ _ _ _ _ W) as S0.
  pose proof (fs_view _ _ _ _ _ _ _ _ _ _ _ _ _ _ _ S0) as V.
  pose proof (file_step_open _ _ _ _ _ _ _ _ _ _ _ _ _ _ _ S0 Hop) as Hop1.
  assert (Hpos : 0 <= off + tot < MAXSIZE) by lia. pose proof (in_file_div _ Hpos) as Hbn.
  assert (Htl : Z.of_nat (length (take (Z.to_nat tot) bs)) = tot) by (rewrite length_take; lia).
  destruct (bmap_run me pid d st sb ip Hsb tx_idle C L x s _ V Hop1 Hbn ltac:(lia))
    as (a & C1 & L1 & x1 & s1 & R1 & S1 & B). krun R1.
  destruct (Z.eqb_spec a 0) as [Ea|Ea].
  { exists tot, (a :: ds), C1, L1, x1, s1. split_and!; [done|lia|lia| |simpl; lia| |by left].
    - by eapply wrote_to_bmap.
    - intros _. by apply (bm_full _ _ _ _ _ _ _ _ _ B). }
  pose proof (wrote_to_bmap _ _ _ _ _ _ _ _ _ _ _ _ _ _ _ _ _ W Hbn B S1) as W1.
  pose proof (fs_view _ _ _ _ _ _ _ _ _ _ _ _ _ _ _ S1) as V1.
  pose proof (bm_map _ _ _ _ _ _ _ _ _ B _ Hbn) as Em. rewrite decide_True in Em by done.
  pose proof (io_block _ _ _ (fv_ok _ _ _ _ _ _ _ _ _ _ _ V1) _ Hbn) as Ta. rewrite Em in Ta. specialize (Ta Ea).
  assert (Hm1 : same_mem me s0 s1).
  { destruct (fs_does_io _ _ _ _ _ _ _ _ _ _ _ _ _ _ _ (wt_step _ _ _ _ _ _ _ _ _ _ _ W1)) as [io Hio].
    exact (fs_does_same_mem me _ _ _ _ _ _ Hio). }
  pose proof (bm_len _ _ _ _ _ _ _ _ _ B) as Hl1.
  destruct (write_block C1 L1 x1 s1 a x0 bs s0 tot m (Z.to_nat ((off + tot) mod BSIZE)) V1
    (file_step_open _ _ _ _ _ _ _ _ _ _ _ _ _ _ _ S1 Hop1) Ta Hg Hm1) as (s2 & R2 & V2 & S2); [lia|lia|lia|lia|].
  rewrite R2, src_add_add by lia. replace (off + tot + m) with (off + (tot + m)) in Hsp |- * by lia.
  assert (Hpl : Z.of_nat (length (slice (Z.to_nat tot) (Z.to_nat m) bs)) = m).
  { unfold slice. rewrite length_take, length_drop. lia. }
  assert (W2 : wrote_to off (take (Z.to_nat (tot + m)) bs) (a :: ds) C0 L0 i0 s0
    (<[a := splice (Z.to_nat ((off + tot) mod BSIZE)) (slice (Z.to_nat tot) (Z.to_nat m) bs) (C1 a)]> C1) (logged a L1) x1 s2).
  { rewrite take_slice by lia.
    pose proof (wrote_to_store off (take (Z.to_nat tot) bs) (slice (Z.to_nat tot) (Z.to_nat m) bs) (a :: ds)
      C0 L0 i0 s0 C1 L1 x1 s1 (logged a L1) s2 [] W1) as WS. cbv zeta in WS. rewrite Htl, Em, Hpl in WS.
    apply WS; try done; [apply list_elem_of_here|]. intros b. rewrite logged_elem. tauto. }
  destruct (IH (tot + m) (a :: ds) _ _ x1 s2 W2) as (tot' & ds' & C' & L' & x' & s' & R & Ht' & W' & Hd' & Hful & Hbd).
  - lia.
  - lia.
  - simpl length. lia.
  - exists tot', ds', C', L', x', s'. split_and!; [exact R|lia|lia|exact W'| |exact Hful|].
    + simpl length in Hd'. lia.
    + intros Hlt'. right. destruct (Hbd Hlt') as [->|]; [|done].
      assert (Em' : m = BSIZE - (off + tot) mod BSIZE) by (unfold m, chunk in *; lia).
      rewrite Z.add_assoc, Em'. unfold BSIZE in *. zlia.
Qed.
End run.
End loop.

(** ** [iupdate] *)

Section meta.
Context (sb : superblock).
Hypothesis Hsb : sb_ok sb.

(** The block of an inode lies between the log and the bit map. *)
Lemma IBLOCK_range i : 0 <= i < sb_ninodes sb ->
  IBLOCK i sb = i / IPB + sb_inodestart sb /\ sb_inodestart sb <= IBLOCK i sb < sb_bmapstart sb.
Proof using Hsb.
  intros Hi. pose proof (layout sb Hsb) as Hl. destruct (sbo_inodes _ Hsb) as [_ H2].
  assert (0 < IPB) by reflexivity.
  assert (i / IPB <= sb_ninodes sb / IPB) by (apply Z.div_le_mono; lia).
  assert (0 <= i / IPB) by (apply Z.div_pos; lia).
  assert (IBLOCK i sb = i / IPB + sb_inodestart sb) as -> by (unfold IBLOCK; rewrite u32_small; lia). lia.
Qed.

(** A write below the bit map changes no file. *)
Section write.
Context (C : Z -> block) (b : Z) (v : block).
Hypothesis Hb : b < sb_bmapstart sb.
Let C' := <[b := v]> C.

Lemma meta_other y : sb_bmapstart sb <= y -> C' y = C y.
Proof using Hb. intros Hy. unfold C'. apply fn_lookup_insert_ne. lia. Qed.

Lemma meta_used y : valid_block sb y -> used sb C' y = used sb C y.
Proof using Hsb Hb.
  intros Hy. unfold used. rewrite meta_other; [done|]. pose proof (BBLOCK_range sb y Hsb Hy). lia.
Qed.

Lemma meta_taken y : taken sb C' y <-> taken sb C y.
Proof using Hsb Hb.
  unfold taken. split; intros [H1 H2]; (split; [done|]); [rewrite meta_used in H2|rewrite meta_used]; try done;
    by apply data_valid.
Qed.

Lemma meta_bitmap : bitmap_ok sb C -> bitmap_ok sb C'.
Proof using Hsb Hb.
  intros [A1 A2]. pose proof (layout sb Hsb). split.
  - intros y Hy. rewrite meta_other; [by apply A1|]. pose proof (BBLOCK_range sb y Hsb Hy). lia.
  - intros y Hy. rewrite meta_used by (unfold valid_block; lia). by apply A2.
Qed.

Lemma meta_fblock x j : inode_ok sb C x -> fblock C' x j = fblock C x j.
Proof using Hsb Hb.
  intros Hx. unfold fblock. destruct (j <? NDIRECT); [done|]. destruct (Z.eqb_spec (indirect x) 0) as [|Hi]; [done|].
  rewrite meta_other; [done|]. destruct (io_indirect _ _ _ Hx Hi) as [[H1 _] _]. pose proof (layout sb Hsb). lia.
Qed.

Lemma meta_inode_ok x : inode_ok sb C x -> inode_ok sb C' x.
Proof using Hsb Hb.
  intros Hx. pose proof Hx as [A1 A2 A3 A4 A5]. split; [done| | | |].
  - intros Hi. by apply meta_taken, A2.
  - intros j Hj. rewrite meta_fblock by done. intros Hn. by apply meta_taken, A3.
  - intros j j'. rewrite !meta_fblock by done. apply A4.
  - intros j. rewrite meta_fblock by done. apply A5.
Qed.

Lemma meta_fbyte x o : inode_ok sb C x -> 0 <= o < MAXSIZE -> fbyte C' x o = fbyte C x o.
Proof using Hsb Hb.
  intros Hx Ho. unfold fbyte. rewrite meta_fblock by done.
  destruct (Z.eqb_spec (fblock C x (o / BSIZE)) 0) as [|Hn]; [done|]. rewrite meta_other; [done|].
  destruct (io_block _ _ _ Hx _ (in_file_div o Ho) Hn) as [[H1 _] _]. pose proof (layout sb Hsb). lia.
Qed.
End write.

(** The addresses of a file fit 32 bits. *)
Lemma inode_ok_addrs C x : inode_ok sb C x -> Forall (fun a => 0 <= a < 2 ^ 32) (i_addrs x).
Proof using Hsb.
  intros Hx. apply Forall_lookup. intros i a Ha. pose proof (lookup_lt_Some _ _ _ Ha) as Hi.
  rewrite (io_addrs _ _ _ Hx) in Hi. change naddrs with 13%nat in Hi. pose proof (layout sb Hsb) as Hl.
  assert (Ei : iaddr x i = a) by (unfold iaddr; by rewrite Ha).
  destruct (decide (a = 0)) as [->|Hn]; [lia|].
  assert (T : taken sb C a); [|destruct T as [[H1 H2] _]; lia].
  destruct (decide (i = 12%nat)) as [->|Hne].
  - change (indirect x = a) in Ei. rewrite <- Ei in *. by apply (io_indirect _ _ _ Hx).
  - assert (Ef : fblock C x (Z.of_nat i) = a).
    { unfold fblock. destruct (Z.ltb_spec (Z.of_nat i) NDIRECT); [by rewrite Nat2Z.id|unfold NDIRECT in *; lia]. }
    rewrite <- Ef in *. apply (io_block _ _ _ Hx); [|done]. unfold in_file, MAXFILE, NDIRECT. change NINDIRECT with 256. lia.
Qed.
End meta.

(** ** The whole call *)

Section call.
Context `{HD : DiskOk, D : Devices, Lk : Linker}.
Context (me : nat) (pid d st : Z) (sb : superblock) (ip : nat).
Hypothesis Hsb : sb_ok sb.
Hypothesis tx_idle : forall hist, Z.land (dev_read hist (UART0 + LSR)) LSR_TX_IDLE <> 0.

Abbreviation file_view := (file_view me pid d st sb ip).

(** The inode [x] as its block holds it. *)
Definition saved (x : inode) (C : Z -> block) : Z -> block :=
  <[IBLOCK (i_inum x) sb := put_dinode (dip (i_inum x)) x (C (IBLOCK (i_inum x) sb))]> C.

Lemma iupdate_run C L x s :
  file_view C L [] x s -> op_open s -> 0 <= i_inum x < sb_ninodes sb -> Z.of_nat (length L) < LOGSIZE - 1 ->
  exists s', iupdate ip s = Ret tt s' /\ file_view (saved x C) (logged (IBLOCK (i_inum x) sb) L) [] x s' /\
    op_step pid d [] s s'.
Proof using HD Hsb.
  intros V Hop Hi HL. pose proof (IBLOCK_range sb Hsb _ Hi) as [_ Hr]. pose proof (layout sb Hsb) as Hl.
  pose proof V as [F0 F1 F2 F3 F4 F5 F6 F7 F8].
  destruct (op_bread me pid d st C L [] s (IBLOCK (i_inum x) sb) F0) as (i & s1 & R1 & O1 & _ & V1 & S1);
    [apply not_elem_of_nil|unfold NBUF, LOGSIZE, MAXOPBLOCKS in *; simpl; lia|].
  destruct (op_finish me pid d st C L [] s1 i _ (put_dinode (dip (i_inum x)) x) V1 (op_does_open _ _ _ _ _ _ S1 Hop) O1)
    as (s2 & _ & R2 & V2 & S2); [lia|lia|].
  assert (S : op_step pid d [] s s2) by (by etransitivity).
  destruct (op_does_keeps _ _ _ _ _ _ S) as (K1 & K2 & K3 & _). destruct (op_does_keeps _ _ _ _ _ _ S1) as (_ & J2 & _).
  exists s2. split_and!; [| |exact S].
  - unfold iupdate. rewrite kbind_gets, (inode_at_view _ _ _ _ _ _ _ _ _ _ _ V), kbind_gets, F2, F5. krun R1.
    rewrite kbind_gets. assert (inode_at s1 ip = x) as -> by (unfold inode_at; by rewrite J2, F4). exact R2.
  - split; rewrite ?K1, ?K2, ?K3; try done.
    + split; [constructor|simpl; lia].
    + apply meta_bitmap; [done|lia|done].
    + apply whole_write; [done|]. rewrite length_put_dinode; [apply F7| |apply F8].
      apply dip_slot; [lia|]. rewrite F7. reflexivity.
    + apply meta_inode_ok; [done|lia|done].
Qed.

(** What a call that wrote [bs] at [off] did. *)
Record file_wrote (off : Z) (bs : list Z) (C : Z -> block) (x : inode) (s : kst)
                  (C' : Z -> block) (L' : list Z) (x' : inode) (s' : kst) : Prop := {
  fw_view : file_view C' L' [] x' s';
  fw_ok : file_ok C' x';
  fw_inode : x' = set_isize (Z.max (i_size x) (off + Z.of_nat (length bs))) (set_iaddrs (i_addrs x') x);
  fw_bytes o : 0 <= o < MAXSIZE -> fbyte C' x' o = patch off bs (fbyte C x) o;
  fw_others b : taken sb C b -> ~ belongs C x b -> taken sb C' b /\ ~ belongs C' x' b /\ C' b = C b;
  fw_saved : C' (IBLOCK (i_inum x) sb) = put_dinode (dip (i_inum x)) x' (C (IBLOCK (i_inum x) sb));
  fw_meta b : b < sb_bmapstart sb -> b <> IBLOCK (i_inum x) sb -> C' b = C b;
  fw_table : k_inodes s' = <[ip := x']> (k_inodes s);
  fw_does : exists io, fs_does pid d [] io s s'
}.

(** The size is updated, then the inode is stored. *)
Lemma writei_finish off bs ds C0 L0 x0 s0 C L x s :
  wrote_to me pid d st sb ip off bs ds C0 L0 x0 s0 C L x s -> op_open s -> file_ok C0 x0 ->
  0 <= off <= i_size x0 -> off + Z.of_nat (length bs) <= MAXSIZE ->
  0 <= i_inum x0 < sb_ninodes sb -> Z.of_nat (length L) < LOGSIZE - 1 ->
  exists C' x' s',
    (do! if! off + Z.of_nat (length bs) >? i_size x then put_inode ip (set_isize (off + Z.of_nat (length bs)));
     iupdate ip) s = Ret tt s' /\
    file_wrote off bs C0 x0 s0 C' (logged (IBLOCK (i_inum x0) sb) L) x' s' /\
    forall y, valid_block sb y -> used sb C' y = used sb C y.
Proof using HD Hsb.
  intros W Hop Ho Hoff Hend Hi HL. set (e := off + Z.of_nat (length bs)) in *.
  destruct W as [[V [io Hd] Ht Hf] Wb Wm Wt Wo Wme _].
  assert (Es : i_size x = i_size x0) by (by rewrite Hf). assert (En : i_inum x = i_inum x0) by (by rewrite Hf).
  set (x1 := set_isize (Z.max (i_size x0) e) x).
  assert (S1 : exists s1, (if! e >? i_size x then put_inode ip (set_isize e)) s = Ret tt s1 /\
    file_view C L [] x1 s1 /\ k_inodes s1 = <[ip := x1]> (k_inodes s) /\ fs_does pid d [] [] s s1 /\ op_open s1).
  { pose proof V as [F0 F1 F2 F3 F4 F5 F6 F7 F8]. rewrite Es. destruct (Z.gtb_spec e (i_size x0)) as [Hgt|Hle].
    - exists (set_inodes (<[ip := x1]> (k_inodes s)) s).
      split_and!; [|split; try done; [by apply op_view_inodes|by apply list_lookup_insert_eq; eapply lookup_lt_Some|by destruct F8]
                   |done|apply fs_does_set|done].
      unfold put_inode, modify. rewrite (inode_at_view _ _ _ _ _ _ _ _ _ _ _ V). unfold x1. by rewrite Z.max_r by lia.
    - assert (x1 = x) as -> by (unfold x1; rewrite Z.max_l, <- Es by lia; by destruct x).
      exists s. split_and!; [done|done|by rewrite list_insert_id|apply fs_does_op; reflexivity|done]. }
  destruct S1 as (s1 & R1 & V1 & T1 & D1 & Hop1).
  destruct (iupdate_run C L x1 s1 V1 Hop1) as (s2 & R2 & V2 & S2); [unfold x1; simpl; by rewrite En|done|].
  change (i_inum x1) with (i_inum x) in V2. rewrite En in V2.
  pose proof (IBLOCK_range sb Hsb _ Hi) as [_ Hr]. pose proof (fv_ok _ _ _ _ _ _ _ _ _ _ _ V1) as Hx1.
  assert (Ef : forall j, fblock (saved x1 C) x1 j = fblock C x j).
  { intros j. unfold saved. rewrite (meta_fblock sb); [done|done| |done]. change (i_inum x1) with (i_inum x). rewrite En. lia. }
  exists (saved x1 C), x1, s2. split; [krun R1; exact R2|]. split.
  2: { intros y Hy. apply meta_used; [done| |done]. change (i_inum x1) with (i_inum x). rewrite En. lia. }
  split.
  - exact V2.
  - pose proof (fo_size _ _ Ho) as Hsz. split; [unfold x1; simpl; lia|]. intros bn H1 H2. rewrite Ef.
    assert (Hin : in_file bn).
    { split; [done|]. unfold x1 in H2. simpl in H2. unfold MAXSIZE, BSIZE in *. lia. }
    apply Wm; [done|]. destruct (Z.lt_ge_cases (bn * BSIZE) (i_size x0)) as [Hlt|Hge].
    + left. by apply (fo_holes _ _ Ho).
    + right. unfold x1 in H2. simpl in H2. split_and!; [unfold BSIZE in *; lia|lia|]. intros ->. simpl in e. lia.
  - unfold x1. by rewrite Hf.
  - intros o Hor. rewrite <- Wb by done. unfold saved. rewrite (meta_fbyte sb); [done|done| |done|done].
    change (i_inum x1) with (i_inum x). rewrite En. lia.
  - intros b Hb Hn. destruct (Wo b Hb Hn) as [N E]. split_and!.
    + apply (meta_taken sb); [done|change (i_inum x1) with (i_inum x); rewrite En; lia|by apply Wt].
    + intros [->|(j & Hj & Ej)]; apply N; [by left|right]. exists j. by rewrite <- Ef.
    + unfold saved. rewrite (meta_other sb); [done|change (i_inum x1) with (i_inum x); rewrite En; lia|].
      destruct Hb as [[Hb _] _]. pose proof (layout sb Hsb). lia.
  - unfold saved. change (i_inum x1) with (i_inum x). rewrite En, fn_lookup_insert. f_equal. apply Wme. lia.
  - intros b Hb Hne. unfold saved. change (i_inum x1) with (i_inum x). rewrite En, fn_lookup_insert_ne by done. by apply Wme.
  - rewrite (proj1 (proj2 (op_does_keeps _ _ _ _ _ _ S2))), T1, Ht. by rewrite list_insert_insert_eq.
  - exists ((io ++ []) ++ []). eapply fs_does_trans; [eapply fs_does_trans; [exact Hd|exact D1]|by apply fs_does_op].
Qed.

Section spec.
Context (C : Z -> block) (L : list Z) (x : inode) (s : kst) (src : src) (bs : list Z) (off : Z).
Let n := Z.of_nat (length bs).
Hypothesis V : file_view C L [] x s.
Hypothesis Hop : op_open s.
Hypothesis Ho : file_ok C x.
Hypothesis Hi : 0 <= i_inum x < sb_ninodes sb.
Hypothesis Hg : gives me pid src bs s.
Hypothesis Hoff : 0 <= off <= i_size x.
Hypothesis Hend : off + n <= MAXSIZE.
Hypothesis Hroom : Z.of_nat (length L) + (dstart sb - sb_bmapstart sb) + span off (off + n) + 7 <= LOGSIZE.

Lemma writei_run :
  exists tot C' L' x' s', writei ip src off n s = Ret tot s' /\ 0 <= tot <= n /\
    file_wrote off (take (Z.to_nat tot) bs) C x s C' L' x' s' /\
    (tot < n -> forall y, valid_block sb y -> used sb C' y = true) /\
    Z.of_nat (length L') <= Z.of_nat (length L) + (dstart sb - sb_bmapstart sb) + span off (off + n) + 2 /\
    (forall b, b ∈ L' -> b ∈ L \/ sb_inodestart sb <= b < sb_size sb) /\ L' <> [] /\
    (tot < n -> tot = 0 \/ (off + tot) mod BSIZE = 0).
Proof using All.
  assert (HM : MAXSIZE < 2 ^ 32) by reflexivity. destruct Hg as [Hg0 _]. pose proof (span_pos off (off + n)) as Hsp.
  unfold writei. rewrite kbind_gets, (inode_at_view _ _ _ _ _ _ _ _ _ _ _ V). rewrite u32_small by lia.
  destruct (Z.gtb_spec off (i_size x)); [lia|]. destruct (Z.ltb_spec (off + n) off); [lia|]. cbn [orb].
  change (MAXFILE * BSIZE) with MAXSIZE. destruct (Z.gtb_spec (off + n) MAXSIZE); [lia|].
  destruct (writei_loop_run me pid d st sb ip Hsb tx_idle src bs off C L x s Hg Hop ltac:(lia) Hend (rw_fuel n) 0 [] C L x s)
    as (tot & ds & C1 & L1 & x1 & s1 & R1 & Ht & W1 & Hds & Hful & Hbd).
  { by apply wrote_to_refl. }
  { unfold n. lia. }
  { rewrite (Z.add_0_r off). apply span_fuel. lia. }
  { rewrite (Z.add_0_r off). simpl length. unfold n in *. lia. }
  rewrite (Z.add_0_r off) in R1, Hds. rewrite Hg0 in R1. fold n in R1. krun R1. rewrite kbind_gets.
  pose proof (wt_step _ _ _ _ _ _ _ _ _ _ _ _ _ _ _ _ _ W1) as S1.
  rewrite (inode_at_view _ _ _ _ _ _ _ _ _ _ _ (fs_view _ _ _ _ _ _ _ _ _ _ _ _ _ _ _ S1)).
  assert (Etl : off + tot = off + Z.of_nat (length (take (Z.to_nat tot) bs))) by (rewrite length_take; unfold n in *; lia).
  pose proof (wrote_to_length me pid d st sb ip Hsb _ _ _ _ _ _ _ _ _ _ _ W1) as Hlen. simpl length in Hds.
  fold n in Hds, Ht, Hful.
  destruct (writei_finish off (take (Z.to_nat tot) bs) ds C L x s C1 L1 x1 s1 W1) as (C2 & x2 & s2 & R2 & F2 & U2); try done.
  { by apply (file_step_open _ _ _ _ _ _ _ _ _ _ _ _ _ _ _ S1). }
  { rewrite <- Etl. lia. }
  { lia. }
  exists tot, C2, (logged (IBLOCK (i_inum x) sb) L1), x2, s2. pose proof (logged_length (IBLOCK (i_inum x) sb) L1) as Hll.
  rewrite <- Etl in R2. split_and!; [|lia|lia|exact F2| |lia| | |exact Hbd].
  - revert R2. unfold kbind. destruct ((if! off + tot >? i_size x1 then put_inode ip (set_isize (off + tot))) s1)
      as [[] s3| | | |]; try done. simpl. intros R2. by rewrite R2.
  - intros Hlt y Hy. rewrite U2 by done. by apply Hful.
  - intros b Hb. pose proof (layout sb Hsb) as Hl. apply logged_elem in Hb as [->|Hb].
    { pose proof (IBLOCK_range sb Hsb _ Hi). lia. }
    destruct (wt_log _ _ _ _ _ _ _ _ _ _ _ _ _ _ _ _ _ W1 b Hb) as [J1|[J1|[[-> J1]|[_ J1]]]]; [by left|right..].
    + unfold map_block in J1. lia.
    + pose proof (fv_ok _ _ _ _ _ _ _ _ _ _ _ (fs_view _ _ _ _ _ _ _ _ _ _ _ _ _ _ _ S1)) as Hx1.
      destruct (io_indirect _ _ _ Hx1 J1) as [[J2 J3] _]. lia.
    + destruct J1. lia.
  - intros E. assert (Hin : IBLOCK (i_inum x) sb ∈ logged (IBLOCK (i_inum x) sb) L1) by (apply logged_elem; by left).
    rewrite E in Hin. by apply elem_of_nil in Hin.
Qed.

(** C30: [writei] inside a transaction, for bytes the process can read: it
    writes a prefix of them, all of them unless every block of the disk is in
    use.  Afterwards the file reads as before but for these bytes at [off],
    its size is the larger of the old size and the end of the write, and it
    has no holes; the inode is stored in its place on disk; the other inodes,
    the blocks of every other file and the free map's consistency are kept.
    At most as many blocks join the transaction as the write touches, the free
    map has, and two more (the indirect block and the inode). *)
Theorem writei_spec :
  exists tot C' L' x' s', writei ip src off n s = Ret tot s' /\ 0 <= tot <= n /\
    (tot < n -> forall y, valid_block sb y -> used sb C' y = true) /\
    file_view C' L' [] x' s' /\ file_ok C' x' /\
    i_size x' = Z.max (i_size x) (off + tot) /\ i_inum x' = i_inum x /\ i_type x' = i_type x /\
    (forall o, 0 <= o < MAXSIZE -> fbyte C' x' o = patch off (take (Z.to_nat tot) bs) (fbyte C x) o) /\
    C' (IBLOCK (i_inum x) sb) = put_dinode (dip (i_inum x)) x' (C (IBLOCK (i_inum x) sb)) /\
    (forall b, taken sb C b -> ~ belongs C x b -> taken sb C' b /\ ~ belongs C' x' b /\ C' b = C b) /\
    (forall b, b < sb_bmapstart sb -> b <> IBLOCK (i_inum x) sb -> C' b = C b) /\
    Z.of_nat (length L') <= Z.of_nat (length L) + (dstart sb - sb_bmapstart sb) + span off (off + n) + 2.
Proof using All.
  destruct writei_run as (tot & C' & L' & x' & s' & R & Ht & [F1 F2 F3 F4 F5 F6 F7 F8 F9] & Hful & Hlen & _).
  exists tot, C', L', x', s'. assert (El : Z.of_nat (length (take (Z.to_nat tot) bs)) = tot).
  { rewrite length_take. unfold n in *. lia. }
  rewrite El in F3. split_and!; try done; [lia|lia|rewrite F3; simpl; lia|by rewrite F3|by rewrite F3].
Qed.
End spec.
End call.
