(* ===== verification/FileOps.v ===== *)
(** * Reading and writing files: the contract of kernel/fs.c

    What a process sees: bytes written by [writei] are read back by [readi],
    within one transaction and afterwards; a write inside [begin_op] and
    [end_op], of the size [filewrite] makes them, stays within the reservation
    of an operation and is atomic when the machine stops. *)

From stdpp Require Import functions.
From S2P Require Import Prelude Param Mem CString Kernel Spinlock Kalloc Sched Sleeplock Bio BioRules Log Txn Vm PageTable UserCopy Uart Printf Fs Bitmap Console ConsoleLine Balloc Blockmap Inode Contents Writei.
Open Scope Z_scope.

Section ops.
Context `{HD : DiskOk, D : Devices, Lk : Linker}.
Context (me : nat) (pid d : Z) (sb : superblock) (ip : nat).
Hypothesis Hsb : sb_ok sb.
Hypothesis tx_idle : forall hist, Z.land (dev_read hist (UART0 + LSR)) LSR_TX_IDLE <> 0.

Abbreviation st := (sb_logstart sb).
Abbreviation file_view := (file_view me pid d st sb ip).

(** C4: what is written is read back.  After [writei] of [bs] at [off], [readi]
    of any range returns as many bytes as the file now has there, and they are
    the bytes written where the write went and the old bytes of the file
    elsewhere. *)
Theorem write_read C L x s src bs off o m :
  file_view C L [] x s -> op_open s -> file_ok C x -> 0 <= i_inum x < sb_ninodes sb ->
  gives me pid src bs s -> 0 <= off <= i_size x -> off + Z.of_nat (length bs) <= MAXSIZE ->
  Z.of_nat (length L) + (dstart sb - sb_bmapstart sb) + span off (off + Z.of_nat (length bs)) + 7 <= LOGSIZE ->
  0 <= o -> 0 <= m -> o + m < 2 ^ 32 ->
  exists tot s', 0 <= tot <= Z.of_nat (length bs) /\
    let cnt := Z.max 0 (Z.min m (Z.max (i_size x) (off + tot) - o)) in
    (let! r := writei ip src off (Z.of_nat (length bs)) in
     let! res := readi ip ToLocal o m in kret (r, res)) s =
    Ret (tot, (cnt, map (fun i => patch off (take (Z.to_nat tot) bs) (fbyte C x) (o + Z.of_nat i)) (seq 0 (Z.to_nat cnt)))) s'.
Proof using All.
  intros V Hop Ho Hi Hg Hoff Hend Hroom Ho0 Hm Hom.
  destruct (writei_run me pid d st sb ip Hsb tx_idle C L x s src bs off V Hop Ho Hi Hg Hoff Hend Hroom)
    as (tot & C' & L' & x' & s1 & R1 & Ht & [F1 F2 F3 F4 _ _ _ _ _] & _ & Hlen & _).
  exists tot. assert (El : Z.of_nat (length (take (Z.to_nat tot) bs)) = tot) by (rewrite length_take; lia).
  rewrite El in F3. assert (Es : i_size x' = Z.max (i_size x) (off + tot)) by (by rewrite F3).
  destruct (readi_run me pid d st sb ip Hsb C' L' x' s1 o m F1 F2) as (s2 & R2 & _ & _); try done.
  { unfold NBUF, LOGSIZE, MAXOPBLOCKS in *. lia. }
  exists s2. split; [done|]. cbv zeta. rewrite Es in R2. krun R1. krun R2. unfold kret. do 3 f_equal. unfold fbytes.
  apply map_ext_in. intros i Hin. apply in_seq in Hin. apply F4. pose proof (fo_size _ _ F2). lia.
Qed.

(** One call of [filewrite]'s loop touches at most four blocks of the file. *)
Lemma span_write_max off n : 0 <= off -> 0 <= n <= 3 * BSIZE -> span off (off + n) <= 4.
Proof using.
  intros Ho Hn. unfold span. destruct (Z.ltb_spec off (off + n)); [|lia]. unfold BSIZE in *. zlia.
Qed.

(** C3: a write of at most three blocks' worth of bytes, what [filewrite] does
    in one transaction, is atomic and fits its reservation.  From a log at
    rest, [begin_op], [writei] and [end_op] return; at most seven blocks, less
    than [MAXOPBLOCKS], are logged; the disk then holds the file with the bytes
    written, its inode included, and the log is at rest.  If the machine stops
    anywhere between, booting recovers the disk before the write or the disk
    after it. *)
Theorem write_atomic x s src bs off :
  let C := dget (k_disk s) in let n := Z.of_nat (length bs) in
  quiescent me pid d st s -> LOGSIZE <= log_size (k_log s) -> sb_size sb < BPB ->
  k_sb s = sb -> pr_locking (k_pr s) = true -> panicked (k_pr s) = false ->
  k_inodes s !! ip = Some x -> i_dev x = d -> 0 <= i_inum x < sb_ninodes sb ->
  bitmap_ok sb C -> whole C -> inode_ok sb C x -> file_ok C x ->
  gives me pid src bs s -> 0 <= off <= i_size x -> off + n <= MAXSIZE -> n <= 3 * BSIZE ->
  exists tot C' x' L',
    0 <= tot <= n /\ (tot < n -> forall y, valid_block sb y -> used sb C' y = true) /\
    bitmap_ok sb C' /\ inode_ok sb C' x' /\ file_ok C' x' /\ i_size x' = Z.max (i_size x) (off + tot) /\
    (forall o, 0 <= o < MAXSIZE -> fbyte C' x' o = patch off (take (Z.to_nat tot) bs) (fbyte C x) o) /\
    C' (IBLOCK (i_inum x) sb) = put_dinode (dip (i_inum x)) x' (C (IBLOCK (i_inum x) sb)) /\
    Z.of_nat (length L') <= 7 < MAXOPBLOCKS /\
    (exists s', (do! begin_op; let! r := writei ip src off n in do! end_op; kret r) s = Ret tot s' /\
       quiescent me pid d st s' /\ k_writes s' = k_writes s ++ commit_ws st L' C' /\
       forall b, ~ in_log st b -> dget (k_disk s') b = C' b) /\
    (forall p sb' s1,
       sb_logstart sb' = st ->
       idle me pid d (set_locks (<[LKlog := lock_free]> (k_locks s1)) s1) ->
       Z.of_nat (length (lh_block (log_lh (k_log s1)))) = LOGSIZE ->
       k_disk s1 = dapply (take p (commit_ws st L' C')) (k_disk s) ->
       exists s2, initlog d sb' s1 = Ret tt s2 /\
         ((forall b, ~ in_log st b -> dget (k_disk s2) b = C b) \/
          (forall b, ~ in_log st b -> dget (k_disk s2) b = C' b))).
Proof using All.
  intros C n Hq Hls Hone Es Hk Hp Hin Hdv Hi Hb Hw Hx Ho Hg Hoff Hend Hn.
  destruct (op_begin me pid d st s Hq Hls) as (s1 & R1 & V1 & P1 & W1).
  assert (Er : forall t, woke (set_log (set_outstanding 1 (k_log s)) s) t ->
    k_sb t = k_sb s /\ k_pr t = k_pr s /\ k_inodes t = k_inodes s).
  { intros t [E _ _ _]. rewrite E. done. }
  destruct (Er s1 W1) as (E1 & E2 & E3).
  assert (FV : file_view C [] [] x s1).
  { split; rewrite ?E1, ?E2, ?E3; try done. split; [constructor|simpl; lia]. }
  assert (Hg1 : gives me pid src bs s1).
  { eapply gives_same; [exact Hg|]. exact (woke_same_mem me _ _ W1). }
  assert (Hdm : dstart sb - sb_bmapstart sb = 1).
  { unfold dstart. rewrite Z.div_small; [lia|]. pose proof (sbo_size _ Hsb). lia. }
  pose proof (span_write_max off n ltac:(lia) ltac:(unfold n in *; lia)) as Hspan.
  destruct (writei_run me pid d st sb ip Hsb tx_idle C [] x s1 src bs off FV P1 Ho Hi Hg1 Hoff Hend)
    as (tot & C' & L' & x' & s2 & R2 & Ht & [F1 F2 F3 F4 _ F6 _ _ [io F9]] & Hful & Hlen & Hblk & Hne & _).
  { fold n. unfold LOGSIZE, MAXOPBLOCKS. simpl length. lia. }
  fold n in R2, Ht, Hful, Hlen. simpl length in Hlen. pose proof (layout sb Hsb) as Hl.
  assert (El : Z.of_nat (length (take (Z.to_nat tot) bs)) = tot) by (rewrite length_take; unfold n in *; lia).
  rewrite El in F3.
  destruct (op_runs_atomic me pid d st (writei ip src off n) tot C' L' s Hq Hls) as [A1 A2].
  { unfold LOGSIZE, MAXOPBLOCKS in *. pose proof (sbo_data _ Hsb). lia. }
  { intros t Rt _ _ _. rewrite R1 in Rt. injection Rt as <-. exists s2. split_and!; [done|apply F1|].
    destruct (op_does_body _ _ _ _ _ _ F9) as [B1 B2 B3]. split; [exact B1|exact B2|exact B3]. }
  { done. }
  { unfold LOGSIZE, MAXOPBLOCKS. lia. }
  { intros b Hbl. unfold in_log. destruct (Hblk b Hbl) as [H1|H1]; [by apply elem_of_nil in H1|]. lia. }
  exists tot, C', x', L'.
  split_and!; [lia|lia|exact Hful|apply F1|apply F1|exact F2|by rewrite F3|exact F4|exact F6|lia|done|exact A1|exact A2].
Qed.
End ops.

(** ** Example *)

(** Inode 2, a file of five zero bytes in block 46. *)
Definition demo_file : inode := mkinode 1 2 1 true T_FILE 0 0 1 5 (46 :: replicate 12 0).

Lemma demo_whole : whole (dget demo_disk).
Proof.
  intros b. unfold dget, demo_disk. destruct (decide (b = 45)) as [->|Hb].
  - rewrite lookup_singleton_eq. vm_compute. reflexivity.
  - rewrite lookup_singleton_ne by done. apply length_replicate.
Qed.

Lemma demo_fblock bn : in_file bn -> fblock (dget demo_disk) demo_file bn = if bn =? 0 then 46 else 0.
Proof.
  intros [H1 H2]. unfold fblock. change (indirect demo_file) with 0. cbn [Z.eqb].
  destruct (Z.ltb_spec bn NDIRECT) as [Hd|Hd]; unfold NDIRECT in Hd.
  - assert (Hin : bn ∈ seqZ 0 12) by (apply elem_of_seqZ; lia). clear H1 H2 Hd.
    change (seqZ 0 12) with [0; 1; 2; 3; 4; 5; 6; 7; 8; 9; 10; 11] in Hin.
    repeat (apply elem_of_cons in Hin as [->|Hin]; [reflexivity|]). by apply elem_of_nil in Hin.
  - destruct (Z.eqb_spec bn 0); [lia|done].
Qed.

Lemma demo_inode_ok : inode_ok demo_sb (dget demo_disk) demo_file.
Proof.
  assert (T : taken demo_sb (dget demo_disk) 46).
  { split; [vm_compute; intuition congruence|by apply demo_used]. }
  split; [reflexivity|done| | |].
  - intros bn Hbn. rewrite demo_fblock by done. by destruct (bn =? 0).
  - intros bn bn' Hbn Hbn'. rewrite !demo_fblock by done.
    destruct (Z.eqb_spec bn 0), (Z.eqb_spec bn' 0); congruence || lia.
  - intros bn Hbn. rewrite demo_fblock by done. by destruct (bn =? 0).
Qed.

Lemma demo_file_ok : file_ok (dget demo_disk) demo_file.
Proof.
  split; [vm_compute; intuition congruence|]. intros bn H1 H2. simpl in H2. unfold BSIZE in H2.
  rewrite demo_fblock; [|unfold in_file; change MAXFILE with 268; lia]. destruct (Z.eqb_spec bn 0); lia.
Qed.

Section demo.
#[local] Existing Instance Balloc.demo_devices.
#[local] Existing Instance demo_linker.

(** The file inside an open transaction. *)
Lemma demo_file_view : exists s, file_view 1 7 1 2 demo_sb 0 (dget demo_disk) [] [] demo_file s /\ op_open s.
Proof.
  destruct (demo_mounted demo_disk [demo_file] eq_refl) as (s0 & Hq & Hl & Hd & Hs & Hp & Hi).
  destruct (op_begin 1 7 1 2 s0 Hq) as (s & _ & V & P & W); [by rewrite Hl|]. rewrite Hd in V.
  exists s. split; [|done]. pose proof (wk_rest _ _ W) as E.
  assert (E1 : k_sb s = demo_sb) by (rewrite E; exact Hs).
  assert (E2 : k_pr s = mkpr true false) by (rewrite E; exact Hp).
  assert (E3 : k_inodes s = [demo_file]) by (rewrite E; exact Hi).
  split; rewrite ?E1, ?E2, ?E3; try done.
  - split; [constructor|simpl; lia].
  - exact demo_bitmap_ok.
  - exact demo_whole.
  - exact demo_inode_ok.
Qed.

Definition hi : list Z := [104; 105].

Lemma writei_spec_witness : exists s tot C' L' x' s',
  writei (Dk := mem_disk) 0 (FromLocal hi) 5 2 s = Ret tot s' /\ 0 <= tot <= 2 /\
  file_view 1 7 1 2 demo_sb 0 C' L' [] x' s' /\ i_size x' = Z.max 5 (5 + tot).
Proof.
  destruct demo_file_view as (s & V & P).
  destruct (writei_spec (HD := mem_disk_ok) 1 7 1 2 demo_sb 0 demo_sb_ok demo_idle (dget demo_disk) [] demo_file s
    (FromLocal hi) hi 5 V P demo_file_ok) as (tot & C' & L' & x' & s' & R & Ht & _ & V' & _ & Es & _).
  - vm_compute. intuition congruence.
  - apply gives_local.
  - vm_compute. intuition congruence.
  - vm_compute. discriminate.
  - vm_compute. discriminate.
  - exists s, tot, C', L', x', s'. split_and!; [exact R|lia|simpl in Ht; lia|exact V'|exact Es].
Defined.

Lemma write_read_witness : exists s tot s',
  let cnt := Z.max 0 (Z.min 2 (Z.max 5 (5 + tot) - 5)) in
  0 <= tot <= 2 /\
  (let! r := writei (Dk := mem_disk) 0 (FromLocal hi) 5 2 in
   let! res := readi (Dk := mem_disk) 0 ToLocal 5 2 in kret (r, res)) s =
  Ret (tot, (cnt, map (fun i => patch 5 (take (Z.to_nat tot) hi) (fbyte (dget demo_disk) demo_file) (5 + Z.of_nat i))
                    (seq 0 (Z.to_nat cnt)))) s'.
Proof.
  destruct demo_file_view as (s & V & P).
  destruct (write_read (HD := mem_disk_ok) 1 7 1 demo_sb 0 demo_sb_ok demo_idle (dget demo_disk) [] demo_file s
    (FromLocal hi) hi 5 5 2 V P demo_file_ok) as (tot & s' & Ht & R).
  - vm_compute. intuition congruence.
  - apply gives_local.
  - vm_compute. intuition congruence.
  - vm_compute. discriminate.
  - vm_compute. discriminate.
  - lia.
  - lia.
  - reflexivity.
  - exists s, tot, s'. cbv zeta. split; [exact Ht|exact R].
Defined.

Lemma write_atomic_witness : exists s tot C' s',
  (do! begin_op; let! r := writei (Dk := mem_disk) 0 (FromLocal hi) 5 2 in do! end_op (Dk := mem_disk); kret r) s =
  Ret tot s' /\ quiescent 1 7 1 2 s' /\ dget (k_disk s') 46 = C' 46.
Proof.
  destruct (demo_mounted demo_disk [demo_file] eq_refl) as (s & Hq & Hl & Hd & Hs & Hp & Hi).
  destruct (write_atomic (HD := mem_disk_ok) 1 7 1 demo_sb 0 demo_sb_ok demo_idle demo_file s (FromLocal hi) hi 5)
    as (tot & C' & x' & L' & _ & _ & _ & _ & _ & _ & _ & _ & _ & (s' & R & Hq' & _ & Hc) & _);
    rewrite ?Hd, ?Hs, ?Hp, ?Hi, ?Hl; try exact Hq; try reflexivity.
  - vm_compute. intuition congruence.
  - exact demo_bitmap_ok.
  - exact demo_whole.
  - exact demo_inode_ok.
  - exact demo_file_ok.
  - apply gives_local.
  - vm_compute. intuition congruence.
  - vm_compute. discriminate.
  - vm_compute. discriminate.
  - exists s, tot, C', s'. split_and!; [exact R|exact Hq'|]. apply Hc. vm_compute. intuition congruence.
Defined.

(** A transaction that only allocates a block. *)
Lemma op_atomic_witness : exists s s',
  (do! begin_op; let! r := balloc (Dk := mem_disk) 1 in do! end_op (Dk := mem_disk); kret r) s = Ret 47 s' /\
  quiescent 1 7 1 2 s' /\ used demo_sb (dget (k_disk s')) 47 = true.
Proof.
  destruct (demo_mounted demo_disk [] eq_refl) as (s & Hq & Hl & Hd & Hs & Hp & Hi). exists s.
  destruct demo_first as (F1 & F2 & F3).
  destruct (op_atomic (HD := mem_disk_ok) 1 7 1 2 (balloc (Dk := mem_disk) 1) 47
    (allocated demo_sb 47 (dget demo_disk)) [45; 47] s Hq) as [(s' & R & Hq' & _ & Hc) _].
  - by rewrite Hl.
  - unfold LOGSIZE, MAXOPBLOCKS. lia.
  - intros s1 _ V P W. rewrite Hd in V. pose proof (wk_rest _ _ W) as E.
    assert (E1 : k_sb s1 = demo_sb) by (rewrite E; exact Hs).
    destruct (balloc_takes (HD := mem_disk_ok) 1 7 1 2 demo_sb demo_sb_ok (dget demo_disk) [] [] s1 V P E1
      demo_bitmap_ok (Forall_nil_2 _) ltac:(simpl; lia) ltac:(unfold LOGSIZE, MAXOPBLOCKS; simpl; lia) 47 F1 F2 F3)
      as (s2 & R2 & V2 & S2).
    exists s2. split_and!; [exact R2|exact V2|]. exact (op_does_body _ _ _ _ _ _ S2).
  - discriminate.
  - unfold LOGSIZE, MAXOPBLOCKS. simpl. lia.
  - intros b Hb. unfold in_log, LOGSIZE, MAXOPBLOCKS. rewrite !elem_of_cons in Hb.
    destruct Hb as [->|[->|Hb]]; [lia|lia|by apply elem_of_nil in Hb].
  - exists s'. split_and!; [exact R|exact Hq'|].
    assert (H47 : used demo_sb (allocated demo_sb 47 (dget demo_disk)) 47 = true).
    { rewrite used_allocated; [reflexivity|exact demo_sb_ok|exact demo_bitmap_ok|exact F1|exact F2|exact F1]. }
    rewrite <- H47. unfold used. rewrite Hc; [done|]. rewrite demo_BBLOCK by done.
    unfold in_log, LOGSIZE, MAXOPBLOCKS. lia.
Defined.
End demo.
