(* ===== verification/Dir.v ===== *)
(** * Directories of kernel/fs.c

    A directory is a file of 16-byte entries: an inode number, 0 for a free
    entry, and a name.  [dirlookup] finds the first entry in use with the
    name; [dirlink] puts a new entry into the first free one, or at the end. *)

From stdpp Require Import functions.
From S2P Require Import Prelude Param Mem CString Kernel Spinlock Kalloc Sched Sleeplock Bio BioRules Log Txn Vm PageTable UserCopy Uart Printf Fs Bitmap Console ConsoleLine Balloc Blockmap Path Inode Contents Writei FileOps.
Open Scope Z_scope.

(** ** Names *)

(** A buffer of [DIRSIZ] bytes. *)
Definition name_buf (l : list Z) : Prop := length l = Z.to_nat DIRSIZ /\ bytes_ok l.

Lemma cstr_ld_bytes m a n : cstr m a n = until_nul (ld_bytes m a n).
Proof.
  revert a. induction n as [|n IH]; intros a; [done|]. cbn [cstr ld_bytes until_nul].
  destruct (ld8 m a =? 0); [done|]. by rewrite IH.
Qed.

Lemma namecmp_zero s t : name_buf s -> name_buf t -> namecmp s t = 0 <-> until_nul s = until_nul t.
Proof.
  intros [Ls Bs] [Lt Bt]. unfold namecmp, strncmp. rewrite strncmp_loop_0, !cstr_ld_bytes.
  rewrite <- Lt at 2. rewrite ld_st_bytes_same by done.
  rewrite ld_st_bytes_other by (unfold DIRSIZ; lia). rewrite <- Ls, ld_st_bytes_same by done. done.
Qed.

Lemma until_nul_le l : (length (until_nul l) <= length l)%nat /\ Forall (fun c => c <> 0) (until_nul l) /\
  (bytes_ok l -> bytes_ok (until_nul l)).
Proof.
  unfold bytes_ok. induction l as [|c l (IH1 & IH2 & IH3)]; simpl; [split_and!; [lia|constructor|done]|].
  destruct (Z.eqb_spec c 0); [split_and!; [simpl; lia|constructor|constructor]|].
  split_and!; [simpl; lia|by constructor|]. intros H. inversion H; subst. constructor; auto.
Qed.

Lemma until_nul_pad l n : Forall (fun c => c <> 0) l -> until_nul (l ++ replicate n 0) = l.
Proof.
  intros H. destruct n; simpl; [rewrite app_nil_r; by apply until_nul_id|by apply until_nul_app].
Qed.

(** [strncpy] into an entry keeps the name. *)
Lemma name_copy_spec name : name_buf name ->
  name_buf (name_copy name) /\ until_nul (name_copy name) = until_nul name.
Proof.
  intros [Ln Bn]. pose proof (until_nul_le name) as (H1 & H2 & H3).
  assert (E : name_copy name = until_nul name ++ replicate (Z.to_nat DIRSIZ - length (until_nul name)) 0).
  { unfold name_copy, strncpy.
    rewrite (strncpy_loop_bytes (st_bytes ∅ 256 name) 0 256 (Z.to_nat DIRSIZ)).
    - rewrite cstr_ld_bytes, <- Ln, ld_st_bytes_same by done. done.
    - apply st_bytes_mem_ok. intros b. unfold ld8. rewrite lookup_empty. simpl. lia.
    - unfold disjoint, DIRSIZ. lia. }
  rewrite E. split; [split|by apply until_nul_pad].
  - rewrite length_app, length_replicate. lia.
  - apply Forall_app. split; [by apply H3|]. apply Forall_replicate. lia.
Qed.

(** ** Entries *)

Definition dirent (C : Z -> block) (x : inode) (i : nat) : list Z := fbytes C x (sizeof_dirent * Z.of_nat i) sizeof_dirent.
Definition dir_len (x : inode) : nat := Z.to_nat (i_size x / sizeof_dirent).
Definition dirents (C : Z -> block) (x : inode) : list (list Z) := map (dirent C x) (seq 0 (dir_len x)).

(** An entry in use with this name. *)
Definition is_entry (name de : list Z) : Prop := de_inum de <> 0 /\ until_nul name = until_nul (de_name de).
#[export] Instance is_entry_dec name de : Decision (is_entry name de).
Proof. unfold is_entry. apply _. Defined.

Definition unused (de : list Z) : Prop := de_inum de = 0.
#[export] Instance unused_dec de : Decision (unused de).
Proof. unfold unused. apply _. Defined.

(** A directory: whole entries of bytes. *)
Record dir_ok (C : Z -> block) (x : inode) : Prop := {
  dk_file : file_ok C x;
  dk_type : i_type x = T_DIR;
  dk_size : i_size x mod sizeof_dirent = 0;
  dk_bytes o : 0 <= o < i_size x -> 0 <= fbyte C x o < 256
}.

Lemma de_name_buf de : bytes_ok de -> length de = 16%nat -> name_buf (de_name de).
Proof.
  intros HB HL. unfold name_buf, de_name, slice. split.
  - rewrite length_take, length_drop, HL. reflexivity.
  - by apply Forall_take, Forall_drop.
Qed.

Lemma dir_offset C x i : dir_ok C x -> (i < dir_len x)%nat ->
  0 <= sizeof_dirent * Z.of_nat i /\ sizeof_dirent * Z.of_nat i + sizeof_dirent <= i_size x.
Proof.
  intros K Hi. unfold dir_len in Hi. pose proof (fo_size _ _ (dk_file _ _ K)). pose proof (dk_size _ _ K).
  pose proof (Z.div_mod (i_size x) sizeof_dirent ltac:(discriminate)). unfold sizeof_dirent, DIRSIZ in *. lia.
Qed.

Lemma dirent_bytes C x i : dir_ok C x -> (i < dir_len x)%nat -> bytes_ok (dirent C x i) /\ length (dirent C x i) = 16%nat.
Proof.
  intros K Hi. split; [|unfold dirent; by rewrite length_fbytes]. pose proof (dir_offset C x i K Hi) as Ho.
  unfold bytes_ok, dirent, fbytes. apply Forall_forall. intros v Hv. apply list_elem_of_fmap in Hv as (j & -> & Hj).
  apply elem_of_seq in Hj. apply (dk_bytes _ _ K). unfold sizeof_dirent, DIRSIZ in *. lia.
Qed.

Lemma dirents_drop C x k :
  (k < dir_len x)%nat -> drop k (dirents C x) = dirent C x k :: drop (S k) (dirents C x).
Proof.
  intros Hk. apply drop_S. unfold dirents. rewrite list_lookup_fmap, lookup_seq_lt by done. done.
Qed.

Lemma length_dirents C x : length (dirents C x) = dir_len x.
Proof. unfold dirents. by rewrite length_map, length_seq. Qed.

(** ** [dirlookup] *)

Section lookup.
Context `{HD : DiskOk, D : Devices, Lk : Linker}.
Context (me : nat) (pid d st : Z) (sb : superblock) (dp : nat).
Hypothesis Hsb : sb_ok sb.
Context (C : Z -> block) (L : list Z) (x : inode).
Hypothesis Hdir : dir_ok C x.
Hypothesis HL : (length L + 1 < NBUF)%nat.

Abbreviation file_view := (file_view me pid d st sb dp).

(** One entry is read. *)
Lemma read_entry i s :
  file_view C L [] x s -> (i < dir_len x)%nat ->
  exists s', readi dp ToLocal (sizeof_dirent * Z.of_nat i) sizeof_dirent s = Ret (sizeof_dirent, dirent C x i) s' /\
    file_view C L [] x s' /\ op_step pid d [] s s'.
Proof using HD Hsb Hdir HL.
  intros V Hi. destruct (dir_offset C x i Hdir Hi) as [H1 H2].
  pose proof (fo_size _ _ (dk_file _ _ Hdir)) as Hsz. assert (HM : MAXSIZE < 2 ^ 32 - 16) by reflexivity.
  destruct (readi_run me pid d st sb dp Hsb C L x s (sizeof_dirent * Z.of_nat i) sizeof_dirent V (dk_file _ _ Hdir) HL H1)
    as (s' & R & V' & S'); [unfold sizeof_dirent, DIRSIZ in *; lia..|].
  exists s'. split_and!; [|done|done]. rewrite Z.min_l, Z.max_r in R by (unfold sizeof_dirent, DIRSIZ in *; lia). exact R.
Qed.

(** The result of the search from entry [k] on. *)
Definition looked_up (name : list Z) (k : nat) (r : outcome (option (nat * Z))) (s : kst) : Prop :=
  match list_find (is_entry name) (drop k (dirents C x)) with
  | None => exists s', r = Ret None s' /\ file_view C L [] x s' /\ op_step pid d [] s s'
  | Some (i, de) => exists s', r = (let! ip := iget d (de_inum de) in kret (Some (ip, sizeof_dirent * Z.of_nat (k + i)))) s' /\
                      file_view C L [] x s' /\ op_step pid d [] s s'
  end.

Lemma dirlookup_loop_run fuel name k s :
  file_view C L [] x s -> name_buf name -> (k <= dir_len x)%nat -> (dir_len x - k < fuel)%nat ->
  looked_up name k (dirlookup_loop fuel dp name (sizeof_dirent * Z.of_nat k) s) s.
Proof using HD Hsb Hdir HL.
  intros V Hn. revert k s V. induction fuel as [|fuel IH]; intros k s V Hk Hf; [lia|].
  cbn [dirlookup_loop]. rewrite kbind_gets, (inode_at_view _ _ _ _ _ _ _ _ _ _ _ V).
  pose proof (fo_size _ _ (dk_file _ _ Hdir)) as Hsz. pose proof (dk_size _ _ Hdir) as Hm.
  pose proof (Z.div_mod (i_size x) sizeof_dirent ltac:(discriminate)) as Ed.
  destruct (Z.ltb_spec (sizeof_dirent * Z.of_nat k) (i_size x)) as [Hlt|Hge].
  2: { assert (k = dir_len x) as -> by (unfold dir_len, sizeof_dirent, DIRSIZ in *; lia).
       unfold looked_up. rewrite drop_ge by (rewrite length_dirents; lia). simpl. exists s. split_and!; [done|done|reflexivity]. }
  assert (Hi : (k < dir_len x)%nat) by (unfold dir_len, sizeof_dirent, DIRSIZ in *; lia).
  destruct (read_entry k s V Hi) as (s1 & R1 & V1 & S1). krun R1. rewrite Z.eqb_refl. cbn [negb].
  destruct (dirent_bytes C x k Hdir Hi) as [Hb Hl].
  assert (Next : looked_up name (S k) (dirlookup_loop fuel dp name (sizeof_dirent * Z.of_nat k + sizeof_dirent) s1) s1).
  { replace (sizeof_dirent * Z.of_nat k + sizeof_dirent) with (sizeof_dirent * Z.of_nat (S k)) by lia. apply IH; [done|lia|lia]. }
  assert (Skip : ~ is_entry name (dirent C x k) ->
    looked_up name k (dirlookup_loop fuel dp name (sizeof_dirent * Z.of_nat k + sizeof_dirent) s1) s).
  { intros Hne. unfold looked_up in *. rewrite dirents_drop by done. cbn [list_find]. rewrite decide_False by done.
    destruct (list_find (is_entry name) (drop (S k) (dirents C x))) as [[i de]|]; simpl.
    - destruct Next as (s2 & R2 & V2 & S2). exists s2. split_and!; [|done|by etransitivity]. rewrite R2. by rewrite Nat.add_succ_r.
    - destruct Next as (s2 & R2 & V2 & S2). exists s2. split_and!; [done|done|by etransitivity]. }
  destruct (Z.eqb_spec (de_inum (dirent C x k)) 0) as [E0|E0].
  { apply Skip. by intros [? _]. }
  pose proof (namecmp_zero name _ Hn (de_name_buf _ Hb Hl)) as Hcmp.
  destruct (Z.eqb_spec (namecmp name (de_name (dirent C x k))) 0) as [Ec|Ec].
  - unfold looked_up. rewrite dirents_drop by done. cbn [list_find]. rewrite decide_True by (split; [done|by apply Hcmp]).
    exists s1. rewrite Nat.add_0_r, (fv_dev _ _ _ _ _ _ _ _ _ _ _ V). done.
  - apply Skip. intros [_ E]. apply Ec. by apply Hcmp.
Qed.

Lemma dirlookup_run name s :
  file_view C L [] x s -> name_buf name -> looked_up name 0 (dirlookup dp name s) s.
Proof using HD Hsb Hdir HL.
  intros V Hn. unfold dirlookup. rewrite kbind_gets, (inode_at_view _ _ _ _ _ _ _ _ _ _ _ V), (dk_type _ _ Hdir).
  rewrite Z.eqb_refl. cbn [negb]. pose proof (dirlookup_loop_run (dir_fuel (i_size x)) name 0 s V Hn) as R.
  change (sizeof_dirent * Z.of_nat 0) with 0 in R. apply R; [lia|]. unfold dir_fuel, dir_len. lia.
Qed.
End lookup.

(** ** [dirlink] *)

(** The entry that [dirlink] uses. *)
Definition slot_of (C : Z -> block) (x : inode) : nat :=
  match list_find unused (dirents C x) with Some (i, _) => i | None => dir_len x end.

Definition new_entry (name : list Z) (inum : Z) : list Z := le_bytes 2 inum ++ name_copy name.

Lemma new_entry_fields name inum : name_buf name -> 0 <= inum < 2 ^ 16 ->
  length (new_entry name inum) = 16%nat /\ bytes_ok (new_entry name inum) /\
  de_inum (new_entry name inum) = inum /\ until_nul (de_name (new_entry name inum)) = until_nul name.
Proof.
  intros Hn Hi. destruct (name_copy_spec name Hn) as [[N1 N2] N3]. unfold new_entry. split_and!.
  - rewrite length_app, N1. reflexivity.
  - apply Forall_app. split; [apply le_bytes_ok|done].
  - unfold de_inum, slice. rewrite drop_0, take_app_length' by (by rewrite length_le_bytes). by apply le_val_small.
  - unfold de_name, slice. rewrite drop_app_length' by (by rewrite length_le_bytes). by rewrite take_ge by lia.
Qed.

(** The directory as a map from names to inode numbers. *)
Definition dir_map (C : Z -> block) (x : inode) (name : list Z) : option Z :=
  (fun e => de_inum (snd e)) <$> list_find (is_entry name) (dirents C x).

(** The first entry that [dirlookup] finds is the one the map speaks of. *)
Lemma dir_map_find C x name inum :
  dir_map C x name = Some inum <->
  exists i de, list_find (is_entry name) (dirents C x) = Some (i, de) /\ de_inum de = inum.
Proof.
  unfold dir_map. destruct (list_find (is_entry name) (dirents C x)) as [[i de]|]; simpl; split.
  - intros [= <-]. eauto.
  - by intros (? & ? & [= <- <-] & <-).
  - done.
  - by intros (? & ? & ? & _).
Qed.

Lemma dir_map_none C x name : dir_map C x name = None -> list_find (is_entry name) (dirents C x) = None.
Proof. unfold dir_map. by destruct (list_find (is_entry name) (dirents C x)). Qed.

Lemma dirents_lookup C x i : (i < dir_len x)%nat -> dirents C x !! i = Some (dirent C x i).
Proof. intros Hi. unfold dirents. rewrite list_lookup_fmap, lookup_seq_lt by done. done. Qed.

Lemma slot_spec C x : (slot_of C x <= dir_len x)%nat /\
  (forall i de, dirents C x !! i = Some de -> (i < slot_of C x)%nat -> ~ unused de) /\
  (forall de, dirents C x !! slot_of C x = Some de -> unused de).
Proof.
  unfold slot_of. destruct (list_find unused (dirents C x)) as [[i de]|] eqn:E.
  - apply list_find_Some in E as (E1 & E2 & E3). pose proof (lookup_lt_Some _ _ _ E1) as Hl. rewrite length_dirents in Hl.
    split_and!; [lia| |]; [eauto|]. intros de' E4. congruence.
  - apply list_find_None in E. rewrite Forall_lookup in E. split_and!; [lia|eauto|].
    intros de Hd. apply lookup_lt_Some in Hd. rewrite length_dirents in Hd. lia.
Qed.

(** The entries after the new one has been stored. *)
Definition put_entry (k : nat) (de : list Z) (l : list (list Z)) : list (list Z) :=
  if decide (k < length l)%nat then <[k := de]> l else l ++ [de].

Lemma put_entry_lookup k de l i : (k <= length l)%nat ->
  put_entry k de l !! i = if decide (i = k) then Some de else l !! i.
Proof.
  intros Hk. unfold put_entry. destruct (decide (k < length l)%nat) as [H|H].
  - case_decide; subst; [by rewrite list_lookup_insert_eq|by rewrite list_lookup_insert_ne].
  - assert (k = length l) as -> by lia. case_decide; subst.
    + rewrite lookup_app_r, Nat.sub_diag by lia. done.
    + destruct (decide (i < length l)%nat); [by rewrite lookup_app_l|].
      rewrite lookup_app_r by lia. rewrite !lookup_ge_None_2; simpl; [done|lia|lia].
Qed.

(** Which name the new entry answers to. *)
Lemma find_put_entry name name' k de l :
  (k <= length l)%nat -> (forall de', l !! k = Some de' -> unused de') ->
  (forall i de', l !! i = Some de' -> ~ is_entry name de') ->
  de_inum de <> 0 -> until_nul (de_name de) = until_nul name ->
  (fun e => de_inum (snd e)) <$> list_find (is_entry name') (put_entry k de l) =
    if decide (until_nul name' = until_nul name) then Some (de_inum de)
    else (fun e => de_inum (snd e)) <$> list_find (is_entry name') l.
Proof.
  intros Hk Hu Hn Hd He. case_decide as E.
  - assert (list_find (is_entry name') (put_entry k de l) = Some (k, de)) as ->; [|done].
    apply list_find_Some. split_and!.
    + rewrite put_entry_lookup by done. by rewrite decide_True.
    + split; [done|congruence].
    + intros j y Hj Hlt. rewrite put_entry_lookup, decide_False in Hj by (done || lia).
      intros [Y1 Y2]. apply (Hn j y Hj). split; [done|congruence].
  - assert (Hs : ~ is_entry name' de) by (intros [_ X]; congruence).
    destruct (list_find (is_entry name') l) as [[i y]|] eqn:F.
    + apply list_find_Some in F as (F1 & F2 & F3).
      assert (i <> k). { intros ->. destruct F2 as [F2 _]. by apply F2, Hu. }
      assert (list_find (is_entry name') (put_entry k de l) = Some (i, y)) as ->; [|done].
      apply list_find_Some. split_and!; [by rewrite put_entry_lookup, decide_False|done|].
      intros j z Hj Hlt. rewrite put_entry_lookup in Hj by done. case_decide; [congruence|by apply (F3 j z)].
    + apply list_find_None in F. assert (list_find (is_entry name') (put_entry k de l) = None) as ->; [|done].
      apply list_find_None. apply Forall_lookup. intros j z Hj. rewrite put_entry_lookup in Hj by done.
      rewrite Forall_lookup in F. case_decide; [congruence|by apply (F j z)].
Qed.

Section link.
Context `{HD : DiskOk, D : Devices, Lk : Linker}.
Context (me : nat) (pid d st : Z) (sb : superblock) (dp : nat).
Hypothesis Hsb : sb_ok sb.
Hypothesis tx_idle : forall hist, Z.land (dev_read hist (UART0 + LSR)) LSR_TX_IDLE <> 0.
Context (C : Z -> block) (L : list Z) (x : inode).
Hypothesis Hdir : dir_ok C x.

Abbreviation file_view := (file_view me pid d st sb dp).

Lemma dirlink_slot_run fuel k s :
  file_view C L [] x s -> (length L + 1 < NBUF)%nat -> (k <= slot_of C x)%nat -> (dir_len x - k < fuel)%nat ->
  exists s', dirlink_slot fuel dp (sizeof_dirent * Z.of_nat k) s = Ret (sizeof_dirent * Z.of_nat (slot_of C x)) s' /\
    file_view C L [] x s' /\ op_step pid d [] s s'.
Proof using HD Hsb Hdir.
  intros V HL. destruct (slot_spec C x) as (S1 & S2 & S3). revert k s V.
  induction fuel as [|fuel IH]; intros k s V Hk Hf; [lia|].
  cbn [dirlink_slot]. rewrite kbind_gets, (inode_at_view _ _ _ _ _ _ _ _ _ _ _ V).
  pose proof (fo_size _ _ (dk_file _ _ Hdir)) as Hsz. pose proof (dk_size _ _ Hdir) as Hm.
  pose proof (Z.div_mod (i_size x) sizeof_dirent ltac:(discriminate)) as Ed.
  destruct (Z.ltb_spec (sizeof_dirent * Z.of_nat k) (i_size x)) as [Hlt|Hge].
  2: { assert (k = slot_of C x) as <- by (unfold dir_len, sizeof_dirent, DIRSIZ in *; lia).
       exists s. split_and!; [done|done|reflexivity]. }
  assert (Hi : (k < dir_len x)%nat) by (unfold dir_len, sizeof_dirent, DIRSIZ in *; lia).
  destruct (read_entry me pid d st sb dp Hsb C L x Hdir HL k s V Hi) as (s1 & R1 & V1 & T1).
  krun R1. rewrite Z.eqb_refl. cbn [negb]. pose proof (dirents_lookup C x k Hi) as El.
  destruct (Z.eqb_spec (de_inum (dirent C x k)) 0) as [E0|E0].
  - assert (k = slot_of C x) as <-.
    { destruct (decide (k < slot_of C x)%nat) as [Hlt'|]; [|lia]. by destruct (S2 k _ El Hlt'). }
    exists s1. by split_and!.
  - assert (k <> slot_of C x). { intros E. apply E0. apply S3. by rewrite <- E. }
    destruct (IH (S k) s1 V1) as (s2 & R2 & V2 & T2); [lia|lia|].
    exists s2. split_and!; [|done|by etransitivity]. rewrite <- R2. f_equal. lia.
Qed.

(** The entries after the write of an entry. *)
Lemma dirents_write C' x' name inum :
  let de := new_entry name inum in let off := sizeof_dirent * Z.of_nat (slot_of C x) in
  name_buf name -> 0 <= inum < 2 ^ 16 -> i_size x' = Z.max (i_size x) (off + sizeof_dirent) -> off + sizeof_dirent <= MAXSIZE ->
  (forall o, 0 <= o < MAXSIZE -> fbyte C' x' o = patch off de (fbyte C x) o) -> i_type x' = i_type x -> file_ok C' x' ->
  dirents C' x' = put_entry (slot_of C x) de (dirents C x) /\ dir_ok C' x'.
Proof using Hdir.
  intros de off Hn Hi Es Hmx Hb Hty Hok. destruct (slot_spec C x) as (S1 & _ & _).
  destruct (new_entry_fields name inum Hn Hi) as (Hl & Hbo & _). fold de in Hl, Hbo.
  pose proof (fo_size _ _ (dk_file _ _ Hdir)) as Hsz. pose proof (dk_size _ _ Hdir) as Hm.
  pose proof (Z.div_mod (i_size x) sizeof_dirent ltac:(discriminate)) as Ed.
  assert (Hk : dir_len x' = Nat.max (dir_len x) (S (slot_of C x)) /\ i_size x' mod sizeof_dirent = 0).
  { unfold dir_len in *. rewrite Es. unfold off, sizeof_dirent, DIRSIZ in *. zlia. }
  destruct Hk as [Hk Hmod]. pose proof (fo_size _ _ Hok) as Hsz'. split.
  - apply list_eq. intros i. rewrite put_entry_lookup by (rewrite length_dirents; done).
    destruct (decide (i < dir_len x')%nat) as [Hlt|Hge].
    2: { rewrite lookup_ge_None_2 by (rewrite length_dirents; lia). rewrite decide_False by lia.
         by rewrite lookup_ge_None_2 by (rewrite length_dirents; lia). }
    assert (Hend : sizeof_dirent * Z.of_nat i + sizeof_dirent <= i_size x') by
      (unfold dir_len in Hlt; pose proof (Z.div_mod (i_size x') sizeof_dirent ltac:(discriminate)); unfold sizeof_dirent, DIRSIZ in *; lia).
    rewrite dirents_lookup by done. unfold dirent, fbytes.
    case_decide as Ei.
    + subst i. f_equal. change (Z.to_nat sizeof_dirent) with 16%nat. apply list_eq. intros j.
      destruct (decide (j < 16)%nat) as [Hj|Hj].
      * rewrite list_lookup_fmap, lookup_seq_lt by done. simpl. rewrite Hb by (unfold off, sizeof_dirent, DIRSIZ in *; lia).
        unfold patch. fold off. rewrite Hl.
        destruct (Z.leb_spec off (off + Z.of_nat j)); [|lia]. destruct (Z.ltb_spec (off + Z.of_nat j) (off + Z.of_nat 16)); [|lia].
        simpl. replace (Z.to_nat (off + Z.of_nat j - off)) with j by lia.
        destruct (lookup_lt_is_Some_2 de j) as [v Hv]; [lia|]. by rewrite Hv.
      * rewrite !lookup_ge_None_2; [done|lia|rewrite length_fmap, length_seq; lia].
    + rewrite dirents_lookup by lia. f_equal. unfold dirent, fbytes. apply map_ext_in. intros j Hj. apply in_seq in Hj.
      change (Z.to_nat sizeof_dirent) with 16%nat in Hj. rewrite Hb by (unfold sizeof_dirent, DIRSIZ in *; lia).
      unfold patch. rewrite Hl.
      destruct (Z.leb_spec off (sizeof_dirent * Z.of_nat i + Z.of_nat j)),
        (Z.ltb_spec (sizeof_dirent * Z.of_nat i + Z.of_nat j) (off + Z.of_nat 16)); try done.
      exfalso. unfold off, sizeof_dirent, DIRSIZ in *. lia.
  - split; [done|by rewrite Hty, (dk_type _ _ Hdir)|done|]. intros o Ho. rewrite Hb by lia. unfold patch. rewrite Hl.
    destruct (Z.leb_spec off o), (Z.ltb_spec o (off + Z.of_nat 16)); simpl.
    + destruct (lookup_lt_is_Some_2 de (Z.to_nat (o - off))) as [v Hv]; [lia|]. rewrite Hv. simpl.
      unfold bytes_ok in Hbo. rewrite Forall_lookup in Hbo. by apply (Hbo _ _ Hv).
    + apply (dk_bytes _ _ Hdir). unfold dir_len, off, sizeof_dirent, DIRSIZ in *. zlia.
    + apply (dk_bytes _ _ Hdir). unfold dir_len, off, sizeof_dirent, DIRSIZ in *. zlia.
    + apply (dk_bytes _ _ Hdir). unfold dir_len, off, sizeof_dirent, DIRSIZ in *. zlia.
Qed.

Lemma dirents_same C' x' :
  i_size x' = i_size x -> i_type x' = i_type x -> file_ok C' x' ->
  (forall o, 0 <= o < MAXSIZE -> fbyte C' x' o = fbyte C x o) -> dirents C' x' = dirents C x /\ dir_ok C' x'.
Proof using Hdir.
  intros Es Ety Hok Hb. pose proof (fo_size _ _ (dk_file _ _ Hdir)) as Hsz. split.
  - unfold dirents, dir_len. rewrite Es. apply map_ext_in. intros i Hi. apply in_seq in Hi.
    destruct (dir_offset C x i Hdir) as [O1 O2]; [unfold dir_len; lia|].
    unfold dirent, fbytes. apply map_ext_in. intros j Hj. apply in_seq in Hj. apply Hb.
    unfold sizeof_dirent, DIRSIZ in *. lia.
  - destruct Hdir as [_ K2 K3 K4]. split; [done|congruence|by rewrite Es|].
    intros o Ho. rewrite Es in Ho. rewrite Hb by lia. by apply K4.
Qed.

(** An entry lies in one block. *)
Lemma span_entry k : span (sizeof_dirent * Z.of_nat k) (sizeof_dirent * Z.of_nat k + sizeof_dirent) = 1.
Proof using.
  unfold span. destruct (Z.ltb_spec (sizeof_dirent * Z.of_nat k) (sizeof_dirent * Z.of_nat k + sizeof_dirent)); unfold sizeof_dirent, DIRSIZ, BSIZE in *; zlia.
Qed.

Section call.
Context (name : list Z) (s : kst).
Hypothesis V : file_view C L [] x s.
Hypothesis Hn : name_buf name.

(** A directory is a finite map from names to inode numbers, and
    [dirlookup] looks a name up in it.  For a name that the map has, it
    returns the entry of that inode in the inode table, with one more
    reference, and the offset of a directory entry with this name and number;
    it panics only when the table has no entry for the inode and none is
    free.  For any other name it returns 0 and no inode gains a reference. *)
Theorem dirlookup_spec :
  (length L + 1 < NBUF)%nat -> itable_ok (k_inodes s) ->
  match dir_map C x name with
  | None => exists s', dirlookup dp name s = Ret None s' /\ file_view C L [] x s' /\ k_inodes s' = k_inodes s
  | Some inum => exists i s1, file_view C L [] x s1 /\
      (i < dir_len x)%nat /\ is_entry name (dirent C x i) /\ de_inum (dirent C x i) = inum /\
      ((exists ip y, dirlookup dp name s =
            Ret (Some (ip, sizeof_dirent * Z.of_nat i)) (set_inodes (<[ip := y]> (k_inodes s)) (norm s1)) /\
          (ip < length (k_inodes s))%nat /\ is_inode d inum y /\ itable_ok (<[ip := y]> (k_inodes s)) /\
          forall y0, k_inodes s !! ip = Some y0 -> i_ref y = i_ref y0 + 1) \/
       (dirlookup dp name s = Panic "iget: no inodes" (acquired LKitable s1) /\
          forall j z, k_inodes s !! j = Some z -> 0 < i_ref z /\ ~ is_inode d inum z))
  end.
Proof using HD Hsb Hdir V Hn.
  intros HL Hit. pose proof (dirlookup_run me pid d st sb dp Hsb C L x Hdir HL name s V Hn) as R.
  unfold looked_up in R. rewrite drop_0 in R. unfold dir_map.
  destruct (list_find (is_entry name) (dirents C x)) as [[i de]|] eqn:F; simpl.
  2: { destruct R as (s' & R & V' & S'). exists s'. split_and!; [done|done|]. apply (op_does_keeps _ _ _ _ _ _ S'). }
  destruct R as (s1 & R & V1 & S1). apply list_find_Some in F as (F1 & F2 & _).
  pose proof (lookup_lt_Some _ _ _ F1) as Hi. rewrite length_dirents in Hi.
  rewrite dirents_lookup in F1 by done. injection F1 as <-.
  destruct (op_does_keeps _ _ _ _ _ _ S1) as (_ & Ei & _).
  pose proof (vw_ctx _ _ _ _ _ _ _ _ (ov_view _ _ _ _ _ _ _ _ (fv_view _ _ _ _ _ _ _ _ _ _ _ V1))) as Hx.
  exists i, s1. split_and!; [done|done|done|done|].
  destruct (iget_cases d (de_inum (dirent C x i)) s1) as [(ip & y0 & y & R2 & Hy0 & Hok & Hy)|[R2 Hfull]].
  - apply Hx.
  - by apply Hx.
  - by rewrite Ei.
  - left. exists ip, y. rewrite Ei in R2, Hy0, Hok. pose proof (it_ref _ Hit _ _ Hy0) as Hr0. split_and!.
    + rewrite R. krun R2. done.
    + by eapply lookup_lt_Some.
    + destruct Hy as [[(H1 & H2 & H3) ->]|(H1 & -> & _)]; unfold is_inode; simpl; lia.
    + done.
    + intros y1 Hy1. rewrite Hy0 in Hy1. injection Hy1 as <-. destruct Hy as [[_ ->]|(H1 & -> & _)]; simpl; lia.
  - right. rewrite Ei in Hfull. split; [|done]. rewrite R. unfold kbind. by rewrite R2.
Qed.

(** [dirlink] with all that it leaves alone. *)
Lemma dirlink_run inum :
  op_open s -> 0 < inum < 2 ^ 16 -> 0 <= i_inum x < sb_ninodes sb -> dir_map C x name = None ->
  sizeof_dirent * Z.of_nat (slot_of C x) + sizeof_dirent <= MAXSIZE ->
  Z.of_nat (length L) + (dstart sb - sb_bmapstart sb) + 8 <= LOGSIZE ->
  exists r C' L' x' s', dirlink dp name inum s = Ret r s' /\
    file_view C' L' [] x' s' /\ dir_ok C' x' /\ i_inum x' = i_inum x /\
    (r = 0 /\ (forall nm, dir_map C' x' nm = if decide (until_nul nm = until_nul name) then Some inum else dir_map C x nm) \/
     r = -1 /\ (forall nm, dir_map C' x' nm = dir_map C x nm) /\ forall y, valid_block sb y -> used sb C' y = true) /\
    (forall b, taken sb C b -> ~ belongs C x b -> taken sb C' b /\ ~ belongs C' x' b /\ C' b = C b) /\
    Z.of_nat (length L') <= Z.of_nat (length L) + (dstart sb - sb_bmapstart sb) + 3 /\
    x' = set_isize (i_size x') (set_iaddrs (i_addrs x') x) /\ k_inodes s' = <[dp := x']> (k_inodes s) /\
    C' (IBLOCK (i_inum x) sb) = put_dinode (dip (i_inum x)) x' (C (IBLOCK (i_inum x) sb)) /\
    (forall b, b < sb_bmapstart sb -> b <> IBLOCK (i_inum x) sb -> C' b = C b) /\ exists io, fs_does pid d [] io s s'.
Proof using All.
  intros Hop Hin Hi Hnone Hmx Hroom. apply dir_map_none in Hnone. pose proof (layout sb Hsb) as Hlay.
  assert (HL : (length L + 1 < NBUF)%nat) by (unfold NBUF, LOGSIZE, MAXOPBLOCKS in *; lia).
  pose proof (dirlookup_run me pid d st sb dp Hsb C L x Hdir HL name s V Hn) as R1.
  unfold looked_up in R1. rewrite drop_0, Hnone in R1. destruct R1 as (s1 & R1 & V1 & S1).
  unfold dirlink. krun R1. rewrite kbind_gets, (inode_at_view _ _ _ _ _ _ _ _ _ _ _ V1).
  destruct (dirlink_slot_run (dir_fuel (i_size x)) 0 s1 V1 HL) as (s2 & R2 & V2 & S2); [lia|unfold dir_fuel, dir_len; lia|].
  change (sizeof_dirent * Z.of_nat 0) with 0 in R2. krun R2. fold (new_entry name inum).
  set (off := sizeof_dirent * Z.of_nat (slot_of C x)) in *. set (de := new_entry name inum).
  destruct (new_entry_fields name inum Hn) as (E1 & E2 & E3 & E4); [lia|]. fold de in E1, E2, E3, E4.
  assert (En : sizeof_dirent = Z.of_nat (length de)) by (by rewrite E1).
  assert (Hop2 : op_open s2) by (eapply op_does_open; [exact S2|]; by eapply op_does_open).
  destruct (slot_spec C x) as (SL1 & _ & SL3).
  assert (Hoff : 0 <= off <= i_size x).
  { unfold off, dir_len in *. pose proof (dk_size _ _ Hdir). pose proof (fo_size _ _ (dk_file _ _ Hdir)).
    pose proof (Z.div_mod (i_size x) sizeof_dirent ltac:(discriminate)). unfold sizeof_dirent, DIRSIZ in *. lia. }
  destruct (writei_run me pid d st sb dp Hsb tx_idle C L x s2 (FromLocal de) de off V2 Hop2 (dk_file _ _ Hdir) Hi
    (gives_local me pid de s2) Hoff) as (tot & C' & L' & x' & s3 & R3 & Ht & [F1 F2 F3 F4 F5 F6 F7 F8 [io F9]] & Hful & Hlen & _ & _ & Hbd).
  { by rewrite <- En. }
  { rewrite <- En. unfold off. rewrite span_entry. lia. }
  rewrite <- En in R3, Ht, Hful, Hlen, Hbd. unfold off in Hlen. rewrite span_entry in Hlen. krun R3.
  assert (Eln : Z.of_nat (length (take (Z.to_nat tot) de)) = tot) by (rewrite length_take; lia). rewrite Eln in F3.
  assert (Es : i_size x' = Z.max (i_size x) (off + tot)) by (by rewrite F3).
  assert (Ety : i_type x' = i_type x) by (by rewrite F3). assert (Enum : i_inum x' = i_inum x) by (by rewrite F3).
  assert (Frame : x' = set_isize (i_size x') (set_iaddrs (i_addrs x') x) /\ k_inodes s3 = <[dp := x']> (k_inodes s) /\
    C' (IBLOCK (i_inum x) sb) = put_dinode (dip (i_inum x)) x' (C (IBLOCK (i_inum x) sb)) /\
    (forall b, b < sb_bmapstart sb -> b <> IBLOCK (i_inum x) sb -> C' b = C b) /\ exists io, fs_does pid d [] io s s3).
  { assert (S12 : op_step pid d [] s s2) by (by etransitivity). split_and!; [by rewrite Es|  |exact F6|exact F7|].
    - rewrite F8. by rewrite (proj1 (proj2 (op_does_keeps _ _ _ _ _ _ S12))).
    - exists ([] ++ io). eapply fs_does_trans; [by apply fs_does_op|exact F9]. }
  clear F6 F7 F8 F9. destruct (Z.eqb_spec tot sizeof_dirent) as [->|Hshort]; cbn [negb].
  - rewrite take_ge in F4 by lia. destruct (dirents_write C' x' name inum Hn) as [D1 D2]; try done; [lia|].
    exists 0, C', L', x', s3. do 4 (split; [done|]). split; [|split; [done|split; [lia|exact Frame]]]. left. split; [done|]. intros nm. unfold dir_map. rewrite D1.
    fold de. rewrite (find_put_entry name nm _ de); [by rewrite E3|by rewrite length_dirents|done| |lia|done].
    intros i de' Hd' Hent. apply list_find_None in Hnone. rewrite Forall_lookup in Hnone. by apply (Hnone i de').
  - assert (tot = 0) as ->.
    { destruct (Hbd ltac:(lia)) as [|Hz]; [done|]. unfold off, sizeof_dirent, DIRSIZ, BSIZE in *. zlia. }
    destruct (dirents_same C' x') as [D1 D2]; [lia|done|done| |].
    { intros o Ho. rewrite F4 by done. apply patch_nil. }
    exists (-1), C', L', x', s3. do 4 (split; [done|]). split; [|split; [done|split; [lia|exact Frame]]]. right. split_and!; [done| |apply Hful; lia].
    intros nm. unfold dir_map. by rewrite D1.
Qed.

(** C11: [dirlink] adds a name to the map.  Inside a transaction, for a name the
    directory does not have, it returns 0 and the directory maps the name to
    the inode number and every other name as before, or it returns -1 with
    every name mapped as before, and then every block of the disk is in use.
    The directory stays well-formed, blocks of other files keep their
    contents, and at most three blocks more than the free map has join the
    transaction. *)
Theorem dirlink_spec inum :
  op_open s -> 0 < inum < 2 ^ 16 -> 0 <= i_inum x < sb_ninodes sb -> dir_map C x name = None ->
  sizeof_dirent * Z.of_nat (slot_of C x) + sizeof_dirent <= MAXSIZE ->
  Z.of_nat (length L) + (dstart sb - sb_bmapstart sb) + 8 <= LOGSIZE ->
  exists r C' L' x' s', dirlink dp name inum s = Ret r s' /\
    file_view C' L' [] x' s' /\ dir_ok C' x' /\ i_inum x' = i_inum x /\
    (r = 0 /\ (forall nm, dir_map C' x' nm = if decide (until_nul nm = until_nul name) then Some inum else dir_map C x nm) \/
     r = -1 /\ (forall nm, dir_map C' x' nm = dir_map C x nm) /\ forall y, valid_block sb y -> used sb C' y = true) /\
    (forall b, taken sb C b -> ~ belongs C x b -> taken sb C' b /\ ~ belongs C' x' b /\ C' b = C b) /\
    Z.of_nat (length L') <= Z.of_nat (length L) + (dstart sb - sb_bmapstart sb) + 3.
Proof using All.
  intros Hop Hin Hi Hnone Hmx Hroom.
  destruct (dirlink_run inum Hop Hin Hi Hnone Hmx Hroom) as (r & C' & L' & x' & s' & H1 & H2 & H3 & H4 & H5 & H6 & H7 & _).
  by exists r, C', L', x', s'.
Qed.
End call.
End link.

(** ** Example *)

(** Inode 1, a directory of two entries in block 46: [a], for inode 2, an empty
    file, and a free one; both inodes are in block 32. *)
Definition name_a : list Z := 97 :: replicate 13 0.
Definition name_b : list Z := 98 :: replicate 13 0.
Definition demo_dir : inode := mkinode 1 1 1 true T_DIR 0 0 1 32 (46 :: replicate 12 0).
Definition dir_block : block := splice 0 (new_entry name_a 2) zero_block.
Definition demo_note : inode := mkinode 1 2 1 true T_FILE 0 0 1 0 (replicate 13 0).
Definition inode_block : block := put_dinode (dip 1) demo_dir (put_dinode (dip 2) demo_note zero_block).
Definition dir_disk : gmap Z block := <[46 := dir_block]> (<[32 := inode_block]> demo_disk).
Definition dir_table : list inode := demo_dir :: replicate (NINODE - 1) inode0.

Lemma dir_disk_used b : valid_block demo_sb b -> used demo_sb (dget dir_disk) b = used demo_sb (dget demo_disk) b.
Proof.
  intros Hb. unfold used. rewrite demo_BBLOCK by done.
  assert (dget dir_disk 45 = dget demo_disk 45) as -> by (unfold dget, dir_disk; by rewrite !lookup_insert_ne).
  reflexivity.
Qed.

Lemma dir_whole : whole (dget dir_disk).
Proof.
  intros b. unfold dget, dir_disk. destruct (decide (b = 46)) as [->|Hb].
  - rewrite lookup_insert_eq. vm_compute. reflexivity.
  - rewrite lookup_insert_ne by done. destruct (decide (b = 32)) as [->|Hb'].
    + rewrite lookup_insert_eq. vm_compute. reflexivity.
    + rewrite lookup_insert_ne by done. apply demo_whole.
Qed.

Lemma dir_bitmap_ok : bitmap_ok demo_sb (dget dir_disk).
Proof.
  assert (V : forall b, 0 <= b < dstart demo_sb -> valid_block demo_sb b).
  { intros b Hb. change (dstart demo_sb) with 46 in Hb. unfold valid_block. simpl. lia. }
  split; intros b Hb; [apply dir_whole|]. rewrite dir_disk_used by (by apply V). exact (bo_meta _ _ demo_bitmap_ok b Hb).
Qed.

Lemma dir_fblock bn : in_file bn -> fblock (dget dir_disk) demo_dir bn = if bn =? 0 then 46 else 0.
Proof. exact (demo_fblock bn). Qed.

Lemma dir_inode_ok : inode_ok demo_sb (dget dir_disk) demo_dir.
Proof.
  assert (T : taken demo_sb (dget dir_disk) 46).
  { split; [vm_compute; intuition congruence|]. rewrite dir_disk_used by (vm_compute; intuition congruence). by apply demo_used. }
  split; [reflexivity|done| | |].
  - intros bn Hbn. rewrite dir_fblock by done. by destruct (bn =? 0).
  - intros bn bn' Hbn Hbn'. rewrite !dir_fblock by done.
    destruct (Z.eqb_spec bn 0), (Z.eqb_spec bn' 0); congruence || lia.
  - intros bn Hbn. rewrite dir_fblock by done. by destruct (bn =? 0).
Qed.

Lemma demo_dir_ok : dir_ok (dget dir_disk) demo_dir.
Proof.
  split.
  - split; [vm_compute; intuition congruence|]. intros bn H1 H2. simpl in H2. unfold BSIZE in H2.
    rewrite dir_fblock; [|unfold in_file; change MAXFILE with 268; lia]. destruct (Z.eqb_spec bn 0); lia.
  - reflexivity.
  - reflexivity.
  - intros o Ho. simpl in Ho.
    assert (F : Forall (fun o => 0 <= fbyte (dget dir_disk) demo_dir o < 256) (seqZ 0 32))
      by (refine (bool_decide_unpack _ _); vm_compute; exact I).
    rewrite Forall_forall in F. apply F, elem_of_seqZ. lia.
Qed.

Lemma dir_table_ok : itable_ok dir_table.
Proof.
  assert (E : forall i y, dir_table !! i = Some y -> y = demo_dir /\ i = 0%nat \/ y = inode0).
  { intros [|i] y Hy; [left; by injection Hy as <-|right]. by apply lookup_replicate in Hy as [-> _]. }
  split; [reflexivity| |].
  - intros i y Hy. by destruct (E i y Hy) as [[-> _]| ->].
  - intros i j y z Hy Hz Hry Hrz _ _. destruct (E i y Hy) as [[-> ->]| ->]; [|done].
    by destruct (E j z Hz) as [[-> ->]| ->].
Qed.

Section demo.
#[local] Existing Instance Balloc.demo_devices.
#[local] Existing Instance demo_linker.

Lemma demo_dir_view : exists s, Blockmap.file_view 1 7 1 2 demo_sb 0 (dget dir_disk) [] [] demo_dir s /\ op_open s /\
  k_inodes s = dir_table.
Proof.
  destruct (demo_mounted dir_disk dir_table eq_refl) as (s0 & Hq & Hl & Hd & Hs & Hp & Hi).
  destruct (op_begin 1 7 1 2 s0 Hq) as (s & _ & V & P & W); [by rewrite Hl|]. rewrite Hd in V.
  exists s. pose proof (wk_rest _ _ W) as E.
  assert (E1 : k_sb s = demo_sb) by (rewrite E; exact Hs).
  assert (E2 : k_pr s = mkpr true false) by (rewrite E; exact Hp).
  assert (E3 : k_inodes s = dir_table) by (rewrite E; exact Hi).
  split; [|done]. split; rewrite ?E1, ?E2, ?E3; try done.
  - split; [constructor|simpl; lia].
  - exact dir_bitmap_ok.
  - exact dir_whole.
  - exact dir_inode_ok.
Qed.

(** The name [a] is found, in entry 0. *)
Lemma dirlookup_spec_witness : exists s s' ip,
  dirlookup (Dk := mem_disk) 0 name_a s = Ret (Some (ip, 0)) s'.
Proof.
  destruct demo_dir_view as (s & V & _ & Hi). exists s.
  assert (Hn : name_buf name_a) by (split; [reflexivity|refine (bool_decide_unpack _ _); vm_compute; exact I]).
  pose proof (dirlookup_spec (HD := mem_disk_ok) 1 7 1 2 demo_sb 0 demo_sb_ok (dget dir_disk) [] demo_dir
    demo_dir_ok name_a s V Hn ltac:(vm_compute; lia) ltac:(rewrite Hi; exact dir_table_ok)) as R.
  change (dir_map (dget dir_disk) demo_dir name_a) with (Some 2) in R.
  destruct R as (i & s1 & _ & Hlt & Hent & _ & [(ip & y & R & _)|[_ Hfull]]).
  - assert (i = 0%nat) as ->.
    { change (dir_len demo_dir) with 2%nat in Hlt. destruct i as [|[|i]]; [done| |lia]. destruct Hent as [Hent _].
      destruct Hent. vm_compute. reflexivity. }
    exists (set_inodes (<[ip := y]> (k_inodes s)) (norm s1)), ip. exact R.
  - rewrite Hi in Hfull. destruct (Hfull 1%nat inode0 eq_refl) as [Hr _]. discriminate.
Defined.

(** The name [b] is added. *)
Lemma dirlink_spec_witness : exists s r C' x' s',
  dirlink (Dk := mem_disk) 0 name_b 3 s = Ret r s' /\
  (r = 0 /\ dir_map C' x' name_b = Some 3 /\ dir_map C' x' name_a = Some 2 \/ r = -1).
Proof.
  destruct demo_dir_view as (s & V & P & Hi). exists s.
  assert (Hn : name_buf name_b) by (split; [reflexivity|refine (bool_decide_unpack _ _); vm_compute; exact I]).
  destruct (dirlink_spec (HD := mem_disk_ok) 1 7 1 2 demo_sb 0 demo_sb_ok demo_idle (dget dir_disk) [] demo_dir
    demo_dir_ok name_b s V Hn 3 P) as (r & C' & L' & x' & s' & R & _ & _ & _ & Hr & _).
  - lia.
  - vm_compute. intuition congruence.
  - vm_compute. reflexivity.
  - vm_compute. discriminate.
  - vm_compute. discriminate.
  - exists r, C', x', s'. split; [exact R|]. destruct Hr as [[-> Hm]|[-> _]]; [left|by right].
    split; [done|]. rewrite !Hm. split; vm_compute; reflexivity.
Defined.
End demo.
