(* ===== verification/Namei.v ===== *)
(** * Path lookup, [namex] of kernel/fs.c

    A file system is a graph of directories: the inode on disk of a number,
    the map of names it stands for if it is a directory, and the inode that a
    path leads to.  [namex] walks it through the inode table, the sleep locks
    and the buffer cache, holding at most two inodes and leaving every
    reference count but the result's as it was. *)

From S2P Require Import Prelude Param Mem CString Kernel Spinlock Kalloc Sched Sleeplock Vm PageTable UserCopy Uart Printf Bio BioRules Log Txn Fs Bitmap Console Balloc Blockmap Path Inode Contents Dir.
Open Scope Z_scope.

(** ** The inode table as reference counts *)

Fixpoint zsum {A} (f : A -> Z) (l : list A) : Z :=
  match l with
  | [] => 0
  | x :: l => f x + zsum f l
  end.

Lemma zsum_insert {A} (f : A -> Z) l i x y : l !! i = Some x -> zsum f (<[i := y]> l) = zsum f l - f x + f y.
Proof.
  revert i. induction l as [|z l IH]; intros [|i] H; simpl in H; try done.
  - injection H as ->. change (<[0%nat := y]> (x :: l)) with (y :: l). cbn [zsum]. lia.
  - change (<[S i := y]> (z :: l)) with (z :: <[i := y]> l). cbn [zsum]. rewrite (IH i H). lia.
Qed.

Lemma zsum_zero {A} (f : A -> Z) l : (forall i x, l !! i = Some x -> f x = 0) -> zsum f l = 0.
Proof.
  induction l as [|x l IH]; intros H; cbn [zsum]; [done|]. rewrite (H 0%nat x eq_refl), IH; [done|].
  intros i y. apply (H (S i)).
Qed.

(** References to inode [inum] that an entry holds, and whether it is in use. *)
Definition weight (d inum : Z) (x : inode) : Z := if (i_dev x =? d) && (i_inum x =? inum) then i_ref x else 0.
Definition in_use (x : inode) : Z := if 0 <? i_ref x then 1 else 0.

Definition refcount (d : Z) (l : list inode) (inum : Z) : Z := zsum (weight d inum) l.
Definition used_entries (l : list inode) : Z := zsum in_use l.

Definition one (i j : Z) : Z := if i =? j then 1 else 0.

Lemma used_full l : Forall (fun x => 0 < i_ref x) l -> used_entries l = Z.of_nat (length l).
Proof.
  unfold used_entries. induction 1 as [|x l Hx _ IH]; [done|]. cbn [zsum length]. rewrite IH.
  unfold in_use. destruct (Z.ltb_spec 0 (i_ref x)); lia.
Qed.

Lemma refcount_none d l inum :
  itable_ok l -> (forall j z, l !! j = Some z -> ~ is_inode d inum z) -> refcount d l inum = 0.
Proof.
  intros [_ Hr _] Hn. apply zsum_zero. intros j z Hz. unfold weight.
  destruct (Z.eqb_spec (i_dev z) d), (Z.eqb_spec (i_inum z) inum); try done. simpl.
  pose proof (Hr j z Hz). destruct (Z.eq_dec (i_ref z) 0); [done|]. destruct (Hn j z Hz). unfold is_inode. lia.
Qed.

Lemma weight_inode d inum j x : is_inode d inum x -> weight d j x = i_ref x * one j inum.
Proof. intros (_ & H1 & H2). unfold weight, one. rewrite H1, H2, Z.eqb_refl, (Z.eqb_sym inum j). simpl. case_match; lia. Qed.

Lemma refcount_at d l i x inum : itable_ok l -> l !! i = Some x -> is_inode d inum x -> refcount d l inum = i_ref x.
Proof.
  intros [_ Hr Hu] Hx Hd. pose proof Hd as (H1 & H2 & H3).
  assert (E : refcount d (<[i := set_iref 0 x]> l) inum = 0).
  { apply zsum_zero. intros j z Hz. unfold weight.
    apply list_lookup_insert_Some in Hz as [(_ & <- & _)|[Hne Hz]]; simpl; [by case_match|].
    destruct (Z.eqb_spec (i_dev z) d), (Z.eqb_spec (i_inum z) inum); try done. simpl.
    pose proof (Hr j z Hz). destruct (Z.eq_dec (i_ref z) 0); [done|]. destruct Hne.
    apply (Hu i j x z); try done; try congruence; lia. }
  unfold refcount in *. rewrite (zsum_insert _ _ _ x) in E by done. rewrite (weight_inode d inum inum x Hd) in E.
  unfold weight in E at 2. simpl in E. rewrite H2, H3, !Z.eqb_refl in E. unfold one in E. rewrite Z.eqb_refl in E. simpl in E. lia.
Qed.

(** ** The directories on disk *)

Lemma dir_map_name C x n1 n2 : until_nul n1 = until_nul n2 -> dir_map C x n1 = dir_map C x n2.
Proof.
  intros E. unfold dir_map. f_equal.
  enough (H : forall l, list_find (is_entry n1) l = list_find (is_entry n2) l) by apply H.
  induction l as [|e l IH]; [done|]. cbn [list_find]. rewrite IH.
  destruct (decide (is_entry n1 e)) as [H|H], (decide (is_entry n2 e)) as [H'|H']; try done; unfold is_entry in *; rewrite E in H; tauto.
Qed.

Lemma until_nul_twice l : until_nul (until_nul l) = until_nul l.
Proof. apply until_nul_id, until_nul_le. Qed.

Section graph.
Context (C : Z -> block) (sb : superblock) (d : Z).

(** The inode that the disk has under a number. *)
Definition dnode (inum : Z) : inode :=
  load_dinode (dip inum) (C (IBLOCK inum sb)) (mkinode d inum 0 true 0 0 0 0 0 []).

Definition is_dir (inum : Z) : bool := i_type (dnode inum) =? T_DIR.

(** One element of a path, of which the first [DIRSIZ] bytes count. *)
Definition step (inum : Z) (e : list Z) : option Z :=
  if is_dir inum then dir_map C (dnode inum) (take (Z.to_nat DIRSIZ) e) else None.

Fixpoint resolve (inum : Z) (es : list (list Z)) : option Z :=
  match es with
  | [] => Some inum
  | e :: es => step inum e ≫= fun j => resolve j es
  end.

(** The directory that has the last element of the path. *)
Definition resolve_parent (inum : Z) (es : list (list Z)) : option Z :=
  match es with
  | [] => None
  | _ => resolve inum (removelast es) ≫= fun j => if is_dir j then Some j else None
  end.

(** A set of inodes in use, closed under names; its directories are well-formed. *)
Record graph_ok (T : Z -> Prop) : Prop := {
  gr_type i : T i -> i_type (dnode i) <> 0;
  gr_linked i : T i -> i_nlink (dnode i) <> 0;
  gr_dir i : T i -> is_dir i = true -> dir_ok C (dnode i) /\ inode_ok sb C (dnode i);
  gr_step i e j : T i -> step i e = Some j -> T j
}.

(** What the walk of [namex] finds, one element at a time. *)
Definition found (par : bool) (inum : Z) (es : list (list Z)) : option Z :=
  if par then resolve_parent inum es else resolve inum es.

Lemma found_cons par inum e es : found par inum (e :: es) =
  if is_dir inum then if par && bool_decide (es = []) then Some inum else step inum e ≫= fun j => found par j es
  else None.
Proof.
  unfold found. destruct par; simpl.
  - unfold resolve_parent. destruct es as [|e' es]; simpl; [by destruct (is_dir inum)|].
    unfold step. by destruct (is_dir inum); [destruct (dir_map _ _ _)|].
  - unfold step. by destruct (is_dir inum).
Qed.

Lemma dnode_load x inum : i_dev x = d -> i_inum x = inum ->
  set_ivalid true (load_dinode (dip inum) (C (IBLOCK inum sb)) x) = set_iref (i_ref x) (dnode inum).
Proof. intros H <-. unfold dnode. rewrite <- H. reflexivity. Qed.

Lemma dir_ok_ref x r : dir_ok C x -> dir_ok C (set_iref r x).
Proof. intros [[H1 H2] H3 H4 H5]. split; [split; [exact H1|exact H2]|exact H3|exact H4|exact H5]. Qed.

Lemma inode_ok_ref x r : inode_ok sb C x -> inode_ok sb C (set_iref r x).
Proof. intros []. split; done. Qed.
End graph.

(** ** Sleep locks of inodes and the cache *)

Lemma op_view_ilock me pid d st C L hs s i v :
  op_view me pid d st C L hs s -> op_view me pid d st C L hs (set_slocks (<[SLinode i := v]> (k_slocks s)) s).
Proof.
  intros [[X I VC VR VH VB] LA HR HN HH HL HS].
  assert (E : forall j, slock_at (set_slocks (<[SLinode i := v]> (k_slocks s)) s) (SLbuf j) = slock_at s (SLbuf j)).
  { intros j. unfold slock_at. simpl. by rewrite lookup_insert_ne. }
  split; try done; [|by destruct LA]. split; try done.
  - by apply ctx_slocks.
  - destruct I as [I1 I2 I3 I4 I5 I6 I7]. split; try done. intros j Hj. rewrite E. by apply I7.
  - intros b. rewrite <- (VH b). unfold held. change (vbuf d (set_slocks _ s) b) with (vbuf d s b).
    destruct (vbuf d s b); [|done]. by rewrite E.
Qed.

(** ** The state between the calls *)

Section lookup.
Context `{HD : DiskOk, D : Devices, Lk : Linker}.
Context (me : nat) (pid d st : Z) (sb : superblock).
Hypothesis Hsb : sb_ok sb.
Context (C : Z -> block) (L : list Z) (T : Z -> Prop).
Hypothesis Hbm : bitmap_ok sb C.
Hypothesis Hw : whole C.
Hypothesis Hg : graph_ok C sb d T.
Hypothesis HL : (length L + 1 < NBUF)%nat.

Abbreviation op_view := (op_view me pid d st).
Abbreviation dnode := (dnode C sb d).
Abbreviation is_dir := (is_dir C sb d).

(** Valid entries of the table are what the disk has. *)
Definition cache_ok (l : list inode) : Prop :=
  forall i x, l !! i = Some x -> 0 < i_ref x -> i_dev x = d -> i_valid x = true -> x = set_iref (i_ref x) (dnode (i_inum x)).

(** The caller has inode [k] locked and nobody any other. *)
Record names_view (k : option nat) (s : kst) : Prop := {
  nv_op : op_view C L [] s;
  nv_sb : k_sb s = sb;
  nv_pr : pr_locking (k_pr s) = true /\ panicked (k_pr s) = false;
  nv_table : itable_ok (k_inodes s);
  nv_cache : cache_ok (k_inodes s);
  nv_locks i : (i < NINODE)%nat ->
    if decide (k = Some i) then slock_at s (SLinode i) = mksleep true pid else sl_locked (slock_at s (SLinode i)) = false
}.

(** What no step changes. *)
Definition kept (s s' : kst) : Prop := k_mem s' = k_mem s /\ log_outstanding (k_log s') = log_outstanding (k_log s).

#[local] Instance kept_refl : Reflexive kept.
Proof. done. Qed.
#[local] Instance kept_trans : Transitive kept.
Proof. intros s1 s2 s3 [A1 A2] [B1 B2]. split; congruence. Qed.

Lemma names_ctx k s : names_view k s -> ctx me pid s.
Proof. intros V. apply (vw_ctx _ _ _ _ _ _ _ _ (ov_view _ _ _ _ _ _ _ _ (nv_op _ _ V))). Qed.

Lemma names_step k s s' : names_view k s -> op_view C L [] s' -> op_step pid d [] s s' ->
  names_view k s' /\ k_inodes s' = k_inodes s /\ kept s s'.
Proof.
  intros [V1 V2 V3 V4 V5 V6] V' S. destruct (op_does_keeps _ _ _ _ _ _ S) as (E1 & E2 & E3 & E4 & _).
  split; [|split; [done|split; [done|apply (op_does_log _ _ _ _ _ _ S)]]].
  split; rewrite ?E1, ?E2, ?E3; try done. intros i Hi.
  pose proof (qt_slock _ _ (hd_quiet _ _ (os_rest _ _ _ _ _ _ S)) i) as E. rewrite E. exact (V6 i Hi).
Qed.

Lemma names_woke k s s' : names_view k s -> woke s s' -> names_view k s' /\ k_inodes s' = k_inodes s /\ kept s s'.
Proof. intros V W. destruct (op_woke _ _ _ _ _ _ _ _ _ (nv_op _ _ V) W) as [V' S]. by apply names_step. Qed.

Lemma names_put k s l : names_view k s -> itable_ok l -> cache_ok l -> names_view k (set_inodes l s).
Proof. intros [] Hl Hc. split; try done. by apply op_view_inodes. Qed.

Lemma names_lock s i v k k' : names_view k s -> (k' = Some i /\ v = mksleep true pid \/ k' = None /\ sl_locked v = false) ->
  (forall j, k = Some j -> j = i) ->
  names_view k' (set_slocks (<[SLinode i := v]> (k_slocks s)) s).
Proof.
  intros [V1 V2 V3 V4 V5 V6] Hv Hk. split; try done; [by apply op_view_ilock|]. intros j Hj. unfold slock_at. simpl.
  destruct (decide (j = i)) as [->|Hne].
  - rewrite lookup_insert_eq. simpl. destruct Hv as [[-> ->]|[-> Hv]]; [by rewrite decide_True|by rewrite decide_False].
  - rewrite lookup_insert_ne by congruence. rewrite decide_False by (destruct Hv as [[-> _]|[-> _]]; congruence).
    specialize (V6 j Hj). rewrite decide_False in V6; [exact V6|]. intros ->. by apply Hne, Hk.
Qed.

Lemma entry_range k s ip x : names_view k s -> k_inodes s !! ip = Some x -> (ip < NINODE)%nat.
Proof. intros V H. rewrite <- (it_len _ (nv_table _ _ V)). by eapply lookup_lt_Some. Qed.

(** Storing an entry that stands for the same inode as often. *)
Lemma itable_same l ip x y : itable_ok l -> l !! ip = Some x -> i_dev y = i_dev x -> i_inum y = i_inum x -> 0 <= i_ref y <= i_ref x ->
  itable_ok (<[ip := y]> l).
Proof using.
  clear HL.
  intros [H1 H2 H3] Hx Ed Ei Er. split.
  - by rewrite length_insert.
  - intros i z Hz. apply list_lookup_insert_Some in Hz as [(_ & <- & _)|[_ Hz]]; [lia|by apply (H2 i)].
  - intros i j u v Hu Hv Hru Hrv Du Iu.
    apply list_lookup_insert_Some in Hu as [(<- & <- & _)|[Hne Hu]], Hv as [(<- & <- & _)|[Hne' Hv]]; [done| | |].
    + apply (H3 ip j x v); try done; try congruence; lia.
    + apply (H3 i ip u x); try done; try congruence; lia.
    + by apply (H3 i j u v).
Qed.

Lemma cache_put l ip y : cache_ok l -> y = set_iref (i_ref y) (dnode (i_inum y)) -> cache_ok (<[ip := y]> l).
Proof. intros Hl Hy i z Hz. apply list_lookup_insert_Some in Hz as [(_ & <- & _)|[_ Hz]]; [done|by apply (Hl i)]. Qed.

Lemma cache_ref l ip x r : cache_ok l -> l !! ip = Some x -> 0 < i_ref x -> i_dev x = d -> cache_ok (<[ip := set_iref r x]> l).
Proof.
  intros Hl Hx Hr Hd i z Hz Hrz Hdz Hvz. apply list_lookup_insert_Some in Hz as [(_ & <- & _)|[_ Hz]]; [|by apply (Hl i)].
  cbn [set_iref i_valid i_ref i_inum] in *. exact (f_equal (set_iref r) (Hl ip x Hx Hr Hd Hvz)).
Qed.

(** [ilock] leaves in the table what the disk has. *)
Lemma ilock_run ip x inum s :
  names_view None s -> k_inodes s !! ip = Some x -> is_inode d inum x -> T inum ->
  exists s', ilock (Some ip) s = Ret tt s' /\ names_view (Some ip) s' /\
    k_inodes s' = <[ip := set_iref (i_ref x) (dnode inum)]> (k_inodes s) /\ kept s s'.
Proof.
  intros V Hx Hin HT. pose proof Hin as (Hr & Hd & Hi). pose proof (entry_range _ _ _ _ V Hx) as Hip.
  unfold ilock. rewrite kbind_gets, (inode_at_lookup _ _ _ Hx), (proj2 (Z.ltb_ge _ _)) by lia.
  pose proof (nv_locks _ _ V ip Hip) as Hfree. rewrite decide_False in Hfree by done.
  destruct (acquiresleep_run me pid (SLinode ip) s (names_ctx _ _ V) ltac:(by apply Nat.ltb_lt) Hfree) as (s1 & R1 & W1).
  krun R1. destruct (names_woke (Some ip) _ _ (names_lock s ip _ None (Some ip) V (or_introl (conj eq_refl eq_refl)) ltac:(done)) W1) as (V1 & E1 & K1).
  simpl in E1. assert (Hx1 : k_inodes s1 !! ip = Some x) by (by rewrite E1).
  rewrite kbind_gets, (inode_at_lookup _ _ _ Hx1). destruct (i_valid x) eqn:Hval.
  { exists s1. split; [done|]. split; [done|]. split; [|done]. rewrite E1, list_insert_id; [done|].
    rewrite Hx. f_equal. rewrite <- Hi. by apply (nv_cache _ _ V ip). }
  rewrite kbind_gets, (nv_sb _ _ V1), Hd, Hi.
  destruct (op_bread _ _ _ _ _ _ _ _ (IBLOCK inum sb) (nv_op _ _ V1) ltac:(set_solver) ltac:(simpl; lia)) as (i & s2 & R2 & O2 & D2 & V2 & S2).
  krun R2. unfold buf_data. rewrite kbind_gets, D2. unfold put_inode at 1. rewrite kbind_modify.
  destruct (op_does_keeps _ _ _ _ _ _ S2) as (_ & E2 & _ & _ & E2d & _).
  assert (Hx2 : k_inodes s2 !! ip = Some x) by (by rewrite E2).
  rewrite (inode_at_lookup _ _ _ Hx2), Hi. set (x1 := load_dinode _ _ x). set (t := set_inodes _ s2).
  destruct (op_brelse _ _ _ _ _ _ _ t i (IBLOCK inum sb) (op_view_inodes _ _ _ _ _ _ _ _ _ V2) O2) as (s3 & R3 & V3 & S3).
  { change (k_disk t) with (k_disk s2). rewrite E2d. apply (op_view_clean me pid d st C L []); [exact (nv_op _ _ V1)|set_solver]. }
  krun R3. unfold put_inode. rewrite kbind_modify, kbind_gets.
  destruct (op_does_keeps _ _ _ _ _ _ S3) as (_ & E3 & _). simpl in E3. rewrite E2 in E3.
  assert (Hlt : (ip < length (k_inodes s1))%nat) by (by eapply lookup_lt_Some).
  rewrite (inode_at_lookup s3 ip x1) by (rewrite E3; by apply list_lookup_insert_eq).
  unfold x1. rewrite (dnode_load C sb d x inum Hd Hi), E3, list_insert_insert_eq. set (y := set_iref (i_ref x) (dnode inum)).
  assert (S13 : op_step pid d [] s1 (set_inodes (k_inodes s1) s3)).
  { transitivity s2; [exact S2|]. pose proof (op_does_inodes pid d (k_inodes s1) [] [] _ _ S3) as S. rewrite <- E2 in S |- *. exact S. }
  destruct (names_step (Some ip) _ _ V1 (op_view_inodes _ _ _ _ (k_inodes s1) _ _ _ _ V3) S13) as (V4 & _ & K4).
  assert (Et : itable_ok (<[ip := y]> (k_inodes s1))).
  { apply (itable_same _ _ x); [apply V1|done|by rewrite Hd|by rewrite Hi|]. simpl. lia. }
  assert (Ec : cache_ok (<[ip := y]> (k_inodes s1))) by (apply cache_put; [apply V1|done]).
  eexists. split; [|split; [exact (names_put _ _ _ V4 Et Ec)|split; [simpl; by rewrite E1|by transitivity s1]]].
  rewrite (inode_at_lookup _ ip y) by (simpl; by apply list_lookup_insert_eq).
  change (i_type y) with (i_type (dnode inum)). rewrite (proj2 (Z.eqb_neq _ _) (gr_type _ _ _ _ Hg _ HT)). reflexivity.
Qed.

Lemma iunlock_run ip x s :
  names_view (Some ip) s -> k_inodes s !! ip = Some x -> 0 < i_ref x ->
  exists s', iunlock (Some ip) s = Ret tt s' /\ names_view None s' /\ k_inodes s' = k_inodes s /\ kept s s'.
Proof.
  intros V Hx Hr. pose proof (entry_range _ _ _ _ V Hx) as Hip. assert (Hk : kernel_lock (LKsleep (SLinode ip)) = true) by (by apply Nat.ltb_lt).
  unfold iunlock. destruct (holdingsleep_run me pid (SLinode ip) s (names_ctx _ _ V) Hk) as (s1 & R1 & W1).
  pose proof (nv_locks _ _ V ip Hip) as Hl. rewrite decide_True in Hl by done. rewrite Hl in R1. simpl in R1. rewrite Z.eqb_refl in R1.
  krun R1. destruct (names_woke _ _ _ V W1) as (V1 & E1 & K1).
  rewrite kbind_gets, (inode_at_lookup s1 ip x) by (by rewrite E1). rewrite (proj2 (Z.ltb_ge _ _)) by lia. cbn [negb orb].
  destruct (releasesleep_run me pid (SLinode ip) s1 (names_ctx _ _ V1) Hk) as (s2 & R2 & W2).
  destruct (names_woke None _ _ (names_lock s1 ip (mksleep false 0) (Some ip) None V1 (or_intror (conj eq_refl eq_refl)) ltac:(congruence)) W2)
    as (V2 & E2 & K2).
  exists s2. split; [exact R2|]. split; [done|]. simpl in E2. split; [congruence|]. by transitivity s1.
Qed.

(** A reference dropped: the inode is linked, so nothing is truncated. *)
Lemma iput_run ip x inum s :
  names_view None s -> k_inodes s !! ip = Some x -> is_inode d inum x -> T inum ->
  exists s', iput ip s = Ret tt s' /\ names_view None s' /\
    k_inodes s' = <[ip := set_iref (i_ref x - 1) x]> (k_inodes s) /\ kept s s'.
Proof.
  intros V Hx (Hr & Hd & Hi) HT. pose proof (names_ctx _ _ V) as X. pose proof (cx_cpu _ _ _ X) as Hc.
  unfold iput. krun (acquire_run LKitable s Hc (cx_locks _ _ _ X LKitable eq_refl)).
  assert (Hx1 : inode_at (acquired LKitable s) ip = x) by (by apply inode_at_lookup).
  rewrite kbind_gets, Hx1.
  assert (Hn : (i_ref x =? 1) && i_valid x && (i_nlink x =? 0) = false).
  { destruct (i_valid x) eqn:Hv; [|by rewrite andb_false_r]. pose proof (nv_cache _ _ V ip x Hx Hr Hd Hv) as E.
    assert (En : i_nlink x = i_nlink (dnode inum)) by (rewrite <- Hi; exact (f_equal i_nlink E)).
    rewrite En, (proj2 (Z.eqb_neq _ 0) (gr_linked _ _ _ _ Hg _ HT)). by rewrite andb_false_r. }
  rewrite Hn, kbind_kret. unfold put_inode. rewrite kbind_modify, Hx1.
  set (y := set_iref (i_ref x - 1) x). eexists. split; [apply (itable_release _ s Hc (cx_locks _ _ _ X LKitable eq_refl))|].
  destruct (names_woke None s (norm s) V (woke_norm s Hc)) as (V1 & E1 & K1).
  split; [|split; [done|done]]. apply names_put; [done| |].
  - apply (itable_same _ _ x); [apply V|done|done|done|]. simpl. lia.
  - apply cache_ref; [apply V|done|done|done].
Qed.

(** ** Reference counts *)

Definition fresh_entry (r : Z) : Z := if r =? 0 then 1 else 0.

Lemma counts_load l ip x inum : l !! ip = Some x -> is_inode d inum x ->
  (forall i, refcount d (<[ip := set_iref (i_ref x) (dnode inum)]> l) i = refcount d l i) /\
  used_entries (<[ip := set_iref (i_ref x) (dnode inum)]> l) = used_entries l.
Proof.
  intros Hx Hin. pose proof Hin as (Hr & _ & _). split.
  - intros i. unfold refcount. rewrite (zsum_insert _ _ _ x) by done.
    rewrite (weight_inode d inum i x Hin), (weight_inode d inum i (set_iref _ _)) by done. simpl. lia.
  - unfold used_entries. rewrite (zsum_insert _ _ _ x) by done. unfold in_use. simpl. lia.
Qed.

Lemma counts_drop l ip x inum : itable_ok l -> l !! ip = Some x -> is_inode d inum x ->
  (forall i, refcount d (<[ip := set_iref (i_ref x - 1) x]> l) i = refcount d l i - one i inum) /\
  used_entries (<[ip := set_iref (i_ref x - 1) x]> l) = used_entries l - fresh_entry (refcount d l inum - 1).
Proof.
  intros Hl Hx Hin. pose proof Hin as (Hr & Hd & Hi). rewrite (refcount_at d l ip x inum Hl Hx Hin). split.
  - intros i. unfold refcount. rewrite (zsum_insert _ _ _ x) by done. rewrite (weight_inode d inum i x Hin).
    unfold weight, one. simpl. rewrite Hd, Hi, Z.eqb_refl, (Z.eqb_sym inum i). simpl. case_match; lia.
  - unfold used_entries. rewrite (zsum_insert _ _ _ x) by done. unfold in_use, fresh_entry. simpl.
    rewrite (proj2 (Z.ltb_lt _ _) Hr). destruct (Z.ltb_spec 0 (i_ref x - 1)), (Z.eqb_spec (i_ref x - 1) 0); lia.
Qed.

Lemma counts_add l ip x inum : itable_ok l -> l !! ip = Some x -> is_inode d inum x ->
  (forall i, refcount d (<[ip := set_iref (i_ref x + 1) x]> l) i = refcount d l i + one i inum) /\
  used_entries (<[ip := set_iref (i_ref x + 1) x]> l) = used_entries l + fresh_entry (refcount d l inum).
Proof.
  intros Hl Hx Hin. pose proof Hin as (Hr & Hd & Hi). rewrite (refcount_at d l ip x inum Hl Hx Hin). split.
  - intros i. unfold refcount. rewrite (zsum_insert _ _ _ x) by done. rewrite (weight_inode d inum i x Hin).
    rewrite (weight_inode d inum i (set_iref (i_ref x + 1) x)) by (unfold is_inode; simpl; lia). simpl. lia.
  - unfold used_entries. rewrite (zsum_insert _ _ _ x) by done. unfold in_use, fresh_entry. simpl.
    rewrite !(proj2 (Z.ltb_lt _ _)), (proj2 (Z.eqb_neq _ _)) by lia. lia.
Qed.

(** [iget] of an inode of the graph, while an entry is free. *)
Lemma iget_names k j s :
  names_view k s -> (refcount d (k_inodes s) j = 0 -> used_entries (k_inodes s) < Z.of_nat NINODE) ->
  exists q y0 y s', iget d j s = Ret q s' /\ names_view k s' /\ kept s s' /\ k_inodes s !! q = Some y0 /\
    k_inodes s' = <[q := y]> (k_inodes s) /\ is_inode d j y /\ (y = set_iref (i_ref y0 + 1) y0 \/ i_ref y0 = 0) /\
    (forall i, refcount d (k_inodes s') i = refcount d (k_inodes s) i + one i j) /\
    used_entries (k_inodes s') = used_entries (k_inodes s) + fresh_entry (refcount d (k_inodes s) j).
Proof.
  intros V Hfree. pose proof (names_ctx _ _ V) as X. pose proof (nv_table _ _ V) as Hl.
  destruct (names_woke k s (norm s) V (woke_norm s (cx_cpu _ _ _ X))) as (V1 & E1 & K1).
  destruct (iget_cases d j s (cx_cpu _ _ _ X) (cx_locks _ _ _ X LKitable eq_refl) Hl)
    as [(q & y0 & y & R & Hy0 & Hok & [[Hin ->]|(Hz & -> & Hno)])|[_ Hfull]].
  - exists q, y0. do 2 eexists. split; [exact R|]. pose proof Hin as (Hr & Hd & Hi).
    assert (Hin' : is_inode d j (set_iref (i_ref y0 + 1) y0)) by (unfold is_inode; simpl; lia).
    split_and!; try done; [|by left| |].
    + apply names_put; [done|exact Hok|]. apply cache_ref; [apply V|done|done|done].
    + apply (counts_add _ q y0 j Hl Hy0 Hin).
    + apply (counts_add _ q y0 j Hl Hy0 Hin).
  - exists q, y0. do 2 eexists. split; [exact R|].
    assert (Hin' : is_inode d j (fresh_inode d j y0)) by done.
    split_and!; try done; [|by right| |].
    + apply names_put; [done|exact Hok|]. intros i z Hz' Hrz Hdz Hvz.
      by apply list_lookup_insert_Some in Hz' as [(_ & <- & _)|[_ Hz']]; [|by apply (nv_cache _ _ V i)].
    + intros i. unfold refcount. cbn [k_inodes set_inodes]. rewrite (zsum_insert _ _ _ y0) by done.
      rewrite (weight_inode d j i _ Hin'). assert (weight d i y0 = 0) as -> by (unfold weight; rewrite Hz; by case_match). simpl. lia.
    + cbn [k_inodes set_inodes]. rewrite (refcount_none d _ j Hl Hno). unfold used_entries. rewrite (zsum_insert _ _ _ y0) by done.
      assert (in_use y0 = 0) as -> by (unfold in_use; by rewrite Hz). change (in_use (fresh_inode d j y0)) with 1. unfold fresh_entry. simpl. lia.
  - exfalso. assert (Hu : used_entries (k_inodes s) = Z.of_nat NINODE).
    { rewrite used_full, (it_len _ Hl); [done|]. apply Forall_forall. intros x Hx. apply list_elem_of_lookup in Hx as [i Hx].
      by apply (Hfull i). }
    rewrite Hu in Hfree. enough (Z.of_nat NINODE < Z.of_nat NINODE) by lia. apply Hfree, refcount_none; [done|]. intros i z Hz. by apply (Hfull i).
Qed.

(** ** One directory *)

Lemma dirlookup_names ip x inum name s :
  names_view (Some ip) s -> k_inodes s !! ip = Some x -> x = set_iref (i_ref x) (dnode inum) -> 0 < i_ref x -> T inum ->
  is_dir inum = true -> name_buf name -> used_entries (k_inodes s) < Z.of_nat NINODE ->
  match dir_map C (dnode inum) name with
  | None => exists s', dirlookup ip name s = Ret None s' /\ names_view (Some ip) s' /\ k_inodes s' = k_inodes s /\ kept s s'
  | Some j => exists q off y x' s', dirlookup ip name s = Ret (Some (q, off)) s' /\ names_view (Some ip) s' /\ kept s s' /\
      k_inodes s' !! q = Some y /\ is_inode d j y /\ k_inodes s' !! ip = Some x' /\ is_inode d inum x' /\
      (forall i, refcount d (k_inodes s') i = refcount d (k_inodes s) i + one i j) /\
      used_entries (k_inodes s') = used_entries (k_inodes s) + fresh_entry (refcount d (k_inodes s) j)
  end.
Proof.
  intros V Hx Ex Hr HT Hdir Hn Hu. destruct (gr_dir _ _ _ _ Hg _ HT Hdir) as [Hdo Hio].
  assert (Hin : is_inode d inum x) by (rewrite Ex; done).
  assert (Hxd : dir_ok C x) by (rewrite Ex; by apply dir_ok_ref).
  assert (FV : file_view me pid d st sb ip C L [] x s).
  { split; try done; try apply V; [split; [constructor|simpl; lia]|apply Hin|rewrite Ex; by apply inode_ok_ref]. }
  pose proof (dirlookup_run me pid d st sb ip Hsb C L x Hxd HL name s FV Hn) as R. unfold looked_up in R. rewrite drop_0 in R.
  assert (Em : dir_map C (dnode inum) name = dir_map C x name) by (rewrite Ex; reflexivity). rewrite Em. unfold dir_map.
  destruct (list_find (is_entry name) (dirents C x)) as [[i de]|]; simpl.
  - destruct R as (s1 & R & FV1 & S1). destruct (names_step _ _ _ V (fv_view _ _ _ _ _ _ _ _ _ _ _ FV1) S1) as (V1 & E1 & K1).
    destruct (iget_names (Some ip) (de_inum de) s1 V1) as (q & y0 & y & s2 & R2 & V2 & K2 & Hy0 & E2 & Hy & Hcase & Hc & Hc'); [by rewrite E1|].
    rewrite E1 in *. assert (Hq : (q < length (k_inodes s))%nat) by (by eapply lookup_lt_Some).
    assert (Hx' : exists x', k_inodes s2 !! ip = Some x' /\ is_inode d inum x').
    { rewrite E2. destruct (decide (q = ip)) as [->|Hne]; [|exists x; by rewrite list_lookup_insert_ne].
      exists y. rewrite list_lookup_insert_eq by done. split; [done|]. rewrite Hx in Hy0. injection Hy0 as <-.
      destruct Hcase as [->|Hz]; [|lia]. destruct Hin as (? & ? & ?). unfold is_inode. simpl. lia. }
    destruct Hx' as (x' & Hx' & Hin'). eexists q, _, y, x', s2. split; [rewrite R; krun R2; done|].
    split_and!; try done; [by transitivity s1|]. rewrite E2. by apply list_lookup_insert_eq.
  - destruct R as (s1 & R & FV1 & S1). destruct (names_step _ _ _ V (fv_view _ _ _ _ _ _ _ _ _ _ _ FV1) S1) as (V1 & E1 & K1).
    by exists s1.
Qed.

(** ** The walk *)

Section walk.
Context (R0 : Z -> Z) (U0 : Z).
Hypothesis HR0 : forall i, 0 <= R0 i.
Hypothesis HU0 : U0 + 2 <= Z.of_nat NINODE.

Definition counted (R : Z -> Z) (U : Z) (s : kst) : Prop :=
  (forall i, refcount d (k_inodes s) i = R i) /\ used_entries (k_inodes s) = U.

(** The walk has come to inode [inum], entry [ip], and holds one reference. *)
Record walking (k : option nat) (ip : nat) (inum : Z) (s : kst) : Prop := {
  wg_view : names_view k s;
  wg_node : exists x, k_inodes s !! ip = Some x /\ is_inode d inum x;
  wg_live : T inum;
  wg_counts : counted (fun i => R0 i + one i inum) (U0 + fresh_entry (R0 inum)) s
}.

Lemma walking_put ip inum s : walking None ip inum s ->
  exists s', iput ip s = Ret tt s' /\ names_view None s' /\ counted R0 U0 s' /\ kept s s'.
Proof.
  intros [V (x & Hx & Hin) HT [Hc Hu]]. destruct (iput_run ip x inum s V Hx Hin HT) as (s' & R & V' & E & K).
  exists s'. split_and!; try done. destruct (counts_drop _ ip x inum (nv_table _ _ V) Hx Hin) as [D1 D2].
  split; rewrite E; [intros i; rewrite D1, Hc; lia|]. rewrite D2, Hu, Hc. unfold one. rewrite Z.eqb_refl.
  replace (R0 inum + 1 - 1) with (R0 inum) by lia. lia.
Qed.

Lemma walking_unlock ip inum s : walking (Some ip) ip inum s ->
  exists s', iunlock (Some ip) s = Ret tt s' /\ walking None ip inum s' /\ kept s s'.
Proof.
  intros [V (x & Hx & Hin) HT Hc]. destruct (iunlock_run ip x s V Hx ltac:(apply Hin)) as (s' & R & V' & E & K).
  exists s'. split_and!; try done. split; [done| |done|unfold counted; by rewrite E]. exists x. by rewrite E.
Qed.

Lemma walking_drop ip inum s : walking (Some ip) ip inum s ->
  exists s', iunlockput ip s = Ret tt s' /\ names_view None s' /\ counted R0 U0 s' /\ kept s s'.
Proof.
  intros Wk. destruct (walking_unlock _ _ _ Wk) as (s1 & R1 & W1 & K1). destruct (walking_put _ _ _ W1) as (s2 & R2 & V2 & C2 & K2).
  exists s2. split; [unfold iunlockput; krun R1; exact R2|]. split_and!; try done. by transitivity s1.
Qed.

Lemma walking_lock ip inum s : walking None ip inum s ->
  exists s' x, ilock (Some ip) s = Ret tt s' /\ walking (Some ip) ip inum s' /\ kept s s' /\
    k_inodes s' !! ip = Some x /\ x = set_iref (i_ref x) (dnode inum) /\ 0 < i_ref x.
Proof.
  intros [V (x & Hx & Hin) HT [Hc Hu]]. destruct (ilock_run ip x inum s V Hx Hin HT) as (s' & R & V' & E & K).
  destruct (counts_load _ ip x inum Hx Hin) as [D1 D2]. assert (Hlt : (ip < length (k_inodes s))%nat) by (by eapply lookup_lt_Some).
  assert (Hx' : k_inodes s' !! ip = Some (set_iref (i_ref x) (dnode inum))) by (rewrite E; by apply list_lookup_insert_eq).
  exists s', (set_iref (i_ref x) (dnode inum)). split_and!; try done; [|apply Hin]. split; [done| |done|].
  - eexists. split; [exact Hx'|]. split_and!; [apply Hin|done|done].
  - split; rewrite E; [intros i; rewrite D1; apply Hc|by rewrite D2].
Qed.

(** From a locked directory to the inode of a name in it. *)
Lemma walking_step ip inum x name j s :
  walking (Some ip) ip inum s -> k_inodes s !! ip = Some x -> x = set_iref (i_ref x) (dnode inum) -> 0 < i_ref x ->
  is_dir inum = true -> name_buf name -> dir_map C (dnode inum) name = Some j -> T j ->
  exists q off s1 s2, dirlookup ip name s = Ret (Some (q, off)) s1 /\ iunlockput ip s1 = Ret tt s2 /\
    walking None q j s2 /\ kept s s2.
Proof.
  intros [V _ HT [Hc Hu]] Hx Ex Hr Hd Hn Hm HTj.
  assert (Hfree : used_entries (k_inodes s) < Z.of_nat NINODE).
  { rewrite Hu. unfold fresh_entry. case_match; lia. }
  pose proof (dirlookup_names ip x inum name s V Hx Ex Hr HT Hd Hn Hfree) as R. rewrite Hm in R.
  destruct R as (q & off & y & x' & s1 & R1 & V1 & K1 & Hy & Hyj & Hx' & Hin & Hc1 & Hu1).
  destruct (iunlock_run ip x' s1 V1 Hx' ltac:(apply Hin)) as (s2 & R2 & V2 & E2 & K2).
  rewrite <- E2 in Hx'. destruct (iput_run ip x' inum s2 V2 Hx' Hin HT) as (s3 & R3 & V3 & E3 & K3). rewrite E2 in E3, Hx'.
  exists q, off, s1, s3. split; [done|]. split; [unfold iunlockput; krun R2; exact R3|]. split; [|by transitivity s1; [|transitivity s2]].
  destruct (counts_drop _ ip x' inum (nv_table _ _ V1) Hx' Hin) as [D1 D2]. split; [done| |done|].
  - rewrite E3. destruct (decide (q = ip)) as [->|Hne]; [|exists y; by rewrite list_lookup_insert_ne].
    rewrite list_lookup_insert_eq by (by eapply lookup_lt_Some). eexists. split; [done|]. rewrite Hx' in Hy. injection Hy as ->.
    assert (j = inum) as -> by (destruct Hyj as (_ & _ & <-), Hin as (_ & _ & <-); done).
    pose proof (refcount_at d _ ip y inum (nv_table _ _ V1) Hx' Hin) as Er. rewrite Hc1, Hc in Er. unfold one in Er. rewrite Z.eqb_refl in Er.
    pose proof (HR0 inum). destruct Hyj as (H1 & H2 & H3). unfold is_inode. simpl. lia.
  - split; rewrite E3; [intros i; rewrite D1, Hc1, Hc; lia|]. rewrite D2, Hu1, Hu, !Hc1, !Hc. unfold one. rewrite Z.eqb_refl.
    pose proof (HR0 inum). pose proof (HR0 j). unfold fresh_entry.
    destruct (Z.eqb_spec inum j) as [->|Hne].
    + rewrite !Z.eqb_refl. repeat case_match; lia.
    + rewrite (proj2 (Z.eqb_neq j inum)) by done. repeat case_match; lia.
Qed.

Lemma namex_loop_run fuel : forall ip inum path par name s,
  walking None ip inum s -> Forall (fun c => c <> 0) path -> bytes_ok path -> name_buf name -> (length path < fuel)%nat ->
  exists r name' s', namex_loop fuel ip path par name s = Ret (r, name') s' /\ kept s s' /\ names_view None s' /\
    match found C sb d par inum (elements path) with
    | None => r = None /\ counted R0 U0 s'
    | Some j => exists q, r = Some q /\ walking None q j s' /\
        (par = true -> exists e, last (elements path) = Some e /\ until_nul name' = take (Z.to_nat DIRSIZ) e /\ name_buf name')
    end.
Proof.
  induction fuel as [|fuel IH]; intros ip inum path par name s Wk Hz Hb [Hn Hnb] Hlen; [lia|]. cbn [namex_loop].
  pose proof (skipelem_run path name Hz Hn) as Hs. destruct (skipelem path name) as [[path' name']|] eqn:Es.
  2: { rewrite Hs. destruct par; simpl.
       - destruct (walking_put _ _ _ Wk) as (s1 & R1 & V1 & C1 & K1). krun R1. by exists None, name, s1.
       - exists (Some ip), name, s. split_and!; try done; [apply Wk|]. by exists ip. }
  destruct Hs as (e & Ee & Hn' & Eu & Hhd & Hlt). pose proof (skipelem_bytes _ _ _ _ Hb Hnb Es) as Hnb'.
  pose proof (skipelem_rest _ _ _ _ _ Hz Es) as Hz'. pose proof (skipelem_rest _ _ _ _ _ Hb Es) as Hb'.
  destruct (walking_lock _ _ _ Wk) as (s1 & x & R1 & W1 & K1 & Hx & Ex & Hr). krun R1.
  rewrite kbind_gets, (inode_at_lookup _ _ _ Hx). rewrite Ee, found_cons.
  replace (i_type x =? T_DIR) with (is_dir inum) by (rewrite Ex; reflexivity).
  assert (Drop : exists s2, (do! iunlockput ip; kret (@None nat, name')) s1 = Ret (None, name') s2 /\
    kept s s2 /\ names_view None s2 /\ counted R0 U0 s2).
  { destruct (walking_drop _ _ _ W1) as (s2 & R2 & V2 & C2 & K2). exists s2. split; [by krun R2|]. split_and!; try done. by transitivity s1. }
  destruct (is_dir inum) eqn:Hd; cbn [negb]; [|destruct Drop as (s2 & R2 & K2 & V2 & C2); by exists None, name', s2].
  replace (bool_decide (path' = [])) with (bool_decide (elements path' = [])).
  2: { apply bool_decide_ext. split; [by apply elements_nil|by intros ->]. }
  destruct (par && bool_decide (elements path' = [])) eqn:Hpar.
  { apply andb_true_iff in Hpar as [-> El]. apply bool_decide_eq_true in El. rewrite El.
    destruct (walking_unlock _ _ _ W1) as (s2 & R2 & W2 & K2). krun R2. exists (Some ip), name', s2.
    split_and!; try done; [by transitivity s1|apply W2|]. exists ip. split_and!; try done. intros _. by exists e. }
  unfold step. rewrite Hd.
  assert (Em : dir_map C (dnode inum) (take (Z.to_nat DIRSIZ) e) = dir_map C (dnode inum) name').
  { apply dir_map_name. rewrite <- Eu. apply until_nul_twice. }
  destruct (dir_map C (dnode inum) (take (Z.to_nat DIRSIZ) e)) as [j|] eqn:Ej; simpl.
  - assert (HTj : T j) by (apply (gr_step _ _ _ _ Hg inum e); [apply Wk|unfold step; by rewrite Hd]).
    destruct (walking_step ip inum x name' j s1 W1 Hx Ex Hr Hd (conj Hn' Hnb') ltac:(done) HTj) as (q & off & s2 & s3 & R2 & R3 & W3 & K3).
    krun R2. krun R3. destruct (IH q j path' par name' s3 W3 Hz' Hb' (conj Hn' Hnb') ltac:(lia)) as (r & nm & s4 & R4 & K4 & V4 & Hr4).
    exists r, nm, s4. split_and!; try done; [by transitivity s1; [|transitivity s3]|].
    destruct (found C sb d par j (elements path')) as [j'|] eqn:Ef; [|done]. destruct Hr4 as (q' & -> & W4 & Hl).
    exists q'. split_and!; try done. intros Hp. destruct (Hl Hp) as (e' & Hl' & Hu'). exists e'. split; [|exact Hu'].
    destruct (elements path') as [|e0 es0]; [done|]. exact Hl'.
  - destruct W1 as [V1 _ HT1 [Hc1 Hu1]].
    assert (Hfree : used_entries (k_inodes s1) < Z.of_nat NINODE).
    { rewrite Hu1. unfold fresh_entry. case_match; lia. }
    pose proof (dirlookup_names ip x inum name' s1 V1 Hx Ex Hr HT1 Hd (conj Hn' Hnb') Hfree) as R. rewrite <- Em in R.
    destruct R as (s2 & R2 & V2 & E2 & K2). krun R2.
    assert (W2 : walking (Some ip) ip inum s2).
    { split; [done| |done|unfold counted; by rewrite E2]. exists x. rewrite E2. split; [done|]. rewrite Ex. split_and!; [exact Hr|done|done]. }
    destruct (walking_drop _ _ _ W2) as (s3 & R3 & V3 & C3 & K3). krun R3. exists None, name', s3. split_and!; try done.
    by transitivity s1; [|transitivity s2].
Qed.
End walk.

(** Where a path starts: at the root or at the process's directory. *)
Definition starts (path : list Z) (inum : Z) (s : kst) : Prop :=
  if decide (hd 0 path = slash) then inum = ROOTINO
  else exists cwd x, p_cwd (proc_at s me) = Some cwd /\ k_inodes s !! cwd = Some x /\ is_inode d inum x.

Lemma refcount_nonneg l i : itable_ok l -> 0 <= refcount d l i.
Proof.
  intros Hl. destruct (decide (Exists (is_inode d i) l)) as [He|He].
  - apply Exists_exists in He as (x & Hx & Hin). apply list_elem_of_lookup in Hx as [k Hx].
    rewrite (refcount_at d l k x i Hl Hx Hin). destruct Hin. lia.
  - rewrite refcount_none; [lia|done|]. intros j z Hz Hin. apply He, Exists_exists. exists z. split; [|done]. by eapply list_elem_of_lookup_2.
Qed.

Lemma idup_names cwd x inum s : names_view None s -> k_inodes s !! cwd = Some x -> is_inode d inum x ->
  exists s', idup cwd s = Ret cwd s' /\ names_view None s' /\ kept s s' /\ k_inodes s' = <[cwd := set_iref (i_ref x + 1) x]> (k_inodes s).
Proof.
  intros V Hx Hin. pose proof Hin as (Hr & Hd & Hi). pose proof (names_ctx _ _ V) as X. pose proof (cx_cpu _ _ _ X) as Hc.
  pose proof (cx_locks _ _ _ X LKitable eq_refl) as Hf. unfold idup. krun (acquire_run LKitable s Hc Hf).
  unfold put_inode. rewrite kbind_modify, (inode_at_lookup (acquired LKitable s) cwd x) by done.
  krun (itable_release (<[cwd := set_iref (i_ref x + 1) x]> (k_inodes s)) s Hc Hf). eexists. split; [reflexivity|].
  destruct (names_woke None s (norm s) V (woke_norm s Hc)) as (V1 & _ & K1). split_and!; try done. apply names_put; [done| |].
  - pose proof (nv_table _ _ V) as Hl. apply (itable_insert _ _ x _ d inum Hl Hx); try done; [simpl; lia|].
    intros j z Hne Hz (Hrz & Hdz & Hiz). apply Hne. apply (it_unique _ Hl j cwd z x); try done; congruence.
  - apply cache_ref; [apply V|done|done|done].
Qed.

(** [namex], with the counts at the end. *)
Lemma namex_run path par name inum s :
  d = ROOTDEV -> names_view None s -> starts path inum s -> T inum ->
  Forall (fun c => c <> 0) path -> bytes_ok path -> name_buf name -> used_entries (k_inodes s) + 2 <= Z.of_nat NINODE ->
  let R0 := refcount d (k_inodes s) in let U0 := used_entries (k_inodes s) in
  exists r name' s', namex path par name s = Ret (r, name') s' /\ names_view None s' /\ kept s s' /\
    match found C sb d par inum (elements path) with
    | None => r = None /\ counted R0 U0 s'
    | Some j => exists ip, r = Some ip /\ walking R0 U0 None ip j s' /\
        (par = true -> exists e, last (elements path) = Some e /\ until_nul name' = take (Z.to_nat DIRSIZ) e /\ name_buf name')
    end.
Proof.
  intros Ed V Hst HT Hz Hb Hn Hu R0 U0. pose proof (nv_table _ _ V) as Hl.
  assert (HR0 : forall i, 0 <= R0 i) by (intros i; by apply refcount_nonneg).
  assert (S : exists ip s1, (if bool_decide (hd 0 path = slash) then iget ROOTDEV ROOTINO
     else let! p := curproc in let! cwd := gets (fun s => p_cwd (proc_at s p)) in
       match cwd with None => panic "kerneltrap" | Some cwd => idup cwd end) s = Ret ip s1 /\ walking R0 U0 None ip inum s1 /\ kept s s1).
  { unfold starts in Hst. destruct (decide (hd 0 path = slash)) as [Eh|Eh].
    - subst inum. rewrite bool_decide_eq_true_2 by done. rewrite <- Ed.
      destruct (iget_names None ROOTINO s V ltac:(lia)) as (q & y0 & y & s1 & R1 & V1 & K1 & Hy0 & E1 & Hy & _ & Hc1 & Hu1).
      exists q, s1. split_and!; try done. split; [done| |done|by split]. exists y. rewrite E1. split; [|done].
      apply list_lookup_insert_eq. by eapply lookup_lt_Some.
    - rewrite bool_decide_eq_false_2 by done. destruct Hst as (cwd & x & Hcwd & Hx & Hin). pose proof (names_ctx _ _ V) as X.
      pose proof (cx_cpu _ _ _ X) as Hcpu. destruct (names_woke None s (norm s) V (woke_norm s Hcpu)) as (Vn & En & Kn).
      assert (Rc : curproc s = Ret me (norm s)) by (unfold curproc; krun (myproc_run s Hcpu); by rewrite (cx_me _ _ _ X)).
      krun Rc. rewrite kbind_gets. change (proc_at (norm s) me) with (proc_at s me). rewrite Hcwd.
      destruct (idup_names cwd x inum (norm s) Vn Hx Hin) as (s1 & R1 & V1 & K1 & E1). exists cwd, s1. split; [exact R1|].
      split; [|by transitivity (norm s)]. change (k_inodes (norm s)) with (k_inodes s) in E1.
      pose proof Hin as (Hr & Hdx & Hix). assert (Hin' : is_inode d inum (set_iref (i_ref x + 1) x)) by (unfold is_inode; simpl; lia).
      split; [done| |done|split; rewrite E1].
      + eexists. rewrite E1. split; [|exact Hin']. apply list_lookup_insert_eq. by eapply lookup_lt_Some.
      + apply (counts_add _ cwd x inum Hl Hx Hin).
      + apply (counts_add _ cwd x inum Hl Hx Hin). }
  destruct S as (ip & s1 & R1 & W1 & K1). unfold namex. krun R1.
  destruct (namex_loop_run R0 U0 HR0 Hu (S (length path)) ip inum path par name s1 W1 Hz Hb Hn ltac:(lia)) as (r & nm & s2 & R2 & K2 & V2 & Hr).
  exists r, nm, s2. split_and!; try done. by transitivity s1.
Qed.

(** C10: path lookup.  On a file system whose directories are well-formed,
    [namex] returns the inode that the elements of the path lead to from the
    root or from the process's directory, or, for [nameiparent], the directory
    that has the last element, which it leaves in the name buffer; it returns
    0 exactly when some element is missing or is looked up in something that
    is not a directory.  It ends without panic if two entries of the inode
    table are free; afterwards no inode is locked, the result has one more
    reference and every other count is as before, errors included. *)
Theorem namex_spec path par name inum s :
  d = ROOTDEV -> names_view None s -> starts path inum s -> T inum ->
  Forall (fun c => c <> 0) path -> bytes_ok path -> name_buf name -> used_entries (k_inodes s) + 2 <= Z.of_nat NINODE ->
  exists r name' s', namex path par name s = Ret (r, name') s' /\ names_view None s' /\ kept s s' /\
    match (if par then resolve_parent C sb d inum (elements path) else resolve C sb d inum (elements path)) with
    | None => r = None /\ forall i, refcount d (k_inodes s') i = refcount d (k_inodes s) i
    | Some j => exists ip x, r = Some ip /\ k_inodes s' !! ip = Some x /\ is_inode d j x /\
        (forall i, refcount d (k_inodes s') i = refcount d (k_inodes s) i + one i j) /\
        (par = true -> exists e, last (elements path) = Some e /\ until_nul name' = take (Z.to_nat DIRSIZ) e)
    end.
Proof.
  intros Ed V Hst HT Hz Hb Hn Hu.
  destruct (namex_run path par name inum s Ed V Hst HT Hz Hb Hn Hu) as (r & nm & s' & R & V' & K & Hr).
  exists r, nm, s'. split_and!; try done. unfold found in Hr. destruct (if par then _ else _) as [j|].
  - destruct Hr as (q & -> & [_ (x & Hx & Hin) _ [Hc _]] & Hlast). exists q, x. split_and!; try done.
    intros Hp. destruct (Hlast Hp) as (e & H1 & H2 & _). by exists e.
  - destruct Hr as (-> & Hc & _). done.
Qed.
End lookup.

(** ** A lookup on a small disk *)

Section demo.
#[local] Existing Instance Balloc.demo_devices.
#[local] Existing Instance demo_linker.

Abbreviation C0 := (dget dir_disk).

Lemma demo_dnode1 : dnode C0 demo_sb 1 1 = set_iref 0 demo_dir.
Proof. vm_compute. reflexivity. Qed.
Lemma demo_dnode2 : dnode C0 demo_sb 1 2 = set_iref 0 demo_note.
Proof. vm_compute. reflexivity. Qed.

Lemma demo_graph : graph_ok C0 demo_sb 1 (fun i => i = 1 \/ i = 2).
Proof.
  split.
  - intros i [->| ->]; [rewrite demo_dnode1|rewrite demo_dnode2]; discriminate.
  - intros i [->| ->]; [rewrite demo_dnode1|rewrite demo_dnode2]; discriminate.
  - intros i [->| ->]; unfold is_dir; [rewrite demo_dnode1|by rewrite demo_dnode2]. intros _.
    split; [apply dir_ok_ref, demo_dir_ok|apply inode_ok_ref, dir_inode_ok].
  - intros i e j Hi. unfold step, is_dir. destruct Hi as [->| ->]; [rewrite demo_dnode1|by rewrite demo_dnode2].
    simpl. unfold dir_map. destruct (list_find _ _) as [[k de]|] eqn:F; [|done]. simpl. intros [= <-].
    apply list_find_Some in F as (F1 & [F2 _] & _). right.
    assert (E : dirents C0 (set_iref 0 demo_dir) = [new_entry name_a 2; replicate 16 0]) by (vm_compute; reflexivity).
    rewrite E in F1. destruct k as [|[|k]]; [injection F1 as <-; reflexivity| |done]. injection F1 as <-. by destruct F2.
Qed.

Lemma free_ilocks n s : op_view 1 7 1 2 C0 [] [] s ->
  exists s', op_view 1 7 1 2 C0 [] [] s' /\ k_sb s' = k_sb s /\ k_pr s' = k_pr s /\ k_inodes s' = k_inodes s /\
    k_log s' = k_log s /\ forall i, (i < n)%nat -> sl_locked (slock_at s' (SLinode i)) = false.
Proof.
  intros V. induction n as [|n (s' & V' & E1 & E2 & E3 & E4 & H)]; [exists s; split_and!; try done; intros; lia|].
  exists (set_slocks (<[SLinode n := mksleep false 0]> (k_slocks s')) s'). split_and!; try done; [by apply op_view_ilock|].
  intros i Hi. unfold slock_at. simpl. destruct (decide (i = n)) as [->|Hne]; [by rewrite lookup_insert_eq|].
  rewrite lookup_insert_ne by congruence. apply H. lia.
Qed.

Lemma demo_names : exists s, names_view 1 7 1 2 demo_sb C0 [] None s /\ k_inodes s = dir_table /\ op_open s.
Proof.
  destruct demo_dir_view as (s0 & V & Hop & Hi). destruct V as [V1 _ V3 V4 _ _ _ _ _].
  destruct (free_ilocks NINODE s0 V1) as (s & V & E1 & E2 & E3 & E4 & Hs). rewrite <- E1 in V3. rewrite <- E2 in V4. rewrite <- E3 in Hi.
  exists s. split; [|split; [done|unfold op_open; by rewrite E4]]. split; [done|done|done| | |].
  - rewrite Hi. exact dir_table_ok.
  - rewrite Hi. intros [|i] x Hx.
    + injection Hx as <-. intros _ _ _. change (demo_dir = set_iref 1 (dnode C0 demo_sb 1 1)). by rewrite demo_dnode1.
    + change (replicate (NINODE - 1) inode0 !! i = Some x) in Hx. apply lookup_replicate in Hx as [-> _]. done.
  - intros i Hil. rewrite decide_False by done. by apply Hs.
Qed.

(** ["/a"] is inode 2. *)
Lemma namex_spec_witness : exists s r s' ip x,
  namex (Dk := mem_disk) (bytes_of "/a") false name0 s = Ret r s' /\ r.1 = Some ip /\ k_inodes s' !! ip = Some x /\ is_inode 1 2 x.
Proof.
  destruct demo_names as (s & V & Hi & _). exists s.
  destruct (namex_spec (HD := mem_disk_ok) 1 7 1 2 demo_sb demo_sb_ok C0 [] (fun i => i = 1 \/ i = 2) dir_bitmap_ok dir_whole demo_graph
    ltac:(vm_compute; lia) (bytes_of "/a") false name0 1 s) as (r & nm & s' & R & _ & _ & Hr).
  - reflexivity.
  - exact V.
  - reflexivity.
  - left. reflexivity.
  - repeat constructor; discriminate.
  - refine (bool_decide_unpack _ _). vm_compute. exact I.
  - split; [reflexivity|]. refine (bool_decide_unpack _ _). vm_compute. exact I.
  - rewrite Hi. vm_compute. discriminate.
  - assert (E : resolve C0 demo_sb 1 1 (elements (bytes_of "/a")) = Some 2) by (vm_compute; reflexivity).
    rewrite E in Hr. destruct Hr as (ip & x & Er & Hx & Hin & _). exists (r, nm), s', ip, x.
    split; [exact R|]. split; [exact Er|]. split; [exact Hx|exact Hin].
Defined.
End demo.
