(* ===== verification/Trunc.v ===== *)
(** * Truncation: [itrunc] of kernel/fs.c

    [itrunc] gives every block of a file back to the free map, the indirect
    block included, clears the addresses and the size and stores the inode.
    The invariant of its loops is [truncating]: the blocks of [F] are free
    again and nothing else about the disk has changed but the bit map. *)

From stdpp Require Import functions.
From S2P Require Import Prelude Param Mem CString Kernel Spinlock Kalloc Sched Sleeplock Bio BioRules Log Txn Vm PageTable UserCopy Uart Printf Fs Bitmap Console ConsoleLine Balloc Blockmap Path Inode Contents Writei FileOps Dir Namei.
Open Scope Z_scope.

(** The blocks among the addresses [l]. *)
Definition blocks_in (l : list Z) : list Z := filter (fun a => a <> 0) l.

(** The addresses of a file: direct, those of the indirect block, its own. *)
Definition direct_addrs (x : inode) : list Z := map (iaddr x) (seq 0 (Z.to_nat NDIRECT)).
Definition entry_addrs (v : block) : list Z := map (fun j => get32 (4 * Z.of_nat j) v) (seq 0 (Z.to_nat NINDIRECT)).
Definition file_addrs (C : Z -> block) (x : inode) : list Z :=
  direct_addrs x ++ (if decide (indirect x = 0) then [] else entry_addrs (C (indirect x)) ++ [indirect x]).

Lemma blocks_in_app l1 l2 : blocks_in (l1 ++ l2) = blocks_in l1 ++ blocks_in l2.
Proof. apply filter_app. Qed.

Lemma blocks_in_elem l a : a ∈ blocks_in l <-> a <> 0 /\ a ∈ l.
Proof. unfold blocks_in. by rewrite list_elem_of_filter. Qed.

(** A list without repetition in a range. *)
Lemma NoDup_range (A : list Z) lo hi : NoDup A -> Forall (fun b => lo <= b < hi) A -> Z.of_nat (length A) <= Z.max 0 (hi - lo).
Proof.
  intros Hn Ha. assert (Hs : A ⊆+ seqZ lo (hi - lo)).
  { apply NoDup_submseteq; [done|]. intros b Hb. rewrite Forall_forall in Ha. apply elem_of_seqZ.
    specialize (Ha b Hb). lia. }
  apply submseteq_length in Hs. rewrite length_seqZ in Hs. lia.
Qed.

Section addresses.
Context (sb : superblock) (C : Z -> block) (x : inode).
Hypothesis Hsb : sb_ok sb.
Hypothesis Hx : inode_ok sb C x.

Lemma in_file_direct i : (i < Z.to_nat NDIRECT)%nat -> in_file (Z.of_nat i) /\ fblock C x (Z.of_nat i) = iaddr x i.
Proof using.
  clear Hx Hsb. intros Hi. split; [unfold in_file, MAXFILE; change NINDIRECT with 256; unfold NDIRECT in *; lia|].
  unfold fblock. destruct (Z.ltb_spec (Z.of_nat i) NDIRECT); [by rewrite Nat2Z.id|unfold NDIRECT in *; lia].
Qed.

Lemma in_file_entry j : indirect x <> 0 -> (j < Z.to_nat NINDIRECT)%nat ->
  in_file (NDIRECT + Z.of_nat j) /\ fblock C x (NDIRECT + Z.of_nat j) = get32 (4 * Z.of_nat j) (C (indirect x)).
Proof using.
  clear Hx Hsb. change (Z.to_nat NINDIRECT) with 256%nat. intros Hi Hj.
  split; [unfold in_file, MAXFILE; change NINDIRECT with 256; unfold NDIRECT in *; lia|].
  unfold fblock. destruct (Z.ltb_spec (NDIRECT + Z.of_nat j) NDIRECT); [lia|].
  destruct (Z.eqb_spec (indirect x) 0); [done|]. by rewrite Z.add_simpl_l.
Qed.

Lemma NoDup_blocks (f : nat -> Z) n :
  (forall i j, (i < n)%nat -> (j < n)%nat -> f i <> 0 -> f i = f j -> i = j) -> NoDup (blocks_in (map f (seq 0 n))).
Proof using.
  clear Hx Hsb. intros Hinj. enough (G : forall l, NoDup l -> Forall (fun i => (i < n)%nat) l -> NoDup (blocks_in (map f l))).
  { apply G; [apply NoDup_seq|]. apply Forall_forall. intros i Hi. apply elem_of_seq in Hi. lia. }
  induction l as [|i l IH]; intros Hn Hl; [constructor|]. apply NoDup_cons in Hn as [Hi Hn]. apply Forall_cons in Hl as [H1 Hl].
  unfold blocks_in. cbn [map]. rewrite filter_cons. case_decide as E; [|by apply IH]. constructor; [|by apply IH].
  intros [_ Hin]%list_elem_of_filter. apply list_elem_of_fmap in Hin as (j & Ej & Hj). apply Hi.
  rewrite Forall_forall in Hl. rewrite (Hinj i j); auto.
Qed.

(** No address occurs twice. *)
Lemma file_addrs_nodup : NoDup (blocks_in (file_addrs C x)).
Proof using Hx.
  unfold file_addrs. rewrite blocks_in_app. apply NoDup_app. split; [|split].
  - apply NoDup_blocks. intros i j Hi Hj. destruct (in_file_direct i Hi) as [Fi <-], (in_file_direct j Hj) as [Fj <-].
    intros Hn E. apply (io_inj _ _ _ Hx) in E; [lia|done|done|done].
  - intros a (Ha & (i & -> & Hi%elem_of_seq)%list_elem_of_fmap)%blocks_in_elem.
    destruct (in_file_direct i ltac:(lia)) as [Fi Ei]. case_decide as Hz; [apply not_elem_of_nil|].
    intros (_ & Hin)%blocks_in_elem. apply elem_of_app in Hin as [(j & E & Hj%elem_of_seq)%list_elem_of_fmap|E].
    + destruct (in_file_entry j Hz ltac:(lia)) as [Fj Ej]. rewrite <- Ei, <- Ej in E. rewrite <- Ei in Ha.
      apply (io_inj _ _ _ Hx) in E; [unfold NDIRECT in *; lia|done|done|done].
    + apply list_elem_of_singleton in E. rewrite <- Ei in *. by apply (io_ne _ _ _ Hx (Z.of_nat i)).
  - case_decide as Hz; [constructor|]. rewrite blocks_in_app. apply NoDup_app. split; [|split].
    + apply NoDup_blocks. intros i j Hi Hj. destruct (in_file_entry i Hz Hi) as [Fi <-], (in_file_entry j Hz Hj) as [Fj <-].
      intros Hn E. apply (io_inj _ _ _ Hx) in E; [lia|done|done|done].
    + intros a (Ha & (i & -> & Hi%elem_of_seq)%list_elem_of_fmap)%blocks_in_elem (_ & E)%blocks_in_elem.
      apply list_elem_of_singleton in E. destruct (in_file_entry i Hz ltac:(lia)) as [Fi Ei]. rewrite <- Ei in *.
      by apply (io_ne _ _ _ Hx (NDIRECT + Z.of_nat i)).
    + unfold blocks_in. rewrite filter_cons. case_decide; [apply NoDup_singleton|constructor].
Qed.

(** They are the blocks that belong to the file. *)
Lemma file_addrs_belongs b : b <> 0 -> b ∈ file_addrs C x <-> belongs C x b.
Proof using.
  clear Hx Hsb. intros Hb. unfold file_addrs, belongs. rewrite elem_of_app. split.
  - intros [(i & -> & Hi%elem_of_seq)%list_elem_of_fmap|H].
    + right. exists (Z.of_nat i). apply in_file_direct. lia.
    + case_decide as Hz; [by apply not_elem_of_nil in H|]. apply elem_of_app in H as [(j & -> & Hj%elem_of_seq)%list_elem_of_fmap|H].
      * right. exists (NDIRECT + Z.of_nat j). apply in_file_entry; [done|lia].
      * left. by apply list_elem_of_singleton in H.
  - assert (HN : NINDIRECT = 256) by reflexivity. intros [->|(bn & [H1 H2] & E)].
    + right. rewrite decide_False by done. apply elem_of_app. right. by apply list_elem_of_singleton.
    + unfold MAXFILE in H2. unfold fblock in E. destruct (Z.ltb_spec bn NDIRECT).
      * left. apply list_elem_of_fmap. exists (Z.to_nat bn). split; [done|]. apply elem_of_seq. lia.
      * right. destruct (Z.eqb_spec (indirect x) 0); [congruence|]. rewrite decide_False by done. apply elem_of_app. left.
        apply list_elem_of_fmap. exists (Z.to_nat (bn - NDIRECT)). split; [rewrite <- E; f_equal; lia|]. apply elem_of_seq. lia.
Qed.

Lemma file_addrs_taken b : b ∈ blocks_in (file_addrs C x) -> taken sb C b.
Proof using Hx.
  intros [Hb Hin]%blocks_in_elem. apply file_addrs_belongs in Hin as [->|(bn & Hbn & <-)]; [|by apply Hx|done].
  by apply (io_indirect _ _ _ Hx).
Qed.
End addresses.

(** ** The loops *)

Section trunc.
Context `{HD : DiskOk, D : Devices, Lk : Linker}.
Context (me : nat) (pid d st : Z) (sb : superblock) (ip : nat).
Hypothesis Hsb : sb_ok sb.

Abbreviation op_view := (op_view me pid d st).
Abbreviation op_step := (op_step pid d).
Abbreviation map_block := (map_block sb).

(** How many blocks the bit map has. *)
Definition map_blocks : Z := dstart sb - sb_bmapstart sb.

Context (C0 : Z -> block) (L0 : list Z) (s0 : kst).
Hypothesis HL0 : Z.of_nat (length L0) + map_blocks + 2 < LOGSIZE.

Record truncating (F : list Z) (C : Z -> block) (L hs : list Z) (x : inode) (s : kst) : Prop := {
  tr_view : op_view C L hs s;
  tr_open : op_open s;
  tr_sb : k_sb s = sb;
  tr_inode : k_inodes s !! ip = Some x;
  tr_bitmap : bitmap_ok sb C;
  tr_used y : valid_block sb y -> used sb C y = used sb C0 y && negb (bool_decide (y ∈ F));
  tr_other b : ~ map_block b -> C b = C0 b;
  tr_len b : length (C b) = length (C0 b);
  tr_log : exists A, L = L0 ++ A /\ NoDup A /\ Forall map_block A;
  tr_does : fs_does pid d [] [] s0 s;
  tr_table : k_inodes s = <[ip := x]> (k_inodes s0)
}.

Lemma trunc_room F C L hs x s : truncating F C L hs x s -> Z.of_nat (length L) + 2 < LOGSIZE /\ (length L + 1 < NBUF)%nat.
Proof using Hsb HL0.
  intros T. destruct (tr_log _ _ _ _ _ _ T) as (A & -> & Hn & Ha). pose proof (NoDup_range A _ _ Hn Ha) as Hlen.
  pose proof (layout sb Hsb). unfold map_blocks in *. rewrite length_app. unfold LOGSIZE, MAXOPBLOCKS, NBUF in *. lia.
Qed.

Lemma trunc_taken F C L hs x s b : truncating F C L hs x s -> taken sb C0 b -> b ∉ F -> taken sb C b.
Proof using Hsb.
  intros T [Hd Hu] Hf. split; [done|]. rewrite (tr_used _ _ _ _ _ _ T) by (by apply data_valid).
  by rewrite Hu, bool_decide_false.
Qed.

(** One more block given back. *)
Lemma free_block_run F C L hs x s r :
  truncating F C L hs x s -> Forall (taken sb C) hs -> (length hs <= 1)%nat -> taken sb C0 r -> r ∉ F ->
  exists C' L' s', bfree d r s = Ret tt s' /\ truncating (F ++ [r]) C' L' hs x s' /\ op_step hs s s'.
Proof using HD Hsb HL0.
  intros T Hh Hl Hr Hf. pose proof (trunc_taken _ _ _ _ _ _ _ T Hr Hf) as Hr'. pose proof Hr' as [Hd Hu].
  pose proof (data_valid _ _ Hsb Hd) as Hv. destruct (trunc_room _ _ _ _ _ _ T) as [HL _].
  destruct (bfree_run me pid d st sb Hsb C L hs s (tr_view _ _ _ _ _ _ T) (tr_open _ _ _ _ _ _ T) (tr_sb _ _ _ _ _ _ T)
    Hh Hl HL r Hv Hu) as (s' & R & V' & S').
  exists (freed sb r C), (logged (BBLOCK r sb) L), s'. split_and!; [done| |done].
  destruct (op_does_keeps _ _ _ _ _ _ S') as (K1 & K2 & _). destruct T as [T1 T2 T3 T4 T5 T6 T7 T8 (A & -> & An & Am) T10 T11].
  assert (Hm : map_block (BBLOCK r sb)) by (apply BBLOCK_range; done).
  split; rewrite ?K1, ?K2; try done.
  - by apply (op_does_open _ _ _ _ _ _ S').
  - by apply freed_ok.
  - intros y Hy. rewrite used_freed, T6 by done. destruct (Z.eqb_spec y r) as [->|Hne].
    + rewrite bool_decide_true by set_solver. by rewrite andb_false_r.
    + f_equal. f_equal. apply bool_decide_ext. rewrite elem_of_app, list_elem_of_singleton. tauto.
  - intros b Hb. rewrite <- (T7 b Hb). unfold freed. rewrite fn_lookup_insert_ne; [done|]. by intros <-.
  - intros b. rewrite <- T8. unfold freed. destruct (decide (b = BBLOCK r sb)) as [->|]; [|by rewrite fn_lookup_insert_ne].
    rewrite fn_lookup_insert. unfold clear_bit. by rewrite length_insert.
  - unfold logged. case_decide as Hin; [by exists A|]. exists (A ++ [BBLOCK r sb]). rewrite app_assoc. split; [done|].
    split; [|apply Forall_app; split; [done|by apply Forall_singleton]]. apply NoDup_app. split; [done|]. split; [|apply NoDup_singleton].
    intros b Hb ->%list_elem_of_singleton. apply Hin, elem_of_app. by right.
  - apply (fs_does_trans pid d [] [] [] s0 s s'); [done|]. apply fs_does_op. by apply (op_does_sub _ _ [] hs); [set_solver|].
Qed.

(** An address cleared. *)
Lemma clear_run F C L x s (f : inode -> inode) :
  truncating F C L [] x s ->
  exists s', put_inode ip f s = Ret tt s' /\ truncating F C L [] (f x) s'.
Proof using.
  intros [T1 T2 T3 T4 T5 T6 T7 T8 T9 T10 T11]. eexists. split; [unfold put_inode, modify; by rewrite (inode_at_lookup s ip x)|].
  split; simpl; try done; [by apply op_view_inodes| | |].
  - apply list_lookup_insert_eq. by eapply lookup_lt_Some.
  - apply (fs_does_trans pid d [] [] [] s0 s); [done|]. apply fs_does_set.
  - by rewrite T11, list_insert_insert_eq.
Qed.

(** The loop over the direct addresses, from any of them on. *)
Definition zeroed (l : list Z) (js : list nat) : list Z := foldl (fun l i => <[i := 0]> l) l js.

Definition free_direct (i : nat) : K unit :=
  let! x := gets (fun s => inode_at s ip) in
  if! negb (iaddr x i =? 0) then
    (do! bfree (i_dev x) (iaddr x i);
     put_inode ip (set_iaddr i 0)).

(** One turn: the block is free and its address gone. *)
Lemma free_direct_run F C L x s i :
  truncating F C L [] x s -> i_dev x = d -> (i < length (i_addrs x))%nat ->
  (iaddr x i <> 0 -> taken sb C0 (iaddr x i) /\ iaddr x i ∉ F) ->
  exists C' L' s', free_direct i s = Ret tt s' /\ truncating (F ++ blocks_in [iaddr x i]) C' L' [] (set_iaddr i 0 x) s'.
Proof using HD Hsb HL0.
  intros T Hd Hi Ht. unfold free_direct, blocks_in. rewrite kbind_gets, (inode_at_lookup s ip x) by apply T.
  rewrite filter_cons. case_decide as E.
  - rewrite (proj2 (Z.eqb_neq _ _) E). cbn [negb]. destruct (Ht E) as [H1 H2].
    destruct (free_block_run F C L [] x s (iaddr x i) T) as (C1 & L1 & s1 & R1 & T1 & _); [constructor|simpl; lia|done|done|].
    destruct (clear_run _ _ _ _ _ (set_iaddr i 0) T1) as (s2 & R2 & T2).
    exists C1, L1, s2. split; [|exact T2]. rewrite Hd. krun R1. exact R2.
  - rewrite E. exists C, L, s. split; [done|]. rewrite app_nil_r.
    assert (set_iaddr i 0 x = x) as ->; [|done]. unfold set_iaddr. rewrite list_insert_id; [by destruct x|].
    unfold iaddr in E. destruct (i_addrs x !! i) eqn:El; [simpl in E; by subst|]. apply lookup_ge_None in El. lia.
Qed.

Lemma direct_loop js : forall F C L x s,
  truncating F C L [] x s -> i_dev x = d -> NoDup js -> NoDup (F ++ blocks_in (map (iaddr x) js)) ->
  (forall b, b ∈ blocks_in (map (iaddr x) js) -> taken sb C0 b) ->
  Forall (fun i => (i < length (i_addrs x))%nat) js ->
  exists C' L' s', kfor js free_direct s = Ret tt s' /\
    truncating (F ++ blocks_in (map (iaddr x) js)) C' L' [] (set_iaddrs (zeroed (i_addrs x) js) x) s'.
Proof using HD Hsb HL0.
  induction js as [|i js IH]; intros F C L x s T Hd Hn HF Ht Hi.
  { exists C, L, s. split; [done|]. simpl. rewrite app_nil_r. by destruct x. }
  apply NoDup_cons in Hn as [Hni Hn]. apply Forall_cons in Hi as [Hi His]. cbn [kfor map] in *.
  change (?a :: ?l) with ([a] ++ l) in HF, Ht. rewrite blocks_in_app in HF, Ht.
  destruct (free_direct_run F C L x s i T Hd Hi) as (C1 & L1 & s1 & R1 & T1).
  { intros E. assert (Hin : iaddr x i ∈ blocks_in [iaddr x i]) by (apply blocks_in_elem; split; [done|left]).
    split; [apply Ht, elem_of_app; by left|]. apply NoDup_app in HF as (_ & HF & _). intros HF'. apply (HF _ HF'), elem_of_app.
    by left. }
  assert (Em : map (iaddr (set_iaddr i 0 x)) js = map (iaddr x) js).
  { apply map_ext_in. intros j Hj. rewrite iaddr_set by done. rewrite decide_False; [done|].
    intros ->. apply Hni. by apply list_elem_of_In. }
  destruct (IH _ _ _ _ _ T1) as (C3 & L3 & s3 & R3 & T3); rewrite ?Em; try done.
  { by rewrite <- app_assoc. }
  { intros b Hb. apply Ht, elem_of_app. by right. }
  { simpl. by rewrite length_insert. }
  exists C3, L3, s3. split; [krun R1; exact R3|]. rewrite Em, <- app_assoc, <- blocks_in_app in T3. exact T3.
Qed.

(** The loop over the indirect block, which is held. *)
Definition free_entry (dev : Z) (bp : nat) (j : nat) : K unit :=
  let! a := buf_data bp in
  if! negb (get32 (4 * Z.of_nat j) a =? 0) then bfree dev (get32 (4 * Z.of_nat j) a).

Lemma entry_loop bp b js : forall F C L x s,
  let f := fun j => get32 (4 * Z.of_nat j) (C0 b) in
  truncating F C L [b] x s -> own pid d s bp b -> ~ map_block b -> taken sb C0 b ->
  NoDup (F ++ blocks_in (map f js) ++ [b]) -> (forall a, a ∈ blocks_in (map f js) -> taken sb C0 a) ->
  exists C' L' s', kfor js (free_entry d bp) s = Ret tt s' /\
    truncating (F ++ blocks_in (map f js)) C' L' [b] x s' /\ own pid d s' bp b.
Proof using HD Hsb HL0.
  induction js as [|j js IH]; intros F C L x s f T O Hm Hb HF Ht.
  { exists C, L, s. split; [done|]. split; [|done]. simpl. by rewrite app_nil_r. }
  cbn [kfor map] in *. change (f j :: ?l) with ([f j] ++ l) in HF, Ht |- *. rewrite blocks_in_app in HF, Ht |- *.
  assert (Hd : b_data (buf_at s bp) = C0 b).
  { rewrite <- (tr_other _ _ _ _ _ _ T b Hm). apply (own_held _ _ _ _ _ _ _ _ _ _ (ov_view _ _ _ _ _ _ _ _ (tr_view _ _ _ _ _ _ T)) O). }
  assert (S1 : exists C1 L1 s1, free_entry d bp j s = Ret tt s1 /\ truncating (F ++ blocks_in [f j]) C1 L1 [b] x s1 /\ own pid d s1 bp b).
  { unfold free_entry, buf_data. rewrite kbind_gets, Hd. fold (f j). unfold blocks_in in *. rewrite filter_cons in HF, Ht |- *. case_decide as E.
    - rewrite (proj2 (Z.eqb_neq _ _) E). cbn [negb].
      assert (HbF : b ∉ F) by (apply NoDup_app in HF as (_ & HF & _); intros Hin; apply (HF _ Hin); set_solver).
      destruct (free_block_run F C L [b] x s (f j) T) as (C1 & L1 & s1 & R1 & T1 & S1); [|simpl; lia| | |].
      + apply Forall_singleton. by eapply trunc_taken.
      + apply Ht. set_solver.
      + apply NoDup_app in HF as (_ & HF & _). intros Hin. apply (HF _ Hin). set_solver.
      + exists C1, L1, s1. split_and!; [done|done|]. apply (os_own _ _ _ _ _ _ S1); [set_solver|done].
    - rewrite E. exists C, L, s. rewrite app_nil_r. done. }
  destruct S1 as (C1 & L1 & s1 & R1 & T1 & O1).
  destruct (IH _ _ _ _ _ T1 O1 Hm Hb) as (C3 & L3 & s3 & R3 & T3 & O3).
  { rewrite <- app_assoc. by rewrite <- app_assoc in HF. }
  { intros a Ha. apply Ht, elem_of_app. by right. }
  exists C3, L3, s3. split; [krun R1; exact R3|]. by rewrite <- app_assoc in T3.
Qed.

(** A buffer taken or given back. *)
Lemma trunc_op F C L hs hs' x s s' :
  truncating F C L hs x s -> op_view C L hs' s' -> op_step [] s s' -> truncating F C L hs' x s'.
Proof using.
  intros [T1 T2 T3 T4 T5 T6 T7 T8 T9 T10 T11] V S. destruct (op_does_keeps _ _ _ _ _ _ S) as (K1 & K2 & _).
  split; rewrite ?K1, ?K2; try done; [by apply (op_does_open _ _ _ _ _ _ S)|].
  apply (fs_does_trans pid d [] [] [] s0 s s'); [done|]. by apply fs_does_op.
Qed.

(** A block outside the bit map that is not held has reached the disk or was
    logged before the call. *)
Lemma trunc_clean F C L x s F' C' L' hs' x' s' b :
  truncating F C L [] x s -> truncating F' C' L' hs' x' s' -> ~ map_block b ->
  b ∈ L' \/ C' b = dget (k_disk s') b.
Proof using.
  intros T T' Hm. rewrite (tr_other _ _ _ _ _ _ T' b Hm), <- (tr_other _ _ _ _ _ _ T b Hm).
  destruct (tr_log _ _ _ _ _ _ T) as (A & -> & _ & Ha), (tr_log _ _ _ _ _ _ T') as (A' & -> & _).
  destruct (fs_does_keeps _ _ _ _ _ _ (tr_does _ _ _ _ _ _ T)) as (_ & _ & _ & E & _).
  destruct (fs_does_keeps _ _ _ _ _ _ (tr_does _ _ _ _ _ _ T')) as (_ & _ & _ & E' & _). rewrite E', <- E.
  destruct (op_view_clean _ _ _ _ _ _ _ _ b (tr_view _ _ _ _ _ _ T)) as [H|H]; [apply not_elem_of_nil| |by right]. left.
  apply elem_of_app in H as [H|H]; [apply elem_of_app; by left|]. rewrite Forall_forall in Ha. by destruct (Hm (Ha b H)).
Qed.

(** The indirect block: its entries, then the block itself. *)
Definition free_indirect (dev a : Z) : K unit :=
  if! negb (a =? 0) then
    (let! bp := bread dev a in
     do! kfor (seq 0 (Z.to_nat NINDIRECT)) (free_entry dev bp);
     do! brelse bp;
     do! bfree dev a;
     put_inode ip (set_iaddr (Z.to_nat NDIRECT) 0)).

Lemma free_indirect_run F C L x s :
  let rest := if decide (indirect x = 0) then [] else entry_addrs (C0 (indirect x)) ++ [indirect x] in
  truncating F C L [] x s -> length (i_addrs x) = naddrs -> NoDup (F ++ blocks_in rest) ->
  (forall b, b ∈ blocks_in rest -> taken sb C0 b) ->
  exists C' L' s', free_indirect d (indirect x) s = Ret tt s' /\
    truncating (F ++ blocks_in rest) C' L' [] (set_iaddr (Z.to_nat NDIRECT) 0 x) s'.
Proof using HD Hsb HL0.
  intros rest T Hlen HF Ht. unfold free_indirect. unfold rest in *. case_decide as Hz.
  { rewrite Hz. exists C, L, s. split; [done|]. unfold blocks_in. rewrite filter_nil, app_nil_r.
    assert (set_iaddr (Z.to_nat NDIRECT) 0 x = x) as ->; [|done]. unfold set_iaddr. rewrite list_insert_id; [by destruct x|].
    unfold indirect, iaddr in Hz. destruct (i_addrs x !! Z.to_nat NDIRECT) eqn:El; [simpl in Hz; by subst|].
    apply lookup_ge_None in El. rewrite Hlen in El. unfold naddrs, NDIRECT in El. lia. }
  rewrite (proj2 (Z.eqb_neq _ _) Hz). cbn [negb]. set (b := indirect x) in *.
  assert (Eb : blocks_in [b] = [b]) by (unfold blocks_in; rewrite filter_cons, decide_True; done).
  rewrite blocks_in_app, Eb in HF, Ht |- *. assert (Tb : taken sb C0 b) by (apply Ht; set_solver).
  assert (Hm : ~ map_block b) by (destruct Tb as [[? _] _]; intros [_ ?]; lia).
  destruct (trunc_room _ _ _ _ _ _ T) as [_ Hroom].
  destruct (op_bread me pid d st C L [] s b (tr_view _ _ _ _ _ _ T)) as (bp & s1 & R1 & O1 & _ & V1 & S1); [set_solver|simpl; lia|].
  pose proof (trunc_op _ _ _ _ _ _ _ _ T V1 S1) as T1.
  destruct (entry_loop bp b (seq 0 (Z.to_nat NINDIRECT)) F C L x s1 T1 O1 Hm Tb) as (C2 & L2 & s2 & R2 & T2 & O2); [done| |].
  { intros a Ha. apply Ht, elem_of_app. by left. }
  destruct (op_brelse _ _ _ _ _ _ _ _ _ _ (tr_view _ _ _ _ _ _ T2) O2 (trunc_clean _ _ _ _ _ _ _ _ _ _ _ _ T T2 Hm))
    as (s3 & R3 & V3 & S3).
  pose proof (trunc_op _ _ _ _ _ _ _ _ T2 V3 S3) as T3. rewrite app_assoc in HF.
  destruct (free_block_run _ _ _ _ _ _ b T3) as (C4 & L4 & s4 & R4 & T4 & _); [constructor|simpl; lia|done| |].
  { apply NoDup_app in HF as (_ & HF & _). intros Hin. apply (HF _ Hin). left. }
  destruct (clear_run _ _ _ _ _ (set_iaddr (Z.to_nat NDIRECT) 0) T4) as (s5 & R5 & T5).
  exists C4, L4, s5. split; [krun R1; krun R2; krun R3; krun R4; exact R5|]. by rewrite app_assoc.
Qed.

End trunc.

(** All thirteen addresses. *)
Lemma zeroed_all l : length l = naddrs -> <[Z.to_nat NDIRECT := 0]> (zeroed l (seq 0 (Z.to_nat NDIRECT))) = replicate naddrs 0.
Proof.
  change naddrs with 13%nat. intros H. do 13 (destruct l as [|? l]; [done|]). destruct l; [reflexivity|done].
Qed.

(** ** The call *)

Section call.
Context `{HD : DiskOk, D : Devices, Lk : Linker}.
Context (me : nat) (pid d st : Z) (sb : superblock) (ip : nat).
Hypothesis Hsb : sb_ok sb.

Abbreviation file_view := (file_view me pid d st sb ip).

(** An inode without contents. *)
Definition emptied (x : inode) : inode := set_isize 0 (set_iaddrs (replicate naddrs 0) x).

Lemma emptied_addr C x bn : in_file bn -> indirect (emptied x) = 0 /\ fblock C (emptied x) bn = 0.
Proof using.
  intros [H1 H2]. split; [reflexivity|]. unfold fblock. change (indirect (emptied x) =? 0) with true. cbv iota.
  destruct (Z.ltb_spec bn NDIRECT); [|done]. unfold iaddr. change (i_addrs (emptied x)) with (replicate naddrs 0).
  rewrite lookup_replicate_2; [done|]. unfold naddrs, NDIRECT in *. lia.
Qed.

Lemma emptied_ok C x : inode_ok sb C (emptied x).
Proof using.
  split.
  - apply length_replicate.
  - intros H. by destruct H.
  - intros bn Hbn H. by destruct H; apply emptied_addr.
  - intros bn bn' Hbn _ H. by destruct H; apply emptied_addr.
  - intros bn Hbn H. by destruct H; apply emptied_addr.
Qed.

Lemma itrunc_view C L x s :
  file_view C L [] x s -> op_open s -> Z.of_nat (length L) + map_blocks sb + 2 < LOGSIZE ->
  exists C1 L1 s1, truncating me pid d st sb ip C L s (blocks_in (file_addrs C x)) C1 L1 [] (emptied x) s1 /\
    itrunc ip s = iupdate ip s1.
Proof using HD Hsb.
  intros V Hop HL. pose proof V as [F0 F1 F2 F3 F4 F5 F6 F7 F8].
  pose proof (file_addrs_nodup sb C x F8) as Hnd. pose proof (file_addrs_taken sb C x F8) as Ht.
  unfold file_addrs in Hnd, Ht |- *. rewrite blocks_in_app in Hnd, Ht |- *. pose proof (io_addrs _ _ _ F8) as Hlen.
  assert (T0 : truncating me pid d st sb ip C L s [] C L [] x s).
  { split; try done.
    - intros y Hy. rewrite bool_decide_false by apply not_elem_of_nil. by rewrite andb_true_r.
    - exists []. rewrite app_nil_r. split_and!; [done|constructor|constructor].
    - apply fs_does_op. reflexivity.
    - by rewrite list_insert_id. }
  destruct (direct_loop me pid d st sb ip Hsb C L s HL (seq 0 (Z.to_nat NDIRECT)) [] C L x s T0 F5) as (C1 & L1 & s1 & R1 & T1).
  { apply NoDup_seq. }
  { apply NoDup_app in Hnd. tauto. }
  { intros b Hb. apply Ht, elem_of_app. by left. }
  { apply Forall_forall. intros i Hi%elem_of_seq. rewrite Hlen. unfold naddrs, NDIRECT in *. lia. }
  set (x1 := set_iaddrs _ x) in T1. change (map (iaddr x) (seq 0 (Z.to_nat NDIRECT))) with (direct_addrs x) in T1.
  assert (Ei : indirect x1 = indirect x).
  { unfold indirect, iaddr, x1. cbn [set_iaddrs i_addrs]. clear -Hlen. revert Hlen. change naddrs with 13%nat. generalize (i_addrs x). intros l Hl.
    do 13 (destruct l as [|? l]; [done|]). done. }
  assert (Hl1 : length (i_addrs x1) = naddrs).
  { unfold x1. cbn [set_iaddrs i_addrs]. revert Hlen. change naddrs with 13%nat. generalize (i_addrs x). intros l Hl.
    do 13 (destruct l as [|? l]; [done|]). destruct l; done. }
  rewrite <- Ei in Hnd, Ht |- *.
  destruct (free_indirect_run me pid d st sb ip Hsb C L s HL _ _ _ _ _ T1 Hl1) as (C2 & L2 & s2 & R2 & T2); [done| |].
  { intros b Hb. apply Ht, elem_of_app. by right. }
  destruct (clear_run _ _ _ _ _ _ _ _ _ _ _ _ _ _ (set_isize 0) T2) as (s3 & R3 & T3).
  exists C2, L2, s3. split.
  - assert (set_isize 0 (set_iaddr (Z.to_nat NDIRECT) 0 x1) = emptied x) as <-; [|exact T3].
    unfold set_iaddr, x1, emptied. cbn [set_iaddrs i_addrs]. by rewrite zeroed_all.
  - unfold itrunc. fold (free_direct ip). krun R1. rewrite kbind_gets, (inode_at_lookup s1 ip x1) by apply T1.
    change (i_dev x1) with (i_dev x). rewrite F5. fold (free_indirect ip d (indirect x1)). krun R2. krun R3. done.
Qed.

(** What a call that emptied the file did: [y] is the inode it stored. *)
Record emptied_file (C : Z -> block) (L : list Z) (x y : inode) (C' : Z -> block) (L' : list Z) : Prop := {
  ef_free b : data_block sb b -> used sb C' b = true <-> used sb C b = true /\ ~ belongs C x b;
  ef_other b : ~ map_block sb b -> b <> IBLOCK (i_inum x) sb -> C' b = C b;
  ef_inode : C' (IBLOCK (i_inum x) sb) = put_dinode (dip (i_inum x)) y (C (IBLOCK (i_inum x) sb));
  ef_log b : b ∈ L' -> b ∈ L \/ b = IBLOCK (i_inum x) sb \/ map_block sb b;
  ef_logged b : b ∈ L \/ b = IBLOCK (i_inum x) sb -> b ∈ L';
  ef_len : Z.of_nat (length L') <= Z.of_nat (length L) + map_blocks sb + 1
}.

(** The state before the inode is stored is that of a file without blocks. *)
Lemma truncated_view C L x s C1 L1 s1 :
  file_view C L [] x s ->
  truncating me pid d st sb ip C L s (blocks_in (file_addrs C x)) C1 L1 [] (emptied x) s1 ->
  file_view C1 L1 [] (emptied x) s1.
Proof using.
  intros [F0 F1 F2 F3 F4 F5 F6 F7 F8] [T1 T2 T3 T4 T5 T6 T7 T8 T9 T10 T11].
  destruct (fs_does_keeps _ _ _ _ _ _ T10) as (_ & K & _). split; try done.
  - split; [constructor|simpl; lia].
  - by rewrite K.
  - intros b. by rewrite T8.
  - apply emptied_ok.
Qed.

(** [itrunc] gives back exactly the blocks of the file: it does not panic,
    every data block that belonged to the file, the indirect block included,
    becomes free and every other keeps its state and its contents; the inode has
    no addresses and size 0, in the table and on disk.  It logs at most the
    blocks of the bit map and one more, however long the file is. *)
Lemma itrunc_run C L x s :
  file_view C L [] x s -> op_open s -> 0 <= i_inum x < sb_ninodes sb ->
  Z.of_nat (length L) + map_blocks sb + 2 < LOGSIZE ->
  exists C' L' s', itrunc ip s = Ret tt s' /\ file_view C' L' [] (emptied x) s' /\
    emptied_file C L x (emptied x) C' L' /\
    fs_does pid d [] [] s s' /\ k_inodes s' = <[ip := emptied x]> (k_inodes s).
Proof using HD Hsb.
  intros V Hop Hi HL. destruct (itrunc_view C L x s V Hop HL) as (C1 & L1 & s1 & T & ->).
  pose proof (truncated_view _ _ _ _ _ _ _ V T) as V1. pose proof T as [T1 T2 T3 T4 T5 T6 T7 T8 (A & -> & An & Am) T10 T11].
  pose proof (NoDup_range A _ _ An Am) as Hlen. pose proof (layout sb Hsb) as Hl. unfold map_blocks in *.
  destruct (iupdate_run me pid d st sb ip Hsb C1 (L ++ A) (emptied x) s1 V1 T2 Hi) as (s2 & R2 & V2 & S2);
    [rewrite length_app; lia|].
  pose proof (IBLOCK_range sb Hsb _ Hi) as [_ Hr]. change (i_inum (emptied x)) with (i_inum x) in V2.
  assert (Hm : ~ map_block sb (IBLOCK (i_inum x) sb)) by (intros [? _]; lia).
  eexists _, _, s2. split; [exact R2|]. split; [exact V2|]. destruct (op_does_keeps _ _ _ _ _ _ S2) as (_ & K2 & _).
  split; [|split; [apply (fs_does_trans pid d [] [] [] s s1 s2); [done|by apply fs_does_op]|by rewrite K2]].
  unfold saved. change (i_inum (emptied x)) with (i_inum x). split.
  - intros b Hb. rewrite meta_used by (done || lia || by apply data_valid). rewrite T6 by (by apply data_valid).
    rewrite andb_true_iff, negb_true_iff, bool_decide_eq_false, blocks_in_elem.
    assert (b <> 0) by (destruct Hb; lia). rewrite file_addrs_belongs by done. tauto.
  - intros b Hb Hne. rewrite fn_lookup_insert_ne by done. by apply T7.
  - rewrite fn_lookup_insert. by rewrite T7.
  - intros b. rewrite logged_elem, elem_of_app. rewrite Forall_forall in Am. specialize (Am b). tauto.
  - intros b. rewrite logged_elem, elem_of_app. tauto.
  - pose proof (logged_length (IBLOCK (i_inum x) sb) (L ++ A)) as Hg. rewrite length_app in Hg.
    unfold map_blocks. lia.
Qed.
End call.

(** ** Storing an inode twice *)

Lemma splice_next off a b l :
  (off + length a + length b <= length l)%nat -> splice (off + length a) b (splice off a l) = splice off (a ++ b) l.
Proof.
  intros H. unfold splice. assert (Ht : length (take off l) = off) by (rewrite length_take; lia).
  rewrite (app_assoc (take off l)), take_app_length' by (rewrite length_app; lia).
  rewrite drop_app_ge by (rewrite length_app; lia). rewrite drop_drop, length_app, length_app, Ht, <- !app_assoc.
  do 4 f_equal. lia.
Qed.

Lemma splice_over off a b l :
  length a = length b -> (off + length a <= length l)%nat -> splice off a (splice off b l) = splice off a l.
Proof.
  intros E H. unfold splice. assert (Ht : length (take off l) = off) by (rewrite length_take; lia).
  rewrite take_app_length' by done. do 2 f_equal. rewrite E, app_assoc, drop_app_length' by (rewrite length_app; lia). done.
Qed.

Definition dinode_bytes (x : inode) : list Z :=
  ((((le_bytes 2 (i_type x) ++ le_bytes 2 (i_major x)) ++ le_bytes 2 (i_minor x)) ++ le_bytes 2 (i_nlink x)) ++
   le_bytes 4 (i_size x)) ++ concat (map (le_bytes 4) (i_addrs x)).

Lemma put_dinode_bytes o x l :
  slot o l -> length (i_addrs x) = naddrs -> put_dinode o x l = splice (Z.to_nat o) (dinode_bytes x) l.
Proof.
  unfold slot. change sizeof_dinode with 64. change naddrs with 13%nat. intros [H1 H2] Hl.
  unfold put_dinode, put16, put32, di_addrs, di_size, di_nlink, di_minor, di_major, di_type, dinode_bytes.
  rewrite Z.add_0_r.
  rewrite <- splice_next by (rewrite !length_app, !length_le_bytes, length_words, Hl; lia).
  do 4 rewrite <- splice_next by (rewrite ?length_app, !length_le_bytes; lia).
  rewrite !length_app, !length_le_bytes. rewrite !Z2Nat.inj_add by lia. change (Z.to_nat 0) with 0%nat. by rewrite Nat.add_0_r.
Qed.

Lemma put_dinode_over o x y l :
  slot o l -> length (i_addrs x) = naddrs -> length (i_addrs y) = naddrs ->
  put_dinode o y (put_dinode o x l) = put_dinode o y l.
Proof.
  intros Hs Hx Hy. assert (Hs' : slot o (put_dinode o x l)) by (unfold slot; by rewrite length_put_dinode).
  rewrite (put_dinode_bytes o y _ Hs' Hy), (put_dinode_bytes o y l Hs Hy), (put_dinode_bytes o x l Hs Hx).
  destruct Hs as [H1 H2]. revert H2. change sizeof_dinode with 64. intros H2.
  apply splice_over; unfold dinode_bytes; rewrite !length_app, !length_le_bytes, !length_words, ?Hx, Hy; [done|].
  change naddrs with 13%nat. lia.
Qed.

(** ** The last reference to an unlinked file *)

Lemma acquiresleep_nested sl s me :
  nested s -> is_free (LKsleep sl) s -> c_proc (mycpu s) = Some me -> sl_locked (slock_at s sl) = false ->
  acquiresleep sl s = Ret tt (set_slocks (<[sl := mksleep true (p_pid (proc_at s me))]> (k_slocks s)) s).
Proof.
  intros [Hc Hn] Hf Hp Hu. unfold acquiresleep. krun (acquire_run _ s Hc Hf).
  unfold wakeups. cbn [sleep_while]. unfold kbind at 1. rewrite kbind_gets.
  change (slock_at (acquired _ s) sl) with (slock_at s sl). rewrite Hu. simpl.
  rewrite kbind_gets. unfold put_slock. rewrite kbind_modify.
  erewrite obind_Ret by (eapply curproc_acquired; [exact Hc|exact Hp|done|done]).
  rewrite kbind_gets, kbind_modify, (release_after _ s) by done. simpl. rewrite insert_insert_eq.
  change (proc_at _ me) with (proc_at s me). f_equal.
  change (set_slocks (<[sl:=mksleep true (p_pid (proc_at s me))]> (k_slocks s)) (norm s) = set_slocks (<[sl:=mksleep true (p_pid (proc_at s me))]> (k_slocks s)) s).
  by rewrite norm_nested.
Qed.

(** Taken under the lock of the table, which is then released. *)
Lemma lock_under_itable me pid ip s :
  ctx me pid s -> (ip < NINODE)%nat -> sl_locked (slock_at s (SLinode ip)) = false ->
  let s1 := set_slocks (<[SLinode ip := mksleep true pid]> (k_slocks s)) (acquired LKitable s) in
  acquiresleep (SLinode ip) (acquired LKitable s) = Ret tt s1 /\
  release LKitable s1 = Ret tt (set_slocks (<[SLinode ip := mksleep true pid]> (k_slocks s)) (norm s)).
Proof.
  intros X Hip Hu s1. pose proof (cx_cpu _ _ _ X) as Hc. assert (Hk : kernel_lock (LKsleep (SLinode ip)) = true) by (by apply Nat.ltb_lt).
  split.
  - rewrite (acquiresleep_nested _ _ me).
    + change (proc_at (acquired LKitable s) me) with (proc_at s me). by rewrite (cx_pid _ _ _ X).
    + by apply nested_acquired.
    + unfold is_free, acquired. simpl. rewrite lookup_insert_ne by done. by apply (cx_locks _ _ _ X).
    + unfold acquired, pushed. simpl. change (mycpu (set_locks ?l ?t)) with (mycpu t).
      rewrite mycpu_put_cpu by apply Hc. apply X.
    + exact Hu.
  - rewrite (release_after LKitable s); [done|done|by apply (cx_locks _ _ _ X)|done|done|done].
Qed.

Section drop.
Context `{HD : DiskOk, D : Devices, Lk : Linker}.
Context (me : nat) (pid d st : Z) (sb : superblock) (ip : nat).
Hypothesis Hsb : sb_ok sb.

Abbreviation file_view := (file_view me pid d st sb ip).
Abbreviation op_view := (op_view me pid d st).

Lemma file_ctx C L x s : file_view C L [] x s -> ctx me pid s.
Proof using. intros V. apply (vw_ctx _ _ _ _ _ _ _ _ (ov_view _ _ _ _ _ _ _ _ (fv_view _ _ _ _ _ _ _ _ _ _ _ V))). Qed.

(** A change of the sleep lock, or of what [woke] allows. *)
Lemma file_view_lock C L x s v : file_view C L [] x s -> file_view C L [] x (set_slocks (<[SLinode ip := v]> (k_slocks s)) s).
Proof using. intros []. split; try done. by apply op_view_ilock. Qed.

Lemma file_view_woke C L x s s' : file_view C L [] x s -> woke s s' ->
  file_view C L [] x s' /\ k_inodes s' = k_inodes s /\ k_slocks s' = k_slocks s /\ (op_open s -> op_open s').
Proof using.
  intros [F0 F1 F2 F3 F4 F5 F6 F7 F8] W. destruct (op_woke _ _ _ _ _ _ _ _ _ F0 W) as [V S].
  destruct (op_does_keeps _ _ _ _ _ _ S) as (K1 & K2 & K3 & _). destruct (woke_eqs _ _ W) as (E1 & _).
  split_and!; [|done|done|by apply (op_does_open _ _ _ _ _ _ S)]. split; rewrite ?K1, ?K2, ?K3; done.
Qed.

(** A field of the inode stored, the addresses kept. *)
Lemma file_view_put C L x s (f : inode -> inode) :
  file_view C L [] x s -> i_dev (f x) = i_dev x -> i_addrs (f x) = i_addrs x ->
  exists s', put_inode ip f s = Ret tt s' /\ file_view C L [] (f x) s' /\ s' = set_inodes (<[ip := f x]> (k_inodes s)) s.
Proof using.
  intros V Ed Ea. eexists. split; [unfold put_inode, modify; by rewrite (inode_at_view _ _ _ _ _ _ _ _ _ _ _ V)|].
  split; [|done]. destruct V as [F0 F1 F2 F3 F4 F5 F6 F7 [O1 O2 O3 O4 O5]]. split; try done; [by apply op_view_inodes| |congruence|].
  - apply list_lookup_insert_eq. by eapply lookup_lt_Some.
  - assert (Ei : indirect (f x) = indirect x) by (unfold indirect, iaddr; by rewrite Ea).
    assert (Ef : forall bn, fblock C (f x) bn = fblock C x bn) by (intros bn; unfold fblock, iaddr; rewrite Ei; by rewrite Ea).
    split; rewrite ?Ei; try done; [congruence| | |]; intros bn; rewrite Ef; auto.
    intros bn'. rewrite Ef. apply O4.
Qed.

(** A free inode as it is stored. *)
Definition gone (x : inode) : inode := set_itype 0 (emptied x).

(** From the moment the inode is locked: truncated, its type 0, stored. *)
Lemma erase_run C L x s :
  file_view C L [] x s -> op_open s -> 0 <= i_inum x < sb_ninodes sb ->
  Z.of_nat (length L) + map_blocks sb + 2 < LOGSIZE ->
  exists C' L' s', (do! itrunc ip; do! put_inode ip (set_itype 0); iupdate ip) s = Ret tt s' /\
    file_view C' L' [] (gone x) s' /\ emptied_file sb C L x (gone x) C' L' /\ op_open s' /\
    fs_does pid d [] [] s s' /\ k_inodes s' = <[ip := gone x]> (k_inodes s).
Proof using HD Hsb.
  intros V Hop Hi HL. pose proof (IBLOCK_range sb Hsb _ Hi) as [_ Hr].
  destruct (itrunc_run me pid d st sb ip Hsb C L x s V Hop Hi HL) as (C1 & L1 & s1 & R1 & V1 & [E1 E2 E3 E4 E5 E6] & D1 & K1).
  destruct (file_view_put _ _ _ _ (set_itype 0) V1 eq_refl eq_refl) as (s2 & R2 & V2 & ->).
  assert (Hop2 : op_open (set_inodes (<[ip := gone x]> (k_inodes s1)) s1)) by exact (fs_does_open _ _ _ _ _ _ D1 Hop).
  pose proof (E5 _ (or_intror eq_refl)) as Hin.
  assert (Elog : logged (IBLOCK (i_inum x) sb) L1 = L1) by (unfold logged; by rewrite decide_True).
  destruct (iupdate_run me pid d st sb ip Hsb C1 L1 (gone x) _ V2 Hop2 Hi) as (s3 & R3 & V3 & S3); [lia|].
  change (i_inum (gone x)) with (i_inum x) in V3. rewrite Elog in V3. destruct (op_does_keeps _ _ _ _ _ _ S3) as (_ & K3 & _).
  eexists _, L1, s3. split; [krun R1; krun R2; exact R3|]. split; [exact V3|]. split; [|split; [|split]].
  - unfold saved. change (i_inum (gone x)) with (i_inum x). split; [| | |done|done|done].
    + intros b Hb. rewrite meta_used by (done || lia || by apply data_valid). by apply E1.
    + intros b Hb Hne. rewrite fn_lookup_insert_ne by done. by apply E2.
    + rewrite fn_lookup_insert, E3. apply put_dinode_over; [|done|done].
      apply dip_slot; [lia|]. rewrite (fv_whole _ _ _ _ _ _ _ _ _ _ _ V). reflexivity.
  - by apply (op_does_open _ _ _ _ _ _ S3).
  - apply (fs_does_trans pid d [] [] [] s s1 s3); [done|]. eapply (fs_does_trans pid d [] [] [] s1 _ s3); [apply fs_does_set|].
    by apply fs_does_op.
  - rewrite K3. cbn [set_inodes k_inodes]. by rewrite K1, list_insert_insert_eq.
Qed.

Lemma iput_last_run C L x s :
  file_view C L [] x s -> op_open s -> 0 <= i_inum x < sb_ninodes sb ->
  Z.of_nat (length L) + map_blocks sb + 2 < LOGSIZE ->
  (ip < NINODE)%nat -> sl_locked (slock_at s (SLinode ip)) = false ->
  i_ref x = 1 -> i_valid x = true -> i_nlink x = 0 ->
  exists C' L' s', iput ip s = Ret tt s' /\ file_view C' L' [] (set_iref 0 (set_ivalid false (gone x))) s' /\ op_open s' /\
    emptied_file sb C L x (gone x) C' L' /\
    k_inodes s' = <[ip := set_iref 0 (set_ivalid false (gone x))]> (k_inodes s) /\
    sl_locked (slock_at s' (SLinode ip)) = false /\
    forall j, j <> ip -> slock_at s' (SLinode j) = slock_at s (SLinode j).
Proof using HD Hsb.
  intros V Hop Hi HL Hip Hu Hr Hv Hn. pose proof (file_ctx _ _ _ _ V) as X. pose proof (cx_cpu _ _ _ X) as Hc.
  pose proof (cx_locks _ _ _ X LKitable eq_refl) as Hf. unfold iput. krun (acquire_run LKitable s Hc Hf).
  rewrite kbind_gets. change (inode_at (acquired LKitable s) ip) with (inode_at s ip).
  rewrite (inode_at_view _ _ _ _ _ _ _ _ _ _ _ V), Hr, Hv, Hn. cbn [Z.eqb Pos.eqb andb].
  destruct (lock_under_itable me pid ip s X Hip Hu) as [R1 R2].
  destruct (file_view_woke _ _ _ _ _ V (woke_norm s Hc)) as (V1 & K1 & L1 & O1).
  pose proof (file_view_lock _ _ _ _ (mksleep true pid) V1) as V2. rewrite L1 in V2. set (s2 := set_slocks _ (norm s)) in *.
  destruct (erase_run C L x s2 V2 (O1 Hop) Hi HL) as (C3 & L3 & s3 & R3 & V3 & E3 & O3 & D3 & K3).
  destruct (file_view_put _ _ _ _ (set_ivalid false) V3 eq_refl eq_refl) as (s4 & R4 & V4 & Es4).
  assert (Hk : kernel_lock (LKsleep (SLinode ip)) = true) by (by apply Nat.ltb_lt).
  destruct (releasesleep_run me pid (SLinode ip) s4 (file_ctx _ _ _ _ V4) Hk) as (s5 & R5 & W5).
  destruct (file_view_woke _ _ _ _ _ (file_view_lock _ _ _ _ (mksleep false 0) V4) W5) as (V5 & K5 & L5 & O5).
  pose proof (file_ctx _ _ _ _ V5) as X5. pose proof (cx_cpu _ _ _ X5) as Hc5.
  pose proof (cx_locks _ _ _ X5 LKitable eq_refl) as Hf5. pose proof (acquire_run LKitable s5 Hc5 Hf5) as R6.
  destruct (file_view_woke _ _ _ _ _ V5 (woke_norm s5 Hc5)) as (V6 & K6 & L6 & O6).
  assert (RD : (do! acquiresleep (SLinode ip); do! release LKitable; do! itrunc ip; do! put_inode ip (set_itype 0);
     do! iupdate ip; do! put_inode ip (set_ivalid false); do! releasesleep (SLinode ip); acquire LKitable) (acquired LKitable s)
     = Ret tt (acquired LKitable s5)).
  { krun R1. krun R2. fold s2. revert R3. unfold kbind. destruct (itrunc ip s2); try done. cbn [obind].
    destruct (put_inode ip (set_itype 0) s0); try done. cbn [obind]. intros ->. cbn [obind]. rewrite R4. cbn [obind].
    rewrite R5. exact R6. }
  krun RD. unfold put_inode. rewrite kbind_modify. change (inode_at (acquired LKitable s5) ip) with (inode_at s5 ip).
  rewrite (inode_at_view _ _ _ _ _ _ _ _ _ _ _ V5). change (k_inodes (acquired LKitable s5)) with (k_inodes s5).
  assert (Ey : set_iref (i_ref (set_ivalid false (gone x)) - 1) (set_ivalid false (gone x)) = set_iref 0 (set_ivalid false (gone x)))
    by (unfold gone, emptied; cbn; by rewrite Hr).
  destruct (file_view_put _ _ _ _ (set_iref 0) V6 eq_refl eq_refl) as (s7 & _ & V7 & ->). rewrite K6 in V7.
  exists C3, L3. eexists. split; [apply (itable_release _ s5 Hc5 Hf5)|]. rewrite Ey.
  split; [exact V7|]. split; [apply O6, O5; by rewrite Es4|]. split; [exact E3|]. split; [|split].
  - cbn [set_inodes k_inodes]. rewrite K5. cbn [set_slocks k_inodes]. rewrite Es4. cbn [set_inodes k_inodes].
    rewrite K3, !list_insert_insert_eq. change (k_inodes s2) with (k_inodes (norm s)). by rewrite K1.
  - unfold slock_at. cbn [set_inodes k_slocks]. rewrite L6, L5. cbn [set_slocks k_slocks]. by rewrite lookup_insert_eq.
  - intros j Hj. transitivity (slock_at s3 (SLinode j)).
    + unfold slock_at. cbn [set_inodes k_slocks]. rewrite L6, L5. cbn [set_slocks k_slocks]. rewrite lookup_insert_ne by congruence.
      by rewrite Es4.
    + transitivity (slock_at s2 (SLinode j)); [exact (qt_slock _ _ (hd_quiet _ _ (os_rest _ _ _ _ _ _ D3)) j)|].
      unfold slock_at, s2. cbn [set_slocks k_slocks]. by rewrite lookup_insert_ne by congruence.
Qed.

(** C12: dropping the last reference to a file that no directory names deletes
    it.  [iput] does not panic or deadlock, gives every block of the file back
    and no other, marks the inode free on disk without touching any other
    inode or file, and leaves the table entry free and its lock open. *)
Theorem iput_deletes C L x s :
  file_view C L [] x s -> op_open s -> 0 <= i_inum x < sb_ninodes sb ->
  Z.of_nat (length L) + map_blocks sb + 2 < LOGSIZE ->
  (ip < NINODE)%nat -> sl_locked (slock_at s (SLinode ip)) = false ->
  i_ref x = 1 -> i_valid x = true -> i_nlink x = 0 ->
  exists C' L' s', iput ip s = Ret tt s' /\ op_view C' L' [] s' /\ op_open s' /\
    emptied_file sb C L x (gone x) C' L' /\
    k_inodes s' = <[ip := set_iref 0 (set_ivalid false (gone x))]> (k_inodes s) /\
    sl_locked (slock_at s' (SLinode ip)) = false.
Proof using HD Hsb.
  intros V Hop Hi HL Hip Hu Hr Hv Hn.
  destruct (iput_last_run C L x s V Hop Hi HL Hip Hu Hr Hv Hn) as (C' & L' & s' & R & V' & O' & E & K' & U' & _).
  exists C', L', s'. split_and!; try done. apply V'.
Qed.
End drop.

(** ** Examples *)

Section demo.
#[local] Existing Instance Balloc.demo_devices.
#[local] Existing Instance demo_linker.

Lemma demo_emptied y C' L' :
  emptied_file demo_sb (dget demo_disk) [] y (emptied y) C' L' \/ emptied_file demo_sb (dget demo_disk) [] y (gone y) C' L' ->
  i_addrs y = i_addrs demo_file -> used demo_sb C' 46 = false.
Proof.
  intros HE Ea. assert (HF : used demo_sb C' 46 = true <-> used demo_sb (dget demo_disk) 46 = true /\ ~ belongs (dget demo_disk) y 46)
    by (destruct HE as [E|E]; apply (ef_free _ _ _ _ _ _ _ E); vm_compute; intuition congruence).
  destruct (used demo_sb C' 46); [|done]. destruct (proj1 HF eq_refl) as [_ Hn]. destruct Hn. right. exists 0.
  split; [vm_compute; intuition congruence|]. unfold fblock, iaddr. by rewrite Ea.
Qed.

Lemma iput_deletes_witness : exists s C' L' s',
  iput (Dk := mem_disk) 0 s = Ret tt s' /\ op_view 1 7 1 2 C' L' [] s' /\
  used demo_sb C' 46 = false /\ i_ref (inode_at s' 0) = 0.
Proof.
  destruct demo_file_view as (s & V & P).
  destruct (file_view_put 1 7 1 2 demo_sb 0 _ _ _ _ (set_inlink 0) V eq_refl eq_refl) as (s1 & _ & V1 & E1).
  pose proof (file_view_lock 1 7 1 2 demo_sb 0 _ _ _ _ (mksleep false 0) V1) as V2.
  set (s2 := set_slocks _ s1) in *. assert (P2 : op_open s2) by (unfold s2; by rewrite E1).
  destruct (iput_deletes (HD := mem_disk_ok) 1 7 1 2 demo_sb 0 demo_sb_ok (dget demo_disk) [] _ s2 V2 P2)
    as (C' & L' & s' & R & V' & _ & E & K & _); try done.
  - unfold NINODE. lia.
  - unfold s2, slock_at. cbn [set_slocks k_slocks]. by rewrite lookup_insert_eq.
  - exists s2, C', L', s'. split; [exact R|]. split; [exact V'|].
    split; [by apply (demo_emptied (set_inlink 0 demo_file) C' L'); [right|]|].
    unfold inode_at. rewrite K, list_lookup_insert_eq; [done|]. exact (lookup_lt_Some _ _ _ (fv_inode _ _ _ _ _ _ _ _ _ _ _ V2)).
Defined.
End demo.
