(* ===== verification/Ialloc.v ===== *)
(** * Allocation of inodes: [ialloc] of kernel/fs.c

    The free inodes of a disk are those whose type is 0.  [ialloc] takes the
    lowest one, clears it, gives it its type and returns its entry of the
    table; when there is none it says so on the console and changes nothing. *)

From stdpp Require Import functions.
From S2P Require Import Prelude Param Mem CString Kernel Spinlock Kalloc Sched Sleeplock Bio BioRules Log Txn Vm PageTable UserCopy Uart Printf Fs Bitmap Console ConsoleLine Balloc Blockmap Path Inode Contents Writei FileOps Dir Namei Trunc.
Open Scope Z_scope.

(** ** A new inode in its block *)

Definition blank (d inum type : Z) : inode := mkinode d inum 0 true type 0 0 0 0 (replicate naddrs 0).

Lemma splice_prefix off a b l :
  (length a <= length b)%nat -> (off + length b <= length l)%nat ->
  splice off a (splice off b l) = splice off (a ++ drop (length a) b) l.
Proof.
  intros Ha Hb. unfold splice. assert (Ht : length (take off l) = off) by (rewrite length_take; lia).
  rewrite take_app_length' by done. rewrite <- app_assoc. do 2 f_equal.
  rewrite drop_app_ge by lia. rewrite Ht. replace (off + length a - off)%nat with (length a) by lia.
  rewrite drop_app_le by lia. do 2 f_equal. rewrite length_app, length_drop. lia.
Qed.

(** Cleared, then given its type: the blank inode stored. *)
Lemma claim_bytes o d inum type l :
  slot o l ->
  put16 (o + di_type) type (splice (Z.to_nat o) (replicate (Z.to_nat sizeof_dinode) 0) l) =
  put_dinode o (blank d inum type) l.
Proof.
  intros Hs. rewrite put_dinode_bytes by done. destruct Hs as [H1 H2]. revert H2. change sizeof_dinode with 64. intros H2.
  unfold put16, di_type. rewrite Z.add_0_r, splice_prefix; rewrite ?length_le_bytes, ?length_replicate; [|lia|lia].
  reflexivity.
Qed.

Lemma blank_ok d inum type : - 2 ^ 15 <= type < 2 ^ 15 -> dinode_ok (blank d inum type).
Proof. intros H. split; simpl; try done. by repeat constructor. Qed.

Section alloc.
Context `{HD : DiskOk, D : Devices, Lk : Linker}.
Context (me : nat) (pid d st : Z) (sb : superblock).
Hypothesis Hsb : sb_ok sb.

Abbreviation op_view := (op_view me pid d st).
Abbreviation op_step := (op_step pid d).

(** The type that the disk has under a number, 0 if the inode is free. *)
Definition itype (C : Z -> block) (inum : Z) : Z := get16 (dip inum + di_type) (C (IBLOCK inum sb)).

Lemma itype_dnode C inum : i_type (dnode C sb d inum) = itype C inum.
Proof using. reflexivity. Qed.

Definition claimed (inum type : Z) (C : Z -> block) : Z -> block :=
  <[IBLOCK inum sb := put_dinode (dip inum) (blank d inum type) (C (IBLOCK inum sb))]> C.

(** The other inodes, of the same block and of others, are as before. *)
Lemma claimed_nodes C inum type :
  whole C -> 0 <= inum < sb_ninodes sb -> - 2 ^ 15 <= type < 2 ^ 15 ->
  dnode (claimed inum type C) sb d inum = blank d inum type /\
  forall j, 0 <= j < sb_ninodes sb -> j <> inum -> dnode (claimed inum type C) sb d j = dnode C sb d j.
Proof using Hsb.
  intros Hw Hi Ht. assert (Hl : Z.of_nat (length (C (IBLOCK inum sb))) = BSIZE) by (rewrite Hw; reflexivity).
  unfold dnode, claimed. rewrite fn_lookup_insert. split.
  - by rewrite (proj1 (dinode_roundtrip inum _ _ _ ltac:(lia) Hl (blank_ok d inum type Ht))).
  - intros j Hj Hne. destruct (decide (IBLOCK j sb = IBLOCK inum sb)) as [E|E]; [|by rewrite fn_lookup_insert_ne].
    rewrite E, fn_lookup_insert. apply dinode_roundtrip; [lia|done|by apply blank_ok|lia|]. intros Em. apply Hne.
    rewrite (proj1 (IBLOCK_range sb Hsb j Hj)), (proj1 (IBLOCK_range sb Hsb inum Hi)) in E.
    pose proof (Z.div_mod j IPB). pose proof (Z.div_mod inum IPB). change IPB with 16 in *. lia.
Qed.

(** ** The search *)

Lemma op_view_ext C C' L hs s : op_view C L hs s -> (forall b, C b = C' b) -> op_view C' L hs s.
Proof using. intros [V LA HR HN HH HL HS] E. split; try done. by eapply view_ext. Qed.

Lemma node_block_free inum (L : list Z) : 0 <= inum < sb_ninodes sb -> Z.of_nat (length L) + 1 < LOGSIZE ->
  0 <= IBLOCK inum sb < 2 ^ 31 /\ (length L + @length Z [] < NBUF)%nat.
Proof using Hsb.
  intros Hi HL. pose proof (IBLOCK_range sb Hsb inum Hi) as [_ Hr]. pose proof (layout sb Hsb).
  unfold LOGSIZE, MAXOPBLOCKS, NBUF in *. simpl. lia.
Qed.

(** Up to the call of [iget]. *)
Lemma claim_run C L s inum type :
  op_view C L [] s -> op_open s -> whole C -> 0 <= inum < sb_ninodes sb -> itype C inum = 0 ->
  Z.of_nat (length L) + 1 < LOGSIZE ->
  exists i s1 s2, bread d (IBLOCK inum sb) s = Ret i s1 /\ b_data (buf_at s1 i) = C (IBLOCK inum sb) /\
    (forall A (k : K A),
      (do! put_buf i (fun x => set_data (splice (Z.to_nat (dip inum)) (replicate (Z.to_nat sizeof_dinode) 0) (b_data x)) x);
       do! put_buf i (fun x => set_data (put16 (dip inum + di_type) type (b_data x)) x);
       do! log_write i; do! brelse i; k) s1 = k s2) /\
    op_view (claimed inum type C) (logged (IBLOCK inum sb) L) [] s2 /\ op_step [] s s2.
Proof using HD Hsb.
  intros V Hop Hw Hi H0 HL. destruct (node_block_free inum L Hi HL) as [Hr Hn]. set (b := IBLOCK inum sb) in *.
  destruct (op_bread _ _ _ _ _ _ _ _ b V (not_elem_of_nil _) Hn) as (i & s1 & R1 & O1 & E1 & V1 & S1).
  destruct (op_store _ _ _ _ _ _ _ _ _ _ (splice (Z.to_nat (dip inum)) (replicate (Z.to_nat sizeof_dinode) 0)) V1 O1)
    as (s2 & R2 & V2 & S2).
  assert (O2 : own pid d s2 i b) by (apply (os_own _ _ _ _ _ _ S2); [apply list_elem_of_here|done]).
  assert (Hop2 : op_open s2) by (apply (op_does_open _ _ _ _ _ _ S2), (op_does_open _ _ _ _ _ _ S1), Hop).
  destruct (op_finish me pid d st _ L [] s2 i b (put16 (dip inum + di_type) type) V2 Hop2 O2 Hr) as (s3 & R3 & _ & V3 & S3); [lia|].
  exists i, s1, s3. split_and!; [done|done| | |].
  - intros A k. krun R2. apply R3.
  - eapply op_view_ext; [exact V3|]. intros x. unfold claimed. fold b. destruct (decide (x = b)) as [->|Hx].
    + rewrite !fn_lookup_insert. apply claim_bytes. apply dip_slot; [lia|]. rewrite Hw. reflexivity.
    + by rewrite !fn_lookup_insert_ne.
  - transitivity s1; [done|]. transitivity s2; [|done]. by apply (op_does_sub _ _ [] [b]); [set_solver|].
Qed.

(** An inode in use is passed over. *)
Lemma ialloc_skip_run C L s inum type fuel :
  op_view C L [] s -> k_sb s = sb -> 0 <= inum < sb_ninodes sb -> itype C inum <> 0 -> Z.of_nat (length L) + 1 < LOGSIZE ->
  exists s', ialloc_loop (S fuel) d type inum s = ialloc_loop fuel d type (inum + 1) s' /\
    op_view C L [] s' /\ op_step [] s s'.
Proof using HD Hsb.
  intros V Es Hi H0 HL. destruct (node_block_free inum L Hi HL) as [_ Hn]. cbn [ialloc_loop].
  rewrite kbind_gets, Es. destruct (Z.ltb_spec inum (sb_ninodes sb)); [|lia].
  destruct (op_bread _ _ _ _ _ _ _ _ (IBLOCK inum sb) V (not_elem_of_nil _) Hn) as (i & s1 & R1 & O1 & E1 & V1 & S1).
  destruct (op_brelse _ _ _ _ _ _ _ _ _ _ V1 O1) as (s2 & R2 & V2 & S2).
  { rewrite (proj1 (os_disk _ _ _ _ _ _ S1)). eapply op_view_clean; [exact V|apply not_elem_of_nil]. }
  krun R1. unfold buf_data. rewrite kbind_gets, E1. fold (itype C inum). rewrite (proj2 (Z.eqb_neq _ _) H0). krun R2.
  exists s2. split_and!; [done|done|by etransitivity].
Qed.

Lemma ialloc_search_run n : forall C L s inum type fuel,
  op_view C L [] s -> k_sb s = sb -> 0 <= inum -> inum + Z.of_nat n <= sb_ninodes sb ->
  (forall j, inum <= j < inum + Z.of_nat n -> itype C j <> 0) -> Z.of_nat (length L) + 1 < LOGSIZE ->
  exists s', ialloc_loop (n + fuel) d type inum s = ialloc_loop fuel d type (inum + Z.of_nat n) s' /\
    op_view C L [] s' /\ op_step [] s s'.
Proof using HD Hsb.
  induction n as [|n IH]; intros C L s inum type fuel V Es Hi Hn Hall HL.
  { exists s. rewrite Z.add_0_r. split_and!; [done|done|reflexivity]. }
  destruct (ialloc_skip_run C L s inum type (n + fuel) V Es) as (s1 & R1 & V1 & S1); [lia|apply Hall; lia|done|].
  destruct (IH C L s1 (inum + 1) type fuel V1) as (s2 & R2 & V2 & S2); [|lia|lia|intros j Hj; apply Hall; lia|done|].
  { by rewrite (proj1 (op_does_keeps _ _ _ _ _ _ S1)). }
  exists s2. split_and!; [|done|by etransitivity]. cbn [Nat.add]. rewrite R1, R2. f_equal. lia.
Qed.

Definition no_inodes : list Z := bytes_of "ialloc: no inodes" ++ [10].

Hypothesis tx_idle : forall hist, Z.land (dev_read hist (UART0 + LSR)) LSR_TX_IDLE <> 0.

Section call.
Context (C : Z -> block) (L : list Z) (s : kst) (type : Z).
Hypothesis V : op_view C L [] s.
Hypothesis Es : k_sb s = sb.
Hypothesis HL : Z.of_nat (length L) + 1 < LOGSIZE.

Lemma ialloc_takes inum :
  op_open s -> whole C -> itable_ok (k_inodes s) -> (exists j x, k_inodes s !! j = Some x /\ i_ref x = 0) ->
  - 2 ^ 15 <= type < 2 ^ 15 -> 1 <= inum < sb_ninodes sb -> itype C inum = 0 -> (forall j, 1 <= j < inum -> itype C j <> 0) ->
  exists ip x s', ialloc d type s = Ret (Some ip) s' /\ op_view (claimed inum type C) (logged (IBLOCK inum sb) L) [] s' /\
    itable_ok (k_inodes s') /\ k_inodes s' = <[ip := x]> (k_inodes s) /\ k_inodes s' !! ip = Some x /\ is_inode d inum x /\
    (exists x0, k_inodes s !! ip = Some x0 /\ (is_inode d inum x0 \/ i_ref x0 = 0 /\ x = fresh_inode d inum x0)) /\
    fs_does pid d [] [] s s'.
Proof using HD Hsb V Es HL.
  intros Hop Hw Ht Hfree Hty Hi H0 Hlow. unfold ialloc. rewrite kbind_gets, Es.
  destruct (ialloc_search_run (Z.to_nat (inum - 1)) C L s 1 type (S (Z.to_nat (sb_ninodes sb) - Z.to_nat (inum - 1))) V Es)
    as (s1 & R1 & V1 & S1); [lia|lia|intros j Hj; apply Hlow; lia|done|].
  replace (Z.to_nat (inum - 1) + S (Z.to_nat (sb_ninodes sb) - Z.to_nat (inum - 1)))%nat with (S (Z.to_nat (sb_ninodes sb))) in R1 by lia.
  rewrite R1. replace (1 + Z.of_nat (Z.to_nat (inum - 1))) with inum by lia.
  destruct (claim_run C L s1 inum type V1 (op_does_open _ _ _ _ _ _ S1 Hop) Hw ltac:(lia) H0 HL)
    as (i & s2 & s3 & R2 & E2 & R3 & V3 & S3).
  destruct (op_does_keeps _ _ _ _ _ _ S1) as (K1 & I1 & _), (op_does_keeps _ _ _ _ _ _ S3) as (_ & I3 & _).
  cbn [ialloc_loop]. rewrite kbind_gets, K1, Es. destruct (Z.ltb_spec inum (sb_ninodes sb)); [|lia].
  krun R2. unfold buf_data. rewrite kbind_gets, E2. fold (itype C inum). rewrite H0. cbn [Z.eqb]. rewrite R3.
  assert (X : ctx me pid s3) by apply (vw_ctx _ _ _ _ _ _ _ _ (ov_view _ _ _ _ _ _ _ _ V3)).
  assert (It : k_inodes s3 = k_inodes s) by congruence.
  destruct (iget_cases d inum s3 (cx_cpu _ _ _ X) (cx_locks _ _ _ X LKitable eq_refl) ltac:(by rewrite It))
    as [(ip & x & y & R4 & Hx & Hok & Hy)|[_ Hfull]].
  2: { destruct Hfree as (j & x & Hj & Hr). rewrite It in Hfull. destruct (Hfull j x Hj). lia. }
  krun R4. exists ip, y. eexists. split; [reflexivity|]. cbn [set_inodes k_inodes].
  destruct (op_woke _ _ _ _ _ _ _ _ _ V3 (woke_norm s3 (cx_cpu _ _ _ X))) as [V4 S4].
  split; [by apply op_view_inodes|]. split; [done|]. split; [by rewrite It|].
  split; [apply list_lookup_insert_eq; by eapply lookup_lt_Some|].
  rewrite It in Hx. split; [|split].
  - destruct Hy as [[(H1 & H2 & H3) ->]|(_ & -> & _)]; unfold is_inode; simpl; lia.
  - exists x. split; [done|]. destruct Hy as [[H1 _]|(H1 & -> & _)]; [by left|by right].
  - assert (S : op_step [] s (norm s3)) by (transitivity s1; [done|]; transitivity s3; done).
    eapply (fs_does_trans _ _ [] [] [] s (norm s3)); [by apply fs_does_op|apply fs_does_set].
Qed.

Lemma ialloc_full :
  pr_locking (k_pr s) = true -> panicked (k_pr s) = false -> 1 <= sb_ninodes sb ->
  (forall j, 1 <= j < sb_ninodes sb -> itype C j <> 0) ->
  exists io s', ialloc d type s = Ret None s' /\ sends io = no_inodes /\ op_view C L [] s' /\ op_does pid d [] io s s'.
Proof using HD Hsb V Es HL tx_idle.
  intros Hk Hp Hn Hall. unfold ialloc. rewrite kbind_gets, Es.
  destruct (ialloc_search_run (Z.to_nat (sb_ninodes sb - 1)) C L s 1 type 2 V Es) as (s1 & R1 & V1 & S1);
    [lia|lia|intros j Hj; apply Hall; lia|done|].
  replace (Z.to_nat (sb_ninodes sb - 1) + 2)%nat with (S (Z.to_nat (sb_ninodes sb))) in R1 by lia.
  rewrite R1. replace (1 + Z.of_nat (Z.to_nat (sb_ninodes sb - 1))) with (sb_ninodes sb) by lia.
  destruct (op_does_keeps _ _ _ _ _ _ S1) as (K1 & _ & K3 & _).
  cbn [ialloc_loop]. rewrite kbind_gets, K1, Es, Z.ltb_irrefl.
  destruct (printf_plain tx_idle me pid no_inodes [] s1) as (io & s2 & R2 & E2 & W2); rewrite ?K3; try done.
  { refine (bool_decide_unpack _ _). vm_compute. exact I. }
  { apply V1. }
  krun R2. destruct (op_prints _ _ _ _ _ _ _ _ _ _ V1 W2) as [V2 S2].
  exists io, s2. split_and!; [done|done|done|]. exact (op_does_trans _ _ _ [] io _ _ _ S1 S2).
Qed.
End call.

(** C13: [ialloc] is a first-fit allocator of inodes.  If an inode is free it
    takes the lowest one, which on disk becomes an inode of the given type with
    no links, no size and no blocks, while every other inode and every other
    block stays as it was, and returns an entry of the table that refers to it,
    the only one that does.  If none is free it prints a message and returns 0,
    and neither the disk nor the table changes. *)
Theorem ialloc_spec C L s type :
  op_view C L [] s -> op_open s -> k_sb s = sb -> whole C -> itable_ok (k_inodes s) ->
  (exists j x, k_inodes s !! j = Some x /\ i_ref x = 0) ->
  pr_locking (k_pr s) = true /\ panicked (k_pr s) = false ->
  1 <= sb_ninodes sb -> - 2 ^ 15 <= type < 2 ^ 15 -> Z.of_nat (length L) + 1 < LOGSIZE ->
  (forall inum, 1 <= inum < sb_ninodes sb -> itype C inum = 0 -> (forall j, 1 <= j < inum -> itype C j <> 0) ->
    exists ip x C' s', ialloc d type s = Ret (Some ip) s' /\ op_view C' (logged (IBLOCK inum sb) L) [] s' /\
      itable_ok (k_inodes s') /\ k_inodes s' = <[ip := x]> (k_inodes s) /\ k_inodes s' !! ip = Some x /\ is_inode d inum x /\
      dnode C' sb d inum = blank d inum type /\
      (forall j, 0 <= j < sb_ninodes sb -> j <> inum -> dnode C' sb d j = dnode C sb d j) /\
      (forall b, b <> IBLOCK inum sb -> C' b = C b)) /\
  ((forall j, 1 <= j < sb_ninodes sb -> itype C j <> 0) ->
    exists io s', ialloc d type s = Ret None s' /\ sends io = no_inodes /\ op_view C L [] s' /\ op_does pid d [] io s s').
Proof using HD Hsb tx_idle.
  intros V Hop Es Hw Ht Hfree [Hk Hp] Hn Hty HL. split; [|by apply ialloc_full]. intros inum Hi H0 Hlow.
  destruct (claimed_nodes C inum type Hw ltac:(lia) Hty) as [N1 N2].
  destruct (ialloc_takes C L s type V Es HL inum Hop Hw Ht Hfree Hty Hi H0 Hlow) as (ip & x & s' & R & V' & T' & I' & X' & Hx & _).
  exists ip, x, (claimed inum type C), s'. split_and!; try done.
  intros b Hb. unfold claimed. by rewrite fn_lookup_insert_ne.
Qed.
End alloc.

(** ** Example *)

Section demo.
#[local] Existing Instance Balloc.demo_devices.
#[local] Existing Instance demo_linker.

(** Inodes 1 and 2 are in use: 3 is the first free one. *)
Lemma ialloc_spec_witness : exists s ip x C' s',
  ialloc (Dk := mem_disk) 1 T_FILE s = Ret (Some ip) s' /\ k_inodes s' !! ip = Some x /\ is_inode 1 3 x /\
  dnode C' demo_sb 1 3 = blank 1 3 T_FILE /\ dnode C' demo_sb 1 2 = set_iref 0 demo_note.
Proof.
  destruct demo_dir_view as (s & [V1 _ V3 V4 _ _ _ _ _] & P & Hi). exists s.
  destruct (ialloc_spec (HD := mem_disk_ok) 1 7 1 2 demo_sb demo_sb_ok demo_idle (dget dir_disk) [] s T_FILE V1 P V3 dir_whole)
    as [HA _].
  - rewrite Hi. exact dir_table_ok.
  - rewrite Hi. exists 1%nat, inode0. done.
  - exact V4.
  - vm_compute. discriminate.
  - vm_compute. intuition congruence.
  - vm_compute. reflexivity.
  - destruct (HA 3) as (ip & x & C' & s' & R & _ & _ & _ & I & Hx & N & O & _).
    + vm_compute. intuition congruence.
    + vm_compute. reflexivity.
    + intros j Hj. assert (j = 1 \/ j = 2) as [->| ->] by lia; vm_compute; discriminate.
    + exists ip, x, C', s'. split; [exact R|]. split; [exact I|]. split; [exact Hx|]. split; [exact N|].
      rewrite O; [exact demo_dnode2|vm_compute; intuition congruence|discriminate].
Defined.
End demo.
