(* ===== verification/Tree.v ===== *)
(** * The tree of directories under changes of the disk

    What an operation on one file leaves of the others: an inode stored in its
    block ([stored_nodes]), a file whose blocks nobody wrote ([spares]), and
    the graph of [Namei] when one directory gains an entry ([gained_graph],
    [gained_path]). *)

From stdpp Require Import functions.
From S2P Require Import Prelude Param Mem CString Kernel Spinlock Kalloc Sched Sleeplock Bio BioRules Log Txn Vm PageTable UserCopy Uart Printf Fs Bitmap Console ConsoleLine Balloc Blockmap Path Inode Contents Writei FileOps Dir Namei Trunc Ialloc.
Open Scope Z_scope.

Section tree.
Context (sb : superblock) (d : Z).
Hypothesis Hsb : sb_ok sb.

Abbreviation dnode C := (dnode C sb d).
Abbreviation is_dir C := (is_dir C sb d).
Abbreviation step C := (step C sb d).
Abbreviation resolve C := (resolve C sb d).

(** An entry of the table, as the disk has it. *)
Definition on_disk (x : inode) : inode := set_iref 0 (set_ivalid true x).

Lemma stored_nodes C C' i y :
  whole C -> 0 <= i < sb_ninodes sb -> dinode_ok y -> i_dev y = d -> i_inum y = i ->
  C' (IBLOCK i sb) = put_dinode (dip i) y (C (IBLOCK i sb)) ->
  (forall b, b < sb_bmapstart sb -> b <> IBLOCK i sb -> C' b = C b) ->
  dnode C' i = on_disk y /\ forall j, 0 <= j < sb_ninodes sb -> j <> i -> dnode C' j = dnode C j.
Proof using Hsb.
  intros Hw Hi Hy Ed Ei E1 E2. assert (Hl : Z.of_nat (length (C (IBLOCK i sb))) = BSIZE) by (rewrite Hw; reflexivity).
  unfold Namei.dnode. split.
  - rewrite E1, (proj1 (dinode_roundtrip i y _ _ ltac:(lia) Hl Hy)). by destruct y; simpl in *; subst.
  - intros j Hj Hne. pose proof (IBLOCK_range sb Hsb j Hj) as [Bj Rj].
    destruct (decide (IBLOCK j sb = IBLOCK i sb)) as [E|E]; [|by rewrite E2 by (done || lia)].
    rewrite E, E1. apply dinode_roundtrip; [lia|done|done|lia|]. intros Em. apply Hne.
    rewrite Bj, (proj1 (IBLOCK_range sb Hsb i Hi)) in E.
    pose proof (Z.div_mod j IPB). pose proof (Z.div_mod i IPB). change IPB with 16 in *. lia.
Qed.

(** What a directory or file has on disk, whatever its entry in the table says. *)
Lemma dnode_ok C x :
  inode_ok sb C x -> 0 <= i_size x <= MAXSIZE -> - 2 ^ 15 <= i_type x < 2 ^ 15 -> - 2 ^ 15 <= i_major x < 2 ^ 15 ->
  - 2 ^ 15 <= i_minor x < 2 ^ 15 -> - 2 ^ 15 <= i_nlink x < 2 ^ 15 -> dinode_ok x.
Proof using Hsb.
  intros Hx Hs ????. split; try done; [|apply Hx|by eapply inode_ok_addrs]. change MAXSIZE with 274432 in Hs. lia.
Qed.

Lemma s16_range z : - 2 ^ 15 <= s16 z < 2 ^ 15.
Proof. unfold s16. pose proof (Z.mod_pos_bound (z + 2 ^ 15) (2 ^ 16) ltac:(lia)). lia. Qed.

(** ** Files whose blocks stay *)

Definition spares (C : Z -> block) (x : inode) (C' : Z -> block) : Prop :=
  forall b, taken sb C b -> belongs C x b -> taken sb C' b /\ C' b = C b.

Lemma spares_fblock C x C' bn : inode_ok sb C x -> spares C x C' -> fblock C' x bn = fblock C x bn.
Proof using.
  intros Hx S. unfold fblock. destruct (bn <? NDIRECT); [done|]. destruct (Z.eqb_spec (indirect x) 0) as [|Hi]; [done|].
  destruct (S (indirect x)) as [_ ->]; [by apply Hx|by left|done].
Qed.

Lemma spares_belongs C x C' b : inode_ok sb C x -> spares C x C' -> belongs C' x b <-> belongs C x b.
Proof using. intros Hx S. unfold belongs. by setoid_rewrite (spares_fblock C x C' _ Hx S). Qed.

Lemma spares_file C x C' : inode_ok sb C x -> spares C x C' ->
  inode_ok sb C' x /\ forall o, 0 <= o < MAXSIZE -> fbyte C' x o = fbyte C x o.
Proof using.
  intros Hx S. pose proof (fun bn => spares_fblock C x C' bn Hx S) as Ef. pose proof Hx as [O1 O2 O3 O4 O5]. split.
  - split; [done| | | |].
    + intros Hi. apply S; [by apply O2|by left].
    + intros bn Hbn. rewrite Ef. intros Hn. apply S; [by apply O3|right; by exists bn].
    + intros bn bn'. rewrite !Ef. apply O4.
    + intros bn. rewrite Ef. apply O5.
  - intros o Ho. unfold fbyte. rewrite Ef. destruct (Z.eqb_spec (fblock C x (o / BSIZE)) 0) as [|Hn]; [done|].
    pose proof (in_file_div o Ho) as Hd. destruct (S (fblock C x (o / BSIZE))) as [_ ->]; [by apply O3|right; by exists (o / BSIZE)|done].
Qed.

Lemma spares_dirents C x C' : inode_ok sb C x -> dir_ok C x -> spares C x C' ->
  inode_ok sb C' x /\ dir_ok C' x /\ dirents C' x = dirents C x.
Proof using.
  intros Hx Hd S. destruct (spares_file C x C' Hx S) as [Ho Hb].
  destruct (dirents_same C x Hd C' x eq_refl eq_refl) as [E D]; [|done|done].
  destruct Hd as [[F1 F2] _ _ _]. split; [done|]. intros bn H1 H2. rewrite (spares_fblock C x C' bn Hx S). by apply F2.
Qed.

Lemma spares_dir C x C' : inode_ok sb C x -> dir_ok C x -> spares C x C' ->
  inode_ok sb C' x /\ dir_ok C' x /\ forall nm, dir_map C' x nm = dir_map C x nm.
Proof using.
  intros Hx Hd S. destruct (spares_dirents C x C' Hx Hd S) as (I & D & E). split_and!; [done|done|].
  intros nm. unfold dir_map. by rewrite E.
Qed.

Lemma spares_trans C1 C2 C3 x : inode_ok sb C1 x -> spares C1 x C2 -> spares C2 x C3 -> spares C1 x C3.
Proof using.
  intros Hx S1 S2 b Ht Hb. destruct (S1 b Ht Hb) as [T2 E2].
  destruct (S2 b T2) as [T3 E3]; [by apply (spares_belongs C1)|]. split; [done|congruence].
Qed.

(** A write among the inodes. *)
Lemma spares_meta C C' x : (forall b, sb_bmapstart sb <= b -> C' b = C b) -> spares C x C'.
Proof using Hsb.
  intros E b [Hd Hu] _. pose proof (layout sb Hsb). destruct Hd as [H1 H2]. split; [|apply E; lia]. split; [done|].
  unfold used. rewrite E; [exact Hu|]. pose proof (BBLOCK_range sb b Hsb) as R. unfold valid_block in R. lia.
Qed.

Lemma belongs_taken C C' x b : inode_ok sb C x -> belongs C x b -> taken sb C' b -> taken sb C b.
Proof using Hsb.
  intros Hx Hb [[H1 _] _]. pose proof (layout sb Hsb). destruct Hb as [->|(bn & Hbn & <-)]; [apply Hx|apply (io_block _ _ _ Hx); [done|]]; lia.
Qed.

Lemma belongs_disk C x b : belongs C (on_disk x) b <-> belongs C x b.
Proof using. reflexivity. Qed.

(** ** A directory that gains an entry *)

(** The files of [T]: they are on the disk, and two directories share no block. *)
Record unshared (C : Z -> block) (T : Z -> Prop) : Prop := {
  un_range i : T i -> 0 <= i < sb_ninodes sb;
  un_dirs i j b : T i -> T j -> is_dir C i = true -> is_dir C j = true -> i <> j -> taken sb C b ->
    belongs C (dnode C i) b -> ~ belongs C (dnode C j) b
}.

(** From [C] to [C'] directory [p] has gained the entry [new], if any, and every
    other inode of [T] and every other directory has stayed. *)
Record gained (T : Z -> Prop) (p : Z) (new : option (list Z * Z)) (C C' : Z -> block) : Prop := {
  gn_node i : T i -> i <> p -> dnode C' i = dnode C i;
  gn_dir i : T i -> i <> p -> is_dir C i = true -> spares C (dnode C i) C';
  gn_parent : is_dir C' p = true /\ dir_ok C' (dnode C' p) /\ inode_ok sb C' (dnode C' p) /\ i_nlink (dnode C' p) = i_nlink (dnode C p);
  gn_map nm : dir_map C' (dnode C' p) nm =
    match new with
    | Some (name, j) => if decide (until_nul nm = until_nul name) then Some j else dir_map C (dnode C p) nm
    | None => dir_map C (dnode C p) nm
    end;
  gn_fresh b : taken sb C b -> ~ belongs C (dnode C p) b -> ~ belongs C' (dnode C' p) b;
  gn_new name j : new = Some (name, j) -> 0 <= j < sb_ninodes sb /\ dir_map C (dnode C p) name = None /\ i_type (dnode C' j) <> 0 /\
    is_dir C' j = false /\ i_nlink (dnode C' j) <> 0
}.

Lemma resolve_app C es es' : forall i, resolve C i (es ++ es') = resolve C i es ≫= fun k => resolve C k es'.
Proof using. induction es as [|e es IH]; intros i; [done|]. cbn. destruct (step C i e); [apply IH|done]. Qed.

Lemma gained_name T p n1 n2 j C C' : until_nul n1 = until_nul n2 ->
  gained T p (Some (n1, j)) C C' -> gained T p (Some (n2, j)) C C'.
Proof using.
  intros E [G1 G2 G3 G4 G5 G6]. split; try done; [intros nm; rewrite G4; by rewrite E|].
  intros name k [= <- <-]. destruct (G6 n1 j eq_refl) as (H1 & H2 & H3). split; [done|split; [|done]]. rewrite <- H2. by apply dir_map_name.
Qed.

(** The inodes of the new graph. *)
Definition with_new (T : Z -> Prop) (new : option (list Z * Z)) (i : Z) : Prop :=
  T i \/ exists name, new = Some (name, i).

Section gained.
Context (T : Z -> Prop) (p : Z) (new : option (list Z * Z)) (C C' : Z -> block).
Hypothesis Hg : graph_ok C sb d T.
Hypothesis Hp : T p.
Hypothesis Hpd : is_dir C p = true.
Hypothesis Hlk : gained T p new C C'.

Lemma gained_is_dir i : T i -> is_dir C' i = is_dir C i.
Proof using Hpd Hlk.
  intros Hi. destruct (decide (i = p)) as [->|Hne]; [rewrite Hpd; apply Hlk|]. unfold Namei.is_dir. by rewrite (gn_node _ _ _ _ _ Hlk i Hi Hne).
Qed.

Lemma gained_dir i nm : T i -> i <> p -> is_dir C i = true ->
  dir_ok C' (dnode C' i) /\ inode_ok sb C' (dnode C' i) /\ dir_map C' (dnode C' i) nm = dir_map C (dnode C i) nm.
Proof using Hg Hlk.
  intros Hi Hne Hd. rewrite (gn_node _ _ _ _ _ Hlk i Hi Hne). destruct (gr_dir _ _ _ _ Hg i Hi Hd) as [D I].
  destruct (spares_dir C (dnode C i) C' I D (gn_dir _ _ _ _ _ Hlk i Hi Hne Hd)) as (I' & D' & E). by rewrite E.
Qed.

(** Steps that the graph had it still has. *)
Lemma gained_step i e j : T i -> step C i e = Some j -> step C' i e = Some j.
Proof using Hg Hpd Hlk.
  intros Hi. unfold Namei.step. rewrite (gained_is_dir i Hi). destruct (is_dir C i) eqn:Hd; [|done].
  destruct (decide (i = p)) as [->|Hne].
  - rewrite (gn_map _ _ _ _ _ Hlk). destruct new as [[name k]|] eqn:En; [|done]. intros E. case_decide as Hn; [|done].
    rewrite (dir_map_name _ _ _ _ Hn) in E. by rewrite (proj1 (proj2 (gn_new _ _ _ _ _ Hlk name k eq_refl))) in E.
  - by rewrite (proj2 (proj2 (gained_dir i _ Hi Hne Hd))).
Qed.

Lemma gained_resolve es : forall i j, T i -> resolve C i es = Some j -> resolve C' i es = Some j.
Proof using Hg Hpd Hlk.
  induction es as [|e es IH]; intros i j Hi; [done|]. cbn [Namei.resolve].
  destruct (step C i e) as [k|] eqn:E; [|done]. rewrite (gained_step i e k Hi E). simpl. apply IH. by apply (gr_step _ _ _ _ Hg i e).
Qed.

(** The new inode is what its path leads to. *)
Lemma gained_path i es name j e : T i -> new = Some (name, j) -> resolve C i es = Some p ->
  until_nul (take (Z.to_nat DIRSIZ) e) = until_nul name -> resolve C' i (es ++ [e]) = Some j.
Proof using Hg Hpd Hlk.
  intros Hi En Hr He. rewrite resolve_app, (gained_resolve es i p Hi Hr). cbn. unfold Namei.step.
  rewrite (proj1 (gn_parent _ _ _ _ _ Hlk)), (gn_map _ _ _ _ _ Hlk), En, decide_True by done. done.
Qed.

(** With no new entry every path leads where it did. *)
Lemma gained_same es : new = None -> forall i, T i -> resolve C' i es = resolve C i es.
Proof using Hg Hpd Hlk.
  intros En. induction es as [|e es IH]; intros i Hi; [done|]. cbn [Namei.resolve].
  assert (Es : step C' i e = step C i e).
  { unfold Namei.step. rewrite (gained_is_dir i Hi). destruct (is_dir C i) eqn:Hd; [|done].
    destruct (decide (i = p)) as [->|Hne]; [by rewrite (gn_map _ _ _ _ _ Hlk), En|apply (gained_dir i _ Hi Hne Hd)]. }
  rewrite Es. destruct (step C i e) as [k|] eqn:E; [|done]. simpl. apply IH. by apply (gr_step _ _ _ _ Hg i e).
Qed.

Lemma gained_graph : graph_ok C' sb d (with_new T new).
Proof using Hg Hp Hpd Hlk.
  pose proof Hlk as [_ _ (P1 & P2 & P3 & P4) M _ N]. split.
  - intros i [Hi|[name En]]; [|by destruct (N name i En) as (_ & _ & ? & _)]. destruct (decide (i = p)) as [->|Hne].
    + unfold Namei.is_dir in P1. apply Z.eqb_eq in P1. by rewrite P1.
    + rewrite (gn_node _ _ _ _ _ Hlk i Hi Hne). by apply (gr_type _ _ _ _ Hg).
  - intros i [Hi|[name En]]; [|by destruct (N name i En) as (_ & _ & _ & _ & ?)]. destruct (decide (i = p)) as [->|Hne].
    + rewrite P4. by apply (gr_linked _ _ _ _ Hg).
    + rewrite (gn_node _ _ _ _ _ Hlk i Hi Hne). by apply (gr_linked _ _ _ _ Hg).
  - intros i [Hi|[name En]] Hd; [|destruct (N name i En) as (_ & _ & _ & Hf & _); congruence].
    destruct (decide (i = p)) as [->|Hne]; [done|]. rewrite (gained_is_dir i Hi) in Hd.
    by destruct (gained_dir i [] Hi Hne Hd) as (? & ? & _).
  - intros i e j [Hi|[name En]] E; [|unfold Namei.step in E; by rewrite (proj1 (proj2 (proj2 (proj2 (N name i En))))) in E].
    destruct (decide (i = p)) as [->|Hne].
    + unfold Namei.step in E. rewrite P1, M in E. destruct new as [[name k]|]; [case_decide|]; [by injection E as ->; right; exists name| |];
        left; apply (gr_step _ _ _ _ Hg p e); try done; unfold Namei.step; by rewrite Hpd.
    + left. apply (gr_step _ _ _ _ Hg i e); [done|]. unfold Namei.step in E |- *. rewrite (gained_is_dir i Hi) in E.
      destruct (is_dir C i) eqn:Hd; [|done]. by rewrite (proj2 (proj2 (gained_dir i _ Hi Hne Hd))) in E.
Qed.
Lemma gained_unshared : unshared C T -> unshared C' (with_new T new).
Proof using Hsb Hg Hp Hpd Hlk.
  intros [R A]. split; [intros i [Hi|[name En]]; [by apply R|by apply (gn_new _ _ _ _ _ Hlk name)]|].
  assert (Old : forall i, with_new T new i -> is_dir C' i = true -> T i).
  { intros i [Hi|[name En]] Hd; [done|]. destruct (gn_new _ _ _ _ _ Hlk name i En) as (_ & _ & _ & Hf & _). congruence. }
  assert (B : forall i b, T i -> i <> p -> is_dir C i = true -> belongs C' (dnode C' i) b -> taken sb C' b ->
    belongs C (dnode C i) b /\ taken sb C b).
  { intros i b Hi Hne Hd Hb Ht. rewrite (gn_node _ _ _ _ _ Hlk i Hi Hne) in Hb. destruct (gr_dir _ _ _ _ Hg i Hi Hd) as [_ I].
    rewrite spares_belongs in Hb by (done || by apply (gn_dir _ _ _ _ _ Hlk)). split; [done|]. by apply (belongs_taken C C' (dnode C i)). }
  intros i j b Hi Hj Hdi Hdj Hne Ht Hb Hb'. pose proof (Old i Hi Hdi) as Ti. pose proof (Old j Hj Hdj) as Tj.
  rewrite (gained_is_dir i Ti) in Hdi. rewrite (gained_is_dir j Tj) in Hdj.
  destruct (decide (i = p)) as [->|Hi']; [|destruct (decide (j = p)) as [->|Hj']].
  - destruct (B j b Tj ltac:(done) Hdj Hb' Ht) as [Bj Tb].
    apply (gn_fresh _ _ _ _ _ Hlk b Tb); [|exact Hb]. by apply (A j p).
  - destruct (B i b Ti Hi' Hdi Hb Ht) as [Bi Tb]. apply (gn_fresh _ _ _ _ _ Hlk b Tb); [|exact Hb']. by apply (A i p).
  - destruct (B i b Ti Hi' Hdi Hb Ht) as [Bi Tb]. destruct (B j b Tj Hj' Hdj Hb' Ht) as [Bj _]. by apply (A i j b).
Qed.
End gained.
End tree.
