(* ===== verification/Pipe.v ===== *)
(** * kernel/pipe.c: pipes

    A pipe is a [struct pipe] in a page of RAM; its lock is [LKpipe] of its
    address.  [pipealloc] is with the file table it allocates from. *)

From S2P Require Import Prelude Param Mem CString Kernel Spinlock Kalloc Sched Sleeplock Vm PageTable UserCopy.
Open Scope Z_scope.

Definition PIPESIZE : Z := 512.

(** Offsets in [struct pipe], after its 24-byte [struct spinlock]. *)
Definition pi_data : Z := 24.
Definition pi_nread : Z := 536.
Definition pi_nwrite : Z := 540.
Definition pi_readopen : Z := 544.
Definition pi_writeopen : Z := 548.

Definition load32 (a : Z) : K Z := gets (fun s => ld32 (k_mem s) a).
Definition store32 (a v : Z) : K unit := modify_mem (fun m => st32 m a v).

Section pipe.
Context `{L : Linker}.

Definition pipeclose (pi : Z) (writable : bool) : K unit :=
  do! acquire (LKpipe pi);
  do! (if writable then
         do! store32 (pi + pi_writeopen) 0;
         wakeup (CHpread pi)
       else
         do! store32 (pi + pi_readopen) 0;
         wakeup (CHpwrite pi));
  let! ro := load32 (pi + pi_readopen) in
  let! wo := load32 (pi + pi_writeopen) in
  if (ro =? 0) && (wo =? 0) then
    do! release (LKpipe pi);
    kfree pi
  else release (LKpipe pi).

(** [pi->data[pi->nwrite++ % PIPESIZE] = ch] *)
Definition pipe_put (pi ch : Z) : K unit :=
  let! nw := load32 (pi + pi_nwrite) in
  do! store32 (pi + pi_nwrite) (nw + 1);
  modify_mem (fun m => st8 m (pi + pi_data + nw mod PIPESIZE) ch).

(** [pi->data[pi->nread++ % PIPESIZE]] *)
Definition pipe_get (pi : Z) : K Z :=
  let! nr := load32 (pi + pi_nread) in
  do! store32 (pi + pi_nread) (nr + 1);
  gets (fun s => ld8 (k_mem s) (pi + pi_data + nr mod PIPESIZE)).

(** The loop of [pipewrite]: how many bytes were written, [None] when it
    returned -1.  An iteration writes a byte or sleeps. *)
Fixpoint pipewrite_loop (fuel : nat) (pr : nat) (pi addr i n : Z) : K (option Z) :=
  match fuel with
  | O => fun _ => NoFuel
  | S fuel =>
    if i <? n then
      let! ro := load32 (pi + pi_readopen) in
      let! k := (if ro =? 0 then kret 1 else killed pr) in
      if negb (k =? 0) then
        do! release (LKpipe pi);
        kret None
      else
      let! nw := load32 (pi + pi_nwrite) in
      let! nr := load32 (pi + pi_nread) in
      if nw =? u32 (nr + PIPESIZE) then
        do! wakeup (CHpread pi);
        do! sleep (CHpwrite pi) (LKpipe pi);
        pipewrite_loop fuel pr pi addr i n
      else
        let! pt := gets (fun s => p_pagetable (proc_at s pr)) in
        let! (r, ch) := copyin pt (u64 (addr + i)) 1 in
        if r =? -1 then kret (Some i) else
        do! pipe_put pi (hd 0 ch);
        pipewrite_loop fuel pr pi addr (i + 1) n
    else kret (Some i)
  end.

Definition pipewrite (pi addr n : Z) : K Z :=
  let! pr := curproc in
  do! acquire (LKpipe pi);
  let! r := pipewrite_loop (wakeups + S (Z.to_nat n)) pr pi addr 0 n in
  match r with
  | None => kret (-1)
  | Some i =>
    do! wakeup (CHpread pi);
    do! release (LKpipe pi);
    kret i
  end.

(** [while(pi->nread == pi->nwrite && pi->writeopen)]: [false] when the
    process was killed. *)
Fixpoint piperead_wait (fuel : nat) (pr : nat) (pi : Z) : K bool :=
  match fuel with
  | O => fun _ => NoFuel
  | S fuel =>
    let! nr := load32 (pi + pi_nread) in
    let! nw := load32 (pi + pi_nwrite) in
    let! wo := load32 (pi + pi_writeopen) in
    if (nr =? nw) && negb (wo =? 0) then
      let! k := killed pr in
      if negb (k =? 0) then
        do! release (LKpipe pi);
        kret false
      else
        do! sleep (CHpread pi) (LKpipe pi);
        piperead_wait fuel pr pi
    else kret true
  end.

Fixpoint piperead_loop (fuel : nat) (pr : nat) (pi addr i n : Z) : K Z :=
  match fuel with
  | O => fun _ => NoFuel
  | S fuel =>
    if i <? n then
      let! nr := load32 (pi + pi_nread) in
      let! nw := load32 (pi + pi_nwrite) in
      if nr =? nw then kret i else
      let! ch := pipe_get pi in
      let! pt := gets (fun s => p_pagetable (proc_at s pr)) in
      let! r := copyout pt (u64 (addr + i)) [ch] in
      if r =? -1 then kret i else
      piperead_loop fuel pr pi addr (i + 1) n
    else kret i
  end.

Definition piperead (pi addr n : Z) : K Z :=
  let! pr := curproc in
  do! acquire (LKpipe pi);
  let! ok := piperead_wait wakeups pr pi in
  if negb ok then kret (-1) else
  let! i := piperead_loop (S (Z.to_nat n)) pr pi addr 0 n in
  do! wakeup (CHpwrite pi);
  do! release (LKpipe pi);
  kret i.

End pipe.
