(* ===== verification/PipeQueue.v ===== *)
(** * Pipes are bounded queues

    The contract of kernel/pipe.c: the ring buffer of a pipe, with its two
    32-bit counters that wrap around, is a queue of at most [PIPESIZE] bytes.
    [pipewrite] appends the caller's bytes and [piperead] takes bytes from
    the front. *)

From S2P Require Import Prelude Param Mem CString Kernel Spinlock Kalloc Sched Sleeplock Vm PageTable UserCopy Pipe.
Open Scope Z_scope.

(** ** The queue in memory *)

Definition slot (pi i : Z) : Z := pi + pi_data + i mod PIPESIZE.

(** The pipe at [pi] holds the bytes [q], oldest first. *)
Record pipe_is (m : memory) (pi : Z) (q : list Z) : Prop := {
  pq_size : Z.of_nat (length q) <= PIPESIZE;
  pq_nread : 0 <= ld32 m (pi + pi_nread) < 2 ^ 32;
  pq_nwrite : ld32 m (pi + pi_nwrite) = u32 (ld32 m (pi + pi_nread) + Z.of_nat (length q));
  pq_bytes i b : q !! i = Some b -> ld8 m (slot pi (ld32 m (pi + pi_nread) + Z.of_nat i)) = b
}.

(** Memory that agrees on the structure holds the same queue. *)
Definition same_pipe (pi : Z) (m m' : memory) : Prop :=
  forall a, pi <= a < pi + PGSIZE -> ld8 m' a = ld8 m a.

Lemma slot_range pi i : pi + 24 <= slot pi i < pi + 536.
Proof. unfold slot, pi_data, PIPESIZE. pose proof (Z.mod_pos_bound i 512). lia. Qed.

(** The counters wrap at a multiple of the size of the ring. *)
Lemma slot_u32 pi i : slot pi (u32 i) = slot pi i.
Proof. unfold slot, u32, PIPESIZE. f_equal. zlia. Qed.

Lemma slot_u32_add pi i j : slot pi (u32 i + j) = slot pi (i + j).
Proof. unfold slot, u32, PIPESIZE. f_equal. zlia. Qed.

Lemma slot_inj pi i j : slot pi i = slot pi j -> - PIPESIZE < i - j < PIPESIZE -> i = j.
Proof. unfold slot, PIPESIZE. intros. zlia. Qed.

Lemma same_pipe_field pi m m' off :
  same_pipe pi m m' -> 0 <= off -> off + 4 <= PGSIZE -> ld32 m' (pi + off) = ld32 m (pi + off).
Proof. intros H H1 H2. apply ld_ext. intros b Hb. apply H. simpl in Hb. lia. Qed.

Lemma pipe_is_same pi m m' q : same_pipe pi m m' -> pipe_is m pi q -> pipe_is m' pi q.
Proof.
  intros Hs [H1 H2 H3 H4].
  assert (En := same_pipe_field pi m m' pi_nread Hs ltac:(unfold pi_nread; lia) ltac:(unfold pi_nread, PGSIZE; lia)).
  assert (Ew := same_pipe_field pi m m' pi_nwrite Hs ltac:(unfold pi_nwrite; lia) ltac:(unfold pi_nwrite, PGSIZE; lia)).
  split; rewrite ?En, ?Ew; try done. intros i b Hi. rewrite Hs; [by apply H4|].
  pose proof (slot_range pi (ld32 m (pi + pi_nread) + Z.of_nat i)). unfold PGSIZE. lia.
Qed.

(** The memory after [pipe_put] and [pipe_get]. *)
Definition put_mem (m : memory) (pi b : Z) : memory :=
  let nw := ld32 m (pi + pi_nwrite) in
  st8 (st32 m (pi + pi_nwrite) (nw + 1)) (slot pi nw) b.

Definition get_mem (m : memory) (pi : Z) : memory :=
  st32 m (pi + pi_nread) (ld32 m (pi + pi_nread) + 1).

Lemma ld32_put m pi b off :
  pi_nread <= off -> ld32 (put_mem m pi b) (pi + off) = ld32 (st32 m (pi + pi_nwrite) (ld32 m (pi + pi_nwrite) + 1)) (pi + off).
Proof.
  intros Ho. apply ld_ext. intros a Ha. apply ld8_st8_ne.
  pose proof (slot_range pi (ld32 m (pi + pi_nwrite))). unfold pi_nread in Ho. simpl in Ha. lia.
Qed.

Lemma put_mem_is m pi q b :
  pipe_is m pi q -> Z.of_nat (length q) < PIPESIZE -> 0 <= b < 256 -> pipe_is (put_mem m pi b) pi (q ++ [b]).
Proof.
  intros [H1 H2 H3 H4] Hlt Hb.
  assert (En : ld32 (put_mem m pi b) (pi + pi_nread) = ld32 m (pi + pi_nread)).
  { rewrite ld32_put by lia. apply ld_st_ne. unfold pi_nread, pi_nwrite. lia. }
  assert (Ew : ld32 (put_mem m pi b) (pi + pi_nwrite) = u32 (ld32 m (pi + pi_nwrite) + 1)).
  { rewrite ld32_put by (unfold pi_nread, pi_nwrite; lia). rewrite ld_st_eq. done. }
  set (nr := ld32 m (pi + pi_nread)) in *.
  split; rewrite ?En, ?Ew, ?length_app; cbn [length]; [lia|done| |].
  - rewrite H3. unfold u32. rewrite Zplus_mod_idemp_l. f_equal. lia.
  - intros i x Hi. unfold put_mem. rewrite ld8_st8, H3, slot_u32.
    destruct (Z.eqb_spec (slot pi (nr + Z.of_nat (length q))) (slot pi (nr + Z.of_nat i))) as [E|E].
    + pose proof (lookup_lt_Some _ _ _ Hi) as Hl. rewrite length_app in Hl. simpl in Hl.
      apply slot_inj in E; [|lia]. assert (i = length q) as -> by lia.
      rewrite lookup_app_r, Nat.sub_diag in Hi by lia. injection Hi as <-. by apply u8_small.
    + rewrite lookup_app_l in Hi.
      * rewrite ld8_st_out; [by apply H4|]. pose proof (slot_range pi (nr + Z.of_nat i)). unfold pi_nwrite. lia.
      * pose proof (lookup_lt_Some _ _ _ Hi) as Hl. rewrite length_app in Hl. simpl in Hl.
        destruct (decide (i = length q)) as [->|]; [done|lia].
Qed.

Lemma get_mem_is m pi q b :
  pipe_is m pi (b :: q) -> pipe_is (get_mem m pi) pi q /\
    ld8 (get_mem m pi) (slot pi (ld32 m (pi + pi_nread))) = b.
Proof.
  intros [H1 H2 H3 H4]. set (nr := ld32 m (pi + pi_nread)) in *. simpl length in *.
  assert (Eb : forall i, ld8 (get_mem m pi) (slot pi i) = ld8 m (slot pi i)).
  { intros i. unfold get_mem. rewrite ld8_st_out; [done|]. pose proof (slot_range pi i). unfold pi_nread. lia. }
  assert (En : ld32 (get_mem m pi) (pi + pi_nread) = u32 (nr + 1)) by (unfold get_mem; by rewrite ld_st_eq).
  assert (Ew : ld32 (get_mem m pi) (pi + pi_nwrite) = ld32 m (pi + pi_nwrite)).
  { apply ld_st_ne. unfold pi_nread, pi_nwrite. lia. }
  split.
  - split; rewrite ?En, ?Ew; [lia|apply u32_range| |].
    + rewrite H3. unfold u32. rewrite Zplus_mod_idemp_l. f_equal. lia.
    + intros i x Hi. rewrite Eb, slot_u32_add. rewrite <- (H4 (S i) x Hi). do 2 f_equal. lia.
  - rewrite Eb. rewrite <- (H4 0%nat b eq_refl). by rewrite Z.add_0_r.
Qed.

(** The counters tell the full and the empty queue. *)
Lemma full_iff m pi q : pipe_is m pi q ->
  ld32 m (pi + pi_nwrite) = u32 (ld32 m (pi + pi_nread) + PIPESIZE) <-> Z.of_nat (length q) = PIPESIZE.
Proof. intros [H1 H2 H3 _]. rewrite H3. unfold u32, PIPESIZE in *. split; intros; zlia. Qed.

Lemma empty_iff m pi q : pipe_is m pi q ->
  ld32 m (pi + pi_nread) = ld32 m (pi + pi_nwrite) <-> q = [].
Proof.
  intros [H1 H2 H3 _]. rewrite H3. unfold u32, PIPESIZE in *. split.
  - intros E. apply nil_length_inv. zlia.
  - intros ->. simpl. zlia.
Qed.

(** Only the structure of the pipe has changed. *)
Definition outside_pipe (pi : Z) (m m' : memory) : Prop :=
  forall a, a < pi \/ pi + PGSIZE <= a -> ld8 m' a = ld8 m a.

Lemma put_mem_outside m pi b : outside_pipe pi m (put_mem m pi b).
Proof.
  intros a Ha. unfold put_mem. pose proof (slot_range pi (ld32 m (pi + pi_nwrite))). unfold PGSIZE in Ha.
  rewrite ld8_st8_ne by lia. apply ld8_st_out. unfold pi_nwrite. lia.
Qed.

Lemma get_mem_outside m pi : outside_pipe pi m (get_mem m pi).
Proof. intros a Ha. unfold get_mem, PGSIZE in *. apply ld8_st_out. unfold pi_nread. lia. Qed.

Lemma outside_pipe_trans pi m1 m2 m3 : outside_pipe pi m1 m2 -> outside_pipe pi m2 m3 -> outside_pipe pi m1 m3.
Proof. intros H1 H2 a Ha. by rewrite H2, H1. Qed.

(** ** The caller's memory *)

Section loops.
Context `{L : Linker, !LinkerOk}.

(** The caller's [n] bytes at [addr] and its page tables are not in the
    page of the pipe. *)
Record apart (m : memory) (pi root : Z) (l : list Z) (addr n : Z) : Prop := {
  ap_pt : pt_ok m root l;
  ap_user : private m root addr n;
  ap_tab q : is_node m root q -> q + PGSIZE <= pi \/ pi + PGSIZE <= q;
  ap_bytes x : addr <= x < addr + n -> uaddr m root x < pi \/ pi + PGSIZE <= uaddr m root x
}.

Lemma apart_same m m' pi root l addr n :
  same_tables root m m' -> apart m pi root l addr n -> apart m' pi root l addr n.
Proof.
  intros Hs [H1 H2 H3 H4]. split.
  - by eapply same_tables_pt_ok.
  - by eapply private_same.
  - intros q Hq. apply H3. by rewrite <- (is_node_ext m m' root q (proj1 Hs)).
  - intros x Hx. rewrite (same_tables_uaddr root m m') by done. by apply H4.
Qed.

Lemma outside_tables m m' pi root l addr n :
  outside_pipe pi m m' -> apart m pi root l addr n -> same_tables root m m'.
Proof.
  intros Ho Ha.
  assert (He : forall u j, is_node m root u -> idx j -> ent m' u j = ent m u j).
  { intros u j Hu Hj. apply ld_ext. intros b Hb. simpl in Hb. apply Ho. unfold idx in Hj.
    destruct (ap_tab _ _ _ _ _ _ Ha u Hu); unfold PGSIZE in *; lia. }
  split; [intros; by apply node_ext|intros; by apply xpte_ext].
Qed.

Lemma outside_ubytes m m' pi root l addr n va k :
  outside_pipe pi m m' -> apart m pi root l addr n -> addr <= va -> va + Z.of_nat k <= addr + n ->
  ubytes m' root va k = ubytes m root va k.
Proof.
  intros Ho Ha H1 H2. pose proof (outside_tables _ _ _ _ _ _ _ Ho Ha) as Hs.
  revert va H1 H2. induction k as [|k IH]; intros va H1 H2; simpl; [done|].
  rewrite (same_tables_uaddr root m m') by done. f_equal; [|apply IH; lia].
  apply Ho. apply (ap_bytes _ _ _ _ _ _ Ha). lia.
Qed.

Context (me : nat) (pi root : Z) (l : list Z) (addr n : Z).

(** A state inside the critical section of the pipe. *)
Record inside (t : kst) : Prop := {
  in_nested : nested t;
  in_free : is_free (LKproc me) t;
  in_root : p_pagetable (proc_at t me) = root;
  in_alive : p_killed (proc_at t me) = 0
}.

(** A write of [k] bytes that fit, from byte [i] of the caller's on. *)
Lemma pipewrite_loop_run k fuel t m q i :
  inside t -> apart m pi root l addr n -> pipe_is m pi q -> ld32 m (pi + pi_readopen) <> 0 ->
  0 <= i -> i + Z.of_nat k = n -> Z.of_nat (length q + k) <= PIPESIZE -> (k < fuel)%nat -> bytes_ok (ubytes m root (addr + i) k) ->
  exists m', pipewrite_loop fuel me pi addr i n (set_mem m t) = Ret (Some n) (set_mem m' t) /\
    pipe_is m' pi (q ++ ubytes m root (addr + i) k) /\ outside_pipe pi m m' /\
    (forall off, pi_readopen <= off < PGSIZE - 4 -> ld32 m' (pi + off) = ld32 m (pi + off)).
Proof.
  intros Ht. revert fuel m q i. induction k as [|k IH]; intros fuel m q i Ha Hq Hro Hi Hk Hsz Hf Hb;
    (destruct fuel as [|fuel]; [lia|]); cbn [pipewrite_loop].
  - assert (i = n) as -> by lia. rewrite Z.ltb_irrefl. exists m. simpl. rewrite app_nil_r. split_and!; done.
  - destruct (Z.ltb_spec i n) as [Hin|]; [|lia]. unfold load32. rewrite kbind_gets. change (k_mem (set_mem m t)) with m.
    destruct (Z.eqb_spec (ld32 m (pi + pi_readopen)) 0) as [|_]; [done|].
    assert (R : killed me (set_mem m t) = Ret 0 (set_mem m t)).
    { rewrite killed_nested; [|apply Ht|apply Ht]. f_equal. exact (in_alive _ Ht). }
    krun R. cbn [Z.eqb negb]. rewrite !kbind_gets. change (k_mem (set_mem m t)) with m.
    assert (Hnf : ld32 m (pi + pi_nwrite) <> u32 (ld32 m (pi + pi_nread) + PIPESIZE)).
    { rewrite (full_iff m pi q Hq). lia. }
    apply Z.eqb_neq in Hnf. rewrite Hnf. rewrite kbind_gets.
    change (proc_at (set_mem m t) me) with (proc_at t me). rewrite (in_root _ Ht).
    pose proof (ap_user _ _ _ _ _ _ Ha) as Hp. pose proof (pv_user _ _ _ _ Hp) as (Hva & Htop & Hu).
    assert (Hu64 : u64 (addr + i) = addr + i).
    { apply u64_small. change MAXVA with (2 ^ 38) in Htop. lia. }
    rewrite Hu64.
    assert (Rc : copyin root (addr + i) 1 (set_mem m t) = Ret (0, ubytes m root (addr + i) 1) (set_mem m t)).
    { apply (copyin_run root (addr + i) 1 (set_mem m t) l); [apply Ha|lia|].
      split; [lia|]. split; [lia|]. intros x Hx. apply Hu. lia. }
    krun Rc. cbn [ubytes hd]. cbn [ubytes] in Hb. apply Forall_cons in Hb as [Hb0 Hb].
    set (b := ld8 m (uaddr m root (addr + i))) in *.
    change (0 =? -1) with false. cbv iota.
    assert (Rp : pipe_put pi b (set_mem m t) = Ret tt (set_mem (put_mem m pi b) t)) by reflexivity.
    krun Rp.
    assert (Hq1 := put_mem_is m pi q b Hq ltac:(lia) Hb0).
    assert (Ho := put_mem_outside m pi b).
    assert (Hoff : forall off, pi_readopen <= off < PGSIZE - 4 -> ld32 (put_mem m pi b) (pi + off) = ld32 m (pi + off)).
    { intros off Hoff. rewrite ld32_put by (unfold pi_nread, pi_readopen in *; lia).
      apply ld_st_ne. unfold pi_nwrite, pi_readopen in *. lia. }
    assert (Eu : ubytes (put_mem m pi b) root (addr + i + 1) k = ubytes m root (addr + i + 1) k).
    { eapply outside_ubytes; [exact Ho|exact Ha|lia|lia]. }
    destruct (IH fuel (put_mem m pi b) (q ++ [b]) (i + 1)) as (m' & R' & Hq' & Ho' & Hoff').
    { eapply apart_same; [|exact Ha]. by eapply outside_tables. }
    { done. } { rewrite Hoff; [done|unfold pi_readopen, PGSIZE; lia]. } { lia. } { lia. }
    { rewrite length_app. simpl. lia. } { lia. } { by rewrite Z.add_assoc, Eu. }
    exists m'. split; [exact R'|]. rewrite <- app_assoc in Hq'. rewrite Z.add_assoc, Eu in Hq'. split; [exact Hq'|].
    split; [by eapply outside_pipe_trans|]. intros off Hx. by rewrite Hoff', Hoff.
Qed.

(** A read that takes [q1] from the front of the queue: as many bytes as are
    wanted, or all there are. *)
Lemma piperead_loop_run q1 q2 fuel t m i :
  inside t -> apart m pi root l addr n -> pipe_is m pi (q1 ++ q2) -> bytes_ok q1 ->
  0 <= i -> i + Z.of_nat (length q1) <= n -> i + Z.of_nat (length q1) = n \/ q2 = [] ->
  (length q1 < fuel)%nat ->
  exists m', piperead_loop fuel me pi addr i n (set_mem m t) =
      Ret (i + Z.of_nat (length q1)) (set_mem m' t) /\
    pipe_is m' pi q2 /\ same_tables root m m' /\
    ubytes m' root (addr + i) (length q1) = q1 /\
    (forall a, a < pi \/ pi + PGSIZE <= a ->
       (forall x, addr + i <= x < addr + i + Z.of_nat (length q1) -> a <> uaddr m root x) -> ld8 m' a = ld8 m a).
Proof.
  intros Ht. revert fuel m i. induction q1 as [|b q1 IH]; intros fuel m i Ha Hq Hb Hi Hle Hend Hf;
    (destruct fuel as [|fuel]; [simpl in Hf; lia|]); cbn [piperead_loop]; cbn [length app] in *.
  - exists m. rewrite Z.add_0_r in *. split; [|split_and!; [done|by split|done|done]].
    destruct (Z.ltb_spec i n) as [Hin|]; [|done]. unfold load32. rewrite !kbind_gets.
    change (k_mem (set_mem m t)) with m. destruct Hend as [|Hend]; [lia|].
    apply (empty_iff m pi q2 Hq) in Hend. by rewrite Hend, Z.eqb_refl.
  - destruct (Z.ltb_spec i n) as [Hin|]; [|lia]. unfold load32. rewrite !kbind_gets.
    change (k_mem (set_mem m t)) with m.
    assert (Hne : ld32 m (pi + pi_nread) <> ld32 m (pi + pi_nwrite)) by (by rewrite (empty_iff m pi _ Hq)).
    apply Z.eqb_neq in Hne. rewrite Hne. apply Forall_cons in Hb as [Hb0 Hb].
    destruct (get_mem_is m pi _ b Hq) as [Hq1 Eb]. set (m1 := get_mem m pi) in *.
    assert (Rg : pipe_get pi (set_mem m t) = Ret b (set_mem m1 t)).
    { unfold pipe_get. fold m1. transitivity (Ret (ld8 m1 (slot pi (ld32 m (pi + pi_nread)))) (set_mem m1 t)); [reflexivity|].
      by rewrite Eb. }
    krun Rg. rewrite kbind_gets. change (proc_at (set_mem m1 t) me) with (proc_at t me). rewrite (in_root _ Ht).
    assert (Ho1 := get_mem_outside m pi). fold m1 in Ho1.
    assert (Hs1 := outside_tables _ _ _ _ _ _ _ Ho1 Ha). assert (Ha1 := apart_same _ _ _ _ _ _ _ Hs1 Ha).
    pose proof (ap_user _ _ _ _ _ _ Ha1) as Hp. pose proof (pv_user _ _ _ _ Hp) as (Hva & Htop & _).
    assert (Hu64 : u64 (addr + i) = addr + i) by (apply u64_small; change MAXVA with (2 ^ 38) in Htop; lia).
    rewrite Hu64.
    destruct (copyout_run root (addr + i) [b] (set_mem m1 t) l) as (m2 & Rc & Hs2 & Hu2 & Hf2 & _).
    { apply Ha1. } { eapply private_sub; [exact Hp|lia|simpl; lia|lia]. } { by apply Forall_singleton. }
    change (k_mem (set_mem m1 t)) with m1 in *. change (set_mem m2 (set_mem m1 t)) with (set_mem m2 t) in Rc.
    krun Rc. change (0 =? -1) with false. cbv iota.
    assert (Hub : forall x, addr <= x < addr + n -> uaddr m1 root x < pi \/ pi + PGSIZE <= uaddr m1 root x)
      by apply (ap_bytes _ _ _ _ _ _ Ha1).
    assert (Hsp : same_pipe pi m1 m2).
    { intros a Hpa. apply Hf2. intros x Hx ->. simpl in Hx. specialize (Hub x ltac:(lia)). lia. }
    destruct (IH fuel m2 (i + 1)) as (m' & R' & Hq' & Hs' & Hu' & Hf').
    { by eapply apart_same. } { by eapply pipe_is_same. } { done. } { lia. } { lia. }
    { destruct Hend; [left; lia|by right]. } { lia. }
    exists m'. split; [|split; [done|split; [|split]]].
    + replace (i + Z.of_nat (S (length q1))) with (i + 1 + Z.of_nat (length q1)) by lia. exact R'.
    + eapply same_tables_trans; [exact Hs1|]. by eapply same_tables_trans.
    + cbn [ubytes]. rewrite Z.add_assoc in Hu'. rewrite Hu'. f_equal.
      rewrite (same_tables_uaddr root m2 m'), (same_tables_uaddr root m1 m2) by done. rewrite Hf'.
      * cbn [ubytes] in Hu2. injection Hu2 as Hu2. by rewrite <- (same_tables_uaddr root m1 m2).
      * apply Hub. lia.
      * intros x Hx. rewrite (same_tables_uaddr root m1 m2) by done. intros E.
        apply (pv_inj _ _ _ _ Hp) in E; lia.
    + intros a Hpa Hua. rewrite Hf'; [rewrite Hf2; [by apply Ho1|]|done|].
      * intros x Hx. rewrite (same_tables_uaddr root m m1) by done. apply Hua. simpl in Hx. lia.
      * intros x Hx. rewrite (same_tables_uaddr root m1 m2), (same_tables_uaddr root m m1) by done. apply Hua. lia.
Qed.

(** ** The operations *)

(** A process outside critical sections that may use the pipe. *)
Record pipe_user (s : kst) : Prop := {
  pu_sched : sched_ok s;
  pu_lock : is_free (LKpipe pi) s;
  pu_me : c_proc (mycpu s) = Some me;
  pu_range : (me < NPROC)%nat;
  pu_root : p_pagetable (proc_at s me) = root;
  pu_alive : p_killed (proc_at s me) = 0
}.

(** The state after the operation: [ch] was woken up and memory is [m']. *)
Definition pipe_done (ch : chan) (m' : memory) (s : kst) : kst :=
  set_procs (imap (woken ch (Some me)) (k_procs s)) (set_mem m' (norm s)).

Section operations.
Context (s : kst).
Hypothesis Hu : pipe_user s.

Let t := acquired (LKpipe pi) s.
Let Hc : cpu_ok s := so_cpu _ (pu_sched _ Hu).

Lemma pipe_inside : inside t.
Proof using Hu.
  split.
  - by apply nested_acquired.
  - unfold t, is_free. simpl. rewrite lookup_insert_ne by done. apply (so_free _ (pu_sched _ Hu)). apply Hu.
  - apply Hu.
  - apply Hu.
Qed.

(** [struct proc *pr = myproc(); acquire(&pi->lock);] *)
Lemma pipe_enter {A} (f : nat -> K A) :
  (let! pr := curproc in do! acquire (LKpipe pi); f pr) s = f me t.
Proof using Hu.
  assert (R : curproc s = Ret me (norm s)).
  { unfold curproc. krun (myproc_run s Hc). by rewrite (pu_me _ Hu). }
  krun R. krun (acquire_run (LKpipe pi) (norm s) (cpu_ok_norm s Hc) (pu_lock _ Hu)).
  by rewrite acquired_norm.
Qed.

(** [wakeup(ch); release(&pi->lock); return i;] *)
Lemma pipe_leave ch m' (i : Z) :
  (do! wakeup ch; do! release (LKpipe pi); kret i) (set_mem m' t) = Ret i (pipe_done ch m' s).
Proof using Hu.
  assert (R : wakeup ch (set_mem m' t) = Ret tt (set_procs (imap (woken ch (Some me)) (k_procs s)) (set_mem m' t))).
  { rewrite <- (pu_me _ Hu). apply wakeup_acquired; try done; [apply Hu|].
    intros j Hj. unfold is_free. simpl. rewrite lookup_insert_ne by done. by apply (so_free _ (pu_sched _ Hu)). }
  krun R. erewrite obind_Ret by (apply (release_after (LKpipe pi) s); try done; apply Hu). reflexivity.
Qed.

End operations.

Lemma bytes_ok_ubytes m va k : mem_ok m -> bytes_ok (ubytes m root va k).
Proof. intros Hm. revert va. induction k as [|k IH]; intros va; simpl; constructor; [apply Hm|apply IH]. Qed.

(** C23: a write that fits in the pipe returns the number of bytes and appends
    exactly the caller's bytes to the queue, whatever the values of the
    counters; it wakes the readers and leaves all other memory alone. *)
Theorem pipewrite_appends s q :
  pipe_user s -> apart (k_mem s) pi root l addr n -> mem_ok (k_mem s) ->
  pipe_is (k_mem s) pi q -> ld32 (k_mem s) (pi + pi_readopen) <> 0 ->
  0 <= n -> Z.of_nat (length q) + n <= PIPESIZE ->
  exists m', pipewrite pi addr n s = Ret n (pipe_done (CHpread pi) m' s) /\
    pipe_is m' pi (q ++ ubytes (k_mem s) root addr (Z.to_nat n)) /\ outside_pipe pi (k_mem s) m'.
Proof.
  intros Hu Ha Hm Hq Hro Hn Hsz. unfold pipewrite. rewrite (pipe_enter s Hu).
  destruct (pipewrite_loop_run (Z.to_nat n) (wakeups + S (Z.to_nat n)) (acquired (LKpipe pi) s) (k_mem s) q 0)
    as (m' & R & Hq' & Ho & _); try done; try lia.
  { by apply pipe_inside. }
  { by apply bytes_ok_ubytes. }
  exists m'. rewrite Z.add_0_r in Hq'. split; [|done].
  change (set_mem (k_mem s) (acquired (LKpipe pi) s)) with (acquired (LKpipe pi) s) in R.
  krun R. by apply pipe_leave.
Qed.

(** C24: a read returns the oldest bytes of the queue in their order, as many
    as the caller wants or as there are, and removes exactly them; with an
    empty queue and no writer it returns 0. *)
Theorem piperead_takes s q :
  pipe_user s -> apart (k_mem s) pi root l addr n -> pipe_is (k_mem s) pi q -> bytes_ok q ->
  0 <= n -> q <> [] \/ ld32 (k_mem s) (pi + pi_writeopen) = 0 ->
  let k := Nat.min (Z.to_nat n) (length q) in
  exists m', piperead pi addr n s = Ret (Z.of_nat k) (pipe_done (CHpwrite pi) m' s) /\
    pipe_is m' pi (drop k q) /\ ubytes m' root addr k = take k q.
Proof.
  intros Hu Ha Hq Hb Hn Hne k. unfold piperead. rewrite (pipe_enter s Hu).
  set (t := acquired (LKpipe pi) s).
  assert (Rw : piperead_wait wakeups me pi t = Ret true t).
  { unfold wakeups. cbn [piperead_wait]. unfold load32. rewrite !kbind_gets. change (k_mem t) with (k_mem s).
    destruct Hne as [Hne|Hw]; [|by rewrite Hw, andb_false_r].
    assert (Hn' : ld32 (k_mem s) (pi + pi_nread) <> ld32 (k_mem s) (pi + pi_nwrite)) by (by rewrite (empty_iff _ _ q Hq)).
    apply Z.eqb_neq in Hn'. by rewrite Hn'. }
  krun Rw. cbn [negb].
  destruct (piperead_loop_run (take k q) (drop k q) (S (Z.to_nat n)) t (k_mem s) 0)
    as (m' & R & Hq' & _ & Hu' & _); rewrite ?length_take in *.
  { by apply pipe_inside. } { done. } { by rewrite take_drop. } { by apply Forall_take. }
  { lia. } { lia. } { destruct (decide (Z.to_nat n <= length q)%nat); [left; lia|right]. apply drop_ge. lia. } { lia. }
  exists m'. rewrite Z.add_0_r, Nat.min_l in Hu' by lia. split; [|done].
  change (set_mem (k_mem s) t) with t in R. krun R. rewrite Z.add_0_l, Nat.min_l by lia. by apply pipe_leave.
Qed.
End loops.

(** ** Examples *)

Section demo.
#[local] Existing Instance demo_linker.
#[local] Existing Instance demo_linker_ok.

(** An open empty pipe at [f] whose counters are about to wrap around. *)
Definition demo_pipe_mem (m : memory) (f : Z) : memory :=
  st32 (st32 (st32 m (f + pi_nread) (2 ^ 32 - 3)) (f + pi_nwrite) (2 ^ 32 - 3)) (f + pi_readopen) 1.

Lemma demo_pipe_is m f : pipe_is (demo_pipe_mem m f) f [].
Proof.
  unfold demo_pipe_mem.
  assert (En : ld32 (demo_pipe_mem m f) (f + pi_nread) = 2 ^ 32 - 3).
  { unfold demo_pipe_mem. rewrite 2!ld_st_ne by (unfold pi_nread, pi_nwrite, pi_readopen; lia).
    rewrite ld_st_eq. reflexivity. }
  assert (Ew : ld32 (demo_pipe_mem m f) (f + pi_nwrite) = 2 ^ 32 - 3).
  { unfold demo_pipe_mem. rewrite ld_st_ne by (unfold pi_nread, pi_nwrite, pi_readopen; lia).
    rewrite ld_st_eq. reflexivity. }
  split; fold (demo_pipe_mem m f); rewrite ?En, ?Ew; [done|lia|reflexivity|done].
Qed.

Lemma demo_pipe_outside m f : outside_pipe f m (demo_pipe_mem m f).
Proof.
  intros a Ha. unfold demo_pipe_mem, PGSIZE, pi_nread, pi_nwrite, pi_readopen in *.
  by rewrite 3!ld8_st_out by lia.
Qed.

(** Process 1 of the demonstration, with a page table and the lock of a pipe. *)
Definition demo_piper (root pi : Z) : kst :=
  let p := mkproc RUNNING None 0 0 7 None 0 0 root 0 context0 (replicate NOFILE None) None [] 0 in
  set_procs (<[1%nat := p]> (k_procs demo_ctx))
    (set_locks (<[LKpipe pi := lock_free]> (k_locks demo_ctx)) demo_ctx).

Lemma demo_piper_user root pi m : pipe_user 1 pi root (set_mem m (demo_piper root pi)).
Proof.
  pose proof (ctx_sched _ _ _ demo_ctx_ok) as [H1 H2 H3]. split.
  - split.
    + exact H1.
    + intros i Hi. unfold is_free. cbn [set_mem demo_piper k_locks set_procs set_locks].
      rewrite lookup_insert_ne by discriminate. exact (H2 i Hi).
    + etransitivity; [apply length_insert|exact H3].
  - apply lookup_insert_eq.
  - reflexivity.
  - unfold NPROC. lia.
  - reflexivity.
  - reflexivity.
Qed.

Lemma demo_pipe : exists m pi root l,
  apart m pi root l 4090 6 /\ mem_ok m /\ pipe_is m pi [] /\ ld32 m (pi + pi_readopen) <> 0.
Proof.
  destruct demo_private as (s & root & l & f & Ho & Hp & Hm & Ht & Hx).
  assert (Ha : apart (k_mem s) f root l 4090 6) by (by split).
  exists (demo_pipe_mem (k_mem s) f), f, root, l. split; [|split; [|split]].
  - eapply apart_same; [|exact Ha]. eapply outside_tables; [apply demo_pipe_outside|exact Ha].
  - by repeat apply st_ok.
  - apply demo_pipe_is.
  - unfold demo_pipe_mem. rewrite ld_st_eq. discriminate.
Qed.

Lemma pipewrite_appends_witness : exists pi s m' bs,
  pipewrite pi 4090 6 s = Ret 6 (pipe_done 1 (CHpread pi) m' s) /\ length bs = 6%nat /\ pipe_is m' pi bs.
Proof.
  destruct demo_pipe as (m & pi & root & l & Ha & Hm & Hq & Hro).
  destruct (pipewrite_appends 1 pi root l 4090 6 (set_mem m (demo_piper root pi)) []) as (m' & R & Hq' & _).
  - apply demo_piper_user.
  - exact Ha.
  - exact Hm.
  - exact Hq.
  - exact Hro.
  - lia.
  - simpl. unfold PIPESIZE. lia.
  - eexists pi, _, m', _. split; [exact R|]. split; [|exact Hq']. apply length_ubytes.
Defined.

Lemma piperead_takes_witness : exists pi root s m',
  piperead pi 4090 6 s = Ret 2 (pipe_done 1 (CHpwrite pi) m' s) /\
  ubytes m' root 4090 2 = [104; 105] /\ pipe_is m' pi [].
Proof.
  destruct demo_pipe as (m & pi & root & l & Ha & Hm & Hq & _).
  assert (Hq1 := put_mem_is m pi [] 104 Hq ltac:(unfold PIPESIZE; simpl; lia) ltac:(lia)).
  assert (Hq2 := put_mem_is _ pi _ 105 Hq1 ltac:(unfold PIPESIZE; simpl; lia) ltac:(lia)).
  destruct (piperead_takes 1 pi root l 4090 6 (set_mem (put_mem (put_mem m pi 104) pi 105) (demo_piper root pi))
    [104; 105]) as (m' & R & Hq' & Hu).
  - apply demo_piper_user.
  - eapply apart_same; [|exact Ha]. eapply outside_tables; [|exact Ha].
    eapply outside_pipe_trans; apply put_mem_outside.
  - exact Hq2.
  - repeat constructor; lia.
  - lia.
  - left. discriminate.
  - eexists pi, root, _, m'. split; [exact R|]. split; [exact Hu|exact Hq'].
Defined.
End demo.
