(* ===== verification/File.v ===== *)
(** * kernel/file.c: the open-file table, and [pipealloc] of kernel/pipe.c

    A [struct file] pointer is its index in [ftable.file]. *)

From S2P Require Import Prelude Param Mem CString Kernel Spinlock Kalloc Sched Sleeplock Vm PageTable UserCopy Uart Printf Bio Log Fs Console Pipe.
Open Scope Z_scope.

(** ** Fields of a file *)

Definition file_at (s : kst) (f : nat) : file := default file0 (k_files s !! f).
Definition put_file (f : nat) (g : file -> file) : K unit :=
  modify (fun s => set_files (<[f := g (file_at s f)]> (k_files s)) s).

Definition set_fref (r : Z) (x : file) : file :=
  mkfile (f_type x) r (f_readable x) (f_writable x) (f_pipe x) (f_ip x) (f_off x) (f_major x).
Definition set_ftype (t : fdtype) (x : file) : file :=
  mkfile t (f_ref x) (f_readable x) (f_writable x) (f_pipe x) (f_ip x) (f_off x) (f_major x).
Definition set_fmode (r w : bool) (x : file) : file :=
  mkfile (f_type x) (f_ref x) r w (f_pipe x) (f_ip x) (f_off x) (f_major x).
Definition set_fpipe (p : Z) (x : file) : file :=
  mkfile (f_type x) (f_ref x) (f_readable x) (f_writable x) p (f_ip x) (f_off x) (f_major x).
Definition set_fip (ip : option nat) (x : file) : file :=
  mkfile (f_type x) (f_ref x) (f_readable x) (f_writable x) (f_pipe x) ip (f_off x) (f_major x).
Definition set_foff (o : Z) (x : file) : file :=
  mkfile (f_type x) (f_ref x) (f_readable x) (f_writable x) (f_pipe x) (f_ip x) o (f_major x).
Definition set_fmajor (m : Z) (x : file) : file :=
  mkfile (f_type x) (f_ref x) (f_readable x) (f_writable x) (f_pipe x) (f_ip x) (f_off x) m.

(** [iput(ip)] of a pointer that may be null: dereferencing it would fault. *)
Definition deref {A} (p : option nat) (m : nat -> K A) : K A :=
  match p with
  | Some i => m i
  | None => panic "kerneltrap"
  end.

Section file.
Context `{Dk : Disk, D : Devices, L : Linker}.

(** ** The table *)

Definition fileinit : K unit := initlock LKftable.

(** The first entry with no reference. *)
Fixpoint file_scan (i : nat) (l : list file) : option nat :=
  match l with
  | [] => None
  | f :: l => if f_ref f =? 0 then Some i else file_scan (S i) l
  end.

Definition filealloc : K (option nat) :=
  do! acquire LKftable;
  let! l := gets (fun s => k_files s) in
  match file_scan 0 l with
  | Some f =>
    do! put_file f (set_fref 1);
    do! release LKftable;
    kret (Some f)
  | None =>
    do! release LKftable;
    kret None
  end.

Definition filedup (f : nat) : K nat :=
  do! acquire LKftable;
  let! x := gets (fun s => file_at s f) in
  if f_ref x <? 1 then panic "filedup" else
  do! put_file f (fun x => set_fref (f_ref x + 1) x);
  do! release LKftable;
  kret f.

Definition fileclose (f : nat) : K unit :=
  do! acquire LKftable;
  let! x := gets (fun s => file_at s f) in
  if f_ref x <? 1 then panic "fileclose" else
  do! put_file f (fun x => set_fref (f_ref x - 1) x);
  let! ff := gets (fun s => file_at s f) in
  if f_ref ff >? 0 then release LKftable else
  do! put_file f (set_fref 0);
  do! put_file f (set_ftype FD_NONE);
  do! release LKftable;
  match f_type ff with
  | FD_PIPE => pipeclose (f_pipe ff) (f_writable ff)
  | FD_INODE | FD_DEVICE =>
    do! begin_op;
    do! deref (f_ip ff) iput;
    end_op
  | FD_NONE => kret tt
  end.

(** ** Operations on an open file *)

Definition filestat (f : nat) (addr : Z) : K Z :=
  let! p := curproc in
  let! x := gets (fun s => file_at s f) in
  match f_type x with
  | FD_INODE | FD_DEVICE =>
    do! ilock (f_ip x);
    let! st := deref (f_ip x) stati in
    do! iunlock (f_ip x);
    let! pt := gets (fun s => p_pagetable (proc_at s p)) in
    let! r := copyout pt addr st in
    if r <? 0 then kret (-1) else kret 0
  | _ => kret (-1)
  end.

(** [devsw[major]], when [major] is in range and has functions. *)
Definition devsw_at (s : kst) (major : Z) : option device :=
  if (major <? 0) || (major >=? NDEV) then None
  else default None (k_devsw s !! Z.to_nat major).

Definition fileread (f : nat) (addr n : Z) : K Z :=
  let! x := gets (fun s => file_at s f) in
  if negb (f_readable x) then kret (-1) else
  match f_type x with
  | FD_PIPE => piperead (f_pipe x) addr n
  | FD_DEVICE =>
    let! d := gets (fun s => devsw_at s (f_major x)) in
    match d with
    | None => kret (-1)
    | Some DEVconsole => consoleread (ToUser addr) n
    end
  | FD_INODE =>
    do! ilock (f_ip x);
    let! x := gets (fun s => file_at s f) in
    let! (r, _) := deref (f_ip x) (fun ip => readi ip (ToUser addr) (f_off x) (u32 n)) in
    do! if! r >? 0 then put_file f (fun x => set_foff (u32 (f_off x + r)) x);
    do! iunlock (f_ip x);
    kret r
  | FD_NONE => panic "fileread"
  end.

(** [max] of [filewrite] *)
Definition write_max : Z := (MAXOPBLOCKS - 1 - 1 - 2) / 2 * BSIZE.

Fixpoint filewrite_loop (fuel : nat) (f : nat) (addr i n : Z) : K Z :=
  match fuel with
  | O => fun _ => NoFuel
  | S fuel =>
    if i <? n then
      let n1 := Z.min (n - i) write_max in
      do! begin_op;
      let! x := gets (fun s => file_at s f) in
      do! ilock (f_ip x);
      let! x := gets (fun s => file_at s f) in
      let! r := deref (f_ip x) (fun ip => writei ip (FromUser (u64 (addr + i))) (f_off x) n1) in
      do! if! r >? 0 then put_file f (fun x => set_foff (u32 (f_off x + r)) x);
      do! iunlock (f_ip x);
      do! end_op;
      if negb (r =? n1) then kret i else
      filewrite_loop fuel f addr (i + r) n
    else kret i
  end.

Definition filewrite (f : nat) (addr n : Z) : K Z :=
  let! x := gets (fun s => file_at s f) in
  if negb (f_writable x) then kret (-1) else
  match f_type x with
  | FD_PIPE => pipewrite (f_pipe x) addr n
  | FD_DEVICE =>
    let! d := gets (fun s => devsw_at s (f_major x)) in
    match d with
    | None => kret (-1)
    | Some DEVconsole => consolewrite (FromUser addr) n
    end
  | FD_INODE =>
    let! i := filewrite_loop (S (S (Z.to_nat (n / write_max)))) f addr 0 n in
    kret (if i =? n then n else -1)
  | FD_NONE => panic "filewrite"
  end.

(** ** [pipealloc] of pipe.c *)

(** The code at [bad:], when there is no page for the pipe yet. *)
Definition pipealloc_bad (f0 f1 : option nat) : K (option (nat * nat)) :=
  do! match f0 with Some f => fileclose f | None => kret tt end;
  do! match f1 with Some f => fileclose f | None => kret tt end;
  kret None.

(** The two files, [None] for -1. *)
Definition pipealloc : K (option (nat * nat)) :=
  let! f0 := filealloc in
  match f0 with
  | None => pipealloc_bad None None
  | Some f0 =>
    let! f1 := filealloc in
    match f1 with
    | None => pipealloc_bad (Some f0) None
    | Some f1 =>
      let! pi := kalloc in
      if pi =? 0 then pipealloc_bad (Some f0) (Some f1) else
      do! store32 (pi + pi_readopen) 1;
      do! store32 (pi + pi_writeopen) 1;
      do! store32 (pi + pi_nwrite) 0;
      do! store32 (pi + pi_nread) 0;
      do! initlock (LKpipe pi);
      do! put_file f0 (set_ftype FD_PIPE);
      do! put_file f0 (set_fmode true false);
      do! put_file f0 (set_fpipe pi);
      do! put_file f1 (set_ftype FD_PIPE);
      do! put_file f1 (set_fmode false true);
      do! put_file f1 (set_fpipe pi);
      kret (Some (f0, f1))
    end
  end.

End file.
