(* ===== verification/Proc.v ===== *)
(** * kernel/proc.c, second part: the life of a process

    [allocproc], [fork], [exit], [wait] and what they use.  A [struct proc]
    pointer is its index in [proc]; a trapframe is a page of RAM. *)

From S2P Require Import Prelude Param Mem CString Kernel Spinlock Kalloc Sched Sleeplock Vm PageTable UserCopy Uart Printf Bio Log Fs Console Pipe File.
Open Scope Z_scope.

(** ** Fields of a process *)

Definition with_xstate (x : Z) (p : proc) : proc :=
  mkproc (p_state p) (p_chan p) (p_killed p) x (p_pid p) (p_parent p) (p_kstack p) (p_sz p)
    (p_pagetable p) (p_trapframe p) (p_context p) (p_ofile p) (p_cwd p) (p_name p)
    (p_mask p).
Definition with_pid (x : Z) (p : proc) : proc :=
  mkproc (p_state p) (p_chan p) (p_killed p) (p_xstate p) x (p_parent p) (p_kstack p)
    (p_sz p) (p_pagetable p) (p_trapframe p) (p_context p) (p_ofile p) (p_cwd p) (p_name p)
    (p_mask p).
Definition with_parent (x : option nat) (p : proc) : proc :=
  mkproc (p_state p) (p_chan p) (p_killed p) (p_xstate p) (p_pid p) x (p_kstack p) (p_sz p)
    (p_pagetable p) (p_trapframe p) (p_context p) (p_ofile p) (p_cwd p) (p_name p)
    (p_mask p).
Definition with_kstack (x : Z) (p : proc) : proc :=
  mkproc (p_state p) (p_chan p) (p_killed p) (p_xstate p) (p_pid p) (p_parent p) x (p_sz p)
    (p_pagetable p) (p_trapframe p) (p_context p) (p_ofile p) (p_cwd p) (p_name p)
    (p_mask p).
Definition with_sz (x : Z) (p : proc) : proc :=
  mkproc (p_state p) (p_chan p) (p_killed p) (p_xstate p) (p_pid p) (p_parent p)
    (p_kstack p) x (p_pagetable p) (p_trapframe p) (p_context p) (p_ofile p) (p_cwd p)
    (p_name p) (p_mask p).
Definition with_pagetable (x : Z) (p : proc) : proc :=
  mkproc (p_state p) (p_chan p) (p_killed p) (p_xstate p) (p_pid p) (p_parent p)
    (p_kstack p) (p_sz p) x (p_trapframe p) (p_context p) (p_ofile p) (p_cwd p) (p_name p)
    (p_mask p).
Definition with_trapframe (x : Z) (p : proc) : proc :=
  mkproc (p_state p) (p_chan p) (p_killed p) (p_xstate p) (p_pid p) (p_parent p)
    (p_kstack p) (p_sz p) (p_pagetable p) x (p_context p) (p_ofile p) (p_cwd p) (p_name p)
    (p_mask p).
Definition with_context (x : context) (p : proc) : proc :=
  mkproc (p_state p) (p_chan p) (p_killed p) (p_xstate p) (p_pid p) (p_parent p)
    (p_kstack p) (p_sz p) (p_pagetable p) (p_trapframe p) x (p_ofile p) (p_cwd p) (p_name p)
    (p_mask p).
Definition with_ofile (x : list (option nat)) (p : proc) : proc :=
  mkproc (p_state p) (p_chan p) (p_killed p) (p_xstate p) (p_pid p) (p_parent p)
    (p_kstack p) (p_sz p) (p_pagetable p) (p_trapframe p) (p_context p) x (p_cwd p)
    (p_name p) (p_mask p).
Definition with_cwd (x : option nat) (p : proc) : proc :=
  mkproc (p_state p) (p_chan p) (p_killed p) (p_xstate p) (p_pid p) (p_parent p)
    (p_kstack p) (p_sz p) (p_pagetable p) (p_trapframe p) (p_context p) (p_ofile p) x
    (p_name p) (p_mask p).
Definition with_name (x : list Z) (p : proc) : proc :=
  mkproc (p_state p) (p_chan p) (p_killed p) (p_xstate p) (p_pid p) (p_parent p)
    (p_kstack p) (p_sz p) (p_pagetable p) (p_trapframe p) (p_context p) (p_ofile p)
    (p_cwd p) x (p_mask p).
Definition with_mask (x : Z) (p : proc) : proc :=
  mkproc (p_state p) (p_chan p) (p_killed p) (p_xstate p) (p_pid p) (p_parent p)
    (p_kstack p) (p_sz p) (p_pagetable p) (p_trapframe p) (p_context p) (p_ofile p)
    (p_cwd p) (p_name p) x.

Definition set_ra (x : Z) (c : context) : context := mkctx x (ctx_sp c) (ctx_s c).
Definition set_sp (x : Z) (c : context) : context := mkctx (ctx_ra c) x (ctx_s c).

(** [safestrcpy(name, src, sizeof(name))] on buffers of their own. *)
Definition name_set (name str : list Z) : list Z :=
  ld_bytes (safestrcpy (st_bytes (st_bytes ∅ 0 name) 256 (str ++ [0])) 0 256 16) 0 16.

(** [initcode] *)
Definition initcode : list Z :=
  [0x17; 0x05; 0x00; 0x00; 0x13; 0x05; 0x45; 0x02; 0x97; 0x05; 0x00; 0x00; 0x93; 0x85; 0x35;
   0x02; 0x93; 0x08; 0x70; 0x00; 0x73; 0x00; 0x00; 0x00; 0x93; 0x08; 0x20; 0x00; 0x73; 0x00;
   0x00; 0x00; 0xef; 0xf0; 0x9f; 0xff; 0x2f; 0x69; 0x6e; 0x69; 0x74; 0x00; 0x00; 0x24; 0x00;
   0x00; 0x00; 0x00; 0x00; 0x00; 0x00; 0x00].

Section proc.
Context `{Dk : Disk, D : Devices, L : Linker}.

(** ** The table *)

Definition procinit : K unit :=
  do! initlock LKpid;
  do! initlock LKwait;
  kfor (seq 0 NPROC) (fun p =>
    do! initlock (LKproc p);
    do! put_proc p (set_state UNUSED);
    put_proc p (with_kstack (KSTACK (Z.of_nat p)))).

Definition allocpid : K Z :=
  do! acquire LKpid;
  let! pid := gets (fun s => k_nextpid s) in
  do! modify (fun s => set_nextpid (s32 (k_nextpid s + 1)) s);
  do! release LKpid;
  kret pid.

Definition proc_freepagetable (pagetable sz : Z) : K unit :=
  do! uvmunmap pagetable TRAMPOLINE 1 false;
  do! uvmunmap pagetable TRAPFRAME 1 false;
  uvmfree pagetable sz.

Definition proc_pagetable (p : nat) : K Z :=
  let! pagetable := uvmcreate in
  if pagetable =? 0 then kret 0 else
  let! r := mappages pagetable TRAMPOLINE PGSIZE sym_trampoline (Z.lor PTE_R PTE_X) in
  if r <? 0 then
    do! uvmfree pagetable 0;
    kret 0
  else
  let! tf := gets (fun s => p_trapframe (proc_at s p)) in
  let! r := mappages pagetable TRAPFRAME PGSIZE tf (Z.lor PTE_R PTE_W) in
  if r <? 0 then
    do! uvmunmap pagetable TRAMPOLINE 1 false;
    do! uvmfree pagetable 0;
    kret 0
  else kret pagetable.

Definition freeproc (p : nat) : K unit :=
  let! x := gets (fun s => proc_at s p) in
  do! if! negb (p_trapframe x =? 0) then kfree (p_trapframe x);
  do! put_proc p (with_trapframe 0);
  let! x := gets (fun s => proc_at s p) in
  do! if! negb (p_pagetable x =? 0) then proc_freepagetable (p_pagetable x) (p_sz x);
  do! put_proc p (with_pagetable 0);
  do! put_proc p (with_sz 0);
  do! put_proc p (with_pid 0);
  do! put_proc p (with_parent None);
  do! put_proc p (fun x => with_name (<[0%nat := 0]> (p_name x)) x);
  do! put_proc p (set_chan None);
  do! put_proc p (set_killed 0);
  do! put_proc p (with_xstate 0);
  put_proc p (set_state UNUSED).

(** The search of [allocproc]: an unused process, with its lock held. *)
Definition allocproc_visit (p : nat) : K (option nat) :=
  do! acquire (LKproc p);
  let! st := gets (fun s => p_state (proc_at s p)) in
  if bool_decide (st = UNUSED) then kret (Some p)
  else
    do! release (LKproc p);
    kret None.

(** [freeproc(p); release(&p->lock); return 0;] *)
Definition allocproc_fail (p : nat) : K (option nat) :=
  do! freeproc p;
  do! release (LKproc p);
  kret None.

Definition allocproc : K (option nat) :=
  let! r := kfirst (seq 0 NPROC) allocproc_visit in
  match r with
  | None => kret None
  | Some p =>
    let! pid := allocpid in
    do! put_proc p (with_pid pid);
    do! put_proc p (set_state USED);
    let! tf := kalloc in
    do! put_proc p (with_trapframe tf);
    if tf =? 0 then allocproc_fail p else
    let! pt := proc_pagetable p in
    do! put_proc p (with_pagetable pt);
    if pt =? 0 then allocproc_fail p else
    do! put_proc p (with_context context0);
    do! put_proc p (fun x => with_context (set_ra sym_forkret (p_context x)) x);
    do! put_proc p (fun x => with_context (set_sp (p_kstack x + PGSIZE) (p_context x)) x);
    kret (Some p)
  end.

(** A field of the trapframe of [p]. *)
Definition tf_store (p : nat) (off v : Z) : K unit :=
  let! tf := gets (fun s => p_trapframe (proc_at s p)) in
  store64 (tf + off) v.
Definition tf_load (p : nat) (off : Z) : K Z :=
  let! tf := gets (fun s => p_trapframe (proc_at s p)) in
  load64 (tf + off).

Definition userinit : K unit :=
  let! p := allocproc in
  do! modify (set_initproc p);
  deref p (fun p =>
    let! pt := gets (fun s => p_pagetable (proc_at s p)) in
    do! uvmfirst pt initcode;
    do! put_proc p (with_sz PGSIZE);
    do! tf_store p tf_epc 0;
    do! tf_store p tf_sp PGSIZE;
    do! put_proc p (fun x => with_name (name_set (p_name x) (bytes_of "initcode")) x);
    let! cwd := namei [slash] in
    do! put_proc p (with_cwd cwd);
    do! put_proc p (set_state RUNNABLE);
    release (LKproc p)).

Definition growproc (n : Z) : K Z :=
  let! p := curproc in
  let! x := gets (fun s => proc_at s p) in
  let sz := p_sz x in
  let! r :=
    (if n >? 0 then
       let! sz := uvmalloc (p_pagetable x) sz (u64 (sz + n)) PTE_W in
       kret (if sz =? 0 then None else Some sz)
     else if n <? 0 then
       let! sz := uvmdealloc (p_pagetable x) sz (u64 (sz + n)) in
       kret (Some sz)
     else kret (Some sz)) in
  match r with
  | None => kret (-1)
  | Some sz =>
    do! put_proc p (with_sz sz);
    kret 0
  end.

(** ** [fork], [exit], [wait] *)

(** [np->ofile[i] = filedup(p->ofile[i])] *)
Definition fork_file (p np i : nat) : K unit :=
  let! f := gets (fun s => default None (p_ofile (proc_at s p) !! i)) in
  match f with
  | None => kret tt
  | Some f =>
    let! f := filedup f in
    put_proc np (fun x => with_ofile (<[i := Some f]> (p_ofile x)) x)
  end.

(** The rest of [fork] once the child's memory is there; [pp] is the parent. *)
Definition fork_child (p np : nat) (pp : proc) : K Z :=
  do! put_proc np (with_sz (p_sz pp));
  let! ntf := gets (fun s => p_trapframe (proc_at s np)) in
  do! modify_mem (fun m =>
        st_bytes m ntf (ld_bytes m (p_trapframe pp) (Z.to_nat sizeof_trapframe)));
  do! tf_store np tf_a0 0;
  do! kfor (seq 0 NOFILE) (fork_file p np);
  let! cwd := gets (fun s => p_cwd (proc_at s p)) in
  let! cwd := deref cwd idup in
  do! put_proc np (with_cwd (Some cwd));
  let! name := gets (fun s => p_name (proc_at s p)) in
  do! put_proc np (fun x => with_name (name_set (p_name x) (until_nul name)) x);
  let! pid := gets (fun s => p_pid (proc_at s np)) in
  do! release (LKproc np);
  do! acquire LKwait;
  do! put_proc np (with_parent (Some p));
  do! release LKwait;
  do! acquire (LKproc np);
  do! put_proc np (set_state RUNNABLE);
  do! release (LKproc np);
  let! mask := gets (fun s => p_mask (proc_at s p)) in
  do! put_proc np (with_mask mask);
  kret pid.

Definition fork : K Z :=
  let! p := curproc in
  let! np := allocproc in
  match np with
  | None => kret (-1)
  | Some np =>
    let! pp := gets (fun s => proc_at s p) in
    let! cpt := gets (fun s => p_pagetable (proc_at s np)) in
    let! r := uvmcopy (p_pagetable pp) cpt (p_sz pp) in
    if r <? 0 then
      do! freeproc np;
      do! release (LKproc np);
      kret (-1)
    else fork_child p np pp
  end.

(** [wakeup] of a process: it sleeps on its own address in [wait].  With the
    null pointer the same loop compares with the empty channel. *)
Definition wakeup_proc (p : option nat) : K unit :=
  match p with
  | Some p => wakeup (CHproc p)
  | None =>
    kfor (seq 0 NPROC) (fun i =>
      let! me := myproc in
      if! negb (bool_decide (me = Some i)) then
        (do! acquire (LKproc i);
         let! q := gets (fun s => proc_at s i) in
         do! if! bool_decide (p_state q = SLEEPING) && bool_decide (p_chan q = None)
             then put_proc i (set_state RUNNABLE);
         release (LKproc i)))
  end.

Definition reparent (p : nat) : K unit :=
  kfor (seq 0 NPROC) (fun pp =>
    let! parent := gets (fun s => p_parent (proc_at s pp)) in
    if! bool_decide (parent = Some p) then
      (let! init := gets (fun s => k_initproc s) in
       do! put_proc pp (with_parent init);
       wakeup_proc init)).

Definition exit_file (p fd : nat) : K unit :=
  let! f := gets (fun s => default None (p_ofile (proc_at s p) !! fd)) in
  match f with
  | None => kret tt
  | Some f =>
    do! fileclose f;
    put_proc p (fun x => with_ofile (<[fd := None]> (p_ofile x)) x)
  end.

Definition exit {A} (status : Z) : K A :=
  let! p := curproc in
  let! init := gets (fun s => k_initproc s) in
  if bool_decide (init = Some p) then panic "init exiting" else
  do! kfor (seq 0 NOFILE) (exit_file p);
  do! begin_op;
  let! cwd := gets (fun s => p_cwd (proc_at s p)) in
  do! deref cwd iput;
  do! end_op;
  do! put_proc p (with_cwd None);
  do! acquire LKwait;
  do! reparent p;
  let! parent := gets (fun s => p_parent (proc_at s p)) in
  do! wakeup_proc parent;
  do! acquire (LKproc p);
  do! put_proc p (with_xstate status);
  do! put_proc p (set_state ZOMBIE);
  do! release LKwait;
  do! sched;
  panic "zombie exit".

(** One scan of [wait]: the value to return, or whether there are children. *)
Fixpoint wait_scan (p : nat) (addr : Z) (havekids : bool) (l : list nat) : K (Z + bool) :=
  match l with
  | [] => kret (inr havekids)
  | pp :: l =>
    let! parent := gets (fun s => p_parent (proc_at s pp)) in
    if bool_decide (parent = Some p) then
      do! acquire (LKproc pp);
      let! x := gets (fun s => proc_at s pp) in
      if bool_decide (p_state x = ZOMBIE) then
        let pid := p_pid x in
        let! r :=
          (if negb (addr =? 0) then
             let! pt := gets (fun s => p_pagetable (proc_at s p)) in
             copyout pt addr (le_bytes 4 (p_xstate x))
           else kret 0) in
        if r <? 0 then
          do! release (LKproc pp);
          do! release LKwait;
          kret (inl (-1))
        else
          do! freeproc pp;
          do! release (LKproc pp);
          do! release LKwait;
          kret (inl pid)
      else
        do! release (LKproc pp);
        wait_scan p addr true l
    else wait_scan p addr havekids l
  end.

Fixpoint wait_loop (fuel : nat) (p : nat) (addr : Z) : K Z :=
  match fuel with
  | O => fun _ => NoFuel
  | S fuel =>
    let! r := wait_scan p addr false (seq 0 NPROC) in
    match r with
    | inl v => kret v
    | inr havekids =>
      let! k := (if negb havekids then kret 1 else killed p) in
      if negb (k =? 0) then
        do! release LKwait;
        kret (-1)
      else
        do! sleep (CHproc p) LKwait;
        wait_loop fuel p addr
    end
  end.

Definition wait (addr : Z) : K Z :=
  let! p := curproc in
  do! acquire LKwait;
  wait_loop wakeups p addr.

End proc.
