(* ===== verification/Spawn.v ===== *)
(** * Creating a process

    [proc_pagetable] and [allocproc] of kernel/proc.c, with any number of free
    pages: they make the page table and the process, or give everything they
    took back. *)

From S2P Require Import Prelude Param Mem CString Kernel Spinlock Kalloc Sched Sleeplock Vm PageTable UserCopy FreeVm Uart Printf Bio Log Fs Console Pipe File Proc.
Open Scope Z_scope.

Section spawn.
Context `{L : Linker, HL : !LinkerOk, Dk : Disk, D : Devices}.

(** The allocator's calls change memory and the free list only. *)
Lemma kmem_nested s s' : kmem_step s s' -> nested s -> s' = set_mem (k_mem s') (set_freelist (k_freelist s') s).
Proof. unfold kmem_step. intros E Hn. by rewrite nested_norm in E. Qed.

Lemma curproc_norm s p : cpu_ok s -> c_proc (mycpu s) = Some p -> curproc s = Ret p (norm s).
Proof. intros Hc Hp. unfold curproc. krun (myproc_run s Hc). by rewrite Hp. Qed.

Lemma frame_nested s s' :
  norm s' = set_mem (k_mem s') (set_freelist (k_freelist s') (norm s)) -> cpu_ok s' -> nested s ->
  s' = set_mem (k_mem s') (set_freelist (k_freelist s') s).
Proof.
  intros E Hc Hn. rewrite (nested_norm s Hn) in E. rewrite <- E. symmetry. apply norm_nested; [done|].
  assert (Em : mycpu (norm s') = mycpu s) by (rewrite E; reflexivity).
  destruct Hc as (H1 & _ & _). rewrite mycpu_norm in Em by done.
  apply (f_equal c_noff) in Em. simpl in Em. destruct Hn as [_ Hn]. lia.
Qed.

Lemma pt_rel_nested root l s l' s' :
  pt_rel root l s l' s' -> nested s -> s' = set_mem (k_mem s') (set_freelist (k_freelist s') s).
Proof. intros P. apply frame_nested; [apply P|apply (ki_cpu _ _ (pr_kmem _ _ _ _ _ P))]. Qed.

(** ** [proc_pagetable] *)

(** What the table of a new process maps. *)
Definition user_table (tf va : Z) : Z :=
  if decide (TRAMPOLINE <= va) then mkpte sym_trampoline (Z.lor PTE_R PTE_X)
  else if decide (TRAPFRAME <= va) then mkpte tf (Z.lor PTE_R PTE_W) else 0.

Lemma trampoline_range : 0 <= sym_trampoline /\ sym_trampoline + PGSIZE + PGSIZE <= 2 ^ 56.
Proof.
  destruct linker_trampoline as [_ H1]. destruct linker_order as (H2 & H3 & H4).
  unfold PHYSTOP, KERNBASE, PGSIZE in *. lia.
Qed.

Lemma trampoline_consts :
  PGROUNDDOWN TRAMPOLINE = TRAMPOLINE /\ PGROUNDUP (TRAMPOLINE + PGSIZE) = MAXVA /\
  PGROUNDDOWN TRAPFRAME = TRAPFRAME /\ PGROUNDUP (TRAPFRAME + PGSIZE) = TRAMPOLINE /\
  TRAMPOLINE + PGSIZE = MAXVA /\ TRAPFRAME + PGSIZE = TRAMPOLINE /\ 0 < TRAPFRAME.
Proof. vm_compute. done. Qed.

(** What taking pages from [l] for the tables of [root] does to memory and to
    the free list. *)
Definition took (root : Z) (l : list Z) (m : memory) (l' : list Z) (m' : memory) : Prop :=
  (forall a, (forall q, q ∈ l -> a < q \/ q + PGSIZE <= a) -> ld8 m' a = ld8 m a) /\
  (forall t, is_node m' root t -> t ∈ l) /\ (forall q, q ∈ l' -> q ∈ l).

(** The two pages on top are unmapped without being freed. *)
Lemma unmap_top root va pa perm s l :
  kmem_inv s l -> pt_ok (k_mem s) root l -> va = TRAMPOLINE \/ va = TRAPFRAME ->
  (forall x, va <= x < va + PGSIZE -> xpte (k_mem s) root x = mkpte pa perm) ->
  0 <= pa < 2 ^ 56 -> pa mod PGSIZE = 0 -> 0 <= perm < 1024 -> Z.lor perm PTE_V <> PTE_V ->
  exists s', uvmunmap root va 1 false s = Ret tt s' /\ unmap_rel root l s [] s' /\
    (forall x, 0 <= x < MAXVA -> xpte (k_mem s') root x = if decide (va <= x < va + PGSIZE) then 0 else xpte (k_mem s) root x).
Proof.
  intros Hk Ho Hva Hx Hpa Hal Hperm Hfl. destruct (mkpte_spec pa perm Hpa Hal Hperm) as (Hv & _ & Hf & _).
  assert (Hb : 0 <= va /\ va mod PGSIZE = 0 /\ va + 1 * PGSIZE <= MAXVA) by (destruct Hva as [->| ->]; vm_compute; split_and!; discriminate || done).
  destruct Hb as (H1 & H2 & H3).
  destruct (uvmunmap_run root va 1 false s l Hk Ho H1 H2 ltac:(lia) H3) as (s' & R & U & X); [|done|].
  - intros x Hx'. change (Z.of_nat (Z.to_nat 1)) with 1 in Hx'. rewrite Hx by lia. by rewrite Hv, Hf.
  - exists s'. split; [done|]. split; [done|]. intros x Hx'. rewrite X by done. by rewrite Z.mul_1_l.
Qed.

(** The table [root], made from the pages [l0] that were free in [s]: in [s1]
    the pages [l1] of them are still free and the others are its tables. *)
Record built (root : Z) (l0 : list Z) (s : kst) (l1 : list Z) (s1 : kst) : Prop := {
  bt_kmem : kmem_inv s1 l1;
  bt_ok : pt_ok (k_mem s1) root l1;
  bt_shape : pt_shape (k_mem s1) root;
  bt_frame : s1 = set_mem (k_mem s1) (set_freelist (k_freelist s1) s);
  bt_took : took root l0 (k_mem s) l1 (k_mem s1);
  bt_cover q : q ∈ l0 -> q ∈ l1 \/ is_node (k_mem s1) root q
}.

(** The pages [l] that were free in [s] are free again, in some order; nothing
    but their bytes has changed. *)
Definition gave_back (l : list Z) (s s' : kst) : Prop :=
  (exists l', kmem_inv s' l' /\ l' ≡ₚ l) /\ s' = set_mem (k_mem s') (set_freelist (k_freelist s') s) /\
  forall a, (forall q, q ∈ l -> a < q \/ q + PGSIZE <= a) -> ld8 (k_mem s') a = ld8 (k_mem s) a.

Lemma built_create s root l :
  kmem_inv s (root :: l) -> nested s ->
  exists s1, uvmcreate s = Ret root s1 /\ built root (root :: l) s l s1 /\ nested s1 /\ forall va, xpte (k_mem s1) root va = 0.
Proof.
  intros Hk Hn. destruct (uvmcreate_run s root l Hk) as (s1 & R & K & O & Nd & X & St & So).
  pose proof (kmem_nested _ _ St Hn) as E. exists s1. split; [done|]. split; [|split; [rewrite E; exact Hn|done]].
  split; [done|done|by apply (lone_shape _ _ _ O)|done|split_and!|].
  - intros a Ha. apply So, Ha. left.
  - intros t Ht. rewrite (Nd t Ht). left.
  - intros q Hq. by right.
  - intros q Hq. apply elem_of_cons in Hq as [->|Hq]; [right|by left]. exists []. split; [split; [simpl; lia|constructor]|done].
Qed.

Lemma built_map root l0 s l1 s1 l2 s2 :
  built root l0 s l1 s1 -> nested s1 -> pt_rel root l1 s1 l2 s2 -> built root l0 s l2 s2 /\ nested s2.
Proof.
  intros [K O Sh E (T1 & T2 & T3) C] Hn P. pose proof (pt_rel_nested _ _ _ _ _ P Hn) as E2.
  split; [|rewrite E2; exact Hn]. destruct P as [K2 O2 _ (us & -> & Hus) Mo Nd Out Sh2].
  split; [done|done|by apply Sh2|rewrite E2, E; reflexivity|split_and!|].
  - intros a Ha. rewrite Out; [by apply T1|]. intros q [Hq|Hq]; apply Ha; auto.
  - intros t Ht. destruct (Nd t Ht); auto.
  - intros q Hq. apply T3. rewrite elem_of_app. by right.
  - intros q Hq. rewrite Forall_forall in Hus. destruct (C q Hq) as [H|H]; [|right; by apply Mo].
    apply elem_of_app in H as [H|H]; [right; by apply Hus|by left].
Qed.

Lemma built_unmap root l0 s l1 s1 s2 :
  built root l0 s l1 s1 -> nested s1 -> unmap_rel root l1 s1 [] s2 -> built root l0 s l1 s2 /\ nested s2.
Proof.
  intros [K O Sh E (T1 & T2 & T3) C] Hn [K2 O2 Fr Nd Out Sh2].
  pose proof (frame_nested s1 s2 Fr (ki_cpu _ _ K2) Hn) as E2. split; [|rewrite E2; exact Hn].
  split; [done|done|by apply Sh2|rewrite E2, E; reflexivity|split_and!; [|intros t|done]|].
  - intros a Ha. rewrite Out; [by apply T1|]. intros q [Hq|Hq]; [by apply Ha, T2|by apply elem_of_nil in Hq].
  - rewrite (is_node_ext _ _ _ _ Nd). apply T2.
  - intros q Hq. rewrite (is_node_ext _ _ _ _ Nd). by apply C.
Qed.

(** Tables that map nothing are given back. *)
Lemma built_free root l0 s l1 s1 :
  NoDup l0 -> nested s1 -> built root l0 s l1 s1 ->
  (forall va, 0 <= va < MAXVA -> has (xpte (k_mem s1) root va) PTE_V = false) ->
  exists s', uvmfree root 0 s1 = Ret tt s' /\ gave_back l0 s s'.
Proof.
  intros Hnd Hn [K O Sh E (T1 & T2 & T3) C] X.
  destruct (uvmfree_run root 0 0 s1 l1 K O Sh) as (s' & ts & R & Hts & Nd & [(l' & K' & P) Fr Out]); rewrite ?app_nil_r in *;
    [unfold PGSIZE; lia|vm_compute; discriminate|intros va Hva; unfold PGSIZE in Hva; lia
    |split; [constructor|intros pa Hpa; by apply elem_of_nil in Hpa]|intros va Hva; apply X; unfold PGSIZE in Hva; lia|].
  exists s'. split; [done|]. pose proof (frame_nested s1 s' Fr (ki_cpu _ _ K') Hn) as E'. split_and!.
  - exists l'. split; [done|]. apply NoDup_Permutation; [apply K'|done|]. intros q. rewrite P, elem_of_app, Hts. split.
    + intros [Hq|Hq]; auto.
    + intros Hq. destruct (C q Hq); auto.
  - rewrite E', E. reflexivity.
  - intros a Ha. rewrite Out; [by apply T1|]. intros q Hq. by apply Ha, T2, Hts.
Qed.

(** A table that maps the pages on top has taken two pages for them. *)
Lemma built_top root l s l1 s1 tf :
  built root (root :: l) s l1 s1 -> page_ok tf ->
  (forall va, 0 <= va < MAXVA -> xpte (k_mem s1) root va = user_table tf va) -> (length l1 + 2 <= length l)%nat.
Proof.
  intros [K O _ _ (_ & T2 & T3) _] Htf X. destruct (page_bounds tf Htf) as [F1 F2].
  assert (Hv : has (xpte (k_mem s1) root TRAPFRAME) PTE_V = true).
  { rewrite X by (vm_compute; split; [discriminate|done]). apply (mkpte_spec tf (Z.lor PTE_R PTE_W) F1 F2).
    vm_compute. split; [discriminate|done]. }
  unfold xpte in Hv.
  destruct (node (k_mem s1) root (vpath TRAPFRAME)) as [t0|] eqn:E0; [|by rewrite has_0 in Hv].
  set (j := PX 2 TRAPFRAME). assert (Hj : idx j) by (split; vm_compute; [discriminate|done]).
  assert (H0 : path (vpath TRAPFRAME)) by (split; [simpl; lia|repeat constructor; vm_compute; try done; discriminate]).
  assert (H1 : path [j]) by (split; [simpl; lia|by constructor]). assert (Hr : path []) by (split; [simpl; lia|constructor]).
  assert (exists t1, node (k_mem s1) root [j] = Some t1) as [t1 E1].
  { change (vpath TRAPFRAME) with ([j] ++ [PX 1 TRAPFRAME]) in E0. rewrite node_snoc in E0.
    destruct (node (k_mem s1) root [j]) as [t1|]; [by exists t1|done]. }
  assert (Hin : forall q t, path q -> q <> [] -> node (k_mem s1) root q = Some t -> t ∈ l /\ t ∉ l1).
  { intros q t Hq Hne Ht. split; [|by apply (po_free _ _ _ O q)].
    assert (Hm : t ∈ root :: l) by (apply T2; by exists q). apply elem_of_cons in Hm as [->|Hm]; [|done].
    exfalso. apply Hne. by apply (po_inj _ _ _ O q [] root). }
  destruct (Hin _ _ H0 ltac:(done) E0) as [I0 N0]. destruct (Hin _ _ H1 ltac:(done) E1) as [I1 N1].
  assert (Hs : t0 :: t1 :: l1 ⊆+ l).
  { apply NoDup_submseteq.
    - apply NoDup_cons. split; [|apply NoDup_cons; split; [done|apply K]]. intros Hq. apply elem_of_cons in Hq as [->|Hq]; [|done].
      pose proof (po_inj _ _ _ O _ _ t1 H0 H1 E0 E1). done.
    - intros q Hq. apply elem_of_cons in Hq as [->|Hq]; [done|]. apply elem_of_cons in Hq as [->|Hq]; [done|].
      pose proof (T3 q Hq) as Hm. apply elem_of_cons in Hm as [->|Hm]; [|done]. exfalso. by apply (po_free _ _ _ O [] root). }
  apply submseteq_length in Hs. simpl in Hs. lia.
Qed.

(** [mappages] of one of the two pages on top. *)
Lemma map_top root va pa perm s l :
  kmem_inv s l -> pt_ok (k_mem s) root l -> va = TRAMPOLINE \/ va = TRAPFRAME ->
  0 <= pa -> pa + PGSIZE + PGSIZE <= 2 ^ 56 -> pa mod PGSIZE = 0 -> 0 <= perm < 1024 ->
  (forall x, va <= x < va + PGSIZE -> xpte (k_mem s) root x = 0) ->
  exists r l' s', mappages root va PGSIZE pa perm s = Ret r s' /\ pt_rel root l s l' s' /\ (length l <= length l' + 2)%nat /\
    ((r = 0 /\ forall x, 0 <= x < MAXVA ->
        xpte (k_mem s') root x = if decide (va <= x < va + PGSIZE) then mkpte pa perm else xpte (k_mem s) root x) \/
     (r = -1 /\ l' = [] /\ forall x, 0 <= x < MAXVA -> xpte (k_mem s') root x = xpte (k_mem s) root x)).
Proof.
  intros Hk Ho Hva H1 H2 H3 H4 Hun. assert (HM : MAXVA = 2 ^ 38) by reflexivity. assert (HT : TRAMPOLINE = 2 ^ 38 - 4096) by reflexivity.
  assert (HF : TRAPFRAME = 2 ^ 38 - 8192) by reflexivity. assert (Hps : PGSIZE = 4096) by reflexivity.
  destruct trampoline_consts as (C1 & C2 & C3 & C4 & C5 & C6 & C7).
  assert (Hb : PGROUNDDOWN va = va /\ PGROUNDUP (va + PGSIZE) = va + PGSIZE /\ 0 <= va /\ va + PGSIZE <= MAXVA /\ va mod PGSIZE = 0)
    by (destruct Hva as [->| ->]; rewrite ?C2, ?C4; split_and!; try done; vm_compute; discriminate).
  destruct Hb as (B1 & B2 & B3 & B4 & B5).
  destruct (mappages_run root va PGSIZE pa perm s l Hk Ho) as (r & e & l' & s' & R & P & X & Q & H);
    [done|rewrite Hps; lia|done|done|done|done|done|intros x Hx; rewrite B1 in Hx; by rewrite Hun, has_0|].
  rewrite B1, B2 in *. replace (va + PGSIZE - va) with (1 * PGSIZE) in Q by lia. rewrite Z.div_mul in Q by done.
  exists r, l', s'. split; [done|]. split; [done|]. split; [lia|].
  destruct H as [[-> ->]|(-> & -> & He & Hm)]; [left|right]; (split; [done|]); [|split; [done|]]; intros x Hx; rewrite X by done; unfold mapped.
  - case_decide; [|done]. rewrite PGROUNDDOWN_page by lia. f_equal. rewrite Hps in *. zlia.
  - assert (e = va) as -> by (rewrite Hps in *; zlia). by rewrite decide_False by lia.
Qed.

(** [proc_pagetable] makes the table of a new process, or it returns 0 and
    everything it took is free again. *)
Lemma proc_pagetable_cases p s l0 :
  kmem_inv s l0 -> nested s -> page_ok (p_trapframe (proc_at s p)) ->
  (exists root l l1 s1, l0 = root :: l /\ proc_pagetable p s = Ret root s1 /\ built root (root :: l) s l1 s1 /\ nested s1 /\
     (forall va, 0 <= va < MAXVA -> xpte (k_mem s1) root va = user_table (p_trapframe (proc_at s p)) va) /\
     (length l <= length l1 + 4)%nat) \/
  (exists s1, proc_pagetable p s = Ret 0 s1 /\ gave_back l0 s s1 /\ (length l0 < 6)%nat).
Proof.
  intros Hk Hn Htf. set (tf := p_trapframe (proc_at s p)) in *. unfold proc_pagetable. destruct l0 as [|root l].
  { right. exists s. destruct (kalloc_inv_empty s Hk) as [R _]. rewrite (nested_norm s Hn) in R.
    assert (Rc : uvmcreate s = Ret 0 s) by (unfold uvmcreate; krun R; reflexivity). krun Rc. cbn [Z.eqb].
    split; [reflexivity|]. split; [|simpl; lia]. split; [by exists []|]. split; [reflexivity|done]. }
  destruct trampoline_range as [T1 T2]. destruct linker_trampoline as [Tal _]. destruct (page_bounds tf Htf) as [[F1 _] F3].
  assert (HM : MAXVA = 2 ^ 38) by reflexivity. assert (HT : TRAMPOLINE = 2 ^ 38 - 4096) by reflexivity.
  assert (HF : TRAPFRAME = 2 ^ 38 - 8192) by reflexivity. assert (Hps : PGSIZE = 4096) by reflexivity.
  pose proof (ki_nodup _ _ Hk) as Hnd. pose proof (link_page s root l Hk) as [Hroot _]. pose proof (page_pos root Hroot).
  destruct (built_create s root l Hk Hn) as (s1 & R1 & B1 & N1 & X1). krun R1. destruct (Z.eqb_spec root 0) as [|_]; [lia|].
  destruct (map_top root TRAMPOLINE sym_trampoline (Z.lor PTE_R PTE_X) s1 l (bt_kmem _ _ _ _ _ B1) (bt_ok _ _ _ _ _ B1))
    as (r2 & l2 & s2 & R2 & P2 & Q2 & H2); [by left|done|done|done|vm_compute; split; [discriminate|done]|done|].
  krun R2. destruct (built_map _ _ _ _ _ _ _ B1 N1 P2) as [B2 N2]. destruct H2 as [[-> X2]|(-> & -> & X2)]; cbn [Z.ltb Z.compare].
  2: { right. destruct (built_free root (root :: l) s [] s2 Hnd N2 B2) as (s' & R & G).
       { intros va Hva. by rewrite X2, X1, has_0. }
       krun R. exists s'. split; [reflexivity|]. split; [done|]. simpl in *. lia. }
  assert (Ep : proc_at s2 p = proc_at s p) by (rewrite (bt_frame _ _ _ _ _ B2); reflexivity).
  rewrite kbind_gets, Ep. change (p_trapframe (proc_at s p)) with tf.
  destruct (map_top root TRAPFRAME tf (Z.lor PTE_R PTE_W) s2 l2 (bt_kmem _ _ _ _ _ B2) (bt_ok _ _ _ _ _ B2))
    as (r3 & l3 & s3 & R3 & P3 & Q3 & H3);
    [by right|done|unfold PHYSTOP, KERNBASE in *; pose proof (proj2 Htf); unfold PHYSTOP, KERNBASE in *; lia|apply Htf
    |vm_compute; split; [discriminate|done]|intros x Hx; rewrite X2 by lia; rewrite decide_False by lia; apply X1|].
  krun R3. destruct (built_map _ _ _ _ _ _ _ B2 N2 P3) as [B3 N3]. destruct H3 as [[-> X3]|(-> & -> & X3)]; cbn [Z.ltb Z.compare].
  - left. exists root, l, l3, s3. split; [done|]. split; [reflexivity|]. split; [done|]. split; [done|]. split; [|lia].
    intros va Hva. rewrite X3, X2, X1 by done. unfold user_table. repeat case_decide; try done; lia.
  - right. destruct (unmap_top root TRAMPOLINE sym_trampoline (Z.lor PTE_R PTE_X) s3 [] (bt_kmem _ _ _ _ _ B3) (bt_ok _ _ _ _ _ B3))
      as (s4 & R4 & U4 & X4); [by left|intros x Hx; rewrite X3, X2 by lia; by rewrite decide_True by lia|lia|done
      |vm_compute; split; [discriminate|done]|vm_compute; discriminate|].
    krun R4. destruct (built_unmap _ _ _ _ _ _ B3 N3 U4) as [B4 N4].
    destruct (built_free root (root :: l) s [] s4 Hnd N4 B4) as (s' & R & G).
    { intros va Hva. rewrite X4, X3, X2, X1 by done. repeat case_decide; try apply has_0; lia. }
    krun R. exists s'. split; [reflexivity|]. split; [done|]. simpl in *. lia.
Qed.

(** ** [allocproc] *)

Definition is_unused (p : proc) : bool := bool_decide (p_state p = UNUSED).

Lemma allocproc_visit_run i s :
  sched_ok s -> (i < NPROC)%nat ->
  allocproc_visit i s = if is_unused (proc_at s i) then Ret (Some i) (acquired (LKproc i) (norm s))
                        else Ret None (norm s).
Proof.
  intros Hok Hi. pose proof (so_cpu s Hok) as Hc. pose proof (so_free s Hok i Hi) as Hf.
  unfold allocproc_visit, is_unused. krun (acquire_run (LKproc i) s Hc Hf). rewrite kbind_gets.
  change (proc_at (acquired (LKproc i) s) i) with (proc_at s i). case_bool_decide.
  - by rewrite acquired_norm.
  - krun (release_procs (LKproc i) (k_procs s) s Hc Hf). done.
Qed.

Lemma allocpid_run s :
  nested s -> is_free LKpid s -> allocpid s = Ret (k_nextpid s) (set_nextpid (s32 (k_nextpid s + 1)) s).
Proof.
  intros Hn Hf. destruct Hn as [Hc Hn]. unfold allocpid. krun (acquire_run LKpid s Hc Hf).
  rewrite kbind_gets, kbind_modify. erewrite obind_Ret by (by apply (release_after LKpid s)).
  rewrite norm_nested by done. reflexivity.
Qed.

(** The slot after [freeproc]; its open files, its current directory, its
    trace mask and its kernel stack are left alone. *)
Definition cleared (x : proc) : proc :=
  mkproc UNUSED None 0 0 0 None (p_kstack x) 0 0 0 (p_context x) (p_ofile x) (p_cwd x) (<[0%nat := 0]> (p_name x)) (p_mask x).

(** The process [allocproc] returns, made from the slot [x]. *)
Definition spawned (pid tf root : Z) (x : proc) : proc :=
  mkproc USED (p_chan x) (p_killed x) (p_xstate x) pid (p_parent x) (p_kstack x) (p_sz x) root tf
    (mkctx sym_forkret (p_kstack x + PGSIZE) (replicate 12 0)) (p_ofile x) (p_cwd x) (p_name x) (p_mask x).

Lemma put_proc_run i f s p :
  k_procs s !! i = Some p -> put_proc i f s = Ret tt (set_procs (<[i := f p]> (k_procs s)) s).
Proof. intros Hp. unfold put_proc, modify. by rewrite (proc_at_lookup s i p Hp). Qed.

(** Updating the slot again. *)
Lemma put_proc_again i f (ps : list proc) s p :
  (i < length ps)%nat ->
  put_proc i f (set_procs (<[i := p]> ps) s) = Ret tt (set_procs (<[i := f p]> ps) s).
Proof.
  intros Hi. rewrite (put_proc_run i f _ p) by (simpl; by apply list_lookup_insert_eq).
  simpl. by rewrite list_insert_insert_eq.
Qed.

Lemma kmem_inv_procs ps s l : kmem_inv s l -> kmem_inv (set_procs ps s) l.
Proof. by intros []. Qed.
Lemma kmem_inv_nextpid n s l : kmem_inv s l -> kmem_inv (set_nextpid n s) l.
Proof. by intros []. Qed.
Lemma kmem_inv_acquired lk s l : lk <> LKkmem -> kmem_inv s l -> kmem_inv (acquired lk s) l.
Proof.
  intros Hne [H1 H2 H3 H4 H5 H6]. split; try done; [|by apply acquired_ok].
  unfold is_free. unfold acquired. simpl. by rewrite lookup_insert_ne.
Qed.

(** [freeproc] of a process without a page table. *)
Lemma freeproc_bare i x s l :
  nested s -> kmem_inv s l -> k_procs s !! i = Some x -> p_pagetable x = 0 ->
  (p_trapframe x <> 0 -> page_ok (p_trapframe x) /\ p_trapframe x ∉ l) ->
  exists m fl, let s' := set_mem m (set_freelist fl s) in
    freeproc i s = Ret tt (set_procs (<[i := cleared x]> (k_procs s)) s') /\
    kmem_inv s' (if p_trapframe x =? 0 then l else p_trapframe x :: l) /\
    forall a, (p_trapframe x <> 0 -> a < p_trapframe x \/ p_trapframe x + PGSIZE <= a) -> ld8 m a = ld8 (k_mem s) a.
Proof.
  intros Hn Hk Hx Hpt Htf. pose proof (lookup_lt_Some _ _ _ Hx) as Hil. unfold freeproc. rewrite kbind_gets, (proc_at_lookup s i x Hx).
  assert (exists m fl, (if! negb (p_trapframe x =? 0) then kfree (p_trapframe x)) s = Ret tt (set_mem m (set_freelist fl s)) /\
    kmem_inv (set_mem m (set_freelist fl s)) (if p_trapframe x =? 0 then l else p_trapframe x :: l) /\
    forall a, (p_trapframe x <> 0 -> a < p_trapframe x \/ p_trapframe x + PGSIZE <= a) -> ld8 m a = ld8 (k_mem s) a)
    as (m & fl & R & K & So).
  { destruct (Z.eqb_spec (p_trapframe x) 0) as [|Hne]; cbn [negb].
    - exists (k_mem s), (k_freelist s). split; [reflexivity|]. split; [by destruct Hk|done].
    - destruct (Htf Hne) as [H1 H2]. destruct (kfree_inv s (p_trapframe x) l Hk H1 H2) as (s1 & R & K & St & So).
      pose proof (kmem_nested _ _ St Hn) as E. exists (k_mem s1), (k_freelist s1). rewrite <- E.
      split; [done|]. split; [done|]. intros a Ha. by apply So, Ha. }
  krun R. set (s1 := set_mem m (set_freelist fl s)) in *. krun (put_proc_run i (with_trapframe 0) s1 x Hx).
  rewrite kbind_gets, (proc_at_lookup _ i (with_trapframe 0 x)) by (simpl; by apply list_lookup_insert_eq).
  cbn [p_pagetable with_trapframe]. rewrite Hpt. cbn [Z.eqb negb]. rewrite kbind_kret.
  do 8 (erewrite obind_Ret by (by apply put_proc_again)). rewrite put_proc_again by done.
  exists m, fl. split; [reflexivity|]. by split.
Qed.

(** The process [allocproc] made in slot [i], from [x] and the free pages
    [tf], [root] and [l], of which [l'] are left. *)
Definition spawns (s : kst) (i : nat) (x : proc) (tf root : Z) (l l' : list Z) (m : memory) (fl : Z) : Prop :=
  allocproc s = Ret (Some i)
    (set_procs (<[i := spawned (k_nextpid s) tf root x]> (k_procs s))
      (set_nextpid (s32 (k_nextpid s + 1)) (set_mem m (set_freelist fl (acquired (LKproc i) s))))) /\
  kmem_inv (set_mem m (set_freelist fl (acquired (LKproc i) s))) l' /\ pt_ok m root l' /\
  (forall va, 0 <= va < MAXVA -> xpte m root va = user_table tf va) /\
  took root (tf :: root :: l) (k_mem s) l' m /\ (length l' + 2 <= length l <= length l' + 4)%nat /\ (tf ∉ l') /\
  (~ is_node m root tf) /\ (forall q, q ∈ root :: l -> q ∈ l' \/ is_node m root q) /\ pt_shape m root.

(** [allocproc] made no process in slot [i]. *)
Definition spawns_none (s : kst) (i : nat) (x : proc) (fr : list Z) : Prop :=
  exists m fl, allocproc s = Ret None
      (set_procs (<[i := cleared x]> (k_procs s))
        (set_nextpid (s32 (k_nextpid s + 1)) (set_mem m (set_freelist fl (norm s))))) /\
    gave_back fr (norm s) (set_mem m (set_freelist fl (norm s))).

(** The slot and the pid are taken. *)
Lemma allocproc_start {B} s i x (k : nat -> K (option B)) :
  sched_ok s -> is_free LKpid s -> k_procs s !! i = Some x -> p_state x = UNUSED ->
  (forall j q, (j < i)%nat -> k_procs s !! j = Some q -> p_state q <> UNUSED) ->
  (let! r := kfirst (seq 0 NPROC) allocproc_visit in
   match r with
   | None => kret None
   | Some p => let! pid := allocpid in do! put_proc p (with_pid pid); do! put_proc p (set_state USED); k p
   end) s =
  k i (set_procs (<[i := set_state USED (with_pid (k_nextpid s) x)]> (k_procs s))
        (set_nextpid (s32 (k_nextpid s + 1)) (acquired (LKproc i) s))).
Proof.
  intros Hok Hpid Hx Hu Hj. pose proof (so_cpu s Hok) as Hc. pose proof (lookup_lt_Some _ _ _ Hx) as Hi.
  krun (kfirst_some _ is_unused (fun i => i) (fun i => acquired (LKproc i)) allocproc_visit_run s i x Hok Hx
          (bool_decide_eq_true_2 _ Hu) (fun j q Hlt Hq => bool_decide_eq_false_2 _ (Hj j q Hlt Hq))).
  rewrite acquired_norm by done. set (s1 := acquired (LKproc i) s).
  assert (N1 : nested s1) by (by apply nested_acquired).
  assert (Hpid1 : is_free LKpid s1) by (unfold is_free, s1, acquired; simpl; by rewrite lookup_insert_ne).
  krun (allocpid_run s1 N1 Hpid1). set (s2 := set_nextpid _ s1).
  krun (put_proc_run i (with_pid (k_nextpid s1)) s2 x Hx). change (k_procs s2) with (k_procs s).
  by erewrite obind_Ret by (by apply put_proc_again).
Qed.

(** The allocator's invariant does not depend on the locks of processes. *)
Lemma kmem_inv_frame s s' l m fl :
  kmem_inv s l -> forall l', kmem_inv (set_mem m (set_freelist fl s')) l' -> kmem_inv (set_mem m (set_freelist fl (norm s))) l'.
Proof.
  intros Hk l' [A1 A2 A3 _ _ A6]. destruct (kmem_inv_norm _ _ Hk) as [_ _ _ B4 B5 _]. by split.
Qed.

(** The error path: [t] is the state in which the slot holds [y]. *)
Lemma allocproc_fail_run s i x y k m0 fl0 l fr :
  sched_ok s -> kmem_inv s fr -> k_procs s !! i = Some x -> cleared y = cleared x -> p_pagetable y = 0 ->
  kmem_inv (set_mem m0 (set_freelist fl0 (acquired (LKproc i) s))) l ->
  (p_trapframe y <> 0 -> page_ok (p_trapframe y) /\ (p_trapframe y ∉ l)) ->
  fr ≡ₚ (if p_trapframe y =? 0 then l else p_trapframe y :: l) ->
  (forall a, (forall q, q ∈ fr -> a < q \/ q + PGSIZE <= a) -> ld8 m0 a = ld8 (k_mem s) a) ->
  exists m fl, allocproc_fail i (set_procs (<[i := y]> (k_procs s)) (set_nextpid k (set_mem m0 (set_freelist fl0 (acquired (LKproc i) s))))) =
      Ret None (set_procs (<[i := cleared x]> (k_procs s)) (set_nextpid k (set_mem m (set_freelist fl (norm s))))) /\
    gave_back fr (norm s) (set_mem m (set_freelist fl (norm s))).
Proof.
  intros Hok Hk Hx Hy Hpt K Htf P Out. pose proof (so_cpu s Hok) as Hc. pose proof (lookup_lt_Some _ _ _ Hx) as Hil.
  set (t := set_procs _ _). destruct (freeproc_bare i y t l) as (m & fl & R & K' & So);
    [exact (nested_acquired (LKproc i) s Hc)|by apply kmem_inv_procs, kmem_inv_nextpid|by apply list_lookup_insert_eq|done|done|].
  unfold allocproc_fail. krun R. change (k_procs t) with (<[i := y]> (k_procs s)). rewrite list_insert_insert_eq, Hy.
  krun (release_procs (LKproc i) (<[i := cleared x]> (k_procs s)) (set_nextpid k (set_mem m (set_freelist fl s)))
    Hc (so_free s Hok i ltac:(rewrite <- (so_procs s Hok); done))).
  exists m, fl. split; [reflexivity|]. split; [|split; [reflexivity|]].
  - eexists. split; [exact (kmem_inv_frame s t _ m fl Hk _ K')|by symmetry].
  - intros a Ha. change (ld8 m a = ld8 (k_mem s) a). rewrite <- Out by done. apply So. intros E. apply Ha.
    apply Z.eqb_neq in E. rewrite P, E. left.
Qed.

(** [allocproc] for an unused slot, with any free pages. *)
Lemma allocproc_cases s i x fr :
  sched_ok s -> is_free LKpid s -> kmem_inv s fr -> (fr = [] -> p_pagetable x = 0) ->
  k_procs s !! i = Some x -> p_state x = UNUSED ->
  (forall j q, (j < i)%nat -> k_procs s !! j = Some q -> p_state q <> UNUSED) ->
  (exists tf root l l' m fl, fr = tf :: root :: l /\ spawns s i x tf root l l' m fl) \/
  spawns_none s i x fr /\ (length fr < 7)%nat.
Proof.
  intros Hok Hpid Hk Hfr Hx Hu Hj. pose proof (so_cpu s Hok) as Hc. pose proof (lookup_lt_Some _ _ _ Hx) as Hi.
  pose proof (nested_acquired (LKproc i) s Hc) as N1. pose proof (ki_nodup _ _ Hk) as Hnd.
  set (x1 := set_state USED (with_pid (k_nextpid s) x)). unfold spawns_none, spawns, allocproc.
  rewrite (allocproc_start s i x _ Hok Hpid Hx Hu Hj). fold x1.
  set (s3 := set_procs (<[i := x1]> (k_procs s)) _).
  assert (K3 : kmem_inv s3 fr) by (by apply kmem_inv_procs, kmem_inv_nextpid, kmem_inv_acquired).
  destruct fr as [|tf fr].
  { right. destruct (kalloc_inv_empty s3 K3) as [R K]. rewrite (nested_norm s3 N1) in R. krun R.
    krun (put_proc_again i (with_trapframe 0) (k_procs s) (set_nextpid (s32 (k_nextpid s + 1)) (acquired (LKproc i) s)) x1 Hi).
    cbn [Z.eqb]. split; [|simpl; lia].
    apply (allocproc_fail_run s i x (with_trapframe 0 x1) _ (k_mem s) (k_freelist s) [] []); try done; [by apply Hfr|].
    by apply (kmem_inv_acquired (LKproc i)) in Hk. }
  destruct (kalloc_inv s3 tf fr K3) as (s4 & R4 & K4 & St4 & So4 & _). krun R4.
  pose proof (kmem_nested _ _ St4 N1) as E4. pose proof (link_page s3 tf _ K3) as [Htf _]. pose proof (page_pos tf Htf).
  assert (P4 : k_procs s4 = <[i := x1]> (k_procs s)) by (rewrite E4; reflexivity).
  krun (put_proc_run i (with_trapframe tf) s4 x1 ltac:(rewrite P4; by apply list_lookup_insert_eq)).
  destruct (Z.eqb_spec tf 0) as [|_]; [lia|]. rewrite P4, list_insert_insert_eq. set (x2 := with_trapframe tf x1). set (s5 := set_procs _ s4).
  assert (N5 : nested s5) by (unfold s5; rewrite E4; exact N1). apply NoDup_cons in Hnd as [Htfl Hnd].
  assert (T5 : proc_at s5 i = x2) by (apply proc_at_lookup; simpl; by apply list_lookup_insert_eq).
  destruct (proc_pagetable_cases i s5 fr) as [(root & l & l' & s6 & -> & R6 & B & N6 & X6 & C6)|(s6 & R6 & [(l' & K6 & P6) [E6 O6]] & C6)];
    [by apply kmem_inv_procs|done|by rewrite T5| |]; krun R6.
  2: { right. assert (Q6 : k_procs s6 = <[i := x2]> (k_procs s)) by (rewrite E6; reflexivity).
       krun (put_proc_run i (with_pagetable 0) s6 x2 ltac:(rewrite Q6; by apply list_lookup_insert_eq)).
       cbn [Z.eqb]. rewrite Q6, list_insert_insert_eq. split; [|simpl; lia].
       rewrite E6. unfold s5. rewrite E4.
       apply (allocproc_fail_run s i x (with_pagetable 0 x2) _ (k_mem s6) (k_freelist s6) l' (tf :: fr)); try done.
       - destruct K6 as [A1 A2 A3 A4 A5 A6]. destruct (kmem_inv_acquired (LKproc i) s (tf :: fr)) as [B1 B2 B3 B4 B5 B6]; [done|done|]. by split.
       - intros _. split; [done|]. by rewrite P6.
       - cbn [p_trapframe with_pagetable x2 with_trapframe]. destruct (Z.eqb_spec tf 0); [lia|]. by rewrite P6.
       - intros a Ha. rewrite O6 by (intros q Hq; apply Ha; by right). apply So4, Ha. left. }
  left. pose proof (link_page s4 root l K4) as [Hroot _]. pose proof (page_pos root Hroot).
  rewrite T5 in X6. pose proof (built_top root l s5 l' s6 tf B Htf X6) as C7.
  destruct B as [K6 O6 S6 E6 (T1 & T2 & T3) U6].
  assert (Q6 : k_procs s6 = <[i := x2]> (k_procs s)) by (rewrite E6; reflexivity).
  krun (put_proc_run i (with_pagetable root) s6 x2 ltac:(rewrite Q6; by apply list_lookup_insert_eq)).
  destruct (Z.eqb_spec root 0) as [|_]; [lia|]. rewrite Q6, list_insert_insert_eq.
  do 3 (erewrite obind_Ret by (by apply put_proc_again)).
  exists tf, root, l, l', (k_mem s6), (k_freelist s6). split; [done|]. unfold took. split_and!; try done; try lia.
  - rewrite E6. unfold s5. rewrite E4. reflexivity.
  - destruct K6 as [A1 A2 A3 A4 A5 A6]. destruct (kmem_inv_acquired (LKproc i) s (tf :: root :: l)) as [B1 B2 B3 B4 B5 B6]; [done|done|]. by split.
  - intros a Ha. rewrite T1; [apply So4, Ha; left|]. intros q Hq. apply Ha. by right.
  - intros u Hu'. right. by apply T2.
  - intros q Hq. right. by apply T3.
  - intros Hin. by apply Htfl, T3.
  - intros Hin. by apply Htfl, T2.
Qed.

Lemma allocproc_run s i x tf root l :
  sched_ok s -> is_free LKpid s -> kmem_inv s (tf :: root :: l) -> (5 <= length l)%nat ->
  k_procs s !! i = Some x -> p_state x = UNUSED ->
  (forall j q, (j < i)%nat -> k_procs s !! j = Some q -> p_state q <> UNUSED) ->
  exists l' m fl, spawns s i x tf root l l' m fl.
Proof.
  intros Hok Hpid Hk Hlen Hx Hu Hj.
  destruct (allocproc_cases s i x (tf :: root :: l)) as [(tf' & root' & l0 & l' & m & fl & E & Hs)|[_ Hl]]; try done.
  - injection E as <- <- <-. by exists l', m, fl.
  - simpl in Hl. lia.
Qed.

(** With an unused slot and memory, [allocproc] takes the first unused
    slot, returns with its lock held, gives it the next pid, a trapframe page,
    a page table that maps exactly the trampoline and the trapframe, and a
    context that starts in [forkret] on its kernel stack; every other field
    of the slot, [killed] among them, is as it was. *)
Theorem allocproc_spec s i x tf root l :
  sched_ok s -> is_free LKpid s -> kmem_inv s (tf :: root :: l) -> (5 <= length l)%nat ->
  k_procs s !! i = Some x -> p_state x = UNUSED ->
  (forall j q, (j < i)%nat -> k_procs s !! j = Some q -> p_state q <> UNUSED) ->
  exists l' m fl, allocproc s = Ret (Some i)
      (set_procs (<[i := spawned (k_nextpid s) tf root x]> (k_procs s))
        (set_nextpid (s32 (k_nextpid s + 1)) (set_mem m (set_freelist fl (acquired (LKproc i) s))))) /\
    kmem_inv (set_mem m (set_freelist fl (acquired (LKproc i) s))) l' /\ pt_ok m root l' /\
    (forall va, 0 <= va < MAXVA -> xpte m root va = user_table tf va).
Proof.
  intros Hok Hpid Hk Hlen Hx Hu Hj.
  destruct (allocproc_run s i x tf root l Hok Hpid Hk Hlen Hx Hu Hj) as (l' & m & fl & R & K & O & X & _).
  by exists l', m, fl.
Qed.

Lemma sched_ok_kill i p s :
  sched_ok s -> sched_ok (set_procs (<[i := p]> (k_procs s)) (norm s)).
Proof.
  intros Hok. apply sched_ok_procs; [|by apply sched_ok_norm]. rewrite length_insert. apply Hok.
Qed.

(** C39: [kill(0)] does not fail as for a pid that does not exist: pid 0 is
    that of every unused slot, so it marks the first of them killed, and the
    process that [allocproc] later makes from that slot is born killed. *)
Theorem kill_zero_poisons s i x tf root l :
  sched_ok s -> is_free LKpid s -> kmem_inv s (tf :: root :: l) -> (5 <= length l)%nat ->
  k_procs s !! i = Some x -> p_state x = UNUSED -> p_pid x = 0 ->
  (forall j q, (j < i)%nat -> k_procs s !! j = Some q -> p_state q <> UNUSED /\ p_pid q <> 0) ->
  exists s1 s2, kill 0 s = Ret 0 s1 /\ allocproc s1 = Ret (Some i) s2 /\
    p_state (proc_at s2 i) = USED /\ p_killed (proc_at s2 i) = 1.
Proof.
  intros Hok Hpid Hk Hlen Hx Hu Hp0 Hj. pose proof (lookup_lt_Some _ _ _ Hx) as Hi.
  rewrite (kill_run_some 0 s i x Hok Hx Hp0 (fun j q Hlt Hq => proj2 (Hj j q Hlt Hq))).
  set (s1 := set_procs _ _).
  assert (Hx1 : k_procs s1 !! i = Some (kill_proc x)) by (simpl; by apply list_lookup_insert_eq).
  assert (Hk1 : kill_proc x = set_killed 1 x).
  { unfold kill_proc. rewrite bool_decide_eq_false_2; [done|]. by rewrite Hu. }
  destruct (allocproc_run s1 i (kill_proc x) tf root l) as (l' & m & fl & R & _); try done.
  - by apply sched_ok_kill.
  - apply kmem_inv_procs. by apply kmem_inv_norm.
  - by rewrite Hk1.
  - intros j q Hlt Hq. simpl in Hq. rewrite list_lookup_insert_ne in Hq by lia. apply (Hj j q Hlt Hq).
  - eexists s1, _. split; [done|]. split; [exact R|].
    rewrite (proc_at_lookup _ i (spawned (k_nextpid s1) tf root (kill_proc x))).
    + by rewrite Hk1.
    + simpl. apply list_lookup_insert_eq. by rewrite length_insert.
Qed.
End spawn.

(** ** The theorems on the small machine of [Kalloc] *)

Section demo.
#[local] Existing Instance demo_linker.
#[local] Existing Instance demo_linker_ok.

(** The process locks and [pid_lock] are initialised before [kinit] here. *)
Definition demo_plocks : gmap lockid spinlock :=
  <[LKpid := lock_free]> (list_to_map ((fun i => (LKproc i, lock_free)) <$> seq 0 NPROC)).

Lemma demo_plocks_free : procs_free (set_locks (<[LKkmem := lock_free]> demo_plocks) boot).
Proof.
  intros i Hi. unfold is_free, demo_plocks. cbn [k_locks set_locks]. rewrite !lookup_insert_ne by done.
  do 64 (destruct i as [|i]; [reflexivity|]). unfold NPROC in Hi. lia.
Qed.

Lemma demo_spawn : exists s, sched_ok s /\ is_free LKpid s /\
  kmem_inv s (demo_page :: (demo_page - PGSIZE) :: drop 2 demo_pages) /\ k_procs s = k_procs boot.
Proof.
  destruct demo_booted as [s Hk].
  exists (set_procs (k_procs boot) (set_locks (<[LKkmem := lock_free]> demo_plocks) s)).
  split_and!; [| | |reflexivity].
  - split; [exact (ki_cpu _ _ Hk)|exact demo_plocks_free|reflexivity].
  - reflexivity.
  - assert (Hd : demo_pages = demo_page :: (demo_page - PGSIZE) :: drop 2 demo_pages) by reflexivity.
    rewrite Hd in Hk. destruct Hk as [H1 H2 H3 H4 H5 H6]. split; try assumption. reflexivity.
Qed.

Lemma demo_left : (5 <= length (drop 2 demo_pages))%nat.
Proof. change (length (drop 2 demo_pages)) with 22%nat. lia. Qed.

Lemma allocproc_spec_witness :
  exists s s', allocproc s = Ret (Some 0%nat) s' /\ p_state (proc_at s' 0) = USED.
Proof.
  destruct demo_spawn as (s & Hok & Hpid & Hk & Hps). exists s.
  destruct (allocproc_spec s 0 proc0 demo_page (demo_page - PGSIZE) (drop 2 demo_pages))
    as (l' & m & fl & R & _).
  - exact Hok.
  - exact Hpid.
  - exact Hk.
  - exact demo_left.
  - rewrite Hps. reflexivity.
  - reflexivity.
  - intros j q Hj. lia.
  - eexists. split; [exact R|]. rewrite Hps. reflexivity.
Defined.

Lemma kill_zero_poisons_witness :
  exists s s1 s2, kill 0 s = Ret 0 s1 /\ allocproc s1 = Ret (Some 0%nat) s2 /\ p_killed (proc_at s2 0) = 1.
Proof.
  destruct demo_spawn as (s & Hok & Hpid & Hk & Hps). exists s.
  destruct (kill_zero_poisons s 0 proc0 demo_page (demo_page - PGSIZE) (drop 2 demo_pages))
    as (s1 & s2 & R1 & R2 & _ & Hd).
  - exact Hok.
  - exact Hpid.
  - exact Hk.
  - exact demo_left.
  - rewrite Hps. reflexivity.
  - reflexivity.
  - reflexivity.
  - intros j q Hj. lia.
  - exists s1, s2. split; [exact R1|]. split; [exact R2|exact Hd].
Defined.
End demo.
