(* ===== verification/Fork.v ===== *)
(** * [fork] of kernel/proc.c

    The whole call, with [allocproc], [uvmcopy], [filedup] and [idup] in it:
    what the child gets and what the parent keeps. *)

From S2P Require Import Prelude Param Mem CString Kernel Spinlock Kalloc Sched Sleeplock Vm PageTable UserCopy ForkVm Uart Printf Bio Log Fs Console Pipe File Proc Spawn.
Open Scope Z_scope.

(** ** References to open files *)

(** How often a file is open in a table of descriptors. *)
Definition opens (f : nat) (fds : list (option nat)) : nat := length (filter (eq (Some f)) fds).

Definition dup_one (fs : list file) (fd : option nat) : list file :=
  match fd with
  | Some f => <[f := set_fref (f_ref (default file0 (fs !! f)) + 1) (default file0 (fs !! f))]> fs
  | None => fs
  end.

Lemma opens_cons f fd fds : opens f (fd :: fds) = ((if decide (Some f = fd) then 1 else 0) + opens f fds)%nat.
Proof. unfold opens. rewrite filter_cons. by case_decide. Qed.

(** The table after every open descriptor was duplicated. *)
Lemma dup_all fds fs f y :
  fs !! f = Some y -> foldl dup_one fs fds !! f = Some (set_fref (f_ref y + Z.of_nat (opens f fds)) y).
Proof.
  revert fs y. induction fds as [|fd fds IH]; intros fs y Hy; simpl.
  - unfold opens. simpl. rewrite Z.add_0_r. by destruct y.
  - rewrite opens_cons. case_decide as E; [subst fd|].
    + rewrite (IH _ (set_fref (f_ref y + 1) y)).
      * destruct y. unfold set_fref. simpl. do 2 f_equal. lia.
      * simpl. rewrite Hy. simpl. apply list_lookup_insert_eq. by eapply lookup_lt_Some.
    + rewrite (IH _ y); [by destruct y|]. destruct fd as [g|]; simpl; [|done]. rewrite list_lookup_insert_ne; [done|congruence].
Qed.

Section fork.
Context `{L : Linker, HL : !LinkerOk, Dk : Disk, D : Devices}.

Lemma filedup_run f s : nested s -> is_free LKftable s -> 1 <= f_ref (file_at s f) ->
  filedup f s = Ret f (set_files (dup_one (k_files s) (Some f)) s).
Proof.
  intros [Hc Hn] Hf Hr. unfold filedup. krun (acquire_run LKftable s Hc Hf). rewrite kbind_gets.
  change (file_at (acquired LKftable s) f) with (file_at s f). destruct (Z.ltb_spec (f_ref (file_at s f)) 1); [lia|].
  unfold put_file. rewrite kbind_modify. erewrite obind_Ret by (by apply (release_after LKftable s)).
  rewrite norm_nested by done. reflexivity.
Qed.

Lemma idup_run d s : nested s -> is_free LKitable s ->
  idup d s = Ret d (set_inodes (<[d := set_iref (i_ref (inode_at s d) + 1) (inode_at s d)]> (k_inodes s)) s).
Proof.
  intros [Hc Hn] Hf. unfold idup. krun (acquire_run LKitable s Hc Hf). unfold put_inode. rewrite kbind_modify.
  erewrite obind_Ret by (by apply (release_after LKitable s)). rewrite norm_nested by done. reflexivity.
Qed.

(** A field of a process is set under a lock. *)
Lemma locked_put {B} lk i f ps x s (k : K B) :
  cpu_ok s -> norm s = s -> is_free lk s -> (i < length ps)%nat ->
  (do! acquire lk; do! put_proc i f; do! release lk; k) (set_procs (<[i := x]> ps) s) = k (set_procs (<[i := f x]> ps) s).
Proof.
  intros Hc Hn Hf Hi. set (sx := set_procs _ s). krun (acquire_run lk sx Hc Hf).
  krun (put_proc_again i f ps (acquired lk s) x Hi). krun (release_procs lk (<[i := f x]> ps) s Hc Hf). by rewrite Hn.
Qed.

(** One descriptor. *)
Lemma fork_file_run p np k pp c fd s :
  nested s -> is_free LKftable s -> k_procs s !! p = Some pp -> k_procs s !! np = Some c ->
  p_ofile pp !! k = Some fd -> p_ofile c !! k = Some None ->
  (forall f, fd = Some f -> exists y, k_files s !! f = Some y /\ 1 <= f_ref y) ->
  fork_file p np k s = Ret tt (set_procs (<[np := with_ofile (<[k := fd]> (p_ofile c)) c]> (k_procs s))
                                 (set_files (dup_one (k_files s) fd) s)).
Proof.
  intros Hn Hf Hp Hc Ek En Hr. unfold fork_file. rewrite kbind_gets.
  assert (proc_at s p = pp) as -> by (unfold proc_at; by rewrite Hp). rewrite Ek. simpl (default _ _).
  destruct fd as [f|].
  - destruct (Hr f eq_refl) as (y & Hy & Hy1).
    assert (Hfr : 1 <= f_ref (file_at s f)) by (unfold file_at; by rewrite Hy). krun (filedup_run f s Hn Hf Hfr).
    exact (put_proc_run np (fun x => with_ofile (<[k := Some f]> (p_ofile x)) x) (set_files (dup_one (k_files s) (Some f)) s) c Hc).
  - unfold kret. f_equal. rewrite (list_insert_id (p_ofile c) k None En).
    change (with_ofile (p_ofile c) c) with c. rewrite (list_insert_id (k_procs s) np c Hc). reflexivity.
Qed.

(** The loop over the descriptors. *)
Lemma fork_files_run p np pp todo : forall don c s,
  nested s -> is_free LKftable s -> p <> np -> k_procs s !! p = Some pp -> k_procs s !! np = Some c ->
  p_ofile pp = don ++ todo -> p_ofile c = don ++ replicate (length todo) None ->
  Forall (fun fd => forall f, fd = Some f -> exists y, k_files s !! f = Some y /\ 1 <= f_ref y) todo ->
  kfor (seq (length don) (length todo)) (fork_file p np) s =
    Ret tt (set_procs (<[np := with_ofile (don ++ todo) c]> (k_procs s)) (set_files (foldl dup_one (k_files s) todo) s)).
Proof.
  induction todo as [|fd todo IH]; intros don c s Hn Hf Hne Hp Hc Eo Ec Hr.
  - simpl. unfold kret. f_equal. rewrite app_nil_r in Eo, Ec. rewrite app_nil_r.
    rewrite <- Ec. change (with_ofile (p_ofile c) c) with c. rewrite (list_insert_id (k_procs s) np c Hc). reflexivity.
  - apply Forall_cons in Hr as [Hr1 Hr2]. cbn [length seq kfor foldl].
    assert (E1 : p_ofile pp !! length don = Some fd) by (rewrite Eo; by apply list_lookup_middle).
    assert (E2 : p_ofile c !! length don = Some None) by (rewrite Ec; by apply list_lookup_middle).
    krun (fork_file_run p np (length don) pp c fd s Hn Hf Hp Hc E1 E2 Hr1).
    set (c1 := with_ofile _ c). set (s2 := set_procs _ _).
    assert (Ec1 : p_ofile c1 = (don ++ [fd]) ++ replicate (length todo) None).
    { unfold c1. simpl. rewrite Ec. simpl. rewrite insert_app_r_alt, Nat.sub_diag by lia. by rewrite <- app_assoc. }
    rewrite cons_middle, app_assoc in Eo |- *.
    pose proof (IH (don ++ [fd]) c1 s2) as R. rewrite length_app, Nat.add_1_r in R. rewrite R; try done.
    + unfold s2. simpl. rewrite list_insert_insert_eq. reflexivity.
    + simpl. by rewrite list_lookup_insert_ne.
    + simpl. apply list_lookup_insert_eq. by eapply lookup_lt_Some.
    + apply (Forall_impl _ _ _ Hr2). intros fd' Hfd g Hg. destruct (Hfd g Hg) as (z & Hz & Hz1).
      pose proof (dup_all [fd] (k_files s) g z Hz) as Hd. simpl in Hd. eexists. split; [exact Hd|]. simpl. lia.
Qed.

(** ** The child *)

(** The trapframe of the child: the parent's, but [fork] returns 0. *)
Definition frame_copied (m : memory) (ntf tf : Z) : memory :=
  st64 (st_bytes m ntf (ld_bytes m tf (Z.to_nat sizeof_trapframe))) (ntf + tf_a0) 0.

Lemma frame_copied_in m ntf tf off : mem_ok m -> 0 <= off < sizeof_trapframe ->
  ld8 (frame_copied m ntf tf) (ntf + off) = if decide (tf_a0 <= off < tf_a0 + 8) then 0 else ld8 m (tf + off).
Proof.
  intros Hm Hoff. unfold frame_copied, sizeof_trapframe, tf_a0 in *. case_decide as E.
  - unfold st. replace (ntf + off) with (ntf + 112 + Z.of_nat (Z.to_nat (off - 112))) by lia.
    assert (Hz : le_bytes 8 0 !! Z.to_nat (off - 112) = Some 0).
    { change (le_bytes 8 0) with (replicate 8 0). apply lookup_replicate_2. lia. }
    by rewrite (ld8_st_bytes_in _ _ _ _ _ Hz).
  - rewrite ld8_st_out by lia. replace (ntf + off) with (ntf + Z.of_nat (Z.to_nat off)) by lia.
    rewrite (ld8_st_bytes_in _ _ _ _ (ld8 m (tf + off))); [apply u8_small, Hm|].
    rewrite lookup_ld_bytes by lia. do 2 f_equal. lia.
Qed.

Lemma frame_copied_out m ntf tf : same_outside ntf m (frame_copied m ntf tf).
Proof.
  intros a Ha. unfold frame_copied. rewrite ld8_st_out by (unfold tf_a0, PGSIZE in *; lia).
  apply ld8_st_bytes_out. rewrite length_ld_bytes. unfold sizeof_trapframe, PGSIZE in *. lia.
Qed.

Lemma frame_copied_ok m ntf tf : mem_ok m -> mem_ok (frame_copied m ntf tf).
Proof. intros Hm. by apply st_ok, st_bytes_mem_ok. Qed.

(** What [fork] makes of the process [c] of [allocproc], with the parent [pp] in slot [p]. *)
Definition child_of (p : nat) (pp c : proc) : proc :=
  with_mask (p_mask pp) (set_state RUNNABLE (with_parent (Some p)
    (with_name (name_set (p_name c) (until_nul (p_name pp)))
      (with_cwd (p_cwd pp) (with_ofile (p_ofile pp) (with_sz (p_sz pp) c)))))).

Definition cwd_held (d : nat) (ips : list inode) : list inode :=
  <[d := set_iref (i_ref (default inode0 (ips !! d)) + 1) (default inode0 (ips !! d))]> ips.

(** The state in which [fork_child] runs: the lock of slot [i] was taken in
    [s], and memory, the next pid and the table have changed since. *)
Definition forking (i : nat) (s : kst) (ps : list proc) (k : Z) (m : memory) (fl : Z) : kst :=
  set_procs ps (set_nextpid k (set_mem m (set_freelist fl (acquired (LKproc i) s)))).

Lemma tf_store_run i off v s x :
  k_procs s !! i = Some x -> tf_store i off v s = Ret tt (set_mem (st64 (k_mem s) (p_trapframe x + off) v) s).
Proof. intros Hx. unfold tf_store. by rewrite kbind_gets, (proc_at_lookup s i x Hx). Qed.

(** A change of the child's slot. *)
Lemma forking_put i f s ps k m fl x :
  ps !! i = Some x -> put_proc i f (forking i s ps k m fl) = Ret tt (forking i s (<[i := f x]> ps) k m fl).
Proof. intros Hx. exact (put_proc_run i f (forking i s ps k m fl) x Hx). Qed.

Lemma forking_locks i lk s ps k m fl :
  lk <> LKproc i -> is_free lk s -> is_free lk (forking i s ps k m fl).
Proof. intros H1 H2. unfold is_free, forking, acquired. simpl. by rewrite lookup_insert_ne. Qed.

Lemma forking_idup i d s ps k m fl : cpu_ok s -> is_free LKitable s ->
  idup d (forking i s ps k m fl) = Ret d (forking i (set_inodes (cwd_held d (k_inodes s)) s) ps k m fl).
Proof.
  intros Hc Hf. exact (idup_run d (forking i s ps k m fl) (nested_acquired (LKproc i) s Hc)
    (forking_locks i LKitable s ps k m fl ltac:(done) Hf)).
Qed.

Lemma forking_files p i pp c s ps k m fl :
  cpu_ok s -> is_free LKftable s -> p <> i -> ps !! p = Some pp -> ps !! i = Some c ->
  p_ofile c = replicate NOFILE None -> length (p_ofile pp) = NOFILE ->
  Forall (fun fd => forall f, fd = Some f -> exists y, k_files s !! f = Some y /\ 1 <= f_ref y) (p_ofile pp) ->
  kfor (seq 0 NOFILE) (fork_file p i) (forking i s ps k m fl) =
    Ret tt (forking i (set_files (foldl dup_one (k_files s) (p_ofile pp)) s) (<[i := with_ofile (p_ofile pp) c]> ps) k m fl).
Proof.
  intros Hc Hf Hne Hp Hi Ho Hol Hfs. rewrite <- Hol in Ho |- *.
  exact (fork_files_run p i pp (p_ofile pp) [] c (forking i s ps k m fl) (nested_acquired (LKproc i) s Hc)
    (forking_locks i LKftable s ps k m fl ltac:(done) Hf) Hne Hp Hi eq_refl Ho Hfs).
Qed.

Lemma fork_child_run p i pp c d s ps k m fl :
  sched_ok s -> is_free LKwait s -> is_free LKftable s -> is_free LKitable s ->
  ps !! p = Some pp -> ps !! i = Some c -> length ps = NPROC -> p <> i ->
  p_ofile c = replicate NOFILE None -> length (p_ofile pp) = NOFILE -> p_cwd pp = Some d ->
  Forall (fun fd => forall f, fd = Some f -> exists y, k_files s !! f = Some y /\ 1 <= f_ref y) (p_ofile pp) ->
  fork_child p i pp (forking i s ps k m fl) =
    Ret (p_pid c) (set_procs (<[i := child_of p pp c]> ps) (set_inodes (cwd_held d (k_inodes s))
      (set_files (foldl dup_one (k_files s) (p_ofile pp)) (set_nextpid k
        (set_mem (frame_copied m (p_trapframe c) (p_trapframe pp)) (set_freelist fl (norm s))))))).
Proof.
  intros Hok Hw Hft Hit Hp Hi Hlen Hne Ho Hol Hcwd Hfs. pose proof (so_cpu s Hok) as Hc.
  pose proof (lookup_lt_Some _ _ _ Hi) as Hil. pose proof (so_free s Hok i ltac:(lia)) as Hpi.
  assert (Hq : forall x, <[i := x]> ps !! i = Some x) by (intros; by apply list_lookup_insert_eq).
  assert (Hp' : forall x, <[i := x]> ps !! p = Some pp) by (intros; by rewrite list_lookup_insert_ne).
  unfold fork_child. krun (forking_put i (with_sz (p_sz pp)) s ps k m fl c Hi). set (c1 := with_sz (p_sz pp) c).
  rewrite kbind_gets, (proc_at_lookup (forking i s _ k m fl) i c1 (Hq c1)).
  unfold modify_mem. rewrite kbind_modify. set (s2 := set_mem _ _). krun (tf_store_run i tf_a0 0 s2 c1 (Hq c1)).
  change (set_mem (st64 (k_mem s2) (p_trapframe c1 + tf_a0) 0) s2)
    with (forking i s (<[i := c1]> ps) k (frame_copied m (p_trapframe c) (p_trapframe pp)) fl). set (m' := frame_copied _ _ _).
  krun (forking_files p i pp c1 s _ k m' fl Hc Hft Hne (Hp' c1) (Hq c1) Ho Hol Hfs).
  rewrite list_insert_insert_eq. set (c2 := with_ofile _ _). set (sf := set_files _ s).
  rewrite kbind_gets, (proc_at_lookup (forking i sf _ k m' fl) p pp (Hp' c2)), Hcwd. cbn [deref].
  krun (forking_idup i d sf (<[i := c2]> ps) k m' fl Hc Hit). set (si := set_inodes _ sf).
  krun (forking_put i (with_cwd (Some d)) si _ k m' fl c2 (Hq c2)). rewrite list_insert_insert_eq.
  set (c3 := with_cwd _ _). rewrite kbind_gets, (proc_at_lookup (forking i si _ k m' fl) p pp (Hp' c3)).
  krun (forking_put i (fun x => with_name (name_set (p_name x) (until_nul (p_name pp))) x) si _ k m' fl c3 (Hq c3)).
  rewrite list_insert_insert_eq. set (c4 := with_name _ _).
  rewrite kbind_gets, (proc_at_lookup (forking i si _ k m' fl) i c4 (Hq c4)).
  krun (release_procs (LKproc i) (<[i := c4]> ps) (set_nextpid k (set_mem m' (set_freelist fl si))) Hc Hpi).
  set (sb := set_nextpid k _). assert (Hcb : cpu_ok (norm sb)) by (by apply (so_cpu (norm s)), sched_ok_norm).
  assert (Hnb : norm (norm sb) = norm sb) by (by apply norm_norm).
  etransitivity; [exact (locked_put LKwait i (with_parent (Some p)) ps c4 (norm sb) _ Hcb Hnb Hw Hil)|]. cbv beta.
  etransitivity; [exact (locked_put (LKproc i) i (set_state RUNNABLE) ps _ (norm sb) _ Hcb Hnb Hpi Hil)|]. cbv beta.
  set (c5 := set_state _ _). rewrite kbind_gets, (proc_at_lookup (set_procs _ (norm sb)) p pp (Hp' c5)).
  krun (put_proc_again i (with_mask (p_mask pp)) ps (norm sb) c5 Hil).
  unfold kret, child_of. rewrite Hcwd. reflexivity.
Qed.
(** ** The whole call *)

(** A process that can fork: slot [i], made from [x], is the first unused one;
    the free pages are [tf], [root] and [l]; the parent's memory is [n] pages,
    which, like its tables and its trapframe, are not free. *)
Record forks (s : kst) (p : nat) (pp : proc) (i : nat) (x : proc) (tf root : Z) (l : list Z) (n d : nat) : Prop := {
  fo_sched : sched_ok s;
  fo_cur : c_proc (mycpu s) = Some p;
  fo_parent : k_procs s !! p = Some pp;
  fo_running : p_state pp <> UNUSED;
  fo_slot : k_procs s !! i = Some x;
  fo_unused : p_state x = UNUSED;
  fo_first j q : (j < i)%nat -> k_procs s !! j = Some q -> p_state q <> UNUSED;
  fo_closed : p_ofile x = replicate NOFILE None;
  fo_locks : is_free LKpid s /\ is_free LKwait s /\ is_free LKftable s /\ is_free LKitable s;
  fo_kmem : kmem_inv s (tf :: root :: l);
  fo_table : pt_ok (k_mem s) (p_pagetable pp) (tf :: root :: l);
  fo_size : (Z.of_nat n - 1) * PGSIZE < p_sz pp <= Z.of_nat n * PGSIZE /\ Z.of_nat n * PGSIZE <= TRAPFRAME;
  fo_leaves : leaves (k_mem s) (p_pagetable pp) 0 n;
  fo_pages va : 0 <= va < Z.of_nat n * PGSIZE ->
    page_ok (PTE2PA (xpte (k_mem s) (p_pagetable pp) va)) /\ (PTE2PA (xpte (k_mem s) (p_pagetable pp) va) ∉ tf :: root :: l);
  fo_frame : page_ok (p_trapframe pp) /\ (p_trapframe pp ∉ tf :: root :: l);
  fo_fds : length (p_ofile pp) = NOFILE;
  fo_files : Forall (fun fd => forall f, fd = Some f -> exists y, k_files s !! f = Some y /\ 1 <= f_ref y) (p_ofile pp);
  fo_cwd : p_cwd pp = Some d
}.

Section run.
Context (s : kst) (p : nat) (pp : proc) (i : nat) (x : proc) (tf root : Z) (l : list Z) (n d : nat).
Hypothesis F : forks s p pp i x tf root l n d.

Lemma fo_ne : p <> i.
Proof using All. intros ->. pose proof (fo_parent _ _ _ _ _ _ _ _ _ _ F) as E. rewrite (fo_slot _ _ _ _ _ _ _ _ _ _ F) in E.
  injection E as <-. by destruct F. Qed.

(** Pages in use are outside the free ones. *)
Lemma in_use q a : page_ok q -> q ∉ tf :: root :: l -> in_page q a ->
  forall u, u ∈ tf :: root :: l -> a < u \/ u + PGSIZE <= a.
Proof using All.
  intros Hq Hl Ha u Hu. assert (Hup : page_ok u).
  { pose proof (ki_pages _ _ (fo_kmem _ _ _ _ _ _ _ _ _ _ F)) as Hps. rewrite Forall_forall in Hps. by apply Hps. }
  assert (u <> q) by (by intros ->). unfold in_page in Ha. destruct (page_disjoint u q); try done; lia.
Qed.

(** [allocproc] leaves a parent and a child for [uvmcopy]. *)
Lemma fork_forkable l' m fl ps k :
  kmem_inv (set_mem m (set_freelist fl (acquired (LKproc i) s))) l' -> pt_ok m root l' ->
  (forall va, 0 <= va < MAXVA -> xpte m root va = user_table tf va) ->
  took root (tf :: root :: l) (k_mem s) l' m ->
  forkable (p_pagetable pp) root (forking i s ps k m fl) l' n /\
  (forall va, xpte m (p_pagetable pp) va = xpte (k_mem s) (p_pagetable pp) va) /\
  (forall q a, page_ok q -> q ∉ tf :: root :: l -> in_page q a -> ld8 m a = ld8 (k_mem s) a).
Proof using All.
  intros Hk Ho Hx (T1 & T2 & T3). pose proof F as [? ? ? ? ? ? ? ? ? Fk Ft [_ Fs] Fl Fp ? ? ? ?].
  assert (Hkeep : forall q a, page_ok q -> q ∉ tf :: root :: l -> in_page q a -> ld8 m a = ld8 (k_mem s) a).
  { intros q a Hq Hl Ha. apply T1. by apply (in_use q). }
  assert (He : forall u j, is_node (k_mem s) (p_pagetable pp) u -> idx j -> ent m u j = ent (k_mem s) u j).
  { intros u j (r & Hr & Hu) Hj. apply ld_ext. intros b Hb.
    apply (Hkeep u); [exact (po_page _ _ _ Ft r u Hr Hu)|exact (po_free _ _ _ Ft r u Hr Hu)|]. unfold in_page, PGSIZE, idx in *. lia. }
  assert (Hxe : forall va, xpte m (p_pagetable pp) va = xpte (k_mem s) (p_pagetable pp) va) by (intros; by apply xpte_ext).
  assert (Hne : forall r, path r -> node m (p_pagetable pp) r = node (k_mem s) (p_pagetable pp) r) by (intros; by apply node_ext).
  split; [|done]. destruct trampoline_consts as (_ & _ & _ & _ & C5 & C6 & _). unfold PGSIZE in C5, C6.
  split.
  - apply kmem_inv_procs, kmem_inv_nextpid, Hk.
  - exact Ho.
  - destruct Ft as [O1 O2 O3]. split; cbn [forking k_mem].
    + intros r t Hr. change (k_mem _) with m. rewrite Hne by done. by apply O1.
    + intros r t Hr. change (k_mem _) with m. rewrite Hne by done. intros Ht Hin. apply (O2 r t Hr Ht), T3, Hin.
    + intros r q t Hr Hq. change (k_mem _) with m. rewrite !Hne by done. by apply O3.
  - change (k_mem _) with m. intros t Ht Hn. rewrite (is_node_ext _ _ _ _ Hne) in Ht. destruct Ht as (r & Hr & Ht).
    apply (po_free _ _ _ Ft r t Hr Ht), T2, Hn.
  - lia.
  - intros va Hva. change (k_mem _) with m. rewrite Hxe. by apply Fl.
  - intros va Hva. unfold page_of. change (k_mem _) with m. rewrite Hxe. destruct (Fp va Hva) as [P1 P2].
    split_and!; [done|intros Hin; by apply P2, T3|intros Hin; by apply P2, T2].
  - intros va Hva. change (k_mem _) with m. rewrite Hx by lia. unfold user_table. rewrite !decide_False by lia. apply has_0.
Qed.

(** What memory looks like after [fork]. *)
Record forked (m : memory) (l' : list Z) : Prop := {
  fd_ok : pt_ok m root l';
  fd_left q : q ∈ l' -> q ∈ l;
  fd_own va : 0 <= va < Z.of_nat n * PGSIZE -> PTE2PA (xpte m root va) ∈ l /\ PTE2PA (xpte m root va) ∉ l';
  fd_flags va : 0 <= va < Z.of_nat n * PGSIZE ->
    PTE_FLAGS (xpte m root va) = PTE_FLAGS (xpte (k_mem s) (p_pagetable pp) va);
  fd_bytes va : 0 <= va < Z.of_nat n * PGSIZE ->
    ld8 m (PTE2PA (xpte m root va) + va mod PGSIZE) =
      ld8 (k_mem s) (PTE2PA (xpte (k_mem s) (p_pagetable pp) va) + va mod PGSIZE);
  fd_inj va va' : 0 <= va < Z.of_nat n * PGSIZE -> 0 <= va' < Z.of_nat n * PGSIZE ->
    PTE2PA (xpte m root va) = PTE2PA (xpte m root va') -> va / PGSIZE = va' / PGSIZE;
  fd_rest va : Z.of_nat n * PGSIZE <= va < MAXVA -> xpte m root va = user_table tf va;
  fd_frame off : 0 <= off < sizeof_trapframe ->
    ld8 m (tf + off) = if decide (tf_a0 <= off < tf_a0 + 8) then 0 else ld8 (k_mem s) (p_trapframe pp + off);
  fd_keep q a : page_ok q -> q ∉ tf :: root :: l -> in_page q a -> ld8 m a = ld8 (k_mem s) a
}.

(** Copying the trapframe changes a page that is none of the child's. *)
Lemma frame_forked l1 s1 m l' : let m1 := k_mem s1 in
  (forall va, 0 <= va < MAXVA -> xpte m1 root va = user_table tf va) -> pt_ok m1 root l1 ->
  took root (tf :: root :: l) (k_mem s) l1 m1 -> (tf ∉ l1) -> ~ is_node m1 root tf ->
  (forall q a, page_ok q -> q ∉ tf :: root :: l -> in_page q a -> ld8 m1 a = ld8 (k_mem s) a) ->
  (forall va, xpte m1 (p_pagetable pp) va = xpte (k_mem s) (p_pagetable pp) va) ->
  (forall q a, page_ok q -> (q ∉ l1) -> ~ is_node m1 root q -> in_page q a -> ld8 m a = ld8 m1 a) ->
  mem_ok m -> copied (p_pagetable pp) root s1 l1 n m l' -> forked (frame_copied m tf (p_trapframe pp)) l'.
Proof using All.
  intros m1 X1 O1 (T1 & T2 & T3) Htl Htn K1 E1 Hkeep Hm [O Hsub Hnd Hown Hfl Hby Hinj Hrest]. fold m1 in Hnd, Hrest.
  pose proof F as [? ? ? ? ? ? ? ? ? Fk Ft [_ Fs] Fl Fp [Ff1 Ff2] ? ? ?].
  assert (Hfree : forall q, q ∈ tf :: root :: l -> page_ok q) by (pose proof (ki_pages _ _ Fk) as Hps; by rewrite Forall_forall in Hps).
  assert (Htf : page_ok tf) by (apply Hfree; left).
  assert (Hl : forall q, q ∈ l1 -> q ∈ l).
  { intros q Hq. pose proof (T3 q Hq) as H'. apply elem_of_cons in H' as [->|H']; [done|]. apply elem_of_cons in H' as [->|H']; [|done].
    exfalso. apply (po_free _ _ _ O1 [] root); [split; [simpl; lia|constructor]|done|done]. }
  set (m' := frame_copied m tf (p_trapframe pp)). pose proof (frame_copied_out m tf (p_trapframe pp)) as So. fold m' in So.
  assert (Htn' : ~ is_node m root tf) by (intros Ht; destruct (Hnd _ Ht); auto).
  assert (He : forall u j, is_node m root u -> idx j -> ent m' u j = ent m u j).
  { intros u j Hu Hj. apply (same_outside_ent tf); try done; [|by intros ->]. destruct Hu as (r & Hr & Hu). exact (po_page _ _ _ O r u Hr Hu). }
  assert (Hx : forall va, xpte m' root va = xpte m root va) by (intros; by apply xpte_ext).
  assert (Hn : forall r, path r -> node m' root r = node m root r) by (intros; by apply node_ext).
  assert (Hk : forall q a, page_ok q -> q ∉ tf :: root :: l -> in_page q a -> ld8 m' a = ld8 m a /\ ld8 m a = ld8 (k_mem s) a).
  { intros q a Hq Hql Ha. split; [apply So, (in_use q a Hq Hql Ha); left|]. rewrite <- (K1 q a Hq Hql Ha).
    apply (Hkeep q); [done|intros Hin; by apply Hql, T3|intros Hin; by apply Hql, T2|done]. }
  assert (Hmod : forall va, 0 <= va mod PGSIZE < PGSIZE) by (intros; by apply Z.mod_pos_bound).
  split.
  - destruct O as [P1 P2 P3]. split; intros *; intros Hr; [rewrite Hn by done; by apply P1|rewrite Hn by done; by apply P2|].
    intros Hr'. rewrite !Hn by done. by apply P3.
  - intros q Hq. by apply Hl, Hsub.
  - intros va Hva. rewrite Hx. destruct (Hown va Hva) as [H1 H2]. split; [by apply Hl|done].
  - intros va Hva. rewrite Hx, <- E1. by apply Hfl.
  - intros va Hva. rewrite Hx. destruct (Hown va Hva) as [H1 H2]. pose proof (Hby va Hva) as Hb. unfold child_byte, page_of in Hb. fold m1 in Hb.
    assert (Hne : PTE2PA (xpte m root va) <> tf) by (intros E; by rewrite E in H1).
    assert (Hqp : page_ok (PTE2PA (xpte m root va))) by (by apply Hfree, T3). specialize (Hmod va).
    rewrite So by (destruct (page_disjoint _ tf Hqp Htf Hne); lia). rewrite Hb, E1. destruct (Fp va Hva) as [Q1 Q2].
    apply (K1 _ _ Q1 Q2). unfold in_page. lia.
  - intros va va'. rewrite !Hx. apply Hinj.
  - intros va Hva. rewrite Hx, Hrest by done. apply X1. unfold PGSIZE in *. lia.
  - intros off Hoff. unfold m'. rewrite frame_copied_in by done. case_decide; [done|].
    apply (Hk _ _ Ff1 Ff2). unfold in_page, sizeof_trapframe, PGSIZE in *. lia.
  - intros q a Hq Hql Ha. destruct (Hk q a Hq Hql Ha) as [-> ->]. done.
Qed.

Definition child : proc := child_of p pp (spawned (k_nextpid s) tf root x).

(** The state of [fork] after [allocproc], with memory [m] and free list [fl]. *)
Definition fork_mid (m : memory) (fl : Z) : kst :=
  forking i s (<[i := spawned (k_nextpid s) tf root x]> (k_procs s)) (s32 (k_nextpid s + 1)) m fl.

(** Every page of the parent has one of its own in the copy. *)
Lemma copied_count s1 l1 m l2 : copied (p_pagetable pp) root s1 l1 n m l2 -> (n <= length l1)%nat.
Proof using Type.
  intros [_ _ _ Hown _ _ Hinj _]. assert (Hps : PGSIZE = 4096) by reflexivity.
  assert (Hs : ((fun k : nat => PTE2PA (xpte m root (Z.of_nat k * PGSIZE))) <$> seq 0 n) ⊆+ l1).
  { apply NoDup_submseteq.
    - apply NoDup_fmap_2_strong; [|apply NoDup_seq]. intros j k Hj%elem_of_seq Hk%elem_of_seq E.
      apply Hinj in E; rewrite Hps in *; [|lia..]. rewrite !Z.div_mul in E by done. lia.
    - intros q Hq. apply list_elem_of_fmap in Hq as (k & -> & Hk%elem_of_seq). apply Hown. rewrite Hps. lia. }
  apply submseteq_length in Hs. by rewrite length_fmap, length_seq in Hs.
Qed.

(** [fork] up to the copy of memory, once [allocproc] has made a process and
    left the pages [l1] free: the result [r] of [uvmcopy]. *)
Lemma fork_start l1 m1 fl1 : spawns (norm s) i x tf root l l1 m1 fl1 ->
  exists r m2 fl2, let s1 := fork_mid m1 fl1 in let s2 := fork_mid m2 fl2 in
  fork s = (if r <? 0 then (do! freeproc i; do! release (LKproc i); kret (-1)) s2 else fork_child p i pp s2) /\
  (forall va, xpte m1 (p_pagetable pp) va = xpte (k_mem s) (p_pagetable pp) va) /\
  (forall q a, page_ok q -> q ∉ tf :: root :: l -> in_page q a -> ld8 m1 a = ld8 (k_mem s) a) /\
  (forall q a, page_ok q -> (q ∉ l1) -> ~ is_node m1 root q -> in_page q a -> ld8 m2 a = ld8 m1 a) /\
  (r = 0 /\ (exists l2, kmem_inv s2 l2 /\ copied (p_pagetable pp) root s1 l1 n m2 l2) \/
   r = -1 /\ undone root s1 l1 n s2 /\ (length l1 <= 3 * n)%nat).
Proof using All.
  intros (R1 & K1 & O1 & X1 & T1 & C1 & Tl & Tn & Us & Sh1).
  pose proof F as [Fo Fc Fp Fr Fi Fu Ff Fcl (L1 & L2 & L3 & L4) Fk Ft Fs Fl Fpg Ffr Ffd Ffi Fcw].
  pose proof (so_cpu s Fo) as Hc. pose proof (lookup_lt_Some _ _ _ Fi) as Hil.
  unfold fork. krun (curproc_norm s p Hc Fc). rewrite (acquired_norm (LKproc i) s Hc) in R1, K1. krun R1.
  change (set_procs _ _) with (fork_mid m1 fl1). set (s1 := fork_mid m1 fl1).
  destruct (fork_forkable l1 m1 fl1 (k_procs s1) (k_nextpid s1) K1 O1 X1 T1) as (Fk1 & E1 & Kp1). fold s1 in Fk1.
  assert (Hp : k_procs s1 !! p = Some pp) by (simpl; rewrite list_lookup_insert_ne; [done|apply not_eq_sym, fo_ne]).
  assert (Hi : k_procs s1 !! i = Some (spawned (k_nextpid s) tf root x)) by (by apply list_lookup_insert_eq).
  rewrite !kbind_gets, (proc_at_lookup s1 p pp Hp), (proc_at_lookup s1 i _ Hi).
  destruct (uvmcopy_run (p_pagetable pp) root s1 l1 n Fk1 (p_sz pp) (proj1 Fs)) as (r & s2 & R2 & N2 & Kp2 & E2 & Hr). krun R2.
  assert (Hc2 : cpu_ok s2).
  { destruct Hr as [(_ & l2 & K2 & _)|(_ & [(l2 & K2 & _) _ _ _ _ _ _ _] & _)]; exact (ki_cpu _ _ K2). }
  pose proof (frame_nested s1 s2 N2 Hc2 (nested_acquired (LKproc i) s Hc)) as E3.
  change (set_mem _ _) with (fork_mid (k_mem s2) (k_freelist s2)) in E3.
  exists r, (k_mem s2), (k_freelist s2). rewrite <- E3. fold s1.
  split; [by destruct (r <? 0)|]. by split_and!.
Qed.

Lemma fork_run : (3 * n + 5 <= length l)%nat -> exists m fl l',
  let s' := set_procs (<[i := child]> (k_procs s)) (set_inodes (cwd_held d (k_inodes s))
    (set_files (foldl dup_one (k_files s) (p_ofile pp))
      (set_nextpid (s32 (k_nextpid s + 1)) (set_mem m (set_freelist fl (norm s)))))) in
  fork s = Ret (k_nextpid s) s' /\ kmem_inv s' l' /\ forked m l' /\
  (forall f y, k_files s !! f = Some y ->
     k_files s' !! f = Some (set_fref (f_ref y + Z.of_nat (opens f (p_ofile pp))) y)) /\
  (forall va, xpte m (p_pagetable pp) va = xpte (k_mem s) (p_pagetable pp) va).
Proof using All.
  intros Hen. pose proof F as [Fo Fc Fp Fr Fi Fu Ff Fcl (L1 & L2 & L3 & L4) Fk Ft Fs Fl Fpg Ffr Ffd Ffi Fcw].
  pose proof (lookup_lt_Some _ _ _ Fi) as Hil.
  destruct (allocproc_run (norm s) i x tf root l (sched_ok_norm s Fo) L1 (kmem_inv_norm _ _ Fk) ltac:(lia) Fi Fu Ff)
    as (l1 & m1 & fl1 & Hsp).
  destruct (fork_start l1 m1 fl1 Hsp) as (r & m2 & fl2 & R & E1 & Kp1 & Kp2 & Hr).
  destruct Hsp as (_ & _ & O1 & X1 & T1 & C1 & Tl & Tn & _).
  destruct Hr as [(-> & l2 & K2 & Cp)|(-> & _ & Hlen)]; [|lia]. cbn [Z.ltb Z.compare] in R. rewrite R. unfold fork_mid.
  set (c := spawned (k_nextpid s) tf root x). set (ps := <[i := c]> (k_procs s)). set (k := s32 (k_nextpid s + 1)).
  rewrite (fork_child_run p i pp c d s ps k m2 fl2 Fo L2 L3 L4);
    [|unfold ps; rewrite list_lookup_insert_ne; [done|apply not_eq_sym, fo_ne]|by apply list_lookup_insert_eq
     |unfold ps; rewrite length_insert; apply Fo|apply fo_ne|done|done|done|done].
  unfold ps. rewrite list_insert_insert_eq. exists (frame_copied m2 tf (p_trapframe pp)), fl2, l2.
  pose proof (frame_forked l1 (fork_mid m1 fl1) m2 l2 X1 O1 T1 Tl Tn Kp1 E1 Kp2 (ki_mem _ _ K2) Cp) as Fd.
  split; [done|]. split; [|split; [exact Fd|split]].
  - destruct Cp as [_ Hsub _ _ _ _ _ _]. destruct (kmem_inv_norm _ _ Fk) as [_ _ _ A4 A5 _]. destruct K2 as [B1 B2 B3 _ _ B6].
    split; [|done|done|done|done|by apply frame_copied_ok].
    apply (flist_ext m2); [|exact B1]. intros q Hq. apply ld_ext. intros b Hb. symmetry.
    apply frame_copied_out. rewrite Forall_forall in B3. pose proof (ki_pages _ _ Fk) as Hps. apply Forall_cons in Hps as [Htf _].
    assert (q <> tf) by (intros ->; by apply Tl, Hsub).
    destruct (page_disjoint q tf) as [Hd|Hd]; [by apply B3|done|done| |]; unfold PGSIZE in *; simpl in Hb; lia.
  - intros f y Hy. exact (dup_all (p_ofile pp) (k_files s) f y Hy).
  - intros va. apply xpte_ext. intros u j (r & Hr & Hu) Hj. apply ld_ext. intros b Hb.
    apply (fd_keep _ _ Fd u); [exact (po_page _ _ _ Ft r u Hr Hu)|exact (po_free _ _ _ Ft r u Hr Hu)|].
    unfold in_page, PGSIZE, idx in *. lia.
Qed.

(** C5: [fork], by a process whose memory is [n] pages and with at least
    [3 n + 7] free pages, succeeds and returns the next pid.
    The first unused slot becomes a runnable process with that pid, whose
    parent is the caller, with the caller's size, name, open files, current
    directory and trace mask.  It maps every page of the caller, with the same
    permissions, to a page of its own with the same bytes, and above them the
    trampoline and its trapframe, which is the caller's but for a 0 in [a0].
    Every open file and the current directory gain one reference for each
    new use, and memory that was not free, the caller's included, is as it
    was. *)
Theorem fork_spec : (3 * n + 5 <= length l)%nat -> exists m fl l',
  let s' := set_procs (<[i := child]> (k_procs s)) (set_inodes (cwd_held d (k_inodes s))
    (set_files (foldl dup_one (k_files s) (p_ofile pp))
      (set_nextpid (s32 (k_nextpid s + 1)) (set_mem m (set_freelist fl (norm s)))))) in
  fork s = Ret (k_nextpid s) s' /\ kmem_inv s' l' /\ forked m l' /\
  (forall f y, k_files s !! f = Some y ->
     k_files s' !! f = Some (set_fref (f_ref y + Z.of_nat (opens f (p_ofile pp))) y)) /\
  (forall va, xpte m (p_pagetable pp) va = xpte (k_mem s) (p_pagetable pp) va).
Proof using All. exact fork_run. Qed.
End run.
End fork.

(** ** A parent with one page and an open file *)

Section demo.
#[local] Existing Instance demo_linker.
#[local] Existing Instance demo_linker_ok.

Definition demo_parent (root f : Z) : proc :=
  mkproc RUNNING None 0 0 1 None 0 PGSIZE root f context0 (Some 0%nat :: replicate 15 None) (Some 0%nat) (replicate 16 0) 0.

Definition demo_flocks : gmap lockid spinlock :=
  <[LKkmem := lock_free]> (<[LKwait := lock_free]> (<[LKftable := lock_free]> (<[LKitable := lock_free]> demo_plocks))).

(** CPU 0 runs process 0. *)
Definition demo_running (root f : Z) : kst :=
  set_files (<[0%nat := set_fref 1 file0]> (k_files boot))
    (set_locks demo_flocks (set_cpus (<[0%nat := mkcpu (Some 0%nat) 0 false false]> (k_cpus boot))
      (set_procs (demo_parent root f :: replicate 63 proc0) boot))).

Lemma demo_flocks_free root f : procs_free (demo_running root f).
Proof.
  intros i Hi. unfold is_free, demo_running, demo_flocks. cbn [k_locks set_locks set_files]. rewrite !lookup_insert_ne by done.
  pose proof (demo_plocks_free i Hi) as H. unfold is_free in H. cbn [k_locks set_locks] in H. by rewrite lookup_insert_ne in H.
Qed.

Lemma demo_forks : exists s pp tf root l, forks s 0 pp 1 proc0 tf root l 1 0 /\ (3 * 1 + 5 <= length l)%nat.
Proof.
  destruct demo_mapped as (s & root0 & q & l & Hk & Ho & X & Hn & Hq & Hl & Hlen & Hsh).
  destruct l as [|f [|tf [|root l]]]; [simpl in Hlen; lia..|].
  destruct (kalloc_tables root0 s _ _ Hk Ho) as (s2 & _ & Hk2 & Ho2 & X2 & _ & Hnf & Hf & Hfl).
  exists (set_mem (k_mem s2) (set_freelist (k_freelist s2) (demo_running root0 f))), (demo_parent root0 f), tf, root, l.
  destruct (page_bounds q Hq) as [Hb Ha].
  destruct (mkpte_spec q demo_perm Hb Ha) as (Hv & Hpa & Hfg & _); [vm_compute; split; [discriminate|reflexivity]|].
  assert (X0 : forall va, 0 <= va < Z.of_nat 1 * PGSIZE -> xpte (k_mem s2) root0 va = mkpte q demo_perm).
  { intros va Hva. rewrite X2, X by (change MAXVA with (2 ^ 38); unfold PGSIZE in *; lia). apply decide_True. unfold PGSIZE in *. lia. }
  split; [|simpl in Hlen; lia]. split; try reflexivity; try discriminate.
  - split; [split; [simpl; lia|simpl; split; [lia|done]]|exact (demo_flocks_free root0 f)|reflexivity].
  - intros [|j] y Hj Hy; [|lia]. injection Hy as <-. discriminate.
  - repeat split.
  - destruct Hk2 as [A1 A2 A3 A4 A5 A6]. split; try assumption; [reflexivity|]. split; [simpl; lia|simpl; split; [lia|done]].
  - exact Ho2.
  - unfold TRAPFRAME, PGSIZE. vm_compute. repeat split; discriminate.
  - intros va Hva. change (k_mem _) with (k_mem s2). change (p_pagetable _) with root0. rewrite X0 by lia. split; [done|]. rewrite Hfg. vm_compute. discriminate.
  - intros va Hva. change (k_mem _) with (k_mem s2). change (p_pagetable _) with root0. rewrite X0, Hpa by done. split; [done|].
    intros Hin. apply Hl. by right.
  - split; [exact Hf|exact Hfl].
  - repeat constructor; intros g Hg; [|discriminate..]. injection Hg as <-. by exists (set_fref 1 file0).
Qed.

#[local] Existing Instance mem_disk.
#[local] Instance quiet_devices : Devices := fun _ _ => 0x20.

Lemma fork_spec_witness : exists s s' pid, fork s = Ret pid s' /\ p_state (proc_at s' 1) = RUNNABLE.
Proof.
  destruct demo_forks as (s & pp & tf & root & l & F & Hlen).
  destruct (fork_spec s 0 pp 1 proc0 tf root l 1 0) as (m & fl & l' & R & _).
  - exact F.
  - exact Hlen.
  - eexists s, _, _. split; [exact R|]. unfold proc_at. cbn [k_procs set_procs].
    rewrite list_lookup_insert_eq by (rewrite (so_procs _ (fo_sched _ _ _ _ _ _ _ _ _ _ F)); unfold NPROC; lia). reflexivity.
Defined.
End demo.
