(* ===== verification/Reap.v ===== *)
(** * The end of a process: [freeproc] and [wait] of kernel/proc.c

    Everything a process holds goes back to the allocator; [wait] for a zombie
    relies on it, and so does [fork] when memory runs out at any point. *)

From S2P Require Import Prelude Param Mem CString Kernel Spinlock Kalloc Sched Sleeplock Vm PageTable UserCopy FreeVm ForkVm Uart Printf Bio Log Fs Console Pipe File Proc Spawn Fork.
Open Scope Z_scope.

Section reap.
Context `{L : Linker, HL : !LinkerOk, Dk : Disk, D : Devices}.

(** The address space of a process: [n] pages of its own from 0, the
    trampoline and the trapframe page [tf] on top, and nothing else. *)
Record address_space (m : memory) (root tf : Z) (n : nat) (l : list Z) : Prop := {
  as_ok : pt_ok m root l;
  as_shape : pt_shape m root;
  as_top : Z.of_nat n * PGSIZE <= TRAPFRAME;
  as_leaves : leaves m root 0 n;
  as_pages : freeable m root l (upages m root 0 n);
  as_gap va : Z.of_nat n * PGSIZE <= va < TRAPFRAME -> has (xpte m root va) PTE_V = false;
  as_rest va : TRAPFRAME <= va < MAXVA -> xpte m root va = user_table tf va
}.

(** The tables stay what they are when pages that are none of them, nor of
    the process, are given back or entries above its memory are cleared. *)
Lemma upages_above m m' root n : Z.of_nat n * PGSIZE <= TRAPFRAME ->
  (forall va, 0 <= va < TRAPFRAME -> xpte m' root va = xpte m root va) -> upages m' root 0 n = upages m root 0 n.
Proof. intros Hn Hx. apply upages_ext. intros va H1 H2. apply Hx. lia. Qed.

Lemma proc_freepagetable_run root tf sz n s l :
  kmem_inv s l -> address_space (k_mem s) root tf n l -> page_ok tf ->
  (Z.of_nat n - 1) * PGSIZE < sz <= Z.of_nat n * PGSIZE ->
  exists s' ts, proc_freepagetable root sz s = Ret tt s' /\ (forall t, t ∈ ts <-> is_node (k_mem s) root t) /\
    NoDup (ts ++ upages (k_mem s) root 0 n ++ l) /\
    freed (ts ++ upages (k_mem s) root 0 n) (ts ++ upages (k_mem s) root 0 n) l s s'.
Proof.
  intros Hk [Ho Hs Htop Hlv Hfr Hg Hx] Htf Hsz. unfold proc_freepagetable.
  destruct trampoline_consts as (_ & _ & _ & _ & C5 & C6 & C7). destruct trampoline_range as [T1 T2].
  destruct linker_trampoline as [Tal _]. destruct (page_bounds tf Htf) as [F1 F2]. assert (Hps : PGSIZE = 4096) by reflexivity.
  destruct (unmap_top root TRAMPOLINE sym_trampoline (Z.lor PTE_R PTE_X) s l Hk Ho) as (s1 & R1 & U1 & X1);
    [by left| |rewrite Hps in T2; lia|done|vm_compute; split; [discriminate|done]|vm_compute; discriminate|].
  { intros x Hx'. rewrite Hx by lia. unfold user_table. by rewrite decide_True by lia. }
  krun R1.
  destruct (unmap_top root TRAPFRAME tf (Z.lor PTE_R PTE_W) s1 l (ur_kmem _ _ _ _ _ U1) (ur_ok _ _ _ _ _ U1)) as (s2 & R2 & U2 & X2);
    [by right| |done|done|vm_compute; split; [discriminate|done]|vm_compute; discriminate|].
  { intros x Hx'. rewrite X1 by lia. rewrite decide_False by lia. rewrite Hx by lia. unfold user_table. by rewrite decide_False, decide_True by lia. }
  krun R2. pose proof (unmap_trans root l s [] s1 [] s2 U1 U2) as [K2 O2 Fr2 N2 M2 S2].
  assert (Xlow : forall va, 0 <= va < TRAPFRAME -> xpte (k_mem s2) root va = xpte (k_mem s) root va).
  { intros va Hva. rewrite X2, X1 by lia. by rewrite !decide_False by lia. }
  assert (Eup : upages (k_mem s2) root 0 n = upages (k_mem s) root 0 n) by (by apply upages_above).
  destruct (uvmfree_run root sz n s2 l K2 O2 (S2 Hs) Hsz) as (s' & ts & R & Hts & Nd & F); [lia| | | |].
  { intros va Hva. rewrite Xlow by lia. by apply Hlv. }
  { rewrite Eup. destruct Hfr as [H1 H2]. split; [done|]. intros pa Hpa. by rewrite (is_node_ext _ _ _ _ N2); auto. }
  { intros va Hva. assert (0 <= va) by (rewrite Hps in *; lia). rewrite X2, X1 by lia. repeat case_decide; try apply has_0.
    apply Hg. lia. }
  rewrite Eup in *. exists s', ts. split; [done|]. split; [intros t; by rewrite Hts, (is_node_ext _ _ _ _ N2)|]. split; [done|].
  destruct F as [Fk Fr O]. split; [done|rewrite Fr, Fr2; reflexivity|]. intros a Ha. rewrite O by done. apply M2.
  intros q [Hq|Hq]; [|by apply elem_of_nil in Hq]. apply Ha. rewrite elem_of_app. left. by rewrite Hts, (is_node_ext _ _ _ _ N2).
Qed.

(** ** [freeproc] *)

(** What a process holds. *)
Record holds (m : memory) (x : proc) (n : nat) (l : list Z) : Prop := {
  ho_space : address_space m (p_pagetable x) (p_trapframe x) n l;
  ho_size : (Z.of_nat n - 1) * PGSIZE < p_sz x <= Z.of_nat n * PGSIZE;
  ho_frame : page_ok (p_trapframe x) /\ (p_trapframe x ∉ l) /\ (~ is_node m (p_pagetable x) (p_trapframe x)) /\
    p_trapframe x ∉ upages m (p_pagetable x) 0 n
}.

Lemma freeproc_run i x n s l :
  nested s -> kmem_inv s l -> k_procs s !! i = Some x -> holds (k_mem s) x n l ->
  exists m fl l' ts, freeproc i s = Ret tt (set_procs (<[i := cleared x]> (k_procs s)) (set_mem m (set_freelist fl s))) /\
    kmem_inv (set_mem m (set_freelist fl s)) l' /\
    l' ≡ₚ p_trapframe x :: ts ++ upages (k_mem s) (p_pagetable x) 0 n ++ l /\
    (forall t, t ∈ ts <-> is_node (k_mem s) (p_pagetable x) t) /\
    forall a, (forall q, q ∈ p_trapframe x :: ts ++ upages (k_mem s) (p_pagetable x) 0 n -> a < q \/ q + PGSIZE <= a) ->
      ld8 m a = ld8 (k_mem s) a.
Proof.
  intros Hn Hk Hx [[Ho Hs Htop Hlv [Hnd Hfr] Hg Hr] Hsz (F1 & F2 & F3 & F4)].
  set (tf := p_trapframe x) in *. set (root := p_pagetable x) in *. set (up := upages (k_mem s) root 0 n) in *.
  pose proof (lookup_lt_Some _ _ _ Hx) as Hil. pose proof (page_pos tf F1).
  assert (Hroot : page_ok root) by (apply (po_page _ _ _ Ho []); [split; [simpl; lia|constructor]|done]).
  pose proof (page_pos root Hroot). unfold freeproc. rewrite kbind_gets, (proc_at_lookup s i x Hx). fold tf.
  destruct (Z.eqb_spec tf 0); [lia|]. cbn [negb].
  destruct (free_rel root l s tf Hk Ho F1 F2 F3) as (s1 & R1 & U1 & X1). krun R1. destruct U1 as [K1 O1 Fr1 N1 M1 S1].
  pose proof (frame_nested s s1 Fr1 (ki_cpu _ _ K1) Hn) as E1.
  assert (Hx1 : k_procs s1 !! i = Some x) by (by rewrite E1).
  krun (put_proc_run i (with_trapframe 0) s1 x Hx1).
  assert (Hq1 : k_procs s1 = k_procs s) by (rewrite E1; reflexivity). rewrite Hq1. set (s2 := set_procs _ s1).
  rewrite kbind_gets, (proc_at_lookup s2 i (with_trapframe 0 x)) by (simpl; by apply list_lookup_insert_eq).
  change (p_pagetable (with_trapframe 0 x)) with root. change (p_sz (with_trapframe 0 x)) with (p_sz x).
  destruct (Z.eqb_spec root 0); [lia|]. cbn [negb].
  assert (Eup : upages (k_mem s1) root 0 n = up) by (apply upages_above; [done|]; intros; apply X1).
  destruct (proc_freepagetable_run root tf (p_sz x) n s2 ([tf] ++ l)) as (s3 & ts & R3 & Hts & Nd & F); try done.
  { by apply kmem_inv_procs. }
  { change (k_mem s2) with (k_mem s1). split; try done; [auto|..].
    - intros va Hva. rewrite X1. by apply Hlv.
    - rewrite Eup. split; [done|]. intros pa Hpa. rewrite (is_node_ext _ _ _ _ N1). destruct (Hfr pa Hpa) as (G1 & G2 & G3).
      split_and!; [done| |done]. simpl. apply not_elem_of_cons. split; [by intros ->|done].
    - intros va Hva. rewrite X1. by apply Hg.
    - intros va Hva. rewrite X1. by apply Hr. }
  change (k_mem s2) with (k_mem s1) in *. rewrite Eup in *. krun R3. destruct F as [(l3 & K3 & P3) Fr3 O3].
  assert (N2 : nested s2) by (unfold s2; rewrite E1; exact Hn).
  pose proof (frame_nested s2 s3 Fr3 (ki_cpu _ _ K3) N2) as E3.
  assert (Hx3 : k_procs s3 !! i = Some (with_trapframe 0 x)) by (rewrite E3; simpl; by apply list_lookup_insert_eq).
  krun (put_proc_run i (with_pagetable 0) s3 _ Hx3).
  assert (Hq3 : k_procs s3 = <[i := with_trapframe 0 x]> (k_procs s)) by (rewrite E3; reflexivity). rewrite Hq3, list_insert_insert_eq.
  do 7 (erewrite obind_Ret by (by apply put_proc_again)). rewrite put_proc_again by done.
  exists (k_mem s3), (k_freelist s3), l3, ts. split; [|split; [|split; [|split]]].
  - rewrite E3. unfold s2. rewrite E1. reflexivity.
  - destruct K3 as [A1 A2 A3 A4 A5 A6]. destruct Hk as [B1 B2 B3 B4 B5 B6]. by split.
  - rewrite P3. rewrite <- app_assoc. simpl. rewrite !app_assoc. symmetry. apply Permutation_middle.
  - intros t. by rewrite Hts, (is_node_ext _ _ _ _ N1).
  - intros a Ha. rewrite O3 by (intros q Hq; apply Ha; by right). apply M1. intros q [Hq|Hq]; apply Ha.
    + right. rewrite elem_of_app, Hts, (is_node_ext _ _ _ _ N1). by left.
    + apply list_elem_of_singleton in Hq as ->. left.
Qed.

(** A process without memory of its own. *)
Lemma fresh_holds m x tf root l :
  p_pagetable x = root -> p_trapframe x = tf -> p_sz x = 0 ->
  pt_ok m root l -> pt_shape m root -> page_ok tf -> (tf ∉ l) -> ~ is_node m root tf ->
  (forall va, 0 <= va < TRAPFRAME -> has (xpte m root va) PTE_V = false) ->
  (forall va, TRAPFRAME <= va < MAXVA -> xpte m root va = user_table tf va) -> holds m x 0 l.
Proof.
  intros <- <- Hz Ho Hs Htf Hl Hn Hg Hr. destruct trampoline_consts as (_ & _ & _ & _ & _ & _ & C7).
  split; [split; try done|rewrite Hz; unfold PGSIZE; simpl; lia|split_and!; try done; apply not_elem_of_nil].
  - intros va Hva. change (Z.of_nat 0 * PGSIZE) with 0 in Hva. lia.
  - split; [constructor|]. intros pa Hpa. by apply elem_of_nil in Hpa.
Qed.

(** ** [fork] without enough memory *)

(** A process that calls [fork], with any number of free pages [fr] and with
    or without an unused slot.  [freeproc] leaves unused slots without a page
    table, size or open files. *)
Record calls_fork (s : kst) (p : nat) (pp : proc) (fr : list Z) (n d : nat) : Prop := {
  cf_sched : sched_ok s;
  cf_cur : c_proc (mycpu s) = Some p;
  cf_parent : k_procs s !! p = Some pp;
  cf_running : p_state pp <> UNUSED;
  cf_unused j q : k_procs s !! j = Some q -> p_state q = UNUSED ->
    p_ofile q = replicate NOFILE None /\ p_pagetable q = 0 /\ p_sz q = 0;
  cf_locks : is_free LKpid s /\ is_free LKwait s /\ is_free LKftable s /\ is_free LKitable s;
  cf_kmem : kmem_inv s fr;
  cf_table : pt_ok (k_mem s) (p_pagetable pp) fr;
  cf_size : (Z.of_nat n - 1) * PGSIZE < p_sz pp <= Z.of_nat n * PGSIZE /\ Z.of_nat n * PGSIZE <= TRAPFRAME;
  cf_leaves : leaves (k_mem s) (p_pagetable pp) 0 n;
  cf_pages va : 0 <= va < Z.of_nat n * PGSIZE ->
    page_ok (PTE2PA (xpte (k_mem s) (p_pagetable pp) va)) /\ PTE2PA (xpte (k_mem s) (p_pagetable pp) va) ∉ fr;
  cf_frame : page_ok (p_trapframe pp) /\ p_trapframe pp ∉ fr;
  cf_fds : length (p_ofile pp) = NOFILE;
  cf_files : Forall (fun fd => forall f, fd = Some f -> exists y, k_files s !! f = Some y /\ 1 <= f_ref y) (p_ofile pp);
  cf_cwd : p_cwd pp = Some d
}.

(** [fork] returned -1: slot [i] is unused again, the next pid has moved on,
    and exactly the pages [fr] are free. *)
Definition fork_undone (s : kst) (fr : list Z) (i : nat) (x : proc) (s' : kst) : Prop :=
  exists cx t, gave_back fr (norm s) t /\
    s' = set_procs (<[i := with_context cx (cleared x)]> (k_procs s)) (set_nextpid (s32 (k_nextpid s + 1)) t).

Section undo.
Context (s : kst) (p : nat) (pp : proc) (i : nat) (x : proc) (tf root : Z) (l : list Z) (n d : nat).
Hypothesis F : forks s p pp i x tf root l n d.

(** What is left of a failed copy is the process [allocproc] made. *)
Lemma undone_holds m1 fl1 l1 m2 fl2 l2 :
  (forall va, 0 <= va < MAXVA -> xpte m1 root va = user_table tf va) -> pt_shape m1 root -> (tf ∉ l1) -> ~ is_node m1 root tf ->
  p_sz x = 0 -> undone root (fork_mid s i x tf root m1 fl1) l1 n (fork_mid s i x tf root m2 fl2) ->
  pt_ok m2 root l2 -> (forall q, q ∈ l2 -> q ∈ l1) -> holds m2 (spawned (k_nextpid s) tf root x) 0 l2.
Proof using All.
  intros X1 Sh Tl Tn Hz [_ _ Um _ Ur Un _ Us] O2 Hsub. pose proof F as [? ? ? ? ? ? ? ? ? Fk ? [_ Fs] ? ? ? ? ? ?].
  destruct trampoline_consts as (_ & _ & _ & _ & C5 & C6 & C7). assert (Hps : PGSIZE = 4096) by reflexivity.
  assert (Htf : page_ok tf) by (pose proof (ki_pages _ _ Fk) as Hp; by apply Forall_cons in Hp as [? _]).
  apply (fresh_holds m2 _ tf root); try done; [exact (Us Sh)|auto| | |].
  - intros Hin. destruct (Un tf Hin); auto.
  - intros va Hva. pose proof (Um va ltac:(lia)) as E.
    change (has (xpte m2 root va) PTE_V = has (xpte m1 root va) PTE_V) in E.
    rewrite E, X1 by lia. unfold user_table. rewrite !decide_False by lia. apply has_0.
  - intros va Hva. assert (Hr : Z.of_nat n * PGSIZE <= va < MAXVA) by lia. pose proof (Ur va Hr) as E.
    change (xpte m2 root va = xpte m1 root va) in E. rewrite E. apply X1. lia.
Qed.

(** [fork] after [allocproc] made a process: it succeeds, or the copy runs
    out of memory and everything is undone. *)
Lemma fork_or_undone l1 m1 fl1 : p_sz x = 0 -> spawns (norm s) i x tf root l l1 m1 fl1 ->
  exists r s', fork s = Ret r s' /\
    ((r = k_nextpid s /\ (n + 2 <= length l)%nat /\ k_procs s' = <[i := child s p pp x tf root]> (k_procs s)) \/
     (r = -1 /\ (length l < 3 * n + 5)%nat /\ fork_undone s (tf :: root :: l) i x s')).
Proof using All.
  intros Hz Hsp. pose proof F as [Fo Fc Fp Fr Fi Fu Ff Fcl (L1 & L2 & L3 & L4) Fk Ft Fs Fl Fpg Ffr Ffd Ffi Fcw].
  pose proof (lookup_lt_Some _ _ _ Fi) as Hil. pose proof (fo_ne _ _ _ _ _ _ _ _ _ _ F) as Hne. pose proof (so_cpu s Fo) as Hc.
  destruct (fork_start _ _ _ _ _ _ _ _ _ _ F l1 m1 fl1 Hsp) as (r & m2 & fl2 & R & E1 & Kp1 & Kp2 & Hr).
  destruct Hsp as (_ & _ & O1 & X1 & (T1 & T2 & T3) & C1 & Tl & Tn & Us & Sh1).
  set (c := spawned (k_nextpid s) tf root x).
  destruct Hr as [(-> & l2 & K2 & Cp)|(-> & Un & Hlen)]; cbn [Z.ltb Z.compare] in R; rewrite R.
  { unfold fork_mid. rewrite (fork_child_run p i pp c d s) ; try done;
      [|by rewrite list_lookup_insert_ne|by apply list_lookup_insert_eq|rewrite length_insert; apply Fo].
    eexists _, _. split; [reflexivity|left]. split; [done|]. apply copied_count in Cp. split; [lia|].
    cbn [k_procs set_procs]. by rewrite list_insert_insert_eq. }
  destruct (un_free _ _ _ _ _ Un) as (l2 & K2 & O2 & Sub2 & Cov2). set (s2 := fork_mid s i x tf root m2 fl2) in *.
  assert (Hi : k_procs s2 !! i = Some c) by (by apply list_lookup_insert_eq).
  pose proof (undone_holds m1 fl1 l1 m2 fl2 l2 X1 Sh1 Tl Tn Hz Un O2 Sub2) as Hh.
  destruct (freeproc_run i c 0 s2 l2 (nested_acquired (LKproc i) s Hc) K2 Hi Hh) as (m & fl & l' & ts & Rf & K & P & Hts & Out).
  krun Rf. change (k_procs s2) with (<[i := c]> (k_procs s)). rewrite list_insert_insert_eq.
  krun (release_procs (LKproc i) (<[i := cleared c]> (k_procs s)) (set_nextpid (s32 (k_nextpid s + 1)) (set_mem m (set_freelist fl s)))
    Hc (so_free s Fo i ltac:(rewrite <- (so_procs s Fo); done))).
  eexists (-1), _. split; [reflexivity|right]. split; [done|]. split; [lia|].
  exists (p_context c), (set_mem m (set_freelist fl (norm s))). split; [|reflexivity].
  change (p_trapframe c) with tf in *. change (p_pagetable c) with root in *. simpl (upages _ _ _ _) in *. rewrite app_nil_l in P.
  assert (Hnode : forall q, q ∈ ts -> is_node m1 root q \/ q ∈ l1) by (intros q Hq; apply (un_nodes _ _ _ _ _ Un), Hts, Hq).
  assert (Hin : forall q, q ∈ tf :: ts -> q ∈ tf :: root :: l).
  { intros q Hq. apply elem_of_cons in Hq as [->|Hq]; [left|]. destruct (Hnode q Hq); auto. }
  split; [|split; [reflexivity|]].
  - exists l'. split; [exact (kmem_inv_frame s s2 _ m fl Fk _ K)|].
    apply NoDup_Permutation; [apply K|apply Fk|]. intros q. rewrite P, elem_of_cons, elem_of_app. split.
    + intros [->|[Hq|Hq]]; [left|apply Hin; by right|by apply T3, Sub2].
    + intros Hq. apply elem_of_cons in Hq as [->|Hq]; [by left|right].
      destruct (Us q Hq) as [H1|H1]; [|left; apply Hts, (un_mono _ _ _ _ _ Un), H1].
      destruct (Cov2 q H1); [by right|left; by apply Hts].
  - intros a Ha. change (ld8 m a = ld8 (k_mem s) a). rewrite Out by (intros u Hu; rewrite app_nil_r in Hu; by apply Ha, Hin).
    pose proof (un_out _ _ _ _ _ Un a) as Ho. rewrite Ho; [by apply T1|]. intros q [Hq|Hq]; apply Ha; auto.
Qed.
End undo.

(** The first unused slot, if there is one. *)
Lemma first_unused (ps : list proc) :
  (forall j q, ps !! j = Some q -> p_state q <> UNUSED) \/
  exists i x, ps !! i = Some x /\ p_state x = UNUSED /\ forall j q, (j < i)%nat -> ps !! j = Some q -> p_state q <> UNUSED.
Proof.
  destruct (list_find (fun q => p_state q = UNUSED) ps) as [[i x]|] eqn:E.
  - apply list_find_Some in E as (H1 & H2 & H3). right. exists i, x. split; [done|]. split; [done|]. intros j q Hj Hq. by apply (H3 j q).
  - apply list_find_None in E. left. intros j q Hq. rewrite Forall_lookup in E. by apply (E j q).
Qed.

(** C6: [fork] does not leak.  Whatever memory and slots there are, [fork]
    returns.  It returns the new pid, with the child in an unused slot; or it
    returns -1 because no slot is unused, and nothing has changed; or it
    returns -1 because memory ran out, in [allocproc] for the trapframe or the
    page table or in [uvmcopy] for the copy.  In the last case every page it
    took, the trapframe, the page tables and the pages copied so far, has been
    given back: exactly the pages that were free are free, all memory outside
    them is unchanged, the slot is unused again, and only the next pid has
    moved on.  Memory runs out only with fewer than [3 n + 7] free pages for a
    caller of [n] pages, and always with fewer than [n + 4]. *)
Theorem fork_no_leak s p pp fr n d : calls_fork s p pp fr n d ->
  exists r s', fork s = Ret r s' /\
    ((r = k_nextpid s /\ (n + 4 <= length fr)%nat /\
      exists i x tf root, k_procs s !! i = Some x /\ p_state x = UNUSED /\
        k_procs s' = <[i := child s p pp x tf root]> (k_procs s)) \/
     (r = -1 /\ (forall j q, k_procs s !! j = Some q -> p_state q <> UNUSED) /\ s' = norm s) \/
     (r = -1 /\ (length fr < 3 * n + 7)%nat /\
      exists i x, k_procs s !! i = Some x /\ p_state x = UNUSED /\ fork_undone s fr i x s')).
Proof.
  intros [Fo Fc Fp Fr Fu (L1 & L2 & L3 & L4) Fk Ft Fs Fl Fpg Ffr Ffd Ffi Fcw]. pose proof (so_cpu s Fo) as Hc.
  pose proof (sched_ok_norm s Fo) as Fo'. destruct (first_unused (k_procs s)) as [Hno|(i & x & Hx & Hu & Hj)].
  { exists (-1), (norm s). split; [|right; left; done]. unfold fork. krun (curproc_norm s p Hc Fc).
    assert (R : allocproc (norm s) = Ret None (norm s)).
    { unfold allocproc. krun (kfirst_none _ is_unused (fun i => i) (fun i => acquired (LKproc i)) allocproc_visit_run (norm s) Fo'
        (fun j q Hq => bool_decide_eq_false_2 _ (Hno j q Hq))). by rewrite norm_norm. }
    by krun R. }
  destruct (Fu i x Hx Hu) as (U1 & U2 & U3).
  destruct (allocproc_cases (norm s) i x fr Fo' L1 (kmem_inv_norm _ _ Fk) (fun _ => U2) Hx Hu Hj)
    as [(tf & root & l & l1 & m1 & fl1 & -> & Hsp)|[(m & fl & R & G) Hlen]].
  - assert (F : forks s p pp i x tf root l n d) by (by split).
    destruct (fork_or_undone s p pp i x tf root l n d F l1 m1 fl1 U3 Hsp) as (r & s' & R & Hr). exists r, s'. split; [done|]. simpl (length _).
    destruct Hr as [(-> & H1 & H2)|(-> & H1 & H2)]; [left|right; right]; (split; [done|]); (split; [lia|]).
    + by exists i, x, tf, root.
    + by exists i, x.
  - eexists (-1), _. split.
    + unfold fork. krun (curproc_norm s p Hc Fc). krun R. reflexivity.
    + right. right. split; [done|]. split; [lia|]. exists i, x. split; [done|]. split; [done|].
      rewrite norm_norm in G |- * by done. eexists (p_context x), _. split; [exact G|reflexivity].
Qed.

(** ** [wait] *)

(** A process does not notice changes outside its tables. *)
Lemma holds_ext m m' x n l :
  (forall u j, is_node m (p_pagetable x) u -> idx j -> ent m' u j = ent m u j) -> holds m x n l -> holds m' x n l /\
  upages m' (p_pagetable x) 0 n = upages m (p_pagetable x) 0 n /\
  (forall t, is_node m' (p_pagetable x) t <-> is_node m (p_pagetable x) t).
Proof.
  intros He [[Ho Hs Htop Hlv [Hnd Hfr] Hg Hr] Hsz Hf]. set (root := p_pagetable x) in *.
  assert (Hx : forall va, xpte m' root va = xpte m root va) by (intros; by apply xpte_ext).
  assert (Hn : forall q, path q -> node m' root q = node m root q) by (intros; by apply node_ext).
  assert (Hup : upages m' root 0 n = upages m root 0 n) by (apply upages_ext; intros; apply Hx).
  pose proof (fun t => is_node_ext _ _ root t Hn) as Hi.
  split; [|split; [done|done]]. split; [split|done|].
  - destruct Ho as [O1 O2 O3]. split; intros *; intros Hq; [rewrite Hn by done; by apply O1|rewrite Hn by done; by apply O2|].
    intros Hq'. rewrite !Hn by done. by apply O3.
  - by apply (shape_ext m).
  - done.
  - intros va Hva. fold root. rewrite Hx. by apply Hlv.
  - fold root. rewrite Hup. split; [done|]. intros pa Hpa. rewrite Hi. by apply Hfr.
  - intros va Hva. fold root. rewrite Hx. by apply Hg.
  - intros va Hva. fold root. rewrite Hx. by apply Hr.
  - fold root. by rewrite Hup, Hi.
Qed.

(** Slots that are not children, or not finished, are passed over. *)
Definition passed (p : nat) (q : proc) : Prop := p_parent q = Some p -> p_state q <> ZOMBIE.

Lemma wait_scan_skip p addr rest s : nested s -> forall js hk,
  Forall (fun j => is_free (LKproc j) s /\ passed p (proc_at s j)) js ->
  exists hk', wait_scan p addr hk (js ++ rest) s = wait_scan p addr hk' rest s.
Proof.
  intros [Hc Hn]. induction js as [|j js IH]; intros hk Hj; [by exists hk|]. apply Forall_cons in Hj as [[Hf Hp] Hj].
  cbn [app wait_scan]. rewrite kbind_gets. case_bool_decide as E; [|by apply IH].
  krun (acquire_run (LKproc j) s Hc Hf). rewrite kbind_gets. change (proc_at (acquired (LKproc j) s) j) with (proc_at s j).
  rewrite bool_decide_eq_false_2 by (by apply Hp).
  krun (release_procs (LKproc j) (k_procs s) s Hc Hf). change (set_procs (k_procs s) (norm s)) with (norm s).
  rewrite norm_nested by done. by apply IH.
Qed.

(** The four bytes for the status are user memory of the caller, in pages
    that are neither free nor the child's. *)
Record status_ok (m : memory) (pt addr : Z) (x : proc) (n : nat) (l : list Z) : Prop := {
  st_tables : exists l0, pt_ok m pt l0;
  st_private : private m pt addr 4;
  st_page va : addr <= va < addr + 4 -> page_ok (user_pa m pt va) /\ (user_pa m pt va ∉ l) /\
    (~ is_node m (p_pagetable x) (user_pa m pt va)) /\
    user_pa m pt va ∉ p_trapframe x :: upages m (p_pagetable x) 0 n
}.

(** The status is stored, or not wanted. *)
Lemma wait_status pt addr x n s l :
  kmem_inv s l -> holds (k_mem s) x n l -> (addr = 0 \/ status_ok (k_mem s) pt addr x n l) ->
  exists m', (if negb (addr =? 0) then copyout pt addr (le_bytes 4 (p_xstate x)) else kret 0) s = Ret 0 (set_mem m' s) /\
    kmem_inv (set_mem m' s) l /\ (forall u j, is_node (k_mem s) (p_pagetable x) u -> idx j -> ent m' u j = ent (k_mem s) u j) /\
    (addr <> 0 -> ubytes m' pt addr 4 = le_bytes 4 (p_xstate x) /\ same_tables pt (k_mem s) m') /\
    (forall a, (forall va, addr <> 0 -> addr <= va < addr + 4 -> a <> uaddr (k_mem s) pt va) -> ld8 m' a = ld8 (k_mem s) a).
Proof.
  intros Hk Hh Ha. destruct (Z.eqb_spec addr 0) as [E|E]; cbn [negb].
  { exists (k_mem s). split; [reflexivity|]. split; [done|]. split; [done|]. split; [done|done]. }
  destruct Ha as [|[(l0 & Ho) Hp Hpg]]; [done|].
  destruct (copyout_run pt addr (le_bytes 4 (p_xstate x)) s l0 Ho) as (m' & R & St & U & Out & Mo);
    rewrite ?length_le_bytes in *; [done|apply le_bytes_ok|].
  change (Z.of_nat 4) with 4 in Out. exists m'. split; [done|].
  assert (Hpage : forall q b, page_ok q -> (forall va, addr <= va < addr + 4 -> user_pa (k_mem s) pt va <> q) ->
    in_page q b -> ld8 m' b = ld8 (k_mem s) b).
  { intros q b Hq Hne Hb. apply Out. intros va Hva Eb. destruct (Hpg va Hva) as (P1 & _).
    pose proof (Z.mod_pos_bound va PGSIZE ltac:(done)). unfold uaddr in Eb. unfold in_page in Hb.
    destruct (page_disjoint (user_pa (k_mem s) pt va) q P1 Hq (Hne va Hva)); lia. }
  split; [|split; [|split; [by intros _|]]].
  - apply kmem_inv_mem; [done|apply Mo, Hk|]. intros q Hq. apply ld_ext. intros b Hb.
    pose proof (ki_pages _ _ Hk) as Hps. rewrite Forall_forall in Hps. apply (Hpage q); [by apply Hps| |].
    + intros va Hva <-. by destruct (Hpg va Hva) as (_ & P2 & _).
    + unfold in_page, PGSIZE. simpl in Hb. lia.
  - intros u j Hu Hj. apply ld_ext. intros b Hb. apply (Hpage u).
    + destruct Hu as (r & Hr & Hu). exact (po_page _ _ _ (as_ok _ _ _ _ _ (ho_space _ _ _ _ Hh)) r u Hr Hu).
    + intros va Hva <-. by destruct (Hpg va Hva) as (_ & _ & P3 & _).
    + unfold in_page, PGSIZE, idx in *. simpl in Hb. lia.
  - intros a Ha. apply Out. intros va Hva. by apply Ha.
Qed.

(** Everything [wait] needs to find: process [p] runs, slot [i] is the first
    of its children that has finished. *)
Record reaps (s : kst) (p : nat) (pp : proc) (i : nat) (x : proc) (n : nat) (l : list Z) (addr : Z) : Prop := {
  re_sched : sched_ok s;
  re_cur : c_proc (mycpu s) = Some p;
  re_parent : k_procs s !! p = Some pp;
  re_locks : is_free LKwait s;
  re_kmem : kmem_inv s l;
  re_slot : k_procs s !! i = Some x;
  re_ne : p <> i;
  re_child : p_parent x = Some p;
  re_zombie : p_state x = ZOMBIE;
  re_first j q : (j < i)%nat -> k_procs s !! j = Some q -> passed p q;
  re_holds : holds (k_mem s) x n l;
  re_status : addr = 0 \/ status_ok (k_mem s) (p_pagetable pp) addr x n l
}.

(** The state inside the critical section. *)
Abbreviation waiting s := (acquired LKwait s).

Lemma wait_found s p pp i x n l addr hk rest : reaps s p pp i x n l addr ->
  exists m fl l' ts, wait_scan p addr hk (i :: rest) (waiting s) =
      Ret (inl (p_pid x)) (set_procs (<[i := cleared x]> (k_procs s)) (set_mem m (set_freelist fl (norm s)))) /\
    kmem_inv (set_mem m (set_freelist fl (norm s))) l' /\
    l' ≡ₚ p_trapframe x :: ts ++ upages (k_mem s) (p_pagetable x) 0 n ++ l /\
    (forall t, t ∈ ts <-> is_node (k_mem s) (p_pagetable x) t) /\
    exists m1, (addr <> 0 -> ubytes m1 (p_pagetable pp) addr 4 = le_bytes 4 (p_xstate x) /\ same_tables (p_pagetable pp) (k_mem s) m1) /\
      (forall a, (forall va, addr <> 0 -> addr <= va < addr + 4 -> a <> uaddr (k_mem s) (p_pagetable pp) va) -> ld8 m1 a = ld8 (k_mem s) a) /\
      forall a, (forall q, q ∈ p_trapframe x :: ts ++ upages (k_mem s) (p_pagetable x) 0 n -> a < q \/ q + PGSIZE <= a) -> ld8 m a = ld8 m1 a.
Proof.
  intros [Fo Fc Fp Fw Fk Fi Fne Fpar Fz Ff Fh Fst]. pose proof (so_cpu s Fo) as Hc. pose proof (lookup_lt_Some _ _ _ Fi) as Hil.
  pose proof (so_free s Fo i ltac:(rewrite <- (so_procs s Fo); done)) as Hfi.
  set (s1 := waiting s). assert (Hc1 : cpu_ok s1) by (by apply acquired_ok).
  assert (Hf1 : is_free (LKproc i) s1) by (unfold is_free, s1, acquired; simpl; by rewrite lookup_insert_ne).
  cbn [wait_scan]. rewrite kbind_gets, (proc_at_lookup s1 i x Fi), bool_decide_eq_true_2 by done.
  krun (acquire_run (LKproc i) s1 Hc1 Hf1). set (s2 := acquired (LKproc i) s1).
  rewrite kbind_gets, (proc_at_lookup s2 i x Fi), bool_decide_eq_true_2 by done.
  assert (K2 : kmem_inv s2 l) by (by apply kmem_inv_acquired, kmem_inv_acquired).
  destruct (wait_status (p_pagetable pp) addr x n s2 l K2 Fh Fst) as (m1 & R & K3 & He & Hu & Hout).
  change (k_mem s2) with (k_mem s) in *.
  assert (R' : (if negb (addr =? 0) then let! pt := gets (fun s => p_pagetable (proc_at s p)) in copyout pt addr (le_bytes 4 (p_xstate x)) else kret 0) s2 = Ret 0 (set_mem m1 s2)).
  { rewrite <- R. destruct (negb _); [|done]. by rewrite kbind_gets, (proc_at_lookup s2 p pp Fp). }
  krun R'. cbn [Z.ltb Z.compare]. destruct (holds_ext (k_mem s) m1 x n l He Fh) as (Fh1 & Eup & Hnode).
  destruct (freeproc_run i x n (set_mem m1 s2) l (nested_acquired (LKproc i) s1 Hc1) K3 Fi Fh1) as (m & fl & l' & ts & Rf & K & P & Hts & Out).
  krun Rf. change (k_mem (set_mem m1 s2)) with m1 in *. rewrite Eup in *.
  krun (release_procs (LKproc i) (<[i := cleared x]> (k_procs s)) (set_mem m (set_freelist fl s1)) Hc1 Hf1).
  assert (Hn1 : norm (set_mem m (set_freelist fl s1)) = acquired LKwait (set_mem m (set_freelist fl s))).
  { apply norm_nested; [done|]. exact (proj2 (nested_acquired LKwait s Hc)). }
  rewrite Hn1. krun (release_procs LKwait (<[i := cleared x]> (k_procs s)) (set_mem m (set_freelist fl s)) Hc Fw).
  exists m, fl, l', ts. split; [reflexivity|]. split; [|split; [done|split]].
  - destruct K as [A1 A2 A3 _ _ A6]. destruct (kmem_inv_norm _ _ Fk) as [_ _ _ B4 B5 _]. by split.
  - intros t. by rewrite Hts.
  - exists m1. split; [exact Hu|]. split; [exact Hout|exact Out].
Qed.

(** Every page of a process is a page of the allocator. *)
Lemma holds_pages m x n l ts q : holds m x n l -> (forall t, t ∈ ts <-> is_node m (p_pagetable x) t) ->
  q ∈ p_trapframe x :: ts ++ upages m (p_pagetable x) 0 n -> page_ok q.
Proof.
  intros [[Ho _ _ _ [_ Hfr] _ _] _ (F1 & _)] Hts Hq. apply elem_of_cons in Hq as [->|Hq]; [done|].
  apply elem_of_app in Hq as [Hq|Hq]; [|by apply Hfr]. apply Hts in Hq as (r & Hr & Ht). exact (po_page _ _ _ Ho r q Hr Ht).
Qed.

(** C7: [wait] reaps.  When a child has finished, [wait] returns without
    sleeping the pid of the first one in the table, stores its exit status
    where the caller asked for it, frees the slot, and gives everything the
    child held, its trapframe, page tables and memory, back to the allocator;
    all other memory is unchanged. *)
Theorem wait_spec s p pp i x n l addr : reaps s p pp i x n l addr ->
  exists m fl l' ts, wait addr s = Ret (p_pid x)
      (set_procs (<[i := cleared x]> (k_procs s)) (set_mem m (set_freelist fl (norm s)))) /\
    kmem_inv (set_mem m (set_freelist fl (norm s))) l' /\
    l' ≡ₚ p_trapframe x :: ts ++ upages (k_mem s) (p_pagetable x) 0 n ++ l /\
    (forall t, t ∈ ts <-> is_node (k_mem s) (p_pagetable x) t) /\
    (addr <> 0 -> (fun k => ld8 m (uaddr (k_mem s) (p_pagetable pp) (addr + Z.of_nat k))) <$> seq 0 4 = le_bytes 4 (p_xstate x)) /\
    forall a, (forall q, q ∈ p_trapframe x :: ts ++ upages (k_mem s) (p_pagetable x) 0 n -> a < q \/ q + PGSIZE <= a) ->
      (forall va, addr <> 0 -> addr <= va < addr + 4 -> a <> uaddr (k_mem s) (p_pagetable pp) va) ->
      ld8 m a = ld8 (k_mem s) a.
Proof.
  intros F. pose proof F as [Fo Fc Fp Fw Fk Fi Fne Fpar Fz Ff Fh Fst]. pose proof (so_cpu s Fo) as Hc.
  pose proof (lookup_lt_Some _ _ _ Fi) as Hil. rewrite (so_procs s Fo) in Hil.
  unfold wait. krun (curproc_norm s p Hc Fc).
  krun (acquire_run LKwait (norm s) (so_cpu _ (sched_ok_norm s Fo)) Fw). rewrite (acquired_norm LKwait s Hc).
  assert (exists fuel, wakeups = S fuel) as [fuel ->] by (by exists 999%nat). set (hk0 := false). cbn [wait_loop].
  replace (seq 0 NPROC) with (seq 0 i ++ i :: seq (S i) (NPROC - S i)).
  2: { replace NPROC with (i + S (NPROC - S i))%nat at 2 by lia. rewrite seq_app. done. }
  destruct (wait_scan_skip p addr (i :: seq (S i) (NPROC - S i)) (waiting s) (nested_acquired LKwait s Hc) (seq 0 i) hk0) as (hk & Hsk).
  { apply Forall_forall. intros j Hj. apply elem_of_seq in Hj. split.
    - unfold is_free, acquired. simpl. rewrite lookup_insert_ne by done. apply Fo. lia.
    - destruct (lookup_lt_is_Some_2 (k_procs s) j) as [q Hq]; [rewrite (so_procs s Fo); lia|].
      rewrite (proc_at_lookup (waiting s) j q Hq). apply (Ff j q); [lia|done]. }
  destruct (wait_found s p pp i x n l addr hk (seq (S i) (NPROC - S i)) F) as (m & fl & l' & ts & R & K & P & Hts & m1 & Hu & Hm1 & Hm).
  rewrite <- Hsk in R. krun R. exists m, fl, l', ts. split; [reflexivity|]. split_and!; [done|done|done| |].
  - intros Ha. destruct Fst as [|[_ _ Hpg]]; [done|]. destruct (Hu Ha) as [<- St].
    assert (E : forall k, 0 <= k < 4 -> ld8 m (uaddr (k_mem s) (p_pagetable pp) (addr + k)) = ld8 m1 (uaddr m1 (p_pagetable pp) (addr + k))).
    { intros k Hk. rewrite (same_tables_uaddr _ _ m1 _ St). apply Hm. intros q Hq.
      destruct (Hpg (addr + k) ltac:(lia)) as (P1 & P2 & P3 & P4). pose proof (holds_pages _ _ _ _ _ _ Fh Hts Hq) as Hqp.
      assert (q <> user_pa (k_mem s) (p_pagetable pp) (addr + k)).
      { intros ->. apply elem_of_cons in Hq as [Hq|Hq]; [apply P4; rewrite Hq; left|].
        apply elem_of_app in Hq as [Hq|Hq]; [by apply P3, Hts|apply P4; by right]. }
      pose proof (Z.mod_pos_bound (addr + k) PGSIZE ltac:(done)). unfold uaddr.
      destruct (page_disjoint q _ Hqp P1 ltac:(done)); lia. }
    cbn [seq fmap list_fmap ubytes]. rewrite !E by lia. repeat (f_equal; try lia).
  - intros a Ha Hs. rewrite Hm by done. by apply Hm1.
Qed.
End reap.

(** ** A parent and its finished child *)

Section demo.
#[local] Existing Instance demo_linker.
#[local] Existing Instance demo_linker_ok.
#[local] Existing Instance mem_disk.
#[local] Existing Instance quiet_devices.

(** Pages are allocated until [k] are left. *)
Lemma kalloc_down root k : forall s l, (k <= length l)%nat -> kmem_inv s l -> pt_ok (k_mem s) root l ->
  exists s' l', kmem_inv s' l' /\ pt_ok (k_mem s') root l' /\ (forall va, xpte (k_mem s') root va = xpte (k_mem s) root va) /\
    length l' = k /\ forall q, q ∈ l' -> q ∈ l.
Proof.
  intros s l. revert s. induction l as [|q l IH]; intros s Hl Hk Ho; [exists s, []; simpl in *; split_and!; [done|done|done|lia|done]|].
  destruct (decide (k = S (length l))) as [->|Hne]; [by exists s, (q :: l)|].
  destruct (kalloc_tables root s q l Hk Ho) as (s1 & _ & K1 & O1 & X1 & _).
  destruct (IH s1) as (s' & l' & K & O & X & E & Hs); [simpl in Hl; lia|done|done|].
  exists s', l'. split_and!; [done|done|intros; by rewrite X|done|]. intros q' Hq. right. by apply Hs.
Qed.

(** The parent of [demo_forks], with [k] free pages. *)
Lemma demo_calls_fork k : (k <= 8)%nat -> exists s pp fr, calls_fork s 0 pp fr 1 0 /\ length fr = k /\ k_procs s !! 1%nat = Some proc0.
Proof.
  intros Hk8. destruct demo_mapped as (s & root0 & q & l & Hk & Ho & X & Hn & Hq & Hl & Hlen & Hsh).
  destruct l as [|f l]; [simpl in Hlen; lia|].
  destruct (kalloc_tables root0 s _ _ Hk Ho) as (s1 & _ & Hk1 & Ho1 & X1 & _ & Hnf & Hf & Hfl).
  destruct (kalloc_down root0 k s1 l) as (s2 & fr & Hk2 & Ho2 & X2 & El & Hs); [simpl in Hlen; lia|done|done|].
  exists (set_mem (k_mem s2) (set_freelist (k_freelist s2) (demo_running root0 f))), (demo_parent root0 f), fr.
  destruct (page_bounds q Hq) as [Hb Ha].
  destruct (mkpte_spec q demo_perm Hb Ha) as (Hv & Hpa & Hfg & _); [vm_compute; split; [discriminate|reflexivity]|].
  assert (X0 : forall va, 0 <= va < Z.of_nat 1 * PGSIZE -> xpte (k_mem s2) root0 va = mkpte q demo_perm).
  { intros va Hva. rewrite X2, X1, X by (change MAXVA with (2 ^ 38); unfold PGSIZE in *; lia). apply decide_True. unfold PGSIZE in *. lia. }
  split; [|by split]. split; try reflexivity; try discriminate.
  - split; [split; [simpl; lia|simpl; split; [lia|done]]|exact (demo_flocks_free root0 f)|reflexivity].
  - intros [|j] y Hy Hu; [by injection Hy as <-|]. apply lookup_replicate_1 in Hy as [-> _]. by split_and!.
  - repeat split.
  - destruct Hk2 as [A1 A2 A3 A4 A5 A6]. split; try assumption; [reflexivity|]. split; [simpl; lia|simpl; split; [lia|done]].
  - exact Ho2.
  - unfold TRAPFRAME, PGSIZE. vm_compute. repeat split; discriminate.
  - intros va Hva. change (k_mem _) with (k_mem s2). change (p_pagetable _) with root0. rewrite X0 by lia. split; [done|]. rewrite Hfg. vm_compute. discriminate.
  - intros va Hva. change (k_mem _) with (k_mem s2). change (p_pagetable _) with root0. rewrite X0, Hpa by done. split; [done|].
    intros Hin. apply Hl. right. by apply Hs.
  - split; [exact Hf|]. intros Hin. by apply Hfl, Hs.
  - repeat constructor; intros g Hg; [|discriminate..]. injection Hg as <-. by exists (set_fref 1 file0).
Qed.

(** [fork] really runs out of memory, and gives back what it took: with one
    free page, which goes to the trapframe, and with four, for the trapframe,
    the root and the two tables of the top pages, so that none is left for the
    copy. *)
Definition demo_no_leak (k : nat) : Prop :=
  exists s pp fr s' i x, calls_fork s 0 pp fr 1 0 /\ length fr = k /\ fork s = Ret (-1) s' /\
    k_procs s !! i = Some x /\ fork_undone s fr i x s'.

Lemma fork_no_leak_witness : demo_no_leak 1 /\ demo_no_leak 4.
Proof.
  split.
  - destruct (demo_calls_fork 1) as (s & pp & fr & F & El & H1); [lia|].
    destruct (fork_no_leak s 0 pp fr 1 0) as (r & s' & R & [(_ & Hl & _)|[(_ & Hno & _)|(-> & _ & i & x & Hx & _ & Hu)]]).
    + exact F.
    + lia.
    + destruct (Hno 1%nat proc0 H1). reflexivity.
    + by exists s, pp, fr, s', i, x.
  - destruct (demo_calls_fork 4) as (s & pp & fr & F & El & H1); [lia|].
    destruct (fork_no_leak s 0 pp fr 1 0) as (r & s' & R & [(_ & Hl & _)|[(_ & Hno & _)|(-> & _ & i & x & Hx & _ & Hu)]]).
    + exact F.
    + lia.
    + destruct (Hno 1%nat proc0 H1). reflexivity.
    + by exists s, pp, fr, s', i, x.
Defined.

(** The child of [allocproc] has exited with status 7. *)
Definition demo_zombie (tf root : Z) : proc :=
  with_parent (Some 0%nat) (set_state ZOMBIE (with_xstate 7 (spawned 1 tf root proc0))).

Definition demo_waiting (tf root : Z) (m : memory) (fl : Z) : kst :=
  set_mem m (set_freelist fl (set_procs (demo_parent 0 0 :: demo_zombie tf root :: replicate 62 proc0) (demo_running 0 0))).

Lemma demo_reaps : exists s pp x l, reaps s 0 pp 1 x 0 l 0 /\ p_pid x = 1.
Proof.
  destruct demo_spawn as (s & Hok & Hpid & Hk & Hps). set (tf := demo_page) in *. set (root := demo_page - PGSIZE) in *.
  destruct (allocproc_run s 0 proc0 tf root (drop 2 demo_pages) Hok Hpid Hk demo_left) as
    (l & m & fl & _ & K & O & X & _ & _ & Tl & Tn & _ & Sh); [by rewrite Hps|done|lia|].
  exists (demo_waiting tf root m fl), (demo_parent 0 0), (demo_zombie tf root), l. split; [|reflexivity].
  assert (Htf : page_ok tf) by (pose proof (ki_pages _ _ Hk) as Hp; by apply Forall_cons in Hp as [? _]).
  destruct trampoline_consts as (_ & _ & _ & _ & C5 & C6 & C7). unfold PGSIZE in C5, C6.
  split; try reflexivity; try discriminate.
  - split; [split; [simpl; lia|simpl; split; [lia|done]]|exact (demo_flocks_free 0 0)|reflexivity].
  - destruct K as [A1 A2 A3 _ _ A6]. split; try assumption; [reflexivity|]. split; [simpl; lia|simpl; split; [lia|done]].
  - intros [|j] y Hj Hy; [|lia]. injection Hy as <-. discriminate.
  - apply (fresh_holds _ _ tf root); try done.
    + intros va Hva. change (k_mem _) with m. rewrite X by lia. unfold user_table. rewrite !decide_False by lia. apply has_0.
    + intros va Hva. apply X. lia.
  - by left.
Qed.

Lemma wait_spec_witness : exists s s', wait 0 s = Ret 1 s' /\ p_state (proc_at s' 1) = UNUSED.
Proof.
  destruct demo_reaps as (s & pp & x & l & F & Hpid).
  destruct (wait_spec s 0 pp 1 x 0 l 0) as (m & fl & l' & ts & R & _).
  - exact F.
  - rewrite Hpid in R. eexists s, _. split; [exact R|]. unfold proc_at. cbn [k_procs set_procs].
    rewrite list_lookup_insert_eq by (rewrite (so_procs _ (re_sched _ _ _ _ _ _ _ _ F)); unfold NPROC; lia). reflexivity.
Defined.
End demo.
