(* ===== verification/Exec.v ===== *)
(** * kernel/exec.c: loading a program

    [argv] is the list of argument strings, without terminators; the array
    that ends at a null pointer is the list. *)

From S2P Require Import Prelude Param Mem CString Kernel Spinlock Kalloc Sched Sleeplock Vm PageTable UserCopy Uart Printf Bio Log Fs Console Pipe File Proc.
Open Scope Z_scope.

(** ** [struct elfhdr], [struct proghdr] of elf.h *)

Definition ELF_MAGIC : Z := 0x464C457F.
Definition ELF_PROG_LOAD : Z := 1.
Definition sizeof_elfhdr : Z := 64.
Definition sizeof_proghdr : Z := 56.

(** An unsigned field of [n] bytes. *)
Definition field (n : nat) (off : Z) (l : list Z) : Z := le_val (slice (Z.to_nat off) n l).

Definition elf_magic (h : list Z) : Z := field 4 0 h.
Definition elf_entry (h : list Z) : Z := field 8 24 h.
Definition elf_phoff (h : list Z) : Z := field 8 32 h.
Definition elf_phnum (h : list Z) : Z := field 2 56 h.

Definition ph_type (h : list Z) : Z := field 4 0 h.
Definition ph_flags (h : list Z) : Z := field 4 4 h.
Definition ph_off (h : list Z) : Z := field 8 8 h.
Definition ph_vaddr (h : list Z) : Z := field 8 16 h.
Definition ph_filesz (h : list Z) : Z := field 8 32 h.
Definition ph_memsz (h : list Z) : Z := field 8 40 h.

Definition flags2perm (flags : Z) : Z :=
  let perm := if has flags 0x1 then PTE_X else 0 in
  if has flags 0x2 then Z.lor perm PTE_W else perm.

Definition tf_a1 : Z := 120.

(** The part of a path after its last slash. *)
Fixpoint last_elem (path last : list Z) : list Z :=
  match path with
  | [] => last
  | c :: path => last_elem path (if c =? slash then path else last)
  end.

Section exec.
Context `{Dk : Disk, D : Devices, L : Linker}.

Fixpoint loadseg_loop (fuel : nat) (pagetable va : Z) (ip : nat) (offset sz i : Z) : K Z :=
  match fuel with
  | O => fun _ => NoFuel
  | S fuel =>
    if i <? sz then
      let! pa := walkaddr pagetable (u64 (va + i)) in
      if pa =? 0 then panic "loadseg: address should exist" else
      let n := if sz - i <? PGSIZE then sz - i else PGSIZE in
      let! (r, _) := readi ip (ToRam pa) (u32 (offset + i)) n in
      if negb (r =? n) then kret (-1) else
      loadseg_loop fuel pagetable va ip offset sz (u32 (i + PGSIZE))
    else kret 0
  end.

Definition loadseg (pagetable va : Z) (ip : nat) (offset sz : Z) : K Z :=
  loadseg_loop (S (S (Z.to_nat (sz / PGSIZE)))) pagetable va ip offset sz 0.

(** The code at [bad:]. *)
Definition exec_bad (pagetable sz : Z) (ip : option nat) : K Z :=
  do! if! negb (pagetable =? 0) then proc_freepagetable pagetable sz;
  do! match ip with
      | Some ip =>
        do! iunlockput ip;
        end_op
      | None => kret tt
      end;
  kret (-1).

(** The loop over the program headers: whether it got to the end, and [sz]. *)
Fixpoint exec_load (n : nat) (ip : nat) (pagetable off sz : Z) : K (bool * Z) :=
  match n with
  | O => kret (true, sz)
  | S n =>
    let! (r, ph) := readi ip ToLocal (u32 off) sizeof_proghdr in
    if negb (r =? sizeof_proghdr) then kret (false, sz) else
    if negb (ph_type ph =? ELF_PROG_LOAD) then
      exec_load n ip pagetable (s32 (off + sizeof_proghdr)) sz
    else
    if ph_memsz ph <? ph_filesz ph then kret (false, sz) else
    if u64 (ph_vaddr ph + ph_memsz ph) <? ph_vaddr ph then kret (false, sz) else
    if negb (ph_vaddr ph mod PGSIZE =? 0) then kret (false, sz) else
    let! sz1 := uvmalloc pagetable sz (u64 (ph_vaddr ph + ph_memsz ph)) (flags2perm (ph_flags ph)) in
    if sz1 =? 0 then kret (false, sz) else
    let sz := sz1 in
    let! r := loadseg pagetable (ph_vaddr ph) ip (u32 (ph_off ph)) (u32 (ph_filesz ph)) in
    if r <? 0 then kret (false, sz) else
    exec_load n ip pagetable (s32 (off + sizeof_proghdr)) sz
  end.

(** The argument strings: the stack pointer and [ustack], or [None]. *)
Fixpoint exec_args (argv : list (list Z)) (pagetable sp stackbase argc : Z) (ustack : list Z)
  : K (option (Z * list Z)) :=
  match argv with
  | [] => kret (Some (sp, ustack))
  | arg :: argv =>
    if argc >=? MAXARG then kret None else
    let sp := u64 (sp - (Z.of_nat (length arg) + 1)) in
    let sp := sp - sp mod 16 in
    if sp <? stackbase then kret None else
    let! r := copyout pagetable sp (arg ++ [0]) in
    if r <? 0 then kret None else
    exec_args argv pagetable sp stackbase (argc + 1) (ustack ++ [sp])
  end.

(** From [p->trapframe->a1 = sp] on. *)
Definition exec_commit (p : nat) (path : list Z) (pagetable sz sp entry oldsz argc : Z) : K Z :=
  do! tf_store p tf_a1 sp;
  do! put_proc p (fun x => with_name (name_set (p_name x) (last_elem path path)) x);
  let! oldpagetable := gets (fun s => p_pagetable (proc_at s p)) in
  do! put_proc p (with_pagetable pagetable);
  do! put_proc p (with_sz sz);
  do! tf_store p tf_epc entry;
  do! tf_store p tf_sp sp;
  do! proc_freepagetable oldpagetable oldsz;
  kret argc.

(** The stack: two pages, and the arguments on the second. *)
Definition exec_stack (path : list Z) (argv : list (list Z)) (pagetable sz entry : Z) : K Z :=
  let! p := curproc in
  let! oldsz := gets (fun s => p_sz (proc_at s p)) in
  let sz := PGROUNDUP sz in
  let! sz1 := uvmalloc pagetable sz (u64 (sz + 2 * PGSIZE)) PTE_W in
  if sz1 =? 0 then exec_bad pagetable sz None else
  let sz := sz1 in
  do! uvmclear pagetable (u64 (sz - 2 * PGSIZE));
  let sp := sz in
  let stackbase := u64 (sp - PGSIZE) in
  let! r := exec_args argv pagetable sp stackbase 0 [] in
  match r with
  | None => exec_bad pagetable sz None
  | Some (sp, ustack) =>
    let argc := Z.of_nat (length argv) in
    let ustack := ustack ++ [0] in
    let sp := u64 (sp - (argc + 1) * 8) in
    let sp := sp - sp mod 16 in
    if sp <? stackbase then exec_bad pagetable sz None else
    let! r := copyout pagetable sp (concat (map (le_bytes 8) ustack)) in
    if r <? 0 then exec_bad pagetable sz None else
    exec_commit p path pagetable sz sp entry oldsz argc
  end.

Definition exec (path : list Z) (argv : list (list Z)) : K Z :=
  let! p := curproc in
  do! begin_op;
  let! ip := namei path in
  match ip with
  | None =>
    do! end_op;
    kret (-1)
  | Some ip =>
    do! ilock (Some ip);
    let! (r, elf) := readi ip ToLocal 0 sizeof_elfhdr in
    if negb (r =? sizeof_elfhdr) then exec_bad 0 0 (Some ip) else
    if negb (elf_magic elf =? ELF_MAGIC) then exec_bad 0 0 (Some ip) else
    let! pagetable := proc_pagetable p in
    if pagetable =? 0 then exec_bad 0 0 (Some ip) else
    let! (ok, sz) :=
      exec_load (Z.to_nat (elf_phnum elf)) ip pagetable (s32 (elf_phoff elf)) 0 in
    if negb ok then exec_bad pagetable sz (Some ip) else
    do! iunlockput ip;
    do! end_op;
    exec_stack path argv pagetable sz (elf_entry elf)
  end.

End exec.
