(* ===== verification/Syscall.v ===== *)
(** * System calls

    [kernel/syscall.c] (arguments and dispatch), [kernel/sysproc.c] and
    [kernel/sysfile.c] (the handlers).  A handler returns the value for
    register [a0]; a string argument is the list of its bytes. *)

From S2P Require Import Prelude Param Mem CString Kernel Spinlock Kalloc Sched Sleeplock Vm PageTable UserCopy Uart Printf Bio Log Fs Console Pipe File Proc Exec.
Open Scope Z_scope.

(** ** kernel/fcntl.h *)
Definition O_RDONLY : Z := 0x000.
Definition O_WRONLY : Z := 0x001.
Definition O_RDWR : Z := 0x002.
Definition O_CREATE : Z := 0x200.
Definition O_TRUNC : Z := 0x400.

Section syscall.
Context `{Dk : Disk, D : Devices, L : Linker}.

(** ** Arguments *)

(** The status and the word read. *)
Definition fetchaddr (addr : Z) : K (Z * Z) :=
  let! p := curproc in
  let! x := gets (fun s => proc_at s p) in
  if (addr >=? p_sz x) || (u64 (addr + 8) >? p_sz x) then kret (-1, 0) else
  let! (r, bs) := copyin (p_pagetable x) addr 8 in
  if negb (r =? 0) then kret (-1, 0) else kret (0, le_val bs).

(** The length of the string or -1, and the string. *)
Definition fetchstr (addr max : Z) : K (Z * list Z) :=
  let! p := curproc in
  let! pt := gets (fun s => p_pagetable (proc_at s p)) in
  let! (r, bs) := copyinstr pt addr max in
  if r <? 0 then kret (-1, []) else
  let str := until_nul bs in
  kret (Z.of_nat (length str), str).

Definition argraw (n : Z) : K Z :=
  let! p := curproc in
  if (0 <=? n) && (n <=? 5) then tf_load p (tf_a0 + 8 * n) else panic "argraw".

Definition argint (n : Z) : K Z := let! v := argraw n in kret (s32 v).
Definition argaddr (n : Z) : K Z := argraw n.
Definition argstr (n max : Z) : K (Z * list Z) := let! addr := argaddr n in fetchstr addr max.

(** ** kernel/sysproc.c *)

Definition sys_exit : K Z :=
  let! n := argint 0 in
  do! exit n;
  kret 0.

Definition sys_getpid : K Z := let! p := curproc in gets (fun s => p_pid (proc_at s p)).
Definition sys_fork : K Z := fork.
Definition sys_wait : K Z := let! p := argaddr 0 in wait p.

Definition sys_sbrk : K Z :=
  let! n := argint 0 in
  let! p := curproc in
  let! addr := gets (fun s => p_sz (proc_at s p)) in
  let! r := growproc n in
  kret (if r <? 0 then -1 else addr).

(** [while(ticks - ticks0 < n)]: [false] when the process was killed. *)
Fixpoint sys_sleep_loop (fuel : nat) (ticks0 n : Z) : K bool :=
  match fuel with
  | O => fun _ => NoFuel
  | S fuel =>
    let! t := gets (fun s => k_ticks s) in
    if u32 (t - ticks0) <? n then
      let! p := curproc in
      let! k := killed p in
      if negb (k =? 0) then
        do! release LKticks;
        kret false
      else
        do! sleep CHticks LKticks;
        sys_sleep_loop fuel ticks0 n
    else kret true
  end.

Definition sys_sleep : K Z :=
  let! n := argint 0 in
  let n := if n <? 0 then 0 else n in
  do! acquire LKticks;
  let! ticks0 := gets (fun s => k_ticks s) in
  let! ok := sys_sleep_loop (wakeups + Z.to_nat n) ticks0 n in
  if negb ok then kret (-1) else
  do! release LKticks;
  kret 0.

Definition sys_kill : K Z := let! pid := argint 0 in kill pid.

Definition sys_uptime : K Z :=
  do! acquire LKticks;
  let! xticks := gets (fun s => k_ticks s) in
  do! release LKticks;
  kret xticks.

Definition sys_trace : K Z :=
  let! mask := argint 0 in
  let! p := curproc in
  do! put_proc p (with_mask mask);
  kret 0.

(** [struct sysinfo]: two 64-bit fields. *)
Definition sys_sysinfo : K Z :=
  let! addr := argaddr 0 in
  let! fm := freemem in
  let! np := procnum in
  let! p := curproc in
  let! pt := gets (fun s => p_pagetable (proc_at s p)) in
  let! r := copyout pt addr (le_bytes 8 fm ++ le_bytes 8 np) in
  kret (if r <? 0 then -1 else 0).

(** ** kernel/sysfile.c: descriptors *)

(** The descriptor and its file, [None] for -1. *)
Definition argfd (n : Z) : K (option (nat * nat)) :=
  let! fd := argint n in
  if (fd <? 0) || (fd >=? Z.of_nat NOFILE) then kret None else
  let! p := curproc in
  let! f := gets (fun s => default None (p_ofile (proc_at s p) !! Z.to_nat fd)) in
  kret (match f with None => None | Some f => Some (Z.to_nat fd, f) end).

(** The first free slot. *)
Fixpoint fd_scan (i : nat) (l : list (option nat)) : option nat :=
  match l with
  | [] => None
  | None :: _ => Some i
  | Some _ :: l => fd_scan (S i) l
  end.

Definition put_fd (p fd : nat) (f : option nat) : K unit :=
  put_proc p (fun x => with_ofile (<[fd := f]> (p_ofile x)) x).

Definition fdalloc (f : nat) : K (option nat) :=
  let! p := curproc in
  let! l := gets (fun s => p_ofile (proc_at s p)) in
  match fd_scan 0 l with
  | None => kret None
  | Some fd =>
    do! put_fd p fd (Some f);
    kret (Some fd)
  end.

Definition sys_dup : K Z :=
  let! a := argfd 0 in
  match a with
  | None => kret (-1)
  | Some (_, f) =>
    let! fd := fdalloc f in
    match fd with
    | None => kret (-1)
    | Some fd =>
      let! _ := filedup f in
      kret (Z.of_nat fd)
    end
  end.

Definition sys_read : K Z :=
  let! p := argaddr 1 in
  let! n := argint 2 in
  let! a := argfd 0 in
  match a with
  | None => kret (-1)
  | Some (_, f) => fileread f p n
  end.

Definition sys_write : K Z :=
  let! p := argaddr 1 in
  let! n := argint 2 in
  let! a := argfd 0 in
  match a with
  | None => kret (-1)
  | Some (_, f) => filewrite f p n
  end.

Definition sys_close : K Z :=
  let! a := argfd 0 in
  match a with
  | None => kret (-1)
  | Some (fd, f) =>
    let! p := curproc in
    do! put_fd p fd None;
    do! fileclose f;
    kret 0
  end.

Definition sys_fstat : K Z :=
  let! st := argaddr 1 in
  let! a := argfd 0 in
  match a with
  | None => kret (-1)
  | Some (_, f) => filestat f st
  end.

(** ** kernel/sysfile.c: names *)

(** [end_op(); return -1;] *)
Definition end_fail : K Z := do! end_op; kret (-1).

Definition sys_link_bad (ip : nat) : K Z :=
  do! ilock (Some ip);
  do! put_inode ip (fun x => set_inlink (s16 (i_nlink x - 1)) x);
  do! iupdate ip;
  do! iunlockput ip;
  end_fail.

Definition sys_link : K Z :=
  let! (n, old) := argstr 0 MAXPATH in
  if n <? 0 then kret (-1) else
  let! (n, new) := argstr 1 MAXPATH in
  if n <? 0 then kret (-1) else
  do! begin_op;
  let! ip := namei old in
  match ip with
  | None => end_fail
  | Some ip =>
    do! ilock (Some ip);
    let! x := gets (fun s => inode_at s ip) in
    if i_type x =? T_DIR then
      do! iunlockput ip;
      end_fail
    else
    do! put_inode ip (fun x => set_inlink (s16 (i_nlink x + 1)) x);
    do! iupdate ip;
    do! iunlock (Some ip);
    let! (dp, name) := nameiparent new name0 in
    match dp with
    | None => sys_link_bad ip
    | Some dp =>
      do! ilock (Some dp);
      let! dx := gets (fun s => inode_at s dp) in
      let! x := gets (fun s => inode_at s ip) in
      let! r := (if negb (i_dev dx =? i_dev x) then kret (-1) else dirlink dp name (i_inum x)) in
      if r <? 0 then
        do! iunlockput dp;
        sys_link_bad ip
      else
      do! iunlockput dp;
      do! iput ip;
      do! end_op;
      kret 0
    end
  end.

Fixpoint isdirempty_loop (fuel : nat) (dp : nat) (off : Z) : K bool :=
  match fuel with
  | O => fun _ => NoFuel
  | S fuel =>
    let! x := gets (fun s => inode_at s dp) in
    if off <? i_size x then
      let! (r, de) := readi dp ToLocal off sizeof_dirent in
      if negb (r =? sizeof_dirent) then panic "isdirempty: readi" else
      if negb (de_inum de =? 0) then kret false else
      isdirempty_loop fuel dp (off + sizeof_dirent)
    else kret true
  end.

Definition isdirempty (dp : nat) : K bool :=
  let! x := gets (fun s => inode_at s dp) in
  isdirempty_loop (dir_fuel (i_size x)) dp (2 * sizeof_dirent).

Definition dot : list Z := bytes_of "." ++ [0].
Definition dotdot : list Z := bytes_of ".." ++ [0].

Definition sys_unlink_bad (dp : nat) : K Z :=
  do! iunlockput dp;
  end_fail.

Definition sys_unlink : K Z :=
  let! (n, path) := argstr 0 MAXPATH in
  if n <? 0 then kret (-1) else
  do! begin_op;
  let! (dp, name) := nameiparent path name0 in
  match dp with
  | None => end_fail
  | Some dp =>
    do! ilock (Some dp);
    if (namecmp name dot =? 0) || (namecmp name dotdot =? 0) then sys_unlink_bad dp else
    let! r := dirlookup dp name in
    match r with
    | None => sys_unlink_bad dp
    | Some (ip, off) =>
      do! ilock (Some ip);
      let! x := gets (fun s => inode_at s ip) in
      if i_nlink x <? 1 then panic "unlink: nlink < 1" else
      let! empty := (if i_type x =? T_DIR then isdirempty ip else kret true) in
      if negb empty then
        do! iunlockput ip;
        sys_unlink_bad dp
      else
      let! r := writei dp (FromLocal (replicate (Z.to_nat sizeof_dirent) 0)) off sizeof_dirent in
      if negb (r =? sizeof_dirent) then panic "unlink: writei" else
      do! if! i_type x =? T_DIR then
        (do! put_inode dp (fun x => set_inlink (s16 (i_nlink x - 1)) x);
         iupdate dp);
      do! iunlockput dp;
      do! put_inode ip (fun x => set_inlink (s16 (i_nlink x - 1)) x);
      do! iupdate ip;
      do! iunlockput ip;
      do! end_op;
      kret 0
    end
  end.

Definition create_fail (ip dp : nat) : K (option nat) :=
  do! put_inode ip (set_inlink 0);
  do! iupdate ip;
  do! iunlockput ip;
  do! iunlockput dp;
  kret None.

Definition create (path : list Z) (type major minor : Z) : K (option nat) :=
  let! (dp, name) := nameiparent path name0 in
  match dp with
  | None => kret None
  | Some dp =>
    do! ilock (Some dp);
    let! r := dirlookup dp name in
    match r with
    | Some (ip, _) =>
      do! iunlockput dp;
      do! ilock (Some ip);
      let! x := gets (fun s => inode_at s ip) in
      if (type =? T_FILE) && ((i_type x =? T_FILE) || (i_type x =? T_DEVICE)) then kret (Some ip) else
      do! iunlockput ip;
      kret None
    | None =>
      let! dx := gets (fun s => inode_at s dp) in
      let! ip := ialloc (i_dev dx) type in
      match ip with
      | None =>
        do! iunlockput dp;
        kret None
      | Some ip =>
        do! ilock (Some ip);
        do! put_inode ip (set_imajor major);
        do! put_inode ip (set_iminor minor);
        do! put_inode ip (set_inlink 1);
        do! iupdate ip;
        let! x := gets (fun s => inode_at s ip) in
        let! dx := gets (fun s => inode_at s dp) in
        let! ok :=
          (if type =? T_DIR then
             let! r := dirlink ip dot (i_inum x) in
             if r <? 0 then kret false else
             let! r := dirlink ip dotdot (i_inum dx) in
             kret (negb (r <? 0))
           else kret true) in
        if negb ok then create_fail ip dp else
        let! r := dirlink dp name (i_inum x) in
        if r <? 0 then create_fail ip dp else
        do! if! type =? T_DIR then
          (do! put_inode dp (fun x => set_inlink (s16 (i_nlink x + 1)) x);
           iupdate dp);
        do! iunlockput dp;
        kret (Some ip)
      end
    end
  end.

(** [iunlockput(ip); end_op(); return -1;] *)
Definition open_fail (ip : nat) : K Z :=
  do! iunlockput ip;
  end_fail.

(** From the check of the device number on, with [ip] locked. *)
Definition open_inode (ip : nat) (omode : Z) : K Z :=
  let! x := gets (fun s => inode_at s ip) in
  if (i_type x =? T_DEVICE) && ((i_major x <? 0) || (i_major x >=? NDEV)) then open_fail ip else
  let! f := filealloc in
  match f with
  | None => open_fail ip
  | Some f =>
    let! fd := fdalloc f in
    match fd with
    | None =>
      do! fileclose f;
      open_fail ip
    | Some fd =>
      let! x := gets (fun s => inode_at s ip) in
      do! (if i_type x =? T_DEVICE then
             do! put_file f (set_ftype FD_DEVICE);
             put_file f (set_fmajor (i_major x))
           else
             do! put_file f (set_ftype FD_INODE);
             put_file f (set_foff 0));
      do! put_file f (set_fip (Some ip));
      do! put_file f (set_fmode (negb (has omode O_WRONLY)) (has omode O_WRONLY || has omode O_RDWR));
      do! if! has omode O_TRUNC && (i_type x =? T_FILE) then itrunc ip;
      do! iunlock (Some ip);
      do! end_op;
      kret (Z.of_nat fd)
    end
  end.

Definition sys_open : K Z :=
  let! omode := argint 1 in
  let! (n, path) := argstr 0 MAXPATH in
  if n <? 0 then kret (-1) else
  do! begin_op;
  if has omode O_CREATE then
    let! ip := create path T_FILE 0 0 in
    match ip with
    | None => end_fail
    | Some ip => open_inode ip omode
    end
  else
    let! ip := namei path in
    match ip with
    | None => end_fail
    | Some ip =>
      do! ilock (Some ip);
      let! x := gets (fun s => inode_at s ip) in
      if (i_type x =? T_DIR) && negb (omode =? O_RDONLY) then open_fail ip
      else open_inode ip omode
    end.

Definition sys_mkdir : K Z :=
  do! begin_op;
  let! (n, path) := argstr 0 MAXPATH in
  if n <? 0 then end_fail else
  let! ip := create path T_DIR 0 0 in
  match ip with
  | None => end_fail
  | Some ip =>
    do! iunlockput ip;
    do! end_op;
    kret 0
  end.

Definition sys_mknod : K Z :=
  do! begin_op;
  let! major := argint 1 in
  let! minor := argint 2 in
  let! (n, path) := argstr 0 MAXPATH in
  if n <? 0 then end_fail else
  let! ip := create path T_DEVICE (s16 major) (s16 minor) in
  match ip with
  | None => end_fail
  | Some ip =>
    do! iunlockput ip;
    do! end_op;
    kret 0
  end.

Definition sys_chdir : K Z :=
  let! p := curproc in
  do! begin_op;
  let! (n, path) := argstr 0 MAXPATH in
  if n <? 0 then end_fail else
  let! ip := namei path in
  match ip with
  | None => end_fail
  | Some ip =>
    do! ilock (Some ip);
    let! x := gets (fun s => inode_at s ip) in
    if negb (i_type x =? T_DIR) then
      do! iunlockput ip;
      end_fail
    else
    do! iunlock (Some ip);
    let! cwd := gets (fun s => p_cwd (proc_at s p)) in
    do! deref cwd iput;
    do! end_op;
    do! put_proc p (with_cwd (Some ip));
    kret 0
  end.

(** The loop of [sys_exec] that fetches the arguments: whether it succeeded,
    the pages it allocated and the strings in them. *)
Fixpoint exec_fetch (n : nat) (uargv i : Z) (pages : list Z) (argv : list (list Z))
  : K (bool * (list Z * list (list Z))) :=
  match n with
  | O => kret (false, (pages, argv))
  | S n =>
    let! (r, uarg) := fetchaddr (u64 (uargv + 8 * i)) in
    if r <? 0 then kret (false, (pages, argv)) else
    if uarg =? 0 then kret (true, (pages, argv)) else
    let! page := kalloc in
    if page =? 0 then kret (false, (pages, argv)) else
    let! (r, str) := fetchstr uarg PGSIZE in
    do! modify_mem (fun m => st_bytes m page (if r <? 0 then [] else str ++ [0]));
    if r <? 0 then kret (false, (pages ++ [page], argv)) else
    exec_fetch n uargv (i + 1) (pages ++ [page]) (argv ++ [str])
  end.

Definition sys_exec : K Z :=
  let! uargv := argaddr 1 in
  let! (n, path) := argstr 0 MAXPATH in
  if n <? 0 then kret (-1) else
  let! (ok, args) := exec_fetch (Z.to_nat MAXARG) uargv 0 [] [] in
  let (pages, argv) := args in
  if negb ok then
    do! kfor pages kfree;
    kret (-1)
  else
  let! ret := exec path argv in
  do! kfor pages kfree;
  kret ret.

Definition sys_pipe : K Z :=
  let! p := curproc in
  let! fdarray := argaddr 0 in
  let! r := pipealloc in
  match r with
  | None => kret (-1)
  | Some (rf, wf) =>
    let close := (do! fileclose rf; do! fileclose wf; kret (-1)) in
    let! fd0 := fdalloc rf in
    match fd0 with
    | None => close
    | Some fd0 =>
      let! fd1 := fdalloc wf in
      match fd1 with
      | None =>
        do! put_fd p fd0 None;
        close
      | Some fd1 =>
        let! pt := gets (fun s => p_pagetable (proc_at s p)) in
        let! r := copyout pt fdarray (le_bytes 4 (Z.of_nat fd0)) in
        let! r := (if r <? 0 then kret r else
                   copyout pt (u64 (fdarray + 4)) (le_bytes 4 (Z.of_nat fd1))) in
        if r <? 0 then
          do! put_fd p fd0 None;
          do! put_fd p fd1 None;
          close
        else kret 0
      end
    end
  end.

(** ** Dispatch *)

(** [syscalls] and [syscall_name], at an index that is not 0. *)
Definition syscalls : list (string * K Z) :=
  [("fork", sys_fork); ("exit", sys_exit); ("wait", sys_wait); ("pipe", sys_pipe);
   ("read", sys_read); ("kill", sys_kill); ("exec", sys_exec); ("fstat", sys_fstat);
   ("chdir", sys_chdir); ("dup", sys_dup); ("getpid", sys_getpid); ("sbrk", sys_sbrk);
   ("sleep", sys_sleep); ("uptime", sys_uptime); ("open", sys_open); ("write", sys_write);
   ("mknod", sys_mknod); ("unlink", sys_unlink); ("link", sys_link); ("mkdir", sys_mkdir);
   ("close", sys_close); ("trace", sys_trace); ("sysinfo", sys_sysinfo)]%string.

Definition syscall_at (num : Z) : option (string * K Z) :=
  if (num >? 0) && (num <? 24) then syscalls !! Z.to_nat (num - 1) else None.

Definition syscall : K unit :=
  let! p := curproc in
  let! a7 := tf_load p tf_a7 in
  let num := s32 a7 in
  match syscall_at num with
  | Some (name, sys) =>
    let! r := sys in
    do! tf_store p tf_a0 r;
    let! x := gets (fun s => proc_at s p) in
    if! has (p_mask x) (s32 (Z.shiftl 1 num)) then
      (let! a0 := tf_load p tf_a0 in
       printf (bytes_of "%d: syscall %s -> %d" ++ [newline])
         [Parg (p_pid x); Pstr (Some (bytes_of name)); Parg a0])
  | None =>
    let! x := gets (fun s => proc_at s p) in
    do! printf (bytes_of "%d %s: unknown sys call %d" ++ [newline])
          [Parg (p_pid x); Pstr (Some (until_nul (p_name x))); Parg num];
    tf_store p tf_a0 (-1)
  end.

End syscall.
