(* ===== verification/Create.v ===== *)
(** * Creating a file: [create] of kernel/sysfile.c

    [ino_view C L K s]: inside a transaction, the process has locked the
    inodes of [K], several at once, and nobody has locked any other.  The
    rules for [ilock], [iunlock] and [iput] move [K] and the table; those of
    the other files move the disk.  [create_new] is the part of [create] for
    a name that the directory does not have.  The theorems are about files and
    devices; [create] of a directory, which also makes the entries [.] and
    [..], has none. *)

From stdpp Require Import functions.
From S2P Require Import Prelude Param Mem CString Kernel Spinlock Kalloc Sched Sleeplock Bio BioRules Log Txn Vm PageTable UserCopy Uart Printf Fs Bitmap Console ConsoleLine Balloc Blockmap Path Inode Contents Writei FileOps Dir Namei Trunc Ialloc Tree Pipe PipeQueue File Proc Exec Syscall.
Open Scope Z_scope.

Lemma last_default {A} (l : list A) x : List.last l x = default x (last l).
Proof. induction l as [|y [|z l] IH]; [done|done|]. exact IH. Qed.

Section inodes.
Context `{HD : DiskOk, D : Devices, Lk : Linker}.
Context (me : nat) (pid d st : Z) (sb : superblock).
Hypothesis Hsb : sb_ok sb.

Abbreviation op_view := (op_view me pid d st).
Abbreviation file_view := (file_view me pid d st sb).

Record ino_view (C : Z -> block) (L : list Z) (K : list nat) (s : kst) : Prop := {
  iv_op : op_view C L [] s;
  iv_open : op_open s;
  iv_sb : k_sb s = sb;
  iv_pr : pr_locking (k_pr s) = true /\ panicked (k_pr s) = false;
  iv_table : itable_ok (k_inodes s);
  iv_nodup : NoDup K;
  iv_locks i : (i < NINODE)%nat ->
    if decide (i ∈ K) then slock_at s (SLinode i) = mksleep true pid else sl_locked (slock_at s (SLinode i)) = false
}.

Lemma ino_ctx C L K s : ino_view C L K s -> ctx me pid s.
Proof using. intros V. apply (vw_ctx _ _ _ _ _ _ _ _ (ov_view _ _ _ _ _ _ _ _ (iv_op _ _ _ _ V))). Qed.

(** Between calls that took no inode lock. *)
Lemma ino_step C L K s C' L' s' io :
  ino_view C L K s -> op_view C' L' [] s' -> fs_does pid d [] io s s' -> itable_ok (k_inodes s') -> ino_view C' L' K s'.
Proof using.
  intros [V1 V2 V3 V4 V5 V6 V7] V' S T. destruct (fs_does_keeps _ _ _ _ _ _ S) as (K1 & K2 & _).
  split; rewrite ?K1, ?K2; try done; [by apply (fs_does_open _ _ _ _ _ _ S)|].
  intros i Hi. pose proof (qt_slock _ _ (hd_quiet _ _ (os_rest _ _ _ _ _ _ S)) i) as E. rewrite E. exact (V7 i Hi).
Qed.

Lemma ino_op C L K s C' L' s' io :
  ino_view C L K s -> op_view C' L' [] s' -> op_does pid d [] io s s' -> ino_view C' L' K s' /\ k_inodes s' = k_inodes s.
Proof using.
  intros V V' S. destruct (op_does_keeps _ _ _ _ _ _ S) as (_ & E & _). split; [|done].
  eapply ino_step; [exact V|exact V'|by apply fs_does_op|]. rewrite E. apply V.
Qed.

Lemma ino_woke C L K s s' : ino_view C L K s -> woke s s' -> ino_view C L K s' /\ k_inodes s' = k_inodes s.
Proof using. intros V W. destruct (op_woke _ _ _ _ _ _ _ _ _ (iv_op _ _ _ _ V) W) as [V' S]. by eapply ino_op. Qed.

Lemma ino_set C L K s l : ino_view C L K s -> itable_ok l -> ino_view C L K (set_inodes l s).
Proof using. intros [] Hl. split; try done. by apply op_view_inodes. Qed.

Lemma ino_range C L K s ip x : ino_view C L K s -> k_inodes s !! ip = Some x -> (ip < NINODE)%nat.
Proof using. intros V H. rewrite <- (it_len _ (iv_table _ _ _ _ V)). by eapply lookup_lt_Some. Qed.

Lemma ino_lock C L K s i : ino_view C L K s -> i ∉ K ->
  ino_view C L (i :: K) (set_slocks (<[SLinode i := mksleep true pid]> (k_slocks s)) s).
Proof using.
  intros [V1 V2 V3 V4 V5 V6 V7] Hi. split; try done; [by apply op_view_ilock|by constructor|]. intros j Hj. unfold slock_at. simpl.
  destruct (decide (j = i)) as [->|Hne].
  - rewrite lookup_insert_eq, decide_True by left. done.
  - rewrite lookup_insert_ne by congruence. specialize (V7 j Hj). pose proof (elem_of_cons K j i) as E.
    destruct (decide (j ∈ i :: K)), (decide (j ∈ K)); try done; tauto.
Qed.

Lemma ino_unlock C L K s i : ino_view C L (i :: K) s ->
  ino_view C L K (set_slocks (<[SLinode i := mksleep false 0]> (k_slocks s)) s).
Proof using.
  intros [V1 V2 V3 V4 V5 V6 V7]. apply NoDup_cons in V6 as [Hi V6]. split; try done; [by apply op_view_ilock|]. intros j Hj. unfold slock_at. simpl.
  destruct (decide (j = i)) as [->|Hne].
  - rewrite lookup_insert_eq, decide_False by done. done.
  - rewrite lookup_insert_ne by congruence. specialize (V7 j Hj). pose proof (elem_of_cons K j i) as E.
    destruct (decide (j ∈ i :: K)), (decide (j ∈ K)); try done; tauto.
Qed.

(** A locked inode is a file to work on. *)
Lemma ino_file C L K s ip x :
  ino_view C L K s -> k_inodes s !! ip = Some x -> i_dev x = d -> bitmap_ok sb C -> whole C -> inode_ok sb C x ->
  file_view ip C L [] x s.
Proof using. intros V Hx Hd Hb Hw Ho. split; try done; try apply V. split; [constructor|simpl; lia]. Qed.

(** [ilock] of an inode in use. *)
Lemma ino_ilock C L K s ip x inum :
  ino_view C L K s -> ip ∉ K -> k_inodes s !! ip = Some x -> is_inode d inum x -> itype sb C inum <> 0 ->
  (i_valid x = true -> x = set_iref (i_ref x) (dnode C sb d inum)) -> (length L + 1 < NBUF)%nat ->
  exists s', ilock (Some ip) s = Ret tt s' /\ ino_view C L (ip :: K) s' /\
    k_inodes s' = <[ip := set_iref (i_ref x) (dnode C sb d inum)]> (k_inodes s).
Proof using HD.
  intros V HK Hx (Hr & Hd & Hi) Hty Hval HL. pose proof (ino_range _ _ _ _ _ _ V Hx) as Hip.
  unfold ilock. rewrite kbind_gets, (inode_at_lookup _ _ _ Hx), (proj2 (Z.ltb_ge _ _)) by lia.
  pose proof (iv_locks _ _ _ _ V ip Hip) as Hfree. rewrite decide_False in Hfree by done.
  destruct (acquiresleep_run me pid (SLinode ip) s (ino_ctx _ _ _ _ V) ltac:(by apply Nat.ltb_lt) Hfree) as (s1 & R1 & W1).
  krun R1. destruct (ino_woke _ _ _ _ _ (ino_lock _ _ _ _ _ V HK) W1) as (V1 & E1).
  simpl in E1. assert (Hx1 : k_inodes s1 !! ip = Some x) by (by rewrite E1).
  rewrite kbind_gets, (inode_at_lookup _ _ _ Hx1). destruct (i_valid x) eqn:Hv.
  { exists s1. split; [done|]. split; [done|]. rewrite E1, list_insert_id; [done|]. by rewrite Hx, <- Hval. }
  rewrite kbind_gets, (iv_sb _ _ _ _ V1), Hd, Hi.
  destruct (op_bread _ _ _ _ _ _ _ _ (IBLOCK inum sb) (iv_op _ _ _ _ V1) (not_elem_of_nil _) ltac:(simpl; lia)) as (i & s2 & R2 & O2 & D2 & V2 & S2).
  krun R2. unfold buf_data. rewrite kbind_gets, D2. unfold put_inode at 1. rewrite kbind_modify.
  destruct (op_does_keeps _ _ _ _ _ _ S2) as (_ & E2 & _ & _ & E2d & _).
  assert (Hx2 : k_inodes s2 !! ip = Some x) by (by rewrite E2).
  rewrite (inode_at_lookup _ _ _ Hx2), Hi. set (x1 := load_dinode _ _ x). set (t := set_inodes _ s2).
  destruct (op_brelse _ _ _ _ _ _ _ t i (IBLOCK inum sb) (op_view_inodes _ _ _ _ _ _ _ _ _ V2) O2) as (s3 & R3 & V3 & S3).
  { change (k_disk t) with (k_disk s2). rewrite E2d. eapply op_view_clean; [exact (iv_op _ _ _ _ V1)|apply not_elem_of_nil]. }
  krun R3. unfold put_inode. rewrite kbind_modify, kbind_gets.
  destruct (op_does_keeps _ _ _ _ _ _ S3) as (_ & E3 & _). simpl in E3. rewrite E2 in E3.
  assert (Hlt : (ip < length (k_inodes s1))%nat) by (by eapply lookup_lt_Some).
  rewrite (inode_at_lookup s3 ip x1) by (rewrite E3; by apply list_lookup_insert_eq).
  unfold x1. rewrite (dnode_load C sb d x inum Hd Hi), E3, list_insert_insert_eq. set (y := set_iref (i_ref x) (dnode C sb d inum)).
  assert (Et : itable_ok (<[ip := y]> (k_inodes s1))).
  { apply (itable_same _ _ x); [apply V1|done|by rewrite Hd|by rewrite Hi|]. simpl. lia. }
  assert (S13 : fs_does pid d [] [] s1 (set_inodes (<[ip := y]> (k_inodes s1)) s3)).
  { eapply (fs_does_trans _ _ [] [] [] s1 t); [eapply (fs_does_trans _ _ [] [] [] s1 s2); [by apply fs_does_op|apply fs_does_set]|].
    eapply (fs_does_trans _ _ [] [] [] t s3); [by apply fs_does_op|apply fs_does_set]. }
  eexists. split; [|split; [exact (ino_step _ _ _ _ _ _ _ _ V1 (op_view_inodes _ _ _ _ _ _ _ _ _ V3) S13 Et)|simpl; by rewrite E1]].
  rewrite (inode_at_lookup _ ip y) by (simpl; by apply list_lookup_insert_eq).
  change (i_type y) with (itype sb C inum). by rewrite (proj2 (Z.eqb_neq _ _) Hty).
Qed.

Lemma ino_iunlock C L K s ip x :
  ino_view C L (ip :: K) s -> k_inodes s !! ip = Some x -> 0 < i_ref x ->
  exists s', iunlock (Some ip) s = Ret tt s' /\ ino_view C L K s' /\ k_inodes s' = k_inodes s.
Proof using.
  intros V Hx Hr. pose proof (ino_range _ _ _ _ _ _ V Hx) as Hip. assert (Hk : kernel_lock (LKsleep (SLinode ip)) = true) by (by apply Nat.ltb_lt).
  unfold iunlock. destruct (holdingsleep_run me pid (SLinode ip) s (ino_ctx _ _ _ _ V) Hk) as (s1 & R1 & W1).
  pose proof (iv_locks _ _ _ _ V ip Hip) as Hl. rewrite decide_True in Hl by left. rewrite Hl in R1. simpl in R1. rewrite Z.eqb_refl in R1.
  krun R1. destruct (ino_woke _ _ _ _ _ V W1) as (V1 & E1).
  rewrite kbind_gets, (inode_at_lookup s1 ip x) by (by rewrite E1). rewrite (proj2 (Z.ltb_ge _ _)) by lia. cbn [negb orb].
  destruct (releasesleep_run me pid (SLinode ip) s1 (ino_ctx _ _ _ _ V1) Hk) as (s2 & R2 & W2).
  destruct (ino_woke _ _ _ _ _ (ino_unlock _ _ _ _ _ V1) W2) as (V2 & E2). exists s2. simpl in E2. split_and!; [done|done|congruence].
Qed.

(** A reference dropped of an inode that stays. *)
Lemma ino_iput C L K s ip x :
  ino_view C L K s -> k_inodes s !! ip = Some x -> 0 < i_ref x -> i_nlink x <> 0 \/ i_ref x <> 1 ->
  exists s', iput ip s = Ret tt s' /\ ino_view C L K s' /\ k_inodes s' = <[ip := set_iref (i_ref x - 1) x]> (k_inodes s).
Proof using.
  intros V Hx Hr Hn. pose proof (ino_ctx _ _ _ _ V) as X. pose proof (cx_cpu _ _ _ X) as Hc.
  unfold iput. krun (acquire_run LKitable s Hc (cx_locks _ _ _ X LKitable eq_refl)).
  assert (Hx1 : inode_at (acquired LKitable s) ip = x) by (by apply inode_at_lookup). rewrite kbind_gets, Hx1.
  assert (Hz : (i_ref x =? 1) && i_valid x && (i_nlink x =? 0) = false).
  { destruct Hn as [Hn|Hn]; [rewrite (proj2 (Z.eqb_neq _ _) Hn); by rewrite andb_false_r|by rewrite (proj2 (Z.eqb_neq _ _) Hn)]. }
  rewrite Hz, kbind_kret. unfold put_inode. rewrite kbind_modify, Hx1.
  eexists. split; [apply (itable_release _ s Hc (cx_locks _ _ _ X LKitable eq_refl))|].
  destruct (ino_woke _ _ _ _ _ V (woke_norm s Hc)) as (V1 & E1). split; [|done]. apply ino_set; [done|].
  apply (itable_same _ _ x); [apply V|done|done|done|]. simpl. lia.
Qed.

Lemma ino_iunlockput C L K s ip x :
  ino_view C L (ip :: K) s -> k_inodes s !! ip = Some x -> 0 < i_ref x -> i_nlink x <> 0 \/ i_ref x <> 1 ->
  exists s', iunlockput ip s = Ret tt s' /\ ino_view C L K s' /\ k_inodes s' = <[ip := set_iref (i_ref x - 1) x]> (k_inodes s).
Proof using.
  intros V Hx Hr Hn. destruct (ino_iunlock _ _ _ _ _ _ V Hx Hr) as (s1 & R1 & V1 & E1).
  destruct (ino_iput C L K s1 ip x V1) as (s2 & R2 & V2 & E2); [by rewrite E1|done|done|].
  exists s2. rewrite E1 in E2. split_and!; [unfold iunlockput; krun R1; exact R2|done|done].
Qed.

Lemma ino_perm C L K K' s : ino_view C L K s -> K ≡ₚ K' -> ino_view C L K' s.
Proof using.
  intros [V1 V2 V3 V4 V5 V6 V7] E. split; try done; [by rewrite <- E|]. intros i Hi. specialize (V7 i Hi).
  destruct (decide (i ∈ K)), (decide (i ∈ K')); try done; rewrite E in *; done.
Qed.

(** From and to the view of path lookup. *)
Lemma elem_of_option_list (i : nat) k : i ∈ option_list k <-> k = Some i.
Proof using. destruct k as [j|]; cbn; [rewrite list_elem_of_singleton; split; congruence|]. split; [intros H; by apply elem_of_nil in H|done]. Qed.

Lemma ino_names C L k s : names_view me pid d st sb C L k s -> op_open s -> ino_view C L (option_list k) s.
Proof using.
  intros [V1 V2 V3 V4 V5 V6] Hop. split; try done; [destruct k; [apply NoDup_singleton|constructor]|].
  intros i Hi. specialize (V6 i Hi). pose proof (elem_of_option_list i k) as E. clear -V6 E.
  destruct (decide (k = Some i)), (decide (i ∈ option_list k)); try done; tauto.
Qed.

Lemma names_ino C L k s : ino_view C L (option_list k) s -> cache_ok d sb C (k_inodes s) -> names_view me pid d st sb C L k s.
Proof using.
  intros [V1 V2 V3 V4 V5 V6 V7] Hc. split; try done.
  intros i Hi. specialize (V7 i Hi). pose proof (elem_of_option_list i k) as E. clear -V7 E.
  destruct (decide (k = Some i)), (decide (i ∈ option_list k)); try done; tauto.
Qed.
End inodes.

(** ** The new inode *)

Section create.
Context `{HD : DiskOk, D : Devices, Lk : Linker}.
Context (me : nat) (pid d st : Z) (sb : superblock).
Hypothesis Hsb : sb_ok sb.
Hypothesis tx_idle : forall hist, Z.land (dev_read hist (UART0 + LSR)) LSR_TX_IDLE <> 0.

Abbreviation ino_view := (ino_view me pid d st sb).
Abbreviation dnode C := (dnode C sb d).

Context (type major minor : Z).
Hypothesis Hty : - 2 ^ 15 <= type < 2 ^ 15 /\ - 2 ^ 15 <= major < 2 ^ 15 /\ - 2 ^ 15 <= minor < 2 ^ 15.
Hypothesis Hty0 : type <> 0 /\ type <> T_DIR.

Definition new_inode (inum r : Z) : inode := mkinode d inum r true type major minor 1 0 (replicate naddrs 0).

(** The disk with the new inode on it, not yet named. *)
Definition with_inode (inum : Z) (C : Z -> block) : Z -> block := saved sb (new_inode inum 1) (claimed d sb inum type C).

Lemma new_inode_ok C inum r : inode_ok sb C (new_inode inum r) /\ dinode_ok (new_inode inum r).
Proof using Hty.
  split; [exact (emptied_ok sb C (new_inode inum r))|]. clear -Hty. split; simpl; try tauto; try lia. by repeat constructor.
Qed.

Lemma with_inode_other inum C b : b <> IBLOCK inum sb -> with_inode inum C b = C b.
Proof using. intros Hb. unfold with_inode, saved, claimed. simpl. by rewrite !fn_lookup_insert_ne. Qed.

Lemma with_inode_at inum C : whole C -> 0 <= inum ->
  with_inode inum C (IBLOCK inum sb) = put_dinode (dip inum) (new_inode inum 1) (C (IBLOCK inum sb)).
Proof using.
  intros Hw Hi. unfold with_inode, saved, claimed. cbn [new_inode i_inum]. rewrite !fn_lookup_insert.
  apply put_dinode_over; [|done|done]. apply dip_slot; [done|]. rewrite Hw. reflexivity.
Qed.

Lemma with_inode_nodes inum C : whole C -> 0 <= inum < sb_ninodes sb ->
  dnode (with_inode inum C) inum = new_inode inum 0 /\
  forall j, 0 <= j < sb_ninodes sb -> j <> inum -> dnode (with_inode inum C) j = dnode C j.
Proof using Hsb Hty.
  intros Hw Hi. apply (stored_nodes sb d Hsb C _ inum (new_inode inum 1)); [done|done|apply new_inode_ok; constructor|done|done| |].
  - apply with_inode_at; [done|lia].
  - intros b _ Hb. by apply with_inode_other.
Qed.

(** [ialloc] to the first [iupdate]. *)
Lemma make_inode C L dp xd inum s :
  ino_view C L [dp] s -> bitmap_ok sb C -> whole C -> k_inodes s !! dp = Some xd -> 0 < i_ref xd ->
  (forall j z, k_inodes s !! j = Some z -> ~ is_inode d inum z) ->
  (exists j z, k_inodes s !! j = Some z /\ i_ref z = 0) ->
  1 <= inum < sb_ninodes sb -> itype sb C inum = 0 -> (forall j, 1 <= j < inum -> itype sb C j <> 0) ->
  Z.of_nat (length L) + 3 < LOGSIZE ->
  exists ip x0 s1 s2, ialloc d type s = Ret (Some ip) s1 /\
    (forall A (k : K A), (do! ilock (Some ip); do! put_inode ip (set_imajor major); do! put_inode ip (set_iminor minor);
       do! put_inode ip (set_inlink 1); do! iupdate ip; k) s1 = k s2) /\
    ip <> dp /\ k_inodes s !! ip = Some x0 /\ i_ref x0 = 0 /\
    ino_view (with_inode inum C) (logged (IBLOCK inum sb) L) [ip; dp] s2 /\
    bitmap_ok sb (with_inode inum C) /\ whole (with_inode inum C) /\ k_inodes s2 = <[ip := new_inode inum 1]> (k_inodes s).
Proof using HD Hsb Hty Hty0.
  intros V Hbm Hw Hxd Hr Hno Hfree Hi H0 Hlow HL. destruct Hty as [Ht _].
  destruct (ialloc_takes me pid d st sb Hsb C L s type (iv_op _ _ _ _ _ _ _ _ _ V) (iv_sb _ _ _ _ _ _ _ _ _ V) ltac:(lia) inum
    (iv_open _ _ _ _ _ _ _ _ _ V) Hw (iv_table _ _ _ _ _ _ _ _ _ V) Hfree Ht Hi H0 Hlow)
    as (ip & x & s1 & R1 & V1 & T1 & E1 & X1 & Hx & (x0 & Hx0 & Hcase) & S1).
  destruct Hcase as [Hin|[Hr0 ->]]; [by destruct (Hno _ _ Hx0)|].
  assert (Hne : ip <> dp) by (intros ->; rewrite Hxd in Hx0; injection Hx0 as ->; lia).
  pose proof (ino_step _ _ _ _ _ _ _ _ _ _ _ _ _ V V1 S1 T1) as W1.
  destruct (claimed_nodes d sb Hsb C inum type Hw ltac:(lia) Ht) as [N1 _].
  pose proof (logged_length (IBLOCK inum sb) L) as Hlg.
  destruct (ino_ilock me pid d st sb _ _ [dp] s1 ip _ inum W1 ltac:(by rewrite list_elem_of_singleton) X1 Hx) as (s2 & R2 & W2 & E2).
  { rewrite <- (itype_dnode d sb), N1. apply Hty0. }
  { done. }
  { unfold LOGSIZE, MAXOPBLOCKS, NBUF in *. lia. }
  rewrite N1, E1, list_insert_insert_eq in E2. cbn [fresh_inode i_ref] in E2.
  assert (Hlt : (ip < length (k_inodes s))%nat) by (by eapply lookup_lt_Some).
  set (t := set_inodes (<[ip := new_inode inum 1]> (k_inodes s)) s2).
  assert (R3 : forall A (k : K A), (do! put_inode ip (set_imajor major); do! put_inode ip (set_iminor minor);
    do! put_inode ip (set_inlink 1); k) s2 = k t).
  { intros A k. unfold put_inode. rewrite !kbind_modify. unfold inode_at. cbn [set_inodes k_inodes].
    rewrite E2, !list_insert_insert_eq, !list_lookup_insert_eq by (by rewrite ?length_insert). reflexivity. }
  assert (Et : itable_ok (<[ip := new_inode inum 1]> (k_inodes s))).
  { rewrite <- (list_insert_insert_eq _ ip (new_inode inum 1) (fresh_inode d inum x0)), <- E1.
    apply (itable_same _ _ (fresh_inode d inum x0)); [done|done|done|done|simpl; lia]. }
  pose proof (ino_set _ _ _ _ _ _ _ _ _ _ W2 Et) as W3. pose proof (IBLOCK_range sb Hsb inum ltac:(lia)) as [_ Hb].
  assert (Hbm1 : bitmap_ok sb (claimed d sb inum type C)) by (apply meta_bitmap; [done|lia|done]).
  assert (Hw1 : whole (claimed d sb inum type C)).
  { apply whole_write; [done|]. rewrite length_put_dinode; [apply Hw| |done]. apply dip_slot; [lia|]. rewrite Hw. reflexivity. }
  pose proof (ino_file _ _ _ _ _ _ _ _ t ip (new_inode inum 1) W3 ltac:(by apply list_lookup_insert_eq) eq_refl Hbm1 Hw1
    (proj1 (new_inode_ok _ _ _))) as F3.
  destruct (iupdate_run me pid d st sb ip Hsb _ _ _ _ F3 (iv_open _ _ _ _ _ _ _ _ _ W3)) as (s4 & R4 & F4 & S4); [simpl; lia|lia|].
  destruct (ino_op _ _ _ _ _ _ _ _ _ _ _ _ _ W3 (fv_view _ _ _ _ _ _ _ _ _ _ _ F4) S4) as [W4 E4].
  assert (Elog : logged (IBLOCK inum sb) (logged (IBLOCK inum sb) L) = logged (IBLOCK inum sb) L).
  { unfold logged at 1. rewrite decide_True; [done|]. apply logged_elem. by left. }
  cbn [new_inode i_inum] in W4, F4. rewrite Elog in W4, F4.
  exists ip, x0, s1, s4. split_and!; [done| |done|done|done|exact W4|apply F4|apply F4|exact E4].
  intros A k. krun R2. rewrite R3. krun R4. done.
Qed.

(** The new inode taken back, as [create] does at [fail]. *)
Definition dead_inode (inum : Z) : inode := set_inlink 0 (new_inode inum 1).

Lemma dead_belongs C inum b : belongs C (dead_inode inum) b -> b = 0.
Proof using.
  intros [->|(bn & Hbn & <-)]; [reflexivity|]. exact (proj2 (emptied_addr C (dead_inode inum) bn Hbn)).
Qed.

Lemma dead_ok C inum : inode_ok sb C (dead_inode inum) /\ dinode_ok (dead_inode inum) /\ dinode_ok (gone (dead_inode inum)).
Proof using Hty.
  split; [exact (emptied_ok sb C (dead_inode inum))|]. clear -Hty. destruct Hty as (? & ? & ?).
  split; split; simpl; try done; by repeat constructor.
Qed.

Lemma removed_disk C L inum C5 L5 :
  whole C -> bitmap_ok sb C -> 1 <= inum < sb_ninodes sb ->
  emptied_file sb (saved sb (dead_inode inum) C) L (dead_inode inum) (gone (dead_inode inum)) C5 L5 ->
  i_type (dnode C5 inum) = 0 /\ (forall j, 0 <= j < sb_ninodes sb -> j <> inum -> dnode C5 j = dnode C j) /\
  forall b, taken sb C b -> taken sb C5 b /\ C5 b = C b.
Proof using Hsb Hty.
  intros Hw Hbm Hi [E1 E2 E3 _ _ _]. set (C4 := saved sb (dead_inode inum) C) in *.
  change (i_inum (dead_inode inum)) with inum in *. destruct (dead_ok C inum) as (_ & K1 & K2).
  pose proof (IBLOCK_range sb Hsb inum ltac:(lia)) as [_ Hb]. pose proof (layout sb Hsb) as Hl.
  assert (F4 : forall b, b <> IBLOCK inum sb -> C4 b = C b) by (intros b Hne; unfold C4, saved; by apply fn_lookup_insert_ne).
  assert (A4 : C4 (IBLOCK inum sb) = put_dinode (dip inum) (dead_inode inum) (C (IBLOCK inum sb))) by apply fn_lookup_insert.
  assert (Hw4 : whole C4).
  { apply whole_write; [done|]. rewrite length_put_dinode; [apply Hw| |done]. apply dip_slot; [simpl; lia|]. rewrite Hw. reflexivity. }
  destruct (stored_nodes sb d Hsb C C4 inum (dead_inode inum) Hw ltac:(lia) K1 eq_refl eq_refl A4) as [_ N4]; [intros b _; apply F4|].
  destruct (stored_nodes sb d Hsb C4 C5 inum (gone (dead_inode inum)) Hw4 ltac:(lia) K2 eq_refl eq_refl E3) as [N5 N5'].
  { intros b Hlt Hne. apply E2; [intros [? _]; lia|done]. }
  split_and!; [by rewrite N5|intros j Hj Hne; rewrite N5', N4; done|].
  intros b [Hd Hu]. pose proof Hd as [Hd1 Hd2].
  assert (Eb : C5 b = C b) by (rewrite E2; [apply F4; lia|intros [_ ?]; lia|lia]). split; [|done]. split; [done|].
  apply E1; [done|]. split; [|intros Hbe; apply dead_belongs in Hbe; lia].
  unfold used in *. rewrite F4; [done|]. pose proof (BBLOCK_range sb b Hsb (data_valid _ _ Hsb Hd)). lia.
Qed.

Lemma unmake_run C L ip dp inum s :
  ino_view C L [ip; dp] s -> bitmap_ok sb C -> whole C -> k_inodes s !! ip = Some (new_inode inum 1) ->
  1 <= inum < sb_ninodes sb -> Z.of_nat (length L) + map_blocks sb + 4 < LOGSIZE ->
  exists C5 L5 z s', (forall A (k : K A), (do! put_inode ip (set_inlink 0); do! iupdate ip; do! iunlockput ip; k) s = k s') /\
    ino_view C5 L5 [dp] s' /\ bitmap_ok sb C5 /\ whole C5 /\ k_inodes s' = <[ip := z]> (k_inodes s) /\ i_ref z = 0 /\
    Z.of_nat (length L5) <= Z.of_nat (length L) + map_blocks sb + 2 /\
    i_type (dnode C5 inum) = 0 /\ (forall j, 0 <= j < sb_ninodes sb -> j <> inum -> dnode C5 j = dnode C j) /\
    (forall b, taken sb C b -> taken sb C5 b /\ C5 b = C b).
Proof using HD Hsb Hty.
  intros V Hbm Hw Hx Hi HL. assert (Hlt : (ip < length (k_inodes s))%nat) by (by eapply lookup_lt_Some).
  assert (0 <= map_blocks sb) by (unfold map_blocks; pose proof (layout sb Hsb); lia).
  set (t := set_inodes (<[ip := dead_inode inum]> (k_inodes s)) s).
  assert (R1 : put_inode ip (set_inlink 0) s = Ret tt t) by (unfold put_inode, modify; by rewrite (inode_at_lookup _ _ _ Hx)).
  assert (Et : itable_ok (<[ip := dead_inode inum]> (k_inodes s))) by (apply (itable_same _ _ (new_inode inum 1)); [apply V|done|done|done|simpl; lia]).
  pose proof (ino_set _ _ _ _ _ _ _ _ _ _ V Et) as V1. assert (X1 : k_inodes t !! ip = Some (dead_inode inum)) by (by apply list_lookup_insert_eq).
  pose proof (ino_file _ _ _ _ _ _ _ _ t ip _ V1 X1 eq_refl Hbm Hw (proj1 (dead_ok C inum))) as F1.
  destruct (iupdate_run me pid d st sb ip Hsb _ _ _ _ F1 (iv_open _ _ _ _ _ _ _ _ _ V1)) as (s2 & R2 & F2 & S2); [simpl; lia|lia|].
  destruct (ino_op _ _ _ _ _ _ _ _ _ _ _ _ _ V1 (fv_view _ _ _ _ _ _ _ _ _ _ _ F2) S2) as [V2 E2].
  pose proof (fv_inode _ _ _ _ _ _ _ _ _ _ _ F2) as X2.
  destruct (ino_iunlock me pid d st sb _ _ _ s2 ip _ V2 X2 ltac:(simpl; lia)) as (s3 & R3 & V3 & E3).
  assert (X3 : k_inodes s3 !! ip = Some (dead_inode inum)) by (by rewrite E3).
  pose proof (ino_file _ _ _ _ _ _ _ _ s3 ip _ V3 X3 eq_refl (fv_bitmap _ _ _ _ _ _ _ _ _ _ _ F2) (fv_whole _ _ _ _ _ _ _ _ _ _ _ F2)
    (proj1 (dead_ok _ inum))) as F3.
  pose proof (iv_nodup _ _ _ _ _ _ _ _ _ V2) as Hnd. apply NoDup_cons in Hnd as [Hnin Hnd].
  pose proof (ino_range _ _ _ _ _ _ _ _ _ _ _ V3 X3) as Hip. pose proof (iv_locks _ _ _ _ _ _ _ _ _ V3 ip Hip) as Hu.
  rewrite decide_False in Hu by done. pose proof (logged_length (IBLOCK inum sb) L) as Hlg. change (i_inum (dead_inode inum)) with inum in *.
  destruct (iput_last_run me pid d st sb ip Hsb _ _ _ s3 F3 (iv_open _ _ _ _ _ _ _ _ _ V3) ltac:(simpl; lia) ltac:(lia) Hip Hu eq_refl eq_refl eq_refl)
    as (C5 & L5 & s5 & R5 & F5 & O5 & EF & E5 & U5 & K5).
  destruct (removed_disk C _ inum C5 L5 Hw Hbm Hi EF) as (D1 & D2 & D3).
  assert (RU : iunlockput ip s2 = Ret tt s5) by (unfold iunlockput; krun R3; exact R5).
  exists C5, L5. eexists _, s5. split; [intros A k; krun R1; krun R2; krun RU; done|].
  split; [|split; [apply F5|split; [apply F5|split; [by rewrite E5, E3, E2; cbn [t set_inodes k_inodes]; rewrite list_insert_insert_eq|]]]].
  - destruct V3 as [_ _ _ _ T3 _ L3]. split; try done; try apply F5.
    + rewrite E5. apply (itable_same _ _ (dead_inode inum)); [done|done|done|done|simpl; lia].
    + intros i Hi'. destruct (decide (i = ip)) as [->|Hne]; [by rewrite decide_False|rewrite K5 by done; by apply L3].
  - split; [done|]. split; [pose proof (ef_len _ _ _ _ _ _ _ EF); lia|done].
Qed.

(** ** The new name *)

Section link.
Context (C : Z -> block) (L : list Z) (T : Z -> Prop).
Hypothesis Hbm : bitmap_ok sb C.
Hypothesis Hw : whole C.
Hypothesis Hg : graph_ok C sb d T.
Hypothesis Hap : unshared sb d C T.
Context (p inum : Z) (name : list Z).
Hypothesis Hp : T p.
Hypothesis Hpd : is_dir C sb d p = true.
Hypothesis Hnone : dir_map C (dnode C p) name = None.
Hypothesis Hi : 1 <= inum < sb_ninodes sb.
Hypothesis Hi0 : itype sb C inum = 0.

Lemma not_new i : T i -> i <> inum.
Proof using Hg Hi0. intros Ht ->. by apply (gr_type _ _ _ _ Hg inum Ht). Qed.

Abbreviation C2 := (with_inode inum C).

Lemma with_inode_spares x : spares sb C x C2.
Proof using Hsb Hi.
  apply spares_meta; [done|]. intros b Hb. apply with_inode_other. pose proof (IBLOCK_range sb Hsb inum ltac:(lia)) as [_ ?]. lia.
Qed.

(** The directory, on the disk that has the new inode. *)
Lemma parent_ok r : let xd := set_iref r (dnode C p) in
  inode_ok sb C2 xd /\ dir_ok C2 xd /\ (forall nm, dir_map C2 xd nm = dir_map C (dnode C p) nm) /\
  (forall b, belongs C2 xd b <-> belongs C (dnode C p) b).
Proof using Hsb Hg Hp Hpd Hi.
  intros xd. destruct (gr_dir _ _ _ _ Hg p Hp Hpd) as [D1 I1].
  destruct (spares_dir sb C (dnode C p) C2 I1 D1 (with_inode_spares _)) as (I2 & D2 & M2).
  split_and!; [by apply inode_ok_ref|by apply dir_ok_ref|exact M2|].
  intros b. exact (spares_belongs sb C (dnode C p) C2 b I1 (with_inode_spares _)).
Qed.

(** What [dirlink] leaves, [xd'] being the entry of the directory. *)
Record relinked (r : Z) (new : option (list Z * Z)) (C3 : Z -> block) (xd' : inode) : Prop := {
  rl_inode : inode_ok sb C3 xd';
  rl_dir : dir_ok C3 xd';
  rl_frame : xd' = set_isize (i_size xd') (set_iaddrs (i_addrs xd') (set_iref r (dnode C p)));
  rl_saved : C3 (IBLOCK p sb) = put_dinode (dip p) xd' (C2 (IBLOCK p sb));
  rl_meta b : b < sb_bmapstart sb -> b <> IBLOCK p sb -> C3 b = C2 b;
  rl_other b : taken sb C2 b -> ~ belongs C2 (set_iref r (dnode C p)) b ->
    taken sb C3 b /\ ~ belongs C3 xd' b /\ C3 b = C2 b;
  rl_map nm : dir_map C3 xd' nm =
    match new with
    | Some (name, j) => if decide (until_nul nm = until_nul name) then Some j else dir_map C (dnode C p) nm
    | None => dir_map C (dnode C p) nm
    end
}.

Lemma relinked_nodes r new C3 xd' : relinked r new C3 xd' -> whole C2 ->
  dnode C3 p = on_disk xd' /\ dnode C3 inum = new_inode inum 0 /\
  forall j, 0 <= j < sb_ninodes sb -> j <> p -> j <> inum -> dnode C3 j = dnode C j.
Proof using Hsb Hty Hg Hap Hp Hw Hi Hi0.
  intros [R1 R2 R3 R4 R5 R6 R7] Hw2. pose proof (un_range _ _ _ _ Hap p Hp) as Hpr. pose proof (not_new p Hp) as Hne.
  assert (Hdk : dinode_ok xd').
  { apply (dnode_ok sb Hsb C3); [done|apply R2|rewrite R3; apply s16_range..]. }
  destruct (stored_nodes sb d Hsb C2 C3 p xd' Hw2 Hpr Hdk) as [N1 N2]; [by rewrite R3|by rewrite R3|done|done|].
  destruct (with_inode_nodes inum C Hw ltac:(lia)) as [M1 M2].
  split_and!; [done|rewrite N2 by (done || lia); exact M1|]. intros j Hj Hjp Hji. rewrite N2 by done. by apply M2.
Qed.

Lemma relinked_gained r new C3 xd' : relinked r new C3 xd' -> whole C2 -> new = None \/ new = Some (name, inum) ->
  gained sb d T p new C C3.
Proof using All.
  intros R Hw2 Hnew. destruct (relinked_nodes r new C3 xd' R Hw2) as (N1 & N2 & N3). destruct R as [R1 R2 R3 R4 R5 R6 R7].
  destruct (parent_ok r) as (_ & _ & _ & B2).
  assert (Old : forall b, taken sb C b -> taken sb C2 b /\ C2 b = C b).
  { intros b Hb. apply (with_inode_spares (set_iaddrs (replicate naddrs b) (dnode C p))); [done|]. right. exists 0. split; [done|reflexivity]. }
  assert (Ety : i_type xd' = T_DIR) by apply R2.
  split.
  - intros i Ht Hne. apply N3; [by apply Hap|done|by apply not_new].
  - intros i Ht Hne Hd b Hb Hbi. destruct (Old b Hb) as [T2 E2].
    destruct (R6 b T2) as (T3 & _ & E3); [rewrite B2; by apply (un_dirs _ _ _ _ Hap i p)|]. split; [done|congruence].
  - rewrite N1. split_and!; [unfold is_dir; rewrite N1; cbn [on_disk set_iref set_ivalid i_type]; by rewrite Ety| | |].
    + apply dir_ok_ref. destruct R2 as [[? ?] ? ? ?]. by split.
    + apply inode_ok_ref. destruct R1. by split.
    + by rewrite R3.
  - intros nm. rewrite N1. exact (R7 nm).
  - intros b Hb Hnb. rewrite N1. apply R6; [by apply Old|by rewrite B2].
  - intros nm j ->. destruct Hnew as [|[= -> ->]]; [done|]. split; [lia|]. split; [done|]. unfold is_dir. rewrite N2. cbn [new_inode i_type i_nlink].
    destruct Hty0. split_and!; [done|by apply Z.eqb_neq|done].
Qed.

Hypothesis Hlow : forall j, 1 <= j < inum -> itype sb C j <> 0.
Hypothesis Hi16 : inum < 2 ^ 16.
Hypothesis Hn : name_buf name.
Hypothesis Hslot : sizeof_dirent * Z.of_nat (slot_of C (dnode C p)) + sizeof_dirent <= MAXSIZE.

Lemma link_run r ip dp L2 s : let xd := set_iref r (dnode C p) in
  ino_view C2 L2 [ip; dp] s -> bitmap_ok sb C2 -> whole C2 -> k_inodes s !! dp = Some xd -> 0 < r ->
  Z.of_nat (length L2) + map_blocks sb + 8 <= LOGSIZE ->
  exists rv C3 L3 xd' s', dirlink dp name inum s = Ret rv s' /\ ino_view C3 L3 [ip; dp] s' /\ bitmap_ok sb C3 /\ whole C3 /\
    k_inodes s' = <[dp := xd']> (k_inodes s) /\ Z.of_nat (length L3) <= Z.of_nat (length L2) + map_blocks sb + 3 /\
    (rv = 0 /\ relinked r (Some (name, inum)) C3 xd' \/
     rv = -1 /\ relinked r None C3 xd' /\ forall y, valid_block sb y -> used sb C3 y = true).
Proof using All.
  intros xd V Hbm2 Hw2 Hx Hr HL. destruct (parent_ok r) as (I2 & D2 & M2 & _). fold xd in I2, D2, M2.
  pose proof (un_range _ _ _ _ Hap p Hp) as Hpr.
  pose proof (ino_file _ _ _ _ _ _ _ _ s dp xd V Hx eq_refl Hbm2 Hw2 I2) as FV.
  assert (Es : slot_of C2 xd = slot_of C (dnode C p)).
  { destruct (gr_dir _ _ _ _ Hg p Hp Hpd) as [D1 I1].
    destruct (spares_dirents sb C (dnode C p) C2 I1 D1 (with_inode_spares _)) as (_ & _ & E). unfold slot_of.
    change (dirents C2 xd) with (dirents C2 (dnode C p)). by rewrite E. }
  destruct (dirlink_run me pid d st sb dp Hsb tx_idle C2 L2 xd D2 name s FV Hn inum (iv_open _ _ _ _ _ _ _ _ _ V))
    as (rv & C3 & L3 & xd' & s' & R & FV' & D' & Ei & Hres & Hfr & HL' & Efr & Et & Esv & Hme & io & S);
    [lia|exact Hpr|by rewrite M2|by rewrite Es|exact HL|].
  change (i_inum xd) with p in *.
  assert (T' : itable_ok (k_inodes s')).
  { rewrite Et. apply (itable_same _ _ xd); [apply V|done|by rewrite Efr|by rewrite Efr|rewrite Efr; simpl; lia]. }
  exists rv, C3, L3, xd', s'. split; [done|].
  split; [exact (ino_step _ _ _ _ _ _ _ _ _ _ _ _ _ V (fv_view _ _ _ _ _ _ _ _ _ _ _ FV') S T')|].
  do 2 (split; [apply FV'|]). split; [done|]. split; [exact HL'|].
  assert (Mk : forall new, (forall nm, dir_map C3 xd' nm =
    match new with
    | Some (name, j) => if decide (until_nul nm = until_nul name) then Some j else dir_map C (dnode C p) nm
    | None => dir_map C (dnode C p) nm
    end) -> relinked r new C3 xd') by (intros new Hm; split; try done; apply FV').
  destruct Hres as [[-> Hm]|(-> & Hm & Hfull)]; [left|right].
  - split; [done|]. apply Mk. intros nm. rewrite Hm. by rewrite M2.
  - split; [done|]. split; [|done]. apply Mk. intros nm. rewrite Hm. apply M2.
Qed.

(** The branch of [create] for a name that the directory does not have. *)
Definition create_new (dp : nat) : K (option nat) :=
  let! dx := gets (fun s => inode_at s dp) in
  let! ip := ialloc (i_dev dx) type in
  match ip with
  | None => do! iunlockput dp; kret None
  | Some ip =>
    do! ilock (Some ip);
    do! put_inode ip (set_imajor major);
    do! put_inode ip (set_iminor minor);
    do! put_inode ip (set_inlink 1);
    do! iupdate ip;
    let! x := gets (fun s => inode_at s ip) in
    let! dx := gets (fun s => inode_at s dp) in
    let! ok :=
      (if type =? T_DIR then
         let! r := dirlink ip dot (i_inum x) in
         if r <? 0 then kret false else
         let! r := dirlink ip dotdot (i_inum dx) in
         kret (negb (r <? 0))
       else kret true) in
    if negb ok then create_fail ip dp else
    let! r := dirlink dp name (i_inum x) in
    if r <? 0 then create_fail ip dp else
    do! if! type =? T_DIR then
      (do! put_inode dp (fun x => set_inlink (s16 (i_nlink x + 1)) x);
       iupdate dp);
    do! iunlockput dp;
    kret (Some ip)
  end.

(** What a state with no call in progress satisfies. *)
Record settled (C' : Z -> block) (L' : list Z) (k : option nat) (s : kst) : Prop := {
  se_names : names_view me pid d st sb C' L' k s;
  se_open : op_open s;
  se_bitmap : bitmap_ok sb C';
  se_whole : whole C'
}.

(** [ip] is the new file, locked; or the disk was full and all is as before. *)
Record made (R : Z -> Z) (U : Z) (rv : option nat) (C' : Z -> block) (L' : list Z) (s' : kst) : Prop := {
  mk_state : settled C' L' rv s';
  mk_room : Z.of_nat (length L') <= Z.of_nat (length L) + 2 * map_blocks sb + 6;
  mk_result :
    match rv with
    | Some ip => k_inodes s' !! ip = Some (new_inode inum 1) /\ gained sb d T p (Some (name, inum)) C C' /\
        dnode C' inum = new_inode inum 0 /\ counted d (fun i => R i + one i inum) (U + 1) s'
    | None => gained sb d T p None C C' /\ itype sb C' inum = 0 /\
        (forall b, data_block sb b -> used sb C' b = true) /\ counted d R U s'
    end
}.

(** Two entries of the table change. *)
Lemma sum_two {A} (f : A -> Z) l i j x y x' y' : i <> j -> l !! i = Some x -> l !! j = Some y ->
  zsum f (<[j := y']> (<[i := x']> l)) = zsum f l - f x + f x' - f y + f y'.
Proof using.
  intros Hne Hx Hy. rewrite (zsum_insert f _ j y) by (by rewrite list_lookup_insert_ne). by rewrite (zsum_insert f l i x).
Qed.

Lemma counts_two l ip dp x0 xd x' r :
  ip <> dp -> l !! ip = Some x0 -> i_ref x0 = 0 -> l !! dp = Some xd -> is_inode d p xd -> r = i_ref xd - 1 ->
  (i_ref x' = 0 \/ x' = new_inode inum 1) ->
  forall yd, i_inum yd = p -> i_dev yd = d -> i_ref yd = r ->
  (forall i, refcount d (<[dp := yd]> (<[ip := x']> l)) i = refcount d l i + (if i_ref x' =? 0 then 0 else one i inum) - one i p) /\
  used_entries (<[dp := yd]> (<[ip := x']> l)) = used_entries l + (if i_ref x' =? 0 then 0 else 1) - fresh_entry r.
Proof using.
  intros Hne H0 Hr0 Hd (D1 & D2 & D3) -> Hx' yd Y1 Y2 Y3. clear -Hne H0 Hr0 Hd D1 D2 D3 Hx' Y1 Y2 Y3. split.
  - intros i. unfold refcount. rewrite (sum_two _ l ip dp x0 xd) by done. unfold weight. rewrite D2, D3, Y1, Y2, Y3, Hr0, Z.eqb_refl.
    assert ((if (i_dev x0 =? d) && (i_inum x0 =? i) then 0 else 0) = 0) as -> by (by case_match).
    unfold one. rewrite (Z.eqb_sym p i).
    destruct Hx' as [E| ->]; [rewrite E|cbn [new_inode i_ref i_dev i_inum Z.eqb Pos.eqb]; rewrite Z.eqb_refl, (Z.eqb_sym inum i)];
      cbn [andb Z.eqb]; repeat case_match; lia.
  - unfold used_entries. rewrite (sum_two _ l ip dp x0 xd) by done. unfold in_use, fresh_entry. rewrite Hr0, Y3.
    rewrite (proj2 (Z.ltb_lt 0 (i_ref xd))) by lia. destruct Hx' as [E| ->]; [rewrite E|cbn [new_inode i_ref]]; cbn [Z.eqb Z.ltb Z.compare];
      destruct (Z.ltb_spec 0 (i_ref xd - 1)), (Z.eqb_spec (i_ref xd - 1) 0); lia.
Qed.

(** Valid entries of the new table. *)
Lemma cache_two C' l ip dp xd x' yd :
  cache_ok d sb C l -> itable_ok l -> l !! dp = Some xd -> is_inode d p xd ->
  (forall i z, l !! i = Some z -> 0 < i_ref z -> i_dev z = d -> 0 <= i_inum z < sb_ninodes sb /\ i_inum z <> inum) ->
  (forall j, 0 <= j < sb_ninodes sb -> j <> p -> j <> inum -> dnode C' j = dnode C j) ->
  (i_ref x' = 0 \/ x' = set_iref (i_ref x') (dnode C' inum) /\ i_inum x' = inum) ->
  yd = set_iref (i_ref yd) (dnode C' p) -> i_inum yd = p ->
  cache_ok d sb C' (<[dp := yd]> (<[ip := x']> l)).
Proof using.
  intros Hc Ht Hd Hin Hr Hnd Hx' Hyd Hyi i z Hz Hrz Hdz Hvz.
  apply list_lookup_insert_Some in Hz as [(_ & <- & _)|[Hi1 Hz]]; [by rewrite Hyi|].
  apply list_lookup_insert_Some in Hz as [(_ & <- & _)|[Hi2 Hz]]; [destruct Hx' as [E|[E ->]]; [rewrite E in Hrz; by destruct (Z.lt_irrefl 0)|done]|].
  destruct (Hr i z Hz Hrz Hdz) as [Hzr Hzn]. rewrite Hnd; [by apply (Hc i)|done| |done].
  intros E. apply Hi1. destruct Hin as (I1 & I2 & I3). by apply (it_unique _ Ht dp i xd z); congruence.
Qed.

Lemma unreferenced l j z : itable_ok l -> refcount d l inum = 0 -> l !! j = Some z -> ~ is_inode d inum z.
Proof using. intros Ht H0 Hz Hin. rewrite (refcount_at d l j z inum Ht Hz Hin) in H0. destruct Hin as [H _]. rewrite H0 in H. by destruct (Z.lt_irrefl 0). Qed.

Lemma free_entry_exists l : itable_ok l -> used_entries l < Z.of_nat NINODE -> exists j z, l !! j = Some z /\ i_ref z = 0.
Proof using.
  intros Ht Hu. destruct (decide (Forall (fun x => 0 < i_ref x) l)) as [Hf|Hf].
  - rewrite (used_full l Hf), (it_len _ Ht) in Hu. by destruct (Z.lt_irrefl (Z.of_nat NINODE)).
  - apply not_Forall_Exists in Hf; [|intros x; apply _]. apply Exists_exists in Hf as (x & Hx & Hr).
    apply list_elem_of_lookup in Hx as [j Hx]. exists j, x. split; [done|]. pose proof (it_ref _ Ht j x Hx). clear -H Hr. simpl in Hr. lia.
Qed.

Section run.
Context (r : Z) (ip dp : nat) (x0 : inode) (l : list inode).
Abbreviation xd := (set_iref r (dnode C p)).
Hypothesis Hr : 0 < r.
Hypothesis Hcache : cache_ok d sb C l.
Hypothesis Htab : itable_ok l.
Hypothesis Hdp : l !! dp = Some xd.
Hypothesis Hip : l !! ip = Some x0.
Hypothesis Hfree : i_ref x0 = 0.
Hypothesis Hne : ip <> dp.
Hypothesis Hnew : refcount d l inum = 0.
Hypothesis Hrange : forall i z, l !! i = Some z -> 0 < i_ref z -> i_dev z = d -> 0 <= i_inum z < sb_ninodes sb.

Lemma range_new i z : l !! i = Some z -> 0 < i_ref z -> i_dev z = d -> 0 <= i_inum z < sb_ninodes sb /\ i_inum z <> inum.
Proof using Htab Hnew Hrange.
  intros Hz Hrz Hdz. split; [by apply (Hrange i)|]. intros E. by apply (unreferenced l i z Htab Hnew Hz).
Qed.

(** The directory unlocked and put back. *)
Lemma drop_parent new C3 xd' C' L' K x' s :
  relinked r new C3 xd' -> (forall j, 0 <= j < sb_ninodes sb -> j <> inum -> dnode C' j = dnode C3 j) -> whole C2 ->
  ino_view C' L' (dp :: K) s -> k_inodes s = <[dp := xd']> (<[ip := x']> l) ->
  (i_ref x' = 0 \/ x' = new_inode inum 1 /\ dnode C' inum = new_inode inum 0) ->
  exists s', iunlockput dp s = Ret tt s' /\ ino_view C' L' K s' /\ k_inodes s' = <[dp := set_iref (r - 1) xd']> (<[ip := x']> l) /\
    cache_ok d sb C' (k_inodes s') /\
    counted d (fun i => refcount d l i + (if i_ref x' =? 0 then 0 else one i inum) - one i p)
      (used_entries l + (if i_ref x' =? 0 then 0 else 1) - fresh_entry (r - 1)) s'.
Proof using All.
  intros Rl HC' Hw2 V E Hx'. destruct (relinked_nodes _ _ _ _ Rl Hw2) as (N1 & _ & N3). pose proof (rl_frame _ _ _ _ Rl) as Ef.
  assert (Er : i_ref xd' = r) by (by rewrite Ef). assert (Ei : i_inum xd' = p) by (by rewrite Ef). assert (Ed : i_dev xd' = d) by (by rewrite Ef).
  assert (Ev : i_valid xd' = true) by (by rewrite Ef). pose proof (un_range _ _ _ _ Hap p Hp) as Hpr. pose proof (not_new p Hp) as Hpn.
  assert (El : i_nlink xd' <> 0) by (rewrite Ef; by apply (gr_linked _ _ _ _ Hg)).
  assert (Hx : k_inodes s !! dp = Some xd').
  { rewrite E. apply list_lookup_insert_eq. rewrite length_insert. by eapply lookup_lt_Some. }
  destruct (ino_iunlockput me pid d st sb _ _ _ s dp xd' V Hx) as (s' & R & V' & E'); [lia|by left|].
  rewrite E, list_insert_insert_eq, Er in E'. assert (Hin : is_inode d p xd) by done.
  exists s'. split_and!; [done|done|done| |].
  - rewrite E'. apply (cache_two C' l ip dp xd x' _ Hcache Htab Hdp Hin range_new); [| | |done].
    + intros j Hj Hjp Hji. rewrite HC' by done. by apply N3.
    + destruct Hx' as [|[-> Hd]]; [by left|right]. by rewrite Hd.
    + rewrite HC', N1 by done. destruct xd'. simpl in *. by rewrite Ev.
  - unfold counted. rewrite E'. apply (counts_two l ip dp x0 xd x' (r - 1)); try done. destruct Hx' as [|[-> _]]; [by left|by right].
Qed.
End run.

(** A disk that lost the new inode again. *)
Lemma gained_none C3 C5 : gained sb d T p None C C3 -> inode_ok sb C3 (dnode C3 p) -> dir_ok C3 (dnode C3 p) ->
  (forall j, 0 <= j < sb_ninodes sb -> j <> inum -> dnode C5 j = dnode C3 j) ->
  (forall b, taken sb C3 b -> taken sb C5 b /\ C5 b = C3 b) -> gained sb d T p None C C5.
Proof using Hg Hap Hp Hi0.
  intros [G1 G2 (G3 & G4 & G5 & G6) G7 G8 _] Ip Dp HN HB. assert (HNt : forall i, T i -> dnode C5 i = dnode C3 i).
  { intros i Hti. apply HN; [by apply Hap|by apply not_new]. }
  destruct (spares_dir sb C3 (dnode C3 p) C5 Ip Dp) as (I5 & D5 & M5); [intros b Hb _; by apply HB|].
  split.
  - intros i Hti Hne. rewrite HNt by done. by apply G1.
  - intros i Hti Hne Hd b Hb Hbe. destruct (G2 i Hti Hne Hd b Hb Hbe) as [H1 H2]. destruct (HB b H1) as [H3 H4]. split; [done|congruence].
  - unfold is_dir. rewrite HNt by done. by split_and!.
  - intros nm. rewrite HNt, M5 by done. apply G7.
  - intros b Hb Hnb. rewrite HNt by done. rewrite (spares_belongs sb C3); [by apply G8|done|]. intros b' Hb' _. by apply HB.
  - done.
Qed.

Lemma create_new_run r dp s :
  settled C L (Some dp) s -> k_inodes s !! dp = Some (set_iref r (dnode C p)) -> 0 < r ->
  refcount d (k_inodes s) inum = 0 -> used_entries (k_inodes s) < Z.of_nat NINODE ->
  (forall i z, k_inodes s !! i = Some z -> 0 < i_ref z -> i_dev z = d -> 0 <= i_inum z < sb_ninodes sb) ->
  Z.of_nat (length L) + 2 * map_blocks sb + 9 <= LOGSIZE ->
  exists rv C' L' s', create_new dp s = Ret rv s' /\
    made (fun i => refcount d (k_inodes s) i - one i p) (used_entries (k_inodes s) - fresh_entry (r - 1)) rv C' L' s'.
Proof using All.
  intros [V0 Hop _ _] Hx Hr Hz Hu Hrg HL. pose proof (nv_table _ _ _ _ _ _ _ _ _ V0) as Ht.
  assert (0 < map_blocks sb) by (unfold map_blocks; pose proof (layout sb Hsb); lia).
  pose proof (logged_length (IBLOCK inum sb) L) as Hlg. pose proof (ino_names _ _ _ _ _ _ _ _ _ V0 Hop) as V.
  destruct (make_inode C L dp _ inum s V Hbm Hw Hx Hr (fun j z => unreferenced _ j z Ht Hz) (free_entry_exists _ Ht Hu) Hi Hi0 Hlow)
    as (ip & x0 & s1 & s2 & R1 & R2 & Hne & Hx0 & Hr0 & V2 & Hbm2 & Hw2 & E2); [lia|].
  assert (Hlt : (ip < length (k_inodes s))%nat) by (by eapply lookup_lt_Some).
  assert (Hx2 : k_inodes s2 !! dp = Some (set_iref r (dnode C p))) by (by rewrite E2, list_lookup_insert_ne).
  assert (Hi2 : inode_at s2 ip = new_inode inum 1) by (apply inode_at_lookup; rewrite E2; by apply list_lookup_insert_eq).
  destruct (link_run r ip dp _ s2 V2 Hbm2 Hw2 Hx2 Hr) as (rv & C3 & L3 & xd' & s3 & R3 & V3 & Hbm3 & Hw3 & E3 & HL3 & Hres); [lia|].
  rewrite E2 in E3. pose proof (nv_cache _ _ _ _ _ _ _ _ _ V0) as Hc.
  unfold create_new. rewrite kbind_gets, (inode_at_lookup _ _ _ Hx). cbn [set_iref i_dev]. change (i_dev (dnode C p)) with d. krun R1. rewrite R2.
  rewrite !kbind_gets, Hi2, (proj2 (Z.eqb_neq _ _) (proj2 Hty0)), kbind_kret. cbn [negb new_inode i_inum]. krun R3.
  destruct Hres as [[-> Rl]|(-> & Rl & Hfull)]; cbn [Z.ltb Z.compare].
  - pose proof (relinked_gained r _ C3 xd' Rl Hw2 (or_intror eq_refl)) as G. destruct (relinked_nodes _ _ _ _ Rl Hw2) as (_ & N2 & _).
    destruct (drop_parent r ip dp x0 (k_inodes s) Hr Hc Ht Hx Hx0 Hr0 Hne Hz Hrg _ C3 xd' C3 L3 [ip] (new_inode inum 1) s3 Rl (fun _ _ _ => eq_refl) Hw2
      (ino_perm _ _ _ _ _ _ _ _ _ _ V3 (Permutation_swap _ _ _)) E3 (or_intror (conj eq_refl N2))) as (s4 & R4 & V4 & E4 & C4 & K4).
    rewrite kbind_kret. krun R4. exists (Some ip), C3, L3, s4. split; [done|]. split; [|lia|].
    + split; [by apply names_ino|apply V4|done|done].
    + split_and!; [|done|done|]. { rewrite E4, list_lookup_insert_ne by done. by apply list_lookup_insert_eq. }
      destruct K4 as [K4 K5]. split; [intros i; rewrite K4|rewrite K5]; cbn [new_inode i_ref Z.eqb]; lia.
  - pose proof (relinked_gained r _ C3 xd' Rl Hw2 (or_introl eq_refl)) as G.
    destruct (unmake_run C3 L3 ip dp inum s3 V3 Hbm3 Hw3) as (C5 & L5 & z & s5 & R5 & V5 & Hbm5 & Hw5 & E5 & Hz5 & HL5 & D1 & D2 & D3); [|lia|lia|].
    { rewrite E3, list_lookup_insert_ne by done. by apply list_lookup_insert_eq. }
    rewrite E3, list_insert_insert_ne, list_insert_insert_eq in E5 by done.
    destruct (drop_parent r ip dp x0 (k_inodes s) Hr Hc Ht Hx Hx0 Hr0 Hne Hz Hrg _ C3 xd' C5 L5 [] z s5 Rl D2 Hw2 V5 E5 (or_introl Hz5))
      as (s6 & R6 & V6 & E6 & C6 & K6).
    exists None, C5, L5, s6. split; [unfold create_fail; rewrite R5; krun R6; done|]. split; [|lia|].
    + split; [by apply names_ino|apply V6|done|done].
    + destruct (gn_parent _ _ _ _ _ _ _ G) as (_ & Dp & Ip & _). split_and!; [by apply (gained_none C3)|done| |].
      * intros b Hb. apply D3. split; [done|]. apply Hfull. by apply data_valid.
      * destruct K6 as [K6 K7]. rewrite Hz5 in K6, K7. cbn [Z.eqb] in K6, K7. split; [intros i; rewrite K6|rewrite K7]; lia.
Qed.
End link.

(** ** The whole call *)

Section call.
Context (C : Z -> block) (L : list Z) (T : Z -> Prop).
Hypothesis Hg : graph_ok C sb d T.
Hypothesis Hun : unshared sb d C T.
Hypothesis Hroot : d = ROOTDEV.
Hypothesis HL : Z.of_nat (length L) + 2 * map_blocks sb + 9 <= LOGSIZE.

Context (path : list Z) (i0 : Z) (s : kst).
Hypothesis V : settled C L None s.
Hypothesis Hst : starts me d path i0 s.
Hypothesis HT : T i0.
Hypothesis Hpath : Forall (fun c => c <> 0) path /\ bytes_ok path.
Hypothesis Hent : used_entries (k_inodes s) + 2 <= Z.of_nat NINODE.
Hypothesis Hrange : forall i, 0 < refcount d (k_inodes s) i -> 0 <= i < sb_ninodes sb.

Abbreviation R0 := (refcount d (k_inodes s)).
Abbreviation U0 := (used_entries (k_inodes s)).
Abbreviation walking := (walking me pid d st sb C L T R0 U0).
Abbreviation names_view := (names_view me pid d st sb).

Lemma room : (length L + 1 < NBUF)%nat.
Proof using HL Hsb. pose proof (layout sb Hsb). unfold map_blocks, NBUF, LOGSIZE, MAXOPBLOCKS in *. lia. Qed.

Lemma kept_both s1 s2 s3 : kept s1 s2 -> kept s2 s3 -> kept s1 s3.
Proof using. intros [A1 A2] [B1 B2]. split; congruence. Qed.

Lemma kept_open s' : kept s s' -> op_open s'.
Proof using V. intros [_ E]. unfold op_open. rewrite E. apply V. Qed.

(** Nothing changed. *)
Definition unchanged (s' : kst) : Prop := settled C L None s' /\ counted d R0 U0 s'.

Lemma unchanged_of s' : names_view C L None s' -> kept s s' -> counted d R0 U0 s' -> unchanged s'.
Proof using V. intros V' K Hc. split; [|done]. split; [done|by apply kept_open|apply V|apply V]. Qed.

(** The directory of the path is locked, and its entry is what the disk has. *)
Record at_parent (p : Z) (name : list Z) (dp : nat) (xd : inode) (s1 : kst) : Prop := {
  pa_walk : walking (Some dp) dp p s1;
  pa_entry : k_inodes s1 !! dp = Some xd;
  pa_disk : xd = set_iref (i_ref xd) (dnode C p);
  pa_ref : 0 < i_ref xd;
  pa_dir : is_dir C sb d p = true;
  pa_kept : kept s s1;
  pa_name : name_buf name /\ exists e, last (elements path) = Some e /\ until_nul name = take (Z.to_nat DIRSIZ) e
}.

Lemma found_dir p : found C sb d true i0 (elements path) = Some p ->
  is_dir C sb d p = true /\ resolve C sb d i0 (removelast (elements path)) = Some p.
Proof using.
  unfold found, resolve_parent. destruct (elements path) as [|e es]; [done|]. destruct (resolve C sb d i0 (removelast (e :: es))) as [j|]; [|done].
  simpl. destruct (is_dir C sb d j) eqn:Ed; [|done]. by intros [= <-].
Qed.

Lemma parent_run :
  match found C sb d true i0 (elements path) with
  | None => exists nm s', nameiparent path name0 s = Ret (None, nm) s' /\ unchanged s'
  | Some p => exists dp name s1 s2 xd, nameiparent path name0 s = Ret (Some dp, name) s1 /\ ilock (Some dp) s1 = Ret tt s2 /\
      at_parent p name dp xd s2
  end.
Proof using HD Hsb Hg Hroot HL V Hst HT Hpath Hent.
  destruct Hpath as [Hp1 Hp2]. assert (Hn0 : name_buf name0) by (split; [reflexivity|refine (bool_decide_unpack _ _); vm_compute; exact I]).
  destruct (namex_run me pid d st sb Hsb C L T (se_bitmap _ _ _ _ V) (se_whole _ _ _ _ V) Hg room path true name0 i0 s Hroot
    (se_names _ _ _ _ V) Hst HT Hp1 Hp2 Hn0 Hent) as (rv & nm & s1 & R1 & V1 & K1 & Hr). unfold nameiparent.
  destruct (found C sb d true i0 (elements path)) as [p|] eqn:Ef.
  - destruct Hr as (dp & -> & W1 & Hl). destruct (Hl eq_refl) as (e & He & Hu & Hnb).
    destruct (walking_lock me pid d st sb Hsb C L T (se_bitmap _ _ _ _ V) (se_whole _ _ _ _ V) Hg room R0 U0 dp p s1 W1) as (s2 & xd & R2 & W2 & K2 & Hx & Ex & Hr).
    exists dp, nm, s1, s2, xd. split_and!; [done|done|].
    split; try done; [by apply found_dir|by apply (kept_both _ s1)|]. split; [done|]. by exists e.
  - destruct Hr as [-> Hc]. exists nm, s1. split; [done|]. by apply unchanged_of.
Qed.

(** The name is there. *)
Lemma create_found p name dp xd s1 j : at_parent p name dp xd s1 -> dir_map C (dnode C p) name = Some j ->
  exists rv s', (let! r := dirlookup dp name in
    match r with
    | Some (ip, _) =>
      do! iunlockput dp; do! ilock (Some ip); let! x := gets (fun s => inode_at s ip) in
      if (type =? T_FILE) && ((i_type x =? T_FILE) || (i_type x =? T_DEVICE)) then kret (Some ip) else
      do! iunlockput ip; kret None
    | None => create_new name dp
    end) s1 = Ret rv s' /\
    if (type =? T_FILE) && ((i_type (dnode C j) =? T_FILE) || (i_type (dnode C j) =? T_DEVICE))
    then exists ip x, rv = Some ip /\ settled C L (Some ip) s' /\ k_inodes s' !! ip = Some x /\ x = set_iref (i_ref x) (dnode C j) /\
      walking (Some ip) ip j s'
    else rv = None /\ unchanged s'.
Proof using HD Hsb Hg HL V Hent.
  intros [W1 Hx Ex Hr Hd K1 (Hn & e & He & Hu)] Hj. pose proof (se_bitmap _ _ _ _ V) as Hbm. pose proof (se_whole _ _ _ _ V) as Hw.
  assert (Tj : T j).
  { apply (gr_step _ _ _ _ Hg p name); [apply W1|]. unfold step. rewrite Hd. rewrite <- Hj. apply dir_map_name.
    rewrite take_ge; [done|]. destruct Hn as [Hn _]. by rewrite Hn. }
  assert (HR0 : forall i, 0 <= R0 i) by (intros i; eapply refcount_nonneg; [exact room|]; apply (nv_table _ _ _ _ _ _ _ _ _ (se_names _ _ _ _ V))).
  destruct (walking_step me pid d st sb Hsb C L T Hbm Hw Hg room R0 U0 HR0 Hent dp p xd name j s1 W1 Hx Ex Hr Hd Hn Hj Tj)
    as (q & off & s2 & s3 & R2 & R3 & W3 & K3). krun R2. krun R3.
  destruct (walking_lock me pid d st sb Hsb C L T Hbm Hw Hg room R0 U0 q j s3 W3) as (s4 & x & R4 & W4 & K4 & X4 & Ex4 & _). krun R4.
  rewrite kbind_gets, (inode_at_lookup _ _ _ X4). assert (Et : i_type x = i_type (dnode C j)) by (by rewrite Ex4). rewrite Et.
  assert (K : kept s s4) by (apply (kept_both _ s1); [done|by apply (kept_both _ s3)]).
  destruct ((type =? T_FILE) && _).
  - exists (Some q), s4. split; [done|]. exists q, x. split_and!; try done. split; [apply W4|by apply kept_open|done|done].
  - destruct (walking_drop me pid d st sb C L T Hg room R0 U0 q j s4 W4) as (s5 & R5 & V5 & C5 & K5). krun R5.
    exists None, s5. split; [done|]. split; [done|]. apply unchanged_of; [done|by apply (kept_both _ s4)|done].
Qed.

(** The name is not there. *)
Lemma create_missing p name dp xd s1 : at_parent p name dp xd s1 -> dir_map C (dnode C p) name = None ->
  exists s2, dirlookup dp name s1 = Ret None s2 /\ at_parent p name dp xd s2.
Proof using HD Hsb Hg HL V Hent.
  intros [W1 Hx Ex Hr Hd K1 Hn] Hj. pose proof W1 as [V1 _ Tp [Hc Hu]].
  assert (Hfree : used_entries (k_inodes s1) < Z.of_nat NINODE) by (rewrite Hu; unfold fresh_entry; case_match; lia).
  pose proof (dirlookup_names me pid d st sb Hsb C L T (se_bitmap _ _ _ _ V) (se_whole _ _ _ _ V) Hg room dp xd p name s1 V1 Hx Ex Hr Tp Hd
    (proj1 Hn) Hfree) as R. rewrite Hj in R. destruct R as (s2 & R2 & V2 & E2 & K2). exists s2. split; [done|].
  split; try done; [|by rewrite E2|by apply (kept_both _ s1)]. split; [done| |done|unfold counted; by rewrite E2].
  exists xd. rewrite E2. split; [done|]. rewrite Ex. split_and!; [exact Hr|done|done].
Qed.

Lemma create_no_inodes p name dp xd s1 : at_parent p name dp xd s1 -> 1 <= sb_ninodes sb ->
  (forall j, 1 <= j < sb_ninodes sb -> itype sb C j <> 0) ->
  exists s', create_new name dp s1 = Ret None s' /\ unchanged s'.
Proof using HD Hsb tx_idle Hg HL V.
  intros [W1 Hx Ex Hr Hd K1 Hn] H1 Hall. pose proof W1 as [V1 _ Tp Hc].
  pose proof (ino_names _ _ _ _ _ _ _ _ _ V1 (kept_open _ K1)) as I1. destruct (iv_pr _ _ _ _ _ _ _ _ _ I1) as [P1 P2].
  assert (HL1 : Z.of_nat (length L) + 1 < LOGSIZE) by (pose proof (layout sb Hsb); unfold map_blocks in *; lia).
  destruct (ialloc_full me pid d st sb Hsb tx_idle C L s1 type (iv_op _ _ _ _ _ _ _ _ _ I1) (iv_sb _ _ _ _ _ _ _ _ _ I1) HL1 P1 P2 H1 Hall)
    as (io & s2 & R2 & _ & O2 & S2).
  destruct (ino_op _ _ _ _ _ _ _ _ _ _ _ _ _ I1 O2 S2) as [I2 E2].
  assert (W2 : walking (Some dp) dp p s2).
  { split; [apply names_ino; [done|rewrite E2; apply V1]| |done|unfold counted; by rewrite E2]. exists xd. rewrite E2. split; [done|]. rewrite Ex. split_and!; [exact Hr|done|done]. }
  destruct (walking_drop me pid d st sb C L T Hg room R0 U0 dp p s2 W2) as (s3 & R3 & V3 & C3 & K3).
  unfold create_new. rewrite kbind_gets, (inode_at_lookup _ _ _ Hx).
  assert (i_dev xd = d) as -> by (by rewrite Ex). krun R2. krun R3. exists s3. split; [done|]. split; [|done].
  split; [done| |apply V|apply V]. unfold op_open. rewrite (proj2 K3). apply I2.
Qed.

Lemma create_makes p name dp xd s1 inum : at_parent p name dp xd s1 -> dir_map C (dnode C p) name = None ->
  1 <= inum < sb_ninodes sb -> itype sb C inum = 0 -> (forall j, 1 <= j < inum -> itype sb C j <> 0) ->
  inum < 2 ^ 16 -> R0 inum = 0 -> sizeof_dirent * Z.of_nat (slot_of C (dnode C p)) + sizeof_dirent <= MAXSIZE ->
  exists rv C' L' s', create_new name dp s1 = Ret rv s' /\ made C L T p inum name R0 U0 rv C' L' s'.
Proof using All.
  intros [W1 Hx Ex Hr Hd K1 Hn] Hnone Hi Hi0 Hlow Hi16 Href Hslot. pose proof W1 as [V1 _ Tp [Hc Hu]].
  pose proof (nv_table _ _ _ _ _ _ _ _ _ V1) as Ht. assert (Hin : is_inode d p xd) by (rewrite Ex; split_and!; [exact Hr|done|done]).
  assert (Hpn : p <> inum) by (intros ->; by apply (gr_type _ _ _ _ Hg inum Tp)).
  assert (Er : i_ref xd = R0 p + 1).
  { rewrite <- (refcount_at d _ dp xd p Ht Hx Hin), Hc. unfold one. by rewrite Z.eqb_refl. }
  assert (S1 : settled C L (Some dp) s1) by (split; [done|by apply kept_open|apply V|apply V]).
  destruct (create_new_run C L T (se_bitmap _ _ _ _ V) (se_whole _ _ _ _ V) Hg Hun p inum name Tp Hd Hnone Hi Hi0 Hlow Hi16 (proj1 Hn) Hslot
    (i_ref xd) dp s1 S1 ltac:(by rewrite <- Ex) Hr) as (rv & C' & L' & s' & R & [M1 M2 M3]).
  - rewrite Hc. unfold one. rewrite (proj2 (Z.eqb_neq inum p)) by done. lia.
  - rewrite Hu. unfold fresh_entry. case_match; lia.
  - intros i z Hz Hrz Hdz. pose proof (refcount_at d _ i z (i_inum z) Ht Hz (conj Hrz (conj Hdz eq_refl))) as Ez. rewrite Hc in Ez.
    unfold one in Ez. destruct (Z.eqb_spec (i_inum z) p) as [->|]; [by apply Hun|]. apply Hrange. lia.
  - done.
  - exists rv, C', L', s'. split; [done|]. split; [done|done|].
    assert (Eu : used_entries (k_inodes s1) - fresh_entry (i_ref xd - 1) = U0) by (rewrite Hu, Er; replace (R0 p + 1 - 1) with (R0 p) by lia; lia).
    rewrite Eu in M3. destruct rv as [ip|]; [destruct M3 as (A1 & A2 & A3 & A4 & A5)|destruct M3 as (A1 & A2 & A3 & A4 & A5)]; (split_and!; [done..|]);
      (split; [|exact A5]); intros i; rewrite A4, Hc; lia.
Qed.

(** The name in its directory, as [nameiparent] leaves it. *)
Definition last_name : list Z := take (Z.to_nat DIRSIZ) (default [] (last (elements path))).

Lemma at_parent_name p name dp xd s1 : at_parent p name dp xd s1 -> until_nul name = until_nul last_name.
Proof using.
  intros [_ _ _ _ _ _ (_ & e & He & Hu)]. unfold last_name. rewrite He. simpl. rewrite <- Hu. by rewrite until_nul_twice.
Qed.

(** The lowest free inode is [inum], which nobody refers to, and the directory
    can take another entry. *)
Record can_make (p inum : Z) : Prop := {
  cm_range : 1 <= inum < sb_ninodes sb /\ inum < 2 ^ 16;
  cm_free : itype sb C inum = 0;
  cm_lowest j : 1 <= j < inum -> itype sb C j <> 0;
  cm_ref : R0 inum = 0;
  cm_slot : sizeof_dirent * Z.of_nat (slot_of C (dnode C p)) + sizeof_dirent <= MAXSIZE
}.

Lemma create_run :
  match found C sb d true i0 (elements path) with
  | None => exists s', create path type major minor s = Ret None s' /\ unchanged s'
  | Some p =>
    match dir_map C (dnode C p) last_name with
    | Some j => exists rv s', create path type major minor s = Ret rv s' /\
        if (type =? T_FILE) && ((i_type (dnode C j) =? T_FILE) || (i_type (dnode C j) =? T_DEVICE))
        then exists ip x, rv = Some ip /\ settled C L (Some ip) s' /\ k_inodes s' !! ip = Some x /\
          x = set_iref (i_ref x) (dnode C j) /\ walking (Some ip) ip j s'
        else rv = None /\ unchanged s'
    | None =>
        ((forall j, 1 <= j < sb_ninodes sb -> itype sb C j <> 0) ->
          exists s', create path type major minor s = Ret None s' /\ unchanged s') /\
        (forall inum, can_make p inum ->
          exists rv C' L' s', create path type major minor s = Ret rv s' /\ T p /\ made C L T p inum last_name R0 U0 rv C' L' s')
    end
  end.
Proof using All.
  pose proof parent_run as PR. unfold create. destruct (found C sb d true i0 (elements path)) as [p|].
  2: { destruct PR as (nm & s' & R & U). exists s'. split; [by krun R|done]. }
  destruct PR as (dp & name & s1 & s2 & xd & R1 & R2 & A2). pose proof (at_parent_name _ _ _ _ _ A2) as En. rewrite <- (dir_map_name _ _ _ _ En).
  destruct (dir_map C (dnode C p) name) as [j|] eqn:Ej.
  - destruct (create_found p name dp xd s2 j A2 Ej) as (rv & s' & R & H). exists rv, s'. split; [|exact H]. krun R1. krun R2. exact R.
  - destruct (create_missing p name dp xd s2 A2 Ej) as (s3 & R3 & A3). split.
    + intros Hall. pose proof (un_range _ _ _ _ Hun i0 HT). destruct (create_no_inodes p name dp xd s3 A3 ltac:(lia) Hall) as (s4 & R4 & U4).
      exists s4. split; [|done]. krun R1. krun R2. krun R3. exact R4.
    + intros inum [[H1 H2] H3 H4 H5 H6].
      destruct (create_makes p name dp xd s3 inum A3 Ej H1 H3 H4 H2 H5 H6) as (rv & C' & L' & s4 & R4 & [M1 M2 M3]).
      exists rv, C', L', s4. split; [krun R1; krun R2; krun R3; exact R4|]. split; [apply A3|]. split; [done|done|].
      destruct rv as [ip|]; [|done]. destruct M3 as (B1 & B2 & B3 & B4). split_and!; try done. by apply (gained_name _ _ _ _ name).
Qed.

(** C9: [create] of a file or a device.  When the directory of the path cannot be
    found it returns 0 and nothing changes.  When the name exists it returns
    the file locked, with one more reference, if a file was asked for and the
    name is that of a file or a device, and otherwise returns 0 with every
    reference as before.  When the name is new and no inode is free it returns
    0 and nothing changes.  When the name is new and inode [inum] is the first
    free one, either that inode becomes an empty file with one link, named by
    the directory and returned locked, or the disk is full, [create] returns 0,
    the directory maps every name as before and the inode is free again; no
    other directory changes, and the transaction grows by a bounded number of
    blocks. *)
Theorem create_spec :
  match found C sb d true i0 (elements path) with
  | None => exists s', create path type major minor s = Ret None s' /\ unchanged s'
  | Some p =>
    match dir_map C (dnode C p) last_name with
    | Some j => exists rv s', create path type major minor s = Ret rv s' /\
        if (type =? T_FILE) && ((i_type (dnode C j) =? T_FILE) || (i_type (dnode C j) =? T_DEVICE))
        then exists ip x, rv = Some ip /\ settled C L (Some ip) s' /\ k_inodes s' !! ip = Some x /\
          x = set_iref (i_ref x) (dnode C j) /\ walking (Some ip) ip j s'
        else rv = None /\ unchanged s'
    | None =>
        ((forall j, 1 <= j < sb_ninodes sb -> itype sb C j <> 0) ->
          exists s', create path type major minor s = Ret None s' /\ unchanged s') /\
        (forall inum, can_make p inum ->
          exists rv C' L' s', create path type major minor s = Ret rv s' /\ T p /\ made C L T p inum last_name R0 U0 rv C' L' s')
    end
  end.
Proof using All. apply create_run. Qed.

(** C2: creating a file extends the tree of directories by one name.  Afterwards
    the disk still has well-formed directories that share no block, every path
    that led somewhere leads to the same inode, and the path given leads to
    the new file; if the disk was full, every path leads where it did. *)
Theorem create_names p inum :
  found C sb d true i0 (elements path) = Some p -> dir_map C (dnode C p) last_name = None -> can_make p inum ->
  exists rv C' L' s', create path type major minor s = Ret rv s' /\ settled C' L' rv s' /\
    let T' := with_new T (match rv with Some _ => Some (last_name, inum) | None => None end) in
    graph_ok C' sb d T' /\ unshared sb d C' T' /\
    (forall es j, resolve C sb d i0 es = Some j -> resolve C' sb d i0 es = Some j) /\
    match rv with
    | Some _ => resolve C' sb d i0 (elements path) = Some inum /\ dnode C' inum = new_inode inum 0
    | None => forall es, resolve C' sb d i0 es = resolve C sb d i0 es
    end.
Proof using All.
  intros Hf Hnone Hcm. pose proof create_run as CR. rewrite Hf, Hnone in CR. destruct CR as [_ CR].
  destruct (CR inum Hcm) as (rv & C' & L' & s' & R & Tp & [M1 M2 M3]). exists rv, C', L', s'. split; [done|]. split; [done|].
  destruct (found_dir p Hf) as [Hd Hres].
  assert (G : gained sb d T p (match rv with Some _ => Some (last_name, inum) | None => None end) C C') by (destruct rv; apply M3).
  split; [by apply (gained_graph sb d T p _ C C' Hg Tp Hd G)|]. split; [by apply (gained_unshared sb d Hsb T p _ C C' Hg Tp Hd G)|].
  split; [intros es j; by apply (gained_resolve sb d T p _ C C' Hg Hd G)|]. destruct rv as [ip|].
  - split; [|apply M3]. destruct (elements path) as [|e es] eqn:Ee; [done|].
    rewrite (app_removelast_last [] (l := e :: es)) by done.
    apply (gained_path sb d T p _ C C' Hg Hd G i0 _ last_name inum); [done|done|done|]. unfold last_name. by rewrite Ee, last_default.
  - intros es. by apply (gained_same sb d T p None C C' Hg Hd G).
Qed.
End call.
End create.

(** ** Example: ["/b"] on the small disk *)

Section demo.
#[local] Existing Instance Balloc.demo_devices.
#[local] Existing Instance demo_linker.

Abbreviation C0 := (dget dir_disk).
Abbreviation T0 := (fun i => i = 1 \/ i = 2).

Lemma demo_unshared : unshared demo_sb 1 C0 T0.
Proof.
  split; [intros i [->| ->]; vm_compute; intuition congruence|]. intros i j b Hi Hj Hdi Hdj Hne.
  assert (forall k, T0 k -> is_dir C0 demo_sb 1 k = true -> k = 1) as Hd.
  { intros k [->| ->]; [done|]. unfold is_dir. by rewrite demo_dnode2. }
  destruct Hne. by rewrite (Hd i Hi Hdi), (Hd j Hj Hdj).
Qed.

Lemma demo_settled : exists s, settled 1 7 1 2 demo_sb C0 [] None s /\ k_inodes s = dir_table.
Proof. destruct demo_names as (s & V & Hi & Hop). exists s. split; [|done]. split; [done|done|exact dir_bitmap_ok|exact dir_whole]. Qed.

Lemma demo_counts i : refcount 1 dir_table i = one i 1.
Proof.
  unfold refcount, dir_table. cbn [zsum]. rewrite zsum_zero.
  - unfold weight, one. change (i_dev demo_dir) with 1. change (i_inum demo_dir) with 1. rewrite (Z.eqb_sym 1 i). by destruct (i =? 1).
  - intros k x Hx. apply lookup_replicate in Hx as [-> _]. by unfold weight; case_match.
Qed.

Lemma demo_can_make s : k_inodes s = dir_table -> can_make 1 demo_sb C0 s 1 3.
Proof.
  intros Hi. split.
  - vm_compute. intuition congruence.
  - vm_compute. reflexivity.
  - intros j Hj. assert (j = 1 \/ j = 2) as [->| ->] by lia; vm_compute; discriminate.
  - rewrite Hi, demo_counts. reflexivity.
  - vm_compute. discriminate.
Qed.

Lemma create_spec_witness : exists s rv C' L' s',
  create (Dk := mem_disk) (bytes_of "/b") T_FILE 0 0 s = Ret rv s' /\
  match rv with Some ip => k_inodes s' !! ip = Some (new_inode 1 T_FILE 0 0 3 1) | None => itype demo_sb C' 3 = 0 end /\
  settled 1 7 1 2 demo_sb C' L' rv s'.
Proof.
  destruct demo_settled as (s & V & Hi). exists s.
  pose proof (create_spec (HD := mem_disk_ok) 1 7 1 2 demo_sb demo_sb_ok demo_idle T_FILE 0 0 ltac:(vm_compute; intuition congruence)
    ltac:(vm_compute; intuition congruence) C0 [] T0 demo_graph demo_unshared eq_refl ltac:(vm_compute; discriminate)
    (bytes_of "/b") 1 s V eq_refl (or_introl eq_refl)) as R.
  change (found C0 demo_sb 1 true 1 (elements (bytes_of "/b"))) with (Some 1) in R.
  change (dir_map C0 (dnode C0 demo_sb 1 1) (last_name (bytes_of "/b"))) with (@None Z) in R.
  destruct R as [_ R].
  - split; [repeat constructor; discriminate|refine (bool_decide_unpack _ _); vm_compute; exact I].
  - rewrite Hi. vm_compute. discriminate.
  - rewrite Hi. intros i. rewrite demo_counts. unfold one. destruct (Z.eqb_spec i 1) as [->|]; [vm_compute; intuition congruence|done].
  - destruct (R 3 (demo_can_make s Hi)) as (rv & C' & L' & s' & Rc & _ & [M1 _ M3]). exists rv, C', L', s'.
    split; [exact Rc|]. split; [|exact M1]. destruct rv; apply M3.
Defined.

(** ["/b"] leads to inode 3, or the disk was full; ["/a"] leads to inode 2. *)
Lemma create_names_witness : exists s rv C' s',
  create (Dk := mem_disk) (bytes_of "/b") T_FILE 0 0 s = Ret rv s' /\
  resolve C' demo_sb 1 1 (elements (bytes_of "/a")) = Some 2 /\
  (rv = None \/ resolve C' demo_sb 1 1 (elements (bytes_of "/b")) = Some 3).
Proof.
  destruct demo_settled as (s & V & Hi). exists s.
  destruct (create_names (HD := mem_disk_ok) 1 7 1 2 demo_sb demo_sb_ok demo_idle T_FILE 0 0 ltac:(vm_compute; intuition congruence)
    ltac:(vm_compute; intuition congruence) C0 [] T0 demo_graph demo_unshared eq_refl ltac:(vm_compute; discriminate)
    (bytes_of "/b") 1 s V eq_refl (or_introl eq_refl)) with (p := 1) (inum := 3) as (rv & C' & L' & s' & Rc & _ & _ & _ & Hold & Hnew).
  - split; [repeat constructor; discriminate|refine (bool_decide_unpack _ _); vm_compute; exact I].
  - rewrite Hi. vm_compute. discriminate.
  - rewrite Hi. intros i. rewrite demo_counts. unfold one. destruct (Z.eqb_spec i 1) as [->|]; [vm_compute; intuition congruence|done].
  - vm_compute. reflexivity.
  - vm_compute. reflexivity.
  - exact (demo_can_make s Hi).
  - exists rv, C', s'. split; [exact Rc|]. split; [apply Hold; vm_compute; reflexivity|]. destruct rv; [right; apply Hnew|by left].
Defined.
End demo.
