(* ===== verification/Refs.v ===== *)
(** * Reference counts of open files

    Every entry of the file table counts the descriptors that refer to it,
    over all processes.  [dup], [close] of a shared file and [fork] keep the
    count exact, so the panics of [filedup] and [fileclose] are not reached. *)

From S2P Require Import Prelude Param Mem CString Kernel Spinlock Kalloc Sched Sleeplock Vm PageTable UserCopy FreeVm ForkVm Uart Printf Bio Log Fs Console Pipe File Proc Spawn Fork Exec Syscall.
Open Scope Z_scope.

(** ** Counting descriptors *)

(** How often [f] is open in a list of processes. *)
Fixpoint total (f : nat) (ps : list proc) : nat :=
  match ps with
  | [] => 0
  | p :: ps => opens f (p_ofile p) + total f ps
  end.

Lemma total_insert f ps i x y : ps !! i = Some x ->
  (total f (<[i := y]> ps) + opens f (p_ofile x) = total f ps + opens f (p_ofile y))%nat.
Proof.
  revert i. induction ps as [|p ps IH]; intros [|i] Hi; simplify_eq/=; [lia|]. specialize (IH i Hi). lia.
Qed.

Lemma opens_insert f l i a b : l !! i = Some a ->
  (opens f (<[i := b]> l) + (if decide (Some f = a) then 1 else 0) = opens f l + (if decide (Some f = b) then 1 else 0))%nat.
Proof.
  revert i. induction l as [|c l IH]; intros [|i] Hi; simplify_eq/=; rewrite !opens_cons; [lia|]. specialize (IH i Hi). lia.
Qed.

Lemma opens_closed f n : opens f (replicate n None) = 0%nat.
Proof. induction n as [|n IH]; [done|]. cbn [replicate]. rewrite opens_cons, IH. by rewrite decide_False. Qed.

Lemma opens_pos f l i : l !! i = Some (Some f) -> (1 <= opens f l)%nat.
Proof.
  revert i. induction l as [|c l IH]; intros [|i] Hi; simplify_eq/=; rewrite opens_cons; [rewrite decide_True by done; lia|].
  specialize (IH i Hi). lia.
Qed.

Lemma total_pos f ps p x : ps !! p = Some x -> (opens f (p_ofile x) <= total f ps)%nat.
Proof. revert p. induction ps as [|q ps IH]; intros [|p] Hp; simplify_eq/=; [lia|]. specialize (IH p Hp). lia. Qed.

(** Every count is exact, and every descriptor names an entry of the table. *)
Record refs_ok (s : kst) : Prop := {
  ro_count f y : k_files s !! f = Some y -> f_ref y = Z.of_nat (total f (k_procs s));
  ro_table p x i f : k_procs s !! p = Some x -> p_ofile x !! i = Some (Some f) -> (f < length (k_files s))%nat
}.

(** A descriptor that is open counts. *)
Lemma refs_open s p x i f : refs_ok s -> k_procs s !! p = Some x -> p_ofile x !! i = Some (Some f) ->
  exists y, k_files s !! f = Some y /\ 1 <= f_ref y.
Proof.
  intros [Hc Ht] Hp Hi. destruct (lookup_lt_is_Some_2 (k_files s) f (Ht p x i f Hp Hi)) as [y Hy]. exists y. split; [done|].
  rewrite (Hc f y Hy). pose proof (opens_pos f (p_ofile x) i Hi). pose proof (total_pos f (k_procs s) p x Hp). lia.
Qed.

(** One descriptor of process [p] changes from [a] to [b], and the counts follow. *)
Lemma refs_move s s' p x i a b :
  refs_ok s -> k_procs s !! p = Some x -> p_ofile x !! i = Some a ->
  k_procs s' = <[p := with_ofile (<[i := b]> (p_ofile x)) x]> (k_procs s) ->
  length (k_files s') = length (k_files s) ->
  (forall g, b = Some g -> (g < length (k_files s))%nat) ->
  (forall f y', k_files s' !! f = Some y' -> exists y, k_files s !! f = Some y /\
     f_ref y' + (if decide (Some f = a) then 1 else 0) = f_ref y + (if decide (Some f = b) then 1 else 0)) ->
  refs_ok s'.
Proof.
  intros [Hc Ht] Hp Hi Eps Elen Hb Hf. split.
  - intros f y' Hy'. destruct (Hf f y' Hy') as (y & Hy & E). rewrite (Hc f y Hy) in E. rewrite Eps.
    pose proof (total_insert f (k_procs s) p x (with_ofile (<[i := b]> (p_ofile x)) x) Hp) as E1. simpl in E1.
    pose proof (opens_insert f (p_ofile x) i a b Hi) as E2. repeat case_decide; lia.
  - intros q z j f Hq Hj. rewrite Eps in Hq. rewrite Elen.
    apply list_lookup_insert_Some in Hq as [(<- & <- & _)|[_ Hq]]; [|by apply (Ht q z j f)].
    simpl in Hj. apply list_lookup_insert_Some in Hj as [(<- & -> & _)|[_ Hj]]; [by apply Hb|by apply (Ht p x j f)].
Qed.

Section calls.
Context `{Dk : Disk, D : Devices, L : Linker, HL : !LinkerOk}.

(** Process [p] makes a system call. *)
Record acts (s : kst) (p : nat) (x : proc) : Prop := {
  ac_cpu : cpu_ok s;
  ac_cur : c_proc (mycpu s) = Some p;
  ac_proc : k_procs s !! p = Some x;
  ac_lock : is_free LKftable s
}.

Lemma acts_norm s p x : acts s p x -> acts (norm s) p x.
Proof. intros [Hc Hp Hx Hf]. split; [auto with krun| |done|done]. destruct Hc as (H & _). by rewrite mycpu_norm. Qed.

(** Argument [n] of the call, as an int. *)
Definition arg_of (s : kst) (x : proc) (n : Z) : Z := s32 (ld64 (k_mem s) (p_trapframe x + (tf_a0 + 8 * n))).

Lemma argint_run n s p x : acts s p x -> 0 <= n <= 5 -> argint n s = Ret (arg_of s x n) (norm s).
Proof.
  intros [Hc Hp Hx Hf] Hn. unfold argint, argraw.
  assert (R : (let! p := curproc in if (0 <=? n) && (n <=? 5) then tf_load p (tf_a0 + 8 * n) else panic "argraw") s =
    Ret (ld64 (k_mem s) (p_trapframe x + (tf_a0 + 8 * n))) (norm s)).
  { krun (curproc_norm s p Hc Hp). rewrite (proj2 (Z.leb_le 0 n)), (proj2 (Z.leb_le n 5)) by lia. cbn [andb].
    unfold tf_load. rewrite kbind_gets, (proc_at_lookup (norm s) p x Hx). reflexivity. }
  krun R. done.
Qed.

(** The descriptor that argument [n] names, if it is open. *)
Definition fd_arg (s : kst) (x : proc) (n : Z) : option (nat * nat) :=
  let fd := arg_of s x n in
  if (fd <? 0) || (fd >=? Z.of_nat NOFILE) then None else
  match default None (p_ofile x !! Z.to_nat fd) with None => None | Some f => Some (Z.to_nat fd, f) end.

Lemma argfd_run n s p x : acts s p x -> 0 <= n <= 5 -> argfd n s = Ret (fd_arg s x n) (norm s).
Proof.
  intros Ha Hn. unfold argfd, fd_arg. krun (argint_run n s p x Ha Hn). destruct (_ || _); [done|].
  destruct (acts_norm s p x Ha) as [Hc' Hp' Hx' _]. krun (curproc_norm (norm s) p Hc' Hp').
  rewrite norm_norm by apply Ha. by rewrite kbind_gets, (proc_at_lookup (norm s) p x Hx').
Qed.

Lemma fd_arg_open s x n fd f : fd_arg s x n = Some (fd, f) -> p_ofile x !! fd = Some (Some f).
Proof.
  unfold fd_arg. destruct (_ || _); [done|]. destruct (p_ofile x !! _) as [[g|]|] eqn:E; simpl; intros H; [|done|done].
  by injection H as <- <-.
Qed.

Lemma filedup_norm f s y : cpu_ok s -> is_free LKftable s -> k_files s !! f = Some y -> 1 <= f_ref y ->
  filedup f s = Ret f (set_files (<[f := set_fref (f_ref y + 1) y]> (k_files s)) (norm s)).
Proof.
  intros Hc Hf Hy Hr. unfold filedup. krun (acquire_run LKftable s Hc Hf). rewrite kbind_gets.
  assert (Ey : file_at (acquired LKftable s) f = y) by (unfold file_at; simpl; by rewrite Hy). rewrite Ey.
  destruct (Z.ltb_spec (f_ref y) 1); [lia|]. unfold put_file. rewrite kbind_modify, Ey.
  erewrite obind_Ret by (by apply (release_after LKftable s)). reflexivity.
Qed.

Lemma fd_scan_spec l : forall k i, fd_scan k l = Some i ->
  (k <= i)%nat /\ l !! (i - k)%nat = Some None /\ forall j, (j < i - k)%nat -> exists g, l !! j = Some (Some g).
Proof.
  induction l as [|[g|] l IH]; intros k i E; simplify_eq/=.
  - destruct (IH _ _ E) as (H1 & H2 & H3). split; [lia|]. replace (i - k)%nat with (S (i - S k)) by lia. split; [done|].
    intros [|j] Hj; [by exists g|]. apply H3. lia.
  - split; [lia|]. rewrite Nat.sub_diag. split; [done|lia].
Qed.

Lemma fd_scan_full l : forall k, fd_scan k l = None -> forall j d, l !! j = Some d -> exists g, d = Some g.
Proof.
  induction l as [|[g|] l IH]; intros k E [|j] d Hj; simplify_eq/=; [by exists g|by apply (IH _ E j)].
Qed.

(** ** [dup] *)

Definition fd_set (p : nat) (x : proc) (i : nat) (b : option nat) (s : kst) : list proc :=
  <[p := with_ofile (<[i := b]> (p_ofile x)) x]> (k_procs s).

Definition ref_add (f : nat) (y : file) (n : Z) (s : kst) : list file := <[f := set_fref (f_ref y + n) y]> (k_files s).

Lemma sys_dup_run s p x : acts s p x -> refs_ok s ->
  match fd_arg s x 0, fd_scan 0 (p_ofile x) with
  | Some (_, f), Some i => exists y, k_files s !! f = Some y /\
      sys_dup s = Ret (Z.of_nat i) (set_files (ref_add f y 1 s) (set_procs (fd_set p x i (Some f) s) (norm s)))
  | _, _ => sys_dup s = Ret (-1) (norm s)
  end.
Proof.
  intros Ha Hr. pose proof (acts_norm s p x Ha) as [Hc' Hp' Hx' Hf']. unfold sys_dup.
  pose proof (argfd_run 0 s p x Ha ltac:(lia)) as R. destruct (fd_arg s x 0) as [[fd f]|] eqn:Efd; [|krun R; done].
  destruct (refs_open s p x fd f Hr (ac_proc _ _ _ Ha) (fd_arg_open _ _ _ _ _ Efd)) as (y & Hy & Hy1).
  assert (Rf : fdalloc f (norm s) = match fd_scan 0 (p_ofile x) with
    | Some i => Ret (Some i) (set_procs (fd_set p x i (Some f) s) (norm s)) | None => Ret None (norm s) end).
  { unfold fdalloc. krun (curproc_norm (norm s) p Hc' Hp'). rewrite norm_norm by apply Ha.
    rewrite kbind_gets, (proc_at_lookup (norm s) p x Hx'). destruct (fd_scan 0 (p_ofile x)) as [i|]; [|done].
    unfold put_fd. by krun (put_proc_run p (fun x => with_ofile (<[i := Some f]> (p_ofile x)) x) (norm s) x Hx'). }
  krun R. destruct (fd_scan 0 (p_ofile x)) as [i|]; krun Rf; [|done]. exists y. split; [done|].
  set (s1 := set_procs _ (norm s)).
  erewrite obind_Ret by (apply (filedup_norm f s1 y); [exact Hc'|exact Hf'|exact Hy|done]).
  assert (norm s1 = set_procs (fd_set p x i (Some f) s) (norm (norm s))) as -> by reflexivity.
  rewrite norm_norm by apply Ha. reflexivity.
Qed.

(** ** [close] of a file that is open elsewhere *)

Lemma fileclose_shared f s y : cpu_ok s -> is_free LKftable s -> k_files s !! f = Some y -> 2 <= f_ref y ->
  fileclose f s = Ret tt (set_files (ref_add f y (-1) s) (norm s)).
Proof.
  intros Hc Hf Hy Hr. unfold fileclose. krun (acquire_run LKftable s Hc Hf). rewrite kbind_gets.
  assert (Ey : file_at (acquired LKftable s) f = y) by (unfold file_at; simpl; by rewrite Hy). rewrite Ey.
  destruct (Z.ltb_spec (f_ref y) 1); [lia|]. unfold put_file. rewrite kbind_modify, Ey, kbind_gets.
  assert (E1 : file_at (set_files (<[f := set_fref (f_ref y - 1) y]> (k_files (acquired LKftable s))) (acquired LKftable s)) f =
    set_fref (f_ref y - 1) y).
  { unfold file_at. cbn [k_files set_files]. rewrite list_lookup_insert_eq; [done|by eapply lookup_lt_Some]. }
  rewrite E1. simpl (f_ref _). destruct (Z.gtb_spec (f_ref y - 1) 0); [|lia].
  rewrite (release_after LKftable s) by done. unfold ref_add. replace (f_ref y + -1) with (f_ref y - 1) by lia. reflexivity.
Qed.

Lemma sys_close_run s p x : acts s p x -> refs_ok s ->
  match fd_arg s x 0 with
  | None => sys_close s = Ret (-1) (norm s)
  | Some (i, f) => exists y, k_files s !! f = Some y /\ 1 <= f_ref y /\
      (2 <= f_ref y -> sys_close s = Ret 0 (set_files (ref_add f y (-1) s) (set_procs (fd_set p x i None s) (norm s))))
  end.
Proof.
  intros Ha Hr. pose proof (acts_norm s p x Ha) as [Hc' Hp' Hx' Hf']. unfold sys_close.
  pose proof (argfd_run 0 s p x Ha ltac:(lia)) as R. destruct (fd_arg s x 0) as [[i f]|] eqn:Efd; [|krun R; done].
  destruct (refs_open s p x i f Hr (ac_proc _ _ _ Ha) (fd_arg_open _ _ _ _ _ Efd)) as (y & Hy & Hy1).
  exists y. split; [done|]. split; [done|]. intros Hy2. krun R. krun (curproc_norm (norm s) p Hc' Hp'). rewrite norm_norm by apply Ha.
  unfold put_fd. krun (put_proc_run p (fun x => with_ofile (<[i := None]> (p_ofile x)) x) (norm s) x Hx').
  set (s1 := set_procs _ (norm s)).
  erewrite obind_Ret by (apply (fileclose_shared f s1 y); [exact Hc'|exact Hf'|exact Hy|done]).
  assert (norm s1 = set_procs (fd_set p x i None s) (norm (norm s))) as -> by reflexivity.
  rewrite norm_norm by apply Ha. reflexivity.
Qed.

(** ** The invariant *)

(** Steps that concern descriptors: the two calls, [close] for files that are
    open more than once, [fork], and everything that leaves both the file
    table and the descriptors alone. *)
Inductive fd_step (s : kst) : kst -> Prop :=
| step_dup p x r s' : acts s p x -> sys_dup s = Ret r s' -> fd_step s s'
| step_close p x r s' : acts s p x ->
    (forall i f y, fd_arg s x 0 = Some (i, f) -> k_files s !! f = Some y -> f_ref y <> 1) ->
    sys_close s = Ret r s' -> fd_step s s'
| step_fork p pp i x tf root l n d r s' : forks s p pp i x tf root l n d -> (3 * n + 5 <= length l)%nat ->
    fork s = Ret r s' -> fd_step s s'
| step_other s' : k_files s' = k_files s -> p_ofile <$> k_procs s' = p_ofile <$> k_procs s -> fd_step s s'.

Lemma total_ofiles f ps ps' : p_ofile <$> ps' = p_ofile <$> ps -> total f ps' = total f ps.
Proof using Type.
  revert ps'. induction ps as [|p ps IH]; intros [|p' ps'] E; try done.
  injection E as E1 E2. cbn [total]. f_equal; [by f_equal|by apply IH].
Qed.

Lemma refs_same s s' : k_files s' = k_files s -> p_ofile <$> k_procs s' = p_ofile <$> k_procs s -> refs_ok s -> refs_ok s'.
Proof using Type.
  intros Ef Ep [Hc Ht]. split.
  - intros f y. rewrite Ef, (total_ofiles f _ _ Ep). apply Hc.
  - intros p x i f Hp Hi. rewrite Ef.
    assert (E : (p_ofile <$> k_procs s) !! p = Some (p_ofile x)) by (rewrite <- Ep; by rewrite list_lookup_fmap, Hp).
    rewrite list_lookup_fmap in E. destruct (k_procs s !! p) as [z|] eqn:Hz; [|done]. simpl in E. injection E as E.
    apply (Ht p z i f Hz). etransitivity; [exact (f_equal (fun l => l !! i) E)|exact Hi].
Qed.

(** A child has every descriptor of its parent. *)
Lemma refs_fork s s' p pp i x c :
  refs_ok s -> k_procs s !! p = Some pp -> k_procs s !! i = Some x -> p_ofile x = replicate NOFILE None -> p_ofile c = p_ofile pp ->
  k_procs s' = <[i := c]> (k_procs s) -> length (k_files s') = length (k_files s) ->
  (forall f y, k_files s !! f = Some y -> k_files s' !! f = Some (set_fref (f_ref y + Z.of_nat (opens f (p_ofile pp))) y)) ->
  refs_ok s'.
Proof using Type.
  intros [Hc Ht] Hp Hi Hx Hcp Eps Elen Hf. split.
  - intros f y' Hy'. destruct (lookup_lt_is_Some_2 (k_files s) f) as [y Hy]; [rewrite <- Elen; by eapply lookup_lt_Some|].
    rewrite (Hf f y Hy) in Hy'. injection Hy' as <-. simpl. rewrite (Hc f y Hy), Eps.
    pose proof (total_insert f (k_procs s) i x c Hi) as E. rewrite Hx, opens_closed, Hcp in E. lia.
  - intros q z j f Hq Hj. rewrite Eps in Hq. rewrite Elen.
    apply list_lookup_insert_Some in Hq as [(<- & <- & _)|[_ Hq]]; [|by apply (Ht q z j f)].
    rewrite Hcp in Hj. by apply (Ht p pp j f).
Qed.

Lemma length_dup_all fds fs : length (foldl dup_one fs fds) = length fs.
Proof using Type. revert fs. induction fds as [|[f|] fds IH]; intros fs; simpl; [done| |apply IH]. rewrite IH. simpl. by rewrite length_insert. Qed.

Lemma refs_step s s' : fd_step s s' -> refs_ok s -> refs_ok s'.
Proof.
  intros Hs Hr. destruct Hs as [p x r s' Ha R|p x r s' Ha Hsh R|p pp i x tf root l n d r s' F Hl R|s' E1 E2].
  - pose proof (sys_dup_run s p x Ha Hr) as Hd. destruct (fd_arg s x 0) as [[fd f]|] eqn:Efd; [|rewrite R in Hd; injection Hd as -> ->; by apply (refs_same s)].
    destruct (fd_scan 0 (p_ofile x)) as [i|] eqn:Ei; [|rewrite R in Hd; injection Hd as -> ->; by apply (refs_same s)].
    destruct Hd as (y & Hy & Hd). rewrite R in Hd. injection Hd as -> ->.
    destruct (fd_scan_spec _ _ _ Ei) as (_ & Hi & _). rewrite Nat.sub_0_r in Hi.
    apply (refs_move s _ p x i None (Some f) Hr (ac_proc _ _ _ Ha) Hi); try done; [apply length_insert| |].
    + intros g Hg. injection Hg as <-. by eapply lookup_lt_Some.
    + intros g z Hz. cbn [k_files set_files] in Hz. unfold ref_add in Hz.
      apply list_lookup_insert_Some in Hz as [(<- & <- & _)|[Hne Hz]]; [exists y|exists z]; (split; [done|]); simpl;
        repeat case_decide; try done; try lia; congruence.
  - pose proof (sys_close_run s p x Ha Hr) as Hd. destruct (fd_arg s x 0) as [[i f]|] eqn:Efd; [|rewrite R in Hd; injection Hd as -> ->; by apply (refs_same s)].
    destruct Hd as (y & Hy & Hy1 & Hd). pose proof (Hsh i f y eq_refl Hy). specialize (Hd ltac:(lia)). rewrite R in Hd. injection Hd as -> ->.
    pose proof (fd_arg_open _ _ _ _ _ Efd) as Hi.
    apply (refs_move s _ p x i (Some f) None Hr (ac_proc _ _ _ Ha) Hi); try done; [apply length_insert|].
    intros g z Hz. cbn [k_files set_files] in Hz. unfold ref_add in Hz.
    apply list_lookup_insert_Some in Hz as [(<- & <- & _)|[Hne Hz]]; [exists y|exists z]; (split; [done|]); simpl;
      repeat case_decide; try done; try lia; congruence.
  - destruct (fork_run s p pp i x tf root l n d F Hl) as (m & fl & l' & R' & _ & _ & Hf & _). rewrite R in R'. injection R' as -> ->.
    apply (refs_fork s _ p pp i x (child s p pp x tf root)); try apply F; try done. apply length_dup_all.
  - by apply (refs_same s).
Qed.

(** C8: reference counts are exact.  If every entry of the file table counts
    the descriptors that refer to it, over all processes, it still does after
    any sequence of [dup], [close] of shared files, [fork] and other steps
    that touch neither; so in every state reached [dup] returns, without the
    panic of [filedup], either -1 or the lowest descriptor that was free. *)
Theorem refs_invariant s s' : rtc fd_step s s' -> refs_ok s ->
  refs_ok s' /\ forall p x, acts s' p x -> exists r t, sys_dup s' = Ret r t /\
    (r = -1 \/ exists i, r = Z.of_nat i /\ p_ofile x !! i = Some None /\
       forall j, (j < i)%nat -> exists g, p_ofile x !! j = Some (Some g)).
Proof.
  intros Hs Hr. assert (Hr' : refs_ok s') by (induction Hs as [|s s1 s2 H1 _ IH]; [done|apply IH; by eapply refs_step]).
  split; [done|]. intros p x Ha. pose proof (sys_dup_run s' p x Ha Hr') as Hd.
  destruct (fd_arg s' x 0) as [[fd f]|]; [|eexists _, _; split; [exact Hd|by left]].
  destruct (fd_scan 0 (p_ofile x)) as [i|] eqn:Ei; [|eexists _, _; split; [exact Hd|by left]].
  destruct Hd as (y & _ & Hd). eexists _, _. split; [exact Hd|]. right. exists i. split; [done|].
  destruct (fd_scan_spec _ _ _ Ei) as (_ & Hi & Hj). rewrite Nat.sub_0_r in *. done.
Qed.
End calls.

Section demo.
#[local] Existing Instance demo_linker.
#[local] Existing Instance demo_linker_ok.
#[local] Existing Instance mem_disk.
#[local] Existing Instance quiet_devices.

Lemma total_replicate f n p : opens f (p_ofile p) = 0%nat -> total f (replicate n p) = 0%nat.
Proof. intros E. induction n as [|n IH]; [done|]. cbn [replicate total]. by rewrite E, IH. Qed.

(** Process 0 has file 0 open, once. *)
Lemma demo_refs : refs_ok (demo_running 0 0).
Proof.
  assert (Ht : forall f, total f (k_procs (demo_running 0 0)) = if decide (f = 0%nat) then 1%nat else 0%nat).
  { intros f. change (opens f (Some 0%nat :: replicate 15 None) + total f (replicate 63 proc0) = if decide (f = 0%nat) then 1 else 0)%nat.
    rewrite (total_replicate f 63 proc0) by apply opens_closed. rewrite opens_cons, opens_closed. repeat case_decide; try done; congruence. }
  split.
  - intros f y Hy. rewrite Ht. destruct f as [|f]; [injection Hy as <-; reflexivity|]. cbn [decide].
    assert (y = file0) as ->; [|by rewrite decide_False].
    change (replicate (Nat.pred NFILE) file0 !! f = Some y) in Hy. by apply lookup_replicate in Hy as [-> _].
  - intros [|p] x i f Hp Hi.
    + injection Hp as <-. destruct i as [|i]; [injection Hi as <-; vm_compute; lia|].
      change (replicate 15 (@None nat) !! i = Some (Some f)) in Hi. by apply lookup_replicate in Hi as [? _].
    + change (replicate 63 proc0 !! p = Some x) in Hp. apply lookup_replicate in Hp as [-> _].
      change (replicate NOFILE (@None nat) !! i = Some (Some f)) in Hi. by apply lookup_replicate in Hi as [? _].
Qed.

Lemma demo_acts : acts (demo_running 0 0) 0 (demo_parent 0 0).
Proof. split; [split; [simpl; lia|simpl; split; [lia|done]]|reflexivity|reflexivity|reflexivity]. Qed.

Lemma refs_invariant_witness : exists s s', rtc fd_step s s' /\ refs_ok s'.
Proof.
  pose proof (sys_dup_run _ _ _ demo_acts demo_refs) as Hd.
  destruct (fd_arg (demo_running 0 0) (demo_parent 0 0) 0) as [[i f]|] eqn:E; [|vm_compute in E; discriminate].
  change (fd_scan 0 (p_ofile (demo_parent 0 0))) with (Some 1%nat) in Hd. destruct Hd as (y & _ & R).
  eexists (demo_running 0 0), _. split; [apply rtc_once; exact (step_dup _ _ _ _ _ demo_acts R)|].
  apply (refs_invariant (demo_running 0 0)).
  - apply rtc_once. exact (step_dup _ _ _ _ _ demo_acts R).
  - exact demo_refs.
Defined.
End demo.
