(* ===== verification/Virtio.v ===== *)
(** * kernel/virtio_disk.c: the disk driver

    The descriptor table and the two rings are pages of RAM shared with the
    device; the rest of [struct disk] is [k_vdisk].  [virtio_disk_rw] sleeps
    until the interrupt handler clears [b->disk]. *)

From S2P Require Import Prelude Param Mem CString Kernel Spinlock Kalloc Sched Sleeplock Vm Bio Uart Pipe.
Open Scope Z_scope.

(** ** kernel/virtio.h *)

Definition VIRTIO_MMIO_MAGIC_VALUE : Z := 0x000.
Definition VIRTIO_MMIO_VERSION : Z := 0x004.
Definition VIRTIO_MMIO_DEVICE_ID : Z := 0x008.
Definition VIRTIO_MMIO_VENDOR_ID : Z := 0x00c.
Definition VIRTIO_MMIO_DEVICE_FEATURES : Z := 0x010.
Definition VIRTIO_MMIO_DRIVER_FEATURES : Z := 0x020.
Definition VIRTIO_MMIO_QUEUE_SEL : Z := 0x030.
Definition VIRTIO_MMIO_QUEUE_NUM_MAX : Z := 0x034.
Definition VIRTIO_MMIO_QUEUE_NUM : Z := 0x038.
Definition VIRTIO_MMIO_QUEUE_READY : Z := 0x044.
Definition VIRTIO_MMIO_QUEUE_NOTIFY : Z := 0x050.
Definition VIRTIO_MMIO_INTERRUPT_STATUS : Z := 0x060.
Definition VIRTIO_MMIO_INTERRUPT_ACK : Z := 0x064.
Definition VIRTIO_MMIO_STATUS : Z := 0x070.
Definition VIRTIO_MMIO_QUEUE_DESC_LOW : Z := 0x080.
Definition VIRTIO_MMIO_QUEUE_DESC_HIGH : Z := 0x084.
Definition VIRTIO_MMIO_DRIVER_DESC_LOW : Z := 0x090.
Definition VIRTIO_MMIO_DRIVER_DESC_HIGH : Z := 0x094.
Definition VIRTIO_MMIO_DEVICE_DESC_LOW : Z := 0x0a0.
Definition VIRTIO_MMIO_DEVICE_DESC_HIGH : Z := 0x0a4.

Definition VIRTIO_CONFIG_S_ACKNOWLEDGE : Z := 1.
Definition VIRTIO_CONFIG_S_DRIVER : Z := 2.
Definition VIRTIO_CONFIG_S_DRIVER_OK : Z := 4.
Definition VIRTIO_CONFIG_S_FEATURES_OK : Z := 8.

Definition VIRTIO_BLK_F_RO : Z := 5.
Definition VIRTIO_BLK_F_SCSI : Z := 7.
Definition VIRTIO_BLK_F_CONFIG_WCE : Z := 11.
Definition VIRTIO_BLK_F_MQ : Z := 12.
Definition VIRTIO_F_ANY_LAYOUT : Z := 27.
Definition VIRTIO_RING_F_INDIRECT_DESC : Z := 28.
Definition VIRTIO_RING_F_EVENT_IDX : Z := 29.

Definition NUM : nat := 8.
Definition VRING_DESC_F_NEXT : Z := 1.
Definition VRING_DESC_F_WRITE : Z := 2.
Definition VIRTIO_BLK_T_IN : Z := 0.
Definition VIRTIO_BLK_T_OUT : Z := 1.
Definition sizeof_blk_req : Z := 16.

(** Addresses of the fields of [desc[i]], of [avail] and of [used]. *)
Definition d_addr (desc : Z) (i : nat) : Z := desc + 16 * Z.of_nat i.
Definition d_len (desc : Z) (i : nat) : Z := desc + 16 * Z.of_nat i + 8.
Definition d_flags (desc : Z) (i : nat) : Z := desc + 16 * Z.of_nat i + 12.
Definition d_next (desc : Z) (i : nat) : Z := desc + 16 * Z.of_nat i + 14.
Definition av_idx (avail : Z) : Z := avail + 2.
Definition av_ring (avail i : Z) : Z := avail + 4 + 2 * i.
Definition us_idx (used : Z) : Z := used + 2.
Definition us_id (used i : Z) : Z := used + 4 + 8 * i.

Definition load16 (a : Z) : K Z := gets (fun s => ld16 (k_mem s) a).
Definition store16 (a v : Z) : K unit := modify_mem (fun m => st16 m a v).

(** ** Fields of [disk] *)

Definition put_vdisk (f : vdisk -> vdisk) : K unit := modify (fun s => set_vdisk (f (k_vdisk s)) s).
Definition set_pages (desc avail used : Z) (d : vdisk) : vdisk :=
  mkvdisk desc avail used (vd_free d) (vd_used_idx d) (vd_info d) (vd_ops d).
Definition set_vfree (l : list bool) (d : vdisk) : vdisk :=
  mkvdisk (vd_desc d) (vd_avail d) (vd_used d) l (vd_used_idx d) (vd_info d) (vd_ops d).
Definition set_used_idx (n : Z) (d : vdisk) : vdisk :=
  mkvdisk (vd_desc d) (vd_avail d) (vd_used d) (vd_free d) n (vd_info d) (vd_ops d).
Definition set_info (l : list (option nat * Z)) (d : vdisk) : vdisk :=
  mkvdisk (vd_desc d) (vd_avail d) (vd_used d) (vd_free d) (vd_used_idx d) l (vd_ops d).
Definition set_ops (l : list (Z * Z * Z)) (d : vdisk) : vdisk :=
  mkvdisk (vd_desc d) (vd_avail d) (vd_used d) (vd_free d) (vd_used_idx d) (vd_info d) l.

Definition info_at (d : vdisk) (i : nat) : option nat * Z := default (None, 0) (vd_info d !! i).
Definition put_info_b (i : nat) (b : option nat) : K unit :=
  put_vdisk (fun d => set_info (<[i := (b, snd (info_at d i))]> (vd_info d)) d).
Definition put_info_status (i : nat) (st : Z) : K unit :=
  put_vdisk (fun d => set_info (<[i := (fst (info_at d i), st)]> (vd_info d)) d).

Definition free_at (d : vdisk) (i : nat) : bool := default false (vd_free d !! i).
Definition put_free (i : nat) (v : bool) : K unit :=
  put_vdisk (fun d => set_vfree (<[i := v]> (vd_free d)) d).

Section virtio.
Context `{D : Devices, L : Linker}.

Definition R (r : Z) : Z := VIRTIO0 + r.

(** ** Initialisation *)

(** [features &= ~(1 << bit)] *)
Definition mask_off (features bit : Z) : Z := Z.land features (Z.lnot (Z.shiftl 1 bit)).

Definition virtio_disk_init : K unit :=
  do! initlock LKvdisk;
  let! magic := mmio_read u32 (R VIRTIO_MMIO_MAGIC_VALUE) in
  let! version := (if magic =? 0x74726976 then mmio_read u32 (R VIRTIO_MMIO_VERSION) else kret 0) in
  let! id := (if version =? 2 then mmio_read u32 (R VIRTIO_MMIO_DEVICE_ID) else kret 0) in
  let! vendor := (if id =? 2 then mmio_read u32 (R VIRTIO_MMIO_VENDOR_ID) else kret 0) in
  if negb (vendor =? 0x554d4551) then panic "could not find virtio disk" else
  let status := 0 in
  do! mmio_write (R VIRTIO_MMIO_STATUS) status;
  let status := Z.lor status VIRTIO_CONFIG_S_ACKNOWLEDGE in
  do! mmio_write (R VIRTIO_MMIO_STATUS) status;
  let status := Z.lor status VIRTIO_CONFIG_S_DRIVER in
  do! mmio_write (R VIRTIO_MMIO_STATUS) status;
  let! features := mmio_read u32 (R VIRTIO_MMIO_DEVICE_FEATURES) in
  let features := foldl mask_off features
    [VIRTIO_BLK_F_RO; VIRTIO_BLK_F_SCSI; VIRTIO_BLK_F_CONFIG_WCE; VIRTIO_BLK_F_MQ;
     VIRTIO_F_ANY_LAYOUT; VIRTIO_RING_F_EVENT_IDX; VIRTIO_RING_F_INDIRECT_DESC] in
  do! mmio_write (R VIRTIO_MMIO_DRIVER_FEATURES) (u32 features);
  let status := Z.lor status VIRTIO_CONFIG_S_FEATURES_OK in
  do! mmio_write (R VIRTIO_MMIO_STATUS) status;
  let! status := mmio_read u32 (R VIRTIO_MMIO_STATUS) in
  if negb (has status VIRTIO_CONFIG_S_FEATURES_OK) then panic "virtio disk FEATURES_OK unset" else
  do! mmio_write (R VIRTIO_MMIO_QUEUE_SEL) 0;
  let! ready := mmio_read u32 (R VIRTIO_MMIO_QUEUE_READY) in
  if negb (ready =? 0) then panic "virtio disk should not be ready" else
  let! max := mmio_read u32 (R VIRTIO_MMIO_QUEUE_NUM_MAX) in
  if max =? 0 then panic "virtio disk has no queue 0" else
  if max <? Z.of_nat NUM then panic "virtio disk max queue too short" else
  let! desc := kalloc in
  let! avail := kalloc in
  let! used := kalloc in
  do! put_vdisk (set_pages desc avail used);
  if (desc =? 0) || (avail =? 0) || (used =? 0) then panic "virtio disk kalloc" else
  do! modify_mem (fun m => memset m desc 0 PGSIZE);
  do! modify_mem (fun m => memset m avail 0 PGSIZE);
  do! modify_mem (fun m => memset m used 0 PGSIZE);
  do! mmio_write (R VIRTIO_MMIO_QUEUE_NUM) (Z.of_nat NUM);
  do! mmio_write (R VIRTIO_MMIO_QUEUE_DESC_LOW) (u32 desc);
  do! mmio_write (R VIRTIO_MMIO_QUEUE_DESC_HIGH) (u32 (Z.shiftr desc 32));
  do! mmio_write (R VIRTIO_MMIO_DRIVER_DESC_LOW) (u32 avail);
  do! mmio_write (R VIRTIO_MMIO_DRIVER_DESC_HIGH) (u32 (Z.shiftr avail 32));
  do! mmio_write (R VIRTIO_MMIO_DEVICE_DESC_LOW) (u32 used);
  do! mmio_write (R VIRTIO_MMIO_DEVICE_DESC_HIGH) (u32 (Z.shiftr used 32));
  do! mmio_write (R VIRTIO_MMIO_QUEUE_READY) 1;
  do! kfor (seq 0 NUM) (fun i => put_free i true);
  let status := Z.lor status VIRTIO_CONFIG_S_DRIVER_OK in
  mmio_write (R VIRTIO_MMIO_STATUS) status.

(** ** Descriptors *)

(** The first free descriptor. *)
Fixpoint desc_scan (i : nat) (l : list bool) : option nat :=
  match l with
  | [] => None
  | true :: _ => Some i
  | false :: l => desc_scan (S i) l
  end.

Definition alloc_desc : K (option nat) :=
  let! d := gets (fun s => k_vdisk s) in
  match desc_scan 0 (vd_free d) with
  | Some i =>
    do! put_free i false;
    kret (Some i)
  | None => kret None
  end.

Definition free_desc (i : nat) : K unit :=
  if (NUM <=? i)%nat then panic "free_desc 1" else
  let! d := gets (fun s => k_vdisk s) in
  if free_at d i then panic "free_desc 2" else
  do! store64 (d_addr (vd_desc d) i) 0;
  do! store32 (d_len (vd_desc d) i) 0;
  do! store16 (d_flags (vd_desc d) i) 0;
  do! store16 (d_next (vd_desc d) i) 0;
  do! put_free i true;
  wakeup CHdisk_free.

(** A chain has no cycle, so it is freed in at most [NUM] rounds. *)
Fixpoint free_chain_loop (fuel : nat) (i : nat) : K unit :=
  match fuel with
  | O => fun _ => NoFuel
  | S fuel =>
    let! d := gets (fun s => k_vdisk s) in
    let! flag := load16 (d_flags (vd_desc d) i) in
    let! nxt := load16 (d_next (vd_desc d) i) in
    do! free_desc i;
    if has flag VRING_DESC_F_NEXT then free_chain_loop fuel (Z.to_nat nxt) else kret tt
  end.
Definition free_chain (i : nat) : K unit := free_chain_loop (S NUM) i.

(** [alloc3_desc] from its [n]-th descriptor on, with [idx] allocated. *)
Fixpoint alloc3_loop (n : nat) (idx : list nat) : K (option (list nat)) :=
  match n with
  | O => kret (Some idx)
  | S n =>
    let! i := alloc_desc in
    match i with
    | Some i => alloc3_loop n (idx ++ [i])
    | None =>
      do! kfor idx free_desc;
      kret None
    end
  end.
Definition alloc3_desc : K (option (list nat)) := alloc3_loop 3 [].

(** The loop of [virtio_disk_rw] that waits for three descriptors. *)
Fixpoint alloc_wait (fuel : nat) : K (list nat) :=
  match fuel with
  | O => fun _ => NoFuel
  | S fuel =>
    let! r := alloc3_desc in
    match r with
    | Some idx => kret idx
    | None =>
      do! sleep CHdisk_free LKvdisk;
      alloc_wait fuel
    end
  end.

(** ** Requests *)

Definition put_desc (desc : Z) (i : nat) (addr len flags next : Z) : K unit :=
  do! store64 (d_addr desc i) addr;
  do! store32 (d_len desc i) len;
  do! store16 (d_flags desc i) flags;
  store16 (d_next desc i) next.

(** Formatting the three descriptors of a request on buffer [b]. *)
Definition rw_format (b : nat) (write : bool) (sector : Z) (i0 i1 i2 : nat) : K unit :=
  let! d := gets (fun s => k_vdisk s) in
  do! put_vdisk (fun d =>
        set_ops (<[i0 := (if write then VIRTIO_BLK_T_OUT else VIRTIO_BLK_T_IN, 0, sector)]> (vd_ops d)) d);
  do! put_desc (vd_desc d) i0 (sym_ops i0) sizeof_blk_req VRING_DESC_F_NEXT (Z.of_nat i1);
  do! put_desc (vd_desc d) i1 (sym_data b) BSIZE
        (Z.lor (if write then 0 else VRING_DESC_F_WRITE) VRING_DESC_F_NEXT) (Z.of_nat i2);
  do! put_info_status i0 0xff;
  put_desc (vd_desc d) i2 (sym_status i0) 1 VRING_DESC_F_WRITE 0.

(** Handing the chain to the device. *)
Definition rw_submit (b i0 : nat) : K unit :=
  do! put_buf b (set_bdisk true);
  do! put_info_b i0 (Some b);
  let! d := gets (fun s => k_vdisk s) in
  let! idx := load16 (av_idx (vd_avail d)) in
  do! store16 (av_ring (vd_avail d) (idx mod Z.of_nat NUM)) (Z.of_nat i0);
  do! store16 (av_idx (vd_avail d)) (idx + 1);
  mmio_write (R VIRTIO_MMIO_QUEUE_NOTIFY) 0.

Definition virtio_rw (b : nat) (write : bool) : K unit :=
  let! blockno := gets (fun s => b_blockno (buf_at s b)) in
  let sector := u32 (blockno * (BSIZE / 512)) in
  do! acquire LKvdisk;
  let! idx := alloc_wait wakeups in
  match idx with
  | [i0; i1; i2] =>
    do! rw_format b write sector i0 i1 i2;
    do! rw_submit b i0;
    do! sleep_while wakeups (fun s => b_disk (buf_at s b)) (CHbuf b) LKvdisk;
    do! put_info_b i0 None;
    do! free_chain i0;
    release LKvdisk
  | _ => fun _ => NoFuel
  end.

(** ** Completions *)

(** [while(disk.used_idx != disk.used->idx)]; the ring holds at most [NUM]
    completions. *)
Fixpoint intr_loop (fuel : nat) : K unit :=
  match fuel with
  | O => fun _ => NoFuel
  | S fuel =>
    let! d := gets (fun s => k_vdisk s) in
    let! uidx := load16 (us_idx (vd_used d)) in
    if vd_used_idx d =? uidx then kret tt else
    let! id := load32 (us_id (vd_used d) (vd_used_idx d mod Z.of_nat NUM)) in
    let (b, status) := info_at d (Z.to_nat id) in
    if negb (status =? 0) then panic "virtio_disk_intr status" else
    match b with
    | None => panic "kerneltrap"
    | Some b =>
      do! put_buf b (set_bdisk false);
      do! wakeup (CHbuf b);
      do! put_vdisk (fun d => set_used_idx (u16 (vd_used_idx d + 1)) d);
      intr_loop fuel
    end
  end.

Definition virtio_disk_intr : K unit :=
  do! acquire LKvdisk;
  let! st := mmio_read u32 (R VIRTIO_MMIO_INTERRUPT_STATUS) in
  do! mmio_write (R VIRTIO_MMIO_INTERRUPT_ACK) (Z.land st 0x3);
  do! intr_loop (S NUM);
  release LKvdisk.

End virtio.
