(* ===== verification/VirtioReq.v ===== *)
(** * A request of the disk driver, kernel/virtio_disk.c

    [virtio_disk_rw] builds a chain of three descriptors, hands it to the
    device and sleeps; once the interrupt handler has cleared [b->disk] it
    takes the chain apart again. *)

From S2P Require Import Prelude Param Mem CString Kernel Spinlock Kalloc Sched Sleeplock Vm Bio Uart Pipe Virtio.
Open Scope Z_scope.

(** ** Descriptors in memory *)

Definition wr_desc (m : memory) (desc : Z) (i : nat) (addr len flags next : Z) : memory :=
  st16 (st16 (st32 (st64 m (d_addr desc i) addr) (d_len desc i) len) (d_flags desc i) flags) (d_next desc i) next.

(** Address, length, flags and next of a descriptor. *)
Definition desc_at (m : memory) (desc : Z) (i : nat) : Z * Z * Z * Z :=
  (ld64 m (d_addr desc i), ld32 m (d_len desc i), ld16 m (d_flags desc i), ld16 m (d_next desc i)).

Lemma wr_desc_out m desc i addr len flags next a :
  a < desc + 16 * Z.of_nat i \/ desc + 16 * Z.of_nat i + 16 <= a ->
  ld8 (wr_desc m desc i addr len flags next) a = ld8 m a.
Proof.
  intros Ha. unfold wr_desc, d_addr, d_len, d_flags, d_next.
  rewrite !ld8_st_out by (simpl; lia). done.
Qed.

Lemma wr_desc_ne m desc i j addr len flags next : i <> j ->
  desc_at (wr_desc m desc i addr len flags next) desc j = desc_at m desc j.
Proof.
  intros Hne. assert (Ho : forall a, desc + 16 * Z.of_nat j <= a < desc + 16 * Z.of_nat j + 16 ->
    ld8 (wr_desc m desc i addr len flags next) a = ld8 m a) by (intros; apply wr_desc_out; lia).
  unfold desc_at. f_equal; [f_equal; [f_equal|]|]; apply ld_ext; intros b Hb; apply Ho;
    unfold d_addr, d_len, d_flags, d_next in Hb; simpl in Hb; lia.
Qed.

Lemma wr_desc_eq m desc i addr len flags next :
  desc_at (wr_desc m desc i addr len flags next) desc i = (u64 addr, u32 len, u16 flags, u16 next).
Proof.
  unfold desc_at, wr_desc, d_addr, d_len, d_flags, d_next.
  f_equal; [f_equal; [f_equal|]|].
  - rewrite !ld_st_ne by (simpl; lia). by rewrite ld_st_eq.
  - rewrite !ld_st_ne by (simpl; lia). by rewrite ld_st_eq.
  - rewrite ld_st_ne by (simpl; lia). by rewrite ld_st_eq.
  - by rewrite ld_st_eq.
Qed.

(** ** Allocation *)

Lemma desc_scan_some l : forall k i, desc_scan k l = Some i -> (k <= i)%nat /\ l !! (i - k)%nat = Some true.
Proof.
  induction l as [|[] l IH]; intros k i E; simplify_eq/=.
  - split; [lia|]. by rewrite Nat.sub_diag.
  - destruct (IH _ _ E) as [H1 H2]. split; [lia|]. replace (i - k)%nat with (S (i - S k)) by lia. done.
Qed.

(** The first three free descriptors. *)
Definition first_three (fr : list bool) (i0 i1 i2 : nat) : Prop :=
  desc_scan 0 fr = Some i0 /\ desc_scan 0 (<[i0 := false]> fr) = Some i1 /\
  desc_scan 0 (<[i1 := false]> (<[i0 := false]> fr)) = Some i2.

Lemma first_three_spec fr i0 i1 i2 : first_three fr i0 i1 i2 ->
  fr !! i0 = Some true /\ fr !! i1 = Some true /\ fr !! i2 = Some true /\ i0 <> i1 /\ i0 <> i2 /\ i1 <> i2.
Proof.
  intros (E0 & E1 & E2). apply desc_scan_some in E0 as [_ E0], E1 as [_ E1], E2 as [_ E2]. rewrite Nat.sub_0_r in *.
  assert (i0 <> i1) by (intros ->; rewrite list_lookup_insert_eq in E1; [done|by eapply lookup_lt_Some]).
  rewrite list_lookup_insert_ne in E1 by done.
  assert (i1 <> i2) by (intros ->; rewrite list_lookup_insert_eq in E2; [done|rewrite length_insert; by eapply lookup_lt_Some]).
  rewrite list_lookup_insert_ne in E2 by done.
  assert (i0 <> i2) by (intros ->; rewrite list_lookup_insert_eq in E2; [done|by eapply lookup_lt_Some]).
  rewrite list_lookup_insert_ne in E2 by done. done.
Qed.

Definition take_three (fr : list bool) (i0 i1 i2 : nat) : list bool := <[i2 := false]> (<[i1 := false]> (<[i0 := false]> fr)).
Definition give_three (fr : list bool) (i0 i1 i2 : nat) : list bool := <[i2 := true]> (<[i1 := true]> (<[i0 := true]> fr)).

Section request.
Context `{D : Devices, L : Linker}.

Lemma alloc_desc_run i s : desc_scan 0 (vd_free (k_vdisk s)) = Some i ->
  alloc_desc s = Ret (Some i) (set_vdisk (set_vfree (<[i := false]> (vd_free (k_vdisk s))) (k_vdisk s)) s).
Proof. intros E. unfold alloc_desc. rewrite kbind_gets, E. reflexivity. Qed.

Lemma alloc3_run i0 i1 i2 s : first_three (vd_free (k_vdisk s)) i0 i1 i2 ->
  alloc3_desc s = Ret (Some [i0; i1; i2])
    (set_vdisk (set_vfree (take_three (vd_free (k_vdisk s)) i0 i1 i2) (k_vdisk s)) s).
Proof.
  intros (E0 & E1 & E2). unfold alloc3_desc. cbn [alloc3_loop].
  krun (alloc_desc_run i0 s E0). set (s1 := set_vdisk _ s). krun (alloc_desc_run i1 s1 E1). set (s2 := set_vdisk _ s1).
  krun (alloc_desc_run i2 s2 E2). reflexivity.
Qed.

Lemma put_desc_run desc i addr len flags next s :
  put_desc desc i addr len flags next s = Ret tt (set_mem (wr_desc (k_mem s) desc i addr len flags next) s).
Proof. reflexivity. Qed.

(** ** Formatting and submitting *)

Definition op_of (write : bool) (sector : Z) : Z * Z * Z := (if write then VIRTIO_BLK_T_OUT else VIRTIO_BLK_T_IN, 0, sector).

Definition fmt_mem (m : memory) (desc : Z) (b : nat) (write : bool) (i0 i1 i2 : nat) : memory :=
  wr_desc (wr_desc (wr_desc m desc i0 (sym_ops i0) sizeof_blk_req VRING_DESC_F_NEXT (Z.of_nat i1))
    desc i1 (sym_data b) BSIZE (Z.lor (if write then 0 else VRING_DESC_F_WRITE) VRING_DESC_F_NEXT) (Z.of_nat i2))
    desc i2 (sym_status i0) 1 VRING_DESC_F_WRITE 0.

Definition fmt_vdisk (d : vdisk) (write : bool) (sector : Z) (i0 : nat) : vdisk :=
  set_info (<[i0 := (fst (info_at d i0), 0xff)]> (vd_info d)) (set_ops (<[i0 := op_of write sector]> (vd_ops d)) d).

Lemma rw_format_run b write sector i0 i1 i2 s :
  rw_format b write sector i0 i1 i2 s =
    Ret tt (set_vdisk (fmt_vdisk (k_vdisk s) write sector i0)
      (set_mem (fmt_mem (k_mem s) (vd_desc (k_vdisk s)) b write i0 i1 i2) s)).
Proof. reflexivity. Qed.

Definition sub_mem (m : memory) (avail : Z) (i0 : nat) : memory :=
  st16 (st16 m (av_ring avail (ld16 m (av_idx avail) mod Z.of_nat NUM)) (Z.of_nat i0)) (av_idx avail) (ld16 m (av_idx avail) + 1).

Definition sub_vdisk (d : vdisk) (b i0 : nat) : vdisk := set_info (<[i0 := (Some b, snd (info_at d i0))]> (vd_info d)) d.

Lemma rw_submit_run b i0 s :
  rw_submit b i0 s = Ret tt (set_io (k_io s ++ [IoWrite (VIRTIO0 + VIRTIO_MMIO_QUEUE_NOTIFY) 0])
    (set_mem (sub_mem (k_mem s) (vd_avail (k_vdisk s)) i0)
      (set_vdisk (sub_vdisk (k_vdisk s) b i0) (set_bufs (<[b := set_bdisk true (buf_at s b)]> (k_bufs s)) s)))).
Proof. reflexivity. Qed.

(** ** Taking the chain apart *)

Lemma free_desc_run i s :
  sched_ok s -> nested s -> (i < NUM)%nat -> free_at (k_vdisk s) i = false ->
  free_desc i s = Ret tt (set_procs (imap (woken CHdisk_free (c_proc (mycpu s))) (k_procs s))
    (set_vdisk (set_vfree (<[i := true]> (vd_free (k_vdisk s))) (k_vdisk s))
      (set_mem (wr_desc (k_mem s) (vd_desc (k_vdisk s)) i 0 0 0 0) s))).
Proof.
  intros Hok Hn Hi Hf. unfold free_desc. destruct (Nat.leb_spec NUM i); [lia|]. rewrite kbind_gets, Hf.
  unfold store64, store32, store16, modify_mem. rewrite !kbind_modify. unfold put_free, put_vdisk. rewrite kbind_modify.
  set (s1 := set_vdisk _ _). rewrite (wakeup_run CHdisk_free s1); [|by destruct Hok].
  assert (norm s1 = s1) as -> by (apply norm_nested; apply Hn). reflexivity.
Qed.

(** Three descriptors linked into a chain. *)
Definition chain (m : memory) (desc : Z) (i0 i1 i2 : nat) : Prop :=
  has (ld16 m (d_flags desc i0)) VRING_DESC_F_NEXT = true /\ ld16 m (d_next desc i0) = Z.of_nat i1 /\
  has (ld16 m (d_flags desc i1)) VRING_DESC_F_NEXT = true /\ ld16 m (d_next desc i1) = Z.of_nat i2 /\
  has (ld16 m (d_flags desc i2)) VRING_DESC_F_NEXT = false.

Lemma desc_at_link m desc i a len f n : desc_at m desc i = (a, len, f, n) -> ld16 m (d_flags desc i) = f /\ ld16 m (d_next desc i) = n.
Proof. unfold desc_at. intros E. by injection E. Qed.

Lemma desc_fields m m' desc i : desc_at m' desc i = desc_at m desc i ->
  ld16 m' (d_flags desc i) = ld16 m (d_flags desc i) /\ ld16 m' (d_next desc i) = ld16 m (d_next desc i).
Proof. unfold desc_at. intros E. by injection E. Qed.

Definition clear_three (m : memory) (desc : Z) (i0 i1 i2 : nat) : memory :=
  wr_desc (wr_desc (wr_desc m desc i0 0 0 0 0) desc i1 0 0 0 0) desc i2 0 0 0 0.

Definition woken3 (me : option nat) (ps : list proc) : list proc :=
  imap (woken CHdisk_free me) (imap (woken CHdisk_free me) (imap (woken CHdisk_free me) ps)).

Lemma free_chain_run i0 i1 i2 s :
  sched_ok s -> nested s -> (i0 < NUM)%nat -> (i1 < NUM)%nat -> (i2 < NUM)%nat -> i0 <> i1 -> i0 <> i2 -> i1 <> i2 ->
  free_at (k_vdisk s) i0 = false -> free_at (k_vdisk s) i1 = false -> free_at (k_vdisk s) i2 = false ->
  chain (k_mem s) (vd_desc (k_vdisk s)) i0 i1 i2 ->
  free_chain i0 s = Ret tt (set_procs (woken3 (c_proc (mycpu s)) (k_procs s))
    (set_vdisk (set_vfree (give_three (vd_free (k_vdisk s)) i0 i1 i2) (k_vdisk s))
      (set_mem (clear_three (k_mem s) (vd_desc (k_vdisk s)) i0 i1 i2) s))).
Proof.
  intros Hok Hn L0 L1 L2 N01 N02 N12 F0 F1 F2 (C1 & C2 & C3 & C4 & C5). set (desc := vd_desc (k_vdisk s)) in *.
  assert (Hp : forall f ps d m (t : kst), sched_ok t -> length (imap f (k_procs t)) = NPROC /\ length ps = NPROC -> sched_ok (set_procs (imap f ps) (set_vdisk d (set_mem m t)))).
  { intros f ps d m t [A1 A2 A3] [_ E]. split; [exact A1|exact A2|]. simpl. by rewrite length_imap. }
  unfold free_chain. change NUM with (S (S 6)). set (six := 6%nat). cbn [free_chain_loop]. unfold load16. rewrite kbind_gets. fold desc. rewrite !kbind_gets.
  krun (free_desc_run i0 s Hok Hn L0 F0). rewrite C1. set (s1 := set_procs _ _).
  destruct (desc_fields (k_mem s) (k_mem s1) desc i1 (wr_desc_ne _ _ _ _ _ _ _ _ N01)) as [E1 E2].
  destruct (desc_fields (k_mem s) (k_mem s1) desc i2 (wr_desc_ne _ _ _ _ _ _ _ _ N02)) as [E3 E4].
  assert (K1 : sched_ok s1) by (apply Hp; [done|]; rewrite length_imap, (so_procs s Hok); done).
  assert (G1 : free_at (k_vdisk s1) i1 = false) by (unfold free_at; simpl; rewrite list_lookup_insert_ne by done; exact F1).
  cbv beta iota. rewrite C2, Nat2Z.id, !kbind_gets. change (vd_desc (k_vdisk s1)) with desc.
  krun (free_desc_run i1 s1 K1 Hn L1 G1). rewrite E1, E2, C3, C4, Nat2Z.id. cbv beta iota. set (s2 := set_procs _ _).
  destruct (desc_fields (k_mem s1) (k_mem s2) desc i2 (wr_desc_ne _ _ _ _ _ _ _ _ N12)) as [E5 E6].
  assert (K2 : sched_ok s2) by (apply Hp; [done|]; rewrite length_imap, (so_procs s1 K1); done).
  assert (G2 : free_at (k_vdisk s2) i2 = false) by (unfold free_at; simpl; rewrite !list_lookup_insert_ne by done; exact F2).
  rewrite !kbind_gets. change (vd_desc (k_vdisk s2)) with desc.
  krun (free_desc_run i2 s2 K2 Hn L2 G2). rewrite E5, E3, C5. reflexivity.
Qed.

(** ** The whole call *)

(** What the device finds for a request on buffer [b]. *)
Record request (s : kst) (b : nat) (write : bool) (sector : Z) (i0 i1 i2 : nat) : Prop := {
  rq_op : vd_ops (k_vdisk s) !! i0 = Some (op_of write sector);
  rq_head : desc_at (k_mem s) (vd_desc (k_vdisk s)) i0 = (u64 (sym_ops i0), sizeof_blk_req, VRING_DESC_F_NEXT, Z.of_nat i1);
  rq_data : desc_at (k_mem s) (vd_desc (k_vdisk s)) i1 =
    (u64 (sym_data b), BSIZE, if write then VRING_DESC_F_NEXT else 3, Z.of_nat i2);
  rq_status : desc_at (k_mem s) (vd_desc (k_vdisk s)) i2 = (u64 (sym_status i0), 1, VRING_DESC_F_WRITE, 0);
  rq_info : vd_info (k_vdisk s) !! i0 = Some (Some b, 0xff);
  rq_busy : b_disk (buf_at s b) = true
}.

(** The descriptors are the driver's: taken, and still linked. *)
Definition in_flight (s : kst) (i0 i1 i2 : nat) : Prop :=
  free_at (k_vdisk s) i0 = false /\ free_at (k_vdisk s) i1 = false /\ free_at (k_vdisk s) i2 = false /\
  chain (k_mem s) (vd_desc (k_vdisk s)) i0 i1 i2.

(** The descriptor table and the available ring do not overlap. *)
Definition rings_apart (d : vdisk) : Prop :=
  vd_avail d + 20 <= vd_desc d \/ vd_desc d + 16 * Z.of_nat NUM <= vd_avail d.

(** The state in which the device is notified. *)
Definition notified (s : kst) (b : nat) (write : bool) (i0 i1 i2 : nat) : kst :=
  let d := set_vfree (take_three (vd_free (k_vdisk s)) i0 i1 i2) (k_vdisk s) in
  let d := fmt_vdisk d write (u32 (b_blockno (buf_at s b) * (BSIZE / 512))) i0 in
  let m := fmt_mem (k_mem s) (vd_desc d) b write i0 i1 i2 in
  set_io (k_io s ++ [IoWrite (VIRTIO0 + VIRTIO_MMIO_QUEUE_NOTIFY) 0])
    (set_mem (sub_mem m (vd_avail d) i0)
      (set_vdisk (sub_vdisk d b i0) (set_bufs (<[b := set_bdisk true (buf_at s b)]> (k_bufs s)) s))).

Lemma sub_mem_desc m d i0 j : rings_apart d -> (j < NUM)%nat ->
  desc_at (sub_mem m (vd_avail d) i0) (vd_desc d) j = desc_at m (vd_desc d) j.
Proof.
  intros Hr Hj. set (k := ld16 m (av_idx (vd_avail d)) mod Z.of_nat NUM).
  assert (Hk : 0 <= k < 8) by (apply Z.mod_pos_bound; done). unfold NUM in Hj.
  assert (Ho : forall a, vd_desc d + 16 * Z.of_nat j <= a < vd_desc d + 16 * Z.of_nat j + 16 ->
    ld8 (sub_mem m (vd_avail d) i0) a = ld8 m a).
  { intros a Ha. unfold sub_mem. fold k. unfold rings_apart, NUM in Hr. unfold av_ring, av_idx. rewrite !ld8_st_out by (simpl; lia). done. }
  unfold desc_at. f_equal; [f_equal; [f_equal|]|]; apply ld_ext; intros b Hb; apply Ho;
    unfold d_addr, d_len, d_flags, d_next in Hb; simpl in Hb; lia.
Qed.

Lemma notified_request s b write i0 i1 i2 :
  first_three (vd_free (k_vdisk s)) i0 i1 i2 -> length (vd_free (k_vdisk s)) = NUM ->
  length (vd_info (k_vdisk s)) = NUM -> length (vd_ops (k_vdisk s)) = NUM -> (b < length (k_bufs s))%nat ->
  rings_apart (k_vdisk s) ->
  request (notified s b write i0 i1 i2) b write (u32 (b_blockno (buf_at s b) * (BSIZE / 512))) i0 i1 i2 /\
  in_flight (notified s b write i0 i1 i2) i0 i1 i2.
Proof.
  intros H3 Lf Li Lo Hb Hr. destruct (first_three_spec _ _ _ _ H3) as (F0 & F1 & F2 & N01 & N02 & N12).
  pose proof (lookup_lt_Some _ _ _ F0) as B0. pose proof (lookup_lt_Some _ _ _ F1) as B1. pose proof (lookup_lt_Some _ _ _ F2) as B2.
  rewrite Lf in *. set (d := k_vdisk s) in *. set (sec := u32 _).
  assert (D0 : desc_at (k_mem (notified s b write i0 i1 i2)) (vd_desc d) i0 = (u64 (sym_ops i0), sizeof_blk_req, VRING_DESC_F_NEXT, Z.of_nat i1)).
  { unfold notified. cbn [k_mem set_io set_mem]. change (vd_avail _) with (vd_avail d). rewrite (sub_mem_desc _ d i0 i0 Hr B0).
    unfold fmt_mem. change (vd_desc _) with (vd_desc d). rewrite !wr_desc_ne by done. rewrite wr_desc_eq.
    assert (u16 (Z.of_nat i1) = Z.of_nat i1) as -> by (apply Z.mod_small; unfold NUM in B1; lia). reflexivity. }
  assert (D1 : desc_at (k_mem (notified s b write i0 i1 i2)) (vd_desc d) i1 = (u64 (sym_data b), BSIZE, if write then VRING_DESC_F_NEXT else 3, Z.of_nat i2)).
  { unfold notified. cbn [k_mem set_io set_mem]. change (vd_avail _) with (vd_avail d). rewrite (sub_mem_desc _ d i0 i1 Hr B1).
    unfold fmt_mem. change (vd_desc _) with (vd_desc d). rewrite wr_desc_ne by done. rewrite wr_desc_eq.
    assert (u16 (Z.of_nat i2) = Z.of_nat i2) as -> by (apply Z.mod_small; unfold NUM in B2; lia). by destruct write. }
  assert (D2 : desc_at (k_mem (notified s b write i0 i1 i2)) (vd_desc d) i2 = (u64 (sym_status i0), 1, VRING_DESC_F_WRITE, 0)).
  { unfold notified. cbn [k_mem set_io set_mem]. change (vd_avail _) with (vd_avail d). rewrite (sub_mem_desc _ d i0 i2 Hr B2).
    unfold fmt_mem. change (vd_desc _) with (vd_desc d). by rewrite wr_desc_eq. }
  split.
  - split; [|exact D0|exact D1|exact D2| |].
    + apply list_lookup_insert_eq. change (i0 < length (vd_ops d))%nat. by rewrite Lo.
    + change (<[i0 := (Some b, snd (default (None, 0) (<[i0 := (fst (info_at d i0), 0xff)]> (vd_info d) !! i0)))]>
        (<[i0 := (fst (info_at d i0), 0xff)]> (vd_info d)) !! i0 = Some (Some b, 0xff)).
      rewrite !list_lookup_insert_eq by (rewrite ?length_insert, Li; done). done.
    + unfold buf_at. simpl. by rewrite list_lookup_insert_eq.
  - assert (Hfr : forall j, (j = i0 \/ j = i1 \/ j = i2) -> free_at (k_vdisk (notified s b write i0 i1 i2)) j = false).
    { intros j Hj. change (default false (take_three (vd_free d) i0 i1 i2 !! j) = false). unfold take_three.
      rewrite !list_lookup_insert, !length_insert, Lf. repeat case_decide; try done; lia. }
    split; [auto|]. split; [auto|]. split; [auto|]. change (vd_desc _) with (vd_desc d).
    destruct (desc_at_link _ _ _ _ _ _ _ D0) as [G1 G2], (desc_at_link _ _ _ _ _ _ _ D1) as [G3 G4], (desc_at_link _ _ _ _ _ _ _ D2) as [G5 G6].
    unfold chain. rewrite G1, G2, G3, G4, G5. by destruct write.
Qed.

(** What is left of the call when [swtch] returns with the request done. *)
Lemma virtio_rw_resume fuel b i0 i1 i2 me ie s p :
  (k_tp s < length (k_cpus s))%nat -> c_noff (mycpu s) = 1 -> c_sie (mycpu s) = false -> c_proc (mycpu s) = Some me ->
  is_held (LKproc me) s -> is_free LKvdisk s -> (forall j, j <> me -> (j < NPROC)%nat -> is_free (LKproc j) s) ->
  length (k_procs s) = NPROC -> k_procs s !! me = Some p -> b_disk (buf_at s b) = false ->
  (i0 < NUM)%nat -> (i1 < NUM)%nat -> (i2 < NUM)%nat -> i0 <> i1 -> i0 <> i2 -> i1 <> i2 -> in_flight s i0 i1 i2 ->
  exists ps, (do! (do! sleep_tail me LKvdisk ie; sleep_while (S fuel) (fun s => b_disk (buf_at s b)) (CHbuf b) LKvdisk);
       do! put_info_b i0 None; do! free_chain i0; release LKvdisk) s =
    Ret tt (at_ (mkcpu (Some me) 0 ie ie) ps (<[LKvdisk := lock_free]> (<[LKproc me := lock_free]> (k_locks s)))
      (set_vdisk (set_vfree (give_three (vd_free (k_vdisk s)) i0 i1 i2)
                   (set_info (<[i0 := (None, snd (info_at (k_vdisk s) i0))]> (vd_info (k_vdisk s))) (k_vdisk s)))
        (set_mem (clear_three (k_mem s) (vd_desc (k_vdisk s)) i0 i1 i2) s))) /\
    ps = woken3 (Some me) (<[me := set_chan None p]> (k_procs s)).
Proof.
  intros Htp Hn Hs Hp Hh Hf Hfr Hlen Hps Hb B0 B1 B2 N01 N02 N12 (F0 & F1 & F2 & Hch).
  pose proof (sleep_tail_at me LKvdisk ie s (mycpu s) _ _ p Htp Hn Hs Hh Hf Hps) as E. rewrite at_self in E by done.
  rewrite Hp in E. set (l := <[LKvdisk := _]> _) in E. set (ps := <[me := _]> _) in E. set (c := mkcpu (Some me) 1 ie false) in E.
  assert (E' : (do! sleep_tail me LKvdisk ie; sleep_while (S fuel) (fun s => b_disk (buf_at s b)) (CHbuf b) LKvdisk) s = Ret tt (at_ c ps l s)).
  { krun E. cbn [sleep_while]. rewrite kbind_gets. change (buf_at (at_ c ps l s) b) with (buf_at s b). by rewrite Hb. }
  krun E'. unfold put_info_b, put_vdisk. rewrite kbind_modify.
  set (d := set_info _ _). change (set_vdisk d (at_ c ps l s)) with (at_ c ps l (set_vdisk d s)).
  set (s1 := set_vdisk d s). assert (Hcpu : mycpu (at_ c ps l s1) = c) by (by apply mycpu_at).
  assert (Hc : cpu_ok (at_ c ps l s1)).
  { split; [by apply put_cpu_tp|]. rewrite Hcpu. simpl. split; [lia|done]. }
  assert (Hok : sched_ok (at_ c ps l s1)).
  { split; [done| |simpl; unfold ps; by rewrite length_insert]. intros j Hj. unfold is_free. change (k_locks _) with l. unfold l.
    rewrite lookup_insert_ne by done. destruct (decide (j = me)) as [->|Hne]; [by apply lookup_insert_eq|].
    rewrite lookup_insert_ne by congruence. by apply Hfr. }
  assert (Hne : nested (at_ c ps l s1)) by (split; [done|rewrite Hcpu; simpl; lia]).
  krun (free_chain_run i0 i1 i2 (at_ c ps l s1) Hok Hne B0 B1 B2 N01 N02 N12 F0 F1 F2 Hch). rewrite Hcpu.
  set (s2 := set_vdisk (set_vfree (give_three (vd_free (k_vdisk s)) i0 i1 i2) d) (set_mem (clear_three (k_mem s) (vd_desc (k_vdisk s)) i0 i1 i2) s)).
  eexists. split; [|reflexivity].
  change (release LKvdisk (at_ c (woken3 (Some me) ps) l s2) = Ret tt (at_ (mkcpu (Some me) 0 ie ie) (woken3 (Some me) ps) (<[LKvdisk := lock_free]> (<[LKproc me := lock_free]> (k_locks s))) s2)).
  rewrite release_at; [|done|simpl; lia|done|apply lookup_insert_eq].
  unfold l. rewrite insert_insert_eq. unfold pop_cpu. simpl. by destruct ie.
Qed.

(** C21: the disk driver.  A request on buffer [b], with three descriptors
    free, takes the first three, links them into the chain that the device
    expects, header with the operation and the sector, data with the buffer's
    block, writable for a read, and a status byte, puts the chain at the end
    of the available ring, notifies the device and sleeps with its lock free.
    When it is resumed, on whatever hart, with the chain untouched and
    [b->disk] cleared by the interrupt handler, it returns with the three
    descriptors cleared and free again and all its locks free. *)
Theorem virtio_rw_request b write me i0 i1 i2 s p :
  cpu_ok s -> c_noff (mycpu s) = 0 -> c_proc (mycpu s) = Some me ->
  is_free LKvdisk s -> is_free (LKproc me) s -> k_procs s !! me = Some p ->
  first_three (vd_free (k_vdisk s)) i0 i1 i2 -> length (vd_free (k_vdisk s)) = NUM ->
  length (vd_info (k_vdisk s)) = NUM -> length (vd_ops (k_vdisk s)) = NUM -> (b < length (k_bufs s))%nat ->
  rings_apart (k_vdisk s) ->
  let avail := vd_avail (k_vdisk s) in let idx := ld16 (k_mem s) (av_idx avail) in
  exists s1 k, virtio_rw b write s = Swtch s1 k /\
    request s1 b write (u32 (b_blockno (buf_at s b) * (BSIZE / 512))) i0 i1 i2 /\ in_flight s1 i0 i1 i2 /\
    ld16 (k_mem s1) (av_ring avail (idx mod Z.of_nat NUM)) = Z.of_nat i0 /\ ld16 (k_mem s1) (av_idx avail) = u16 (idx + 1) /\
    k_io s1 = k_io s ++ [IoWrite (VIRTIO0 + VIRTIO_MMIO_QUEUE_NOTIFY) 0] /\
    is_free LKvdisk s1 /\ p_chan (proc_at s1 me) = Some (CHbuf b) /\ p_state (proc_at s1 me) = SLEEPING /\
    forall s2 p2,
      (k_tp s2 < length (k_cpus s2))%nat -> c_noff (mycpu s2) = 1 -> c_sie (mycpu s2) = false -> c_proc (mycpu s2) = Some me ->
      is_held (LKproc me) s2 -> is_free LKvdisk s2 -> (forall j, j <> me -> (j < NPROC)%nat -> is_free (LKproc j) s2) ->
      length (k_procs s2) = NPROC -> k_procs s2 !! me = Some p2 -> b_disk (buf_at s2 b) = false -> in_flight s2 i0 i1 i2 ->
      exists s3, k s2 = Ret tt s3 /\ vd_free (k_vdisk s3) = give_three (vd_free (k_vdisk s2)) i0 i1 i2 /\
        Forall (fun i => desc_at (k_mem s3) (vd_desc (k_vdisk s3)) i = (0, 0, 0, 0)) [i0; i1; i2] /\
        is_free LKvdisk s3 /\ is_free (LKproc me) s3 /\ c_noff (mycpu s3) = 0.
Proof.
  intros Hc Hn Hp Hf Hfm Hps H3 Lf Li Lo Hb Hr avail idx. pose proof Hc as (Htp & _ & _).
  destruct (first_three_spec _ _ _ _ H3) as (F0 & F1 & F2 & N01 & N02 & N12).
  pose proof (lookup_lt_Some _ _ _ F0) as B0. pose proof (lookup_lt_Some _ _ _ F1) as B1. pose proof (lookup_lt_Some _ _ _ F2) as B2.
  rewrite Lf in B0, B1, B2. set (sn := notified s b write i0 i1 i2).
  assert (exists fuel, wakeups = S (S fuel)) as [fuel Ew] by (by exists 998%nat).
  unfold virtio_rw. rewrite kbind_gets. krun (acquire_run LKvdisk s Hc Hf). set (sa := acquired LKvdisk s).
  assert (Ra : alloc_wait wakeups sa = Ret [i0; i1; i2] (set_vdisk (set_vfree (take_three (vd_free (k_vdisk s)) i0 i1 i2) (k_vdisk s)) sa)).
  { rewrite Ew. cbn [alloc_wait]. by krun (alloc3_run i0 i1 i2 sa H3). }
  krun Ra. erewrite obind_Ret by apply rw_format_run. erewrite obind_Ret by apply rw_submit_run. cbv beta.
  set (c := push_cpu (mycpu s)). set (l := <[LKvdisk := held_by (k_tp s)]> (k_locks s)).
  match goal with |- context [kbind (sleep_while _ _ _ _) _ ?t] => change t with (at_ c (k_procs s) l sn) end.
  rewrite Ew. cbn [sleep_while]. unfold kbind at 1. rewrite kbind_gets.
  destruct (notified_request s b write i0 i1 i2 H3 Lf Li Lo Hb Hr) as [Rq Fl]. fold sn in Rq, Fl.
  change (buf_at (at_ c (k_procs s) l sn) b) with (buf_at sn b). rewrite (rq_busy _ _ _ _ _ _ _ Rq).
  unfold kbind at 1. rewrite (sleep_at _ _ me sn c (k_procs s) l p); [|done|unfold c, push_cpu; simpl; lia|done|done|apply lookup_insert_eq|unfold l; by rewrite lookup_insert_ne|done].
  do 2 eexists. split; [reflexivity|].
  split; [by destruct Rq; split|]. split; [exact Fl|].
  assert (Hidx : ld16 (fmt_mem (k_mem s) (vd_desc (k_vdisk s)) b write i0 i1 i2) (av_idx avail) = idx).
  { apply ld_ext. intros a Ha. unfold av_idx in Ha. simpl in Ha. unfold rings_apart, NUM in *. fold avail in Hr.
    unfold fmt_mem. rewrite !wr_desc_out by lia. done. }
  assert (Hm : k_mem sn = st16 (st16 (fmt_mem (k_mem s) (vd_desc (k_vdisk s)) b write i0 i1 i2)
      (av_ring avail (idx mod Z.of_nat NUM)) (Z.of_nat i0)) (av_idx avail) (idx + 1)).
  { rewrite <- Hidx. reflexivity. }
  assert (Hmod : 0 <= idx mod Z.of_nat NUM) by (apply Z.mod_pos_bound; done).
  split. { change (k_mem _) with (k_mem sn). rewrite Hm, ld_st_ne by (unfold av_ring, av_idx; simpl; lia).
    rewrite ld_st_eq. apply Z.mod_small. unfold NUM in B0. simpl. lia. }
  split. { change (k_mem _) with (k_mem sn). by rewrite Hm, ld_st_eq. }
  split; [reflexivity|]. split; [apply lookup_insert_eq|].
  rewrite (proc_at_lookup _ me (set_state SLEEPING (set_chan (Some (CHbuf b)) p))) by (apply list_lookup_insert_eq; by eapply lookup_lt_Some).
  split; [done|]. split; [done|].
  intros s2 p2 G1 G2 G3 G4 G5 G6 G7 G8 G9 G10 G11.
  destruct (virtio_rw_resume fuel b i0 i1 i2 me (c_intena c) s2 p2) as (ps & R & _); try done.
  eexists. split; [exact R|]. split; [done|]. split; [|split; [|split]].
  - change (vd_desc (k_vdisk (at_ _ _ _ _))) with (vd_desc (k_vdisk s2)).
    change (k_mem (at_ _ _ _ _)) with (clear_three (k_mem s2) (vd_desc (k_vdisk s2)) i0 i1 i2). unfold clear_three.
    repeat constructor; [rewrite !wr_desc_ne by done|rewrite wr_desc_ne by done|]; by rewrite wr_desc_eq.
  - apply lookup_insert_eq.
  - unfold is_free. change (k_locks (at_ _ ?x _ _)) with (<[LKvdisk := lock_free]> (<[LKproc me := lock_free]> (k_locks s2))).
    rewrite lookup_insert_ne by done. apply lookup_insert_eq.
  - rewrite mycpu_at by done. done.
Qed.
End request.

(** ** An idle disk and a process that reads buffer 3 *)

Section demo.
#[local] Existing Instance demo_linker.
#[local] Instance silent : Devices := fun _ _ => 0.

Definition demo_idle : kst :=
  set_vdisk (mkvdisk 4096 8192 12288 (replicate 8 true) 0 (replicate 8 (None, 0)) (replicate 8 (0, 0, 0)))
    (set_locks {[LKvdisk := lock_free; LKproc 0 := lock_free]}
      (set_cpus (<[0%nat := mkcpu (Some 0%nat) 0 true true]> (k_cpus boot)) boot)).

Lemma virtio_rw_request_witness : exists s1 k, virtio_rw 3 false demo_idle = Swtch s1 k /\
  desc_at (k_mem s1) (vd_desc (k_vdisk s1)) 2 = (u64 (sym_status 0), 1, VRING_DESC_F_WRITE, 0).
Proof.
  destruct (virtio_rw_request 3 false 0 0 1 2 demo_idle proc0) as (s1 & k & R & Rq & _).
  - split; [simpl; lia|]. simpl. split; [lia|lia].
  - reflexivity.
  - reflexivity.
  - reflexivity.
  - reflexivity.
  - reflexivity.
  - by repeat split.
  - reflexivity.
  - reflexivity.
  - reflexivity.
  - vm_compute. lia.
  - right. vm_compute. discriminate.
  - exists s1, k. split; [exact R|]. exact (rq_status _ _ _ _ _ _ _ Rq).
Defined.
End demo.
