(* ===== verification/Trap.v ===== *)
(** * Traps, interrupts and start-up

    [kernel/trap.c], [kernel/plic.c], [kernel/start.c], [kernel/main.c],
    [kvminithart] of [vm.c] and [forkret] of [proc.c].  Control and status
    registers are per hart; bit [SIE] of [sstatus] is the interrupt enable of
    [struct cpu].  The jump to [userret] ends the kernel's turn, so
    [usertrapret] returns the value it passes in [a0]. *)

From S2P Require Import Prelude Param Mem CString Kernel Spinlock Kalloc Sched Sleeplock Vm PageTable UserCopy Uart Printf Bio Log Fs Console Pipe File Proc Exec Syscall Virtio.
Open Scope Z_scope.

(** ** kernel/riscv.h, control and status registers *)

Definition MSTATUS_MPP_MASK : Z := Z.shiftl 3 11.
Definition MSTATUS_MPP_S : Z := Z.shiftl 1 11.
Definition MSTATUS_MIE : Z := Z.shiftl 1 3.
Definition SSTATUS_SPP : Z := Z.shiftl 1 8.
Definition SSTATUS_SPIE : Z := Z.shiftl 1 5.
Definition SSTATUS_SIE : Z := Z.shiftl 1 1.
Definition SIE_SEIE : Z := Z.shiftl 1 9.
Definition SIE_STIE : Z := Z.shiftl 1 5.
Definition SIE_SSIE : Z := Z.shiftl 1 1.
Definition MIE_MTIE : Z := Z.shiftl 1 7.
Definition SATP_SV39 : Z := Z.shiftl 8 60.
Definition MAKE_SATP (pagetable : Z) : Z := Z.lor SATP_SV39 (Z.shiftr pagetable 12).

Definition r_csr (c : csr) : K Z := gets (fun s => default 0 (k_csrs s !! (k_tp s, c))).
Definition w_csr (c : csr) (v : Z) : K unit :=
  modify (fun s => set_csrs (<[(k_tp s, c) := v]> (k_csrs s)) s).

(** The same on a given hart, before [tp] holds its number. *)
Definition r_hcsr (h : nat) (c : csr) : K Z := gets (fun s => default 0 (k_csrs s !! (h, c))).
Definition w_hcsr (h : nat) (c : csr) (v : Z) : K unit :=
  modify (fun s => set_csrs (<[(h, c) := v]> (k_csrs s)) s).

Definition r_sstatus : K Z :=
  let! v := r_csr CSsstatus in
  let! on := intr_get in
  kret (Z.lor (Z.land v (Z.lnot SSTATUS_SIE)) (if (on : bool) then SSTATUS_SIE else 0)).
Definition w_sstatus (x : Z) : K unit :=
  do! w_csr CSsstatus x;
  modify_cpu (set_sie (has x SSTATUS_SIE)).

(** The accessors of the registers a trap uses, on the hart that runs. *)
Definition r_sip : K Z := r_csr CSsip.
Definition r_sepc : K Z := r_csr CSsepc.
Definition r_stvec : K Z := r_csr CSstvec.
Definition r_satp : K Z := r_csr CSsatp.
Definition r_scause : K Z := r_csr CSscause.
Definition r_stval : K Z := r_csr CSstval.
Definition w_sip (x : Z) : K unit := w_csr CSsip x.
Definition w_sepc (x : Z) : K unit := w_csr CSsepc x.
Definition w_stvec (x : Z) : K unit := w_csr CSstvec x.
Definition w_satp (x : Z) : K unit := w_csr CSsatp x.

(** Those that [start] uses, in machine mode. *)
Definition r_mstatus (h : nat) : K Z := r_hcsr h CSmstatus.
Definition r_mie (h : nat) : K Z := r_hcsr h CSmie.
Definition r_medeleg (h : nat) : K Z := r_hcsr h CSmedeleg.
Definition r_mideleg (h : nat) : K Z := r_hcsr h CSmideleg.
Definition r_sie (h : nat) : K Z := r_hcsr h CSsie.
Definition w_mstatus (h : nat) (x : Z) : K unit := w_hcsr h CSmstatus x.
Definition w_mepc (h : nat) (x : Z) : K unit := w_hcsr h CSmepc x.
Definition w_mie (h : nat) (x : Z) : K unit := w_hcsr h CSmie x.
Definition w_medeleg (h : nat) (x : Z) : K unit := w_hcsr h CSmedeleg x.
Definition w_mideleg (h : nat) (x : Z) : K unit := w_hcsr h CSmideleg x.
Definition w_mtvec (h : nat) (x : Z) : K unit := w_hcsr h CSmtvec x.
Definition w_pmpcfg0 (h : nat) (x : Z) : K unit := w_hcsr h CSpmpcfg0 x.
Definition w_pmpaddr0 (h : nat) (x : Z) : K unit := w_hcsr h CSpmpaddr0 x.
Definition w_mscratch (h : nat) (x : Z) : K unit := w_hcsr h CSmscratch x.
Definition w_sie (h : nat) (x : Z) : K unit := w_hcsr h CSsie x.

(** ** kernel/memlayout.h, interrupt controller and timer *)

Definition UART0_IRQ : Z := 10.
Definition VIRTIO0_IRQ : Z := 1.
Definition CLINT : Z := 0x2000000.
Definition CLINT_MTIMECMP (hartid : Z) : Z := CLINT + 0x4000 + 8 * hartid.
Definition CLINT_MTIME : Z := CLINT + 0xBFF8.
Definition PLIC_SENABLE (hart : Z) : Z := PLIC + 0x2080 + hart * 0x100.
Definition PLIC_SPRIORITY (hart : Z) : Z := PLIC + 0x201000 + hart * 0x2000.
Definition PLIC_SCLAIM (hart : Z) : Z := PLIC + 0x201004 + hart * 0x2000.

Section trap.
Context `{Dk : Disk, D : Devices, L : Linker}.

Definition hart : K Z := let! id := cpuid in kret (Z.of_nat id).

(** ** kernel/plic.c *)

Definition plicinit : K unit :=
  do! mmio_write (PLIC + UART0_IRQ * 4) 1;
  mmio_write (PLIC + VIRTIO0_IRQ * 4) 1.

Definition plicinithart : K unit :=
  let! h := hart in
  do! mmio_write (PLIC_SENABLE h) (Z.lor (Z.shiftl 1 UART0_IRQ) (Z.shiftl 1 VIRTIO0_IRQ));
  mmio_write (PLIC_SPRIORITY h) 0.

Definition plic_claim : K Z :=
  let! h := hart in
  let! irq := mmio_read u32 (PLIC_SCLAIM h) in
  kret (s32 irq).

Definition plic_complete (irq : Z) : K unit :=
  let! h := hart in
  mmio_write (PLIC_SCLAIM h) (u32 irq).

(** ** kernel/trap.c *)

Definition trapinit : K unit := initlock LKticks.
Definition trapinithart : K unit := w_stvec sym_kernelvec.

Definition clockintr : K unit :=
  do! acquire LKticks;
  do! modify (fun s => set_ticks (u32 (k_ticks s + 1)) s);
  do! wakeup CHticks;
  release LKticks.

Definition devintr : K Z :=
  let! scause := r_scause in
  if has scause 0x8000000000000000 && (Z.land scause 0xff =? 9) then
    let! irq := plic_claim in
    do! (if irq =? UART0_IRQ then uartintr
         else if irq =? VIRTIO0_IRQ then virtio_disk_intr
         else if negb (irq =? 0) then
           printf (bytes_of "unexpected interrupt irq=%d" ++ [newline]) [Parg irq]
         else kret tt);
    do! if! negb (irq =? 0) then plic_complete irq;
    kret 1
  else if scause =? 0x8000000000000001 then
    let! id := cpuid in
    do! if! (id =? 0)%nat then clockintr;
    let! sip := r_sip in
    do! w_sip (Z.land sip (Z.lnot 2));
    kret 2
  else kret 0.

(** The value passed to [userret]. *)
Definition usertrapret : K Z :=
  let! p := curproc in
  do! intr_off;
  do! w_stvec (TRAMPOLINE + sym_uservec);
  let! satp := r_satp in
  do! tf_store p tf_kernel_satp satp;
  let! kstack := gets (fun s => p_kstack (proc_at s p)) in
  do! tf_store p tf_kernel_sp (kstack + PGSIZE);
  do! tf_store p tf_kernel_trap sym_usertrap;
  let! tp := gets (fun s => Z.of_nat (k_tp s)) in
  do! tf_store p tf_kernel_hartid tp;
  let! x := r_sstatus in
  let x := Z.land x (Z.lnot SSTATUS_SPP) in
  let x := Z.lor x SSTATUS_SPIE in
  do! w_sstatus x;
  let! epc := tf_load p tf_epc in
  do! w_sepc epc;
  let! pt := gets (fun s => p_pagetable (proc_at s p)) in
  kret (MAKE_SATP pt).

Definition usertrap : K Z :=
  let! sstatus := r_sstatus in
  if has sstatus SSTATUS_SPP then panic "usertrap: not from user mode" else
  do! w_stvec sym_kernelvec;
  let! p := curproc in
  let! sepc := r_sepc in
  do! tf_store p tf_epc sepc;
  let! scause := r_scause in
  let! which_dev :=
    (if scause =? 8 then
       let! k := killed p in
       do! if! negb (k =? 0) then exit (-1);
       let! epc := tf_load p tf_epc in
       do! tf_store p tf_epc (epc + 4);
       do! intr_on;
       do! syscall;
       kret 0
     else
       let! which_dev := devintr in
       do! if! which_dev =? 0 then
         (let! scause := r_scause in
          let! pid := gets (fun s => p_pid (proc_at s p)) in
          do! printf (bytes_of "usertrap(): unexpected scause %p pid=%d" ++ [newline])
                [Parg scause; Parg pid];
          let! sepc := r_sepc in
          let! stval := r_stval in
          do! printf (bytes_of "            sepc=%p stval=%p" ++ [newline]) [Parg sepc; Parg stval];
          setkilled p);
       kret which_dev) in
  let! k := killed p in
  do! if! negb (k =? 0) then exit (-1);
  do! if! which_dev =? 2 then yield;
  usertrapret.

Definition kerneltrap : K unit :=
  let! sepc := r_sepc in
  let! sstatus := r_sstatus in
  let! scause := r_scause in
  if negb (has sstatus SSTATUS_SPP) then panic "kerneltrap: not from supervisor mode" else
  let! on := intr_get in
  if (on : bool) then panic "kerneltrap: interrupts enabled" else
  let! which_dev := devintr in
  if which_dev =? 0 then
    do! printf (bytes_of "scause %p" ++ [newline]) [Parg scause];
    let! sepc := r_sepc in
    let! stval := r_stval in
    do! printf (bytes_of "sepc=%p stval=%p" ++ [newline]) [Parg sepc; Parg stval];
    panic "kerneltrap"
  else
  let! p := (if which_dev =? 2 then myproc else kret None) in
  do! match p with
      | Some _ =>
        let! q := curproc in
        let! st := gets (fun s => p_state (proc_at s q)) in
        if! bool_decide (st = RUNNING) then yield
      | None => kret tt
      end;
  do! w_sepc sepc;
  w_sstatus sstatus.

(** ** [forkret] of proc.c *)

Definition forkret : K Z :=
  let! p := curproc in
  do! release (LKproc p);
  let! first := gets (fun s => k_first s) in
  do! if! first then
    (do! modify (set_first false);
     fsinit ROOTDEV);
  usertrapret.

(** ** [kvminithart] of vm.c *)

Definition kvminithart : K unit :=
  let! pt := gets (fun s => k_kpagetable s) in
  w_satp (MAKE_SATP pt).

(** ** kernel/start.c; [id] is the hart number in [mhartid] *)

Definition timerinit (id : nat) : K unit :=
  let interval := 1000000 in
  let! mtime := mmio_read u64 CLINT_MTIME in
  do! mmio_write (CLINT_MTIMECMP (Z.of_nat id)) (u64 (mtime + interval));
  let scratch := sym_scratch id in
  do! store64 (scratch + 8 * 3) (CLINT_MTIMECMP (Z.of_nat id));
  do! store64 (scratch + 8 * 4) interval;
  do! w_mscratch id scratch;
  do! w_mtvec id sym_timervec;
  let! mstatus := r_mstatus id in
  do! w_mstatus id (Z.lor mstatus MSTATUS_MIE);
  let! mie := r_mie id in
  w_mie id (Z.lor mie MIE_MTIE).

Definition start (id : nat) : K unit :=
  let! x := r_mstatus id in
  let x := Z.land x (Z.lnot MSTATUS_MPP_MASK) in
  let x := Z.lor x MSTATUS_MPP_S in
  do! w_mstatus id x;
  do! w_mepc id sym_main;
  do! w_hcsr id CSsatp 0;
  do! w_medeleg id 0xffff;
  do! w_mideleg id 0xffff;
  let! sie := r_sie id in
  do! w_sie id (Z.lor (Z.lor (Z.lor sie SIE_SEIE) SIE_STIE) SIE_SSIE);
  do! w_pmpaddr0 id 0x3fffffffffffff;
  do! w_pmpcfg0 id 0xf;
  do! timerinit id;
  modify (set_tp id).

(** ** kernel/main.c *)

(** [while(started == 0) ;] spins until hart 0 is done. *)
Definition main (rounds : nat) : K unit :=
  let! id := cpuid in
  do! (if (id =? 0)%nat then
         do! consoleinit;
         do! printfinit;
         do! printf [newline] [];
         do! printf (bytes_of "xv6 kernel is booting" ++ [newline]) [];
         do! printf [newline] [];
         do! kinit;
         do! kvminit;
         do! kvminithart;
         do! procinit;
         do! trapinit;
         do! trapinithart;
         do! plicinit;
         do! plicinithart;
         do! binit;
         do! iinit;
         do! fileinit;
         do! virtio_disk_init;
         do! userinit;
         modify (set_started true)
       else
         let! started := gets (fun s => k_started s) in
         if negb started then hang else
         let! id := hart in
         do! printf (bytes_of "hart %d starting" ++ [newline]) [Parg id];
         do! kvminithart;
         do! trapinithart;
         plicinithart);
  scheduler rounds.

End trap.
