(* ===== verification/Preempt.v ===== *)
(** * The timer interrupt, kernel/trap.c

    [clockintr], [devintr] and [kerneltrap] when the timer interrupts kernel
    code: the thread gives up the CPU and is later resumed, on any hart, with
    the trap registers it was interrupted with. *)

From S2P Require Import Prelude Param Mem CString Kernel Spinlock Kalloc Sched Sleeplock Vm PageTable UserCopy Uart Printf Bio Log Fs Console Pipe File Proc Spawn Exec Syscall Virtio Trap.
Open Scope Z_scope.

Definition csr_at (s : kst) (c : csr) : Z := default 0 (k_csrs s !! (k_tp s, c)).

(** [scause] of a supervisor software interrupt, which the timer handler in
    machine mode raises. *)
Definition timer_cause : Z := 0x8000000000000001.

Section preempt.
Context `{Dk : Disk, D : Devices, L : Linker}.

Definition ticked (s : kst) : kst :=
  set_ticks (u32 (k_ticks s + 1)) (set_procs (imap (woken CHticks (c_proc (mycpu s))) (k_procs s)) (norm s)).

Lemma clockintr_run s : sched_ok s -> is_free LKticks s -> clockintr s = Ret tt (ticked s).
Proof.
  intros Hok Hf. pose proof (so_cpu s Hok) as Hc. unfold clockintr. krun (acquire_run LKticks s Hc Hf). rewrite kbind_modify.
  erewrite obind_Ret; [|apply (wakeup_acquired CHticks s); try done].
  - rewrite (release_after LKticks s) by done. reflexivity.
  - intros i Hi. unfold is_free. simpl. rewrite lookup_insert_ne by done. by apply Hok.
Qed.

(** After [devintr]: hart 0 keeps the time, and the interrupt is acknowledged. *)
Definition timed (s : kst) : kst :=
  set_csrs (<[(k_tp s, CSsip) := Z.land (csr_at s CSsip) (Z.lnot 2)]> (k_csrs s)) (if (k_tp s =? 0)%nat then ticked s else s).

Lemma devintr_run s : sched_ok s -> is_free LKticks s -> csr_at s CSscause = timer_cause -> devintr s = Ret 2 (timed s).
Proof.
  intros Hok Hf Hs. unfold devintr, r_scause, r_csr. rewrite kbind_gets. fold (csr_at s CSscause). rewrite Hs.
  change (has timer_cause 0x8000000000000000 && (Z.land timer_cause 0xff =? 9)) with false.
  change (timer_cause =? 0x8000000000000001) with true. unfold cpuid. rewrite kbind_gets. unfold timed.
  assert (R : (if! (k_tp s =? 0)%nat then clockintr) s = Ret tt (if (k_tp s =? 0)%nat then ticked s else s)).
  { destruct (k_tp s =? 0)%nat; [by apply clockintr_run|done]. }
  krun R. by destruct (k_tp s =? 0)%nat.
Qed.

(** The scheduling state after [devintr]. *)
Lemma timed_procs s p x : sched_ok s -> c_noff (mycpu s) = 0 -> c_sie (mycpu s) = false -> c_proc (mycpu s) = Some p -> k_procs s !! p = Some x ->
  sched_ok (timed s) /\ k_procs (timed s) !! p = Some x /\
  c_proc (mycpu (timed s)) = Some p /\ c_noff (mycpu (timed s)) = 0 /\ c_sie (mycpu (timed s)) = false.
Proof.
  intros Hok Hn Hs Hp Hx. pose proof (so_cpu s Hok) as (Htp & _ & _). unfold timed. destruct (k_tp s =? 0)%nat; [|by destruct Hok].
  assert (Hm : mycpu (ticked s) = mycpu (norm s)) by reflexivity.
  rewrite (mycpu_norm s Htp) in Hm.
  split; [|split; [|change (mycpu (set_csrs _ (ticked s))) with (mycpu (ticked s)); rewrite Hm; done]].
  - destruct (sched_ok_norm s Hok) as [H1 H2 H3]. split; [exact H1|exact H2|]. simpl. by rewrite length_imap.
  - simpl. rewrite list_lookup_imap, Hx. simpl. unfold woken. rewrite bool_decide_eq_false_2; [done|]. intros E. by apply E.
Qed.

Lemma timed_others s p q y : c_proc (mycpu s) = Some p -> q <> p -> k_procs s !! q = Some y ->
  k_procs (timed s) !! q =
    Some (if decide (k_tp s = 0%nat /\ p_state y = SLEEPING /\ p_chan y = Some CHticks) then set_state RUNNABLE y else y).
Proof.
  intros Hp Hq Hy. unfold timed. destruct (Nat.eqb_spec (k_tp s) 0) as [E|E].
  - simpl. rewrite list_lookup_imap, Hy, Hp. simpl. unfold woken. rewrite (bool_decide_eq_true_2 (Some p <> Some q)) by congruence. simpl.
    rewrite <- bool_decide_and. destruct (decide _) as [[_ H]|H].
    + by rewrite bool_decide_eq_true_2.
    + rewrite bool_decide_eq_false_2; [done|]. intros H'. by apply H.
  - simpl. rewrite Hy, decide_False; [done|]. by intros [? _].
Qed.

(** [sstatus] as [r_sstatus] reads it when interrupts are off. *)
Definition status_off (s : kst) : Z := Z.lor (Z.land (csr_at s CSsstatus) (Z.lnot SSTATUS_SIE)) 0.

Lemma r_sstatus_run s : c_sie (mycpu s) = false -> r_sstatus s = Ret (status_off s) s.
Proof. intros Hs. unfold r_sstatus, r_csr, intr_get. rewrite !kbind_gets. by rewrite Hs. Qed.

Lemma status_off_sie s : has (status_off s) SSTATUS_SIE = false.
Proof.
  unfold has, status_off. rewrite Z.lor_0_r, <- Z.land_assoc, (Z.land_comm (Z.lnot _)), Z.land_lnot_diag, Z.land_0_r. done.
Qed.

(** What is left of [kerneltrap] when [swtch] returns: the trap registers of
    the hart it runs on now are those it was interrupted with. *)
Lemma kerneltrap_resume p sepc st s :
  (k_tp s < length (k_cpus s))%nat -> c_noff (mycpu s) = 1 -> c_sie (mycpu s) = false -> is_held (LKproc p) s ->
  has st SSTATUS_SIE = false ->
  exists s', (do! yield_tail p false; do! w_sepc sepc; w_sstatus st) s = Ret tt s' /\
    k_tp s' = k_tp s /\ csr_at s' CSsepc = sepc /\ csr_at s' CSsstatus = st /\
    c_sie (mycpu s') = false /\ c_noff (mycpu s') = 0 /\ is_free (LKproc p) s' /\ k_procs s' = k_procs s.
Proof.
  intros Htp Hn Hs Hh Hst. pose proof (yield_tail_at p false s (mycpu s) (k_procs s) (k_locks s) Htp Hn Hs Hh) as E. rewrite at_self in E by done.
  krun E. unfold w_sepc, w_csr at 1. rewrite kbind_modify. unfold w_sstatus, w_csr. rewrite kbind_modify. rewrite Hst.
  set (c := mkcpu _ 0 false false). set (l := <[LKproc p := _]> _).
  set (cs := <[(k_tp s, CSsstatus) := st]> (<[(k_tp s, CSsepc) := sepc]> (k_csrs s))).
  change (set_csrs _ _) with (at_ c (k_procs s) l (set_csrs cs s)).
  rewrite (modify_cpu_at (set_csrs cs s) Htp). eexists. split; [reflexivity|].
  split; [done|]. unfold csr_at. change (k_csrs _) with cs. change (k_tp (at_ _ _ _ _)) with (k_tp s). unfold cs.
  rewrite lookup_insert_ne by congruence. rewrite !lookup_insert_eq. split; [done|]. split; [done|].
  rewrite mycpu_at by done. split; [done|]. split; [done|]. split; [apply lookup_insert_eq|done].
Qed.

(** C22: the timer preempts kernel code safely.  A timer interrupt in the kernel,
    with interrupts off as the hardware leaves them, counts a tick and wakes
    the sleepers on the clock if it is hart 0's, clears the pending bit, makes
    the running process runnable and gives up the CPU.  Whatever other threads
    do to the trap registers, and on whatever hart the process resumes, it
    returns to the instruction it was interrupted at with the status it had,
    with interrupts off and its lock free. *)
Theorem kerneltrap_preempts s p x :
  sched_ok s -> c_noff (mycpu s) = 0 -> c_sie (mycpu s) = false -> c_proc (mycpu s) = Some p ->
  k_procs s !! p = Some x -> p_state x = RUNNING -> is_free LKticks s ->
  csr_at s CSscause = timer_cause -> has (status_off s) SSTATUS_SPP = true ->
  exists s1 k, kerneltrap s = Swtch s1 k /\
    k_ticks s1 = (if (k_tp s =? 0)%nat then u32 (k_ticks s + 1) else k_ticks s) /\
    csr_at s1 CSsip = Z.land (csr_at s CSsip) (Z.lnot 2) /\
    (forall q y, q <> p -> k_procs s !! q = Some y -> k_procs s1 !! q =
       Some (if decide (k_tp s = 0%nat /\ p_state y = SLEEPING /\ p_chan y = Some CHticks) then set_state RUNNABLE y else y)) /\
    k_procs s1 !! p = Some (set_state RUNNABLE x) /\ is_held (LKproc p) s1 /\
    forall s2, (k_tp s2 < length (k_cpus s2))%nat -> c_noff (mycpu s2) = 1 -> c_sie (mycpu s2) = false -> is_held (LKproc p) s2 ->
      exists s3, k s2 = Ret tt s3 /\ k_tp s3 = k_tp s2 /\ csr_at s3 CSsepc = csr_at s CSsepc /\ csr_at s3 CSsstatus = status_off s /\
        c_sie (mycpu s3) = false /\ c_noff (mycpu s3) = 0 /\ is_free (LKproc p) s3 /\ k_procs s3 = k_procs s2.
Proof.
  intros Hok Hn Hs Hp Hx Hrun Hf Hcause Hspp. unfold kerneltrap, r_sepc, r_scause. unfold r_csr at 1. rewrite kbind_gets. fold (csr_at s CSsepc).
  krun (r_sstatus_run s Hs). unfold r_csr at 1. rewrite kbind_gets, Hspp. cbn [negb]. unfold intr_get. rewrite kbind_gets, Hs.
  krun (devintr_run s Hok Hf Hcause). cbn [Z.eqb Pos.eqb].
  destruct (timed_procs s p x Hok Hn Hs Hp Hx) as (Hok' & Hx' & Hp' & Hn' & Hs'). pose proof (so_cpu _ Hok') as Hc'.
  krun (myproc_run (timed s) Hc'). rewrite Hp'. set (t := norm (timed s)).
  assert (Hnt : norm t = t) by (by apply norm_norm).
  pose proof (so_cpu _ (sched_ok_norm _ Hok')) as Hct. fold t in Hct. pose proof Hct as (Htp & _ & _).
  assert (Hm : mycpu t = set_intena false (mycpu (timed s))) by (unfold t; rewrite mycpu_norm by apply Hc'; by rewrite Hn', Hs').
  assert (Hpt : c_proc (mycpu t) = Some p) by (rewrite Hm; exact Hp').
  pose proof (yield_at p t (mycpu t) (k_procs t) (k_locks t) x Htp) as Y. rewrite at_self in Y by done.
  assert (Hcs : c_sie (mycpu t) = false) by (rewrite Hm; exact Hs').
  rewrite Hcs in Y. specialize (Y ltac:(rewrite Hm; exact Hn') Hpt Hx' (so_free _ Hok' p ltac:(rewrite <- (so_procs _ Hok'); by eapply lookup_lt_Some))).
  assert (B : (let! q := curproc in let! st := gets (fun s => p_state (proc_at s q)) in if! bool_decide (st = RUNNING) then yield) t = yield t).
  { krun (curproc_norm t p Hct Hpt). rewrite Hnt, kbind_gets, (proc_at_lookup t p x Hx'), Hrun. reflexivity. }
  unfold kbind at 1. rewrite B, Y. cbn [obind]. do 2 eexists. split; [reflexivity|].
  assert (T : k_tp (timed s) = k_tp s) by (unfold timed; by destruct (k_tp s =? 0)%nat).
  split; [unfold t, timed; by destruct (k_tp s =? 0)%nat|].
  split; [unfold csr_at, t, timed; destruct (k_tp s =? 0)%nat; simpl; by rewrite lookup_insert_eq|].
  split; [|split; [apply list_lookup_insert_eq; by eapply lookup_lt_Some|split; [apply lookup_insert_eq|]]].
  - intros q y Hq Hy. simpl. rewrite list_lookup_insert_ne by done. exact (timed_others s p q y Hp Hq Hy).
  - intros s2 H1 H2 H3 H4. exact (kerneltrap_resume p (csr_at s CSsepc) (status_off s) s2 H1 H2 H3 H4 (status_off_sie s)).
Qed.
End preempt.

#[local] Existing Instance mem_disk.
#[local] Existing Instance demo_linker.
#[local] Instance idle_devices : Devices := fun _ _ => 0x20.

(** [demo_sched], interrupted by the timer. *)
Definition demo_tick : kst :=
  set_csrs (<[(0%nat, CSscause) := timer_cause]> (<[(0%nat, CSsstatus) := SSTATUS_SPP]> (<[(0%nat, CSsepc) := 0x80000100]> ∅)))
    (set_locks (<[LKticks := lock_free]> (k_locks demo_sched)) (put_cpu (mkcpu (Some 1%nat) 0 false false) demo_sched)).

Lemma kerneltrap_preempts_witness :
  exists s1 k, kerneltrap demo_tick = Swtch s1 k /\ k_ticks s1 = 1 /\ p_state (proc_at s1 0) = RUNNABLE /\ p_state (proc_at s1 1) = RUNNABLE.
Proof.
  destruct (kerneltrap_preempts demo_tick 1 (set_state RUNNING proc0)) as (s1 & k & R & Ht & _ & Ho & Hp & _).
  - split.
    + split; [simpl; lia|]. simpl. split; [lia|lia].
    + intros i Hi. unfold is_free. do 64 (destruct i as [|i]; [reflexivity|]). unfold NPROC in Hi. lia.
    + reflexivity.
  - reflexivity.
  - reflexivity.
  - reflexivity.
  - reflexivity.
  - reflexivity.
  - reflexivity.
  - vm_compute. reflexivity.
  - vm_compute. reflexivity.
  - exists s1, k. split; [exact R|]. split; [rewrite Ht; reflexivity|]. unfold proc_at.
    split; [rewrite (Ho 0%nat _ ltac:(lia) eq_refl); reflexivity|by rewrite Hp].
Defined.
