(* ===== verification/User.v ===== *)
(** * User programs as interaction trees

    A user program is its own code, its own memory and the system calls it
    makes.  A system call is an event of [sysE], one per prototype of
    user/user.h; what the kernel copies from user memory travels with the
    event and what it copies back comes with the answer, so a program is a
    tree over the answers the kernel may give.  A loop of the source is
    [uloop], which is [ITree.iter]: no fuel is needed, and that a loop ends
    is something the theorems show.

    [os] is a kernel as one process sees it; [runs] says that a program, from
    a given memory and kernel, comes to an end and how.  Its rules follow the
    program text, so the proofs about programs do not mention trees. *)

From S2P Require Import Prelude Param Mem CString.
From ITree Require Import ITree ITreeFacts Events.State Events.StateFacts.
Open Scope Z_scope.

(** ** System calls *)

(** Pointers that the model keeps apart: an address of the program's memory,
    or a string constant, whose place in memory no program depends on. *)
Inductive cptr : Type := At (a : Z) | Lit (l : list Z).

(** The prototypes of user.h.  [Exec] answers [None] when it succeeds: the
    caller's image is gone.  [Sysinfo] has the address, which a test makes
    invalid, and answers with the structure copied there. *)
Variant sysE : Type -> Type :=
| Fork : sysE Z
| Wait : sysE (Z * Z)
| Pipe : sysE (Z * (Z * Z))
| Write (fd : Z) (bs : list Z) : sysE Z
| Read (fd n : Z) : sysE (Z * list Z)
| Close (fd : Z) : sysE Z
| Kill (pid : Z) : sysE Z
| Exec (path : list Z) (argv : list (list Z)) : sysE (option Z)
| Open (path : list Z) (mode : Z) : sysE Z
| Mknod (path : list Z) (major minor : Z) : sysE Z
| Unlink (path : list Z) : sysE Z
| Fstat (fd : Z) : sysE (Z * list Z)
| Link (old new : list Z) : sysE Z
| Mkdir (path : list Z) : sysE Z
| Chdir (path : list Z) : sysE Z
| Dup (fd : Z) : sysE Z
| Getpid : sysE Z
| Sbrk (n : Z) : sysE Z
| Sleep (n : Z) : sysE Z
| Uptime : sysE Z
| Trace (mask : Z) : sysE Z
| Sysinfo (a : Z) : sysE (Z * list Z).

(** ** Programs *)

(** How a piece of program ends: it goes on with a value, or the process
    has called [exit], or [exec] has replaced it. *)
Inductive result (A : Type) : Type :=
| Done (a : A) (m : memory)
| Exited (status : Z)
| Replaced.
Arguments Done {A} a m.
Arguments Exited {A} status.
Arguments Replaced {A}.

Definition U (A : Type) : Type := memory -> itree sysE (result A).

Definition uret {A} (a : A) : U A := fun m => Ret (Done a m).

Definition ubind {A B} (t : U A) (f : A -> U B) : U B := fun m =>
  ITree.bind (t m) (fun r =>
    match r with
    | Done a m => f a m
    | Exited n => Ret (Exited n)
    | Replaced => Ret Replaced
    end).

Definition sys {A} (e : sysE A) : U A := fun m =>
  ITree.bind (ITree.trigger e) (fun a => Ret (Done a m)).

Definition getm : U memory := fun m => Ret (Done m m).
Definition putm (m : memory) : U unit := fun _ => Ret (Done tt m).
Definition uexit {A} (status : Z) : U A := fun _ => Ret (Exited status).
Definition replaced {A} : U A := fun _ => Ret Replaced.

(** [uloop body i]: the body answers [inl] with the variables of the next
    turn or [inr] with the value the loop ends with. *)
Definition uloop {I A} (body : I -> U (I + A)) (i : I) : U A := fun m =>
  ITree.iter (fun im : I * memory =>
    ITree.bind (body im.1 im.2) (fun r =>
      match r with
      | Done (inl i) m => Ret (inl (i, m))
      | Done (inr a) m => Ret (inr (Done a m))
      | Exited n => Ret (inr (Exited n))
      | Replaced => Ret (inr Replaced)
      end)) (i, m).

Declare Scope user_scope.
Delimit Scope user_scope with user.
Notation "'let!' x := t 'in' k" := (ubind t (fun x => k))
  (at level 10, x pattern, t at level 100, k at level 200) : user_scope.
Notation "'do!' t ; k" := (ubind t (fun _ => k))
  (at level 10, t at level 100, k at level 200) : user_scope.
Open Scope user_scope.

Definition next {I A} (i : I) : U (I + A) := uret (inl i).
Definition stop {I A} (a : A) : U (I + A) := uret (inr a).

(** [for (i = ..; i < ..; i++) f(x_i)] over the elements of a list. *)
Fixpoint ufor {A} (l : list A) (f : A -> U unit) : U unit :=
  match l with
  | [] => uret tt
  | x :: l => do! f x; ufor l f
  end.

Definition load8 (a : Z) : U Z := let! m := getm in uret (ld8 m a).
Definition store8 (a v : Z) : U unit := let! m := getm in putm (st8 m a v).
Definition load (n : nat) (a : Z) : U Z := let! m := getm in uret (ld n m a).
Definition store (n : nat) (a v : Z) : U unit := let! m := getm in putm (st n m a v).

(** A string argument as the kernel fetches it: [argstr] looks at no more
    than [MAXPATH] bytes, and a string that fills them is refused. *)
Definition path_bytes (m : memory) (p : cptr) : list Z :=
  match p with At a => cstr m a (Z.to_nat MAXPATH) | Lit l => l end.

Definition spath (p : cptr) : U (list Z) := let! m := getm in uret (path_bytes m p).

Definition read (fd a n : Z) : U Z :=
  let! (r, bs) := sys (Read fd n) in
  let! m := getm in
  do! putm (st_bytes m a (take (Z.to_nat n) bs));
  uret r.

Definition write (fd : Z) (p : cptr) (n : Z) : U Z :=
  let! m := getm in
  sys (Write fd (match p with
                 | At a => ld_bytes m a (Z.to_nat n)
                 | Lit l => take (Z.to_nat n) l
                 end)).

Definition open (p : cptr) (mode : Z) : U Z := let! s := spath p in sys (Open s mode).

Definition exec (p : cptr) (argv : list cptr) : U Z :=
  let! m := getm in
  let! r := sys (Exec (path_bytes m p) ((fun a =>
    match a with At a => cstr m a (Z.to_nat PGSIZE) | Lit l => l end) <$> argv)) in
  match r with Some r => uret r | None => replaced end.

(** ** Kernels, as one process sees them *)

Definition os (W : Type) : Type := forall T, sysE T -> W -> W * T.

Definition handler {W} (h : os W) : sysE ~> Monads.stateT W (itree void1) :=
  fun T e w => Ret (h T e w).

(** From memory [m] and kernel state [w] the program ends with [r] and the
    kernel in state [w']. *)
Definition runs {W A} (h : os W) (t : U A) (m : memory) (w : W) (r : result A) (w' : W) : Prop :=
  eutt eq (interp_state (handler h) (t m) w) (Ret (w', r)).

Section rules.
Context {W : Type} (h : os W).

Lemma runs_ret {A} (a : A) m w : runs h (uret a) m w (Done a m) w.
Proof. unfold runs, uret. by rewrite interp_state_ret. Qed.
Lemma runs_getm m w : runs h getm m w (Done m m) w.
Proof. unfold runs, getm. by rewrite interp_state_ret. Qed.
Lemma runs_putm m' m w : runs h (putm m') m w (Done tt m') w.
Proof. unfold runs, putm. by rewrite interp_state_ret. Qed.
Lemma runs_exit {A} n m w : runs h (uexit (A := A) n) m w (Exited n) w.
Proof. unfold runs, uexit. by rewrite interp_state_ret. Qed.
Lemma runs_replaced {A} m w : runs h (replaced (A := A)) m w Replaced w.
Proof. unfold runs, replaced. by rewrite interp_state_ret. Qed.

Lemma runs_sys {A} (e : sysE A) m w w' a :
  h A e w = (w', a) -> runs h (sys e) m w (Done a m) w'.
Proof.
  intros E. unfold runs, sys. rewrite interp_state_bind, interp_state_trigger. unfold handler.
  rewrite E, bind_ret_l. cbn. by rewrite interp_state_ret.
Qed.

Lemma runs_bind {A B} (t : U A) (f : A -> U B) m w a m1 w1 r w2 :
  runs h t m w (Done a m1) w1 -> runs h (f a) m1 w1 r w2 -> runs h (ubind t f) m w r w2.
Proof.
  unfold runs, ubind. intros H1 H2. rewrite interp_state_bind, H1, bind_ret_l. exact H2.
Qed.

Lemma runs_bind_exit {A B} (t : U A) (f : A -> U B) m w n w1 :
  runs h t m w (Exited n) w1 -> runs h (ubind t f) m w (Exited n) w1.
Proof.
  unfold runs, ubind. intros H. rewrite interp_state_bind, H, bind_ret_l. cbn.
  by rewrite interp_state_ret.
Qed.

Lemma runs_bind_replaced {A B} (t : U A) (f : A -> U B) m w w1 :
  runs h t m w Replaced w1 -> runs h (ubind t f) m w Replaced w1.
Proof.
  unfold runs, ubind. intros H. rewrite interp_state_bind, H, bind_ret_l. cbn.
  by rewrite interp_state_ret.
Qed.

Lemma runs_loop_next {I A} (body : I -> U (I + A)) i m w i1 m1 w1 r w2 :
  runs h (body i) m w (Done (inl i1) m1) w1 -> runs h (uloop body i1) m1 w1 r w2 ->
  runs h (uloop body i) m w r w2.
Proof.
  unfold runs, uloop. intros H1 H2. rewrite unfold_iter, interp_state_bind, interp_state_bind. cbn [fst snd].
  rewrite H1, bind_ret_l. cbn. rewrite interp_state_ret, bind_ret_l. cbn.
  rewrite interp_state_tau, tau_eutt. exact H2.
Qed.

Lemma runs_loop_stop {I A} (body : I -> U (I + A)) i m w a m1 w1 :
  runs h (body i) m w (Done (inr a) m1) w1 -> runs h (uloop body i) m w (Done a m1) w1.
Proof.
  unfold runs, uloop. intros H1. rewrite unfold_iter, interp_state_bind, interp_state_bind. cbn [fst snd].
  rewrite H1, bind_ret_l. cbn. rewrite interp_state_ret, bind_ret_l. cbn. by rewrite interp_state_ret.
Qed.

Lemma runs_loop_exit {I A} (body : I -> U (I + A)) i m w n w1 :
  runs h (body i) m w (Exited n) w1 -> runs h (uloop body i) m w (Exited n) w1.
Proof.
  unfold runs, uloop. intros H1. rewrite unfold_iter, interp_state_bind, interp_state_bind. cbn [fst snd].
  rewrite H1, bind_ret_l. cbn. rewrite interp_state_ret, bind_ret_l. cbn. by rewrite interp_state_ret.
Qed.

(** A program has one way to end. *)
Lemma runs_det {A} (t : U A) m w r1 w1 r2 w2 :
  runs h t m w r1 w1 -> runs h t m w r2 w2 -> r1 = r2 /\ w1 = w2.
Proof.
  unfold runs. intros H1 H2. rewrite H1 in H2. apply eutt_inv_Ret in H2. by inversion H2.
Qed.

End rules.

(** ** Stepping through a program *)

Create HintDb urun.
#[export] Hint Resolve runs_ret runs_getm runs_putm runs_exit runs_replaced : urun.

(** Run the first statement of a program with a known rule; [ustep with H]
    uses [H]. *)
Ltac ustep := eapply runs_bind; [solve [eauto with urun]|]; cbv beta iota.
Tactic Notation "ustep" "with" uconstr(H) := eapply runs_bind; [eapply H|]; cbv beta iota.

Section steps.
Context {W : Type} (h : os W).

Lemma runs_load8 a m w : runs h (load8 a) m w (Done (ld8 m a) m) w.
Proof. unfold load8. ustep. eauto with urun. Qed.
Lemma runs_store8 a v m w : runs h (store8 a v) m w (Done tt (st8 m a v)) w.
Proof. unfold store8. ustep. eauto with urun. Qed.
Lemma runs_load n a m w : runs h (load n a) m w (Done (ld n m a) m) w.
Proof. unfold load. ustep. eauto with urun. Qed.
Lemma runs_store n a v m w : runs h (store n a v) m w (Done tt (st n m a v)) w.
Proof. unfold store. ustep. eauto with urun. Qed.
Lemma runs_next {I A} (i : I) m w : runs h (next (A := A) i) m w (Done (inl i) m) w.
Proof. apply runs_ret. Qed.
Lemma runs_stop {I A} (a : A) m w : runs h (stop (I := I) a) m w (Done (inr a) m) w.
Proof. apply runs_ret. Qed.
Lemma runs_spath p m w : runs h (spath p) m w (Done (path_bytes m p) m) w.
Proof. unfold spath. ustep. eauto with urun. Qed.

End steps.
#[export] Hint Resolve runs_load8 runs_store8 runs_load runs_store runs_next runs_stop runs_spath : urun.

(** ** Kernels that keep byte streams

    What programs that copy bytes rely on: a descriptor has bytes still to
    be read; [read] takes at least one of them, at most as many as were asked
    for, and answers 0 only at the end; [write] takes all the bytes it is
    given.  How many bytes each [read] takes is up to the kernel. *)

Class FileOs {W : Type} (h : os W) : Type := {
  pending : W -> Z -> list Z;
  written : W -> Z -> list Z;
  read_law : forall w fd n, 0 < n -> exists k w',
    h _ (Read fd n) w = (w', (Z.of_nat k, take k (pending w fd))) /\
    (k <= length (pending w fd))%nat /\ Z.of_nat k <= n /\
    (k = 0%nat -> pending w fd = []) /\
    (forall g, pending w' g = if g =? fd then drop k (pending w fd) else pending w g) /\
    (forall g, written w' g = written w g);
  write_law : forall w fd bs, exists w',
    h _ (Write fd bs) w = (w', Z.of_nat (length bs)) /\
    (forall g, written w' g = if g =? fd then written w fd ++ bs else written w g) /\
    (forall g, pending w' g = pending w g)
}.

(** Such a kernel: it hands out at most [chunk + 1] bytes at a time. *)
Record streams : Type := mkstreams {
  s_in : gmap Z (list Z);
  s_out : gmap Z (list Z);
  s_chunk : nat
}.

Definition stream_os : os streams := fun T e w =>
  match e in sysE T return streams * T with
  | Read fd n =>
    let l := default [] (s_in w !! fd) in
    let k := Nat.min (length l) (Nat.min (Z.to_nat n) (S (s_chunk w))) in
    (mkstreams (<[fd := drop k l]> (s_in w)) (s_out w) (s_chunk w), (Z.of_nat k, take k l))
  | Write fd bs =>
    (mkstreams (s_in w) (<[fd := default [] (s_out w !! fd) ++ bs]> (s_out w)) (s_chunk w),
     Z.of_nat (length bs))
  | Wait => (w, (-1, 0))
  | Pipe => (w, (-1, (0, 0)))
  | Exec _ _ => (w, Some (-1))
  | Fstat _ => (w, (-1, []))
  | Open _ _ => (w, 3)
  | Close _ => (w, 0)
  | Fork => (w, -1) | Kill _ => (w, -1) | Mknod _ _ _ => (w, -1) | Unlink _ => (w, -1)
  | Link _ _ => (w, -1) | Mkdir _ => (w, -1) | Chdir _ => (w, -1) | Dup _ => (w, -1)
  | Getpid => (w, 1) | Sbrk _ => (w, -1) | Sleep _ => (w, 0) | Uptime => (w, 0) | Trace _ => (w, 0)
  | Sysinfo _ => (w, (-1, []))
  end.

#[export, refine] Instance stream_os_files : FileOs stream_os := {|
  pending := fun w fd => default [] (s_in w !! fd);
  written := fun w fd => default [] (s_out w !! fd)
|}.
Proof.
  - intros w fd n Hn. set (l := default [] (s_in w !! fd)).
    set (k := Nat.min (length l) (Nat.min (Z.to_nat n) (S (s_chunk w)))).
    exists k, (mkstreams (<[fd := drop k l]> (s_in w)) (s_out w) (s_chunk w)).
    split; [done|]. split; [lia|]. split; [lia|]. split.
    { intros Hk. destruct (decide (length l = 0%nat)) as [E|E]; [by apply nil_length_inv|]. lia. }
    split; [|done]. intros g. simpl. destruct (Z.eqb_spec g fd) as [->|].
    + by rewrite lookup_insert_eq.
    + by rewrite lookup_insert_ne.
  - intros w fd bs. eexists. split; [done|]. split; [|done]. intros g. simpl.
    destruct (Z.eqb_spec g fd) as [->|].
    + by rewrite lookup_insert_eq.
    + by rewrite lookup_insert_ne.
Defined.
