(* ===== verification/Ulib.v ===== *)
(** * user/ulib.c and user/printf.c

    The C library that every user program is linked with.  Routines whose
    loop is counted are functions on memory; routines that look for the end
    of a string, and those that make system calls, are programs.  An [int]
    that counts the bytes of a string in memory does not overflow, as no
    process has that much memory. *)

From S2P Require Import Prelude Param Mem CString User.
From ITree Require Import ITree.
Open Scope Z_scope.
Open Scope user_scope.

Definition O_RDONLY : Z := 0x000.
Definition O_WRONLY : Z := 0x001.
Definition O_RDWR : Z := 0x002.
Definition O_CREATE : Z := 0x200.
Definition O_TRUNC : Z := 0x400.

(** A string constant, and one that ends a line. *)
Definition lit (s : string) : cptr := Lit (bytes_of s).
Definition line (s : string) : list Z := bytes_of s ++ [10].

(** ** ulib.c *)

Definition _main (main : U unit) : U unit := do! main; uexit 0.

(** [while(( *s++ = *t++) != 0);] *)
Definition strcpy (s t : Z) : U Z :=
  uloop (fun '(p, q) =>
    let! c := load8 q in
    do! store8 p c;
    if c =? 0 then stop s else next (p + 1, q + 1)) (s, t).

Definition strcmp (p q : Z) : U Z :=
  uloop (fun '(p, q) =>
    let! a := load8 p in
    let! b := load8 q in
    if negb (a =? 0) && (a =? b) then next (p + 1, q + 1) else stop (a - b)) (p, q).

Definition strlen (s : Z) : U Z :=
  uloop (fun n => let! c := load8 (s + n) in if c =? 0 then stop n else next (n + 1)) 0.

(** The source's loop is the kernel's. *)
Definition memset (m : memory) (dst c n : Z) : memory :=
  memset_loop m dst c 0 (Z.to_nat n).

Definition strchr (s c : Z) : U Z :=
  uloop (fun s =>
    let! b := load8 s in
    if b =? 0 then stop 0 else if b =? c then stop s else next (s + 1)) s.

(** [strchr] in a string constant, used as a truth value. *)
Definition strchr_lit (l : list Z) (c : Z) : bool := existsb (Z.eqb c) l.

Definition gets (buf max : Z) : U Z :=
  let! i := uloop (fun i =>
    if i + 1 <? max then
      let! (cc, bs) := sys (Read 0 1) in
      if cc <? 1 then stop i
      else
        let c := hd 0 bs in
        do! store8 (buf + i) c;
        if (c =? 10) || (c =? 13) then stop (i + 1) else next (i + 1)
    else stop i) 0 in
  do! store8 (buf + i) 0;
  uret buf.

(** The structure [st] is returned beside the result. *)
Definition stat (n : cptr) : U (Z * list Z) :=
  let! fd := open n O_RDONLY in
  if fd <? 0 then uret (-1, [])
  else
    let! (r, st) := sys (Fstat fd) in
    do! sys (Close fd);
    uret (r, st).

Definition isdigit (c : Z) : bool := (48 <=? c) && (c <=? 57).

Definition atoi (s : Z) : U Z :=
  uloop (fun '(s, n) =>
    let! c := load8 s in
    if isdigit c then next (s + 1, s32 (s32 (n * 10) + c - 48)) else stop n) (s, 0).

Definition memmove (m : memory) (vdst vsrc n : Z) : memory :=
  if vsrc >? vdst then copy_up m vdst vsrc (Z.to_nat n)
  else copy_down m (vdst + n) (vsrc + n) (Z.to_nat n).

(** The source's loop is the kernel's. *)
Definition memcmp (m : memory) (s1 s2 n : Z) : Z := memcmp_loop m s1 s2 (Z.to_nat n).

Definition memcpy (m : memory) (dst src n : Z) : memory := memmove m dst src (s32 n).

(** ** printf.c *)

Inductive uarg : Type := Unum (v : Z) | Ustr (s : option cptr).

Definition num_of (a : uarg) : Z := match a with Unum v => v | Ustr _ => 0 end.
Definition str_of (a : uarg) : option cptr := match a with Unum _ => None | Ustr s => s end.
(** [va_arg]; C leaves a call with too few arguments undefined, and the model
    then reads 0. *)
Definition va_arg (ap : list uarg) : uarg := hd (Unum 0) ap.

Definition digits : list Z := bytes_of "0123456789ABCDEF".
Definition digit (d : Z) : Z := default 0 (digits !! Z.to_nat d).

Definition putc (fd c : Z) : U unit := do! sys (Write fd [u8 c]); uret tt.

(** The digits stored in [buf], least significant first.  The source calls it
    with bases 10 and 16 only, so that a 32-bit number has at most 10 digits. *)
Fixpoint digits_of (fuel : nat) (x base : Z) : list Z :=
  match fuel with
  | O => []
  | S fuel =>
    digit (x mod base) :: (if x / base =? 0 then [] else digits_of fuel (x / base) base)
  end.

(** What is in [buf] when the number has been converted. *)
Definition printint_buf (xx base : Z) (sgn : bool) : list Z :=
  let neg := sgn && (xx <? 0) in
  let x := if neg then u32 (- xx) else u32 xx in
  digits_of 16 x base ++ (if neg then [45] else []).

Definition printint (fd xx base : Z) (sgn : bool) : U unit :=
  ufor (rev (printint_buf xx base sgn)) (putc fd).

Fixpoint printptr_loop (fd : Z) (n : nat) (x : Z) : U unit :=
  match n with
  | O => uret tt
  | S n =>
    do! putc fd (digit (Z.shiftr x (8 * 8 - 4)));
    printptr_loop fd n (u64 (Z.shiftl x 4))
  end.

Definition printptr (fd x : Z) : U unit :=
  do! putc fd 48;
  do! putc fd 120;
  printptr_loop fd (8 * 2) x.

(** [while( *s != 0) putc(fd, *s++)] *)
Definition putstr (fd : Z) (s : cptr) : U unit :=
  match s with
  | Lit l => ufor l (putc fd)
  | At a => uloop (fun s =>
      let! c := load8 s in
      if c =? 0 then stop tt else do! putc fd c; next (s + 1)) a
  end.

(** One conversion, after its [%]: the arguments it leaves. *)
Definition conversion (fd c : Z) (ap : list uarg) : U (list uarg) :=
  if c =? 100 (* d *) then
    do! printint fd (s32 (num_of (va_arg ap))) 10 true; uret (tail ap)
  else if c =? 108 (* l *) then
    do! printint fd (s32 (num_of (va_arg ap))) 10 false; uret (tail ap)
  else if c =? 120 (* x *) then
    do! printint fd (s32 (num_of (va_arg ap))) 16 false; uret (tail ap)
  else if c =? 112 (* p *) then
    do! printptr fd (u64 (num_of (va_arg ap))); uret (tail ap)
  else if c =? 115 (* s *) then
    do! putstr fd (default (Lit (bytes_of "(null)")) (str_of (va_arg ap))); uret (tail ap)
  else if c =? 99 (* c *) then
    do! putc fd (num_of (va_arg ap)); uret (tail ap)
  else if c =? 37 (* % *) then
    do! putc fd c; uret ap
  else
    do! putc fd 37; do! putc fd c; uret ap.

(** The state of the source's loop is whether the last character was [%]. *)
Fixpoint vprintf (fd : Z) (fmt : list Z) (percent : bool) (ap : list uarg) : U unit :=
  match fmt with
  | [] => uret tt
  | c :: fmt =>
    if negb percent then
      if c =? 37 then vprintf fd fmt true ap
      else do! putc fd c; vprintf fd fmt false ap
    else let! ap := conversion fd c ap in vprintf fd fmt false ap
  end.

Definition fprintf (fd : Z) (fmt : list Z) (ap : list uarg) : U unit := vprintf fd fmt false ap.
Definition printf (fmt : list Z) (ap : list uarg) : U unit := vprintf 1 fmt false ap.

(** ** Strings in memory *)

(** The NUL-terminated string [l] is at [a]. *)
Fixpoint cstring (m : memory) (a : Z) (l : list Z) : Prop :=
  match l with
  | [] => ld8 m a = 0
  | c :: l => c <> 0 /\ ld8 m a = c /\ cstring m (a + 1) l
  end.

Lemma cstring_cstr m a l n : cstring m a l -> (length l < n)%nat -> cstr m a n = l.
Proof.
  revert a n. induction l as [|c l IH]; intros a [|n] H Hn; simpl in *; try lia.
  - by rewrite H.
  - destruct H as (Hc & -> & H). destruct (Z.eqb_spec c 0); [done|]. f_equal. apply IH; [done|lia].
Qed.

Lemma cstring_iff m a l :
  cstring m a l <->
  Forall (fun c => c <> 0) l /\ ld_bytes m a (length l) = l /\ ld8 m (a + Z.of_nat (length l)) = 0.
Proof.
  revert a. induction l as [|c l IH]; intros a; simpl.
  - rewrite Z.add_0_r. split; [|tauto]. auto.
  - rewrite IH, Forall_cons. replace (a + 1 + Z.of_nat (length l)) with (a + Z.pos (Pos.of_succ_nat (length l))) by lia.
    split; [intros (? & -> & ? & -> & ?); tauto|]. intros ((? & ?) & E & ?). injection E as E1 E2. tauto.
Qed.

Lemma cstring_ext m1 m2 a l :
  (forall b, a <= b <= a + Z.of_nat (length l) -> ld8 m1 b = ld8 m2 b) -> cstring m1 a l -> cstring m2 a l.
Proof.
  revert a. induction l as [|c l IH]; intros a H; simpl in *.
  - intros <-. symmetry. apply H. lia.
  - intros (Hc & E & Hl). split; [done|]. split.
    + rewrite <- E. symmetry. apply H. lia.
    + apply IH; [|done]. intros b Hb. apply H. lia.
Qed.

Lemma cstring_inj m a l1 l2 : cstring m a l1 -> cstring m a l2 -> l1 = l2.
Proof.
  revert a l2. induction l1 as [|c l1 IH]; intros a [|d l2] H1 H2; simpl in *; try done.
  - destruct H2 as (? & ? & ?). congruence.
  - destruct H1 as (? & ? & ?). congruence.
  - destruct H1 as (? & ? & ?), H2 as (? & ? & ?). f_equal; [congruence|eauto].
Qed.

Section strings.
Context {W : Type} (h : os W).

Lemma strlen_run m w s l :
  cstring m s l -> runs h (strlen s) m w (Done (Z.of_nat (length l)) m) w.
Proof.
  unfold strlen. set (body := fun n : Z => _).
  enough (G : forall n, cstring m (s + n) l ->
    runs h (uloop body n) m w (Done (n + Z.of_nat (length l)) m) w).
  { intros H. apply (G 0). by rewrite Z.add_0_r. }
  induction l as [|c l IH]; intros n H; simpl in H.
  - replace (n + Z.of_nat (length [])) with n by (simpl; lia).
    apply runs_loop_stop. ustep. rewrite H. apply runs_stop.
  - destruct H as (Hc & E & Hl). eapply runs_loop_next.
    + ustep. rewrite E. destruct (Z.eqb_spec c 0); [done|]. eauto with urun.
    + replace (n + Z.of_nat (length (c :: l))) with (n + 1 + Z.of_nat (length l)) by (simpl; lia).
      apply IH. by rewrite Z.add_assoc.
Qed.

(** The place of the first [c] in a string. *)
Fixpoint index_of (c : Z) (l : list Z) : option nat :=
  match l with
  | [] => None
  | b :: l => if b =? c then Some O else S <$> index_of c l
  end.

Lemma strchr_run m w s l c :
  cstring m s l ->
  runs h (strchr s c) m w
    (Done (match index_of c l with Some i => s + Z.of_nat i | None => 0 end) m) w.
Proof.
  unfold strchr. revert s. induction l as [|b l IH]; intros s H; simpl in H |- *.
  - apply runs_loop_stop. ustep. rewrite H. apply runs_stop.
  - destruct H as (Hb & E & Hl). destruct (Z.eqb_spec b c) as [->|Hne].
    + apply runs_loop_stop. ustep. rewrite E. destruct (Z.eqb_spec c 0); [done|].
      rewrite Z.eqb_refl, Z.add_0_r. eauto with urun.
    + eapply runs_loop_next.
      * ustep. rewrite E. destruct (Z.eqb_spec b 0); [done|]. destruct (Z.eqb_spec b c); [done|].
        eauto with urun.
      * specialize (IH (s + 1) Hl). destruct (index_of c l) as [i|]; [|exact IH]. cbn [fmap option_fmap option_map].
        replace (s + Z.of_nat (S i)) with (s + 1 + Z.of_nat i) by lia. exact IH.
Qed.

(** The value [atoi] computes from the digits at the head of a string. *)
Fixpoint decimal (n : Z) (l : list Z) : Z :=
  match l with
  | [] => n
  | c :: l => if isdigit c then decimal (s32 (s32 (n * 10) + c - 48)) l else n
  end.

Lemma atoi_run m w s l : cstring m s l -> runs h (atoi s) m w (Done (decimal 0 l) m) w.
Proof.
  unfold atoi. generalize 0 as n. revert s. induction l as [|c l IH]; intros s n H; simpl in H |- *.
  - apply runs_loop_stop. ustep. rewrite H. apply runs_stop.
  - destruct H as (Hc & E & Hl). destruct (isdigit c) eqn:Ed.
    + eapply runs_loop_next; [|by apply IH]. ustep. rewrite E, Ed. eauto with urun.
    + apply runs_loop_stop. ustep. rewrite E, Ed. eauto with urun.
Qed.

End strings.

(** ** Output *)

Section output.
Context {W : Type} (h : os W) `{F : !FileOs h}.

(** From [w] to [w'] the bytes [l] were written to [fd], and nothing else
    happened to any descriptor. *)
Definition emitted (w w' : W) (fd : Z) (l : list Z) : Prop :=
  (forall g, written w' g = if g =? fd then written w g ++ l else written w g) /\
  (forall g, pending w' g = pending w g).

Lemma emitted_nil w fd : emitted w w fd [].
Proof. split; intros g; [|done]. destruct (g =? fd); [by rewrite app_nil_r|done]. Qed.

Lemma emitted_trans w1 w2 w3 fd l1 l2 :
  emitted w1 w2 fd l1 -> emitted w2 w3 fd l2 -> emitted w1 w3 fd (l1 ++ l2).
Proof.
  intros [A1 B1] [A2 B2]. split; intros g.
  - rewrite A2, A1. destruct (g =? fd); [by rewrite app_assoc|done].
  - by rewrite B2, B1.
Qed.

(** The program writes [l] to [fd] and does nothing else. *)
Definition prints {A} (t : U A) (m : memory) (w : W) (fd : Z) (l : list Z) (a : A) : Prop :=
  exists w', runs h t m w (Done a m) w' /\ emitted w w' fd l.

Lemma prints_ret {A} (a : A) m w fd : prints (uret a) m w fd [] a.
Proof. exists w. split; [apply runs_ret|apply emitted_nil]. Qed.

Lemma prints_bind {A B} (t : U A) (f : A -> U B) m w fd l1 l2 a b :
  prints t m w fd l1 a -> (forall w, prints (f a) m w fd l2 b) ->
  prints (ubind t f) m w fd (l1 ++ l2) b.
Proof.
  intros (w1 & R1 & E1) H. destruct (H w1) as (w2 & R2 & E2). exists w2. split.
  - by eapply runs_bind.
  - by eapply emitted_trans.
Qed.

Lemma write_prints m w fd bs : prints (sys (Write fd bs)) m w fd bs (Z.of_nat (length bs)).
Proof.
  destruct (write_law w fd bs) as (w' & E & Hw & Hp). exists w'. split; [by apply runs_sys|].
  split; [|done]. intros g. rewrite Hw. by destruct (Z.eqb_spec g fd) as [->|].
Qed.

Lemma putc_prints m w fd c : prints (putc fd c) m w fd [u8 c] tt.
Proof.
  unfold putc. change [u8 c] with ([u8 c] ++ []) at 2.
  eapply prints_bind; [apply write_prints|]. intros. apply prints_ret.
Qed.

Lemma puts_prints m w fd l : prints (ufor l (putc fd)) m w fd (u8 <$> l) tt.
Proof.
  revert w. induction l as [|c l IH]; intros w; simpl; [apply prints_ret|].
  apply (prints_bind _ _ _ _ _ [u8 c] (u8 <$> l) tt); [apply putc_prints|exact IH].
Qed.

Lemma putstr_prints m w fd a l :
  cstring m a l -> bytes_ok l -> prints (putstr fd (At a)) m w fd l tt.
Proof.
  simpl. revert a w. induction l as [|c l IH]; intros a w H Hb; simpl in H.
  - exists w. split; [|apply emitted_nil]. apply runs_loop_stop. ustep. rewrite H. apply runs_stop.
  - destruct H as (Hc & E & Hl). apply Forall_cons in Hb as [Hc8 Hb].
    destruct (putc_prints m w fd c) as (w1 & R1 & E1). destruct (IH (a + 1) w1 Hl Hb) as (w2 & R2 & E2).
    exists w2. split.
    + eapply runs_loop_next; [|exact R2]. ustep. rewrite E. destruct (Z.eqb_spec c 0); [done|].
      ustep with R1. apply runs_next.
    + rewrite u8_small in E1 by done. exact (emitted_trans _ _ _ _ [c] l E1 E2).
Qed.

End output.

(** ** Numbers *)

Lemma decimal_snoc n l c :
  Forall (fun c => isdigit c = true) (l ++ [c]) ->
  decimal n (l ++ [c]) = s32 (s32 (decimal n l * 10) + c - 48).
Proof.
  revert n. induction l as [|d l IH]; intros n H; simpl in *; apply Forall_cons in H as [Hd H].
  - by rewrite Hd.
  - rewrite Hd. by apply IH.
Qed.

Lemma digit_decimal d : 0 <= d < 10 -> digit d = 48 + d.
Proof.
  intros H. assert (d = 0 \/ d = 1 \/ d = 2 \/ d = 3 \/ d = 4 \/ d = 5 \/ d = 6 \/ d = 7 \/ d = 8 \/ d = 9)
    as D by lia. by repeat destruct D as [->|D]; try subst d.
Qed.

Lemma digits_isdigit fuel x : 0 <= x -> Forall (fun c => isdigit c = true) (digits_of fuel x 10).
Proof.
  revert x. induction fuel as [|fuel IH]; intros x Hx; simpl; constructor.
  - rewrite digit_decimal by zlia. unfold isdigit. apply andb_true_intro. split; apply Z.leb_le; zlia.
  - destruct (Z.eqb_spec (x / 10) 0); [constructor|]. apply IH. zlia.
Qed.

Lemma decimal_digits fuel x :
  0 <= x < 2 ^ 31 -> x < 10 ^ Z.of_nat fuel -> decimal 0 (rev (digits_of fuel x 10)) = x.
Proof.
  revert x. induction fuel as [|fuel IH]; intros x Hx Hf; cbn [digits_of rev]; [simpl in *; lia|].
  assert (Hd := digits_isdigit (S fuel) x ltac:(lia)). cbn [digits_of] in Hd.
  apply Forall_rev in Hd. cbn [rev] in Hd.
  rewrite decimal_snoc by exact Hd. rewrite digit_decimal by zlia.
  rewrite Nat2Z.inj_succ, Z.pow_succ_r in Hf by lia.
  destruct (Z.eqb_spec (x / 10) 0) as [E|E].
  - cbn [rev decimal]. change (s32 (0 * 10)) with 0. rewrite s32_small by zlia. zlia.
  - rewrite IH by zlia. rewrite (s32_small (x / 10 * 10)) by zlia. rewrite s32_small by zlia. zlia.
Qed.

Lemma bytes_small l : bytes_ok l -> u8 <$> l = l.
Proof. induction 1 as [|b l Hb Hl IH]; [done|]. by rewrite fmap_cons, u8_small, IH. Qed.

Lemma isdigit_bytes l : Forall (fun c => isdigit c = true) l -> bytes_ok l.
Proof.
  intros Hl. eapply Forall_impl; [exact Hl|]. intros c H. unfold isdigit in H. apply andb_prop in H as [H1 H2].
  apply Z.leb_le in H1, H2. lia.
Qed.

(** A non-negative [int] in base 10. *)
Definition dec (n : Z) : list Z := rev (digits_of 16 n 10).

Lemma printint_prints {W} (h : os W) `{!FileOs h} fd n m w :
  0 <= n < 2 ^ 31 -> prints h (printint fd n 10 true) m w fd (dec n) tt.
Proof.
  intros Hn. pose proof (puts_prints h m w fd (dec n)) as P.
  rewrite bytes_small in P by (apply isdigit_bytes, Forall_rev, digits_isdigit; lia).
  unfold printint, printint_buf. destruct (Z.ltb_spec n 0); [lia|]. cbn [andb].
  rewrite app_nil_r, u32_small by lia. exact P.
Qed.

(** What [printint] writes for a non-negative [int] in base 10 is read
    back as the same number by [atoi]. *)
Theorem atoi_printint {W} (h : os W) `{!FileOs h} n fd m w :
  0 <= n < 2 ^ 31 ->
  exists l, prints h (printint fd n 10 true) m w fd l tt /\
    forall m1 w1 a, cstring m1 a l -> runs h (atoi a) m1 w1 (Done n m1) w1.
Proof.
  intros Hn. exists (dec n). split; [by apply printint_prints|].
  intros m1 w1 a Ha. rewrite <- (decimal_digits 16 n) by (simpl; lia). by apply atoi_run.
Qed.

Lemma atoi_printint_witness : exists l,
  prints stream_os (printint 1 2048 10 true) ∅ (mkstreams ∅ ∅ 0) 1 l tt /\
  forall m1 w1 a, cstring m1 a l -> runs stream_os (atoi a) m1 w1 (Done 2048 m1) w1.
Proof. apply (atoi_printint stream_os 2048 1 ∅ (mkstreams ∅ ∅ 0)). lia. Defined.

Lemma ulib_memmove m dst src n :
  mem_ok m -> 0 <= n -> memmove m dst src n =m= CString.memmove m dst src n.
Proof.
  intros Hok Hn b. rewrite ld8_memmove by done. unfold memmove.
  rewrite Z.gtb_ltb. destruct (Z.ltb_spec dst src).
  - rewrite ld8_copy_up by (auto; lia). by rewrite Z2Nat.id by lia.
  - rewrite ld8_copy_down by (auto; lia). rewrite Z2Nat.id by lia.
    replace (dst + n - n) with dst by lia. by replace (src + n + (b - (dst + n))) with (src + (b - dst)) by lia.
Qed.

Lemma umemmove_ok m d s n : mem_ok m -> mem_ok (memmove m d s n).
Proof. intros. unfold memmove. case_match; auto using copy_up_ok, copy_down_ok. Qed.

(** The C library's [memmove], which chooses the direction of the copy
    by comparing the addresses only, does what the kernel's does. *)
Theorem umemmove_kernel m dst src n :
  mem_ok m -> 0 <= n -> memmove m dst src n =m= CString.memmove m dst src n.
Proof. apply ulib_memmove. Qed.

Lemma umemmove_kernel_witness :
  ld_bytes (memmove demo_mem 102 100 5) 102 5 = [104; 101; 108; 108; 111] /\
  ld_bytes (memmove demo_mem 99 100 5) 99 5 = [104; 101; 108; 108; 111].
Proof.
  split.
  - rewrite (umemmove_kernel demo_mem 102 100 5 demo_mem_ok ltac:(lia)). reflexivity.
  - rewrite (umemmove_kernel demo_mem 99 100 5 demo_mem_ok ltac:(lia)). reflexivity.
Defined.
