(* ===== verification/Utils.v ===== *)
(** * The small user programs

    cat, wc, echo, kill, ln, mkdir, rm, zombie, trace, ls and init: one
    module per program, with its functions.  [main] takes its arguments as
    the list of the addresses in [argv], [argc] being its length.  The global
    or static buffer of a program is a parameter, its address; so is each
    array on the stack whose address the program takes. *)

From S2P Require Import Prelude Param Mem CString User Ulib.
From ITree Require Import ITree.
Open Scope Z_scope.
Open Scope user_scope.

(** ** user/cat.c *)
Module Cat.

Definition cat (buf fd : Z) : U unit :=
  let! n := uloop (fun _ : unit =>
    let! n := read fd buf 512 in
    if n >? 0 then
      let! r := write 1 (At buf) n in
      if negb (r =? n) then
        do! fprintf 2 (bytes_of "cat: write error" ++ [10]) [];
        uexit 1
      else next tt
    else stop n) tt in
  if n <? 0 then
    do! fprintf 2 (bytes_of "cat: read error" ++ [10]) [];
    uexit 1
  else uret tt.

Definition main (buf : Z) (argv : list Z) : U unit :=
  if Z.of_nat (length argv) <=? 1 then do! cat buf 0; uexit 0
  else
    do! ufor (tail argv) (fun a =>
      let! fd := open (At a) O_RDONLY in
      if fd <? 0 then
        do! fprintf 2 (bytes_of "cat: cannot open %s" ++ [10]) [Ustr (Some (At a))];
        uexit 1
      else
        do! cat buf fd;
        do! sys (Close fd);
        uret tt);
    uexit 0.

End Cat.

(** ** user/wc.c *)
Module Wc.

Record counts : Type := mkcounts { lines : Z; words : Z; chars : Z; inword : bool }.

Definition blanks : list Z := [32; 13; 9; 10; 11].

Definition count (st : counts) (b : Z) : counts :=
  let c := s32 (chars st + 1) in
  let l := if b =? 10 then s32 (lines st + 1) else lines st in
  if strchr_lit blanks b then mkcounts l (words st) c false
  else if negb (inword st) then mkcounts l (s32 (words st + 1)) c true
  else mkcounts l (words st) c (inword st).

(** [for(i=0; i<n; i++)] over the bytes of the buffer. *)
Fixpoint count_loop (m : memory) (buf : Z) (n : nat) (st : counts) : counts :=
  match n with
  | O => st
  | S n => count_loop m (buf + 1) n (count st (ld8 m buf))
  end.

Definition wc (buf fd : Z) (name : cptr) : U unit :=
  let! (n, st) := uloop (fun st =>
    let! n := read fd buf 512 in
    if n >? 0 then
      let! m := getm in
      next (count_loop m buf (Z.to_nat n) st)
    else stop (n, st)) (mkcounts 0 0 0 false) in
  if n <? 0 then
    do! printf (bytes_of "wc: read error" ++ [10]) [];
    uexit 1
  else
    printf (bytes_of "%d %d %d %s" ++ [10]) [Unum (lines st); Unum (words st); Unum (chars st); Ustr (Some name)].

Definition main (buf : Z) (argv : list Z) : U unit :=
  if Z.of_nat (length argv) <=? 1 then do! wc buf 0 (Lit []); uexit 0
  else
    do! ufor (tail argv) (fun a =>
      let! fd := open (At a) O_RDONLY in
      if fd <? 0 then
        do! printf (bytes_of "wc: cannot open %s" ++ [10]) [Ustr (Some (At a))];
        uexit 1
      else
        do! wc buf fd (At a);
        do! sys (Close fd);
        uret tt);
    uexit 0.

End Wc.

(** ** user/echo.c *)
Module Echo.

Fixpoint echo_loop (args : list Z) : U unit :=
  match args with
  | [] => uret tt
  | a :: args =>
    let! n := strlen a in
    do! write 1 (At a) n;
    do! write 1 (Lit (if negb (bool_decide (args = [])) then [32] else [10])) 1;
    echo_loop args
  end.

Definition main (argv : list Z) : U unit := do! echo_loop (tail argv); uexit 0.

End Echo.

(** ** user/kill.c *)
Module Kill.

Definition main (argv : list Z) : U unit :=
  if Z.of_nat (length argv) <? 2 then
    do! fprintf 2 (bytes_of "usage: kill pid..." ++ [10]) [];
    uexit 1
  else
    do! ufor (tail argv) (fun a => let! pid := atoi a in do! sys (User.Kill pid); uret tt);
    uexit 0.

End Kill.

(** ** user/ln.c *)
Module Ln.

Definition main (argv : list Z) : U unit :=
  match argv with
  | [_; old; new] =>
    let! o := spath (At old) in
    let! n := spath (At new) in
    let! r := sys (Link o n) in
    do! (if r <? 0 then
           fprintf 2 (bytes_of "link %s %s: failed" ++ [10]) [Ustr (Some (At old)); Ustr (Some (At new))]
         else uret tt);
    uexit 0
  | _ =>
    do! fprintf 2 (bytes_of "Usage: ln old new" ++ [10]) [];
    uexit 1
  end.

End Ln.

(** ** user/mkdir.c *)
Module Mkdir.

(** The loop is left with [break] at the first failure. *)
Fixpoint mkdir_loop (args : list Z) : U unit :=
  match args with
  | [] => uret tt
  | a :: args =>
    let! p := spath (At a) in
    let! r := sys (User.Mkdir p) in
    if r <? 0 then fprintf 2 (bytes_of "mkdir: %s failed to create" ++ [10]) [Ustr (Some (At a))]
    else mkdir_loop args
  end.

Definition main (argv : list Z) : U unit :=
  if Z.of_nat (length argv) <? 2 then
    do! fprintf 2 (bytes_of "Usage: mkdir files..." ++ [10]) [];
    uexit 1
  else do! mkdir_loop (tail argv); uexit 0.

End Mkdir.

(** ** user/rm.c *)
Module Rm.

Fixpoint rm_loop (args : list Z) : U unit :=
  match args with
  | [] => uret tt
  | a :: args =>
    let! p := spath (At a) in
    let! r := sys (Unlink p) in
    if r <? 0 then fprintf 2 (bytes_of "rm: %s failed to delete" ++ [10]) [Ustr (Some (At a))]
    else rm_loop args
  end.

Definition main (argv : list Z) : U unit :=
  if Z.of_nat (length argv) <? 2 then
    do! fprintf 2 (bytes_of "Usage: rm files..." ++ [10]) [];
    uexit 1
  else do! rm_loop (tail argv); uexit 0.

End Rm.

(** ** user/zombie.c *)
Module Zombie.

Definition main : U unit :=
  let! pid := sys Fork in
  do! (if pid >? 0 then do! sys (Sleep 5); uret tt else uret tt);
  uexit 0.

End Zombie.

(** ** user/trace.c

    [nargv] has no terminator of its own: the kernel reads on into the
    uninitialised slots after the arguments, whose contents [junk] are those
    of the stack. *)
Module Trace.

Definition usage (name : Z) : U unit :=
  do! fprintf 2 (bytes_of "Usage: %s mask command" ++ [10]) [Ustr (Some (At name))];
  uexit 1.

Definition main (junk : list cptr) (argv : list Z) : U unit :=
  let a := fun i => nth i argv 0 in
  if Z.of_nat (length argv) <? 3 then usage (a 0%nat)
  else
    let! c := load8 (a 1%nat) in
    if (c <? 48) || (c >? 57) then usage (a 0%nat)
    else
      let! mask := atoi (a 1%nat) in
      let! r := sys (User.Trace mask) in
      if r <? 0 then
        do! fprintf 2 (bytes_of "%s: trace failed" ++ [10]) [Ustr (Some (At (a 0%nat)))];
        uexit 1
      else
        let nargv := At <$> drop 2 (take (Z.to_nat MAXARG) argv) in
        do! exec (At (a 2%nat)) (nargv ++ junk);
        uexit 0.

End Trace.

(** ** user/init.c *)
Module Init.

Definition CONSOLE : Z := 1.

(** [for(;;)] until the shell itself is waited for. *)
Definition reap (pid : Z) : U unit :=
  uloop (fun _ : unit =>
    let! (wpid, _) := sys Wait in
    if wpid =? pid then stop tt
    else if wpid <? 0 then
      do! printf (bytes_of "init: wait returned an error" ++ [10]) [];
      uexit 1
    else next tt) tt.

Definition main : U unit :=
  let! fd := open (Lit (bytes_of "console")) O_RDWR in
  do! (if fd <? 0 then
         do! sys (Mknod (bytes_of "console") CONSOLE 0);
         do! open (Lit (bytes_of "console")) O_RDWR;
         uret tt
       else uret tt);
  do! sys (Dup 0);
  do! sys (Dup 0);
  uloop (fun _ : unit =>
    do! printf (bytes_of "init: starting sh" ++ [10]) [];
    let! pid := sys Fork in
    if pid <? 0 then
      do! printf (bytes_of "init: fork failed" ++ [10]) [];
      uexit 1
    else if pid =? 0 then
      do! exec (Lit (bytes_of "sh")) [Lit (bytes_of "sh")];
      do! printf (bytes_of "init: exec sh failed" ++ [10]) [];
      uexit 1
    else
      do! reap pid;
      next tt) tt.

End Init.

(** ** user/ls.c *)
Module Ls.

(** The fields of [struct stat] and [struct dirent] that [ls] looks at. *)
Definition st_ino (st : list Z) : Z := le_val (slice 4 4 st).
Definition st_type (st : list Z) : Z := s16 (le_val (slice 8 2 st)).
Definition st_size (st : list Z) : Z := le_val (slice 16 8 st).
Definition de_inum (de : list Z) : Z := le_val (slice 0 2 de).
Definition de_name (de : list Z) : list Z := slice 2 (Z.to_nat DIRSIZ) de.

Definition T_DIR : Z := 1.
Definition T_FILE : Z := 2.
Definition T_DEVICE : Z := 3.

(** [sbuf] is the static buffer of the function. *)
Definition fmtname (sbuf path : Z) : U Z :=
  let! n := strlen path in
  let! p := uloop (fun p =>
    if p >=? path then
      let! c := load8 p in
      if negb (c =? 47) then next (p - 1) else stop p
    else stop p) (path + n) in
  let p := p + 1 in
  let! n := strlen p in
  if n >=? DIRSIZ then uret p
  else
    let! m := getm in
    do! putm (memset (memmove m sbuf p n) (sbuf + n) 32 (DIRSIZ - n));
    uret sbuf.

(** One turn of the loop over the entries of a directory. *)
Definition ls_entry (sbuf buf p fd : Z) : U (unit + unit) :=
  let! (r, de) := sys (Read fd 16) in
  if negb (r =? 16) then stop tt
  else if de_inum de =? 0 then next tt
  else
    let! m := getm in
    do! putm (st8 (st_bytes m p (de_name de)) (p + DIRSIZ) 0);
    let! (r, st) := stat (At buf) in
    if r <? 0 then
      do! printf (bytes_of "ls: cannot stat %s" ++ [10]) [Ustr (Some (At buf))];
      next tt
    else
      let! name := fmtname sbuf buf in
      do! printf (bytes_of "%s %d %d %d" ++ [10])
        [Ustr (Some (At name)); Unum (st_type st); Unum (st_ino st); Unum (st_size st)];
      next tt.

(** [buf] is the buffer on the stack, of 512 bytes. *)
Definition ls_dir (sbuf buf fd path : Z) : U unit :=
  let! n := strlen path in
  if n + 1 + DIRSIZ + 1 >? 512 then printf (bytes_of "ls: path too long" ++ [10]) []
  else
    do! strcpy buf path;
    let! n := strlen buf in
    do! store8 (buf + n) 47;
    uloop (fun _ : unit => ls_entry sbuf buf (buf + n + 1) fd) tt.

Definition ls (sbuf buf path : Z) : U unit :=
  let! fd := open (At path) O_RDONLY in
  if fd <? 0 then fprintf 2 (bytes_of "ls: cannot open %s" ++ [10]) [Ustr (Some (At path))]
  else
    let! (r, st) := sys (Fstat fd) in
    if r <? 0 then
      do! fprintf 2 (bytes_of "ls: cannot stat %s" ++ [10]) [Ustr (Some (At path))];
      do! sys (Close fd);
      uret tt
    else
      do! (if (st_type st =? T_DEVICE) || (st_type st =? T_FILE) then
             let! name := fmtname sbuf path in
             printf (bytes_of "%s %d %d %l" ++ [10])
               [Ustr (Some (At name)); Unum (st_type st); Unum (st_ino st); Unum (st_size st)]
           else if st_type st =? T_DIR then ls_dir sbuf buf fd path
           else uret tt);
      do! sys (Close fd);
      uret tt.

(** [dot] is the address of the constant [.]. *)
Definition main (sbuf buf dot : Z) (argv : list Z) : U unit :=
  if Z.of_nat (length argv) <? 2 then do! ls sbuf buf dot; uexit 0
  else do! ufor (tail argv) (ls sbuf buf); uexit 0.

End Ls.

(** ** What cat and wc do with a stream *)

Section streams.
Context {W : Type} (h : os W) `{F : !FileOs h}.

Lemma read_run m w fd a n :
  0 < n -> exists k w', runs h (read fd a n) m w
      (Done (Z.of_nat k) (st_bytes m a (take k (pending w fd)))) w' /\
    (k <= length (pending w fd))%nat /\ Z.of_nat k <= n /\
    (k = 0%nat -> pending w fd = []) /\
    (forall g, pending w' g = if g =? fd then drop k (pending w fd) else pending w g) /\
    (forall g, written w' g = written w g).
Proof.
  intros Hn. destruct (read_law w fd n Hn) as (k & w' & E & Hk & Hkn & H0 & Hp & Hw).
  exists k, w'. split; [|done]. unfold read. ustep with (runs_sys h _ _ _ _ _ E).
  ustep. rewrite take_take, Nat.min_r by lia. ustep. apply runs_ret.
Qed.

Definition drained (w w' : W) (fd : Z) : Prop :=
  pending w' fd = [] /\ forall g, g <> fd -> pending w' g = pending w g.

(** [cat] copies its input to the standard output unchanged and comes to
    an end, however the kernel splits the input over its reads. *)
Theorem cat_copies buf fd m w :
  bytes_ok (pending w fd) ->
  exists m' w', runs h (Cat.cat buf fd) m w (Done tt m') w' /\ drained w w' fd /\
    forall g, written w' g = if g =? 1 then written w 1 ++ pending w fd else written w g.
Proof.
  intros Hb. unfold Cat.cat. set (body := fun _ : unit => _).
  assert (L : exists m' w', runs h (uloop body tt) m w (Done 0 m') w' /\ drained w w' fd /\
    forall g, written w' g = if g =? 1 then written w 1 ++ pending w fd else written w g).
  { remember (length (pending w fd)) as N eqn:HN. revert m w Hb HN.
    induction N as [N IH] using lt_wf_ind. intros m w Hb HN.
    destruct (read_run m w fd buf 512 ltac:(lia)) as (k & w1 & R & Hk & Hkn & H0 & Hp & Hw).
    destruct (decide (k = 0%nat)) as [->|Hk0].
    - exists (st_bytes m buf []), w1. rewrite (H0 eq_refl) in *. split; [|split; [split|]].
      + apply runs_loop_stop. ustep with R. rewrite take_nil. apply runs_stop.
      + by rewrite Hp, Z.eqb_refl.
      + intros g Hg. rewrite Hp. by destruct (Z.eqb_spec g fd).
      + intros g. rewrite Hw, app_nil_r. by destruct (Z.eqb_spec g 1) as [->|].
    - set (m1 := st_bytes m buf (take k (pending w fd))) in *.
      assert (El : ld_bytes m1 buf k = take k (pending w fd)).
      { pose proof (ld_st_bytes_same m buf (take k (pending w fd))) as E.
        rewrite length_take, Nat.min_l in E by lia. apply E. by apply Forall_take. }
      destruct (write_prints h m1 w1 1 (take k (pending w fd))) as (w2 & R2 & [E2 P2]).
      destruct (IH (length (pending w2 fd))) with (m := m1) (w := w2) as (m' & w' & R' & [D1 D2] & E').
      { rewrite P2, Hp, Z.eqb_refl, length_drop. lia. }
      { rewrite P2, Hp, Z.eqb_refl. by apply Forall_drop. }
      { done. }
      exists m', w'. split; [|split; [split; [done|]|]].
      + eapply runs_loop_next; [|exact R']. ustep with R.
        destruct (Z.gtb_spec (Z.of_nat k) 0); [|lia].
        unfold write. eapply runs_bind; [eapply runs_bind; [apply runs_getm|]|].
        { rewrite Nat2Z.id, El. exact R2. }
        cbv beta iota. rewrite length_take, Nat.min_l, Z.eqb_refl by lia. apply runs_next.
      + intros g Hg. rewrite D2, P2, Hp by done. by destruct (Z.eqb_spec g fd).
      + intros g. rewrite E', P2, Hp, Z.eqb_refl, !E2, !Hw. destruct (Z.eqb_spec g 1) as [->|]; [|done].
        cbn [Z.eqb]. rewrite Pos.eqb_refl, <- app_assoc. by rewrite take_drop. }
  destruct L as (m' & w' & R & H). exists m', w'. split; [|done].
  eapply runs_bind; [exact R|]. apply runs_ret.
Qed.

(** *** The counts, from their definitions *)

Definition newlines (l : list Z) : nat := length (filter (fun b => b = 10) l).

(** The fields between blanks, and those that are words. *)
Fixpoint fields (l : list Z) : list (list Z) :=
  match l with
  | [] => [[]]
  | b :: l =>
    if strchr_lit Wc.blanks b then [] :: fields l
    else match fields l with f :: fs => (b :: f) :: fs | [] => [[b]] end
  end.

Definition nonempty (fs : list (list Z)) : nat := length (filter (fun f => f <> []) fs).
Definition word_count (l : list Z) : nat := nonempty (fields l).

Lemma fields_cons l : exists f fs, fields l = f :: fs.
Proof.
  destruct l as [|b l]; cbn [fields]; [eauto|]. destruct (strchr_lit Wc.blanks b); [eauto|].
  destruct (fields l); eauto.
Qed.

(** A word that has begun is not counted again. *)
Definition words_from (inword : bool) (l : list Z) : nat :=
  nonempty (if inword then tail (fields l) else fields l).

Lemma words_from_cons iw b l :
  words_from iw (b :: l) =
  if strchr_lit Wc.blanks b then words_from false l
  else ((if iw then 0 else 1) + words_from true l)%nat.
Proof.
  destruct (fields_cons l) as (f & fs & E). unfold words_from. cbn [fields]. rewrite E.
  destruct (strchr_lit Wc.blanks b); destruct iw; done.
Qed.

Lemma words_from_le iw l : (words_from iw l <= length l)%nat.
Proof.
  revert iw. induction l as [|b l IH]; intros iw.
  - by destruct iw.
  - rewrite words_from_cons. pose proof (IH true). pose proof (IH false). cbn [length].
    destruct (strchr_lit Wc.blanks b); destruct iw; lia.
Qed.

Lemma newlines_le l : (newlines l <= length l)%nat.
Proof. apply length_filter. Qed.

Lemma newlines_cons b l : newlines (b :: l) = ((if (b =? 10)%Z then 1 else 0) + newlines l)%nat.
Proof.
  unfold newlines. rewrite filter_cons. destruct (Z.eqb_spec b 10); [by rewrite decide_True|by rewrite decide_False].
Qed.

Lemma count_step L N C iw b :
  0 <= L <= C -> 0 <= N <= C -> C + 1 < 2 ^ 31 ->
  Wc.count (Wc.mkcounts L N C iw) b =
  if strchr_lit Wc.blanks b then Wc.mkcounts (L + if b =? 10 then 1 else 0) N (C + 1) false
  else Wc.mkcounts (L + if b =? 10 then 1 else 0) (if iw then N else N + 1) (C + 1) true.
Proof.
  intros. unfold Wc.count. cbn [Wc.chars Wc.lines Wc.words Wc.inword].
  rewrite (s32_small (C + 1)), (s32_small (L + 1)), (s32_small (N + 1)) by lia.
  destruct (strchr_lit Wc.blanks b), iw, (b =? 10); cbn [negb]; f_equal; lia.
Qed.

Lemma count_fold l L N C iw :
  0 <= L <= C -> 0 <= N <= C -> C + Z.of_nat (length l) < 2 ^ 31 ->
  exists iw', foldl Wc.count (Wc.mkcounts L N C iw) l =
    Wc.mkcounts (L + Z.of_nat (newlines l)) (N + Z.of_nat (words_from iw l)) (C + Z.of_nat (length l)) iw'.
Proof.
  revert L N C iw. induction l as [|b l IH]; intros L N C iw HL HN HC.
  - exists iw. simpl. rewrite !Z.add_0_r. unfold words_from. by destruct iw; rewrite ?Z.add_0_r.
  - rewrite words_from_cons, newlines_cons. cbn [foldl]. simpl length in HC |- *.
    rewrite count_step by lia. destruct (b =? 10), (strchr_lit Wc.blanks b), iw;
    match goal with |- context [foldl _ (Wc.mkcounts ?a ?b ?c ?d) l] =>
      destruct (IH a b c d) as (iw' & ->); [lia..|]; exists iw'; f_equal; lia
    end.
Qed.

Lemma count_loop_fold m buf n st : Wc.count_loop m buf n st = foldl Wc.count st (ld_bytes m buf n).
Proof. revert buf st. induction n as [|n IH]; intros buf st; simpl; auto. Qed.

(** The loop of [wc] folds [count] over its input. *)
Lemma wc_loop buf fd m w st :
  bytes_ok (pending w fd) ->
  exists m' w', runs h (uloop (fun st =>
      let! n := read fd buf 512 in
      if n >? 0 then
        let! m := getm in
        next (Wc.count_loop m buf (Z.to_nat n) st)
      else stop (n, st)) st) m w (Done (0, foldl Wc.count st (pending w fd)) m') w' /\
    drained w w' fd /\ (forall g, written w' g = written w g) /\
    forall b, b < buf \/ buf + 512 <= b -> ld8 m' b = ld8 m b.
Proof.
  set (body := fun st : Wc.counts => _).
  remember (length (pending w fd)) as N eqn:HN. revert m w st HN.
  induction N as [N IH] using lt_wf_ind. intros m w st HN Hb.
  destruct (read_run m w fd buf 512 ltac:(lia)) as (k & w1 & R & Hk & Hkn & H0 & Hp & Hw).
  destruct (decide (k = 0%nat)) as [->|Hk0].
  - exists (st_bytes m buf []), w1. rewrite (H0 eq_refl) in *. split; [|split; [split|split; done]].
    + apply runs_loop_stop. ustep with R. rewrite take_nil. apply runs_stop.
    + by rewrite Hp, Z.eqb_refl.
    + intros g Hg. rewrite Hp. by destruct (Z.eqb_spec g fd).
  - set (m1 := st_bytes m buf (take k (pending w fd))) in *.
    assert (El : ld_bytes m1 buf k = take k (pending w fd)).
    { pose proof (ld_st_bytes_same m buf (take k (pending w fd))) as E.
      rewrite length_take, Nat.min_l in E by lia. apply E. by apply Forall_take. }
    destruct (IH (length (pending w1 fd))) with (m := m1) (w := w1)
      (st := foldl Wc.count st (take k (pending w fd))) as (m' & w' & R' & [D1 D2] & E' & Fr).
    { rewrite Hp, Z.eqb_refl, length_drop. lia. }
    { done. }
    { rewrite Hp, Z.eqb_refl. by apply Forall_drop. }
    exists m', w'. split; [|split; [split; [done|]|split]].
    + eapply runs_loop_next; [|].
      { ustep with R. destruct (Z.gtb_spec (Z.of_nat k) 0); [|lia]. ustep.
        rewrite count_loop_fold, Nat2Z.id, El. apply runs_next. }
      rewrite Hp, Z.eqb_refl, <- foldl_app, take_drop in R'. exact R'.
    + intros g Hg. rewrite D2, Hp by done. by destruct (Z.eqb_spec g fd).
    + intros g. by rewrite E', Hw.
    + intros b Hbb. rewrite Fr by done. apply ld8_st_bytes_out. rewrite length_take. lia.
Qed.

(** [printf("%d %d %d %s\n", n1, n2, n3, s)] *)
Lemma printf4_prints n1 n2 n3 a name m w :
  0 <= n1 < 2 ^ 31 -> 0 <= n2 < 2 ^ 31 -> 0 <= n3 < 2 ^ 31 -> cstring m a name -> bytes_ok name ->
  prints h (printf (bytes_of "%d %d %d %s" ++ [10]) [Unum n1; Unum n2; Unum n3; Ustr (Some (At a))]) m w 1
    (dec n1 ++ [32] ++ dec n2 ++ [32] ++ dec n3 ++ [32] ++ name ++ [10]) tt.
Proof.
  intros H1 H2 H3 Hn Hb. unfold printf. 
  change (bytes_of "%d %d %d %s" ++ [10]) with [37; 100; 32; 37; 100; 32; 37; 100; 32; 37; 115; 10].
  cbn [vprintf Z.eqb Pos.eqb negb].
  assert (Hd : forall n ap w, 0 <= n < 2 ^ 31 -> prints h (conversion 1 100 (Unum n :: ap)) m w 1 (dec n) ap).
  { intros n ap w' Hr. unfold conversion. cbn [Z.eqb Pos.eqb va_arg hd num_of tail]. rewrite s32_small by lia.
    rewrite <- (app_nil_r (dec n)). eapply prints_bind; [by apply printint_prints|]. intros. apply prints_ret. }
  repeat (eapply prints_bind; [by apply Hd|]; intros; eapply prints_bind; [apply putc_prints|]; intros).
  eapply prints_bind; [|intros].
  { unfold conversion. cbn [Z.eqb Pos.eqb va_arg hd str_of default tail]. rewrite <- (app_nil_r name).
    eapply prints_bind; [by apply putstr_prints|]. intros. apply prints_ret. }
  change [10] with ([10] ++ []). eapply prints_bind; [apply putc_prints|]. intros. apply prints_ret.
Qed.

(** [wc] comes to an end and prints the number of newlines, of words and
    of bytes of its input and its name, however the kernel splits the input
    over its reads. *)
Theorem wc_counts buf fd a name m w :
  bytes_ok (pending w fd) -> Z.of_nat (length (pending w fd)) < 2 ^ 31 ->
  cstring m a name -> bytes_ok name -> a + Z.of_nat (length name) < buf \/ buf + 512 <= a ->
  exists m' w', runs h (Wc.wc buf fd (At a)) m w (Done tt m') w' /\ drained w w' fd /\
    forall g, written w' g = if g =? 1 then written w 1 ++
      dec (Z.of_nat (newlines (pending w fd))) ++ [32] ++ dec (Z.of_nat (word_count (pending w fd))) ++ [32] ++
      dec (Z.of_nat (length (pending w fd))) ++ [32] ++ name ++ [10] else written w g.
Proof.
  intros Hb Hlen Hn Hnb Hd. unfold Wc.wc.
  destruct (wc_loop buf fd m w (Wc.mkcounts 0 0 0 false) Hb) as (m1 & w1 & R & [D1 D2] & Hw & Fr).
  destruct (count_fold (pending w fd) 0 0 0 false) as (iw & E); [lia..|]. rewrite E in R.
  pose proof (newlines_le (pending w fd)). pose proof (words_from_le false (pending w fd)).
  rewrite !Z.add_0_l in R.
  destruct (printf4_prints (Z.of_nat (newlines (pending w fd))) (Z.of_nat (word_count (pending w fd)))
    (Z.of_nat (length (pending w fd))) a name m1 w1) as (w' & R' & [E1 E2]); try (unfold word_count; change (nonempty (fields (pending w fd))) with (words_from false (pending w fd)); lia).
  { eapply cstring_ext; [|exact Hn]. intros b Hbb. symmetry. apply Fr. lia. }
  { done. }
  exists m1, w'. split; [|split; [split|]].
  - eapply runs_bind; [exact R|]. exact R'.
  - by rewrite E2.
  - intros g Hg. by rewrite E2, D2.
  - intros g. rewrite E1, Hw. by destruct (Z.eqb_spec g 1) as [->|].
Qed.

End streams.

(** Two bytes at a time, a text of two lines and five words. *)
Definition demo_text : list Z := bytes_of "to be" ++ [10] ++ bytes_of "or not to" ++ [10].
Definition demo_streams : streams := mkstreams {[0 := demo_text]} ∅ 1.

Lemma cat_copies_witness : exists m' w',
  runs stream_os (Cat.cat 1000 0) ∅ demo_streams (Done tt m') w' /\ written w' 1 = demo_text.
Proof.
  destruct (cat_copies stream_os 1000 0 ∅ demo_streams) as (m' & w' & R & _ & E).
  { repeat constructor; lia. }
  exists m', w'. split; [exact R|]. rewrite E. reflexivity.
Defined.

Lemma wc_counts_witness : exists m' w',
  runs stream_os (Wc.wc 1000 0 (At 100)) (st_bytes ∅ 100 (bytes_of "hamlet")) demo_streams (Done tt m') w' /\
  written w' 1 = bytes_of "2 5 16 hamlet" ++ [10].
Proof.
  destruct (wc_counts stream_os 1000 0 100 (bytes_of "hamlet") (st_bytes ∅ 100 (bytes_of "hamlet")) demo_streams)
    as (m' & w' & R & _ & E).
  { repeat constructor; lia. }
  { reflexivity. }
  { repeat split; discriminate. }
  { repeat constructor; lia. }
  { simpl. lia. }
  exists m', w'. split; [exact R|]. rewrite E. reflexivity.
Defined.
