(* ===== verification/Grep.v ===== *)
(** * user/grep.c

    The matcher reads its two strings and writes nothing, so it is a function
    of the strings: a pointer into a string is the rest of the string from
    there, and the terminator is its end.  [grep] itself works on its buffer
    in memory.  The reference is the language of a pattern: a pattern is a
    list of items, each one character or any number of one, with an optional
    anchor at either end. *)

From S2P Require Import Prelude Param Mem CString User Ulib Utils.
From ITree Require Import ITree.
Open Scope Z_scope.
Open Scope user_scope.

(** ** Operations *)

(** [do ... while( *text != 0 && ( *text++ == c || c == '.'))], with [here]
    the match of the rest of the pattern. *)
Fixpoint matchstar (here : list Z -> bool) (c : Z) (text : list Z) : bool :=
  if here text then true
  else match text with
       | [] => false
       | t :: text => if (t =? c) || (c =? 46) then matchstar here c text else false
       end.

Fixpoint matchhere (re text : list Z) {struct re} : bool :=
  match re with
  | [] => true
  | c :: re =>
    let single :=
      if (c =? 36) && bool_decide (re = []) then bool_decide (text = [])
      else match text with
           | [] => false
           | t :: text => if (c =? 46) || (c =? t) then matchhere re text else false
           end in
    match re with
    | d :: re2 => if d =? 42 then matchstar (matchhere re2) c text else single
    | [] => single
    end
  end.

(** [do ... while( *text++ != 0)] *)
Fixpoint match_loop (re text : list Z) : bool :=
  if matchhere re text then true
  else match text with [] => false | _ :: text => match_loop re text end.

Definition match_ (re text : list Z) : bool :=
  match re with
  | c :: re' => if c =? 94 then matchhere re' text else match_loop re text
  | [] => match_loop re text
  end.

(** The string a pointer points to. *)
Definition string_at (a : Z) : U (list Z) :=
  uloop (fun '(a, acc) =>
    let! c := load8 a in
    if c =? 0 then stop (rev acc) else next (a + 1, c :: acc)) (a, []).

(** The loop over the lines of the buffer; it ends with the address of the
    line that is not complete. *)
Definition grep_lines (pattern p : Z) : U Z :=
  uloop (fun p =>
    let! q := strchr p 10 in
    if q =? 0 then stop p
    else
      do! store8 q 0;
      let! re := string_at pattern in
      let! text := string_at p in
      do! (if match_ re text then
             do! store8 q 10;
             do! write 1 (At p) (q + 1 - p);
             uret tt
           else uret tt);
      next (q + 1)) p.

Definition grep (buf pattern fd : Z) : U unit :=
  uloop (fun m =>
    let! n := read fd (buf + m) (1024 - m - 1) in
    if n >? 0 then
      let m := m + n in
      do! store8 (buf + m) 0;
      let! p := grep_lines pattern buf in
      if m >? 0 then
        let m := m - (p - buf) in
        let! mem := getm in
        do! putm (memmove mem buf p m);
        next m
      else next m
    else stop tt) 0.

Definition main (buf : Z) (argv : list Z) : U unit :=
  if Z.of_nat (length argv) <=? 1 then
    do! fprintf 2 (bytes_of "usage: grep pattern [file ...]" ++ [10]) [];
    uexit 1
  else
    let pattern := nth 1 argv 0 in
    if Z.of_nat (length argv) <=? 2 then do! grep buf pattern 0; uexit 0
    else
      do! ufor (drop 2 argv) (fun a =>
        let! fd := open (At a) O_RDONLY in
        if fd <? 0 then
          do! printf (bytes_of "grep: cannot open %s" ++ [10]) [Ustr (Some (At a))];
          uexit 1
        else
          do! grep buf pattern fd;
          do! sys (Close fd);
          uret tt);
      uexit 0.

(** ** The language of a pattern *)

Inductive atom : Type := Chr (c : Z) | Any.
Inductive item : Type := One (a : atom) | Star (a : atom).

Definition atom_of (c : Z) : atom := if c =? 46 then Any else Chr c.
Definition atom_ok (a : atom) (c : Z) : Prop := match a with Chr d => c = d | Any => True end.

(** The items of a pattern, and whether a [$] closes it. *)
Fixpoint parse (re : list Z) : list item * bool :=
  match re with
  | [] => ([], false)
  | c :: re =>
    let single :=
      if (c =? 36) && bool_decide (re = []) then ([], true)
      else (One (atom_of c) :: (parse re).1, (parse re).2) in
    match re with
    | d :: re2 => if d =? 42 then (Star (atom_of c) :: (parse re2).1, (parse re2).2) else single
    | [] => single
    end
  end.

Inductive matches : list item -> list Z -> Prop :=
| matches_nil : matches [] []
| matches_one a c l t : atom_ok a c -> matches l t -> matches (One a :: l) (c :: t)
| matches_none a l t : matches l t -> matches (Star a :: l) t
| matches_more a c l t : atom_ok a c -> matches (Star a :: l) t -> matches (Star a :: l) (c :: t).

(** A prefix of the text, all of it if the pattern is closed, is in the
    language of the pattern. *)
Definition starts (re text : list Z) : Prop :=
  exists t1 t2, text = t1 ++ t2 /\ matches (parse re).1 t1 /\ ((parse re).2 = true -> t2 = []).

Definition occurs (re text : list Z) : Prop :=
  match re with
  | c :: re' => if c =? 94 then starts re' text else exists pre post, text = pre ++ post /\ starts re post
  | [] => exists pre post, text = pre ++ post /\ starts re post
  end.

Lemma atom_of_ok c t : atom_ok (atom_of c) t <-> (c =? 46) || (c =? t) = true.
Proof.
  unfold atom_of. destruct (Z.eqb_spec c 46); simpl; [done|].
  rewrite Z.eqb_eq. split; congruence.
Qed.

Lemma atom_of_ok' c t : atom_ok (atom_of c) t <-> (t =? c) || (c =? 46) = true.
Proof. rewrite orb_comm, (Z.eqb_sym t c). apply atom_of_ok. Qed.

(** [c*] in front of a pattern with language [S]. *)
Lemma matchstar_spec here c l e text :
  (forall t, here t = true <-> exists t1 t2, t = t1 ++ t2 /\ matches l t1 /\ (e = true -> t2 = [])) ->
  matchstar here c text = true <->
  exists t1 t2, text = t1 ++ t2 /\ matches (Star (atom_of c) :: l) t1 /\ (e = true -> t2 = []).
Proof.
  intros Hh. induction text as [|t text IH]; cbn [matchstar].
  - destruct (here []) eqn:E.
    + split; [|done]. intros _. apply Hh in E as (t1 & t2 & E1 & E2 & E3).
      exists t1, t2. split; [done|]. split; [by constructor|done].
    + split; [done|]. intros (t1 & t2 & E1 & E2 & E3). symmetry in E1. apply app_nil in E1 as [-> ->].
      inversion E2; subst. exfalso. enough (here [] = true) by congruence. apply Hh. exists [], []. done.
  - destruct (here (t :: text)) eqn:E.
    + split; [|done]. intros _. apply Hh in E as (t1 & t2 & E1 & E2 & E3).
      exists t1, t2. split; [done|]. split; [by constructor|done].
    + assert (N : forall t1 t2, t :: text = t1 ++ t2 -> matches (Star (atom_of c) :: l) t1 -> (e = true -> t2 = []) ->
        exists t1', t1 = t :: t1' /\ atom_ok (atom_of c) t /\ matches (Star (atom_of c) :: l) t1').
      { intros t1 t2 E1 E2 E3. inversion E2; subst.
        - exfalso. enough (here (t :: text) = true) by congruence. apply Hh. exists t1, t2. done.
        - simpl in E1. injection E1 as -> ->. eauto. }
      destruct ((t =? c) || (c =? 46)) eqn:Ea.
      * rewrite IH. split.
        -- intros (t1 & t2 & -> & E2 & E3). exists (t :: t1), t2. split; [done|].
           split; [|done]. constructor; [by apply atom_of_ok'|done].
        -- intros (t1 & t2 & E1 & E2 & E3). destruct (N t1 t2 E1 E2 E3) as (t1' & -> & _ & E4).
           simpl in E1. injection E1 as ->. eauto.
      * split; [done|]. intros (t1 & t2 & E1 & E2 & E3). destruct (N t1 t2 E1 E2 E3) as (t1' & _ & Ea' & _).
        apply atom_of_ok' in Ea'. congruence.
Qed.

(** One character, or the closing [$], in front of a pattern. *)
Lemma single_spec c re text :
  (forall t, matchhere re t = true <-> starts re t) ->
  (if (c =? 36) && bool_decide (re = []) then bool_decide (text = [])
   else match text with
        | [] => false
        | t :: text => if (c =? 46) || (c =? t) then matchhere re text else false
        end) = true <->
  exists t1 t2, text = t1 ++ t2 /\
    let p := if (c =? 36) && bool_decide (re = []) then ([], true)
             else (One (atom_of c) :: (parse re).1, (parse re).2) in
    matches p.1 t1 /\ (p.2 = true -> t2 = []).
Proof.
  intros IH. destruct ((c =? 36) && bool_decide (re = [])); cbn [fst snd].
  - rewrite bool_decide_eq_true. split.
    + intros ->. exists [], []. split; [done|]. split; [constructor|done].
    + intros (t1 & t2 & -> & E1 & E2). inversion E1; subst. by rewrite E2.
  - destruct text as [|t text].
    + split; [done|]. intros (t1 & t2 & E & E1 & _). inversion E1; subst. discriminate.
    + destruct ((c =? 46) || (c =? t)) eqn:Ea.
      * rewrite IH. split.
        -- intros (t1 & t2 & -> & E1 & E2). exists (t :: t1), t2. split; [done|].
           split; [|done]. constructor; [by apply atom_of_ok|done].
        -- intros (t1 & t2 & E & E1 & E2). inversion E1; subst. simpl in E. injection E as -> ->.
           exists t0, t2. done.
      * split; [done|]. intros (t1 & t2 & E & E1 & E2). inversion E1 as [|a d l t' Ha Hm| |]; subst.
        simpl in E. injection E as -> ->. apply atom_of_ok in Ha. congruence.
Qed.

Lemma matchhere_spec re text : matchhere re text = true <-> starts re text.
Proof.
  remember (length re) as n eqn:Hn. revert re Hn text.
  induction n as [n IH] using lt_wf_ind. intros [|c re] Hn text; simpl in Hn.
  - split; [|done]. intros _. exists [], text. split; [done|]. split; [constructor|done].
  - assert (S1 := fun text => single_spec c re text (fun t => IH (length re) ltac:(lia) re eq_refl t)).
    unfold starts. cbn [matchhere parse]. destruct re as [|d re2]; [apply S1|].
    destruct (d =? 42); [|apply S1]. cbn [fst snd]. simpl in Hn.
    apply matchstar_spec. intros t. apply (IH (length re2)); [lia|done].
Qed.

Lemma match_loop_spec re text :
  match_loop re text = true <-> exists pre post, text = pre ++ post /\ starts re post.
Proof.
  induction text as [|t text IH]; cbn [match_loop].
  - destruct (matchhere re []) eqn:E.
    + split; [|done]. intros _. exists [], []. split; [done|]. by apply matchhere_spec.
    + split; [done|]. intros (pre & post & E1 & E2). symmetry in E1. apply app_nil in E1 as [-> ->].
      apply matchhere_spec in E2. congruence.
  - destruct (matchhere re (t :: text)) eqn:E.
    + split; [|done]. intros _. exists [], (t :: text). split; [done|]. by apply matchhere_spec.
    + rewrite IH. split.
      * intros (pre & post & -> & H). exists (t :: pre), post. done.
      * intros (pre & post & E1 & E2). destruct pre as [|t' pre].
        -- simpl in E1. subst post. apply matchhere_spec in E2. congruence.
        -- simpl in E1. injection E1 as -> ->. eauto.
Qed.

Lemma match_spec re text : match_ re text = true <-> occurs re text.
Proof.
  destruct re as [|c re]; [apply match_loop_spec|]. unfold match_, occurs.
  destruct (c =? 94); [apply matchhere_spec|apply match_loop_spec].
Qed.

(** C33: [match] finds exactly the texts in which the pattern occurs: some
    part of the text, at the beginning after [^] and at the end before [$],
    is in the language of the pattern's items. *)
Theorem match_language re text : match_ re text = true <-> occurs re text.
Proof. apply match_spec. Qed.

(** ** Lines *)

(** The complete lines of a text and what follows the last newline. *)
Fixpoint complete (l : list Z) : list (list Z) * list Z :=
  match l with
  | [] => ([], [])
  | b :: l =>
    let (ls, r) := complete l in
    if b =? 10 then ([] :: ls, r)
    else match ls with
         | [] => ([], b :: r)
         | x :: ls => ((b :: x) :: ls, r)
         end
  end.

Lemma complete_none l : ~ In 10 l -> complete l = ([], l).
Proof.
  induction l as [|b l IH]; intros H; simpl in *; [done|].
  rewrite IH by tauto. destruct (Z.eqb_spec b 10); [tauto|done].
Qed.

Lemma complete_line l1 l2 :
  ~ In 10 l1 -> complete (l1 ++ 10 :: l2) = (l1 :: (complete l2).1, (complete l2).2).
Proof.
  induction l1 as [|b l1 IH]; intros H; simpl in *; [by destruct (complete l2)|].
  rewrite IH by tauto. destruct (Z.eqb_spec b 10); [tauto|done].
Qed.

Lemma complete_rest l : ~ In 10 (complete l).2.
Proof.
  induction l as [|b l IH]; simpl; [tauto|]. destruct (complete l) as [[|x ls] r]; simpl in *.
  - destruct (Z.eqb_spec b 10); simpl; [done|]. intros [?|?]; [congruence|done].
  - by destruct (b =? 10).
Qed.

Lemma index_of_Some c l i :
  index_of c l = Some i -> exists l1 l2, l = l1 ++ c :: l2 /\ length l1 = i /\ ~ In c l1.
Proof.
  revert i. induction l as [|b l IH]; intros i H; simpl in H; [done|].
  destruct (Z.eqb_spec b c) as [->|].
  - injection H as <-. exists [], l. split; [done|]. split; [done|tauto].
  - destruct (index_of c l) as [j|]; [|done]. simpl in H. injection H as <-.
    destruct (IH j eq_refl) as (l1 & l2 & -> & <- & Hn). exists (b :: l1), l2. split; [done|].
    split; [done|]. intros [?|?]; [congruence|done].
Qed.

Lemma index_of_None c l : index_of c l = None -> ~ In c l.
Proof.
  induction l as [|b l IH]; simpl; [tauto|]. destruct (Z.eqb_spec b c); [done|].
  destruct (index_of c l); [done|]. intros _ [?|?]; [congruence|]. by apply IH.
Qed.

Lemma complete_app l1 l2 :
  complete (l1 ++ l2) =
  ((complete l1).1 ++ (complete ((complete l1).2 ++ l2)).1, (complete ((complete l1).2 ++ l2)).2).
Proof.
  induction l1 as [|b l1 IH]; simpl; [by destruct (complete l2)|]. rewrite IH.
  destruct (complete l1) as [[|x ls] r]; destruct (Z.eqb_spec b 10) as [->|]; simpl; try done.
  destruct (complete (r ++ l2)) as [[|y ls2] r2]; simpl; destruct (Z.eqb_spec b 10); done.
Qed.

(** ** Filtering a stream *)

#[export] Instance occurs_dec re text : Decision (occurs re text).
Proof.
  destruct (match_ re text) eqn:E; [left|right]; [by apply match_spec|].
  intros H. apply match_spec in H. congruence.
Defined.

(** The lines in which the pattern occurs, each with its newline. *)
Definition selected (re : list Z) (ls : list (list Z)) : list Z :=
  concat ((fun x => x ++ [10]) <$> filter (occurs re) ls).

Lemma selected_cons re x ls :
  selected re (x :: ls) = (if match_ re x then x ++ [10] else []) ++ selected re ls.
Proof.
  unfold selected. rewrite filter_cons. destruct (match_ re x) eqn:E.
  - rewrite decide_True by (by apply match_spec). done.
  - rewrite decide_False; [done|]. intros H. apply match_spec in H. congruence.
Qed.

Lemma selected_app re ls1 ls2 : selected re (ls1 ++ ls2) = selected re ls1 ++ selected re ls2.
Proof. unfold selected. by rewrite filter_app, fmap_app, concat_app. Qed.

Lemma cstring_split m a l1 c l2 :
  cstring m a (l1 ++ c :: l2) ->
  Forall (fun c => c <> 0) l1 /\ ld_bytes m a (length l1) = l1 /\
  ld8 m (a + Z.of_nat (length l1)) = c /\ cstring m (a + Z.of_nat (length l1) + 1) l2.
Proof.
  revert a. induction l1 as [|b l1 IH]; intros a H; simpl in H.
  - destruct H as (? & ? & ?). simpl. rewrite Z.add_0_r. split; [constructor|]. split; [done|]. split; done.
  - destruct H as (Hb & E & H). destruct (IH (a + 1) H) as (H1 & H2 & H3 & H4). cbn [length ld_bytes].
    replace (a + Z.of_nat (S (length l1))) with (a + 1 + Z.of_nat (length l1)) by lia.
    rewrite E, H2. split; [by constructor|]. split; [done|]. split; [exact H3|exact H4].
Qed.

(** Every line fits in the buffer with room to read more. *)
Definition short (l : list Z) : Prop :=
  Forall (fun x => Z.of_nat (length x) <= 1022) (complete l).1 /\ Z.of_nat (length (complete l).2) <= 1022.

Lemma short_part part l : ~ In 10 part -> short (part ++ l) -> Z.of_nat (length part) <= 1022.
Proof.
  intros Hn [H1 H2]. destruct (index_of 10 l) as [i|] eqn:E.
  - apply index_of_Some in E as (l1 & l2 & -> & _ & Hl1). rewrite app_assoc, complete_line in H1.
    + apply Forall_cons in H1 as [H1 _]. rewrite length_app in H1. lia.
    + rewrite in_app_iff. tauto.
  - apply index_of_None in E. rewrite complete_none in H2.
    + simpl in H2. rewrite length_app in H2. lia.
    + rewrite in_app_iff. tauto.
Qed.

Lemma short_rest l1 l2 : short (l1 ++ l2) -> short ((complete l1).2 ++ l2).
Proof.
  unfold short. rewrite complete_app. cbn [fst snd]. rewrite Forall_app. tauto.
Qed.

Lemma nonzero_bytes l : Forall (fun c => 0 < c < 256) l -> Forall (fun c => c <> 0) l /\ bytes_ok l.
Proof.
  intros H. split; eapply Forall_impl; try exact H; intros c Hc; simpl in *; lia.
Qed.

Lemma complete_In l b : In b (complete l).2 -> In b l.
Proof.
  induction l as [|c l IH]; simpl; [tauto|].
  destruct (complete l) as [[|x ls] r]; destruct (c =? 10); simpl in *; tauto.
Qed.

(** A chunk read behind the part of a line that was kept. *)
Lemma chunk_string m buf part chunk :
  Forall (fun c => c <> 0) part -> ld_bytes m buf (length part) = part ->
  Forall (fun c => c <> 0) chunk -> bytes_ok chunk ->
  let n := Z.of_nat (length part) in
  cstring (st8 (st_bytes m (buf + n) chunk) (buf + (n + Z.of_nat (length chunk))) 0) buf (part ++ chunk).
Proof.
  intros Hp Hl Hc Hb n. apply cstring_iff. split; [by apply Forall_app|]. rewrite length_app, Nat2Z.inj_add. fold n. split.
  - rewrite ld_bytes_app. fold n. f_equal.
    + etransitivity; [|exact Hl]. apply ld_bytes_ext. intros b Hbb. rewrite ld8_st8_ne by lia.
      apply ld8_st_bytes_out. lia.
    + transitivity (ld_bytes (st_bytes m (buf + n) chunk) (buf + n) (length chunk)).
      * apply ld_bytes_ext. intros b Hbb. apply ld8_st8_ne. lia.
      * by apply ld_st_bytes_same.
  - apply ld8_st8_eq.
Qed.

Lemma memmove_bytes m d s n : mem_ok m -> 0 <= n -> ld_bytes (memmove m d s n) d (Z.to_nat n) = ld_bytes m s (Z.to_nat n).
Proof.
  intros Hok Hn. apply list_eq. intros i. destruct (decide (i < Z.to_nat n)%nat) as [Hi|Hi].
  - rewrite !lookup_ld_bytes by done. f_equal. rewrite (ulib_memmove m d s n Hok Hn), ld8_memmove by done.
    replace (s + (d + Z.of_nat i - d)) with (s + Z.of_nat i) by lia. zcases; simpl; try done; lia.
  - rewrite !lookup_ge_None_2; [done|rewrite length_ld_bytes; lia..].
Qed.

Section filter.
Context {W : Type} (h : os W) `{F : !FileOs h}.

Lemma string_at_run m w a l : cstring m a l -> runs h (string_at a) m w (Done l m) w.
Proof.
  unfold string_at. set (body := fun '(a, acc) => _).
  enough (G : forall acc a, cstring m a l -> runs h (uloop body (a, acc)) m w (Done (rev acc ++ l) m) w)
    by apply (G []).
  induction l as [|c l IH]; intros acc b H; simpl in H.
  - rewrite app_nil_r. apply runs_loop_stop. unfold body. ustep. rewrite H. apply runs_stop.
  - destruct H as (Hc & E & H). eapply runs_loop_next.
    + unfold body. ustep. rewrite E. destruct (Z.eqb_spec c 0); [done|]. apply runs_next.
    + specialize (IH (c :: acc) (b + 1) H). simpl in IH. by rewrite <- app_assoc in IH.
Qed.

Context (buf pat : Z) (re : list Z).
Hypothesis Hbuf : 0 < buf.
Hypothesis Hpat : pat + Z.of_nat (length re) < buf \/ buf + 1024 <= pat.

(** Only bytes of the buffer have changed. *)
Definition outside (m m' : memory) : Prop :=
  (mem_ok m -> mem_ok m') /\ forall b, b < buf \/ buf + 1024 <= b -> ld8 m' b = ld8 m b.

Lemma outside_trans m1 m2 m3 : outside m1 m2 -> outside m2 m3 -> outside m1 m3.
Proof using. clear. intros [A1 B1] [A2 B2]. split; [by auto|]. intros b Hb. by rewrite B2, B1. Qed.

Lemma pattern_kept m m' : outside m m' -> cstring m pat re -> cstring m' pat re.
Proof using Hpat.
  intros Ho. apply cstring_ext. intros b Hb. symmetry. apply Ho. lia.
Qed.

(** One turn of the loop over the lines. *)
Lemma grep_line m w p l1 l2 :
  cstring m pat re -> cstring m p (l1 ++ 10 :: l2) -> ~ In 10 l1 ->
  buf <= p -> p + Z.of_nat (length l1) < buf + 1024 ->
  exists m' w', (forall r w2, runs h (grep_lines pat (p + Z.of_nat (length l1) + 1)) m' w' r w2 ->
      runs h (grep_lines pat p) m w r w2) /\
    cstring m' (p + Z.of_nat (length l1) + 1) l2 /\ outside m m' /\
    emitted h w w' 1 (if match_ re l1 then l1 ++ [10] else []).
Proof using Hbuf Hpat.
  intros Hre Hl Hnl Hp Hlt. set (q := p + Z.of_nat (length l1)) in *.
  destruct (cstring_split _ _ _ _ _ Hl) as (Hnz & Hld & Hq & Hl2). fold q in Hq, Hl2.
  assert (Hidx : index_of 10 (l1 ++ 10 :: l2) = Some (length l1)).
  { clear -Hnl. induction l1 as [|b l1 IH]; simpl in *; [done|].
    destruct (Z.eqb_spec b 10); [tauto|]. by rewrite IH by tauto. }
  set (m1 := st8 m q 0).
  assert (Ho1 : outside m m1).
  { split; [apply st8_ok|]. intros b Hb. apply ld8_st8_ne. lia. }
  assert (H1 : cstring m1 p l1).
  { apply cstring_iff. split; [done|]. split.
    - rewrite <- Hld at 2. apply ld_bytes_ext. intros b Hb. apply ld8_st8_ne. lia.
    - apply ld8_st8_eq. }
  assert (Hrun : forall r w' m' w2,
    runs h (if match_ re l1 then do! store8 q 10; do! write 1 (At p) (q + 1 - p); uret tt else uret tt) m1 w (Done tt m') w' ->
    runs h (grep_lines pat (q + 1)) m' w' r w2 -> runs h (grep_lines pat p) m w r w2).
  { intros r w' m' w2 R R2. unfold grep_lines. eapply runs_loop_next; [|exact R2].
    ustep with (strchr_run h m w p (l1 ++ 10 :: l2) 10 Hl). rewrite Hidx. fold q.
    destruct (Z.eqb_spec q 0); [lia|]. ustep with runs_store8.
    ustep with (string_at_run m1 w pat re (pattern_kept _ _ Ho1 Hre)).
    ustep with (string_at_run m1 w p l1 H1). ustep with R. apply runs_next. }
  destruct (match_ re l1).
  - set (m2 := st8 m1 q 10).
    assert (E2 : forall b, ld8 m2 b = ld8 m b).
    { intros b. unfold m2, m1. rewrite !ld8_st8. destruct (Z.eqb_spec q b) as [<-|]; [by rewrite Hq|done]. }
    destruct (write_prints h m2 w 1 (l1 ++ [10])) as (w' & R & E). exists m2, w'.
    split; [|split; [|split; [|done]]].
    + intros r w2. apply Hrun. ustep with runs_store8. unfold write. eapply runs_bind; [|apply runs_ret].
      ustep. replace (Z.to_nat (q + 1 - p)) with (length l1 + 1)%nat by lia.
      rewrite ld_bytes_app, (ld_bytes_ext m2 m), Hld by auto. cbn [ld_bytes]. fold q. rewrite E2, Hq. exact R.
    + eapply cstring_ext; [|exact Hl2]. intros. by rewrite E2.
    + split; [intros; by apply st8_ok, st8_ok|]. intros b _. apply E2.
  - exists m1, w. split; [|split; [|split; [done|apply emitted_nil]]].
    + intros r w2. apply Hrun. apply runs_ret.
    + eapply cstring_ext; [|exact Hl2]. intros b Hb. symmetry. apply ld8_st8_ne. lia.
Qed.

Lemma grep_lines_run m w p l :
  cstring m pat re -> cstring m p l -> buf <= p -> p + Z.of_nat (length l) < buf + 1024 ->
  exists m' w' p', runs h (grep_lines pat p) m w (Done p' m') w' /\
    p' + Z.of_nat (length (complete l).2) = p + Z.of_nat (length l) /\ p <= p' /\
    cstring m' p' (complete l).2 /\ outside m m' /\ emitted h w w' 1 (selected re (complete l).1).
Proof using Hbuf Hpat.
  remember (length l) as n eqn:Hn. revert m w p l Hn.
  induction n as [n IH] using lt_wf_ind. intros m w p l Hn Hre Hl Hp Hlt. subst n.
  destruct (index_of 10 l) as [i|] eqn:E.
  - apply index_of_Some in E as (l1 & l2 & -> & <- & Hnl). rewrite complete_line by done. cbn [fst snd].
    rewrite length_app in *. simpl length in *.
    destruct (grep_line m w p l1 l2) as (m1 & w1 & Hr & Hl2 & Ho & He); try done; [lia|].
    destruct (IH (length l2)) with (m := m1) (w := w1) (p := p + Z.of_nat (length l1) + 1) (l := l2)
      as (m' & w' & p' & R & Hp' & Hpp & Hc & Ho' & He'); try done; [lia|by eapply pattern_kept|lia|lia|].
    exists m', w', p'. split; [by apply Hr|]. split; [lia|]. split; [lia|]. split; [done|]. split.
    + by eapply outside_trans.
    + rewrite selected_cons. by eapply emitted_trans.
  - apply index_of_None in E as Hni. rewrite complete_none by done. cbn [fst snd].
    exists m, w, p. split; [|split; [lia|split; [lia|split; [done|split; [by split|apply emitted_nil]]]]].
    apply runs_loop_stop. ustep with (strchr_run h m w p l 10 Hl). rewrite E. apply runs_stop.
Qed.


(** The loop of [grep], with the part of a line kept from the last read. *)
Lemma grep_loop fd m w part :
  mem_ok m -> cstring m pat re -> ld_bytes m buf (length part) = part -> ~ In 10 part ->
  Forall (fun c => 0 < c < 256) (part ++ pending w fd) -> short (part ++ pending w fd) ->
  exists m' w', runs h (uloop (fun m =>
      let! n := read fd (buf + m) (1024 - m - 1) in
      if n >? 0 then
        let m := m + n in
        do! store8 (buf + m) 0;
        let! p := grep_lines pat buf in
        if m >? 0 then
          let m := m - (p - buf) in
          let! mem := getm in
          do! putm (memmove mem buf p m);
          next m
        else next m
      else stop tt) (Z.of_nat (length part))) m w (Done tt m') w' /\ drained h w w' fd /\
    forall g, written w' g =
      if g =? 1 then written w 1 ++ selected re (complete (part ++ pending w fd)).1 else written w g.
Proof using Hbuf Hpat.
  set (body := fun m : Z => _).
  remember (length (pending w fd)) as N eqn:HN. revert m w part HN.
  induction N as [N IH] using lt_wf_ind. intros m w part HN Hok Hre Hpart Hnl Hch Hs.
  assert (Hlen := short_part _ _ Hnl Hs). set (n := Z.of_nat (length part)). assert (Hn0 : 0 <= n) by (unfold n; lia).
  destruct (read_run h m w fd (buf + n) (1024 - n - 1) ltac:(lia)) as (k & w1 & R & Hk & Hkn & H0 & Hp & Hw).
  destruct (decide (k = 0%nat)) as [->|Hk0].
  - eexists _, w1. rewrite (H0 eq_refl), app_nil_r, complete_none by done. split; [|split; [split|]].
    + apply runs_loop_stop. unfold body. ustep with R. apply runs_stop.
    + by rewrite Hp, Z.eqb_refl, (H0 eq_refl).
    + intros g Hg. rewrite Hp. by destruct (Z.eqb_spec g fd).
    + intros g. rewrite Hw. unfold selected. simpl. rewrite app_nil_r. by destruct (Z.eqb_spec g 1) as [->|].
  - set (chunk := take k (pending w fd)) in *. set (m1 := st_bytes m (buf + n) chunk) in *.
    assert (Hlk : length chunk = k) by (unfold chunk; rewrite length_take; lia).
    pose proof Hch as [Hch1 Hch2]%Forall_app.
    assert (Hchk : Forall (fun c => 0 < c < 256) chunk) by (by apply Forall_take).
    set (m2 := st8 m1 (buf + (n + Z.of_nat k)) 0).
    assert (Hc2 : cstring m2 buf (part ++ chunk)).
    { unfold m2, m1. rewrite <- Hlk. apply chunk_string; [|done|..]; by apply nonzero_bytes. }
    assert (Ho2 : outside m m2).
    { split; [intros; by apply st8_ok, st_bytes_mem_ok|]. intros b Hb. unfold m2, m1. rewrite ld8_st8_ne by lia.
      apply ld8_st_bytes_out. rewrite Hlk. lia. }
    destruct (grep_lines_run m2 w1 buf (part ++ chunk)) as (m3 & w2 & p & R3 & Hp3 & Hpp & Hc3 & Ho3 & [E1 E2]).
    { by apply (pattern_kept m). } { done. } { lia. } { rewrite length_app, Hlk. lia. }
    set (r := (complete (part ++ chunk)).2) in *.
    assert (Hm : n + Z.of_nat k - (p - buf) = Z.of_nat (length r)).
    { rewrite length_app, Hlk in Hp3. lia. }
    assert (Hok3 : mem_ok m3) by (by apply Ho3, Ho2).
    set (m4 := memmove m3 buf p (Z.of_nat (length r))).
    assert (Ep : part ++ pending w fd = (part ++ chunk) ++ pending w2 fd).
    { rewrite E2, Hp, Z.eqb_refl, <- app_assoc. unfold chunk. by rewrite take_drop. }
    destruct (IH (length (pending w2 fd))) with (m := m4) (w := w2) (part := r) as (m' & w' & R' & [D1 D2] & E').
    { rewrite E2, Hp, Z.eqb_refl, length_drop. lia. }
    { done. } { apply umemmove_ok, Hok3. }
    { apply (pattern_kept m3); [|by apply (pattern_kept m2), (pattern_kept m)].
      rewrite length_app, Hlk in Hp3. split; [intros; by apply umemmove_ok|]. intros b Hb. unfold m4.
      rewrite (ulib_memmove m3 buf p _ Hok3), ld8_memmove by (done || lia).
      destruct (Z.leb_spec buf b), (Z.ltb_spec b (buf + Z.of_nat (length r))); simpl; try done; lia. }
    { unfold m4. pose proof (memmove_bytes m3 buf p (Z.of_nat (length r)) Hok3) as E. rewrite Nat2Z.id in E.
      rewrite E by lia. apply cstring_iff in Hc3. apply Hc3. }
    { apply complete_rest. }
    { rewrite Ep in Hch. apply Forall_app in Hch as [Ha Hb]. apply Forall_app. split; [|done].
      rewrite Forall_forall in Ha |- *. intros c Hc. apply Ha. apply list_elem_of_In, complete_In.
      by apply list_elem_of_In. }
    { unfold r. apply short_rest. by rewrite <- Ep. }
    exists m', w'. split; [|split; [split; [done|]|]].
    + eapply runs_loop_next; [|exact R']. unfold body. ustep with R.
      destruct (Z.gtb_spec (Z.of_nat k) 0); [|lia]. ustep with runs_store8. ustep with R3.
      destruct (Z.gtb_spec (n + Z.of_nat k) 0); [|lia]. ustep. rewrite Hm. ustep. apply runs_next.
    + intros g Hg. rewrite D2, E2, Hp by done. by destruct (Z.eqb_spec g fd).
    + intros g. rewrite E', !E1, !Hw, Ep, (complete_app (part ++ chunk)). fold r. cbn [fst].
      rewrite selected_app. destruct (Z.eqb_spec g 1) as [->|]; [|done]. by rewrite app_assoc.
Qed.


(** C29: [grep] comes to an end and prints exactly the complete lines in
    which the pattern occurs, in their order, however the kernel splits the
    input over its reads.  The input has no NUL byte and no line of 1023
    bytes or more; what follows the last newline is not looked at. *)
Theorem grep_selects fd m w :
  mem_ok m -> cstring m pat re ->
  Forall (fun c => 0 < c < 256) (pending w fd) -> short (pending w fd) ->
  exists m' w', runs h (grep buf pat fd) m w (Done tt m') w' /\ drained h w w' fd /\
    forall g, written w' g =
      if g =? 1 then written w 1 ++ selected re (complete (pending w fd)).1 else written w g.
Proof using Hbuf Hpat. 
  intros Hm Hre Hb Hs. apply (grep_loop fd m w []); try done. apply in_nil.
Qed.

End filter.

(** The pattern [^t.*o$] over the demonstration text and one more line. *)
Definition grep_streams : streams := mkstreams {[0 := demo_text ++ bytes_of "two to" ++ [10] ++ bytes_of "to"]} ∅ 3.
Definition grep_pattern : list Z := bytes_of "^t.*o$".
Definition grep_memory : memory := st_bytes ∅ 100 grep_pattern.

Lemma grep_selects_witness : exists m' w',
  runs stream_os (grep 1000 100 0) grep_memory grep_streams (Done tt m') w' /\
  written w' 1 = bytes_of "two to" ++ [10].
Proof.
  destruct (grep_selects stream_os 1000 100 grep_pattern ltac:(lia) ltac:(simpl; lia) 0 grep_memory grep_streams)
    as (m' & w' & R & _ & E).
  { apply st_bytes_mem_ok, mem_ok_empty. }
  { repeat split; discriminate. }
  { repeat constructor. }
  { split; vm_compute; repeat constructor; discriminate. }
  exists m', w'. split; [exact R|]. rewrite E. reflexivity.
Defined.
