(* ===== verification/Grind.v ===== *)
(** * user/grind.c

    Random system calls in parallel, for ever.  [rand_next], a global of the
    program, is passed along; [fork] copies it as it copies all memory.  The
    random generator computes, without leaving 32 bits, the multiplicative
    generator of Park and Miller. *)

From S2P Require Import Prelude Param Mem CString User Ulib Utils.
From ITree Require Import ITree.
Open Scope Z_scope.
Open Scope user_scope.

(** ** The generator *)

(** C's [/] and [%] on the non-negative numbers used here. *)
Definition do_rand (ctx : Z) : Z :=
  let x := ctx mod 0x7ffffffe + 1 in
  let hi := x / 127773 in
  let lo := x mod 127773 in
  let x := 16807 * lo - 2836 * hi in
  let x := if x <? 0 then x + 0x7fffffff else x in
  x - 1.

(** The number drawn, which is also the next value of [rand_next]. *)
Definition rand (rand_next : Z) : Z * Z := let x := do_rand rand_next in (s32 x, u64 x).

(** ** System calls *)

(** [printf(s); exit(n);] *)
Definition die (s : string) (n : Z) : U unit := do! printf (line s) []; uexit n.
Definition die2 (s : string) (n : Z) : U unit := do! fprintf 2 (line s) []; uexit n.

(** [close(open(name, O_CREATE|O_RDWR))] *)
Definition touch (name : string) : U unit :=
  let! fd := open (lit name) (Z.lor O_CREATE O_RDWR) in
  do! sys (Close fd);
  uret tt.

Definition unlink (name : string) : U unit := do! sys (Unlink (bytes_of name)); uret tt.
Definition mkdir (name : string) : U unit := do! sys (Mkdir (bytes_of name)); uret tt.

(** Cases 1 to 12: names, files and directories; the result is [fd]. *)
Definition file_calls (buf fd what : Z) : U Z :=
  if what =? 1 then do! touch "grindir/../a"; uret fd
  else if what =? 2 then do! touch "grindir/../grindir/../b"; uret fd
  else if what =? 3 then do! unlink "grindir/../a"; uret fd
  else if what =? 4 then
    let! r := sys (Chdir (bytes_of "grindir")) in
    do! (if negb (r =? 0) then die "grind: chdir grindir failed" 1 else uret tt);
    do! unlink "../b";
    do! sys (Chdir (bytes_of "/"));
    uret fd
  else if what =? 5 then
    do! sys (Close fd);
    open (lit "/grindir/../a") (Z.lor O_CREATE O_RDWR)
  else if what =? 6 then
    do! sys (Close fd);
    open (lit "/./grindir/./../b") (Z.lor O_CREATE O_RDWR)
  else if what =? 7 then do! write fd (At buf) 999; uret fd
  else if what =? 8 then do! read fd buf 999; uret fd
  else if what =? 9 then
    do! mkdir "grindir/../a";
    do! touch "a/../a/./a";
    do! unlink "a/a";
    uret fd
  else if what =? 10 then
    do! mkdir "/../b";
    do! touch "grindir/../b/b";
    do! unlink "b/b";
    uret fd
  else if what =? 11 then
    do! unlink "b";
    do! sys (Link (bytes_of "../grindir/./../a") (bytes_of "../b"));
    uret fd
  else if what =? 12 then
    do! unlink "../grindir/../a";
    do! sys (Link (bytes_of ".././b") (bytes_of "/grindir/../a"));
    uret fd
  else uret fd.

(** [int pid = fork(); if(pid == 0) child else if(pid < 0) fail]; the parent
    goes on with the pid. *)
Definition forked (child : U unit) : U Z :=
  let! pid := sys Fork in
  do! (if pid =? 0 then child else if pid <? 0 then die "grind: fork failed" 1 else uret tt);
  uret pid.

Definition wait0 : U unit := do! sys Wait; uret tt.

(** Cases 13 to 20: processes. *)
Definition process_calls (break0 what : Z) : U unit :=
  if what =? 13 then do! forked (uexit 0); wait0
  else if what =? 14 then
    do! forked (do! sys Fork; do! sys Fork; uexit 0);
    wait0
  else if what =? 15 then do! sys (Sbrk 6011); uret tt
  else if what =? 16 then
    let! b := sys (Sbrk 0) in
    if u64 b >? u64 break0 then
      let! b := sys (Sbrk 0) in
      do! sys (Sbrk (s32 (- (b - break0))));
      uret tt
    else uret tt
  else if what =? 17 then
    let! pid := forked (do! touch "a"; uexit 0) in
    let! r := sys (Chdir (bytes_of "../grindir/..")) in
    do! (if negb (r =? 0) then die "grind: chdir failed" 1 else uret tt);
    do! sys (Kill pid);
    wait0
  else if what =? 18 then
    do! forked (let! me := sys Getpid in do! sys (Kill me); uexit 0);
    wait0
  else if what =? 19 then
    let! (r, (fd0, fd1)) := sys Pipe in
    do! (if r <? 0 then die "grind: pipe failed" 1 else uret tt);
    do! forked (
      do! sys Fork;
      do! sys Fork;
      let! n := write fd1 (lit "x") 1 in
      do! (if negb (n =? 1) then printf (line "grind: pipe write failed") [] else uret tt);
      let! (n, _) := sys (Read fd0 1) in
      do! (if negb (n =? 1) then printf (line "grind: pipe read failed") [] else uret tt);
      uexit 0);
    do! sys (Close fd0);
    do! sys (Close fd1);
    wait0
  else if what =? 20 then
    do! forked (
      do! unlink "a";
      do! mkdir "a";
      do! sys (Chdir (bytes_of "a"));
      do! unlink "../a";
      do! open (lit "x") (Z.lor O_CREATE O_RDWR);
      do! unlink "x";
      uexit 0);
    wait0
  else uret tt.

(** Case 21: a new file. *)
Definition create_c : U unit :=
  do! unlink "c";
  let! fd1 := open (lit "c") (Z.lor O_CREATE O_RDWR) in
  do! (if fd1 <? 0 then die "grind: create c failed" 1 else uret tt);
  let! n := write fd1 (lit "x") 1 in
  do! (if negb (n =? 1) then die "grind: write c failed" 1 else uret tt);
  let! (r, st) := sys (Fstat fd1) in
  do! (if negb (r =? 0) then die "grind: fstat failed" 1 else uret tt);
  do! (if negb (Ls.st_size st =? 1) then
         do! printf (line "grind: fstat reports wrong size %d") [Unum (s32 (Ls.st_size st))];
         uexit 1
       else uret tt);
  do! (if Ls.st_ino st >? 200 then
         do! printf (line "grind: fstat reports crazy i-number %d") [Unum (Ls.st_ino st)];
         uexit 1
       else uret tt);
  do! sys (Close fd1);
  unlink "c".

(** Case 22, [echo hi | cat]: its two children and the parent. *)
Definition echo_child (aa bb : Z * Z) : U unit :=
  do! sys (Close bb.1);
  do! sys (Close bb.2);
  do! sys (Close aa.1);
  do! sys (Close 1);
  let! r := sys (Dup aa.2) in
  do! (if negb (r =? 1) then die2 "grind: dup failed" 1 else uret tt);
  do! sys (Close aa.2);
  do! exec (lit "grindir/../echo") [lit "echo"; lit "hi"];
  die2 "grind: echo: not found" 2.

Definition cat_child (aa bb : Z * Z) : U unit :=
  do! sys (Close aa.2);
  do! sys (Close bb.1);
  do! sys (Close 0);
  let! r := sys (Dup aa.1) in
  do! (if negb (r =? 0) then die2 "grind: dup failed" 4 else uret tt);
  do! sys (Close aa.1);
  do! sys (Close 1);
  let! r := sys (Dup bb.2) in
  do! (if negb (r =? 1) then die2 "grind: dup failed" 5 else uret tt);
  do! sys (Close bb.2);
  do! exec (lit "/cat") [lit "cat"];
  die2 "grind: cat: not found" 6.

(** [read(fd, buf+i, 1)] into a zeroed buffer: the byte that is then there. *)
Definition read1 (fd : Z) : U Z := let! (_, bs) := sys (Read fd 1) in uret (hd 0 bs).

(** The string in a zeroed buffer. *)
Fixpoint cut (l : list Z) : list Z :=
  match l with
  | [] => []
  | c :: l => if c =? 0 then [] else c :: cut l
  end.

Definition pipeline : U unit :=
  let! (r, aa) := sys Pipe in
  do! (if r <? 0 then die2 "grind: pipe failed" 1 else uret tt);
  let! (r, bb) := sys Pipe in
  do! (if r <? 0 then die2 "grind: pipe failed" 1 else uret tt);
  let! pid1 := sys Fork in
  do! (if pid1 =? 0 then echo_child aa bb else if pid1 <? 0 then die2 "grind: fork failed" 3 else uret tt);
  let! pid2 := sys Fork in
  do! (if pid2 =? 0 then cat_child aa bb else if pid2 <? 0 then die2 "grind: fork failed" 7 else uret tt);
  do! sys (Close aa.1);
  do! sys (Close aa.2);
  do! sys (Close bb.2);
  let! b0 := read1 bb.1 in
  let! b1 := read1 bb.1 in
  let! b2 := read1 bb.1 in
  let buf := cut [b0; b1; b2] in
  do! sys (Close bb.1);
  let! (_, st1) := sys Wait in
  let! (_, st2) := sys Wait in
  if negb (st1 =? 0) || negb (st2 =? 0) || negb (bool_decide (buf = line "hi")) then
    do! printf (bytes_of "grind: exec pipeline failed %d %d " ++ [34] ++ bytes_of "%s" ++ [34; 10])
      [Unum st1; Unum st2; Ustr (Some (Lit buf))];
    uexit 1
  else uret tt.

(** One turn of the loop of [go]: the new [iters], [rand_next] and [fd].  [buf]
    is the static buffer of 999 bytes. *)
Definition go_turn (which_child buf break0 iters rand_next fd : Z) : U (Z * Z * Z) :=
  let iters := u64 (iters + 1) in
  do! (if iters mod 500 =? 0 then
         do! write 1 (lit (if which_child =? 0 then "A" else "B")) 1;
         uret tt
       else uret tt);
  let (r, rand_next) := rand rand_next in
  let what := r mod 23 in
  let! fd :=
    (if what <=? 12 then file_calls buf fd what
     else if what <=? 20 then do! process_calls break0 what; uret fd
     else if what =? 21 then do! create_c; uret fd
     else do! pipeline; uret fd) in
  uret (iters, rand_next, fd).

Definition go (buf which_child rand_next : Z) : U unit :=
  let! break0 := sys (Sbrk 0) in
  do! mkdir "grindir";
  let! r := sys (Chdir (bytes_of "grindir")) in
  do! (if negb (r =? 0) then die "grind: chdir grindir failed" 1 else uret tt);
  do! sys (Chdir (bytes_of "/"));
  uloop (fun '(iters, rand_next, fd) =>
    let! st := go_turn which_child buf break0 iters rand_next fd in
    next st) (0, rand_next, -1).

Definition iter (buf rand_next : Z) : U unit :=
  do! unlink "a";
  do! unlink "b";
  let! pid1 := sys Fork in
  do! (if pid1 <? 0 then die "grind: fork failed" 1 else uret tt);
  do! (if pid1 =? 0 then do! go buf 0 (Z.lxor rand_next 31); uexit 0 else uret tt);
  let! pid2 := sys Fork in
  do! (if pid2 <? 0 then die "grind: fork failed" 1 else uret tt);
  do! (if pid2 =? 0 then do! go buf 1 (Z.lxor rand_next 7177); uexit 0 else uret tt);
  let! (r, x) := sys Wait in
  let st1 := if r <? 0 then -1 else x in
  do! (if negb (st1 =? 0) then do! sys (Kill pid1); do! sys (Kill pid2); uret tt else uret tt);
  do! sys Wait;
  uexit 0.

Definition main (buf : Z) : U unit :=
  uloop (fun rand_next =>
    let! pid := sys Fork in
    do! (if pid =? 0 then do! iter buf rand_next; uexit 0 else uret tt);
    do! (if pid >? 0 then wait0 else uret tt);
    do! sys (Sleep 20);
    next (u64 (rand_next + 1))) 1.

(** ** The generator is that of Park and Miller *)

Definition park_miller (x : Z) : Z := (16807 * x) mod 0x7fffffff.

Lemma schrage x : 1 <= x <= 0x7ffffffe ->
  let y := 16807 * (x mod 127773) - 2836 * (x / 127773) in
  (if y <? 0 then y + 0x7fffffff else y) = park_miller x /\ - 2 ^ 31 < y < 2 ^ 31.
Proof.
  intros Hx y. pose proof (Z.div_mod x 127773 ltac:(lia)) as E. pose proof (Z.mod_pos_bound x 127773 ltac:(lia)) as Hm.
  assert (Hq : 0 <= x / 127773 <= 16807) by (split; [apply Z.div_pos; lia|apply Z.lt_succ_r, Z.div_lt_upper_bound; lia]).
  set (hi := x / 127773) in *. set (lo := x mod 127773) in *.
  assert (Ey : 16807 * x = 0x7fffffff * hi + y) by (unfold y; lia).
  assert (Hy : - 0x7fffffff < y < 0x7fffffff) by (unfold y; lia).
  split; [|lia]. unfold park_miller. rewrite Ey.
  assert (Hn : y <> 0).
  { intros E0. rewrite E0, Z.add_0_r in Ey.
    assert (Hr : (16807 * x) mod 0x7fffffff = 0) by (rewrite Ey, Z.mul_comm; apply Z.mod_mul; lia).
    apply Z.mod_divide in Hr; [|lia]. apply Z.gauss in Hr; [|reflexivity].
    apply Z.divide_pos_le in Hr; lia. }
  replace (0x7fffffff * hi + y) with (y + hi * 0x7fffffff) by lia. rewrite Z.mod_add by lia. destruct (Z.ltb_spec y 0) as [Hneg|Hpos].
  - rewrite <- (Z.mod_add y 1) by lia. rewrite Z.mod_small; lia.
  - rewrite Z.mod_small; lia.
Qed.

(** [do_rand] computes the generator of Park and Miller on the
    numbers 1 to 2^31 - 2, shifted by one, for every value of the context: no
    intermediate result leaves 32 bits, and the result is between 0 and
    0x7ffffffd. *)
Theorem do_rand_park_miller ctx : 0 <= ctx ->
  do_rand ctx = park_miller (ctx mod 0x7ffffffe + 1) - 1 /\ 0 <= do_rand ctx <= 0x7ffffffd /\
  rand ctx = (do_rand ctx, do_rand ctx).
Proof.
  intros Hc. pose proof (Z.mod_pos_bound ctx 0x7ffffffe ltac:(lia)) as Hm.
  set (x := ctx mod 0x7ffffffe + 1). assert (Hx : 1 <= x <= 0x7ffffffe) by (unfold x; lia).
  destruct (schrage x Hx) as [E Hr]. assert (Ed : do_rand ctx = park_miller x - 1) by (unfold do_rand; fold x; by rewrite <- E).
  assert (Hp : 1 <= park_miller x <= 0x7ffffffe).
  { pose proof (Z.mod_pos_bound (16807 * x) 0x7fffffff ltac:(lia)) as Hb. fold (park_miller x) in Hb.
    enough (park_miller x <> 0) by lia. intros E0. apply Z.mod_divide in E0; [|lia]. apply Z.gauss in E0; [|reflexivity].
    apply Z.divide_pos_le in E0; lia. }
  split; [done|]. rewrite Ed. split; [lia|]. unfold rand. rewrite Ed. rewrite s32_small, u64_small by lia. done.
Qed.

(** The sequence from the seed 1. *)
Example rand_seed : map fst [rand 1; rand (snd (rand 1)); rand (snd (rand (snd (rand 1))))] = [33613; 564950497; 1097816498].
Proof. vm_compute. reflexivity. Qed.
