(* ===== verification/Umalloc.v ===== *)
(** * user/umalloc.c: the user-level memory allocator

    A [Header] is 16 bytes: the pointer to the next free block at offset 0
    and the size of the block in headers at offset 8.  Pointer arithmetic on
    headers is in steps of 16.  The static variables [base] and [freep] are
    at the addresses of the section. *)

From S2P Require Import Prelude Param Mem CString User Ulib.
From ITree Require Import ITree.
Open Scope Z_scope.
Open Scope user_scope.

Definition sizeof_header : Z := 16.

Section umalloc.
Context (base freep : Z).

Definition get_ptr (p : Z) : U Z := load 8 p.
Definition get_size (p : Z) : U Z := load 4 (p + 8).
Definition set_ptr (p v : Z) : U unit := store 8 p v.
Definition set_size (p v : Z) : U unit := store 4 (p + 8) v.

(** The loop that looks for the block after which [bp] belongs. *)
Definition find_prev (bp p : Z) : U Z :=
  uloop (fun p =>
    let! q := get_ptr p in
    if (bp >? p) && (bp <? q) then stop p
    else if (p >=? q) && ((bp >? p) || (bp <? q)) then stop p
    else next q) p.

Definition free (ap : Z) : U unit :=
  let bp := ap - sizeof_header in
  let! fp := load 8 freep in
  let! p := find_prev bp fp in
  let! q := get_ptr p in
  let! n := get_size bp in
  do! (if bp + n * sizeof_header =? q then
         let! nq := get_size q in
         do! set_size bp (u32 (n + nq));
         let! qq := get_ptr q in
         set_ptr bp qq
       else set_ptr bp q);
  let! np := get_size p in
  do! (if p + np * sizeof_header =? bp then
         let! n := get_size bp in
         do! set_size p (u32 (np + n));
         let! q := get_ptr bp in
         set_ptr p q
       else set_ptr p bp);
  store 8 freep p.

Definition morecore (nu : Z) : U Z :=
  let nu := if nu <? 4096 then 4096 else nu in
  let! p := sys (Sbrk (s32 (nu * sizeof_header))) in
  if p =? -1 then uret 0
  else
    do! set_size p nu;
    do! free (p + sizeof_header);
    load 8 freep.

(** The block found is unlinked, or its tail is cut off. *)
Definition take_block (prevp p nunits : Z) : U Z :=
  let! n := get_size p in
  let! p := (if n =? nunits then
      let! q := get_ptr p in
      do! set_ptr prevp q;
      uret p
    else
      do! set_size p (u32 (n - nunits));
      let p := p + u32 (n - nunits) * sizeof_header in
      do! set_size p nunits;
      uret p) in
  do! store 8 freep prevp;
  uret (p + sizeof_header).

Definition nunits_of (nbytes : Z) : Z :=
  u32 (u64 (nbytes + sizeof_header - 1) / sizeof_header + 1).

(** One turn of the search: the block [p] after [prevp]. *)
Definition malloc_turn (nunits : Z) (pp : Z * Z) : U (Z * Z + Z) :=
  let (prevp, p) := pp in
  let! n := get_size p in
  if n >=? nunits then
    let! r := take_block prevp p nunits in
    stop r
  else
    let! fp := load 8 freep in
    let advance p := (let! q := get_ptr p in next (p, q)) in
    if p =? fp then
      let! p := morecore nunits in
      if p =? 0 then stop 0 else advance p
    else advance p.

Definition malloc (nbytes : Z) : U Z :=
  let nunits := nunits_of nbytes in
  let! fp := load 8 freep in
  let! prevp := (if fp =? 0 then
      do! store 8 freep base;
      do! set_ptr base base;
      do! set_size base 0;
      uret base
    else uret fp) in
  let! p := get_ptr prevp in
  uloop (malloc_turn nunits) (prevp, p).

End umalloc.
