(* ===== verification/Freelist.v ===== *)
(** * The free list of user/umalloc.c

    The headers of the free blocks form a circular list, sorted by address,
    that starts at [base].  [heap] ties memory to the list of free blocks and
    to the list of blocks in use; [free] and [malloc] are shown to end, to
    keep it, and never to touch a block in use.  A block is a pair: the
    address of its header and its size in headers. *)

From S2P Require Import Prelude Param Mem CString User Ulib Umalloc.
From ITree Require Import ITree.
Open Scope Z_scope.
Open Scope user_scope.

(** ** Blocks *)

Abbreviation blk := (Z * Z)%type.

(** The end of a block, and the end of what it occupies: [base] has size 0
    but its header is there. *)
Definition fin (b : blk) : Z := b.1 + sizeof_header * b.2.
Definition hfin (b : blk) : Z := b.1 + sizeof_header * Z.max 1 b.2.

Definition apart (b c : blk) : Prop := hfin b <= c.1 \/ hfin c <= b.1.

(** Every two blocks of a list are apart. *)
Fixpoint apart_all (l : list blk) : Prop :=
  match l with
  | [] => True
  | b :: l => Forall (apart b) l /\ apart_all l
  end.

Ltac ublia := unfold apart, hfin, fin, sizeof_header in *; cbn [fst snd] in *; lia.

Lemma apart_sym b c : apart b c -> apart c b.
Proof. unfold apart. tauto. Qed.

Lemma apart_all_app l1 l2 :
  apart_all (l1 ++ l2) <-> apart_all l1 /\ apart_all l2 /\ Forall (fun c => Forall (fun b => apart b c) l1) l2.
Proof.
  induction l1 as [|b l1 IH]; simpl.
  - split; [intros H; split_and!; [done|done|]|tauto]. by apply Forall_true.
  - rewrite Forall_app, IH. split.
    + intros ([H1 H2] & H3 & H4 & H5). split_and!; [done|done|done|].
      rewrite Forall_forall in H2, H5 |- *. intros c Hc. constructor; auto.
    + intros ((H1 & H2) & H3 & H4). split_and!; [done| |done|done|].
      * apply (Forall_impl _ _ _ H4). intros c Hc. by inversion Hc.
      * apply (Forall_impl _ _ _ H4). intros c Hc. by inversion Hc.
Qed.

Lemma apart_all_perm l1 l2 : l1 ≡ₚ l2 -> apart_all l1 -> apart_all l2.
Proof.
  induction 1 as [|b l1 l2 P IH|b c l|l1 l2 l3 _ IH1 _ IH2]; simpl; [done| | |by auto].
  - intros [H1 H2]. split; [by rewrite <- P|by apply IH].
  - intros [H1 [H2 H3]]. apply Forall_cons in H1 as [H1 H4]. rewrite Forall_cons. eauto using apart_sym.
Qed.

(** ** Lists of blocks in memory *)

Definition first (l : list blk) (e : Z) : Z := match l with [] => e | b :: _ => b.1 end.

(** The headers of the blocks are chained, and the last one points to [e]. *)
Fixpoint links (m : memory) (l : list blk) (e : Z) : Prop :=
  match l with
  | [] => True
  | b :: l => ld 8 m b.1 = first l e /\ ld 4 m (b.1 + 8) = b.2 /\ links m l e
  end.

(** Sorted by address, from [lo] on; no block ends where the next begins. *)
Fixpoint sorted_from (lo : Z) (l : list blk) : Prop :=
  match l with
  | [] => True
  | b :: l => lo < b.1 /\ 0 <= b.2 /\ sorted_from (fin b) l
  end.

Fixpoint last_fin (lo : Z) (l : list blk) : Z :=
  match l with [] => lo | b :: l => last_fin (fin b) l end.

Lemma first_app l1 l2 e : first (l1 ++ l2) e = first l1 (first l2 e).
Proof. by destruct l1. Qed.

Lemma links_app m l1 l2 e : links m (l1 ++ l2) e <-> links m l1 (first l2 e) /\ links m l2 e.
Proof. induction l1 as [|b l1 IH]; simpl; [tauto|]. rewrite IH, first_app. tauto. Qed.

(** Two memories with the same headers. *)
Definition same_headers (m m' : memory) (l : list blk) : Prop :=
  Forall (fun b => forall x, b.1 <= x < b.1 + sizeof_header -> ld8 m' x = ld8 m x) l.

Lemma same_header_ld m m' (b : blk) : (forall x, b.1 <= x < b.1 + sizeof_header -> ld8 m' x = ld8 m x) ->
  ld 8 m' b.1 = ld 8 m b.1 /\ ld 4 m' (b.1 + 8) = ld 4 m (b.1 + 8).
Proof. intros H. split; apply ld_ext; intros x Hx; apply H; unfold sizeof_header; lia. Qed.

Lemma links_ext m m' l e : same_headers m m' l -> links m l e -> links m' l e.
Proof.
  unfold same_headers. induction l as [|b l IH]; simpl; [done|]. intros H (L1 & L2 & L3).
  apply Forall_cons in H as [H1 H2]. destruct (same_header_ld m m' b H1) as [E1 E2]. rewrite E1, E2. auto.
Qed.

Lemma sorted_from_app lo l1 l2 : sorted_from lo (l1 ++ l2) <-> sorted_from lo l1 /\ sorted_from (last_fin lo l1) l2.
Proof. revert lo. induction l1 as [|b l1 IH]; intros lo; simpl; [tauto|]. rewrite IH. tauto. Qed.

Lemma sorted_from_le lo lo' l : lo' <= lo -> sorted_from lo l -> sorted_from lo' l.
Proof. destruct l; simpl; [done|]. intros H (? & ? & ?). split_and!; [lia|done|done]. Qed.

Lemma sorted_from_elem lo l b : sorted_from lo l -> b ∈ l -> lo < b.1 /\ 0 <= b.2.
Proof.
  revert lo. induction l as [|c l IH]; intros lo S H; [by apply elem_of_nil in H|]. destruct S as (S1 & S2 & S3).
  apply elem_of_cons in H as [->|H]; [done|]. destruct (IH _ S3 H). ublia.
Qed.

Lemma last_fin_app lo l1 l2 : last_fin lo (l1 ++ l2) = last_fin (last_fin lo l1) l2.
Proof. revert lo. induction l1; simpl; auto. Qed.

Lemma last_fin_le lo l : sorted_from lo l -> lo <= last_fin lo l.
Proof.
  revert lo. induction l as [|c l IH]; intros lo; simpl; [lia|]. intros (S1 & S2 & S3). specialize (IH _ S3). ublia.
Qed.

(** ** Joining a block with the next one *)

Definition join (b : blk) (l : list blk) : list blk :=
  match l with
  | c :: l' => if fin b =? c.1 then (b.1, b.2 + c.2) :: l' else b :: l
  | [] => [b]
  end.

Lemma first_join b l e : first (join b l) e = b.1.
Proof. destruct l as [|c l]; simpl; [done|]. by destruct (fin b =? c.1). Qed.

Lemma sorted_join lo b l : lo < b.1 -> 0 <= b.2 -> sorted_from (fin b - 1) l -> sorted_from lo (join b l).
Proof.
  intros H1 H2 S. destruct l as [|c l]; simpl in *; [done|]. destruct S as (S1 & S2 & S3).
  destruct (Z.eqb_spec (fin b) c.1) as [E|E]; simpl; [|split_and!; try done; lia].
  split_and!; [done|lia|]. by replace (fin (b.1, b.2 + c.2)) with (fin c) by ublia.
Qed.

(** A property of address ranges that two adjacent ranges give to their union. *)
Definition ranged (Q : blk -> Prop) : Prop :=
  forall b c, Q b -> Q c -> 0 <= b.2 -> 0 <= c.2 -> fin b = c.1 -> Q (b.1, b.2 + c.2).

Lemma Forall_join (Q : blk -> Prop) b l :
  ranged Q -> Q b -> 0 <= b.2 -> Forall (fun c : blk => 0 <= c.2) l -> Forall Q l -> Forall Q (join b l).
Proof.
  intros HQ Hb H0 Hl H. destruct l as [|c l]; simpl; [by constructor|]. apply Forall_cons in H as [H1 H2].
  apply Forall_cons in Hl as [H3 _]. destruct (Z.eqb_spec (fin b) c.1); [|by repeat constructor].
  constructor; [by apply HQ|done].
Qed.

Lemma ranged_apart b : ranged (apart b).
Proof. intros c c' H1 H2 H3 H4 E. ublia. Qed.

Lemma ranged_apart_all l : ranged (fun c => Forall (fun b => apart b c) l).
Proof.
  intros c c' H1 H2 H3 H4 E. rewrite Forall_forall in H1, H2 |- *. intros b Hb. apply ranged_apart; auto.
Qed.

Lemma join_sizes b l : 0 <= b.2 -> Forall (fun c : blk => 0 <= c.2) l -> Forall (fun c : blk => 0 <= c.2) (join b l).
Proof. intros Hb Hl. apply Forall_join; try done. intros x y. simpl. lia. Qed.

Lemma apart_all_join pre b l A :
  0 <= b.2 -> Forall (fun c : blk => 0 <= c.2) l -> apart_all (pre ++ b :: l ++ A) -> apart_all (pre ++ join b l ++ A).
Proof.
  intros Hb Hl H. apply apart_all_app in H as (H1 & [H2 H3] & H4). apply Forall_cons in H4 as [H4 H5].
  apply Forall_app in H5 as [H5 H6]. apply apart_all_app. split_and!; [done| |].
  - destruct l as [|c l]; simpl in *; [done|]. destruct (Z.eqb_spec (fin b) c.1); simpl; [|done].
    apply Forall_cons in H2 as [_ H2]. destruct H3 as [H3 H7]. apply Forall_cons in Hl as [Hc _]. split; [|done].
    rewrite Forall_forall in H2, H3 |- *. intros x Hx. apply apart_sym, ranged_apart; try done; apply apart_sym; auto.
  - apply Forall_app. split; [|done]. apply Forall_join; try done. apply ranged_apart_all.
Qed.

Lemma elem_mid {A} (x : A) l1 l2 : x ∈ l1 ++ x :: l2.
Proof. apply elem_of_app. right. apply list_elem_of_here. Qed.

(** Where a block that is apart from all the others belongs. *)
Lemma place lo l b :
  sorted_from lo l -> Forall (fun c => apart c b) l -> 0 <= b.2 -> lo < b.1 ->
  l = [] \/ (b.1 < first l 0) \/
  exists pre p post, l = pre ++ p :: post /\ fin p <= b.1 /\ p.1 < b.1 /\ sorted_from (fin b - 1) post /\
    (forall e, post = [] \/ b.1 < first post e).
Proof.
  revert lo. induction l as [|p l IH]; intros lo S H Hb Hlo; [by left|right]. destruct S as (S1 & S2 & S3).
  apply Forall_cons in H as [Hp H]. simpl. destruct (Z.lt_ge_cases b.1 p.1) as [|Hge]; [by left|right].
  assert (Hfin : fin p <= b.1 /\ p.1 < b.1) by ublia.
  destruct l as [|q l].
  { exists [], p, []. split_and!; try tauto. }
  apply Forall_cons in H as [Hq H]. destruct S3 as (S3 & S4 & S5).
  destruct (Z.lt_ge_cases b.1 q.1) as [Hlt|Hge'].
  { exists [], p, (q :: l). split_and!; try tauto. simpl. split_and!; [ublia|done|done]. }
  destruct (IH (fin p)) as [|[Hl|(pre & p' & post & E & R)]]; try done.
  - by constructor.
  - ublia.
  - simpl in Hl. lia.
  - exists (p :: pre), p', post. by rewrite E.
Qed.

Section rules.
Context {W : Type} (h : os W) (base freep : Z).

Lemma runs_get_ptr p m w : runs h (get_ptr p) m w (Done (ld 8 m p) m) w.
Proof. apply runs_load. Qed.
Lemma runs_get_size p m w : runs h (get_size p) m w (Done (ld 4 m (p + 8)) m) w.
Proof. apply runs_load. Qed.
Lemma runs_set_ptr p v m w : runs h (set_ptr p v) m w (Done tt (st 8 m p v)) w.
Proof. apply runs_store. Qed.
Lemma runs_set_size p v m w : runs h (set_size p v) m w (Done tt (st 4 m (p + 8) v)) w.
Proof. apply runs_store. Qed.
#[local] Hint Resolve runs_get_ptr runs_get_size runs_set_ptr runs_set_size : urun.

(** ** The search of [free] *)

Section search.
Context (m : memory) (w : W) (pre : list blk) (p : blk) (post : list blk) (bp : Z).
Hypothesis HF : links m (pre ++ p :: post) base.
Hypothesis HS : sorted_from (base - 1) (pre ++ p :: post).
Hypothesis Hfirst : first (pre ++ p :: post) base = base.
Hypothesis Hp : p.1 < bp.
Hypothesis Hpost : post = [] \/ bp < first post base.

(** One turn of the loop at a block before the place. *)
Lemma find_next b l e :
  links m (b :: l) e -> (b.1 < first l e /\ first l e <= bp) \/ (bp <= b.1 /\ (b.1 < first l e \/ first l e < bp)) ->
  forall r w', runs h (find_prev bp (first l e)) m w r w' -> runs h (find_prev bp b.1) m w r w'.
Proof.
  intros (L1 & _ & _) H r w' R. unfold find_prev. eapply runs_loop_next; [|exact R].
  ustep. rewrite L1. destruct ((bp >? b.1) && (bp <? first l e)) eqn:E1.
  { apply andb_true_iff in E1 as [E1 E2]. apply Z.gtb_lt in E1. apply Z.ltb_lt in E2. lia. }
  destruct ((b.1 >=? first l e) && ((bp >? b.1) || (bp <? first l e))) eqn:E2.
  { apply andb_true_iff in E2 as [E2 E3]. apply Z.geb_le in E2. apply orb_true_iff in E3 as [E3|E3];
      [apply Z.gtb_lt in E3|apply Z.ltb_lt in E3]; lia. }
  eauto with urun.
Qed.

Lemma find_here : runs h (find_prev bp p.1) m w (Done p.1 m) w.
Proof using HF HS Hfirst Hp Hpost.
  apply links_app in HF as [_ (L1 & _ & _)]. unfold find_prev. eapply runs_loop_stop. ustep. rewrite L1.
  destruct Hpost as [->|Hlt].
  - simpl. assert (Hb : base - 1 < p.1) by (apply (sorted_from_elem _ _ p HS), elem_mid).
    destruct (Z.gtb_spec bp p.1); [|lia]. simpl. destruct (Z.ltb_spec bp base); [lia|].
    destruct (Z.geb_spec p.1 base); [|lia]. simpl. eauto with urun.
  - destruct (Z.gtb_spec bp p.1); [|lia]. simpl. destruct (Z.ltb_spec bp (first post base)); [|lia]. eauto with urun.
Qed.

(** From a block before the place. *)
Lemma find_from_pre l1 l2 : pre = l1 ++ l2 ->
  runs h (find_prev bp (first (l2 ++ [p]) base)) m w (Done p.1 m) w.
Proof using HF HS Hfirst Hp Hpost.
  revert l1. induction l2 as [|b l2 IH]; intros l1 E; [apply find_here|].
  rewrite E, <- app_assoc in HF, HS. apply links_app in HF as [_ HF2]. apply sorted_from_app in HS as [_ HS2].
  simpl in HS2. destruct HS2 as (S1 & S2 & S3). simpl app. apply (find_next b (l2 ++ p :: post) base).
  - exact HF2.
  - left. rewrite first_app. simpl. destruct l2 as [|c l2]; simpl in *; [destruct S3; ublia|].
    destruct S3 as (S3 & S4 & S5). pose proof (sorted_from_elem _ _ p S5 (elem_mid _ _ _)). ublia.
  - rewrite first_app. specialize (IH (l1 ++ [b])). rewrite first_app in IH. apply IH. by rewrite <- app_assoc.
Qed.

Lemma find_from_base : runs h (find_prev bp base) m w (Done p.1 m) w.
Proof using HF HS Hfirst Hp Hpost.
  pose proof (find_from_pre [] pre eq_refl) as R. rewrite first_app in R, Hfirst. simpl in R, Hfirst. by rewrite Hfirst in R.
Qed.

Lemma after_place b : b ∈ post -> bp < b.1 /\ base < bp.
Proof using HF HS Hfirst Hp Hpost.
  intros Hb. apply sorted_from_app in HS as [S0 (S1 & S2 & S3)]. pose proof (last_fin_le _ _ S0).
  split; [|lia]. destruct Hpost as [->|Hlt]; [by apply elem_of_nil in Hb|].
  destruct post as [|c l]; simpl in *; [by apply elem_of_nil in Hb|]. destruct S3 as (S3 & S4 & S5).
  apply elem_of_cons in Hb as [->|Hb]; [done|]. pose proof (sorted_from_elem _ _ b S5 Hb). ublia.
Qed.

(** From a block after the place, over the end of the list. *)
Lemma find_from_post l1 b l2 : post = l1 ++ b :: l2 -> runs h (find_prev bp b.1) m w (Done p.1 m) w.
Proof using HF HS Hfirst Hp Hpost.
  revert l1 b. induction l2 as [|c l2 IH]; intros l1 b E;
    (destruct (after_place b) as [Hb1 Hb2]; [rewrite E; apply elem_mid|]);
    pose proof HF as HF2; pose proof HS as HS2;
    rewrite E in HF2, HS2; change (pre ++ p :: l1 ++ ?x) with (pre ++ (p :: l1) ++ x) in HF2, HS2;
    rewrite app_assoc in HF2, HS2; apply links_app in HF2 as [_ HF2]; apply sorted_from_app in HS2 as [_ HS2];
    apply (find_next b _ base HF2).
  - right. simpl. lia.
  - apply find_from_base.
  - right. split; [lia|left]. destruct HS2 as (S1 & S2 & S3 & _). simpl. ublia.
  - apply (IH (l1 ++ [b]) c). rewrite E. by rewrite <- app_assoc.
Qed.

Lemma find_prev_run x : x ∈ (pre ++ p :: post).*1 -> runs h (find_prev bp x) m w (Done p.1 m) w.
Proof using HF HS Hfirst Hp Hpost.
  intros Hx. apply list_elem_of_fmap in Hx as (b & -> & Hb). apply elem_of_app in Hb as [Hb|Hb].
  - apply list_elem_of_split in Hb as (l1 & l2 & E). exact (find_from_pre l1 (b :: l2) E).
  - apply elem_of_cons in Hb as [->|Hb]; [apply find_here|].
    apply list_elem_of_split in Hb as (l1 & l2 & E). exact (find_from_post l1 b l2 E).
Qed.
End search.

(** ** Linking a block to the list that follows it *)

(** Addresses fit in 64 bits and sizes in 32. *)
Definition fits (b : blk) : Prop := 0 < b.1 /\ 0 <= b.2 /\ hfin b <= 2 ^ 36.

Lemma same_headers_apart m m' b l :
  (forall x, ~ (b.1 <= x < b.1 + sizeof_header) -> ld8 m' x = ld8 m x) -> Forall (apart b) l -> same_headers m m' l.
Proof.
  intros H Hl. apply (Forall_impl _ _ _ Hl). intros c Hc x Hx. apply H. ublia.
Qed.

(** What [free] does twice: [b] is made to point to the list [l], and takes
    over its first block when that follows immediately. *)
Lemma join_run b l e m w :
  links m l e -> ld 4 m (b.1 + 8) = b.2 -> fits b -> Forall fits l -> Forall (apart b) l -> 0 <= e < 2 ^ 64 ->
  (l = [] -> fin b <> e) ->
  exists m', links m' (join b l) e /\ (forall x, ~ (b.1 <= x < b.1 + sizeof_header) -> ld8 m' x = ld8 m x) /\
    forall B (k : U B) r w', runs h k m' w r w' ->
      runs h (let! n := get_size b.1 in
              do! (if b.1 + n * sizeof_header =? first l e then
                     let! nq := get_size (first l e) in
                     do! set_size b.1 (u32 (n + nq));
                     let! qq := get_ptr (first l e) in
                     set_ptr b.1 qq
                   else set_ptr b.1 (first l e)); k) m w r w'.
Proof.
  intros HL Hn (Hb1 & Hb2 & Hb3) Hfit Hap He Hend.
  assert (Hfirst : 0 <= first l e < 2 ^ 64).
  { destruct l as [|c l]; [done|]. apply Forall_cons in Hfit as [(C1 & C2 & C3) _]. simpl. ublia. }
  assert (Eq : b.1 + b.2 * sizeof_header = fin b) by ublia.
  destruct (Z.eqb_spec (fin b) (first l e)) as [E|E].
  - destruct l as [|c l]; [by destruct (Hend eq_refl)|]. simpl in E, HL. destruct HL as (L1 & L2 & L3).
    apply Forall_cons in Hfit as [(C1 & C2 & C3) Hfit]. apply Forall_cons in Hap as [Hbc Hap].
    assert (Hnext : 0 <= first l e < 2 ^ 64).
    { destruct l as [|d l]; [done|]. apply Forall_cons in Hfit as [(D1 & D2 & D3) _]. simpl. ublia. }
    set (m1 := st 4 m (b.1 + 8) (b.2 + c.2)). set (m2 := st 8 m1 b.1 (first l e)).
    assert (Ho : forall x, ~ (b.1 <= x < b.1 + sizeof_header) -> ld8 m2 x = ld8 m x).
    { intros x Hx. unfold m2, m1. rewrite !ld8_st_out by ublia. done. }
    exists m2. unfold join. rewrite E, Z.eqb_refl. split_and!; [|exact Ho|].
    + cbn [links fst snd]. split_and!.
      * unfold m2. rewrite ld_st_eq. apply Z.mod_small. exact Hnext.
      * unfold m2. rewrite ld_st_ne by lia. unfold m1. rewrite ld_st_eq. apply Z.mod_small. simpl Z.pow. ublia.
      * eapply links_ext; [|exact L3]. by eapply same_headers_apart.
    + intros B k r w' R. ustep. rewrite Hn, Eq. cbn [first]. rewrite E, Z.eqb_refl.
      eapply runs_bind; [|exact R]. ustep. rewrite L2, u32_small by ublia. ustep. fold m1. ustep.
      assert (ld 8 m1 c.1 = first l e) as -> by (rewrite <- L1; apply ld_st_ne; ublia). apply runs_set_ptr.
  - set (m2 := st 8 m b.1 (first l e)).
    assert (Ho : forall x, ~ (b.1 <= x < b.1 + sizeof_header) -> ld8 m2 x = ld8 m x).
    { intros x Hx. unfold m2. rewrite ld8_st_out by ublia. done. }
    exists m2. assert (join b l = b :: l) as ->.
    { destruct l as [|c l]; simpl; [done|]. by destruct (Z.eqb_spec (fin b) c.1). }
    split_and!; [|exact Ho|].
    + cbn [links]. split_and!.
      * unfold m2. rewrite ld_st_eq. apply Z.mod_small. exact Hfirst.
      * unfold m2. by rewrite ld_st_ne by lia.
      * eapply links_ext; [|exact HL]. by eapply same_headers_apart.
    + intros B k r w' R. ustep. rewrite Hn, Eq. destruct (Z.eqb_spec (fin b) (first l e)); [done|].
      eapply runs_bind; [|exact R]. apply runs_set_ptr.
Qed.
End rules.
#[export] Hint Resolve runs_get_ptr runs_get_size runs_set_ptr runs_set_size : urun.

(** ** The bytes of free blocks *)

(** The bytes that belong to a list of blocks. *)
Definition covers (l : list blk) (x : Z) : Prop := exists b, b ∈ l /\ b.1 <= x < fin b.

Lemma covers_join b l x : Forall (fun c : blk => 0 <= c.2) l -> 0 <= b.2 -> covers (join b l) x <-> covers (b :: l) x.
Proof.
  intros Hl Hb. destruct l as [|c l]; [done|]. apply Forall_cons in Hl as [Hc Hl]. simpl.
  destruct (Z.eqb_spec (fin b) c.1) as [E|E]; [|done]. unfold covers. split.
  - intros (d & Hd & Hx). apply elem_of_cons in Hd as [->|Hd]; [|exists d; split; [rewrite ?elem_of_cons; tauto|done]].
    destruct (Z.lt_ge_cases x c.1); [exists b|exists c]; (split; [rewrite ?elem_of_cons; tauto|ublia]).
  - intros (d & Hd & Hx). rewrite !elem_of_cons in Hd. destruct Hd as [->|[->|Hd]].
    + exists (b.1, b.2 + c.2). split; [rewrite ?elem_of_cons; tauto|ublia].
    + exists (b.1, b.2 + c.2). split; [rewrite ?elem_of_cons; tauto|ublia].
    + exists d. split; [rewrite ?elem_of_cons; tauto|done].
Qed.

Lemma covers_one b x : covers [b] x <-> b.1 <= x < fin b.
Proof.
  unfold covers. split; [intros (c & Hc & Hx)|intros Hx; exists b; split; [apply list_elem_of_here|done]].
  apply list_elem_of_singleton in Hc. by subst.
Qed.

Lemma covers_app l1 l2 x : covers (l1 ++ l2) x <-> covers l1 x \/ covers l2 x.
Proof. unfold covers. setoid_rewrite elem_of_app. naive_solver. Qed.

(** A property of ranges that the free blocks and a block to be freed have. *)
Lemma Forall_joins (Q : blk -> Prop) pre p b post A :
  ranged Q -> Forall (fun c : blk => 0 <= c.2) (p :: b :: post) ->
  Forall Q (pre ++ p :: post ++ b :: A) -> Forall Q (pre ++ join p (join b post) ++ A).
Proof.
  intros HQ Hs H. rewrite !Forall_cons in Hs. destruct Hs as (Hp & Hb & Hpost).
  rewrite !Forall_app, !Forall_cons, !Forall_app, !Forall_cons in H. destruct H as (H1 & H2 & H3 & H4 & H5).
  rewrite !Forall_app. split_and!; [done| |done]. apply Forall_join; try done; [by apply join_sizes|].
  by apply Forall_join.
Qed.

Lemma apart_all_joins pre p b post A :
  Forall (fun c : blk => 0 <= c.2) (p :: b :: post) ->
  apart_all (pre ++ p :: post ++ b :: A) -> apart_all (pre ++ join p (join b post) ++ A).
Proof.
  intros Hs H. rewrite !Forall_cons in Hs. destruct Hs as (Hp & Hb & Hpost).
  apply apart_all_join; [done|by apply join_sizes|].
  change (pre ++ p :: join b post ++ A) with (pre ++ [p] ++ join b post ++ A). rewrite app_assoc.
  apply apart_all_join; [done|done|]. rewrite <- app_assoc. simpl.
  eapply apart_all_perm; [|exact H]. apply Permutation_app_head, perm_skip. symmetry. apply Permutation_middle.
Qed.
(** ** The heap *)

(** What [malloc] relies on: [sbrk] returns the old end of the memory and
    moves it, or answers -1 and leaves it.  A process has less than 64 GB. *)
Class SbrkOs {W : Type} (h : os W) : Type := {
  brk : W -> Z;
  sbrk_law : forall w n, 0 < n -> exists w',
    (h _ (Sbrk n) w = (w', brk w) /\ brk w' = brk w + n) \/ (h _ (Sbrk n) w = (w', -1) /\ brk w' = brk w);
  brk_limit : forall w, 0 < brk w <= 2 ^ 36
}.

Section heap.
Context {W : Type} (h : os W) `{HW : !SbrkOs h} (base freep : Z).
Hypothesis base_pos : 0 < base.

(** [F] is the free list from [base] on, [A] are the blocks handed out. *)
Record blocks (m : memory) (w : W) (F A : list blk) : Prop := {
  hp_first : exists rest, F = (base, 0) :: rest;
  hp_links : links m F base;
  hp_sorted : sorted_from (base - 1) F;
  hp_alloc : Forall (fun b => ld 4 m (b.1 + 8) = b.2 /\ 0 < b.2) A;
  hp_apart : apart_all (F ++ A);
  hp_fits : Forall (fun b => base <= b.1 /\ hfin b <= brk w) (F ++ A);
  hp_var : Forall (fun b => freep + 8 <= b.1 \/ hfin b <= freep) (F ++ A) /\ freep + 8 <= brk w
}.

(** [freep] points to some block of the list. *)
Definition heap (m : memory) (w : W) (F A : list blk) : Prop := blocks m w F A /\ ld 8 m freep ∈ F.*1.

(** The bytes of the blocks in use did not change. *)
Definition keeps (A : list blk) (m m' : memory) : Prop :=
  forall b x, b ∈ A -> b.1 <= x < hfin b -> ld8 m' x = ld8 m x.

Lemma blocks_perm m w F A A' : A ≡ₚ A' -> blocks m w F A -> blocks m w F A'.
Proof using.
  intros P [H1 H2 H4 H5 H6 H7 [H8 H9]]. assert (PF : F ++ A ≡ₚ F ++ A') by (by rewrite P).
  split; [done..|by rewrite <- P|by eapply apart_all_perm|by rewrite <- PF|]. split; [by rewrite <- PF|done].
Qed.

Lemma blocks_sizes m w F A : blocks m w F A -> Forall (fun c : blk => 0 <= c.2) F.
Proof using. intros H. apply Forall_forall. intros b Hb. by apply (sorted_from_elem _ _ b (hp_sorted _ _ _ _ H)). Qed.

Lemma block_fits m w F A b : blocks m w F A -> b ∈ F ++ A -> fits b.
Proof using base_pos.
  intros H Hb. pose proof (hp_fits _ _ _ _ H) as HF. rewrite Forall_forall in HF. destruct (HF b Hb) as [F1 F2].
  pose proof (brk_limit w). split_and!; [lia| |lia]. apply elem_of_app in Hb as [Hb|Hb].
  - pose proof (blocks_sizes _ _ _ _ H) as HS. rewrite Forall_forall in HS. by apply HS.
  - pose proof (hp_alloc _ _ _ _ H) as HA. rewrite Forall_forall in HA. destruct (HA b Hb). lia.
Qed.


(** A store to [freep] changes no block. *)
Lemma var_other m w F A v b : blocks m w F A -> b ∈ F ++ A ->
  forall x, b.1 <= x < hfin b -> ld8 (st 8 m freep v) x = ld8 m x.
Proof using.
  intros H Hb x Hx. apply ld8_st_out. destruct (hp_var _ _ _ _ H) as [HV _]. rewrite Forall_forall in HV.
  specialize (HV b Hb). lia.
Qed.

Lemma ranged_fits w : ranged (fun b => base <= b.1 /\ hfin b <= brk w).
Proof using. intros b c. ublia. Qed.
Lemma ranged_var : ranged (fun b => freep + 8 <= b.1 \/ hfin b <= freep).
Proof using. intros b c. ublia. Qed.

(** The place of a block to be freed. *)
Lemma free_place m w F A b : blocks m w F (b :: A) ->
  exists pre p post, F = pre ++ p :: post /\ fin p <= b.1 /\ p.1 < b.1 /\ sorted_from (fin b - 1) post /\
    (forall e, post = [] \/ b.1 < first post e) /\ 0 < b.2.
Proof using base_pos.
  intros H. destruct (hp_first _ _ _ _ H) as [rest EF].
  pose proof (hp_alloc _ _ _ _ H) as HA. apply Forall_cons in HA as [[_ Hb] _].
  pose proof (hp_apart _ _ _ _ H) as HP. apply apart_all_app in HP as (_ & _ & HP). apply Forall_cons in HP as [HP _].
  assert (Hin : base <= b.1).
  { pose proof (hp_fits _ _ _ _ H) as HF. rewrite Forall_forall in HF. apply (HF b), elem_mid. }
  destruct (place _ F b (hp_sorted _ _ _ _ H) HP) as [E|[E|(pre & p & post & E1 & E2 & E3 & E4 & E5)]]; [lia|lia| | |].
  - by rewrite E in EF.
  - rewrite EF in E. simpl in E. lia.
  - by exists pre, p, post.
Qed.

(** Blocks of which no header was written. *)
Lemma keep_header m m' (p b c : blk) :
  (forall x, ~ (p.1 <= x < p.1 + sizeof_header) -> ~ (b.1 <= x < b.1 + sizeof_header) -> ld8 m' x = ld8 m x) ->
  apart p c -> apart b c -> forall x, c.1 <= x < hfin c -> ld8 m' x = ld8 m x.
Proof using. intros H H1 H2 x Hx. apply H; ublia. Qed.

Lemma free_run m w F A b : heap m w F (b :: A) ->
  exists m' F', runs h (free freep (b.1 + sizeof_header)) m w (Done tt m') w /\ heap m' w F' A /\ keeps A m m' /\
    (forall x, covers F' x <-> covers F x \/ b.1 <= x < fin b) /\
    exists pre p post, F = pre ++ p :: post /\ F' = pre ++ join p (join b post) /\ ld 8 m' freep = p.1 /\
      fin p <= b.1 /\ sorted_from (fin b - 1) post.
Proof using base_pos.
  intros [H Hfp]. destruct (free_place _ _ _ _ _ H) as (pre & p & post & EF & P1 & P2 & P3 & P4 & Hb).
  pose proof H as [Hf HL HS HA HP Hfit [Hvar Hv0]]. rewrite EF in *.
  assert (Hfits : forall c, c ∈ (pre ++ p :: post) ++ b :: A -> fits c) by (intros c; by apply (block_fits m w)).
  assert (Hsz : Forall (fun c : blk => 0 <= c.2) (p :: b :: post)).
  { apply Forall_forall. intros c Hc. apply (Hfits c). rewrite !elem_of_app, !elem_of_cons in *. tauto. }
  pose proof Hsz as Hsz'. rewrite !Forall_cons in Hsz'. destruct Hsz' as (Zp & Zb & Zpost).
  apply Forall_cons in HA as [[Hbn _] HA]. rewrite <- app_assoc in HP, Hfit, Hvar. simpl in HP, Hfit, Hvar.
  assert (Ap : Forall (apart b) (pre ++ p :: post ++ A) /\ Forall (apart p) (pre ++ post ++ A) /\ apart_all (pre ++ p :: post ++ A)).
  { assert (P' : b :: pre ++ p :: post ++ A ≡ₚ pre ++ p :: post ++ b :: A).
    { change (pre ++ p :: post ++ b :: A) with (pre ++ (p :: post) ++ b :: A). rewrite (app_assoc pre).
      etransitivity; [|apply Permutation_middle]. rewrite <- app_assoc. done. }
    apply (apart_all_perm _ _ (symmetry P')) in HP as [H1 H2]. split_and!; [done| |done].
    apply (apart_all_perm _ (p :: pre ++ post ++ A)) in H2 as [H2 _]; [done|]. symmetry. apply Permutation_middle. }
  destruct Ap as (Ab & App & AA). pose proof HL as HL2. apply links_app in HL2 as [L1 (L2 & L3 & L4)].
  rewrite !Forall_app, !Forall_cons, !Forall_app in Ab. destruct Ab as (Ab1 & Ab2 & Ab3 & Ab4).
  rewrite !Forall_app in App. destruct App as (Ap1 & Ap2 & Ap3).
  assert (Hbase : 0 <= base < 2 ^ 64).
  { destruct Hf as [rest Hf]. destruct (Hfits (base, 0)) as (B1 & B2 & B3); [rewrite Hf; apply list_elem_of_here|]. ublia. }
  assert (Hbb : base < b.1).
  { destruct Hf as [rest Hf]. pose proof (sorted_from_elem _ _ p HS (elem_mid _ _ _)). lia. }
  destruct (join_run h b post base m w L4 Hbn) as (m1 & J1 & J2 & J3); [apply Hfits, elem_mid| |done|done|unfold fin, sizeof_header; lia|].
  { apply Forall_forall. intros c Hc. apply Hfits. rewrite !elem_of_app, !elem_of_cons. tauto. }
  assert (Fj : Forall (apart p) (join b post)).
  { apply Forall_join; [apply ranged_apart|by apply apart_sym|done|done|done]. }
  assert (Sp : ld 4 m1 (p.1 + 8) = p.2).
  { rewrite <- L3. apply same_header_ld. intros x Hx. apply J2. ublia. }
  destruct (join_run h p (join b post) base m1 w J1 Sp) as (m2 & K1 & K2 & K3); [apply Hfits; rewrite <- app_assoc; apply elem_mid| |done|done| |].
  { apply Forall_join; try done; [|apply Hfits, elem_mid|].
    - intros x y (X1 & X2 & X3) (Y1 & Y2 & Y3) _ _ E. unfold fits. ublia.
    - apply Forall_forall. intros c Hc. apply Hfits. rewrite !elem_of_app, !elem_of_cons. tauto. }
  { intros E. apply (f_equal (fun l => first l 0)) in E. rewrite first_join in E. simpl in E. lia. }
  rewrite first_join in K3.
  assert (K : forall x, ~ (p.1 <= x < p.1 + sizeof_header) -> ~ (b.1 <= x < b.1 + sizeof_header) -> ld8 m2 x = ld8 m x).
  { intros x X1 X2. rewrite K2, J2; done. }
  assert (Hp64 : 0 < p.1 < 2 ^ 64).
  { destruct (Hfits p) as (X1 & X2 & X3); [rewrite <- app_assoc; apply elem_mid|]. ublia. }
  set (F' := pre ++ join p (join b post)). set (m3 := st 8 m2 freep p.1).
  assert (Q1 : apart_all (F' ++ A)) by (unfold F'; rewrite <- app_assoc; by apply apart_all_joins).
  assert (Q2 : Forall (fun b => base <= b.1 /\ hfin b <= brk w) (F' ++ A))
    by (unfold F'; rewrite <- app_assoc; apply Forall_joins; try done; apply ranged_fits).
  assert (Q3 : Forall (fun b => freep + 8 <= b.1 \/ hfin b <= freep) (F' ++ A))
    by (unfold F'; rewrite <- app_assoc; apply Forall_joins; try done; apply ranged_var).
  assert (V : forall c x, c ∈ F' ++ A -> c.1 <= x < hfin c -> ld8 m3 x = ld8 m2 x).
  { intros c x Hc Hx. apply ld8_st_out. rewrite Forall_forall in Q3. specialize (Q3 c Hc). lia. }
  assert (KA : keeps A m m3).
  { intros c x Hc Hx. rewrite (V c) by (done || apply elem_of_app; by right). rewrite Forall_forall in Ab4, Ap3.
    apply (keep_header m m2 p b c); auto. }
  exists m3, F'. split_and!.
  - unfold free. replace (b.1 + sizeof_header - sizeof_header) with b.1 by lia. ustep.
    eapply runs_bind; [eapply find_prev_run; eauto|].
    { by destruct Hf as [rest ->]. }
    cbv beta iota. ustep. rewrite L2. apply J3, K3. apply runs_store.
  - assert (Hfp' : ld 8 m3 freep ∈ F'.*1).
    {unfold m3. rewrite ld_st_eq, Z.mod_small.
      * unfold F'. rewrite fmap_app. apply elem_of_app. right. pose proof (first_join p (join b post) 0) as Ej.
        destruct (join p (join b post)) as [|c l]; simpl in *; [|rewrite <- Ej; apply list_elem_of_here]. lia.
      * simpl Z.pow. lia. }
    split; [|done]. split; try done.
    + destruct Hf as [rest Hf]. unfold F'. destruct pre as [|a pre]; [|injection Hf as -> _; eauto].
      injection Hf as -> _. exists (join b post). simpl. unfold join at 1.
      pose proof (first_join b post 0) as Ej. destruct (join b post) as [|c l]; [done|]. simpl in Ej |- *.
      destruct (Z.eqb_spec (fin (base, 0)) c.1); [|done]. ublia.
    + apply (links_ext m2).
      { apply Forall_forall. intros c Hc x Hx. apply (V c); [apply elem_of_app; by left|ublia]. }
      unfold F'. apply links_app. split; [|done]. rewrite first_join. apply (links_ext m); [|done].
      apply Forall_forall. intros c Hc x Hx. rewrite Forall_forall in Ab1, Ap1. apply (keep_header m m2 p b c); auto. ublia.
    + unfold F'. apply sorted_from_app in HS as [S1 (S2 & S3 & S4)]. apply sorted_from_app. split; [done|].
      apply sorted_join; [done|done|]. apply (sorted_from_le (b.1 - 1)); [lia|]. apply sorted_join; [lia|done|done].
    + apply Forall_forall. intros c Hc. rewrite Forall_forall in HA. destruct (HA c Hc) as [E1 E2]. split; [|done].
      rewrite <- E1. apply same_header_ld. intros x Hx. apply (KA c); [done|ublia].
  - done.
  - intros x. unfold F'. rewrite !covers_app, covers_join by (done || by apply join_sizes).
    change (p :: join b post) with ([p] ++ join b post). rewrite !covers_app, covers_join by done.
    change (b :: post) with ([b] ++ post). change (p :: post) with ([p] ++ post). rewrite !covers_app.
    rewrite (covers_one b). tauto.
  - exists pre, p, post. split_and!; try done. unfold m3. rewrite ld_st_eq. apply Z.mod_small.
    simpl Z.pow. lia.
Qed.

(** ** Taking a block out *)

Lemma keeps_refl A m : keeps A m m.
Proof using. done. Qed.
Lemma keeps_trans A m1 m2 m3 : keeps A m1 m2 -> keeps A m2 m3 -> keeps A m1 m3.
Proof using. intros H1 H2 b x Hb Hx. rewrite (H2 b), (H1 b); done. Qed.

(** Sizes in the headers of the blocks in use, in another memory. *)
Lemma alloc_kept m m' A :
  keeps A m m' -> Forall (fun b => ld 4 m (b.1 + 8) = b.2 /\ 0 < b.2) A ->
  Forall (fun b => ld 4 m' (b.1 + 8) = b.2 /\ 0 < b.2) A.
Proof using.
  intros K HA. rewrite Forall_forall in HA |- *. intros c Hc. destruct (HA c Hc) as [E1 E2]. split; [|done].
  rewrite <- E1. apply same_header_ld. intros y Hy. apply (K c); [done|ublia].
Qed.

(** Links, in a memory with the same bytes in these blocks. *)
Lemma links_kept m m' l e : keeps l m m' -> links m l e -> links m' l e.
Proof using.
  intros K. apply links_ext, Forall_forall. intros c Hc x Hx. apply (K c); [done|ublia].
Qed.

Lemma keeps_app A B m m' : keeps A m m' -> keeps B m m' -> keeps (A ++ B) m m'.
Proof using. intros H1 H2 b x Hb. apply elem_of_app in Hb as [Hb|Hb]; eauto. Qed.

(** [freep] may be moved to any block of the list. *)
Lemma heap_freep m w F A v : blocks m w F A -> v ∈ F.*1 -> heap (st 8 m freep v) w F A /\ keeps (F ++ A) m (st 8 m freep v).
Proof using base_pos.
  intros H Hv. assert (K : keeps (F ++ A) m (st 8 m freep v)).
  { intros b x Hb Hx. by eapply var_other. }
  split; [|done]. pose proof H as [Hf HL HS HA HP Hfit Hvar]. split; [split; try done|].
  - eapply links_kept; [|done]. intros b x Hb. apply K, elem_of_app. by left.
  - eapply alloc_kept; [|done]. intros b x Hb. apply K, elem_of_app. by right.
  - rewrite ld_st_eq, Z.mod_small; [done|]. apply list_elem_of_fmap in Hv as (b & -> & Hb).
    destruct (block_fits _ _ _ _ b H) as (Y1 & Y2 & Y3); [apply elem_of_app; by left|]. simpl Z.pow. ublia.
Qed.

(** A store inside one block leaves the others. *)
Lemma store_inside n m a v (b : blk) l :
  b.1 <= a -> a + Z.of_nat n <= hfin b -> Forall (apart b) l -> keeps l m (st n m a v).
Proof using.
  intros H1 H2 Hl c x Hc Hx. rewrite Forall_forall in Hl. specialize (Hl c Hc). apply ld8_st_out. ublia.
Qed.

Lemma apart_others pre b post A :
  apart_all ((pre ++ b :: post) ++ A) -> Forall (apart b) pre /\ Forall (apart b) post /\ Forall (apart b) A.
Proof using.
  intros H. apply (apart_all_perm _ (b :: pre ++ post ++ A)) in H as [H _]; [by rewrite !Forall_app in H|].
  rewrite <- app_assoc. symmetry. apply Permutation_middle.
Qed.

Lemma middle_out (pre : list blk) b post A : (pre ++ b :: post) ++ A ≡ₚ (pre ++ post) ++ b :: A.
Proof using.
  rewrite <- app_assoc. simpl. rewrite <- !Permutation_middle. by rewrite app_assoc.
Qed.

Lemma block_next m w pre x post A : blocks m w (pre ++ x :: post) A -> 0 <= first post base < 2 ^ 64.
Proof using base_pos.
  intros H. destruct post as [|c post]; simpl.
  - destruct (hp_first _ _ _ _ H) as [rest Hf].
    destruct (block_fits _ _ _ _ (base, 0) H) as (B1 & B2 & B3); [rewrite Hf; apply list_elem_of_here|]. ublia.
  - destruct (block_fits _ _ _ _ c H) as (B1 & B2 & B3); [rewrite !elem_of_app, !elem_of_cons; tauto|]. ublia.
Qed.

(** A block of the list is unlinked. *)
Lemma unlink_ok m w pre x b post A :
  blocks m w (pre ++ x :: b :: post) A -> 0 < b.2 ->
  let m' := st 8 m x.1 (first post base) in blocks m' w (pre ++ x :: post) (b :: A) /\ keeps A m m'.
Proof using base_pos.
  intros H Hb m'. pose proof H as [Hf HL HS HA HP Hfit [Hvar Hv0]].
  assert (P' : (pre ++ x :: b :: post) ++ A ≡ₚ (pre ++ x :: post) ++ b :: A).
  { change (pre ++ x :: b :: post) with (pre ++ [x] ++ b :: post). change (x :: post) with ([x] ++ post).
    rewrite !(app_assoc pre). apply middle_out. }
  apply links_app in HL as [L1 (L2 & L3 & L4 & L5 & L6)].
  destruct (apart_others pre x (b :: post) A HP) as (X1 & X2 & X3). apply Forall_cons in X2 as [X2 X4].
  assert (K : forall l, Forall (apart x) l -> keeps l m m') by (intros l; apply store_inside; ublia).
  assert (Hn : 0 <= first post base < 2 ^ 64).
  { change (pre ++ x :: b :: post) with (pre ++ [x] ++ b :: post) in H. rewrite (app_assoc pre) in H. by eapply block_next. }
  split; [|by apply K]. split.
  - destruct Hf as [rest Hf]. destruct pre as [|a pre]; injection Hf as -> _; eauto.
  - apply links_app. split; [by apply (links_kept m); [apply K|]|]. cbn [links]. unfold m'.
    rewrite ld_st_eq, ld_st_ne by lia. split_and!; [by apply Z.mod_small|done|]. by apply (links_kept m); [apply K|].
  - apply sorted_from_app in HS as [S1 (S2 & S3 & S4 & S5 & S6)]. apply sorted_from_app. split; [done|].
    split_and!; [done|done|]. eapply sorted_from_le; [|exact S6]. ublia.
  - apply (alloc_kept m); [by apply K; constructor|by constructor].
  - by eapply apart_all_perm.
  - by rewrite <- P'.
  - split; [by rewrite <- P'|done].
Qed.

(** The last [k] headers of a free block are cut off. *)
Lemma split_ok m w pre c post A k :
  blocks m w (pre ++ c :: post) A -> 0 < k < c.2 ->
  let c' := (c.1, c.2 - k) in let b := (c.1 + sizeof_header * (c.2 - k), k) in
  let m' := st 4 (st 4 m (c.1 + 8) (c.2 - k)) (b.1 + 8) k in
  blocks m' w (pre ++ c' :: post) (b :: A) /\ keeps A m m'.
Proof using base_pos.
  intros H Hk c' b m'. pose proof H as [Hf HL HS HA HP Hfit [Hvar Hv0]].
  destruct (block_fits _ _ _ _ c H) as (C1 & C2 & C3); [rewrite <- app_assoc; apply elem_mid|].
  apply links_app in HL as [L1 (L2 & L3 & L4)]. destruct (apart_others pre c post A HP) as (X1 & X2 & X3).
  assert (K : forall l, Forall (apart c) l -> keeps l m m').
  { intros l Hl. eapply keeps_trans; eapply (store_inside _ _ _ _ c); try done; unfold b; ublia. }
  assert (HQ : forall Q : blk -> Prop, (Q c -> Q c' /\ Q b) -> Forall Q ((pre ++ c :: post) ++ A) ->
    Forall Q ((pre ++ c' :: post) ++ b :: A)).
  { intros Q HQ. rewrite !Forall_app, !Forall_cons. intros ((? & Hc & ?) & ?). destruct (HQ Hc). tauto. }
  split; [|by apply K]. split.
  - destruct Hf as [rest Hf]. destruct pre as [|a pre]; injection Hf as E _; [|by rewrite E; eauto].
    rewrite E in Hk. simpl in Hk. lia.
  - apply links_app. split; [by apply (links_kept m); [apply K|]|]. cbn [links]. unfold m', c', b. cbn [fst snd].
    rewrite !ld_st_ne by ublia. rewrite ld_st_eq. split_and!; [done|apply Z.mod_small; simpl Z.pow; ublia|].
    by apply (links_kept m); [apply K|].
  - apply sorted_from_app in HS as [S1 (S2 & S3 & S4)]. apply sorted_from_app. split; [done|].
    split_and!; [done|simpl; lia|]. eapply sorted_from_le; [|exact S4]. unfold c'. ublia.
  - constructor; [|apply (alloc_kept m); [by apply K|done]]. unfold m', b. cbn [fst snd].
    rewrite ld_st_eq. split; [|lia]. apply Z.mod_small. simpl Z.pow. ublia.
  - assert (Q : forall z, apart c z -> apart c' z /\ apart b z) by (intros z; unfold c', b; ublia).
    eapply (apart_all_perm (c' :: b :: pre ++ post ++ A)).
    { rewrite <- (app_assoc pre). simpl. rewrite <- Permutation_middle. apply perm_skip.
      rewrite <- Permutation_middle, <- Permutation_middle. done. }
    apply (apart_all_perm _ (c :: pre ++ post ++ A)) in HP as [P1 P2];
      [|rewrite <- app_assoc; symmetry; apply Permutation_middle].
    split; [constructor; [unfold c', b; ublia|]|split; [|done]];
      apply (Forall_impl _ _ _ P1); intros z Hz; by apply Q.
  - apply HQ; [|done]. unfold c', b. ublia.
  - split; [|done]. apply HQ; [|done]. unfold c', b. ublia.
Qed.

Lemma take_run m w pre x c post A k :
  heap m w (pre ++ x :: c :: post) A -> 0 < k <= c.2 ->
  let b := (c.1 + sizeof_header * (c.2 - k), k) in
  exists m' F', runs h (take_block freep x.1 c.1 k) m w (Done (b.1 + sizeof_header) m') w /\
    heap m' w F' (b :: A) /\ keeps A m m' /\
    forall y, covers (pre ++ x :: c :: post) y <-> covers F' y \/ b.1 <= y < fin b.
Proof using base_pos.
  intros [H _] Hk b. pose proof (hp_links _ _ _ _ H) as HL. apply links_app in HL as [_ (L2 & L3 & L4 & L5 & L6)].
  destruct (block_fits _ _ _ _ c H) as (C1 & C2 & C3); [rewrite !elem_of_app, !elem_of_cons; tauto|].
  assert (Hx : forall l, x.1 ∈ (pre ++ x :: l).*1).
  { intros l. rewrite fmap_app. apply elem_of_app. right. apply list_elem_of_here. }
  destruct (decide (k = c.2)) as [->|Hne].
  - assert (b = c) as -> by (unfold b; rewrite Z.sub_diag; destruct c; simpl; f_equal; lia).
    destruct (unlink_ok m w pre x c post A H ltac:(lia)) as [H1 K1].
    destruct (heap_freep _ w _ _ x.1 H1 (Hx post)) as [H2 K2].
    eexists _, _. split_and!; [|exact H2| |].
    + unfold take_block. ustep. rewrite L5, Z.eqb_refl. eapply runs_bind.
      { ustep. ustep. rewrite L4. apply runs_ret. }
      cbv beta iota. ustep. apply runs_ret.
    + eapply keeps_trans; [exact K1|]. intros d y Hd. apply K2. rewrite elem_of_app, elem_of_cons. tauto.
    + intros y. change (x :: c :: post) with ([x] ++ [c] ++ post). change (x :: post) with ([x] ++ post).
      rewrite !covers_app. rewrite (covers_one c). tauto.
  - assert (Hlt : 0 < k < c.2) by lia.
    change (pre ++ x :: c :: post) with (pre ++ [x] ++ c :: post) in H |- *. rewrite (app_assoc pre) in H |- *.
    destruct (split_ok m w (pre ++ [x]) c post A k H Hlt) as [H1 K1]. fold b in H1, K1.
    destruct (heap_freep _ w _ _ x.1 H1) as [H2 K2]; [rewrite <- app_assoc; apply Hx|].
    eexists _, _. split_and!; [|exact H2| |].
    + unfold take_block. ustep. rewrite L5. destruct (Z.eqb_spec c.2 k); [done|]. rewrite u32_small by ublia. eapply runs_bind.
      { ustep. ustep. apply runs_ret. }
      cbv beta iota. replace (c.1 + (c.2 - k) * sizeof_header) with b.1 by (unfold b; ublia). ustep. apply runs_ret.
    + eapply keeps_trans; [exact K1|]. intros d y Hd. apply K2. rewrite elem_of_app, elem_of_cons. tauto.
    + intros y. change (c :: post) with ([c] ++ post). change ((c.1, c.2 - k) :: post) with ([(c.1, c.2 - k)] ++ post).
      rewrite !covers_app, !covers_one. unfold b, fin, sizeof_header. cbn [fst snd].
      assert (c.1 <= y < c.1 + 16 * c.2 <-> c.1 <= y < c.1 + 16 * (c.2 - k) \/
        c.1 + 16 * (c.2 - k) <= y < c.1 + 16 * (c.2 - k) + 16 * k) by lia. tauto.
Qed.

(** ** The search of [malloc] *)

(** The last block of [x :: l]. *)
Fixpoint endb (x : blk) (l : list blk) : blk := match l with [] => x | y :: l => endb y l end.

Lemma endb_split x l : exists i, x :: l = i ++ [endb x l].
Proof using.
  revert x. induction l as [|y l IH]; intros x; simpl; [by exists []|].
  destruct (IH y) as [i ->]. by exists (x :: i).
Qed.

Lemma endb_app x l1 y l2 : endb x (l1 ++ y :: l2) = endb y l2.
Proof using. revert x. induction l1 as [|z l1 IH]; intros x; simpl; [done|]. apply IH. Qed.

Lemma first_big k (l : list blk) :
  Forall (fun c : blk => c.2 < k) l \/ exists l1 c l2, l = l1 ++ c :: l2 /\ Forall (fun c : blk => c.2 < k) l1 /\ k <= c.2.
Proof using.
  induction l as [|c l IH]; [by left|]. destruct (Z.lt_ge_cases c.2 k) as [Hc|Hc].
  - destruct IH as [IH|(l1 & d & l2 & -> & H1 & H2)]; [left; by constructor|right].
    exists (c :: l1), d, l2. split_and!; [done|by constructor|done].
  - right. exists [], c, l. split_and!; [done|constructor|lia].
Qed.

(** The circle read from the block [f] on. *)
Lemma links_rotate m l1 f l2 :
  links m (l1 ++ f :: l2) base -> first (l1 ++ f :: l2) base = base -> links m (f :: l2 ++ l1) f.1.
Proof using.
  intros H E. apply links_app in H as [H1 H2]. change (f :: l2 ++ l1) with ((f :: l2) ++ l1).
  apply links_app. rewrite first_app in E. simpl in E. rewrite E. done.
Qed.

(** In the circle, the block before one that is not [base] is the one before
    it in the list. *)
Lemma before_big l1 f l2 rest ys y zs :
  l1 ++ f :: l2 = (base, 0) :: rest -> l2 ++ l1 ++ [f] = ys ++ y :: zs -> 0 < y.2 ->
  exists pre post, l1 ++ f :: l2 = pre ++ endb f ys :: y :: post.
Proof using.
  intros EF ER Hy. apply app_eq_app in ER as (u & [[E1 E2]|[E1 E2]]).
  - destruct u as [|y' u].
    + rewrite app_nil_r in E1. simpl in E2. exfalso. destruct l1; simpl in *; injection EF; injection E2; intros; subst; simpl in Hy; lia.
    + injection E2 as <- E2. destruct (endb_split f ys) as [i Ei]. exists (l1 ++ i), u. rewrite E1.
      rewrite <- app_assoc. change (endb f ys :: y :: u) with ([endb f ys] ++ y :: u). rewrite (app_assoc i), <- Ei. done.
  - destruct u as [|c u].
    + simpl in E2. exfalso. destruct l1; simpl in *; injection EF; injection E2; intros; subst; simpl in Hy; lia.
    + rewrite E1, endb_app. destruct (endb_split c u) as [i Ei]. exists i, (zs ++ l2).
      change (f :: l2) with ([f] ++ l2). rewrite (app_assoc l1), E2, <- app_assoc.
      change (endb c u :: y :: zs ++ l2) with ([endb c u] ++ (y :: zs) ++ l2). rewrite (app_assoc i), <- Ei. done.
Qed.

(** Small blocks other than [f] are passed over. *)
Lemma scan_small m w k f ys : forall x e,
  links m (x :: ys) e -> Forall (fun c => c.2 < k /\ c.1 <> f) ys -> ld 8 m freep = f ->
  forall r w', runs h (uloop (malloc_turn freep k) ((endb x ys).1, e)) m w r w' ->
    runs h (uloop (malloc_turn freep k) (x.1, first ys e)) m w r w'.
Proof using.
  induction ys as [|y ys IH]; intros x e HL Hs Hf r w' R; [exact R|]. destruct HL as (_ & _ & HL).
  apply Forall_cons in Hs as [[Hy1 Hy2] Hs]. pose proof HL as (L1 & L2 & L3).
  eapply runs_loop_next; [|exact (IH y e HL Hs Hf r w' R)]. unfold malloc_turn. ustep. cbn [first]. rewrite L2.
  destruct (Z.geb_spec y.2 k); [lia|]. ustep. rewrite Hf. destruct (Z.eqb_spec y.1 f); [done|].
  ustep. rewrite L1. apply runs_next.
Qed.

(** The start of the search, at the block [freep] points to. *)
Record rotated (m : memory) (F : list blk) (f : blk) (R : list blk) : Prop := {
  ro_split : exists l1 l2, F = l1 ++ f :: l2 /\ R = l2 ++ l1;
  ro_links : links m (f :: R) f.1;
  ro_freep : ld 8 m freep = f.1;
  ro_other : Forall (fun c => c.1 <> f.1) R
}.

Lemma rotate m w F A : heap m w F A -> exists f R, rotated m F f R.
Proof using.
  intros [H Hfp]. apply list_elem_of_fmap in Hfp as (f & Ef & Hf). apply list_elem_of_split in Hf as (l1 & l2 & ->).
  exists f, (l2 ++ l1). destruct (hp_first _ _ _ _ H) as [rest Er]. split; [eauto| |done|].
  - apply (links_rotate m l1 f l2); [exact (hp_links _ _ _ _ H)|exact (f_equal (fun l => first l base) Er)].
  - pose proof (hp_sorted _ _ _ _ H) as HS. apply sorted_from_app in HS as [S1 (S2 & S3 & S4)].
    apply Forall_app. split.
    + apply Forall_forall. intros c Hc. pose proof (sorted_from_elem _ _ c S4 Hc). ublia.
    + apply Forall_forall. intros c Hc. apply list_elem_of_split in Hc as (u & v & ->).
      apply sorted_from_app in S1 as [_ (S1 & S5 & S6)]. rewrite last_fin_app in S2. simpl in S2.
      pose proof (last_fin_le _ _ S6). ublia.
Qed.

(** With a block that is large enough, [malloc] ends by taking it. *)
Lemma scan_found m w F A f R k :
  heap m w F A -> rotated m F f R -> 0 < k -> Exists (fun c : blk => k <= c.2) F ->
  exists m' F' b, runs h (uloop (malloc_turn freep k) (f.1, ld 8 m f.1)) m w (Done (b.1 + sizeof_header) m') w /\
    b.2 = k /\ heap m' w F' (b :: A) /\ keeps A m m' /\
    forall y, covers F y <-> covers F' y \/ b.1 <= y < fin b.
Proof using base_pos.
  intros H [(l1 & l2 & EF & ER) HL Hf Ho] Hk Hbig. destruct (hp_first _ _ _ _ (proj1 H)) as [rest Er].
  destruct (first_big k (R ++ [f])) as [Hs|(ys & y & zs & E & Hys & Hy)].
  { exfalso. apply Forall_app in Hs as [Hs1 Hs2]. apply Forall_cons in Hs2 as [Hs2 _].
    rewrite EF, Exists_app, Exists_cons in Hbig. rewrite ER, Forall_app in Hs1. destruct Hs1 as [Hs3 Hs4].
    rewrite Forall_forall in Hs3, Hs4. rewrite !Exists_exists in Hbig.
    destruct Hbig as [(c & Hc & Hc2)|[Hc2|(c & Hc & Hc2)]]; [specialize (Hs4 c Hc)| |specialize (Hs3 c Hc)]; lia. }
  destruct (before_big l1 f l2 rest ys y zs) as (pre & post & Eb); [by rewrite <- EF, Er|by rewrite <- E, ER, <- app_assoc|lia|].
  rewrite EF, Eb in H. destruct (take_run m w pre (endb f ys) y post A k H) as (m' & F' & RT & H' & K & Cv); [lia|].
  exists m', F', (y.1 + sizeof_header * (y.2 - k), k). split_and!; [|done|done|done|by rewrite EF, Eb].
  assert (Hpre : links m (f :: ys) y.1 /\ Forall (fun c => c.1 <> f.1) ys /\ ld 4 m (y.1 + 8) = y.2 /\ ld 8 m f.1 = first ys y.1).
  { assert (Hc : links m (f :: R ++ [f]) (first R f.1)).
    { change (f :: R ++ [f]) with ((f :: R) ++ [f]). apply links_app. split; [done|]. destruct HL as (A1 & A2 & _). done. }
    rewrite E in Hc. change (f :: ys ++ y :: zs) with ((f :: ys) ++ y :: zs) in Hc. apply links_app in Hc as [Hc1 (_ & Hc2 & _)].
    split_and!; [done| |done|apply Hc1]. destruct (decide (zs = [])) as [->|Hz].
    - apply app_inj_tail in E as [<- _]. done.
    - destruct (exists_last Hz) as (zs' & z & ->). rewrite app_comm_cons, app_assoc in E. apply app_inj_tail in E as [E _].
      rewrite E in Ho. by apply Forall_app in Ho as [Ho _]. }
  destruct Hpre as (P1 & P2 & P3 & P4). rewrite P4. apply (scan_small m w k f.1 ys f y.1 P1).
  - apply Forall_and. split; done.
  - done.
  - eapply runs_loop_stop. unfold malloc_turn. ustep. rewrite P3. destruct (Z.geb_spec y.2 k); [|lia].
    eapply runs_bind; [exact RT|]. apply runs_stop.
Qed.

(** ** [morecore] *)

(** New memory above the heap, with a header in it, counts as handed out. *)
Lemma grow_ok m w w' F A n :
  heap m w F A -> 0 < n -> n < 2 ^ 32 -> brk w' = brk w + sizeof_header * n ->
  let b := (brk w, n) in let m' := st 4 m (brk w + 8) n in
  heap m' w' F (b :: A) /\ keeps (F ++ A) m m'.
Proof using base_pos.
  intros [H Hfp] Hn Hn2 Hw b m'. pose proof H as [Hf HL HS HA HP Hfit [Hvar Hv0]].
  assert (Hab : Forall (apart b) (F ++ A)) by (apply (Forall_impl _ _ _ Hfit); intros c [_ Hc]; right; exact Hc).
  assert (K : keeps (F ++ A) m m') by (apply (store_inside _ _ _ _ b); [unfold b; ublia..|done]).
  assert (P : b :: F ++ A ≡ₚ F ++ b :: A) by apply Permutation_middle.
  split; [|done]. split; [split; try done|].
  - apply (links_kept m); [|done]. intros c x Hc. apply K, elem_of_app. by left.
  - constructor; [|apply (alloc_kept m); [|done]; intros c x Hc; apply K, elem_of_app; by right].
    unfold b, m'. cbn [fst snd]. rewrite ld_st_eq. split; [|done]. apply Z.mod_small. simpl Z.pow. lia.
  - eapply apart_all_perm; [exact P|done].
  - rewrite <- P. constructor; [|apply (Forall_impl _ _ _ Hfit); intros c; ublia].
    destruct Hf as [rest ->]. apply Forall_cons in Hfit as [Hb _]. unfold b. ublia.
  - split; [|ublia]. rewrite <- P. constructor; [left; unfold b; simpl; lia|done].
  - unfold m'. rewrite ld_st_ne by lia. done.
Qed.

Lemma join_big b l k : 0 <= b.2 -> Forall (fun c : blk => 0 <= c.2) l -> k <= b.2 \/ Exists (fun c : blk => k <= c.2) l ->
  Exists (fun c : blk => k <= c.2) (join b l).
Proof using.
  intros Hb Hl H. destruct l as [|c l]; simpl.
  - destruct H as [H|H]; [by constructor|by apply Exists_nil in H].
  - apply Forall_cons in Hl as [Hc _]. rewrite Exists_cons in H. destruct (fin b =? c.1); rewrite !Exists_cons; [|tauto].
    simpl. destruct H as [H|[H|H]]; [left; lia|left; lia|by right].
Qed.

(** [morecore]: the kernel refuses, or the list has a block of the size. *)
Lemma morecore_run m w F A k :
  heap m w F A -> 0 < k -> sizeof_header * k < 2 ^ 31 ->
  exists p m' w', runs h (morecore freep k) m w (Done p m') w' /\
    (p = 0 /\ m' = m /\ brk w' = brk w /\ heap m w' F A \/
     p <> 0 /\ p = ld 8 m' freep /\ keeps A m m' /\ exists F', heap m' w' F' A /\ Exists (fun c : blk => k <= c.2) F' /\
       brk w < brk w' /\ forall x, covers F' x <-> covers F x \/ brk w <= x < brk w').
Proof using base_pos.
  intros H Hk Hk2. unfold morecore. set (nu := if k <? 4096 then 4096 else k).
  assert (Hnu : k <= nu /\ 0 < nu /\ nu * sizeof_header < 2 ^ 31).
  { unfold nu, sizeof_header in *. destruct (Z.ltb_spec k 4096); lia. }
  assert (Es : s32 (nu * sizeof_header) = nu * sizeof_header) by (apply s32_small; unfold sizeof_header in *; lia). rewrite Es.
  pose proof (brk_limit w) as Hlim.
  destruct (sbrk_law w (nu * sizeof_header)) as (w' & [[E1 E2]|[E1 E2]]); [unfold sizeof_header in *; lia| |].
  - destruct (grow_ok m w w' F A nu H) as [H1 K1]; [lia|unfold sizeof_header in *; lia|lia|].
    destruct (free_run _ _ _ _ _ H1) as (m2 & F' & R & H2 & K2 & Cv & pre & p & post & EF & EF' & Ep & _).
    assert (Hp : p ∈ F) by (rewrite EF; apply elem_mid).
    destruct (block_fits _ _ _ _ p (proj1 H)) as (P1 & _); [apply elem_of_app; by left|].
    exists (ld 8 m2 freep), m2, w'. split.
    + ustep with (runs_sys h _ _ _ _ _ E1). destruct (Z.eqb_spec (brk w) (-1)); [lia|]. ustep.
      ustep with R. apply runs_load.
    + right. rewrite Ep. split_and!; [lia|done| |].
      * eapply keeps_trans; [|exact K2]. intros c x Hc. apply K1, elem_of_app. by right.
      * exists F'. split_and!; [done| |unfold sizeof_header in *; lia|].
        -- rewrite EF'. apply Exists_app. right. pose proof (blocks_sizes _ _ _ _ (proj1 H1)) as Hsz.
           rewrite EF, Forall_app, Forall_cons in Hsz. destruct Hsz as (_ & Z1 & Z2).
           apply join_big; [done|apply join_sizes; [simpl; lia|done]|right].
           apply join_big; [simpl; lia|done|left; simpl; lia].
        -- intros x. rewrite Cv. unfold fin. simpl fst. simpl snd. rewrite E2, (Z.mul_comm nu). done.
  - exists 0, m, w'. split; [|left; split_and!; try done].
    + ustep with (runs_sys h _ _ _ _ _ E1). simpl. apply runs_ret.
    + destruct H as [[Hf HL HS HA HP Hfit [Hvar Hv0]] Hfp]. split; [|done]. split; rewrite ?E2; done.
Qed.

(** ** [malloc] *)

Lemma nunits_range nbytes : 0 <= nbytes < 2 ^ 31 - 64 ->
  let k := nunits_of nbytes in 0 < k /\ sizeof_header * k < 2 ^ 31 /\ nbytes <= sizeof_header * (k - 1).
Proof using.
  intros Hn. unfold nunits_of, sizeof_header. rewrite u64_small by lia. rewrite u32_small by zlia. zlia.
Qed.

(** The search with no block that is large enough ends in [morecore]. *)
Lemma scan_none m w F A f R k :
  heap m w F A -> rotated m F f R -> Forall (fun c : blk => c.2 < k) F ->
  forall r w', runs h (uloop (malloc_turn freep k) ((endb f R).1, f.1)) m w r w' ->
    runs h (uloop (malloc_turn freep k) (f.1, ld 8 m f.1)) m w r w'.
Proof using.
  intros H [(l1 & l2 & EF & ER) HL Hf Ho] Hs r w' Rr. destruct (HL) as (-> & _). apply (scan_small m w k f.1 R f f.1 HL); try done.
  apply Forall_and. split; [|done]. rewrite ER. rewrite EF, Forall_app, Forall_cons in Hs. apply Forall_app. tauto.
Qed.

Lemma search_run m w F A f R k :
  heap m w F A -> rotated m F f R -> 0 < k -> sizeof_header * k < 2 ^ 31 ->
  exists r m' w' F', runs h (uloop (malloc_turn freep k) (f.1, ld 8 m f.1)) m w (Done r m') w' /\ keeps A m m' /\
    (r = 0 /\ m' = m /\ F' = F /\ brk w' = brk w /\ heap m w' F A /\ Forall (fun c : blk => c.2 < k) F \/
     exists b, r = b.1 + sizeof_header /\ b.2 = k /\ heap m' w' F' (b :: A) /\ brk w <= brk w' /\
       forall x, covers F x \/ brk w <= x < brk w' <-> covers F' x \/ b.1 <= x < fin b).
Proof using base_pos.
  intros H Hr Hk Hk2. destruct (first_big k F) as [Hs|(l1 & c & l2 & E & _ & Hc)].
  2: { destruct (scan_found m w F A f R k H Hr Hk) as (m' & F' & b & R1 & Eb & H' & K & Cv).
       { rewrite E, Exists_app, Exists_cons. tauto. }
       exists (b.1 + sizeof_header), m', w, F'. split_and!; [done|done|right]. exists b. split_and!; try done.
       intros x. rewrite <- Cv. split; [|tauto]. intros [?|?]; [done|lia]. }
  destruct (morecore_run m w F A k H Hk Hk2) as (p & m1 & w1 & R1 & Hp).
  assert (Turn : forall r w', runs h (if p =? 0 then stop 0 else let! q := get_ptr p in next (p, q)) m1 w1 r w' ->
    runs h (malloc_turn freep k ((endb f R).1, f.1)) m w r w').
  { intros r w' Rn. unfold malloc_turn. pose proof (ro_split _ _ _ _ Hr) as (u & v & EF & _).
    assert (Hf2 : ld 4 m (f.1 + 8) = f.2) by (apply (ro_links _ _ _ _ Hr)).
    ustep. rewrite Hf2. destruct (Z.geb_spec f.2 k) as [Hge|_].
    { rewrite EF, Forall_app, Forall_cons in Hs. lia. }
    ustep. rewrite (ro_freep _ _ _ _ Hr), Z.eqb_refl. ustep with R1. exact Rn. }
  destruct Hp as [(-> & -> & E1 & H1)|(Hp0 & Ep & K1 & F1 & H1 & Hbig & Hlt & Cv)].
  - exists 0, m, w1, F. split_and!; [|apply keeps_refl|left; by split_and!].
    apply (scan_none m w F A f R k H Hr Hs). eapply runs_loop_stop. apply Turn, runs_stop.
  - destruct (rotate _ _ _ _ H1) as (f1 & Rr & Hr1).
    destruct (scan_found m1 w1 F1 A f1 Rr k H1 Hr1 Hk Hbig) as (m' & F' & b & R2 & Eb & H' & K & Cv2).
    exists (b.1 + sizeof_header), m', w1, F'. split_and!; [|by eapply keeps_trans|right].
    + apply (scan_none m w F A f R k H Hr Hs).
      assert (Epf : p = f1.1) by (rewrite Ep; apply (ro_freep _ _ _ _ Hr1)).
      eapply runs_loop_next; [|exact R2]. rewrite <- Epf. apply Turn.
      destruct (Z.eqb_spec p 0); [done|]. ustep. apply runs_next.
    + exists b. split_and!; try done; [lia|]. intros x. rewrite <- Cv2, Cv. done.
Qed.

(** Where the static variables are: apart, and below the end of the memory. *)
Definition statics (w : W) : Prop :=
  (freep + 8 <= base \/ base + sizeof_header <= freep) /\ freep + 8 <= brk w /\ base + sizeof_header <= brk w.

(** Before the first call: [freep] is 0 and no block exists. *)
Definition unused_heap (m : memory) (w : W) : Prop := ld 8 m freep = 0 /\ statics w.

(** A heap that may still have to be set up. *)
Definition ready (m : memory) (w : W) (F A : list blk) : Prop :=
  heap m w F A \/ (unused_heap m w /\ F = [(base, 0)] /\ A = []).

Definition first_call (m : memory) : memory := st 4 (st 8 (st 8 m freep base) base base) (base + 8) 0.

Lemma first_call_ok m w : statics w -> heap (first_call m) w [(base, 0)] [].
Proof using base_pos.
  intros (H1 & H2 & H3). pose proof (brk_limit w). unfold first_call, sizeof_header in *. split; [split|].
  - by exists [].
  - cbn [links fst snd first]. split_and!; [|by rewrite ld_st_eq|done].
    rewrite ld_st_ne, ld_st_eq by lia. apply Z.mod_small. simpl Z.pow. lia.
  - simpl. split_and!; [lia|lia|done].
  - constructor.
  - simpl. split; [constructor|done].
  - constructor; [ublia|constructor].
  - split; [|lia]. constructor; [ublia|constructor].
  - rewrite !ld_st_ne, ld_st_eq, Z.mod_small by (simpl Z.pow; lia). apply list_elem_of_here.
Qed.

Lemma heap_freep_pos m w F A : heap m w F A -> ld 8 m freep <> 0.
Proof using base_pos.
  intros [H Hf]. apply list_elem_of_fmap in Hf as (b & -> & Hb).
  destruct (block_fits _ _ _ _ b H) as (P & _); [apply elem_of_app; by left|lia].
Qed.

(** The set-up of [malloc], then its search. *)
Lemma malloc_start m w F A nbytes :
  ready m w F A -> exists m1 f R, heap m1 w F A /\ keeps A m m1 /\ rotated m1 F f R /\
    forall r w', runs h (uloop (malloc_turn freep (nunits_of nbytes)) (f.1, ld 8 m1 f.1)) m1 w r w' ->
      runs h (malloc base freep nbytes) m w r w'.
Proof using base_pos.
  intros [H|([H0 Hst] & -> & ->)].
  - destruct (rotate _ _ _ _ H) as (f & R & Hr). exists m, f, R. split_and!; [done|apply keeps_refl|done|].
    intros r w' Rn. unfold malloc. ustep. pose proof (heap_freep_pos _ _ _ _ H) as Hz.
    destruct (Z.eqb_spec (ld 8 m freep) 0); [done|]. ustep. ustep. rewrite (ro_freep _ _ _ _ Hr). exact Rn.
  - pose proof (first_call_ok m w Hst) as H. destruct (rotate _ _ _ _ H) as (f & R & Hr).
    assert (Ef : f.1 = base).
    { destruct (ro_split _ _ _ _ Hr) as ([|c l1] & l2 & E & _); injection E as E1 E2; [by rewrite <- E1|by destruct l1]. }
    exists (first_call m), f, R. split_and!; [done|by intros b x Hb; apply elem_of_nil in Hb|done|].
    intros r w' Rn. unfold malloc. ustep. rewrite H0. cbn [Z.eqb]. eapply runs_bind.
    { ustep. ustep. ustep. apply runs_ret. }
    cbv beta iota. fold (first_call m). ustep. rewrite Ef in Rn. exact Rn.
Qed.

(** C27: the user-level allocator.  [malloc] ends, for every request below 2 GB,
    and either returns 0, because the kernel refused more memory and no free
    block was large enough, or returns the address after the header of a
    block with room for the request.  The heap stays well-formed: the free
    list is circular, sorted and has no two adjacent blocks, and no two
    blocks, free or handed out, share a byte, so the new block is disjoint
    from those handed out before, whose bytes, headers included, are kept.
    No memory is lost: the new block and the free blocks make up what was
    free and what the kernel added. *)
Theorem malloc_spec m w F A nbytes :
  ready m w F A -> 0 <= nbytes < 2 ^ 31 - 64 ->
  exists r m' w' F', runs h (malloc base freep nbytes) m w (Done r m') w' /\ keeps A m m' /\
    (r = 0 /\ heap m' w' F A /\ brk w' = brk w /\ Forall (fun c : blk => c.2 < nunits_of nbytes) F \/
     exists b, r = b.1 + sizeof_header /\ nbytes <= fin b - r /\ heap m' w' F' (b :: A) /\ brk w <= brk w' /\
       forall x, covers F x \/ brk w <= x < brk w' <-> covers F' x \/ b.1 <= x < fin b).
Proof using base_pos.
  intros H Hn. destruct (nunits_range nbytes Hn) as (N1 & N2 & N3).
  destruct (malloc_start m w F A nbytes H) as (m1 & f & R & H1 & K1 & Hr & Run).
  destruct (search_run m1 w F A f R _ H1 Hr N1 N2) as (r & m' & w' & F' & R2 & K2 & Hres).
  exists r, m', w', F'. split_and!; [by apply Run|by eapply keeps_trans|].
  destruct Hres as [(-> & -> & -> & E & H' & Hs)|(b & -> & Eb & H' & Hle & Cv)]; [left; by split_and!|right].
  exists b. split_and!; try done. unfold fin. rewrite Eb. lia.
Qed.

(** C28: [free] of a block that was handed out ends and returns the block to the
    free list: the free bytes are those free before and the block's, joined
    with its neighbours so that no two free blocks are adjacent; the other
    blocks handed out keep every byte. *)
Theorem free_spec m w F A A' b :
  heap m w F A -> A ≡ₚ b :: A' ->
  exists m' F', runs h (free freep (b.1 + sizeof_header)) m w (Done tt m') w /\ heap m' w F' A' /\ keeps A' m m' /\
    forall x, covers F' x <-> covers F x \/ b.1 <= x < fin b.
Proof using base_pos.
  intros [H Hf] HP. destruct (free_run m w F A' b) as (m' & F' & R & H' & K & Cv & _).
  { split; [|done]. by eapply blocks_perm. }
  by exists m', F'.
Qed.
End heap.

(** ** A request that is too large *)

Section huge.
Context {W : Type} (h : os W) `{HW : !SbrkOs h} (base freep : Z).
Hypothesis base_pos : 0 < base.

(** C40: the size passed to [sbrk] overflows.  [malloc(4294967295)], the largest
    request, asks the kernel for 16 bytes, since [nu * sizeof(Header)] is
    cut to an [int]; when the kernel grants them, the pointer returned is the
    new end of the memory: not one byte of the block exists. *)
Theorem malloc_huge m w w' :
  unused_heap h base freep m w -> h _ (Sbrk 16) w = (w', brk w) -> brk w' = brk w + 16 ->
  exists m', runs h (malloc base freep (2 ^ 32 - 1)) m w (Done (brk w') m') w'.
Proof using base_pos.
  intros [H0 (S1 & S2 & S3)] E1 E2. pose proof (brk_limit w) as Hlim. unfold sizeof_header in S1, S3.
  set (k := nunits_of (2 ^ 32 - 1)). assert (Ek : k = 2 ^ 28 + 1) by reflexivity.
  set (m0 := first_call base freep m). set (b := brk w).
  assert (M0 : ld 8 m0 base = base /\ ld 4 m0 (base + 8) = 0 /\ ld 8 m0 freep = base).
  { unfold m0, first_call. split_and!; [|by rewrite ld_st_eq|]; rewrite !ld_st_ne, ld_st_eq by lia;
      apply Z.mod_small; simpl Z.pow; lia. }
  destruct M0 as (M1 & M2 & M3).
  (* after [morecore] has stored the size, and after [free] *)
  set (m1 := st 4 m0 (b + 8) k). set (m2 := st 8 (st 8 m1 b base) base b). set (m3 := st 8 m2 freep base).
  assert (N : ld 8 m1 base = base /\ ld 4 m1 (base + 8) = 0 /\ ld 8 m1 freep = base /\ ld 4 m1 (b + 8) = k).
  { unfold m1. split_and!; [by rewrite ld_st_ne by lia..|]. by rewrite ld_st_eq, Ek. }
  destruct N as (N1 & N2 & N3 & N4).
  assert (Q : ld 4 (st 8 m1 b base) (base + 8) = 0) by (rewrite ld_st_ne by lia; done).
  assert (P : ld 8 m3 base = b /\ ld 8 m3 freep = base /\ ld 4 m3 (b + 8) = k /\ ld 8 m3 b = base).
  { unfold m3, m2. split_and!.
    - rewrite ld_st_ne, ld_st_eq by lia. apply Z.mod_small. simpl Z.pow. lia.
    - rewrite ld_st_eq. apply Z.mod_small. simpl Z.pow. lia.
    - rewrite !ld_st_ne by lia. done.
    - rewrite !ld_st_ne, ld_st_eq by lia. apply Z.mod_small. simpl Z.pow. lia. }
  destruct P as (P1 & P2 & P3 & P4).
  assert (RF : runs h (free freep (b + sizeof_header)) m1 w' (Done tt m3) w').
  { unfold free. replace (b + sizeof_header - sizeof_header) with b by lia. ustep. rewrite N3. eapply runs_bind.
    { unfold find_prev. eapply runs_loop_stop. ustep. rewrite N1.
      destruct (Z.gtb_spec b base); [|lia]. destruct (Z.ltb_spec b base); [lia|]. cbn [andb orb].
      destruct (Z.geb_spec base base); [|lia]. apply runs_stop. }
    cbv beta iota. ustep. rewrite N1. ustep. rewrite N4. destruct (Z.eqb_spec (b + k * sizeof_header) base); [unfold sizeof_header in *; lia|].
    ustep. ustep. rewrite Q. destruct (Z.eqb_spec (base + 0 * sizeof_header) b); [lia|]. ustep. apply runs_store. }
  eexists. unfold malloc. fold k. ustep. rewrite H0. cbn [Z.eqb]. eapply runs_bind.
  { ustep. ustep. ustep. apply runs_ret. }
  cbv beta iota. fold (first_call base freep m). fold m0. ustep. rewrite M1.
  eapply runs_loop_next.
  { unfold malloc_turn. ustep. rewrite M2. destruct (Z.geb_spec 0 k); [lia|]. ustep. rewrite M3, Z.eqb_refl.
    eapply runs_bind.
    { unfold morecore. change (s32 ((if k <? 4096 then 4096 else k) * sizeof_header)) with 16.
      change (if k <? 4096 then 4096 else k) with k. ustep with (runs_sys h _ _ _ _ _ E1).
      destruct (Z.eqb_spec (brk w) (-1)); [lia|]. ustep. fold b. fold m1. ustep with RF. apply runs_load. }
    cbv beta iota. rewrite P2. destruct (Z.eqb_spec base 0); [lia|]. ustep. rewrite P1. apply runs_next. }
  eapply runs_loop_stop. unfold malloc_turn. ustep. rewrite P3. destruct (Z.geb_spec k k); [|lia].
  eapply runs_bind; [|apply runs_stop]. unfold take_block. ustep. rewrite P3, Z.eqb_refl. eapply runs_bind.
  { ustep. ustep. apply runs_ret. }
  cbv beta iota. ustep. rewrite E2. apply runs_ret.
Qed.
End huge.

(** ** Example *)

(** A kernel that gives memory up to address 2^20. *)
Definition brk_os : os Z := fun T e w =>
  match e in sysE T return Z * T with
  | Sbrk n => if bool_decide (0 < w /\ 0 <= n /\ w + n <= 2 ^ 20) then (w + n, w) else (w, -1)
  | Read _ _ => (w, (-1, []))
  | Write _ _ => (w, -1)
  | Wait => (w, (-1, 0))
  | Pipe => (w, (-1, (0, 0)))
  | Exec _ _ => (w, Some (-1))
  | Fstat _ => (w, (-1, []))
  | Open _ _ => (w, -1) | Close _ => (w, -1)
  | Fork => (w, -1) | Kill _ => (w, -1) | Mknod _ _ _ => (w, -1) | Unlink _ => (w, -1)
  | Link _ _ => (w, -1) | Mkdir _ => (w, -1) | Chdir _ => (w, -1) | Dup _ => (w, -1)
  | Getpid => (w, 1) | Sleep _ => (w, 0) | Uptime => (w, 0) | Trace _ => (w, 0)
  | Sysinfo _ => (w, (-1, []))
  end.

#[export, refine] Instance brk_os_sbrk : SbrkOs brk_os := {| brk := fun w => if bool_decide (0 < w <= 2 ^ 20) then w else 1 |}.
Proof.
  - intros w n Hn. unfold brk_os. case_bool_decide as H1; [exists (w + n); left|exists w; by right].
    rewrite (bool_decide_eq_true_2 (0 < w <= _)), (bool_decide_eq_true_2 (0 < w + n <= _)) by lia. done.
  - intros w. case_bool_decide; lia.
Defined.

Lemma demo_unused : unused_heap brk_os 8192 8256 ∅ 12288.
Proof. split; [reflexivity|]. vm_compute. intuition congruence. Qed.

Lemma malloc_spec_witness : exists r m' w',
  runs brk_os (malloc 8192 8256 100) ∅ 12288 (Done r m') w' /\
  (r = 0 \/ exists F' b, r = b.1 + 16 /\ heap brk_os 8192 8256 m' w' F' [b]).
Proof.
  destruct (malloc_spec brk_os 8192 8256 eq_refl ∅ 12288 [(8192, 0)] [] 100) as (r & m' & w' & F' & R & _ & Hr).
  - right. split_and!; [exact demo_unused|reflexivity|reflexivity].
  - lia.
  - exists r, m', w'. split; [exact R|]. destruct Hr as [[-> _]|(b & -> & _ & H & _)]; [by left|right]. by exists F', b.
Defined.

Lemma free_spec_witness : exists m w F b m' F',
  heap brk_os 8192 8256 m w F [b] /\
  runs brk_os (free 8256 (b.1 + sizeof_header)) m w (Done tt m') w /\ heap brk_os 8192 8256 m' w F' [].
Proof.
  pose proof (first_call_ok brk_os 8192 8256 eq_refl ∅ 12288 ltac:(apply demo_unused)) as H0.
  destruct (grow_ok brk_os 8192 8256 eq_refl _ 12288 12320 _ _ 2 H0) as [H1 _]; [lia|lia|reflexivity|].
  destruct (free_spec brk_os 8192 8256 eq_refl _ _ _ _ [] _ H1 (Permutation_refl _)) as (m' & F' & R & H' & _).
  eexists _, _, _, _, m', F'. split_and!; [exact H1|exact R|exact H'].
Defined.

Lemma malloc_huge_witness : exists m',
  runs brk_os (malloc 8192 8256 (2 ^ 32 - 1)) ∅ 12288 (Done 12304 m') 12304.
Proof. apply (malloc_huge brk_os 8192 8256 eq_refl ∅ 12288 12304 demo_unused); reflexivity. Defined.
