(* ===== verification/Tests.v ===== *)
(** * user/forktest.c, user/stressfs.c and user/sysinfotest.c

    The small test programs.  For [forktest] there is the theorem that it
    passes on every kernel that runs out of processes, however many it has. *)

From S2P Require Import Prelude Param Mem CString User Ulib.
From ITree Require Import ITree.
Open Scope Z_scope.
Open Scope user_scope.

(** ** user/forktest.c *)
Module Forktest.

Definition N : Z := 1000.

Definition print (s : list Z) : U unit := do! sys (Write 1 s); uret tt.

(** The first loop: how many forks worked. *)
Definition fork_loop (n : Z) : U (Z + Z) :=
  if n <? N then
    let! pid := sys Fork in
    if pid <? 0 then stop n
    else if pid =? 0 then uexit 0
    else next (n + 1)
  else stop n.

(** The second: a child reaped for each. *)
Definition wait_loop (n : Z) : U (Z + unit) :=
  if n >? 0 then
    let! (r, _) := sys Wait in
    if r <? 0 then do! print (line "wait stopped early"); uexit 1
    else next (n - 1)
  else stop tt.

Definition forktest : U unit :=
  do! print (line "fork test");
  let! n := uloop fork_loop 0 in
  do! (if n =? N then do! print (line "fork claimed to work N times!"); uexit 1 else uret tt);
  do! uloop wait_loop n;
  let! (r, _) := sys Wait in
  do! (if negb (r =? -1) then do! print (line "wait got too many"); uexit 1 else uret tt);
  print (line "fork test OK").

Definition main : U unit := do! forktest; uexit 0.

End Forktest.

(** ** user/stressfs.c; [data] is the local buffer of 512 bytes *)
Module Stressfs.

(** [for(i = 0; i < 4; i++) if(fork() > 0) break;] *)
Definition spread : U Z :=
  uloop (fun i =>
    if i <? 4 then
      let! r := sys Fork in
      if r >? 0 then stop i else next (i + 1)
    else stop i) 0.

Definition main (data : Z) : U unit :=
  do! printf (line "stressfs starting") [];
  let! m := getm in
  do! putm (memset m data 97 512);
  let! i := spread in
  do! printf (line "write %d") [Unum i];
  let path := Lit (bytes_of "stressfs" ++ [u8 (48 + i)]) in
  let! fd := open path (Z.lor O_CREATE O_RDWR) in
  do! ufor (seqZ 0 20) (fun _ => do! write fd (At data) 512; uret tt);
  do! sys (Close fd);
  do! printf (line "read") [];
  let! fd := open path O_RDONLY in
  do! ufor (seqZ 0 20) (fun _ => do! read fd data 512; uret tt);
  do! sys (Close fd);
  do! sys Wait;
  uexit 0.

End Stressfs.

(** ** user/sysinfotest.c; [info] is the address of the local structure *)
Module Sysinfotest.

Definition sysinfo (a : Z) : U Z :=
  let! (r, bs) := sys (Sysinfo a) in
  let! m := getm in
  do! putm (st_bytes m a bs);
  uret r.

(** [struct sysinfo] of kernel/sysinfo.h *)
Definition freemem (info : Z) : U Z := load 8 info.
Definition nproc (info : Z) : U Z := load 8 (info + 8).

(** [(uint64)sbrk(n) == 0xffffffffffffffff] *)
Definition no_memory (r : Z) : bool := u64 r =? 0xffffffffffffffff.

Definition fail {A} (msg : list Z) (args : list uarg) : U A := do! printf msg args; uexit 1.

Definition sinfo (info : Z) : U unit :=
  let! r := sysinfo info in
  if r <? 0 then fail (bytes_of "FAIL: sysinfo failed") [] else uret tt.

Definition countfree (info : Z) : U Z :=
  let! sz0 := sys (Sbrk 0) in
  let! n := uloop (fun n =>
    let! r := sys (Sbrk PGSIZE) in
    if no_memory r then stop n else next (s32 (n + PGSIZE))) 0 in
  do! sinfo info;
  let! f := freemem info in
  do! (if negb (f =? 0) then fail (line "FAIL: there is no free mem, but sysinfo.freemem=%d") [Unum f] else uret tt);
  let! b := sys (Sbrk 0) in
  do! sys (Sbrk (s32 (- (b - sz0))));
  uret n.

Definition check_free (info n : Z) (args : Z -> list uarg) : U unit :=
  do! sinfo info;
  let! f := freemem info in
  if negb (f =? u64 n) then fail (line "FAIL: free mem %d (bytes) instead of %d") (args f) else uret tt.

Definition testmem (info : Z) : U unit :=
  let! n := countfree info in
  do! check_free info n (fun f => [Unum f; Unum n]);
  let! r := sys (Sbrk PGSIZE) in
  do! (if no_memory r then fail (bytes_of "sbrk failed") [] else uret tt);
  do! check_free info (n - PGSIZE) (fun f => [Unum (n - PGSIZE); Unum f]);
  let! r := sys (Sbrk (- PGSIZE)) in
  do! (if no_memory r then fail (bytes_of "sbrk failed") [] else uret tt);
  check_free info n (fun f => [Unum n; Unum f]).

Definition testcall (info : Z) : U unit :=
  let! r := sysinfo info in
  do! (if r <? 0 then fail (line "FAIL: sysinfo failed") [] else uret tt);
  let! r := sysinfo 0xeaeb0b5b00002f5e in
  if negb (u64 r =? 0xffffffffffffffff) then fail (line "FAIL: sysinfo succeeded with bad argument") [] else uret tt.

Definition testproc (info : Z) : U unit :=
  do! sinfo info;
  let! np := nproc info in
  let! pid := sys Fork in
  do! (if pid <? 0 then fail (line "sysinfotest: fork failed") [] else uret tt);
  do! (if pid =? 0 then
         do! sinfo info;
         let! n := nproc info in
         do! (if negb (n =? u64 (np + 1)) then
                fail (line "sysinfotest: FAIL nproc is %d instead of %d") [Unum n; Unum (np + 1)]
              else uret tt);
         uexit 0
       else uret tt);
  do! sys Wait;
  do! sinfo info;
  let! n := nproc info in
  if negb (n =? np) then fail (line "sysinfotest: FAIL nproc is %d instead of %d") [Unum n; Unum np] else uret tt.

Definition testbad : U unit :=
  let! pid := sys Fork in
  do! (if pid <? 0 then fail (line "sysinfotest: fork failed") [] else uret tt);
  do! (if pid =? 0 then do! sinfo 0; uexit 0 else uret tt);
  let! (_, xstatus) := sys Wait in
  if xstatus =? -1 then uexit 0
  else do! printf (line "sysinfotest: testbad succeeded %d") [Unum xstatus]; uexit xstatus.

Definition main (info : Z) : U unit :=
  do! printf (line "sysinfotest: start") [];
  do! testcall info;
  do! testmem info;
  do! testproc info;
  do! printf (line "sysinfotest: OK") [];
  uexit 0.

End Sysinfotest.

(** ** [forktest] passes *)

(** What [forktest] relies on: a number of processes can be made, [fork]
    fails exactly when none is left, and [wait] reaps each child once. *)
Class ProcOs {W : Type} (h : os W) : Type := {
  spare : W -> nat;
  kids : W -> nat;
  fork_law : forall w, exists r w', h _ Fork w = (w', r) /\
    match spare w with
    | O => r = -1 /\ spare w' = O /\ kids w' = kids w
    | S k => 0 < r /\ spare w' = k /\ kids w' = S (kids w)
    end;
  wait_law : forall w, exists r st w', h _ Wait w = (w', (r, st)) /\
    match kids w with
    | O => r = -1 /\ kids w' = O
    | S k => 0 < r /\ kids w' = k
    end;
  write_keeps : forall w fd bs, exists r w', h _ (Write fd bs) w = (w', r) /\ spare w' = spare w /\ kids w' = kids w
}.

Section forktest.
Context {W : Type} (h : os W) `{P : !ProcOs h}.

Lemma print_runs s m w : exists w', runs h (Forktest.print s) m w (Done tt m) w' /\ spare w' = spare w /\ kids w' = kids w.
Proof.
  destruct (write_keeps w 1 s) as (r & w' & E & Hs & Hk). exists w'. split; [|done].
  unfold Forktest.print. ustep with (runs_sys h _ _ _ _ _ E). apply runs_ret.
Qed.

Lemma fork_loop_runs m : forall k n w, spare w = k -> 0 <= n -> n + Z.of_nat k < Forktest.N ->
  exists w', runs h (uloop Forktest.fork_loop n) m w (Done (n + Z.of_nat k) m) w' /\ kids w' = (kids w + k)%nat.
Proof.
  induction k as [|k IH]; intros n w Hs Hn Hk; destruct (fork_law w) as (r & w1 & E & Hr); rewrite Hs in Hr.
  - destruct Hr as (-> & _ & Hw). exists w1. split; [|lia]. rewrite Z.add_0_r. apply runs_loop_stop. unfold Forktest.fork_loop.
    rewrite (proj2 (Z.ltb_lt _ _)) by lia. ustep with (runs_sys h _ _ _ _ _ E). apply runs_stop.
  - destruct Hr as (Hr & Hs1 & Hw). destruct (IH (n + 1) w1 Hs1) as (w' & R & Hw'); [lia|lia|]. exists w'. split; [|lia].
    replace (n + Z.of_nat (S k)) with (n + 1 + Z.of_nat k) by lia. eapply runs_loop_next; [|exact R]. unfold Forktest.fork_loop.
    rewrite (proj2 (Z.ltb_lt _ _)) by lia. ustep with (runs_sys h _ _ _ _ _ E).
    rewrite (proj2 (Z.ltb_ge _ _)), (proj2 (Z.eqb_neq _ _)) by lia. apply runs_next.
Qed.

Lemma wait_loop_runs m : forall k w, kids w = k -> exists w', runs h (uloop Forktest.wait_loop (Z.of_nat k)) m w (Done tt m) w' /\ kids w' = O.
Proof.
  induction k as [|k IH]; intros w Hk.
  - exists w. split; [|done]. apply runs_loop_stop. apply runs_stop.
  - destruct (wait_law w) as (r & st & w1 & E & Hr). rewrite Hk in Hr. destruct Hr as (Hr & Hk1). destruct (IH w1 Hk1) as (w' & R & Hw').
    exists w'. split; [|done]. eapply runs_loop_next; [|exact R]. unfold Forktest.wait_loop.
    rewrite (proj2 (Z.gtb_lt _ _)) by lia. ustep with (runs_sys h _ _ _ _ _ E). rewrite (proj2 (Z.ltb_ge _ _)) by lia.
    replace (Z.of_nat (S k) - 1) with (Z.of_nat k) by lia. apply runs_next.
Qed.

(** On every kernel that has room for fewer than 1000 processes and runs the
    program without children, [forktest] ends, with status 0. *)
Theorem forktest_passes m w : (spare w < 1000)%nat -> kids w = O -> exists w', runs h Forktest.main m w (Exited 0) w'.
Proof.
  intros Hs Hk. unfold Forktest.main, Forktest.forktest.
  destruct (print_runs (line "fork test") m w) as (w1 & R1 & S1 & K1). rewrite <- S1 in Hs.
  destruct (fork_loop_runs m (spare w1) 0 w1 eq_refl ltac:(lia)) as (w2 & R2 & K2); [unfold Forktest.N; lia|].
  destruct (wait_loop_runs m (spare w1) w2) as (w3 & R3 & K3); [lia|].
  destruct (wait_law w3) as (r & st & w4 & E4 & Hr). rewrite K3 in Hr. destruct Hr as (-> & _).
  destruct (print_runs (line "fork test OK") m w4) as (w5 & R5 & _). exists w5.
  eapply runs_bind; [|apply runs_exit]. ustep with R1. ustep with R2.
  rewrite (proj2 (Z.eqb_neq _ _)) by (unfold Forktest.N; lia). ustep. rewrite Z.add_0_l. ustep with R3.
  ustep with (runs_sys h _ _ _ _ _ E4). simpl. ustep. exact R5.
Qed.
End forktest.
