(* ===== verification/Usertests.v ===== *)
(** * user/usertests.c, files and names

    The tests of the system calls on files, as programs.  [s] is the name
    that a test is run under and [buf] the address of the global buffer.  A
    local buffer whose contents the test does not look at is not stored, and a
    name that the test composes is the string it has composed. *)

From S2P Require Import Prelude Param Mem CString User Ulib Utils Umalloc.
From ITree Require Import ITree.
Open Scope Z_scope.
Open Scope user_scope.

(** [if(bad){ printf(fmt, args); exit(1); }] *)
Definition fail_if (bad : bool) (fmt : string) (args : list uarg) : U unit :=
  if bad then do! printf (line fmt) args; uexit 1 else uret tt.

(** [read] into a local buffer of which only the count matters. *)
Definition count_read (fd n : Z) : U Z := let! (r, _) := sys (Read fd n) in uret r.

Definition unlink (name : string) : U Z := sys (Unlink (bytes_of name)).
Definition mkdir (name : string) : U Z := sys (Mkdir (bytes_of name)).
Definition chdir (name : string) : U Z := sys (Chdir (bytes_of name)).
Definition link (old new : string) : U Z := sys (Link (bytes_of old) (bytes_of new)).
Definition close (fd : Z) : U unit := do! sys (Close fd); uret tt.

(** [close(open(name, mode))] *)
Definition touch (name : string) (mode : Z) : U unit := let! fd := open (lit name) mode in close fd.

Definition MAXFILE : Z := 12 + 256.

Section tests.
Context (buf : Z) (s : cptr).

Let str : uarg := Ustr (Some s).

Definition truncate1 : U unit :=
  do! unlink "truncfile";
  let! fd1 := open (lit "truncfile") (Z.lor (Z.lor O_CREATE O_WRONLY) O_TRUNC) in
  do! write fd1 (lit "abcd") 4;
  do! close fd1;
  let! fd2 := open (lit "truncfile") O_RDONLY in
  let! n := count_read fd2 32 in
  do! fail_if (negb (n =? 4)) "%s: read %d bytes, wanted 4" [str; Unum n];
  let! fd1 := open (lit "truncfile") (Z.lor O_WRONLY O_TRUNC) in
  let! fd3 := open (lit "truncfile") O_RDONLY in
  let! n := count_read fd3 32 in
  do! (if negb (n =? 0) then
         do! printf (line "aaa fd3=%d") [Unum fd3];
         do! printf (line "%s: read %d bytes, wanted 0") [str; Unum n];
         uexit 1
       else uret tt);
  let! n := count_read fd2 32 in
  do! (if negb (n =? 0) then
         do! printf (line "bbb fd2=%d") [Unum fd2];
         do! printf (line "%s: read %d bytes, wanted 0") [str; Unum n];
         uexit 1
       else uret tt);
  do! write fd1 (lit "abcdef") 6;
  let! n := count_read fd3 32 in
  do! fail_if (negb (n =? 6)) "%s: read %d bytes, wanted 6" [str; Unum n];
  let! n := count_read fd2 32 in
  do! fail_if (negb (n =? 2)) "%s: read %d bytes, wanted 2" [str; Unum n];
  do! unlink "truncfile";
  do! close fd1;
  do! close fd2;
  close fd3.

Definition truncate2 : U unit :=
  do! unlink "truncfile";
  let! fd1 := open (lit "truncfile") (Z.lor (Z.lor O_CREATE O_TRUNC) O_WRONLY) in
  do! write fd1 (lit "abcd") 4;
  let! fd2 := open (lit "truncfile") (Z.lor O_TRUNC O_WRONLY) in
  let! n := write fd1 (lit "x") 1 in
  do! fail_if (negb (n =? -1)) "%s: write returned %d, expected -1" [str; Unum n];
  do! unlink "truncfile";
  do! close fd1;
  close fd2.

(** The child's rounds and the parent's. *)
Definition truncate3_child : U unit :=
  do! ufor (seqZ 0 100) (fun _ =>
    let! fd := open (lit "truncfile") O_WRONLY in
    do! fail_if (fd <? 0) "%s: open failed" [str];
    let! n := write fd (lit "1234567890") 10 in
    do! fail_if (negb (n =? 10)) "%s: write got %d, expected 10" [str; Unum n];
    do! close fd;
    let! fd := open (lit "truncfile") O_RDONLY in
    do! count_read fd 32;
    close fd);
  uexit 0.

Definition truncate3 : U unit :=
  do! touch "truncfile" (Z.lor (Z.lor O_CREATE O_TRUNC) O_WRONLY);
  let! pid := sys Fork in
  do! fail_if (pid <? 0) "%s: fork failed" [str];
  do! (if pid =? 0 then truncate3_child else uret tt);
  do! ufor (seqZ 0 150) (fun _ =>
    let! fd := open (lit "truncfile") (Z.lor (Z.lor O_CREATE O_WRONLY) O_TRUNC) in
    do! fail_if (fd <? 0) "%s: open failed" [str];
    let! n := write fd (lit "xxx") 3 in
    do! fail_if (negb (n =? 3)) "%s: write got %d, expected 3" [str; Unum n];
    close fd);
  let! (_, xstatus) := sys Wait in
  do! unlink "truncfile";
  uexit xstatus.

Definition iputtest : U unit :=
  let! r := mkdir "iputdir" in
  do! fail_if (r <? 0) "%s: mkdir failed" [str];
  let! r := chdir "iputdir" in
  do! fail_if (r <? 0) "%s: chdir iputdir failed" [str];
  let! r := unlink "../iputdir" in
  do! fail_if (r <? 0) "%s: unlink ../iputdir failed" [str];
  let! r := chdir "/" in
  fail_if (r <? 0) "%s: chdir / failed" [str].

Definition exitiputtest : U unit :=
  let! pid := sys Fork in
  do! fail_if (pid <? 0) "%s: fork failed" [str];
  do! (if pid =? 0 then
         let! r := mkdir "iputdir" in
         do! fail_if (r <? 0) "%s: mkdir failed" [str];
         let! r := chdir "iputdir" in
         do! fail_if (r <? 0) "%s: child chdir failed" [str];
         let! r := unlink "../iputdir" in
         do! fail_if (r <? 0) "%s: unlink ../iputdir failed" [str];
         uexit 0
       else uret tt);
  let! (_, xstatus) := sys Wait in
  uexit xstatus.

Definition openiputtest : U unit :=
  let! r := mkdir "oidir" in
  do! fail_if (r <? 0) "%s: mkdir oidir failed" [str];
  let! pid := sys Fork in
  do! fail_if (pid <? 0) "%s: fork failed" [str];
  do! (if pid =? 0 then
         let! fd := open (lit "oidir") O_RDWR in
         do! fail_if (fd >=? 0) "%s: open directory for write succeeded" [str];
         uexit 0
       else uret tt);
  do! sys (Sleep 1);
  let! r := unlink "oidir" in
  do! fail_if (negb (r =? 0)) "%s: unlink failed" [str];
  let! (_, xstatus) := sys Wait in
  uexit xstatus.

Definition opentest : U unit :=
  let! fd := open (lit "echo") 0 in
  do! fail_if (fd <? 0) "%s: open echo failed!" [str];
  do! close fd;
  let! fd := open (lit "doesnotexist") 0 in
  fail_if (fd >=? 0) "%s: open doesnotexist succeeded!" [str].

Definition writetest : U unit :=
  let N := 100 in
  let SZ := 10 in
  let! fd := open (lit "small") (Z.lor O_CREATE O_RDWR) in
  do! fail_if (fd <? 0) "%s: error: creat small failed!" [str];
  do! ufor (seqZ 0 N) (fun i =>
    let! n := write fd (lit "aaaaaaaaaa") SZ in
    do! fail_if (negb (n =? SZ)) "%s: error: write aa %d new file failed" [str; Unum i];
    let! n := write fd (lit "bbbbbbbbbb") SZ in
    fail_if (negb (n =? SZ)) "%s: error: write bb %d new file failed" [str; Unum i]);
  do! close fd;
  let! fd := open (lit "small") O_RDONLY in
  do! fail_if (fd <? 0) "%s: error: open small failed!" [str];
  let! i := read fd buf (N * SZ * 2) in
  do! fail_if (negb (i =? N * SZ * 2)) "%s: read failed" [str];
  do! close fd;
  let! r := unlink "small" in
  fail_if (r <? 0) "%s: unlink small failed" [str].

(** The second loop of [writebig]: [n] blocks have been read. *)
Definition writebig_read (fd n : Z) : U (Z + unit) :=
  let! i := read fd buf BSIZE in
  if i =? 0 then
    do! (if n =? MAXFILE - 1 then
           do! printf (bytes_of "%s: read only %d blocks from big") [str; Unum n];
           uexit 1
         else uret tt);
    stop tt
  else
    do! fail_if (negb (i =? BSIZE)) "%s: read failed %d" [str; Unum i];
    let! v := load 4 buf in
    do! fail_if (negb (s32 v =? n)) "%s: read content of block %d is %d" [str; Unum n; Unum (s32 v)];
    next (n + 1).

Definition writebig : U unit :=
  let! fd := open (lit "big") (Z.lor O_CREATE O_RDWR) in
  do! fail_if (fd <? 0) "%s: error: creat big failed!" [str];
  do! ufor (seqZ 0 MAXFILE) (fun i =>
    do! store 4 buf i;
    let! n := write fd (At buf) BSIZE in
    fail_if (negb (n =? BSIZE)) "%s: error: write big file failed" [str; Unum i]);
  do! close fd;
  let! fd := open (lit "big") O_RDONLY in
  do! fail_if (fd <? 0) "%s: error: open big failed!" [str];
  do! uloop (writebig_read fd) 0;
  do! close fd;
  let! r := unlink "big" in
  fail_if (r <? 0) "%s: unlink big failed" [str].

Definition createtest : U unit :=
  let N := 52 in
  do! ufor (seqZ 0 N) (fun i =>
    let! fd := open (Lit [97; 48 + i]) (Z.lor O_CREATE O_RDWR) in
    close fd);
  ufor (seqZ 0 N) (fun i => do! sys (Unlink [97; 48 + i]); uret tt).

Definition dirtest : U unit :=
  let! r := mkdir "dir0" in
  do! fail_if (r <? 0) "%s: mkdir failed" [str];
  let! r := chdir "dir0" in
  do! fail_if (r <? 0) "%s: chdir dir0 failed" [str];
  let! r := chdir ".." in
  do! fail_if (r <? 0) "%s: chdir .. failed" [str];
  let! r := unlink "dir0" in
  fail_if (r <? 0) "%s: unlink dir0 failed" [str].

Definition exectest : U unit :=
  do! unlink "echo-ok";
  let! pid := sys Fork in
  do! fail_if (pid <? 0) "%s: fork failed" [str];
  do! (if pid =? 0 then
         do! close 1;
         let! fd := open (lit "echo-ok") (Z.lor O_CREATE O_WRONLY) in
         do! fail_if (fd <? 0) "%s: create failed" [str];
         do! fail_if (negb (fd =? 1)) "%s: wrong fd" [str];
         let! r := exec (lit "echo") [lit "echo"; lit "OK"] in
         fail_if (r <? 0) "%s: exec echo failed" [str]
       else uret tt);
  let! (r, xstatus) := sys Wait in
  do! (if negb (r =? pid) then printf (line "%s: wait failed!") [str] else uret tt);
  do! (if negb (xstatus =? 0) then uexit xstatus else uret tt);
  let! fd := open (lit "echo-ok") O_RDONLY in
  do! fail_if (fd <? 0) "%s: open failed" [str];
  let! (n, bs) := sys (Read fd 2) in
  do! fail_if (negb (n =? 2)) "%s: read failed" [str];
  do! unlink "echo-ok";
  if bool_decide (take 2 bs = bytes_of "OK") then uexit 0
  else do! printf (line "%s: wrong output") [str]; uexit 1.

(** ** Processes and pipes *)

(** [for(;;);] *)
Definition spin {A} : U A := uloop (fun _ : unit => next tt) tt.

Definition BUFSZ : Z := (MAXOPBLOCKS + 2) * BSIZE.

(** Filling the buffer: [for(i = 0; i < SZ; i++) buf[i] = seq++;] *)
Definition fill_seq (n seq : Z) : U unit :=
  ufor (seqZ 0 n) (fun i => store8 (buf + i) (u8 (seq + i))).

(** Whether the [n] bytes read continue the sequence. *)
Definition check_seq (n seq : Z) : U bool :=
  let! m := getm in
  uret (forallb (fun i => ld8 m (buf + i) =? (seq + i) mod 256) (seqZ 0 n)).

Definition pipe1_reader (fd0 : Z) : U unit :=
  let N := 5 in
  let SZ := 1033 in
  let! total := uloop (fun '(seq, total, cc) =>
    let! n := read fd0 buf cc in
    if n >? 0 then
      let! same := check_seq n seq in
      if (same : bool) then
        let cc := cc * 2 in
        next (seq + n, total + n, if cc >? BUFSZ then BUFSZ else cc)
      else do! printf (line "%s: pipe1 oops 2") [str]; stop None
    else stop (Some total)) (0, 0, 1) in
  match total with
  | None => uret tt
  | Some total =>
    do! fail_if (negb (total =? N * SZ)) "%s: pipe1 oops 3 total %d" [Ustr (Some (At total))];
    do! close fd0;
    let! (_, xstatus) := sys Wait in
    uexit xstatus
  end.

Definition pipe1 : U unit :=
  let N := 5 in
  let SZ := 1033 in
  let! (r, (fd0, fd1)) := sys Pipe in
  do! fail_if (negb (r =? 0)) "%s: pipe() failed" [str];
  let! pid := sys Fork in
  if pid =? 0 then
    do! close fd0;
    do! ufor (seqZ 0 N) (fun n =>
      do! fill_seq SZ (n * SZ);
      let! r := write fd1 (At buf) SZ in
      fail_if (negb (r =? SZ)) "%s: pipe1 oops 1" [str]);
    uexit 0
  else if pid >? 0 then
    do! close fd1;
    pipe1_reader fd0
  else
    do! printf (line "%s: fork() failed") [str];
    uexit 1.

Definition killstatus : U unit :=
  do! ufor (seqZ 0 100) (fun _ =>
    let! pid1 := sys Fork in
    do! fail_if (pid1 <? 0) "%s: fork failed" [str];
    do! (if pid1 =? 0 then uloop (fun _ : unit => do! sys Getpid; next tt) tt else uret tt);
    do! sys (Sleep 1);
    do! sys (Kill pid1);
    let! (_, xst) := sys Wait in
    fail_if (negb (xst =? -1)) "%s: status should be -1" [str]);
  uexit 0.

Definition preempt : U unit :=
  let! pid1 := sys Fork in
  do! (if pid1 <? 0 then do! printf (bytes_of "%s: fork failed") [str]; uexit 1 else uret tt);
  do! (if pid1 =? 0 then spin else uret tt);
  let! pid2 := sys Fork in
  do! fail_if (pid2 <? 0) "%s: fork failed" [str];
  do! (if pid2 =? 0 then spin else uret tt);
  let! (_, (fd0, fd1)) := sys Pipe in
  let! pid3 := sys Fork in
  do! fail_if (pid3 <? 0) "%s: fork failed" [str];
  do! (if pid3 =? 0 then
         do! close fd0;
         let! n := write fd1 (lit "x") 1 in
         do! (if negb (n =? 1) then printf (bytes_of "%s: preempt write error") [str] else uret tt);
         do! close fd1;
         spin
       else uret tt);
  do! close fd1;
  let! n := read fd0 buf BUFSZ in
  if negb (n =? 1) then printf (bytes_of "%s: preempt read error") [str]
  else
    do! close fd0;
    do! printf (bytes_of "kill... ") [];
    do! sys (Kill pid1);
    do! sys (Kill pid2);
    do! sys (Kill pid3);
    do! printf (bytes_of "wait... ") [];
    do! sys Wait;
    do! sys Wait;
    do! sys Wait;
    uret tt.

Definition exitwait : U unit :=
  ufor (seqZ 0 100) (fun i =>
    let! pid := sys Fork in
    do! fail_if (pid <? 0) "%s: fork failed" [str];
    if negb (pid =? 0) then
      let! (r, xstate) := sys Wait in
      do! fail_if (negb (r =? pid)) "%s: wait wrong pid" [str];
      fail_if (negb (i =? xstate)) "%s: wait wrong exit status" [str]
    else uexit i).

Definition reparent : U unit :=
  let! master_pid := sys Getpid in
  do! ufor (seqZ 0 200) (fun _ =>
    let! pid := sys Fork in
    do! fail_if (pid <? 0) "%s: fork failed" [str];
    if negb (pid =? 0) then
      let! (r, _) := sys Wait in
      fail_if (negb (r =? pid)) "%s: wait wrong pid" [str]
    else
      let! pid2 := sys Fork in
      do! (if pid2 <? 0 then do! sys (Kill master_pid); uexit 1 else uret tt);
      uexit 0);
  uexit 0.

Definition twochildren : U unit :=
  ufor (seqZ 0 1000) (fun _ =>
    let! pid1 := sys Fork in
    do! fail_if (pid1 <? 0) "%s: fork failed" [str];
    if pid1 =? 0 then uexit 0
    else
      let! pid2 := sys Fork in
      do! fail_if (pid2 <? 0) "%s: fork failed" [str];
      if pid2 =? 0 then uexit 0
      else do! sys Wait; do! sys Wait; uret tt).

Definition forkfork : U unit :=
  let N := 2 in
  do! ufor (seqZ 0 N) (fun _ =>
    let! pid := sys Fork in
    do! (if pid <? 0 then do! printf (bytes_of "%s: fork failed") [str]; uexit 1 else uret tt);
    if pid =? 0 then
      do! ufor (seqZ 0 200) (fun _ =>
        let! pid1 := sys Fork in
        do! (if pid1 <? 0 then uexit 1 else uret tt);
        do! (if pid1 =? 0 then uexit 0 else uret tt);
        do! sys Wait;
        uret tt);
      uexit 0
    else uret tt);
  ufor (seqZ 0 N) (fun _ =>
    let! (_, xstatus) := sys Wait in
    if negb (xstatus =? 0) then do! printf (bytes_of "%s: fork in child failed") [str]; uexit 1 else uret tt).

Definition forkforkfork : U unit :=
  do! unlink "stopforking";
  let! pid := sys Fork in
  do! (if pid <? 0 then do! printf (bytes_of "%s: fork failed") [str]; uexit 1 else uret tt);
  do! (if pid =? 0 then
         uloop (fun _ : unit =>
           let! fd := open (lit "stopforking") 0 in
           do! (if fd >=? 0 then uexit 0 else uret tt);
           let! r := sys Fork in
           do! (if r <? 0 then touch "stopforking" (Z.lor O_CREATE O_RDWR) else uret tt);
           next tt) tt
       else uret tt);
  do! sys (Sleep 20);
  do! touch "stopforking" (Z.lor O_CREATE O_RDWR);
  do! sys Wait;
  do! sys (Sleep 10);
  uret tt.

Definition reparent2 : U unit :=
  do! ufor (seqZ 0 800) (fun _ =>
    let! pid1 := sys Fork in
    do! fail_if (pid1 <? 0) "fork failed" [];
    do! (if pid1 =? 0 then do! sys Fork; do! sys Fork; uexit 0 else uret tt);
    do! sys Wait;
    uret tt);
  uexit 0.

(** The child of [mem]; the blocks it holds are linked by their first words. *)
Definition mem_child (base freep : Z) : U unit :=
  let! m1 := uloop (fun m1 =>
    let! m2 := malloc base freep 10001 in
    if m2 =? 0 then stop m1 else do! store 8 m2 m1; next m2) 0 in
  do! uloop (fun m1 =>
    if m1 =? 0 then stop tt
    else
      let! m2 := load 8 m1 in
      do! free freep m1;
      next m2) m1;
  let! m1 := malloc base freep (1024 * 20) in
  do! fail_if (m1 =? 0) "couldn't allocate mem?!!" [str];
  do! free freep m1;
  uexit 0.

Definition mem (base freep : Z) : U unit :=
  let! pid := sys Fork in
  if pid =? 0 then mem_child base freep
  else
    let! (_, xstatus) := sys Wait in
    if xstatus =? -1 then uexit 0 else uexit xstatus.

(** ** Sharing, creating and linking files *)

(** A local buffer [b] after [read] has stored [bs] at its start. *)
Definition fill_local (b bs : list Z) : list Z := take (length b) (bs ++ drop (length bs) b).

Definition count_byte (c : Z) (b : list Z) : Z := Z.of_nat (length (filter (fun x => x = c) b)).

Definition sharedfd : U unit :=
  let N := 1000 in
  let SZ := 10 in
  do! unlink "sharedfd";
  let! fd := open (lit "sharedfd") (Z.lor O_CREATE O_RDWR) in
  do! (if fd <? 0 then do! printf (bytes_of "%s: cannot open sharedfd for writing") [str]; uexit 1 else uret tt);
  let! pid := sys Fork in
  let b := replicate (Z.to_nat SZ) (if pid =? 0 then 99 else 112) in
  do! ufor (seqZ 0 N) (fun _ =>
    let! n := sys (Write fd b) in
    fail_if (negb (n =? SZ)) "%s: write sharedfd failed" [str]);
  do! (if pid =? 0 then uexit 0
       else
         let! (_, xstatus) := sys Wait in
         if negb (xstatus =? 0) then uexit xstatus else uret tt);
  do! close fd;
  let! fd := open (lit "sharedfd") 0 in
  do! fail_if (fd <? 0) "%s: cannot open sharedfd for reading" [str];
  let! (nc, np) := uloop (fun '(b, nc, np) =>
    let! (n, bs) := sys (Read fd SZ) in
    let b := fill_local b bs in
    if n >? 0 then next (b, nc + count_byte 99 b, np + count_byte 112 b) else stop (nc, np)) (b, 0, 0) in
  do! close fd;
  do! unlink "sharedfd";
  if (nc =? N * SZ) && (np =? N * SZ) then uexit 0
  else do! printf (line "%s: nc/np test fails") [str]; uexit 1.

(** The names f0 to f3. *)
Definition fname (i : Z) : list Z := [102; 48 + i].

Definition fourfiles_child (pi : Z) : U unit :=
  let N := 12 in
  let SZ := 500 in
  let! fd := open (Lit (fname pi)) (Z.lor O_CREATE O_RDWR) in
  do! fail_if (fd <? 0) "create failed" [str];
  let! m := getm in
  do! putm (memset m buf (48 + pi) SZ);
  do! ufor (seqZ 0 N) (fun _ =>
    let! n := write fd (At buf) SZ in
    fail_if (negb (n =? SZ)) "write failed %d" [Unum n]);
  uexit 0.

Definition fourfiles : U unit :=
  let N := 12 in
  let NCHILD := 4 in
  let SZ := 500 in
  do! ufor (seqZ 0 NCHILD) (fun pi =>
    do! sys (Unlink (fname pi));
    let! pid := sys Fork in
    do! fail_if (pid <? 0) "fork failed" [str];
    if pid =? 0 then fourfiles_child pi else uret tt);
  do! ufor (seqZ 0 NCHILD) (fun _ =>
    let! (_, xstatus) := sys Wait in
    if negb (xstatus =? 0) then uexit xstatus else uret tt);
  ufor (seqZ 0 NCHILD) (fun i =>
    let! fd := open (Lit (fname i)) 0 in
    let! total := uloop (fun total =>
      let! n := read fd buf BUFSZ in
      if n >? 0 then
        let! m := getm in
        do! fail_if (negb (forallb (fun j => ld8 m (buf + j) =? 48 + i) (seqZ 0 n))) "wrong char" [str];
        next (total + n)
      else stop total) 0 in
    do! close fd;
    do! fail_if (negb (total =? N * SZ)) "wrong length %d" [Unum total];
    do! sys (Unlink (fname i));
    uret tt).

Definition createdelete_child (pi : Z) : U unit :=
  let N := 20 in
  do! ufor (seqZ 0 N) (fun i =>
    let! fd := open (Lit [112 + pi; 48 + i]) (Z.lor O_CREATE O_RDWR) in
    do! fail_if (fd <? 0) "%s: create failed" [str];
    do! close fd;
    if (i >? 0) && (i mod 2 =? 0) then
      let! r := sys (Unlink [112 + pi; 48 + i / 2]) in
      fail_if (r <? 0) "%s: unlink failed" [str]
    else uret tt);
  uexit 0.

Definition createdelete : U unit :=
  let N := 20 in
  let NCHILD := 4 in
  do! ufor (seqZ 0 NCHILD) (fun pi =>
    let! pid := sys Fork in
    do! fail_if (pid <? 0) "fork failed" [str];
    if pid =? 0 then createdelete_child pi else uret tt);
  do! ufor (seqZ 0 NCHILD) (fun _ =>
    let! (_, xstatus) := sys Wait in
    if negb (xstatus =? 0) then uexit 1 else uret tt);
  do! ufor (seqZ 0 N) (fun i => ufor (seqZ 0 NCHILD) (fun pi =>
    let name := [112 + pi; 48 + i] in
    let! fd := open (Lit name) 0 in
    do! (if ((i =? 0) || (i >=? N / 2)) && (fd <? 0) then
           do! printf (line "%s: oops createdelete %s didn't exist") [str; Ustr (Some (Lit name))];
           uexit 1
         else fail_if ((i >=? 1) && (i <? N / 2) && (fd >=? 0)) "%s: oops createdelete %s did exist" [str; Ustr (Some (Lit name))]);
    if fd >=? 0 then close fd else uret tt));
  ufor (seqZ 0 N) (fun i => ufor (seqZ 0 NCHILD) (fun _ =>
    do! sys (Unlink [112 + i; 48 + i]);
    uret tt)).

Definition unlinkread : U unit :=
  let SZ := 5 in
  let! fd := open (lit "unlinkread") (Z.lor O_CREATE O_RDWR) in
  do! fail_if (fd <? 0) "%s: create unlinkread failed" [str];
  do! write fd (lit "hello") SZ;
  do! close fd;
  let! fd := open (lit "unlinkread") O_RDWR in
  do! fail_if (fd <? 0) "%s: open unlinkread failed" [str];
  let! r := unlink "unlinkread" in
  do! fail_if (negb (r =? 0)) "%s: unlink unlinkread failed" [str];
  let! fd1 := open (lit "unlinkread") (Z.lor O_CREATE O_RDWR) in
  do! write fd1 (lit "yyy") 3;
  do! close fd1;
  let! n := read fd buf BUFSZ in
  do! (if negb (n =? SZ) then do! printf (bytes_of "%s: unlinkread read failed") [str]; uexit 1 else uret tt);
  let! c := load8 buf in
  do! fail_if (negb (c =? 104)) "%s: unlinkread wrong data" [str];
  let! n := write fd (At buf) 10 in
  do! fail_if (negb (n =? 10)) "%s: unlinkread write failed" [str];
  do! close fd;
  do! unlink "unlinkread";
  uret tt.

Definition linktest : U unit :=
  let SZ := 5 in
  do! unlink "lf1";
  do! unlink "lf2";
  let! fd := open (lit "lf1") (Z.lor O_CREATE O_RDWR) in
  do! fail_if (fd <? 0) "%s: create lf1 failed" [str];
  let! n := write fd (lit "hello") SZ in
  do! fail_if (negb (n =? SZ)) "%s: write lf1 failed" [str];
  do! close fd;
  let! r := link "lf1" "lf2" in
  do! fail_if (r <? 0) "%s: link lf1 lf2 failed" [str];
  do! unlink "lf1";
  let! fd := open (lit "lf1") 0 in
  do! fail_if (fd >=? 0) "%s: unlinked lf1 but it is still there!" [str];
  let! fd := open (lit "lf2") 0 in
  do! fail_if (fd <? 0) "%s: open lf2 failed" [str];
  let! n := read fd buf BUFSZ in
  do! fail_if (negb (n =? SZ)) "%s: read lf2 failed" [str];
  do! close fd;
  let! r := link "lf2" "lf2" in
  do! fail_if (r >=? 0) "%s: link lf2 lf2 succeeded! oops" [str];
  do! unlink "lf2";
  let! r := link "lf2" "lf1" in
  do! fail_if (r >=? 0) "%s: link non-existent succeeded! oops" [str];
  let! r := link "." "lf1" in
  fail_if (r >=? 0) "%s: link . lf1 succeeded! oops" [str].

(** The three loops of [concreate]. *)
Definition concreate_make (i : Z) : U unit :=
  let file := [67; 48 + i] in
  do! sys (Unlink file);
  let! pid := sys Fork in
  do! (if negb (pid =? 0) && (i mod 3 =? 1) then do! sys (Link (bytes_of "C0") file); uret tt
       else if (pid =? 0) && (i mod 5 =? 1) then do! sys (Link (bytes_of "C0") file); uret tt
       else
         let! fd := open (Lit file) (Z.lor O_CREATE O_RDWR) in
         do! fail_if (fd <? 0) "concreate create %s failed" [Ustr (Some (Lit file))];
         close fd);
  if pid =? 0 then uexit 0
  else
    let! (_, xstatus) := sys Wait in
    if negb (xstatus =? 0) then uexit 1 else uret tt.

(** One entry of the directory; [fa] says which names were seen, [n] how many. *)
Definition concreate_entry (fd : Z) (st : list bool * Z) : U ((list bool * Z) + Z) :=
  let (fa, n) := st in
  let! (r, de) := sys (Read fd 16) in
  if r >? 0 then
    if Ls.de_inum de =? 0 then next (fa, n)
    else
      let name := Ls.de_name de in
      let at_ k := default 0 (name !! k) in
      if (at_ 0%nat =? 67) && (at_ 2%nat =? 0) then
        let i := at_ 1%nat - 48 in
        do! fail_if ((i <? 0) || (i >=? 40)) "%s: concreate weird file %s" [str; Ustr (Some (Lit name))];
        do! fail_if (default false (fa !! Z.to_nat i)) "%s: concreate duplicate file %s" [str; Ustr (Some (Lit name))];
        next (<[Z.to_nat i := true]> fa, n + 1)
      else next (fa, n)
  else stop n.

Definition concreate_drop (i : Z) : U unit :=
  let file := [67; 48 + i] in
  let! pid := sys Fork in
  do! fail_if (pid <? 0) "%s: fork failed" [str];
  do! (if ((i mod 3 =? 0) && (pid =? 0)) || ((i mod 3 =? 1) && negb (pid =? 0)) then
         ufor (seqZ 0 6) (fun _ => let! fd := open (Lit file) 0 in close fd)
       else ufor (seqZ 0 6) (fun _ => do! sys (Unlink file); uret tt));
  if pid =? 0 then uexit 0 else do! sys Wait; uret tt.

Definition concreate : U unit :=
  let N := 40 in
  do! ufor (seqZ 0 N) concreate_make;
  let! fd := open (lit ".") 0 in
  let! n := uloop (concreate_entry fd) (replicate (Z.to_nat N) false, 0) in
  do! close fd;
  do! fail_if (negb (n =? N)) "%s: concreate not enough files in directory listing" [str];
  ufor (seqZ 0 N) concreate_drop.

(** [x] runs through a linear congruential sequence. *)
Fixpoint linkunlink_loop (n : nat) (x : Z) : U unit :=
  match n with
  | O => uret tt
  | S n =>
    let x := u32 (u32 (x * 1103515245) + 12345) in
    do! (if x mod 3 =? 0 then touch "x" (Z.lor O_RDWR O_CREATE)
         else if x mod 3 =? 1 then do! link "cat" "x"; uret tt
         else do! unlink "x"; uret tt);
    linkunlink_loop n x
  end.

Definition linkunlink : U unit :=
  do! unlink "x";
  let! pid := sys Fork in
  do! fail_if (pid <? 0) "%s: fork failed" [str];
  do! linkunlink_loop 100 (if negb (pid =? 0) then 1 else 97);
  if negb (pid =? 0) then do! sys Wait; uret tt else uexit 0.

(** ** Directories *)

(** [if(bad(call)){ printf(msg, s); exit(1); }] *)
Definition expect (call : U Z) (bad : Z -> bool) (msg : string) : U unit :=
  let! r := call in
  fail_if (bad r) msg [str].

Definition negative (r : Z) : bool := r <? 0.
Definition nonneg (r : Z) : bool := r >=? 0.
Definition nonzero (r : Z) : bool := negb (r =? 0).
Definition zero (r : Z) : bool := r =? 0.

(** The three parts of [subdir]: making, misusing and removing. *)
Definition subdir_make : U unit :=
  do! unlink "ff";
  do! expect (mkdir "dd") nonzero "%s: mkdir dd failed";
  let! fd := open (lit "dd/ff") (Z.lor O_CREATE O_RDWR) in
  do! fail_if (fd <? 0) "%s: create dd/ff failed" [str];
  do! write fd (lit "ff") 2;
  do! close fd;
  do! expect (unlink "dd") nonneg "%s: unlink dd (non-empty dir) succeeded!";
  do! expect (mkdir "/dd/dd") nonzero "subdir mkdir dd/dd failed";
  let! fd := open (lit "dd/dd/ff") (Z.lor O_CREATE O_RDWR) in
  do! fail_if (fd <? 0) "%s: create dd/dd/ff failed" [str];
  do! write fd (lit "FF") 2;
  do! close fd;
  let! fd := open (lit "dd/dd/../ff") 0 in
  do! fail_if (fd <? 0) "%s: open dd/dd/../ff failed" [str];
  let! cc := read fd buf BUFSZ in
  let! c := load8 buf in
  do! fail_if (negb (cc =? 2) || negb (c =? 102)) "%s: dd/dd/../ff wrong content" [str];
  do! close fd;
  do! expect (link "dd/dd/ff" "dd/dd/ffff") nonzero "link dd/dd/ff dd/dd/ffff failed";
  do! expect (unlink "dd/dd/ff") nonzero "%s: unlink dd/dd/ff failed";
  do! expect (open (lit "dd/dd/ff") O_RDONLY) nonneg "%s: open (unlinked) dd/dd/ff succeeded";
  do! expect (chdir "dd") nonzero "%s: chdir dd failed";
  do! expect (chdir "dd/../../dd") nonzero "%s: chdir dd/../../dd failed";
  do! expect (chdir "dd/../../../dd") nonzero "chdir dd/../../dd failed";
  do! expect (chdir "./..") nonzero "%s: chdir ./.. failed";
  let! fd := open (lit "dd/dd/ffff") 0 in
  do! fail_if (fd <? 0) "%s: open dd/dd/ffff failed" [str];
  let! cc := read fd buf BUFSZ in
  do! fail_if (negb (cc =? 2)) "%s: read dd/dd/ffff wrong len" [str];
  close fd.

Definition subdir_misuse : U unit :=
  do! expect (open (lit "dd/dd/ff") O_RDONLY) nonneg "%s: open (unlinked) dd/dd/ff succeeded!";
  do! expect (open (lit "dd/ff/ff") (Z.lor O_CREATE O_RDWR)) nonneg "%s: create dd/ff/ff succeeded!";
  do! expect (open (lit "dd/xx/ff") (Z.lor O_CREATE O_RDWR)) nonneg "%s: create dd/xx/ff succeeded!";
  do! expect (open (lit "dd") O_CREATE) nonneg "%s: create dd succeeded!";
  do! expect (open (lit "dd") O_RDWR) nonneg "%s: open dd rdwr succeeded!";
  do! expect (open (lit "dd") O_WRONLY) nonneg "%s: open dd wronly succeeded!";
  do! expect (link "dd/ff/ff" "dd/dd/xx") zero "%s: link dd/ff/ff dd/dd/xx succeeded!";
  do! expect (link "dd/xx/ff" "dd/dd/xx") zero "%s: link dd/xx/ff dd/dd/xx succeeded!";
  do! expect (link "dd/ff" "dd/dd/ffff") zero "%s: link dd/ff dd/dd/ffff succeeded!";
  do! expect (mkdir "dd/ff/ff") zero "%s: mkdir dd/ff/ff succeeded!";
  do! expect (mkdir "dd/xx/ff") zero "%s: mkdir dd/xx/ff succeeded!";
  do! expect (mkdir "dd/dd/ffff") zero "%s: mkdir dd/dd/ffff succeeded!";
  do! expect (unlink "dd/xx/ff") zero "%s: unlink dd/xx/ff succeeded!";
  do! expect (unlink "dd/ff/ff") zero "%s: unlink dd/ff/ff succeeded!";
  do! expect (chdir "dd/ff") zero "%s: chdir dd/ff succeeded!";
  expect (chdir "dd/xx") zero "%s: chdir dd/xx succeeded!".

Definition subdir_remove : U unit :=
  do! expect (unlink "dd/dd/ffff") nonzero "%s: unlink dd/dd/ff failed";
  do! expect (unlink "dd/ff") nonzero "%s: unlink dd/ff failed";
  do! expect (unlink "dd") zero "%s: unlink non-empty dd succeeded!";
  do! expect (unlink "dd/dd") negative "%s: unlink dd/dd failed";
  expect (unlink "dd") negative "%s: unlink dd failed".

Definition subdir : U unit := do! subdir_make; do! subdir_misuse; subdir_remove.

(** [sz] runs from 499 in steps of 471. *)
Definition bigwrite : U unit :=
  do! unlink "bigwrite";
  uloop (fun sz =>
    if sz <? BUFSZ then
      let! fd := open (lit "bigwrite") (Z.lor O_CREATE O_RDWR) in
      do! fail_if (fd <? 0) "%s: cannot create bigwrite" [str];
      do! ufor (seqZ 0 2) (fun _ =>
        let! cc := write fd (At buf) sz in
        fail_if (negb (cc =? sz)) "%s: write(%d) ret %d" [str; Unum sz; Unum cc]);
      do! close fd;
      do! unlink "bigwrite";
      next (sz + 471)
    else stop tt) 499.

Definition bigfile : U unit :=
  let N := 20 in
  let SZ := 600 in
  do! unlink "bigfile.dat";
  let! fd := open (lit "bigfile.dat") (Z.lor O_CREATE O_RDWR) in
  do! (if fd <? 0 then do! printf (bytes_of "%s: cannot create bigfile") [str]; uexit 1 else uret tt);
  do! ufor (seqZ 0 N) (fun i =>
    let! m := getm in
    do! putm (memset m buf i SZ);
    let! n := write fd (At buf) SZ in
    fail_if (negb (n =? SZ)) "%s: write bigfile failed" [str]);
  do! close fd;
  let! fd := open (lit "bigfile.dat") 0 in
  do! fail_if (fd <? 0) "%s: cannot open bigfile" [str];
  let! total := uloop (fun '(i, total) =>
    let! cc := read fd buf (SZ / 2) in
    do! fail_if (cc <? 0) "%s: read bigfile failed" [str];
    if cc =? 0 then stop total
    else
      do! fail_if (negb (cc =? SZ / 2)) "%s: short read bigfile" [str];
      let! b0 := load8 buf in
      let! b1 := load8 (buf + SZ / 2 - 1) in
      do! fail_if (negb (b0 =? i / 2) || negb (b1 =? i / 2)) "%s: read bigfile wrong data" [str];
      next (i + 1, total + cc)) (0, 0) in
  do! close fd;
  do! fail_if (negb (total =? N * SZ)) "%s: read bigfile wrong total" [str];
  do! unlink "bigfile.dat";
  uret tt.

Definition fourteen : U unit :=
  do! expect (mkdir "12345678901234") nonzero "%s: mkdir 12345678901234 failed";
  do! expect (mkdir "12345678901234/123456789012345") nonzero "%s: mkdir 12345678901234/123456789012345 failed";
  let! fd := open (lit "123456789012345/123456789012345/123456789012345") O_CREATE in
  do! fail_if (fd <? 0) "%s: create 123456789012345/123456789012345/123456789012345 failed" [str];
  do! close fd;
  let! fd := open (lit "12345678901234/12345678901234/12345678901234") 0 in
  do! fail_if (fd <? 0) "%s: open 12345678901234/12345678901234/12345678901234 failed" [str];
  do! close fd;
  do! expect (mkdir "12345678901234/12345678901234") zero "%s: mkdir 12345678901234/12345678901234 succeeded!";
  do! expect (mkdir "123456789012345/12345678901234") zero "%s: mkdir 12345678901234/123456789012345 succeeded!";
  do! unlink "123456789012345/12345678901234";
  do! unlink "12345678901234/12345678901234";
  do! unlink "12345678901234/12345678901234/12345678901234";
  do! unlink "123456789012345/123456789012345/123456789012345";
  do! unlink "12345678901234/123456789012345";
  do! unlink "12345678901234";
  uret tt.

Definition rmdot : U unit :=
  do! expect (mkdir "dots") nonzero "%s: mkdir dots failed";
  do! expect (chdir "dots") nonzero "%s: chdir dots failed";
  do! expect (unlink ".") zero "%s: rm . worked!";
  do! expect (unlink "..") zero "%s: rm .. worked!";
  do! expect (chdir "/") nonzero "%s: chdir / failed";
  do! expect (unlink "dots/.") zero "%s: unlink dots/. worked!";
  do! expect (unlink "dots/..") zero "%s: unlink dots/.. worked!";
  expect (unlink "dots") nonzero "%s: unlink dots failed!".

Definition dirfile : U unit :=
  let! fd := open (lit "dirfile") O_CREATE in
  do! fail_if (fd <? 0) "%s: create dirfile failed" [str];
  do! close fd;
  do! expect (chdir "dirfile") zero "%s: chdir dirfile succeeded!";
  do! expect (open (lit "dirfile/xx") 0) nonneg "%s: create dirfile/xx succeeded!";
  do! expect (open (lit "dirfile/xx") O_CREATE) nonneg "%s: create dirfile/xx succeeded!";
  do! expect (mkdir "dirfile/xx") zero "%s: mkdir dirfile/xx succeeded!";
  do! expect (unlink "dirfile/xx") zero "%s: unlink dirfile/xx succeeded!";
  do! expect (link "README" "dirfile/xx") zero "%s: link to dirfile/xx succeeded!";
  do! expect (unlink "dirfile") nonzero "%s: unlink dirfile failed!";
  do! expect (open (lit ".") O_RDWR) nonneg "%s: open . for writing succeeded!";
  let! fd := open (lit ".") 0 in
  let! n := write fd (lit "x") 1 in
  do! fail_if (n >? 0) "%s: write . succeeded!" [str];
  close fd.

Definition iref : U unit :=
  do! ufor (seqZ 0 (Z.of_nat NINODE + 1)) (fun _ =>
    do! expect (mkdir "irefd") nonzero "%s: mkdir irefd failed";
    do! expect (chdir "irefd") nonzero "%s: chdir irefd failed";
    do! mkdir "";
    do! link "README" "";
    let! fd := open (lit "") O_CREATE in
    do! (if fd >=? 0 then close fd else uret tt);
    let! fd := open (lit "xx") O_CREATE in
    do! (if fd >=? 0 then close fd else uret tt);
    do! unlink "xx";
    uret tt);
  do! ufor (seqZ 0 (Z.of_nat NINODE + 1)) (fun _ =>
    do! chdir "..";
    do! unlink "irefd";
    uret tt);
  do! chdir "/";
  uret tt.

(** How many of [N] forks worked. *)
Definition fork_many (N : Z) : U Z :=
  uloop (fun n =>
    if n <? N then
      let! pid := sys Fork in
      if pid <? 0 then stop n
      else if pid =? 0 then uexit 0
      else next (n + 1)
    else stop n) 0.

Definition forktest : U unit :=
  let N := 1000 in
  let! n := fork_many N in
  do! fail_if (n =? 0) "%s: no fork at all!" [str];
  do! fail_if (n =? N) "%s: fork claimed to work 1000 times!" [str];
  do! ufor (seqZ 0 n) (fun _ =>
    let! (r, _) := sys Wait in
    fail_if (r <? 0) "%s: wait stopped early" [str]);
  let! (r, _) := sys Wait in
  fail_if (negb (r =? -1)) "%s: wait got too many" [str].

(** ** Arguments and sizes *)

(** [b] is a string of [MAXPATH] bytes, [big] one of [PGSIZE]. *)
Definition copyinstr2_child (fd : Z) : U unit :=
  let big := Lit (replicate (Z.to_nat PGSIZE) 120) in
  let! ret := exec (lit "echo") [big; big; big] in
  do! fail_if (negb (ret =? -1)) "exec(echo, BIG) returned %d, not -1" [Unum fd];
  uexit 747.

Definition copyinstr2 : U unit :=
  let b := replicate (Z.to_nat MAXPATH) 120 in
  let bs := Ustr (Some (Lit b)) in
  let! ret := sys (Unlink b) in
  do! fail_if (negb (ret =? -1)) "unlink(%s) returned %d, not -1" [bs; Unum ret];
  let! fd := open (Lit b) (Z.lor O_CREATE O_WRONLY) in
  do! fail_if (negb (fd =? -1)) "open(%s) returned %d, not -1" [bs; Unum fd];
  let! ret := sys (Link b b) in
  do! fail_if (negb (ret =? -1)) "link(%s, %s) returned %d, not -1" [bs; bs; Unum ret];
  let! ret := exec (Lit b) [lit "xx"] in
  do! fail_if (negb (ret =? -1)) "exec(%s) returned %d, not -1" [bs; Unum fd];
  let! pid := sys Fork in
  do! fail_if (pid <? 0) "fork failed" [];
  do! (if pid =? 0 then copyinstr2_child fd else uret tt);
  let! (r, x) := sys Wait in
  let st := if r <? 0 then 0 else x in
  fail_if (negb (st =? 747)) "exec(echo, BIG) succeeded, should have failed" [].

(** The array [uninit] of 10000 bytes is at this address. *)
Definition bsstest (uninit : Z) : U unit :=
  ufor (seqZ 0 10000) (fun i =>
    let! c := load8 (uninit + i) in
    fail_if (negb (c =? 0)) "%s: bss test failed" [str]).

(** The long argument: the message, a newline and blanks. *)
Definition bigarg : list Z := line "bigargs test: failed" ++ replicate 199 32.

Definition bigargtest : U unit :=
  do! unlink "bigarg-ok";
  let! pid := sys Fork in
  do! (if pid =? 0 then
         do! exec (lit "echo") (replicate (Z.to_nat MAXARG - 1) (Lit bigarg));
         let! fd := open (lit "bigarg-ok") O_CREATE in
         do! close fd;
         uexit 0
       else fail_if (pid <? 0) "%s: bigargtest: fork failed" [str]);
  let! (_, xstatus) := sys Wait in
  do! (if negb (xstatus =? 0) then uexit xstatus else uret tt);
  let! fd := open (lit "bigarg-ok") 0 in
  do! fail_if (fd <? 0) "%s: bigarg test failed!" [str];
  close fd.

(** The name ["fdddd"] of a number below 10000. *)
Definition fsfull_name (n : Z) : list Z :=
  [102; 48 + n / 1000; 48 + (n mod 1000) / 100; 48 + (n mod 100) / 10; 48 + n mod 10].

(** [while(1){ cc = write(...); if(cc < BSIZE) break; total += cc; }] *)
Definition write_until_full (fd : Z) : U Z :=
  uloop (fun total =>
    let! cc := write fd (At buf) BSIZE in
    if cc <? BSIZE then stop total else next (total + cc)) 0.

Definition fsfull : U unit :=
  do! printf (line "fsfull test") [];
  let! nfiles := uloop (fun nfiles =>
    let name := fsfull_name nfiles in
    do! printf (line "writing %s") [Ustr (Some (Lit name))];
    let! fd := open (Lit name) (Z.lor O_CREATE O_RDWR) in
    if fd <? 0 then
      do! printf (line "open %s failed") [Ustr (Some (Lit name))];
      stop nfiles
    else
      let! total := write_until_full fd in
      do! printf (line "wrote %d bytes") [Unum total];
      do! close fd;
      if total =? 0 then stop nfiles else next (nfiles + 1)) 0 in
  do! uloop (fun nfiles =>
    if nfiles >=? 0 then do! sys (Unlink (fsfull_name nfiles)); next (nfiles - 1)
    else stop tt) nfiles;
  printf (line "fsfull test finished") [].

Definition argptest : U unit :=
  let! fd := open (lit "init") O_RDONLY in
  do! fail_if (fd <? 0) "%s: open failed" [str];
  let! b := sys (Sbrk 0) in
  do! read fd (b - 1) (-1);
  close fd.

(** Three children move the break to 0, into the first page and within a page. *)
Definition sbrkbugs : U unit :=
  let! pid := sys Fork in
  do! fail_if (pid <? 0) "fork failed" [];
  do! (if pid =? 0 then
         let! b := sys (Sbrk 0) in
         let sz := s32 b in
         do! sys (Sbrk (s32 (- sz)));
         uexit 0
       else uret tt);
  do! sys Wait;
  let! pid := sys Fork in
  do! fail_if (pid <? 0) "fork failed" [];
  do! (if pid =? 0 then
         let! b := sys (Sbrk 0) in
         let sz := s32 b in
         do! sys (Sbrk (s32 (- s32 (sz - 3500))));
         uexit 0
       else uret tt);
  do! sys Wait;
  let! pid := sys Fork in
  do! fail_if (pid <? 0) "fork failed" [];
  do! (if pid =? 0 then
         let! b := sys (Sbrk 0) in
         do! sys (Sbrk (s32 ((10 * 4096 + 2048) - b)));
         do! sys (Sbrk (-10));
         uexit 0
       else uret tt);
  do! sys Wait;
  uexit 0.

(** ** The slow tests *)

Definition bigdir_name (i : Z) : list Z := [120; 48 + i / 64; 48 + i mod 64].

Definition bigdir : U unit :=
  let N := 500 in
  do! unlink "bd";
  let! fd := open (lit "bd") O_CREATE in
  do! fail_if (fd <? 0) "%s: bigdir create failed" [str];
  do! close fd;
  do! ufor (seqZ 0 N) (fun i =>
    let! r := sys (Link (bytes_of "bd") (bigdir_name i)) in
    fail_if (negb (r =? 0)) "%s: bigdir link(bd, %s) failed" [str; Ustr (Some (Lit (bigdir_name i)))]);
  do! unlink "bd";
  ufor (seqZ 0 N) (fun i =>
    let! r := sys (Unlink (bigdir_name i)) in
    if negb (r =? 0) then do! printf (bytes_of "%s: bigdir unlink failed") [str]; uexit 1 else uret tt).

Definition manywrites_child (ci : Z) : U unit :=
  let howmany := 30 in
  let name := [98; 97 + ci] in
  do! sys (Unlink name);
  do! ufor (seqZ 0 howmany) (fun _ =>
    do! ufor (seqZ 0 (ci + 1)) (fun _ =>
      let! fd := open (Lit name) (Z.lor O_CREATE O_RDWR) in
      do! fail_if (fd <? 0) "%s: cannot create %s" [str; Ustr (Some (Lit name))];
      let sz := BUFSZ in
      let! cc := write fd (At buf) sz in
      do! fail_if (negb (cc =? sz)) "%s: write(%d) ret %d" [str; Unum sz; Unum cc];
      close fd);
    do! sys (Unlink name);
    uret tt);
  do! sys (Unlink name);
  uexit 0.

Definition manywrites : U unit :=
  let nchildren := 4 in
  do! ufor (seqZ 0 nchildren) (fun ci =>
    let! pid := sys Fork in
    do! fail_if (pid <? 0) "fork failed" [];
    if pid =? 0 then manywrites_child ci else uret tt);
  do! ufor (seqZ 0 nchildren) (fun _ =>
    let! (r, x) := sys Wait in
    let st := if r <? 0 then 0 else x in
    if negb (st =? 0) then uexit st else uret tt);
  uexit 0.

Definition execout : U unit :=
  do! ufor (seqZ 0 15) (fun avail =>
    let! pid := sys Fork in
    if pid <? 0 then do! printf (line "fork failed") []; uexit 1
    else if pid =? 0 then
      do! uloop (fun _ : unit =>
        let! a := sys (Sbrk 4096) in
        if a =? -1 then stop tt else do! store8 (a + 4096 - 1) 1; next tt) tt;
      do! ufor (seqZ 0 avail) (fun _ => do! sys (Sbrk (-4096)); uret tt);
      do! close 1;
      do! exec (lit "echo") [lit "echo"; lit "x"];
      uexit 0
    else do! sys Wait; uret tt);
  uexit 0.

Definition big_name (i : Z) : list Z := bytes_of "big" ++ [u8 (48 + i)].
Definition zz_name (i : Z) : list Z := bytes_of "zz" ++ [48 + i / 32; 48 + i mod 32].

(** [for(i = 0; i < MAXFILE; i++)] until a write fails: [done].  [stack] is the
    uninitialised buffer. *)
Definition fill_file (stack fd : Z) : U bool :=
  uloop (fun i =>
    if i <? MAXFILE then
      let! n := write fd (At stack) BSIZE in
      if negb (n =? BSIZE) then do! close fd; stop true else next (i + 1)
    else stop false) 0.

Definition diskfull (stack : Z) : U unit :=
  do! unlink "diskfulldir";
  let! fi := uloop (fun fi =>
    let name := big_name fi in
    do! sys (Unlink name);
    let! fd := open (Lit name) (Z.lor (Z.lor O_CREATE O_RDWR) O_TRUNC) in
    if fd <? 0 then
      do! printf (line "%s: could not create file %s") [str; Ustr (Some (Lit name))];
      stop fi
    else
      let! done := fill_file stack fd in
      do! close fd;
      if (done : bool) then stop (fi + 1) else next (fi + 1)) 0 in
  let nzz := 128 in
  do! uloop (fun i =>
    if i <? nzz then
      do! sys (Unlink (zz_name i));
      let! fd := open (Lit (zz_name i)) (Z.lor (Z.lor O_CREATE O_RDWR) O_TRUNC) in
      if fd <? 0 then stop tt else do! close fd; next (i + 1)
    else stop tt) 0;
  let! r := mkdir "diskfulldir" in
  do! (if r =? 0 then printf (line "%s: mkdir(diskfulldir) unexpectedly succeeded!") [] else uret tt);
  do! unlink "diskfulldir";
  do! ufor (seqZ 0 nzz) (fun i => do! sys (Unlink (zz_name i)); uret tt);
  ufor (seqZ 0 fi) (fun i => do! sys (Unlink (big_name i)); uret tt).

Definition outofinodes : U unit :=
  let nzz := 32 * 32 in
  do! uloop (fun i =>
    if i <? nzz then
      do! sys (Unlink (zz_name i));
      let! fd := open (Lit (zz_name i)) (Z.lor (Z.lor O_CREATE O_RDWR) O_TRUNC) in
      if fd <? 0 then stop tt else do! close fd; next (i + 1)
    else stop tt) 0;
  ufor (seqZ 0 nzz) (fun i => do! sys (Unlink (zz_name i)); uret tt).
End tests.

(** ** Driving the tests *)

Definition run (f : cptr -> U unit) (s : cptr) : U bool :=
  do! printf (bytes_of "test %s: ") [Ustr (Some s)];
  let! pid := sys Fork in
  do! fail_if (pid <? 0) "runtest: fork error" [];
  if pid =? 0 then do! f s; uexit 0
  else
    let! (_, xstatus) := sys Wait in
    do! (if negb (xstatus =? 0) then printf (line "FAILED") [] else printf (line "OK") []);
    uret (xstatus =? 0).

(** A table of tests; a test is selected by its name. *)
Definition tests : Type := list (list Z * (cptr -> U unit)).

(** The result is the source's return value. *)
Fixpoint runtests (l : tests) (justone : option (list Z)) : U Z :=
  match l with
  | [] => uret 0
  | (s, f) :: l =>
    if match justone with None => true | Some one => bool_decide (s = one) end then
      let! ok := run f (Lit s) in
      if negb ok then do! printf (line "SOME TESTS FAILED") []; uret 1
      else runtests l justone
    else runtests l justone
  end.

(** The child of [countfree] takes all memory and writes a byte for each page. *)
Definition countfree_child (fd1 : Z) : U unit :=
  do! uloop (fun _ : unit =>
    let! a := sys (Sbrk 4096) in
    if a =? -1 then stop tt
    else
      do! store8 (a + 4096 - 1) 1;
      let! n := write fd1 (lit "x") 1 in
      do! fail_if (negb (n =? 1)) "write() failed in countfree()" [];
      next tt) tt;
  uexit 0.

Definition countfree : U Z :=
  let! (r, (fd0, fd1)) := sys Pipe in
  do! fail_if (r <? 0) "pipe() failed in countfree()" [];
  let! pid := sys Fork in
  do! fail_if (pid <? 0) "fork failed in countfree()" [];
  do! (if pid =? 0 then do! close fd0; countfree_child fd1 else uret tt);
  do! close fd1;
  let! n := uloop (fun n =>
    let! (cc, _) := sys (Read fd0 1) in
    do! fail_if (cc <? 0) "read() failed in countfree()" [];
    if cc =? 0 then stop n else next (n + 1)) 0 in
  do! close fd0;
  do! sys Wait;
  uret n.

(** One round of [do ... while(continuous)]; [inr] is the value returned. *)
Definition drive_round (quicktests slowtests : tests) (quick continuous : Z) (justone : option (list Z)) : U (unit + Z) :=
  do! printf (line "usertests starting") [];
  let! free0 := countfree in
  let! r := runtests quicktests justone in
  if negb (r =? 0) && negb (continuous =? 2) then stop 1
  else
    let! r :=
      (if quick =? 0 then
         do! (match justone with None => printf (line "usertests slow tests starting") [] | Some _ => uret tt end);
         runtests slowtests justone
       else uret 0) in
    if negb (r =? 0) && negb (continuous =? 2) then stop 1
    else
      let! free1 := countfree in
      let! lost :=
        (if free1 <? free0 then
           do! printf (line "FAILED -- lost some free pages %d (out of %d)") [Unum free1; Unum free0];
           uret true
         else uret false) in
      if (lost : bool) && negb (continuous =? 2) then stop 1
      else if negb (continuous =? 0) then next tt else stop 0.

Definition drivetests (quicktests slowtests : tests) (quick continuous : Z) (justone : option (list Z)) : U Z :=
  uloop (fun _ : unit => drive_round quicktests slowtests quick continuous justone) tt.

(** The arguments after the program's name, as strings. *)
Definition main (quicktests slowtests : tests) (args : list (list Z)) : U unit :=
  let go quick continuous justone :=
    let! r := drivetests quicktests slowtests quick continuous justone in
    do! (if negb (r =? 0) then uexit 1 else uret tt);
    do! printf (line "ALL TESTS PASSED") [];
    uexit 0 in
  match args with
  | [] => go 0 0 None
  | [a] =>
    if bool_decide (a = bytes_of "-q") then go 1 0 None
    else if bool_decide (a = bytes_of "-c") then go 0 1 None
    else if bool_decide (a = bytes_of "-C") then go 0 2 None
    else if negb (hd 0 a =? 45) then go 0 0 (Some a)
    else do! printf (line "Usage: usertests [-c] [-C] [-q] [testname]") []; uexit 1
  | _ => do! printf (line "Usage: usertests [-c] [-C] [-q] [testname]") []; uexit 1
  end.

(** ** Two things the tests do not notice *)

Section unnoticed.
Context {W : Type} (h : os W) `{F : !FileOs h}.

(** A message without conversions, and one that starts with the test's name. *)
Lemma plain_prints fd fmt ap m w : forallb (fun c => negb (c =? 37)) fmt = true -> prints h (vprintf fd fmt false ap) m w fd (u8 <$> fmt) tt.
Proof.
  revert w. induction fmt as [|c fmt IH]; intros w Hf; simpl; [apply prints_ret|].
  simpl in Hf. apply andb_prop in Hf as [Hc Hf]. apply negb_true_iff in Hc. rewrite Hc.
  apply (prints_bind h _ _ _ _ _ [u8 c] (u8 <$> fmt) tt); [apply putc_prints|]. intros w'. by apply IH.
Qed.

Lemma named_prints l fmt m w : forallb (fun c => negb (c =? 37)) fmt = true ->
  prints h (printf (37 :: 115 :: fmt) [Ustr (Some (Lit l))]) m w 1 ((u8 <$> l) ++ (u8 <$> fmt)) tt.
Proof.
  intros Hf. unfold printf. cbn [vprintf negb]. change (37 =? 37) with true.
  eapply prints_bind; [|intros w'; by apply plain_prints].
  unfold conversion. change (115 =? 100) with false. change (115 =? 108) with false. change (115 =? 120) with false.
  change (115 =? 112) with false. change (115 =? 115) with true. cbv iota. rewrite <- (app_nil_r (u8 <$> l)).
  eapply prints_bind; [apply puts_prints|]. intros w'. apply prints_ret.
Qed.

(** The parent of [pipe1] that receives a wrong first byte says so and then
    returns, so that [run] takes the test for passed. *)
Theorem pipe1_wrong_byte buf l fd0 b rest m w :
  pending w fd0 = b :: rest -> u8 b <> 0 ->
  exists m' w', runs h (pipe1_reader buf (Lit l) fd0) m w (Done tt m') w' /\
    written w' 1 = written w 1 ++ (u8 <$> l) ++ line ": pipe1 oops 2".
Proof.
  intros Hp Hb. destruct (read_law w fd0 1) as (k & w1 & E & H1 & H2 & H3 & H4 & H5); [lia|]. rewrite Hp in *.
  assert (k = 1%nat) as ->.
  { destruct k as [|[|k]]; [by specialize (H3 eq_refl)|done|lia]. }
  set (m' := st_bytes m buf [b]).
  destruct (named_prints l (line ": pipe1 oops 2") m' w1) as (w2 & R2 & E2); [reflexivity|].
  exists m', w2. split; [|destruct E2 as [E2 _]; by rewrite E2, H5].
  unfold pipe1_reader. eapply (runs_bind h _ _ m w None m' w2); [|apply runs_ret].
  apply runs_loop_stop. unfold read. eapply runs_bind.
  { ustep with (runs_sys h _ _ _ _ _ E). ustep. ustep. apply runs_ret. }
  cbv beta iota. change (Z.of_nat 1 >? 0) with true. cbv iota. unfold check_seq.
  eapply runs_bind; [ustep; apply runs_ret|]. change (take (Z.to_nat 1) (take 1 (b :: rest))) with [b]. fold m'.
  assert (Ec : forallb (fun i => ld8 m' (buf + i) =? (0 + i) mod 256) (seqZ 0 (Z.of_nat 1)) = false).
  { change (seqZ 0 (Z.of_nat 1)) with [0]. cbn [forallb]. rewrite Z.add_0_r. change m' with (st8 m buf b). rewrite ld8_st8_eq.
    change ((0 + 0) mod 256) with 0. rewrite (proj2 (Z.eqb_neq _ _) Hb). done. }
  rewrite Ec. cbv iota. change (line "%s: pipe1 oops 2") with (37 :: 115 :: line ": pipe1 oops 2"). ustep with R2. apply runs_stop.
Qed.

(** [writebig] accepts a file that ends after any number of blocks but
    [MAXFILE - 1]. *)
Theorem writebig_short buf s fd n m w :
  pending w fd = [] -> n <> MAXFILE - 1 ->
  exists m' w', runs h (uloop (writebig_read buf s fd) n) m w (Done tt m') w' /\ forall g, written w' g = written w g.
Proof.
  intros Hp Hn. destruct (read_law w fd BSIZE) as (k & w1 & E & H1 & H2 & H3 & H4 & H5); [done|]. rewrite Hp in *.
  assert (k = 0%nat) as -> by (simpl in H1; lia). simpl in E.
  eexists _, w1. split; [|exact H5]. apply runs_loop_stop. unfold writebig_read, read.
  eapply runs_bind; [ustep with (runs_sys h _ _ _ _ _ E); ustep; ustep; apply runs_ret|].
  change (0 =? 0) with true. cbv iota. rewrite (proj2 (Z.eqb_neq _ _) Hn). ustep. apply runs_stop.
Qed.
End unnoticed.
