(* ===== verification/Sh.v ===== *)
(** * user/sh.c: the shell

    A parsed command is a tree; its words are pairs of addresses into the
    line, the beginning and the end of the word, as in the source.  The
    parser only reads memory until [nulterminate] cuts the words out of the
    line, so it is a function of memory that answers with a command and the
    place in the line where it stopped, or with the message of a [panic].

    The constructors of the source allocate a structure and fill it in; here
    they are constructors of the tree.  [parseexec] fills in the arguments of
    its structure while redirections are already wrapped around it; the model
    collects both and puts the command together at the end.  The source does
    not check what [malloc] returns; the model has no [malloc].

    The parser calls itself only after it has taken a character of the line
    or gone one rule down in the grammar, so fuel of a multiple of the length
    of the line is enough, which [parse_total] proves. *)

From S2P Require Import Prelude Param Mem CString User Ulib.
From ITree Require Import ITree.
Open Scope Z_scope.
Open Scope user_scope.

Definition MAXARGS : nat := 10.

Record word : Type := mkword { wbegin : Z; wend : Z }.

Inductive cmd : Type :=
| EXEC (argv : list word)
| REDIR (c : cmd) (file : word) (mode fd : Z)
| PIPE (left right : cmd)
| LIST (left right : cmd)
| BACK (c : cmd).

(** ** Tokens *)

Definition whitespace : list Z := [32; 9; 13; 10; 11].
Definition symbols : list Z := bytes_of "<|>&;()".

(** [while(s < es && p( *s)) s++] *)
Fixpoint span (m : memory) (p : Z -> bool) (n : nat) (s : Z) : Z :=
  match n with
  | O => s
  | S n => if p (ld8 m s) then span m p n (s + 1) else s
  end.

Definition skip (m : memory) (p : Z -> bool) (s es : Z) : Z := span m p (Z.to_nat (es - s)) s.

Definition is_blank (c : Z) : bool := strchr_lit whitespace c.
Definition is_word (c : Z) : bool := negb (strchr_lit whitespace c) && negb (strchr_lit symbols c).

(** The kind of token and the place behind it; 97 stands for a word and 43
    for [>>]. *)
Definition scan (m : memory) (s es : Z) : Z * Z :=
  let c := ld8 m s in
  if c =? 0 then (0, s)
  else if strchr_lit (bytes_of "|();&<") c then (c, s + 1)
  else if c =? 62 (* > *) then
    if ld8 m (s + 1) =? 62 then (43, s + 2) else (62, s + 1)
  else (97, skip m is_word s es).

(** The token, its beginning and end, and the beginning of the next one. *)
Definition gettoken (m : memory) (s es : Z) : Z * word * Z :=
  let q := skip m is_blank s es in
  let (ret, eq) := scan m q es in
  (ret, mkword q eq, skip m is_blank eq es).

Definition peek (m : memory) (s es : Z) (toks : list Z) : Z * bool :=
  let s := skip m is_blank s es in
  (s, negb (ld8 m s =? 0) && strchr_lit toks (ld8 m s)).

(** ** The parser *)

Inductive pres (A : Type) : Type := POk (a : A) (s : Z) | PPanic (msg : string) | PFuel.
Arguments POk {A} a s.
Arguments PPanic {A} msg.
Arguments PFuel {A}.

Definition pbind {A B} (r : pres A) (f : A -> Z -> pres B) : pres B :=
  match r with POk a s => f a s | PPanic msg => PPanic msg | PFuel => PFuel end.

Record redir : Type := mkredir { r_file : word; r_mode : Z; r_fd : Z }.

(** [redircmd] around [redircmd] around a command. *)
Definition redircmds (c : cmd) (rs : list redir) : cmd :=
  foldl (fun c r => REDIR c (r_file r) (r_mode r) (r_fd r)) c rs.

Definition redir_of (tok : Z) (f : word) : redir :=
  if tok =? 60 (* < *) then mkredir f O_RDONLY 0
  else if tok =? 62 (* > *) then mkredir f (Z.lor (Z.lor O_WRONLY O_CREATE) O_TRUNC) 1
  else mkredir f (Z.lor O_WRONLY O_CREATE) 1.

Section parser.
Context (m : memory) (es : Z).

Fixpoint parseredirs (n : nat) (s : Z) : pres (list redir) :=
  match n with
  | O => PFuel
  | S n =>
    let (s, b) := peek m s es (bytes_of "<>") in
    if b then
      let '(tok, _, s) := gettoken m s es in
      let '(t, w, s) := gettoken m s es in
      if negb (t =? 97) then PPanic "missing file for redirection"
      else pbind (parseredirs n s) (fun rs s => POk (redir_of tok w :: rs) s)
    else POk [] s
  end.

(** The loop of [parseexec]: the arguments taken and the redirections among
    them. *)
Fixpoint parseargs (n : nat) (argc : nat) (s : Z) : pres (list word * list redir) :=
  match n with
  | O => PFuel
  | S n =>
    let (s, b) := peek m s es (bytes_of "|)&;") in
    if b then POk ([], []) s
    else
      let '(tok, w, s) := gettoken m s es in
      if tok =? 0 then POk ([], []) s
      else if negb (tok =? 97) then PPanic "syntax"
      else if (MAXARGS <=? S argc)%nat then PPanic "too many args"
      else
        pbind (parseredirs n s) (fun rs1 s =>
        pbind (parseargs n (S argc) s) (fun '(ws, rs2) s =>
        POk (w :: ws, rs1 ++ rs2) s))
  end.

(** [while(peek(ps, es, "&"))] *)
Fixpoint parsebacks (n : nat) (c : cmd) (s : Z) : pres cmd :=
  match n with
  | O => PFuel
  | S n =>
    let (s, b) := peek m s es (bytes_of "&") in
    if b then let '(_, _, s) := gettoken m s es in parsebacks n (BACK c) s
    else POk c s
  end.

Definition parsesimple (n : nat) (s : Z) : pres cmd :=
  pbind (parseredirs n s) (fun rs1 s =>
  pbind (parseargs n 0 s) (fun '(ws, rs2) s =>
  POk (redircmds (EXEC ws) (rs1 ++ rs2)) s)).

Fixpoint parseline (n : nat) (s : Z) : pres cmd :=
  match n with
  | O => PFuel
  | S n =>
    pbind (parsepipe n s) (fun c s =>
    pbind (parsebacks n c s) (fun c s =>
    let (s, b) := peek m s es (bytes_of ";") in
    if b then
      let '(_, _, s) := gettoken m s es in
      pbind (parseline n s) (fun r s => POk (LIST c r) s)
    else POk c s))
  end
with parsepipe (n : nat) (s : Z) : pres cmd :=
  match n with
  | O => PFuel
  | S n =>
    pbind (parseexec n s) (fun c s =>
    let (s, b) := peek m s es (bytes_of "|") in
    if b then
      let '(_, _, s) := gettoken m s es in
      pbind (parsepipe n s) (fun r s => POk (PIPE c r) s)
    else POk c s)
  end
with parseexec (n : nat) (s : Z) : pres cmd :=
  match n with
  | O => PFuel
  | S n =>
    let (s, b) := peek m s es (bytes_of "(") in
    if b then parseblock n s else parsesimple n s
  end
with parseblock (n : nat) (s : Z) : pres cmd :=
  match n with
  | O => PFuel
  | S n =>
    let (s, b) := peek m s es (bytes_of "(") in
    if negb b then PPanic "parseblock"
    else
      let '(_, _, s) := gettoken m s es in
      pbind (parseline n s) (fun c s =>
      let (s, b) := peek m s es (bytes_of ")") in
      if negb b then PPanic "syntax - missing )"
      else
        let '(_, _, s) := gettoken m s es in
        pbind (parseredirs n s) (fun rs s => POk (redircmds c rs) s))
  end.

End parser.

(** Fuel for a line of a given length. *)
Definition parse_fuel (len : Z) : nat := (4 * Z.to_nat len + 8)%nat.

Fixpoint nulterminate (c : cmd) (m : memory) : memory :=
  match c with
  | EXEC argv => foldl (fun m w => st8 m (wend w) 0) m argv
  | REDIR c file _ _ => st8 (nulterminate c m) (wend file) 0
  | PIPE l r | LIST l r => nulterminate r (nulterminate l m)
  | BACK c => nulterminate c m
  end.

Definition panic {A} (s : list Z) : U A :=
  do! fprintf 2 (bytes_of "%s" ++ [10]) [Ustr (Some (Lit s))];
  uexit 1.

Definition parsecmd (s : Z) : U cmd :=
  let! len := strlen s in
  let es := s + len in
  let! m := getm in
  match parseline m es (parse_fuel len) s with
  | PFuel => fun _ => ITree.spin
  | PPanic msg => panic (bytes_of msg)
  | POk c s =>
    let (s, _) := peek m s es [] in
    do! (if negb (s =? es) then
           do! fprintf 2 (bytes_of "leftovers: %s" ++ [10]) [Ustr (Some (At s))];
           panic (bytes_of "syntax")
         else uret tt);
    do! putm (nulterminate c m);
    uret c
  end.

(** ** Running commands *)

Definition fork1 : U Z :=
  let! pid := sys Fork in
  if pid =? -1 then panic (bytes_of "fork") else uret pid.

Definition word_ptr (w : word) : cptr := At (wbegin w).

Definition close (fd : Z) : U unit := do! sys (Close fd); uret tt.
Definition dup (fd : Z) : U unit := do! sys (Dup fd); uret tt.
Definition wait0 : U unit := do! sys Wait; uret tt.

(** Never returns: every branch ends in [exit]. *)
Fixpoint runcmd (c : cmd) : U unit :=
  match c with
  | EXEC argv =>
    match argv with
    | [] => uexit 1
    | w :: _ =>
      do! exec (word_ptr w) (word_ptr <$> argv);
      do! fprintf 2 (bytes_of "exec %s failed" ++ [10]) [Ustr (Some (word_ptr w))];
      uexit 0
    end
  | REDIR c file mode fd =>
    do! close fd;
    let! r := open (word_ptr file) mode in
    if r <? 0 then
      do! fprintf 2 (bytes_of "open %s failed" ++ [10]) [Ustr (Some (word_ptr file))];
      uexit 1
    else do! runcmd c; uexit 0
  | LIST l r =>
    let! pid := fork1 in
    do! (if pid =? 0 then runcmd l else uret tt);
    do! wait0;
    do! runcmd r;
    uexit 0
  | PIPE l r =>
    let! (res, p) := sys Pipe in
    do! (if res <? 0 then panic (bytes_of "pipe") else uret tt);
    let! pid := fork1 in
    do! (if pid =? 0 then
           do! close 1; do! dup p.2; do! close p.1; do! close p.2;
           runcmd l
         else uret tt);
    let! pid := fork1 in
    do! (if pid =? 0 then
           do! close 0; do! dup p.1; do! close p.1; do! close p.2;
           runcmd r
         else uret tt);
    do! close p.1;
    do! close p.2;
    do! wait0;
    do! wait0;
    uexit 0
  | BACK c =>
    let! pid := fork1 in
    do! (if pid =? 0 then runcmd c else uret tt);
    uexit 0
  end.

Definition getcmd (buf nbuf : Z) : U Z :=
  do! write 2 (Lit (bytes_of "$ ")) 2;
  let! m := getm in
  do! putm (memset m buf 0 nbuf);
  do! gets buf nbuf;
  let! c := load8 buf in
  if c =? 0 then uret (-1) else uret 0.

(** [chdir(buf+3)], in the shell itself. *)
Definition builtin_cd (buf : Z) : U unit :=
  let! n := strlen buf in
  do! store8 (buf + n - 1) 0;
  let! p := spath (At (buf + 3)) in
  let! r := sys (Chdir p) in
  if r <? 0 then fprintf 2 (bytes_of "cannot cd %s" ++ [10]) [Ustr (Some (At (buf + 3)))]
  else uret tt.

Definition main (buf : Z) : U unit :=
  do! uloop (fun _ : unit =>
    let! fd := open (Lit (bytes_of "console")) O_RDWR in
    if fd <? 0 then stop tt
    else if fd >=? 3 then do! close fd; stop tt
    else next tt) tt;
  do! uloop (fun _ : unit =>
    let! r := getcmd buf 100 in
    if r <? 0 then stop tt
    else
      let! c0 := load8 buf in
      let! c1 := load8 (buf + 1) in
      let! c2 := load8 (buf + 2) in
      if (c0 =? 99) && (c1 =? 100) && (c2 =? 32) then
        do! builtin_cd buf;
        next tt
      else
        let! pid := fork1 in
        do! (if pid =? 0 then let! c := parsecmd buf in runcmd c else uret tt);
        do! wait0;
        next tt) tt;
  uexit 0.

(** ** The parser ends

    On a line that ends at [es], every rule answers with a place between the
    one it started from and [es], or panics. *)

Section termination.
Context (m : memory) (es : Z).
Hypothesis Hend : ld8 m es = 0.

Lemma span_bound p n s : s <= span m p n s <= s + Z.of_nat n.
Proof using.
  clear Hend. revert s. induction n as [|n IH]; intros s; cbn [span]; [lia|].
  destruct (p (ld8 m s)); [|lia]. specialize (IH (s + 1)). lia.
Qed.

Lemma skip_bound p s : s <= es -> s <= skip m p s es <= es.
Proof using. clear Hend. intros H. unfold skip. pose proof (span_bound p (Z.to_nat (es - s)) s). lia. Qed.

(** [skip] stops at the end of the line or at a character it does not skip. *)
Lemma span_stop p n s : span m p n s = s + Z.of_nat n \/ p (ld8 m (span m p n s)) = false.
Proof using.
  clear Hend. revert s. induction n as [|n IH]; intros s; cbn [span]; [lia|].
  destruct (p (ld8 m s)) eqn:E; [|auto]. destruct (IH (s + 1)) as [H|H]; [left; lia|auto].
Qed.

Lemma skip_stop p s : s <= es -> skip m p s es = es \/ p (ld8 m (skip m p s es)) = false.
Proof using.
  clear Hend. intros H. unfold skip. destruct (span_stop p (Z.to_nat (es - s)) s) as [->|]; [left; lia|auto].
Qed.

Lemma skip_take p s : s < es -> p (ld8 m s) = true -> s + 1 <= skip m p s es <= es.
Proof using.
  clear Hend. intros H E. unfold skip. destruct (Z.to_nat (es - s)) as [|n] eqn:En; [lia|]. cbn [span].
  rewrite E. pose proof (span_bound p n (s + 1)). lia.
Qed.

(** Behind the blanks there is a token, or the end of the line. *)
Lemma scan_bound q ret eq :
  q <= es -> is_blank (ld8 m q) = false -> scan m q es = (ret, eq) ->
  (ld8 m q = 0 /\ ret = 0 /\ eq = q) \/ (ld8 m q <> 0 /\ ret <> 0 /\ q + 1 <= eq <= es).
Proof using Hend.
  intros Hq Hb. unfold scan. destruct (Z.eqb_spec (ld8 m q) 0) as [E|E].
  { intros [= <- <-]. auto. }
  assert (Hlt : q < es) by (destruct (decide (q = es)) as [->|]; [done|lia]).
  destruct (strchr_lit (bytes_of "|();&<") (ld8 m q)) eqn:Es.
  { intros [= <- <-]. right. split; [done|]. split; [done|lia]. }
  destruct (Z.eqb_spec (ld8 m q) 62) as [E62|E62].
  - destruct (Z.eqb_spec (ld8 m (q + 1)) 62) as [E1|E1]; intros [= <- <-]; right; split; try done; split; try done; try lia.
    split; [lia|]. destruct (decide (q + 1 = es)) as [Eq|]; [|lia]. rewrite Eq, Hend in E1. done.
  - intros [= <- <-]. right. split; [done|]. split; [done|]. apply skip_take; [done|].
    unfold is_word. unfold is_blank in Hb. rewrite Hb. cbn [negb andb]. apply negb_true_iff.
    apply not_true_iff_false. intros Hs. apply existsb_exists in Hs as (x & Hx & Ex). apply Z.eqb_eq in Ex. subst x.
    apply not_true_iff_false in Es. apply Es. apply existsb_exists. exists (ld8 m q). split; [|apply Z.eqb_refl].
    unfold symbols in Hx. simpl in Hx |- *. lia.
Qed.

Lemma gettoken_bound s tok w s' :
  s <= es -> gettoken m s es = (tok, w, s') ->
  s <= wbegin w <= wend w /\ wend w <= s' <= es /\ (tok <> 0 -> s < s' /\ wbegin w < wend w).
Proof using Hend.
  intros Hs. unfold gettoken. destruct (scan m (skip m is_blank s es) es) as [ret eq] eqn:E.
  pose proof (skip_bound is_blank s Hs) as Hb. intros [= <- <- <-]. cbn [wbegin wend].
  assert (Hbl : is_blank (ld8 m (skip m is_blank s es)) = false).
  { destruct (skip_stop is_blank s Hs) as [->|]; [|done]. by rewrite Hend. }
  destruct (scan_bound _ _ _ (proj2 Hb) Hbl E) as [(_ & -> & ->)|(_ & _ & Heq)].
  - pose proof (skip_bound is_blank (skip m is_blank s es)). lia.
  - pose proof (skip_bound is_blank eq). lia.
Qed.

Lemma peek_bound s toks s' b : s <= es -> peek m s es toks = (s', b) -> s <= s' <= es.
Proof using. clear Hend. intros Hs [= <- <-]. by apply skip_bound. Qed.

(** A token that was seen is taken. *)
Lemma peek_token s toks s1 tok w s2 :
  s <= es -> peek m s es toks = (s1, true) -> gettoken m s1 es = (tok, w, s2) -> s < s2 <= es.
Proof using Hend.
  intros Hs Hp Hg. pose proof (peek_bound _ _ _ _ Hs Hp) as Hb. unfold peek in Hp. injection Hp as E1 E2.
  apply andb_true_iff in E2 as [E2 _]. rewrite E1 in E2. apply negb_true_iff, Z.eqb_neq in E2.
  unfold gettoken in Hg.
  assert (Hbl : is_blank (ld8 m s1) = false).
  { rewrite <- E1. destruct (skip_stop is_blank s Hs) as [E|]; [|done]. rewrite <- E1, E in E2. done. }
  assert (Hsk : skip m is_blank s1 es = s1).
  { unfold skip. destruct (Z.to_nat (es - s1)); [done|]. cbn [span]. by rewrite Hbl. }
  rewrite Hsk in Hg. destruct (scan m s1 es) as [ret eq] eqn:E. injection Hg as <- <- <-.
  destruct (scan_bound _ _ _ (proj2 Hb) Hbl E) as [(? & _)|(_ & _ & Heq)]; [done|].
  pose proof (skip_bound is_blank eq). lia.
Qed.

(** A word of the line that begins at [lo]. *)
Definition word_ok (lo : Z) (w : word) : Prop := lo <= wbegin w /\ wbegin w < wend w /\ wend w <= es.

Fixpoint cmd_ok (lo : Z) (c : cmd) : Prop :=
  match c with
  | EXEC argv => (length argv < MAXARGS)%nat /\ Forall (word_ok lo) argv
  | REDIR c f _ _ => cmd_ok lo c /\ word_ok lo f
  | PIPE l r | LIST l r => cmd_ok lo l /\ cmd_ok lo r
  | BACK c => cmd_ok lo c
  end.

Definition redirs_ok (lo : Z) (rs : list redir) : Prop := Forall (fun r => word_ok lo (r_file r)) rs.

Lemma redircmds_ok lo c rs : cmd_ok lo c -> redirs_ok lo rs -> cmd_ok lo (redircmds c rs).
Proof using.
  clear Hend. intros Hc Hrs. revert c Hc. induction Hrs as [|r rs Hr Hrs IH]; intros c Hc; [done|].
  apply (IH (REDIR c (r_file r) (r_mode r) (r_fd r))). by split.
Qed.

(** The rule ends further on in the line with a result in [P], or panics. *)
Definition advances {A} (P : A -> Prop) (s : Z) (r : pres A) : Prop :=
  match r with POk a s' => s <= s' <= es /\ P a | PPanic _ => True | PFuel => False end.

Lemma advances_bind {A B} (P : A -> Prop) (Q : B -> Prop) s s0 (r : pres A) (f : A -> Z -> pres B) :
  advances P s0 r -> s <= s0 -> (forall a s', s0 <= s' <= es -> P a -> advances Q s (f a s')) ->
  advances Q s (pbind r f).
Proof using. clear Hend. destruct r; simpl; [|done|done]. intros [? ?] ? Hf. by apply Hf. Qed.

Lemma advances_le {A} (P : A -> Prop) s s0 (r : pres A) : advances P s0 r -> s <= s0 -> advances P s r.
Proof using. clear Hend. destruct r; simpl; [|done|done]. intros [? ?] ?. split; [lia|done]. Qed.

Context (lo : Z).

Ltac peeked H :=
  match goal with |- context [peek m ?s es ?toks] => destruct (peek m s es toks) as [s' b] eqn:H end.
Ltac token H :=
  match goal with |- context [gettoken m ?s es] => destruct (gettoken m s es) as [[tok w] s''] eqn:H end.

Lemma parseredirs_total n s :
  lo <= s <= es -> (Z.to_nat (es - s) < n)%nat -> advances (redirs_ok lo) s (parseredirs m es n s).
Proof using Hend.
  revert s. induction n as [|n IH]; intros s Hs Hn; [lia|]. cbn [parseredirs]. peeked Hp.
  pose proof (peek_bound _ _ _ _ (proj2 Hs) Hp). destruct b; [|simpl; split; [lia|constructor]].
  destruct (gettoken m s' es) as [[tok w] s1] eqn:G1. pose proof (peek_token _ _ _ _ _ _ (proj2 Hs) Hp G1).
  destruct (gettoken m s1 es) as [[t w2] s2] eqn:G2. pose proof (gettoken_bound s1 _ _ _ ltac:(lia) G2) as (B1 & B2 & B3).
  destruct (Z.eqb_spec t 97) as [->|]; [|done]. specialize (B3 ltac:(lia)). cbn [negb].
  apply (advances_bind (redirs_ok lo) _ _ s2); [apply IH; lia|lia|]. intros rs s3 H3 Hrs. simpl. split; [lia|].
  constructor; [|done]. unfold redir_of, word_ok. repeat case_match; cbn [r_file]; lia.
Qed.

Lemma parseargs_total n argc s :
  lo <= s <= es -> (Z.to_nat (es - s) < n)%nat -> (argc < MAXARGS)%nat ->
  advances (fun r => (length r.1 + argc < MAXARGS)%nat /\ Forall (word_ok lo) r.1 /\ redirs_ok lo r.2) s
    (parseargs m es n argc s).
Proof using Hend.
  revert argc s. induction n as [|n IH]; intros argc s Hs Hn Hargc; [lia|]. cbn [parseargs]. peeked Hp.
  pose proof (peek_bound _ _ _ _ (proj2 Hs) Hp) as Hb.
  destruct b; [simpl; split; [lia|]; split; [lia|]; split; constructor|].
  destruct (gettoken m s' es) as [[tok w] s1] eqn:G1. pose proof (gettoken_bound _ _ _ _ (proj2 Hb) G1) as (B1 & B2 & B3).
  destruct (Z.eqb_spec tok 0) as [|Ht]; [simpl; split; [lia|]; split; [lia|]; split; constructor|]. specialize (B3 Ht).
  destruct (negb (tok =? 97)); [done|]. destruct (Nat.leb_spec MAXARGS (S argc)); [done|].
  apply (advances_bind (redirs_ok lo) _ _ s1); [apply parseredirs_total; lia|lia|]. intros rs1 s2 H2 Hr1.
  eapply (advances_bind _ _ _ s2); [apply IH; lia|lia|]. intros [ws rs2] s3 H3 (A1 & A2 & A3). cbn [fst snd] in *.
  simpl. split; [lia|]. split; [lia|]. split; [constructor; [unfold word_ok; lia|done]|by apply Forall_app].
Qed.

Lemma parsebacks_total n c s :
  lo <= s <= es -> (Z.to_nat (es - s) < n)%nat -> cmd_ok lo c -> advances (cmd_ok lo) s (parsebacks m es n c s).
Proof using Hend.
  revert c s. induction n as [|n IH]; intros c s Hs Hn Hc; [lia|]. cbn [parsebacks]. peeked Hp.
  pose proof (peek_bound _ _ _ _ (proj2 Hs) Hp). destruct b; [|simpl; split; [lia|done]].
  destruct (gettoken m s' es) as [[tok w] s1] eqn:G1. pose proof (peek_token _ _ _ _ _ _ (proj2 Hs) Hp G1).
  apply (advances_le _ _ s1); [apply IH; [lia|lia|done]|lia].
Qed.

Lemma parsesimple_total n s :
  lo <= s <= es -> (Z.to_nat (es - s) < n)%nat -> advances (cmd_ok lo) s (parsesimple m es n s).
Proof using Hend.
  intros Hs Hn. unfold parsesimple. apply (advances_bind (redirs_ok lo) _ _ s); [by apply parseredirs_total|lia|].
  intros rs1 s1 H1 Hr1. eapply (advances_bind _ _ _ s1); [apply (parseargs_total n 0); unfold MAXARGS; lia|lia|].
  intros [ws rs2] s2 H2 (A1 & A2 & A3). cbn [fst snd] in *. simpl. split; [lia|].
  apply redircmds_ok; [|by apply Forall_app]. split; [lia|done].
Qed.

(** The four rules together: each has fuel left for the ones below it. *)
Lemma parse_rules_total n :
  (forall s, lo <= s <= es -> (4 * Z.to_nat (es - s) + 4 <= n)%nat -> advances (cmd_ok lo) s (parseline m es n s)) /\
  (forall s, lo <= s <= es -> (4 * Z.to_nat (es - s) + 3 <= n)%nat -> advances (cmd_ok lo) s (parsepipe m es n s)) /\
  (forall s, lo <= s <= es -> (4 * Z.to_nat (es - s) + 2 <= n)%nat -> advances (cmd_ok lo) s (parseexec m es n s)) /\
  (forall s, lo <= s <= es -> (4 * Z.to_nat (es - s) + 1 <= n)%nat -> advances (cmd_ok lo) s (parseblock m es n s)).
Proof using Hend.
  induction n as [|n (IHl & IHp & IHe & IHb)]; [repeat split; intros; lia|].
  split; [|split; [|split]]; intros s Hs Hn.
  - cbn [parseline]. apply (advances_bind (cmd_ok lo) _ _ s); [apply IHp; lia|lia|]. intros c s1 H1 Hc.
    apply (advances_bind (cmd_ok lo) _ _ s1); [apply parsebacks_total; [lia|lia|done]|lia|]. intros c2 s2 H2 Hc2.
    peeked Hp. pose proof (peek_bound _ _ _ _ (proj2 H2) Hp). destruct b; [|simpl; split; [lia|done]].
    token G. pose proof (peek_token _ _ _ _ _ _ (proj2 H2) Hp G).
    apply (advances_bind (cmd_ok lo) _ _ s''); [apply IHl; lia|lia|]. intros. simpl. split; [lia|done].
  - cbn [parsepipe]. apply (advances_bind (cmd_ok lo) _ _ s); [apply IHe; lia|lia|]. intros c s1 H1 Hc.
    peeked Hp. pose proof (peek_bound _ _ _ _ (proj2 H1) Hp). destruct b; [|simpl; split; [lia|done]].
    token G. pose proof (peek_token _ _ _ _ _ _ (proj2 H1) Hp G).
    apply (advances_bind (cmd_ok lo) _ _ s''); [apply IHp; lia|lia|]. intros. simpl. split; [lia|done].
  - cbn [parseexec]. peeked Hp. pose proof (peek_bound _ _ _ _ (proj2 Hs) Hp). destruct b.
    + apply (advances_le _ _ s'); [apply IHb; lia|lia].
    + apply (advances_le _ _ s'); [apply parsesimple_total; lia|lia].
  - cbn [parseblock]. peeked Hp. pose proof (peek_bound _ _ _ _ (proj2 Hs) Hp). destruct b; [|done]. cbn [negb].
    token G. pose proof (peek_token _ _ _ _ _ _ (proj2 Hs) Hp G).
    apply (advances_bind (cmd_ok lo) _ _ s''); [apply IHl; lia|lia|]. intros c s1 H1 Hc.
    destruct (peek m s1 es (bytes_of ")")) as [s2 b] eqn:Hp2. pose proof (peek_bound _ _ _ _ (proj2 H1) Hp2).
    destruct b; [|done]. cbn [negb]. destruct (gettoken m s2 es) as [[tok2 w2] s3] eqn:G2.
    pose proof (peek_token _ _ _ _ _ _ (proj2 H1) Hp2 G2).
    apply (advances_bind (redirs_ok lo) _ _ s3); [apply parseredirs_total; lia|lia|].
    intros rs s4 H4 Hrs. simpl. split; [lia|]. by apply redircmds_ok.
Qed.

End termination.

Lemma parse_advances m s l :
  cstring m s l ->
  let es := s + Z.of_nat (length l) in
  advances es (cmd_ok es s) s (parseline m es (parse_fuel (Z.of_nat (length l))) s).
Proof.
  intros Hl es. apply cstring_iff in Hl as (_ & _ & Hend).
  apply (parse_rules_total m es Hend s (parse_fuel (Z.of_nat (length l)))); unfold parse_fuel, es; lia.
Qed.

(** [nulterminate] writes inside the line only. *)
Lemma nulterminate_frame es lo c m b :
  cmd_ok es lo c -> b <= lo \/ es < b -> ld8 (nulterminate c m) b = ld8 m b.
Proof.
  revert m. induction c as [argv|c IH f mode fd|l IHl r IHr|l IHl r IHr|c IH]; intros m Hc Hb; simpl in *.
  - destruct Hc as [_ Hall]. revert m. induction Hall as [|w argv Hw Hall IH]; intros m; simpl; [done|].
    rewrite IH. apply ld8_st8_ne. unfold word_ok in Hw. lia.
  - destruct Hc as [Hc Hf]. rewrite ld8_st8_ne by (unfold word_ok in Hf; lia). by apply IH.
  - destruct Hc. by rewrite IHr, IHl.
  - destruct Hc. by rewrite IHr, IHl.
  - by apply IH.
Qed.

(** C36: the shell's parser comes to an end on every line: with the fuel that
    [parsecmd] gives it, it answers with a command and a place in the line,
    or panics. *)
Theorem parse_total m s l :
  cstring m s l ->
  let es := s + Z.of_nat (length l) in
  match parseline m es (parse_fuel (Z.of_nat (length l))) s with
  | POk _ s' => s <= s' <= es
  | PPanic _ => True
  | PFuel => False
  end.
Proof.
  intros Hl es. pose proof (parse_advances m s l Hl) as H. unfold advances in H. fold es in H.
  destruct (parseline m es _ s); [apply H|done|done].
Qed.

(** In every command the parser returns, each argument and file name is a
    non-empty part of the line and no command has [MAXARGS] arguments or more,
    so that [nulterminate] writes nowhere but in the line. *)
Theorem parse_words m s l c s' :
  cstring m s l ->
  let es := s + Z.of_nat (length l) in
  parseline m es (parse_fuel (Z.of_nat (length l))) s = POk c s' ->
  cmd_ok es s c /\ forall b, b <= s \/ es < b -> ld8 (nulterminate c m) b = ld8 m b.
Proof.
  intros Hl es E. pose proof (parse_advances m s l Hl) as H. cbv zeta in H. fold es in H. rewrite E in H. destruct H as [_ H].
  split; [done|]. intros b Hb. by apply (nulterminate_frame es s).
Qed.

(** [(ls | grep x > out; cat < y &)] *)
Definition demo_line : list Z := bytes_of "ls | grep x > out; cat < y &".
Definition demo_line_mem : memory := st_bytes ∅ 100 demo_line.

Lemma parse_total_witness :
  match parseline demo_line_mem 128 (parse_fuel 28) 100 with POk _ s' => 100 <= s' <= 128 | _ => False end.
Proof.
  pose proof (parse_total demo_line_mem 100 demo_line) as H.
  assert (Hc : cstring demo_line_mem 100 demo_line) by (repeat split; discriminate).
  specialize (H Hc). revert H. vm_compute. tauto.
Defined.

(** The tree of that line. *)
Example parse_demo :
  parseline demo_line_mem 128 (parse_fuel 28) 100 =
  POk (LIST (PIPE (EXEC [mkword 100 102])
                  (REDIR (EXEC [mkword 105 109; mkword 110 111]) (mkword 114 117) 1537 1))
            (BACK (REDIR (EXEC [mkword 119 122]) (mkword 125 126) 0 0))) 128.
Proof. reflexivity. Qed.

Lemma parse_words_witness : exists c s',
  parseline demo_line_mem 128 (parse_fuel 28) 100 = POk c s' /\ cmd_ok 128 100 c /\
  ld_bytes (nulterminate c demo_line_mem) 105 4 = bytes_of "grep" /\ ld8 (nulterminate c demo_line_mem) 109 = 0.
Proof.
  assert (Hc : cstring demo_line_mem 100 demo_line) by (repeat split; discriminate).
  eexists _, _. split; [apply parse_demo|].
  split; [exact (proj1 (parse_words demo_line_mem 100 demo_line _ _ Hc parse_demo))|].
  split; reflexivity.
Defined.
