(* ===== verification/ShGrammar.v ===== *)
(** * The language of the shell

    The grammar of command lines, apart from the parser that reads them:
    [token]s with the texts that spell them, a tree of the syntax whose
    leaves are tokens ([line], [pipeline], [stage]), and the command that
    each tree stands for.  The theorems say that [parsecmd] of user/sh.c
    reads every text of the grammar as its command, with each word cut out of
    the line as a string of its own, and that what it accepts is such a text. *)

From S2P Require Import Prelude Param Mem CString User Ulib Sh.
From ITree Require Import ITree.
Open Scope Z_scope.
Open Scope user_scope.

(** ** Tokens and their spelling *)

(** A character that a word may have: neither blank nor symbol nor NUL. *)
Definition wchar (c : Z) : bool := negb (c =? 0) && is_word c.

Inductive token : Type := TWord (l : list Z) | TSym (c : Z) | TAppend.

Definition token_ok (t : token) : Prop :=
  match t with
  | TWord l => l <> [] /\ Forall (fun c => wchar c = true) l
  | TSym c => strchr_lit symbols c = true
  | TAppend => True
  end.

Definition chars (t : token) : list Z :=
  match t with TWord l => l | TSym c => [c] | TAppend => [62; 62] end.

(** The number that [gettoken] returns for the token. *)
Definition kind (t : token) : Z :=
  match t with TWord _ => 97 | TSym c => c | TAppend => 43 end.

Definition heads (p : Z -> bool) (l : list Z) : bool :=
  match l with [] => false | c :: _ => p c end.

(** The text behind the token does not go on with it. *)
Definition ends_before (t : token) (l : list Z) : Prop :=
  match t with
  | TWord _ => heads wchar l = false
  | TSym c => c = 62 -> heads (Z.eqb 62) l = false
  | TAppend => True
  end.

(** The text is the tokens, with blanks around them. *)
Inductive spells : list Z -> list token -> Prop :=
| spells_end bl : Forall (fun c => is_blank c = true) bl -> spells bl []
| spells_token bl t l ts :
    Forall (fun c => is_blank c = true) bl -> token_ok t -> ends_before t l -> spells l ts ->
    spells (bl ++ chars t ++ l) (t :: ts).

(** What [peek] answers when the rest of the line is these tokens. *)
Definition starts (toks : list Z) (ts : list token) : bool :=
  match ts with
  | TSym c :: _ => strchr_lit toks c
  | TAppend :: _ => strchr_lit toks 62
  | _ => false
  end.

(** ** The grammar *)

Inductive direction : Type := Input | Output | Append.

Definition redirection : Type := direction * list Z.

(** [stage] is a simple command or a block in parentheses.  An argument has
    the redirections that follow it. *)
Inductive line : Type :=
| Last (p : pipeline) (backs : nat)
| Then (p : pipeline) (backs : nat) (l : line)
with pipeline : Type :=
| Single (u : stage)
| Into (u : stage) (p : pipeline)
with stage : Type :=
| Simple (rs : list redirection) (args : list (list Z * list redirection))
| Block (l : line) (rs : list redirection).

Definition sym (s : string) : token := TSym (match bytes_of s with c :: _ => c | [] => 0 end).

Definition redir_tokens (r : redirection) : list token :=
  [match r.1 with Input => sym "<" | Output => sym ">" | Append => TAppend end; TWord r.2].

Definition redirs_tokens (rs : list redirection) : list token := flat_map redir_tokens rs.

Definition args_tokens (args : list (list Z * list redirection)) : list token :=
  flat_map (fun a => TWord a.1 :: redirs_tokens a.2) args.

Fixpoint line_tokens (l : line) : list token :=
  match l with
  | Last p n => pipeline_tokens p ++ repeat (sym "&") n
  | Then p n l => pipeline_tokens p ++ repeat (sym "&") n ++ sym ";" :: line_tokens l
  end
with pipeline_tokens (p : pipeline) : list token :=
  match p with
  | Single u => stage_tokens u
  | Into u p => stage_tokens u ++ sym "|" :: pipeline_tokens p
  end
with stage_tokens (u : stage) : list token :=
  match u with
  | Simple rs args => redirs_tokens rs ++ args_tokens args
  | Block l rs => sym "(" :: line_tokens l ++ sym ")" :: redirs_tokens rs
  end.

(** Fewer arguments than [MAXARGS] in every simple command. *)
Fixpoint line_ok (l : line) : bool :=
  match l with Last p _ => pipeline_ok p | Then p _ l => pipeline_ok p && line_ok l end
with pipeline_ok (p : pipeline) : bool :=
  match p with Single u => stage_ok u | Into u p => stage_ok u && pipeline_ok p end
with stage_ok (u : stage) : bool :=
  match u with Simple _ args => (length args <? MAXARGS)%nat | Block l _ => line_ok l end.

(** ** Commands *)

Inductive command : Type :=
| CExec (argv : list (list Z))
| CRedir (c : command) (r : redirection)
| CPipe (left right : command)
| CList (left right : command)
| CBack (c : command).

(** The mode a file is opened with and the descriptor it becomes. *)
Definition mode_of (d : direction) : Z :=
  match d with
  | Input => O_RDONLY
  | Output => Z.lor (Z.lor O_WRONLY O_CREATE) O_TRUNC
  | Append => Z.lor O_WRONLY O_CREATE
  end.
Definition fd_of (d : direction) : Z := match d with Input => 0 | _ => 1 end.

(** The last redirection is the outermost, so the first to be opened. *)
Definition redirected (c : command) (rs : list redirection) : command := foldl CRedir c rs.

Definition in_background (n : nat) (c : command) : command := Nat.iter n CBack c.

Fixpoint line_command (l : line) : command :=
  match l with
  | Last p n => in_background n (pipeline_command p)
  | Then p n l => CList (in_background n (pipeline_command p)) (line_command l)
  end
with pipeline_command (p : pipeline) : command :=
  match p with
  | Single u => stage_command u
  | Into u p => CPipe (stage_command u) (pipeline_command p)
  end
with stage_command (u : stage) : command :=
  match u with
  | Simple rs args => redirected (CExec args.*1) (rs ++ flat_map snd args)
  | Block l rs => redirected (line_command l) rs
  end.

(** A command of the shell, whose words are read with [P], is a command. *)
Fixpoint means (P : word -> list Z -> Prop) (c : cmd) (t : command) : Prop :=
  match c, t with
  | EXEC ws, CExec argv => Forall2 P ws argv
  | REDIR c f mode fd, CRedir t r => means P c t /\ P f r.2 /\ mode = mode_of r.1 /\ fd = fd_of r.1
  | PIPE c1 c2, CPipe t1 t2 | LIST c1 c2, CList t1 t2 => means P c1 t1 /\ means P c2 t2
  | BACK c, CBack t => means P c t
  | _, _ => False
  end.

(** A word in the line: its bytes, and no character of a word behind it. *)
Definition word_at (m : memory) (w : word) (l : list Z) : Prop :=
  l <> [] /\ Forall (fun c => wchar c = true) l /\ wend w = wbegin w + Z.of_nat (length l) /\
  ld_bytes m (wbegin w) (length l) = l /\ wchar (ld8 m (wend w)) = false.

(** ** Reading tokens *)

Lemma wchar_class c : wchar c = true -> c <> 0 /\ is_blank c = false /\ strchr_lit symbols c = false.
Proof.
  unfold wchar, is_word, is_blank. rewrite !andb_true_iff, !negb_true_iff, Z.eqb_neq. tauto.
Qed.

Lemma symbol_not_blank c : strchr_lit symbols c = true -> is_blank c = false /\ c <> 0.
Proof.
  intros (x & Hx & ->%Z.eqb_eq)%existsb_exists. unfold symbols in Hx. simpl in Hx.
  destruct_or! Hx; try done; subst; split; reflexivity || discriminate.
Qed.

Lemma not_symbol toks c :
  strchr_lit symbols c = false -> forallb (strchr_lit symbols) toks = true -> strchr_lit toks c = false.
Proof.
  intros Hc Ht. apply not_true_iff_false. intros (x & Hx & ->%Z.eqb_eq)%existsb_exists.
  rewrite forallb_forall in Ht. rewrite Ht in Hc; done.
Qed.

Lemma chars_head t : token_ok t -> exists c l, chars t = c :: l /\ is_blank c = false /\ c <> 0.
Proof.
  destruct t as [[|c l]|c|]; simpl; [tauto| | |].
  - intros [_ [Hc _]%Forall_cons]. apply wchar_class in Hc. eexists _, _. split; [done|]. tauto.
  - intros H. apply symbol_not_blank in H. eauto.
  - exists 62, [62]. done.
Qed.

Lemma cstring_app m s l1 l2 :
  cstring m s (l1 ++ l2) <->
  Forall (fun c => c <> 0) l1 /\ ld_bytes m s (length l1) = l1 /\ cstring m (s + Z.of_nat (length l1)) l2.
Proof.
  revert s. induction l1 as [|c l1 IH]; intros s; simpl.
  - rewrite Z.add_0_r. split; [|tauto]. auto.
  - rewrite IH, Forall_cons. replace (s + 1 + Z.of_nat (length l1)) with (s + Z.pos (Pos.of_succ_nat (length l1))) by lia.
    split; [intros (? & -> & ? & -> & ?); tauto|]. intros ((? & ?) & [= -> E] & ?). tauto.
Qed.

(** [skip] goes over the longest run of such characters. *)
Lemma skip_run m p s es l1 l2 :
  cstring m s (l1 ++ l2) -> es = s + Z.of_nat (length (l1 ++ l2)) ->
  Forall (fun c => p c = true) l1 -> heads p l2 = false ->
  skip m p s es = s + Z.of_nat (length l1).
Proof.
  intros H -> Hp Hh. unfold skip. rewrite length_app.
  replace (Z.to_nat _) with (length l1 + length l2)%nat by lia. revert s H.
  induction Hp as [|c l1 Hc Hp IH]; intros s H; simpl in *.
  - rewrite Z.add_0_r. destruct l2 as [|d l2]; [done|]. simpl in *. destruct H as (_ & -> & _). by rewrite Hh.
  - destruct H as (_ & E & H). rewrite E, Hc, IH by done. lia.
Qed.

Section reading.
Context (m : memory) (es : Z).

(** From [s] to its end, the line is these tokens. *)
Definition spelled (s : Z) (ts : list token) : Prop :=
  exists l, cstring m s l /\ es = s + Z.of_nat (length l) /\ spells l ts.

Lemma spelled_le s ts : spelled s ts -> s <= es.
Proof. intros (l & _ & -> & _). lia. Qed.

(** What [skip] over blanks leaves. *)
Lemma spelled_skip s ts :
  spelled s ts ->
  s <= skip m is_blank s es /\
  match ts with
  | [] => skip m is_blank s es = es /\ ld8 m es = 0
  | t :: ts => token_ok t /\ exists l,
      cstring m (skip m is_blank s es) (chars t ++ l) /\ ends_before t l /\ spells l ts /\
      es = skip m is_blank s es + Z.of_nat (length (chars t ++ l))
  end.
Proof.
  intros (l & H & E & Hs). destruct Hs as [bl Hbl|bl t l ts Hbl Ht He Hs].
  - rewrite <- (app_nil_r bl) in H, E. rewrite (skip_run m is_blank s es bl []) by done.
    apply cstring_app in H as (_ & _ & H). simpl in H. rewrite app_nil_r in E. rewrite E. split; [lia|done].
  - destruct (chars_head t Ht) as (c & l' & Ec & Hb & _).
    rewrite (skip_run m is_blank s es bl (chars t ++ l)) by (try done; rewrite Ec; done).
    split; [lia|]. split; [done|]. exists l. apply cstring_app in H as (_ & _ & H).
    split; [done|]. split; [done|]. split; [done|]. rewrite E, length_app. lia.
Qed.

Lemma spelled_skipped s ts : spelled s ts -> spelled (skip m is_blank s es) ts.
Proof.
  intros H. pose proof (spelled_skip s ts H) as [_ Hs]. destruct ts as [|t ts].
  - destruct Hs as [-> E]. exists []. split; [done|]. split; [simpl; lia|by apply spells_end].
  - destruct Hs as (Ht & l & Hc & He & Hsp & E). exists (chars t ++ l). split; [done|]. split; [done|].
    by apply (spells_token []).
Qed.

(** [peek] looks at the next token. *)
Lemma peek_spelled s ts toks :
  spelled s ts -> forallb (strchr_lit symbols) toks = true ->
  exists s1, peek m s es toks = (s1, starts toks ts) /\ s <= s1 /\ spelled s1 ts.
Proof.
  intros H Ht. exists (skip m is_blank s es). pose proof (spelled_skip s ts H) as [Hle Hs].
  split; [|split; [done|by apply spelled_skipped]]. unfold peek. f_equal. destruct ts as [|t ts].
  - destruct Hs as [-> ->]. done.
  - destruct Hs as (Hok & l & Hc & _). destruct t as [[|c w]|c|]; simpl in *; [tauto| | |].
    + destruct Hc as (Hc & -> & _), Hok as [_ [Hw _]%Forall_cons]. apply wchar_class in Hw as (_ & _ & Hw).
      apply andb_false_iff. right. by apply not_symbol.
    + destruct Hc as (Hc & -> & _). by rewrite (proj2 (Z.eqb_neq _ _) Hc).
    + by destruct Hc as (Hc & -> & _).
Qed.

Lemma word_scanned q l l2 :
  l <> [] -> Forall (fun c => wchar c = true) l -> cstring m q (l ++ l2) -> heads wchar l2 = false ->
  es = q + Z.of_nat (length (l ++ l2)) ->
  scan m q es = (97, q + Z.of_nat (length l)) /\ word_at m (mkword q (q + Z.of_nat (length l))) l.
Proof.
  intros Hl Hw Hc He E. split.
  - assert (Hs : skip m is_word q es = q + Z.of_nat (length l)).
    { apply (skip_run m is_word q es l l2); [done|done| |].
      - eapply Forall_impl; [exact Hw|]. intros c Hx. apply andb_true_iff in Hx. tauto.
      - apply cstring_app in Hc as (_ & _ & Hc). destruct l2 as [|d l2]; [done|]. simpl in *.
        unfold wchar in He. destruct Hc as (Hd & _). by rewrite (proj2 (Z.eqb_neq _ _) Hd) in He. }
    destruct l as [|c l]; [done|]. apply Forall_cons in Hw as [Hw _]. apply wchar_class in Hw as (H0 & _ & Hsym).
    destruct Hc as (_ & Ec & _). unfold scan. rewrite Ec, (proj2 (Z.eqb_neq _ _) H0), Hs.
    rewrite (not_symbol _ c Hsym) by done. pose proof (not_symbol [62] c Hsym eq_refl) as H62.
    simpl in H62. rewrite orb_false_r in H62. by rewrite H62.
  - apply cstring_app in Hc as (_ & Hb & Hc). split; [done|]. split; [done|]. split; [done|]. split; [done|].
    simpl. destruct l2 as [|d l2]; simpl in *; [by rewrite Hc|]. by destruct Hc as (_ & -> & _).
Qed.

(** [gettoken] takes the next token. *)
Lemma gettoken_spelled s t ts :
  spelled s (t :: ts) ->
  exists w s2, gettoken m s es = (kind t, w, s2) /\ s < s2 /\ spelled s2 ts /\
    forall l, t = TWord l -> word_at m w l.
Proof.
  intros H. pose proof (spelled_skip _ _ H) as (Hle & Hok & l & Hc & He & Hs & E). unfold gettoken.
  set (q := skip m is_blank s es) in *.
  assert (Hn : scan m q es = (kind t, q + Z.of_nat (length (chars t))) /\
    forall l, t = TWord l -> word_at m (mkword q (q + Z.of_nat (length (chars t)))) l).
  { destruct t as [w|c|]; cbn [chars kind token_ok ends_before app length cstring] in *.
    - destruct (word_scanned q w l) as [Hsc Hw]; [tauto|tauto|done|done|done|].
      split; [exact Hsc|]. by intros ? [= <-].
    - split; [|done]. destruct Hc as (H0 & Ec & Hc). unfold scan. rewrite Ec, (proj2 (Z.eqb_neq _ _) H0).
      apply existsb_exists in Hok as (x & Hx & ->%Z.eqb_eq). unfold symbols in Hx. simpl in Hx.
      destruct_or! Hx; subst; try done. specialize (He eq_refl).
      assert (Hn : (ld8 m (q + 1) =? 62) = false); [|by rewrite Hn].
      destruct l as [|d l]; cbn [cstring heads] in *; [by rewrite Hc|]. destruct Hc as (_ & -> & _).
      by rewrite Z.eqb_sym.
    - split; [|done]. destruct Hc as (_ & E1 & _ & E2 & _). unfold scan. by rewrite E1, E2. }
  destruct Hn as [-> Hw]. eexists _, _. split; [reflexivity|].
  destruct (chars_head t Hok) as (c & l' & Ech & _).
  assert (Hsp : spelled (q + Z.of_nat (length (chars t))) ts).
  { exists l. apply cstring_app in Hc as (_ & _ & Hc). split; [done|]. split; [|done]. rewrite E, length_app. lia. }
  pose proof (spelled_skip _ _ Hsp) as [Hle2 _]. split; [rewrite Ech in Hle2 |- *; simpl in *; lia|].
  split; [by apply spelled_skipped|done].
Qed.

Lemma gettoken_end s : spelled s [] -> exists w, gettoken m s es = (0, w, es) /\ spelled es [].
Proof.
  intros H. pose proof (spelled_skip _ _ H) as (_ & E & H0). unfold gettoken, scan. rewrite E, H0. simpl.
  eexists. split; [|rewrite <- E; by apply spelled_skipped].
  assert (Hee : skip m is_blank es es = es) by (unfold skip; by rewrite Z.sub_diag). by rewrite Hee.
Qed.
End reading.

(** ** Every text of the grammar is parsed *)

(** What may follow: the end of the line or one of these symbols. *)
Definition follow (toks : list Z) (k : list token) : bool :=
  match k with [] => true | TSym c :: _ => strchr_lit toks c | _ => false end.

Lemma follow_starts toks toks' k :
  follow toks k = true -> forallb (fun c => negb (strchr_lit toks' c)) toks = true -> starts toks' k = false.
Proof.
  destruct k as [|[w|c|] k]; simpl; try done. intros (x & Hx & ->%Z.eqb_eq)%existsb_exists Hf.
  rewrite forallb_forall in Hf. by apply negb_true_iff, Hf.
Qed.

Lemma follow_sub toks toks' k :
  follow toks k = true -> forallb (strchr_lit toks') toks = true -> follow toks' k = true.
Proof.
  destruct k as [|[w|c|] k]; simpl; try done. intros (x & Hx & ->%Z.eqb_eq)%existsb_exists Hf.
  rewrite forallb_forall in Hf. by apply Hf.
Qed.

Section parsing.
Context (m : memory) (es : Z).

Definition redir_means (r : redir) (a : redirection) : Prop :=
  word_at m (r_file r) a.2 /\ r_mode r = mode_of a.1 /\ r_fd r = fd_of a.1.

(** The rule answers with a result in [P] where the tokens [k] are left. *)
Definition parses {A} (P : A -> Prop) (k : list token) (s : Z) (r : pres A) : Prop :=
  exists a s', r = POk a s' /\ s <= s' /\ spelled m es s' k /\ P a.

Lemma parses_bind {A B} (P : A -> Prop) (Q : B -> Prop) k0 k s s0 (r : pres A) (f : A -> Z -> pres B) :
  parses P k0 s0 r -> s <= s0 ->
  (forall a s', s0 <= s' -> spelled m es s' k0 -> P a -> parses Q k s (f a s')) -> parses Q k s (pbind r f).
Proof. intros (a & s' & -> & Hle & Hs & HP) Hs0 Hf. by apply Hf. Qed.

Lemma parses_le {A} (P : A -> Prop) k s s0 (r : pres A) : parses P k s0 r -> s <= s0 -> parses P k s r.
Proof. intros (a & s' & -> & Hle & Hs & HP) Hs0. exists a, s'. split; [done|]. split; [lia|done]. Qed.

Lemma parses_ok {A} (P : A -> Prop) k s s' a : s <= s' -> spelled m es s' k -> P a -> parses P k s (POk a s').
Proof. intros Hle Hs HP. by exists a, s'. Qed.

Ltac peeks H :=
  match type of H with spelled _ _ ?s ?ts =>
    match goal with |- context [peek m s es ?toks] =>
      let s1 := fresh "s" in let L := fresh "L" in let Sp := fresh "Sp" in let E := fresh "E" in
      destruct (peek_spelled m es s ts toks H eq_refl) as (s1 & E & L & Sp); rewrite E; clear E; cbv iota beta
    end
  end.
Ltac takes H :=
  match type of H with spelled _ _ ?s (?t :: ?ts) =>
    let w := fresh "w" in let s1 := fresh "s" in let L := fresh "L" in let Sp := fresh "Sp" in
    let W := fresh "W" in let E := fresh "E" in
    destruct (gettoken_spelled m es s t ts H) as (w & s1 & E & L & Sp & W); rewrite E; clear E; pose proof (spelled_le _ _ _ _ Sp); cbv iota beta
  end.

Lemma redirs_parse n rs k s :
  spelled m es s (redirs_tokens rs ++ k) -> starts (bytes_of "<>") k = false -> (Z.to_nat (es - s) < n)%nat ->
  parses (fun r => Forall2 redir_means r rs) k s (parseredirs m es n s).
Proof.
  revert rs s. induction n as [|n IH]; intros rs s Hs Hk Hn; [lia|]. cbn [parseredirs].
  pose proof (spelled_le _ _ _ _ Hs). peeks Hs. destruct rs as [|[d f] rs]; cbn [redirs_tokens flat_map redir_tokens app] in *.
  { rewrite Hk. by apply parses_ok. }
  assert (Hb : forall ts, starts (bytes_of "<>") (match d with Input => sym "<" | Output => sym ">" | Append => TAppend end :: ts) = true)
    by (by destruct d).
  cbn [fst snd] in *. rewrite Hb. takes Sp. takes Sp0. cbn [kind]. change (negb (97 =? 97)) with false. cbv iota.
  eapply parses_bind; [apply IH; [exact Sp1|done|]|lia|].
  { lia. }
  intros a s' Hle Hs' Ha. apply parses_ok; [lia|done|]. constructor; [|done].
  unfold redir_means. cbn [fst snd]. specialize (W0 _ eq_refl). by destruct d.
Qed.

Lemma args_parse n argc args k s :
  spelled m es s (args_tokens args ++ k) -> follow (bytes_of "|)&;") k = true ->
  (argc + length args < MAXARGS)%nat -> (Z.to_nat (es - s) < n)%nat ->
  parses (fun r => Forall2 (word_at m) r.1 args.*1 /\ Forall2 redir_means r.2 (flat_map snd args)) k s
    (parseargs m es n argc s).
Proof.
  revert argc args s. induction n as [|n IH]; intros argc args s Hs Hk Ha Hn; [lia|]. cbn [parseargs].
  pose proof (spelled_le _ _ _ _ Hs). peeks Hs. destruct args as [|[l rs] args]; cbn [args_tokens flat_map app fmap list_fmap length] in *.
  { destruct k as [|[?|c|] k]; try done.
    - cbn [starts]. destruct (gettoken_end m es s0 Sp) as (w & -> & Se). change (0 =? 0) with true. cbv iota.
      by apply parses_ok.
    - cbn [starts follow] in *. rewrite Hk. by apply parses_ok. }
  cbn [starts fst snd]. rewrite <- app_assoc in Sp. takes Sp. cbn [kind].
  change (97 =? 0) with false. change (negb (97 =? 97)) with false. cbv iota.
  destruct (Nat.leb_spec MAXARGS (S argc)); [lia|].
  eapply parses_bind; [apply redirs_parse; [exact Sp0| |lia]|lia|].
  { destruct args as [|[l2 rs2] args]; [|done]. by apply (follow_starts (bytes_of "|)&;")). }
  intros rs1 s2 L2 S2 R1. pose proof (spelled_le _ _ _ _ S2). eapply parses_bind; [apply (IH (S argc)); [exact S2|done|lia|lia]|lia|].
  intros [ws rs2] s3 L3 S3 [R2 R3]. cbn [fst snd] in *. apply parses_ok; [lia|done|].
  split; [by constructor; [apply W|]|by apply Forall2_app].
Qed.

Lemma means_redirs P c t rs reds :
  means P c t -> Forall2 (fun r a => P (r_file r) a.2 /\ r_mode r = mode_of a.1 /\ r_fd r = fd_of a.1) rs reds ->
  means P (redircmds c rs) (redirected t reds).
Proof.
  intros Hc Hr. revert c t Hc. induction Hr as [|r a rs reds Ha Hr IH]; intros c t Hc; [done|].
  apply (IH (REDIR c (r_file r) (r_mode r) (r_fd r)) (CRedir t a)). by split.
Qed.

Lemma simple_parse n rs args k s :
  spelled m es s (redirs_tokens rs ++ args_tokens args ++ k) -> follow (bytes_of "|)&;") k = true ->
  (length args < MAXARGS)%nat -> (Z.to_nat (es - s) < n)%nat ->
  parses (fun c => means (word_at m) c (stage_command (Simple rs args))) k s (parsesimple m es n s).
Proof.
  intros Hs Hk Ha Hn. unfold parsesimple. eapply parses_bind; [apply redirs_parse; [exact Hs| |done]|lia|].
  { destruct args as [|[l2 rs2] args]; [|done]. by apply (follow_starts (bytes_of "|)&;")). }
  intros rs1 s1 L1 S1 R1. pose proof (spelled_le _ _ _ _ S1).
  eapply parses_bind; [apply (args_parse n 0); [exact S1|done|lia|lia]|lia|].
  intros [ws rs2] s2 L2 S2 [R2 R3]. apply parses_ok; [lia|done|]. cbn [stage_command].
  apply means_redirs; [exact R2|by apply Forall2_app].
Qed.

Lemma backs_parse n j c t k s :
  spelled m es s (repeat (sym "&") j ++ k) -> starts (bytes_of "&") k = false -> (Z.to_nat (es - s) < n)%nat ->
  means (word_at m) c t ->
  parses (fun c => means (word_at m) c (in_background j t)) k s (parsebacks m es n c s).
Proof.
  revert j c t s. induction n as [|n IH]; intros j c t s Hs Hk Hn Hc; [lia|]. cbn [parsebacks].
  pose proof (spelled_le _ _ _ _ Hs). peeks Hs. destruct j as [|j]; cbn [repeat app] in *.
  { rewrite Hk. by apply parses_ok. }
  change (starts _ (sym "&" :: _)) with true. cbv iota. takes Sp.
  unfold in_background. rewrite Nat.iter_succ_r. eapply parses_le; [apply IH; [done|done|lia|done]|lia].
Qed.

(** The four rules, with fuel [n]. *)
Definition line_rule (n : nat) : Prop := forall l k s,
  spelled m es s (line_tokens l ++ k) -> line_ok l = true -> follow (bytes_of ")") k = true ->
  (4 * Z.to_nat (es - s) + 4 <= n)%nat ->
  parses (fun c => means (word_at m) c (line_command l)) k s (parseline m es n s).
Definition pipeline_rule (n : nat) : Prop := forall p k s,
  spelled m es s (pipeline_tokens p ++ k) -> pipeline_ok p = true -> follow (bytes_of ")&;") k = true ->
  (4 * Z.to_nat (es - s) + 3 <= n)%nat ->
  parses (fun c => means (word_at m) c (pipeline_command p)) k s (parsepipe m es n s).
Definition stage_rule (n : nat) : Prop := forall u k s,
  spelled m es s (stage_tokens u ++ k) -> stage_ok u = true -> follow (bytes_of "|)&;") k = true ->
  (4 * Z.to_nat (es - s) + 2 <= n)%nat ->
  parses (fun c => means (word_at m) c (stage_command u)) k s (parseexec m es n s).
Definition block_rule (n : nat) : Prop := forall l rs k s,
  spelled m es s (stage_tokens (Block l rs) ++ k) -> line_ok l = true -> follow (bytes_of "|)&;") k = true ->
  (4 * Z.to_nat (es - s) + 1 <= n)%nat ->
  parses (fun c => means (word_at m) c (stage_command (Block l rs))) k s (parseblock m es n s).

(** A pipeline and the [&] behind it. *)
Lemma line_head n p j k s f (Q : cmd -> Prop) k' :
  pipeline_rule n -> spelled m es s (pipeline_tokens p ++ repeat (sym "&") j ++ k) -> pipeline_ok p = true ->
  follow (bytes_of ");") k = true -> (4 * Z.to_nat (es - s) + 3 <= n)%nat ->
  (forall c s', s <= s' -> spelled m es s' k -> means (word_at m) c (in_background j (pipeline_command p)) ->
     parses Q k' s (f c s')) ->
  parses Q k' s (pbind (parsepipe m es n s) (fun c s => pbind (parsebacks m es n c s) f)).
Proof.
  intros IHp Hs Hp Hk Hn Hf. eapply parses_bind; [apply IHp; [exact Hs|done| |lia]|lia|].
  { destruct j; [|done]. by apply (follow_sub (bytes_of ");")). }
  pose proof (spelled_le _ _ _ _ Hs). intros c s1 L1 S1 Hc. pose proof (spelled_le _ _ _ _ S1).
  eapply parses_bind; [apply backs_parse; [exact S1| |lia|exact Hc]|lia|].
  { by apply (follow_starts (bytes_of ");")). }
  intros c2 s2 L2 S2 Hc2. apply Hf; [lia|done|done].
Qed.

Lemma line_step n : pipeline_rule n -> line_rule n -> line_rule (S n).
Proof.
  intros IHp IHl l k s Hs Hok Hk Hn. cbn [parseline]. pose proof (spelled_le _ _ _ _ Hs).
  destruct l as [p j|p j l]; cbn [line_tokens line_ok line_command] in *.
  - rewrite <- app_assoc in Hs. apply (line_head n p j k); [done|done|done| |lia|].
    { by apply (follow_sub (bytes_of ")")). }
    intros c s1 L1 S1 Hc. peeks S1. rewrite (follow_starts (bytes_of ")")) by done. apply parses_ok; [lia|done|done].
  - apply andb_true_iff in Hok as [Hp Hl]. rewrite <- !app_assoc in Hs.
    apply (line_head n p j (sym ";" :: line_tokens l ++ k)); [done|done|done|done|lia|].
    intros c s1 L1 S1 Hc. peeks S1. change (starts _ (sym ";" :: _)) with true. cbv iota. takes Sp.
    eapply parses_bind; [apply IHl; [exact Sp0|done|done|lia]|lia|].
    intros c2 s' L' S' Hc2. by apply parses_ok; [lia| |].
Qed.

Lemma pipeline_step n : stage_rule n -> pipeline_rule n -> pipeline_rule (S n).
Proof.
  intros IHe IHp p k s Hs Hok Hk Hn. cbn [parsepipe]. pose proof (spelled_le _ _ _ _ Hs).
  destruct p as [u|u p]; cbn [pipeline_tokens pipeline_ok pipeline_command] in *.
  - eapply parses_bind; [apply IHe; [exact Hs|done| |lia]|lia|].
    { by apply (follow_sub (bytes_of ")&;")). }
    intros c s1 L1 S1 Hc. peeks S1. rewrite (follow_starts (bytes_of ")&;")) by done. apply parses_ok; [lia|done|done].
  - apply andb_true_iff in Hok as [Hu Hp]. rewrite <- !app_assoc in Hs.
    eapply parses_bind; [apply IHe; [exact Hs|done|done|lia]|lia|].
    intros c s1 L1 S1 Hc. cbn [app] in S1. peeks S1. change (starts _ (sym "|" :: _)) with true. cbv iota. takes Sp.
    eapply parses_bind; [apply IHp; [exact Sp0|done|done|lia]|lia|].
    intros c2 s' L' S' Hc2. by apply parses_ok; [lia| |].
Qed.

Lemma stage_step n : block_rule n -> stage_rule (S n).
Proof.
  intros IHb u k s Hs Hok Hk Hn. cbn [parseexec]. pose proof (spelled_le _ _ _ _ Hs).
  destruct u as [rs args|l rs]; cbn [stage_ok] in Hok.
  - cbn [stage_tokens] in Hs. rewrite <- app_assoc in Hs. peeks Hs. pose proof (spelled_le _ _ _ _ Sp).
    assert (E : starts (bytes_of "(") (redirs_tokens rs ++ args_tokens args ++ k) = false).
    { destruct rs as [|[[] f] rs]; [|done|done|done]. destruct args as [|[l rs] args]; [|done].
      by apply (follow_starts (bytes_of "|)&;")). }
    rewrite E. eapply parses_le; [apply simple_parse; [done|done|by apply Nat.ltb_lt|lia]|done].
  - peeks Hs. pose proof (spelled_le _ _ _ _ Sp). change (starts _ _) with true. cbv iota.
    eapply parses_le; [apply IHb; [done|done|done|lia]|done].
Qed.

Lemma block_step n : line_rule n -> block_rule (S n).
Proof.
  intros IHl l rs k s Hs Hok Hk Hn. cbn [parseblock]. pose proof (spelled_le _ _ _ _ Hs). peeks Hs.
  change (starts _ _) with true. cbn [stage_tokens app negb] in *. takes Sp. rewrite <- app_assoc in Sp0.
  eapply parses_bind; [apply IHl; [exact Sp0|done|done|lia]|lia|].
  intros c s' L' S' Hc. cbn [app] in S'. peeks S'. change (starts _ (sym ")" :: _)) with true. cbn [negb]. takes Sp1.
  eapply parses_bind; [apply redirs_parse; [exact Sp2| |lia]|lia|].
  { by apply (follow_starts (bytes_of "|)&;")). }
  intros rs1 s5 L5 S5 Hr. apply parses_ok; [lia|done|]. by apply means_redirs.
Qed.

Lemma rules_parse n : line_rule n /\ pipeline_rule n /\ stage_rule n /\ block_rule n.
Proof.
  induction n as [|n (IHl & IHp & IHe & IHb)].
  - repeat split; intros ? **; lia.
  - auto using line_step, pipeline_step, stage_step, block_step.
Qed.
End parsing.

(** ** Only texts of the grammar are parsed *)

(** Every text is a sequence of tokens. *)
Lemma blanks_split l :
  exists bl l', l = bl ++ l' /\ Forall (fun c => is_blank c = true) bl /\ heads is_blank l' = false.
Proof.
  induction l as [|c l (bl & l' & -> & Hb & Hh)]; [exists [], []; split_and!; solve [done|constructor]|].
  destruct (is_blank c) eqn:E; [exists (c :: bl), l'; split_and!; [done|by constructor|done]|].
  exists [], (c :: bl ++ l'). split_and!; solve [done|constructor].
Qed.

Lemma word_split l :
  exists w l', l = w ++ l' /\ Forall (fun c => wchar c = true) w /\ heads wchar l' = false.
Proof.
  induction l as [|c l (w & l' & -> & Hb & Hh)]; [exists [], []; split_and!; solve [done|constructor]|].
  destruct (wchar c) eqn:E; [exists (c :: w), l'; split_and!; [done|by constructor|done]|].
  exists [], (c :: w ++ l'). split_and!; solve [done|constructor].
Qed.

(** The first token of a text that begins with neither blank nor NUL. *)
Lemma token_split c l :
  c <> 0 -> is_blank c = false ->
  exists t l', c :: l = chars t ++ l' /\ token_ok t /\ ends_before t l'.
Proof.
  intros H0 Hb. destruct (strchr_lit symbols c) eqn:Es.
  - destruct (decide (c = 62)) as [->|Hc]; [|exists (TSym c), l; split; [done|]; split; [done|]; by intros ?].
    destruct (heads (Z.eqb 62) l) eqn:Eh; [|exists (TSym 62), l; split; [done|]; split; [done|]; by intros _].
    destruct l as [|d l]; [done|]. cbn [heads] in Eh. apply Z.eqb_eq in Eh as <-.
    by exists TAppend, l.
  - destruct (word_split (c :: l)) as (w & l' & E & Hw & Hh). exists (TWord w), l'. split; [done|]. split; [|done].
    split; [|done]. intros ->. simpl in E. subst l'. simpl in Hh. unfold wchar, is_word in Hh.
    unfold is_blank in Hb. by rewrite (proj2 (Z.eqb_neq _ _) H0), Hb, Es in Hh.
Qed.

Lemma spells_total l : Forall (fun c => c <> 0) l -> exists ts, spells l ts.
Proof.
  induction l as [l IH] using (induction_ltof1 _ (@length Z)). unfold ltof in IH. intros H0.
  destruct (blanks_split l) as (bl & l' & -> & Hbl & Hh). apply Forall_app in H0 as [_ H0].
  destruct l' as [|c l']; [rewrite app_nil_r; eexists; by apply spells_end|].
  apply Forall_cons in H0 as [Hc H0]. destruct (token_split c l' Hc Hh) as (t & l2 & E & Ht & He).
  assert (Hl : (length (c :: l') = length (chars t) + length l2)%nat) by (by rewrite E, length_app).
  destruct (chars_head t Ht) as (d & r & Ed & _). rewrite Ed in Hl. simpl in Hl.
  assert (H2 : Forall (fun c => c <> 0) (c :: l')) by (by constructor). rewrite E in H2. apply Forall_app in H2 as [_ H2].
  destruct (IH l2) as [ts Hts]; [rewrite length_app; simpl; lia|done|]. exists (t :: ts). rewrite E.
  by apply spells_token.
Qed.

Section accepting.
Context (m : memory) (es : Z).

(** The rule has taken tokens [f a] for some [a] in [P]. *)
Definition took {A B} (f : A -> list token) (P : A -> B -> Prop) (ts : list token) (r : pres B) : Prop :=
  match r with
  | POk b s' => exists a k, ts = f a ++ k /\ spelled m es s' k /\ P a b
  | _ => True
  end.

Lemma took_bind {A A' B C} (f : A -> list token) P ts (r : pres B) g (f' : A' -> list token) (P' : A' -> C -> Prop) :
  took f P ts r ->
  (forall a k b s', ts = f a ++ k -> spelled m es s' k -> P a b -> took f' P' ts (g b s')) ->
  took f' P' ts (pbind r g).
Proof. destruct r; simpl; [|done|done]. intros (a0 & k & E & Hs & HP) H. by eapply H. Qed.

Lemma spelled_token s t ts : spelled m es s (t :: ts) -> token_ok t.
Proof. intros (l & _ & _ & Hs). by inversion Hs. Qed.

Lemma kind_word t : token_ok t -> kind t = 97 -> exists l, t = TWord l.
Proof. destruct t as [l|c|]; simpl; [eauto| |done]. by intros H ->. Qed.

Lemma kind_nonzero t : token_ok t -> kind t <> 0.
Proof. destruct t as [l|c|]; [done| |done]. intros H. by apply (symbol_not_blank c). Qed.

Ltac peeks H :=
  match type of H with spelled _ _ ?s ?ts =>
    match goal with |- context [peek m s es ?toks] =>
      let s1 := fresh "s" in let Sp := fresh "Sp" in let E := fresh "E" in
      destruct (peek_spelled m es s ts toks H eq_refl) as (s1 & E & _ & Sp); rewrite E; clear E; cbv iota beta
    end
  end.
Ltac takes H :=
  match type of H with spelled _ _ ?s (?t :: ?ts) =>
    let w := fresh "w" in let s1 := fresh "s" in let Sp := fresh "Sp" in
    let W := fresh "W" in let E := fresh "E" in
    destruct (gettoken_spelled m es s t ts H) as (w & s1 & E & _ & Sp & W); rewrite E; clear E; cbv iota beta
  end.

(** The one token that a set of one symbol lets through. *)
Lemma starts_one c ts : starts [c] ts = true -> c <> 62 -> exists k, ts = TSym c :: k.
Proof.
  destruct ts as [|[w|d|] ts]; try done; cbn [starts strchr_lit existsb]; rewrite orb_false_r;
    intros E%Z.eqb_eq Hc; subst; [eauto|done].
Qed.

Lemma starts_redir ts :
  starts (bytes_of "<>") ts = true ->
  exists (d : direction) k, ts = match d with Input => sym "<" | Output => sym ">" | Append => TAppend end :: k.
Proof.
  destruct ts as [|[w|c|] ts]; try done.
  - intros (x & Hx & ->%Z.eqb_eq)%existsb_exists. simpl in Hx. destruct_or! Hx; subst; [by exists Input, ts|by exists Output, ts].
  - by exists Append, ts.
Qed.

Lemma redirs_sound n s ts :
  spelled m es s ts ->
  took redirs_tokens (fun rs r => Forall2 (redir_means m) r rs) ts (parseredirs m es n s).
Proof.
  revert s ts. induction n as [|n IH]; intros s ts Hs; [done|]. cbn [parseredirs]. peeks Hs.
  destruct (starts (bytes_of "<>") ts) eqn:Es; [|by exists [], ts].
  apply starts_redir in Es as (d & k & ->). takes Sp. destruct k as [|t k].
  { destruct (gettoken_end m es _ Sp0) as (w2 & -> & _). done. }
  pose proof (spelled_token _ _ _ Sp0) as Ht. takes Sp0. destruct (Z.eqb_spec (kind t) 97) as [Ek|]; [|done].
  destruct (kind_word t Ht Ek) as (f & ->). cbn [negb kind].
  specialize (IH _ _ Sp1). destruct (parseredirs m es n s2) as [r s'| |]; [|done|done].
  destruct IH as (rs & k' & -> & Hk & Hr). exists ((d, f) :: rs), k'. split; [done|]. split; [done|].
  constructor; [|done]. unfold redir_means. cbn [fst snd]. specialize (W0 _ eq_refl). by destruct d.
Qed.

Lemma args_sound n argc s ts :
  spelled m es s ts -> (argc < MAXARGS)%nat ->
  took args_tokens (fun args r => Forall2 (word_at m) r.1 args.*1 /\ Forall2 (redir_means m) r.2 (flat_map snd args) /\
    (argc + length args < MAXARGS)%nat) ts (parseargs m es n argc s).
Proof.
  revert argc s ts. induction n as [|n IH]; intros argc s ts Hs Ha; [done|]. cbn [parseargs]. peeks Hs.
  destruct (starts (bytes_of "|)&;") ts) eqn:Es; [exists [], ts; split_and!; try done; simpl; lia|].
  destruct ts as [|t ts].
  { destruct (gettoken_end m es _ Sp) as (w2 & -> & Se). exists [], []. split_and!; try done. simpl. lia. }
  pose proof (spelled_token _ _ _ Sp) as Ht. takes Sp. rewrite (proj2 (Z.eqb_neq _ _) (kind_nonzero t Ht)).
  destruct (Z.eqb_spec (kind t) 97) as [Ek|]; [|done]. destruct (kind_word t Ht Ek) as (l & ->). cbn [negb].
  destruct (Nat.leb_spec MAXARGS (S argc)); [done|].
  pose proof (redirs_sound n _ _ Sp0) as HR. destruct (parseredirs m es n s1) as [rs1 s2| |]; [|done|done].
  destruct HR as (rs & k & -> & Hk & HR). specialize (IH (S argc) s2 k Hk ltac:(lia)). cbn [pbind].
  destruct (parseargs m es n (S argc) s2) as [[ws rs2] s3| |]; [|done|done].
  destruct IH as (args & k' & -> & Hk' & H1 & H2 & H3). exists ((l, rs) :: args), k'.
  split; [simpl; by rewrite <- app_assoc|]. split; [done|]. cbn [fst snd] in *.
  split; [by constructor; [apply W|]|]. split; [by apply Forall2_app|simpl; lia].
Qed.

Lemma simple_sound n s ts :
  spelled m es s ts ->
  took (fun a => stage_tokens (Simple a.1 a.2)) (fun a c => means (word_at m) c (stage_command (Simple a.1 a.2)) /\
    (length a.2 < MAXARGS)%nat) ts (parsesimple m es n s).
Proof.
  intros Hs. unfold parsesimple. eapply took_bind; [by apply redirs_sound|]. intros rs k rs1 s1 -> S1 R1.
  pose proof (args_sound n 0 _ _ S1 ltac:(unfold MAXARGS; lia)) as HA.
  destruct (parseargs m es n 0 s1) as [[ws rs2] s2| |]; [|done|done].
  destruct HA as (args & k' & -> & Hk & H1 & H2 & H3). exists (rs, args), k'.
  split; [cbn [stage_tokens fst snd]; by rewrite app_assoc|]. split; [done|]. split; [|done].
  apply means_redirs; [exact H1|by apply Forall2_app].
Qed.

Lemma backs_sound n c t s ts :
  spelled m es s ts -> means (word_at m) c t ->
  took (repeat (sym "&")) (fun j c => means (word_at m) c (in_background j t)) ts (parsebacks m es n c s).
Proof.
  revert c t s ts. induction n as [|n IH]; intros c t s ts Hs Hc; [done|]. cbn [parsebacks]. peeks Hs.
  destruct (starts (bytes_of "&") ts) eqn:Es; [|by exists 0%nat, ts].
  apply starts_one in Es as (k & ->); [|done]. takes Sp. specialize (IH (BACK c) (CBack t) _ _ Sp0 Hc).
  destruct (parsebacks m es n (BACK c) s1); [|done|done]. destruct IH as (j & k' & -> & Hk & Hm).
  exists (S j), k'. split; [done|]. split; [done|]. unfold in_background in *. by rewrite Nat.iter_succ_r.
Qed.

Definition line_took (ts : list token) : pres cmd -> Prop :=
  took line_tokens (fun l c => means (word_at m) c (line_command l) /\ line_ok l = true) ts.
Definition pipeline_took (ts : list token) : pres cmd -> Prop :=
  took pipeline_tokens (fun p c => means (word_at m) c (pipeline_command p) /\ pipeline_ok p = true) ts.
Definition stage_took (ts : list token) : pres cmd -> Prop :=
  took stage_tokens (fun u c => means (word_at m) c (stage_command u) /\ stage_ok u = true) ts.

Lemma line_sound n :
  (forall s ts, spelled m es s ts -> pipeline_took ts (parsepipe m es n s)) ->
  (forall s ts, spelled m es s ts -> line_took ts (parseline m es n s)) ->
  forall s ts, spelled m es s ts -> line_took ts (parseline m es (S n) s).
Proof.
  intros IHp IHl s ts Hs. cbn [parseline]. eapply took_bind; [by apply IHp|]. intros p k c s1 -> S1 [Hc Hp].
  pose proof (backs_sound n c _ s1 k S1 Hc) as HB. destruct (parsebacks m es n c s1) as [c2 s2| |]; [|done|done].
  destruct HB as (j & k2 & -> & S2 & Hc2). cbn [pbind]. peeks S2.
  destruct (starts (bytes_of ";") k2) eqn:Es.
  - apply starts_one in Es as (k3 & ->); [|done]. takes Sp. specialize (IHl _ _ Sp0).
    destruct (parseline m es n _) as [c3 s5| |]; [|done|done].
    destruct IHl as (l & k4 & -> & S4 & H4 & Hl). exists (Then p j l), k4. cbn [line_tokens line_ok line_command].
    rewrite <- !app_assoc, Hp, Hl. by split_and!.
  - exists (Last p j), k2. cbn [line_tokens line_ok line_command]. rewrite <- app_assoc. by split_and!.
Qed.

Lemma pipeline_sound n :
  (forall s ts, spelled m es s ts -> stage_took ts (parseexec m es n s)) ->
  (forall s ts, spelled m es s ts -> pipeline_took ts (parsepipe m es n s)) ->
  forall s ts, spelled m es s ts -> pipeline_took ts (parsepipe m es (S n) s).
Proof.
  intros IHe IHp s ts Hs. cbn [parsepipe]. eapply took_bind; [by apply IHe|]. intros u k c s1 -> S1 [Hc Hu].
  peeks S1. destruct (starts (bytes_of "|") k) eqn:Es; [|by exists (Single u), k].
  apply starts_one in Es as (k3 & ->); [|done]. takes Sp. specialize (IHp _ _ Sp0).
  destruct (parsepipe m es n _) as [c3 s5| |]; [|done|done].
  destruct IHp as (p & k4 & -> & S4 & H4 & Hp). exists (Into u p), k4. cbn [pipeline_tokens pipeline_ok pipeline_command].
  rewrite <- app_assoc, Hu, Hp. by split_and!.
Qed.

Lemma block_sound n :
  (forall s ts, spelled m es s ts -> line_took ts (parseline m es n s)) ->
  forall s ts, spelled m es s ts -> stage_took ts (parseblock m es (S n) s).
Proof.
  intros IHl s ts Hs. unfold stage_took. cbn [parseblock]. fold (parseline m es). peeks Hs. destruct (starts (bytes_of "(") ts) eqn:Es; [|done]. cbn [negb].
  apply starts_one in Es as (k & ->); [|done]. takes Sp. specialize (IHl _ _ Sp0).
  destruct (parseline m es n _) as [c s2| |]; [|done|done]. destruct IHl as (l & k2 & -> & S2 & Hc & Hl).
  cbn [pbind]. peeks S2. destruct (starts (bytes_of ")") k2) eqn:E2; [|done]. cbn [negb].
  apply starts_one in E2 as (k3 & ->); [|done]. takes Sp1. pose proof (redirs_sound n _ _ Sp2) as HR.
  destruct (parseredirs m es n _) as [rs s5| |]; [|done|done]. destruct HR as (rds & k4 & -> & S4 & Hr).
  exists (Block l rds), k4. cbn [stage_tokens stage_ok stage_command]. split; [simpl; by rewrite <- app_assoc|].
  split; [done|]. split; [by apply means_redirs|done].
Qed.

Lemma rules_sound n :
  (forall s ts, spelled m es s ts -> line_took ts (parseline m es n s)) /\
  (forall s ts, spelled m es s ts -> pipeline_took ts (parsepipe m es n s)) /\
  (forall s ts, spelled m es s ts -> stage_took ts (parseexec m es n s)) /\
  (forall s ts, spelled m es s ts -> stage_took ts (parseblock m es n s)).
Proof.
  induction n as [|n (IHl & IHp & IHe & IHb)]; [done|].
  split; [by apply line_sound|]. split; [by apply pipeline_sound|]. split; [|by apply block_sound].
  intros s ts Hs. unfold stage_took in *. cbn [parseexec]. peeks Hs.
  destruct (starts (bytes_of "(") ts); [by apply IHb|].
  pose proof (simple_sound n _ _ Sp) as H. destruct (parsesimple m es n s0); [|done|done].
  destruct H as ([rs args] & k & E & Hk & Hm & Ha). exists (Simple rs args), k. cbn [fst snd] in *.
  split_and!; try done. by apply Nat.ltb_lt.
Qed.
End accepting.

(** ** Cutting out the words *)

Lemma means_impl (P Q : word -> list Z -> Prop) c t :
  (forall w l, P w l -> Q w l) -> means P c t -> means Q c t.
Proof.
  intros HPQ. revert t. induction c as [argv|c IH f mode fd|l IHl r IHr|l IHl r IHr|c IH]; intros [] Hc; simpl in *; try done.
  - by eapply Forall2_impl.
  - destruct Hc as (? & ? & ?). auto.
  - destruct Hc. auto.
  - destruct Hc. auto.
  - auto.
Qed.

(** [nulterminate] leaves the characters of words alone, since it writes
    behind words, and never takes back a NUL. *)
Lemma nulterminate_keeps m0 c t m a :
  means (word_at m0) c t -> wchar (ld8 m0 a) = true -> ld8 (nulterminate c m) a = ld8 m a.
Proof.
  intros Hc Ha. assert (Hw : forall w l, word_at m0 w l -> wend w <> a).
  { intros w l (_ & _ & _ & _ & He) <-. congruence. }
  revert t m Hc. induction c as [argv|c IH f mode fd|l IHl r IHr|l IHl r IHr|c IH]; intros [] m Hc; simpl in *; try done.
  - revert m. induction Hc as [|w l ws ls H1 Hc IH]; intros m; simpl; [done|]. rewrite IH, ld8_st8_ne by (by eapply Hw). done.
  - destruct Hc as (Hc & Hf & _). rewrite ld8_st8_ne by (by eapply Hw). by eapply IH.
  - destruct Hc. erewrite IHr, IHl by done. done.
  - destruct Hc. erewrite IHr, IHl by done. done.
  - by eapply IH.
Qed.

Lemma st8_zero m a b : ld8 m b = 0 -> ld8 (st8 m a 0) b = 0.
Proof. intros H. rewrite ld8_st8. by destruct (a =? b). Qed.

Lemma foldl_st8_zero ws m b : ld8 m b = 0 -> ld8 (foldl (fun m w => st8 m (wend w) 0) m ws) b = 0.
Proof. revert m. induction ws; intros m H; [done|]. apply IHws. by apply st8_zero. Qed.

Lemma nulterminate_zero c m b : ld8 m b = 0 -> ld8 (nulterminate c m) b = 0.
Proof. revert m. induction c; intros m H; simpl; auto using foldl_st8_zero, st8_zero. Qed.

Lemma nulterminate_cuts P c t m :
  means P c t -> means (fun w l => P w l /\ ld8 (nulterminate c m) (wend w) = 0) c t.
Proof.
  revert t m. induction c as [argv|c IH f mode fd|l IHl r IHr|l IHl r IHr|c IH]; intros [] m Hc; cbn [means nulterminate] in *; try done.
  - revert m. induction Hc as [|w l ws ls H1 Hc IH]; intros m; [done|]. constructor; [|by apply IH].
    split; [done|]. cbn [foldl]. apply foldl_st8_zero. by rewrite ld8_st8_eq.
  - destruct Hc as (Hc & Hf & ?). split; [|split; [|done]].
    + eapply means_impl; [|by apply IH]. intros w l []. split; [done|by apply st8_zero].
    + split; [done|]. by rewrite ld8_st8_eq.
  - destruct Hc as [H1 H2]. split; [|by apply IHr]. eapply means_impl; [|by apply IHl].
    intros w l' []. split; [done|by apply nulterminate_zero].
  - destruct Hc as [H1 H2]. split; [|by apply IHr]. eapply means_impl; [|by apply IHl].
    intros w l' []. split; [done|by apply nulterminate_zero].
  - by apply IH.
Qed.

Lemma nulterminate_words m c t :
  means (word_at m) c t -> means (fun w l => cstring (nulterminate c m) (wbegin w) l) c t.
Proof.
  intros H. eapply means_impl; [|apply (nulterminate_cuts _ _ _ m H)].
  intros w l [(_ & Hw & E & Hb & _) Hz]. apply cstring_iff. rewrite <- E. split; [|split; [|done]].
  - eapply Forall_impl; [exact Hw|]. intros c' Hc'. by apply (wchar_class c').
  - rewrite <- Hb at 2. apply ld_bytes_ext. intros a Ha. eapply nulterminate_keeps; [exact H|].
    rewrite Forall_lookup in Hw. apply (Hw (Z.to_nat (a - wbegin w))). rewrite <- Hb, lookup_ld_bytes by lia.
    f_equal. f_equal. lia.
Qed.

(** ** What is printed *)

Section messages.
Context {W : Type} (h : os W) `{F : !FileOs h}.

Lemma vprintf_plain fd fmt m w :
  forallb (fun c => negb (c =? 37)) fmt = true -> prints h (vprintf fd fmt false []) m w fd (u8 <$> fmt) tt.
Proof using F.
  revert w. induction fmt as [|c fmt IH]; intros w Hf; [apply prints_ret|].
  apply andb_true_iff in Hf as [Hc Hf]. apply negb_true_iff in Hc. cbn [vprintf negb]. rewrite Hc, fmap_cons.
  apply (prints_bind h _ _ _ _ _ [u8 c] (u8 <$> fmt) tt); [apply putc_prints|]. intros w1. by apply IH.
Qed.

(** A format with one [%s]. *)
Lemma fprintf_string fd f1 f2 p m w l :
  forallb (fun c => negb (c =? 37)) (f1 ++ f2) = true -> (forall w, prints h (putstr fd p) m w fd l tt) ->
  prints h (fprintf fd (f1 ++ 37 :: 115 :: f2) [Ustr (Some p)]) m w fd ((u8 <$> f1) ++ l ++ (u8 <$> f2)) tt.
Proof using F.
  unfold fprintf. revert w. induction f1 as [|c f1 IH]; intros w Hf Hp; cbn [app] in *.
  - cbn [vprintf negb]. change (37 =? 37) with true. cbv iota. cbn [vprintf negb]. rewrite fmap_nil.
    apply (prints_bind h _ _ _ _ _ l (u8 <$> f2) []); [|intros w1; by apply vprintf_plain].
    unfold conversion. cbn. rewrite <- (app_nil_r l). eapply prints_bind; [apply Hp|]. intros w1. apply prints_ret.
  - apply andb_true_iff in Hf as [Hc Hf]. apply negb_true_iff in Hc. cbn [vprintf negb]. rewrite Hc, fmap_cons.
    apply (prints_bind h _ _ _ _ _ [u8 c] _ tt); [apply putc_prints|]. intros w1. by apply IH.
Qed.

Lemma panic_run {A} msg m w :
  exists w', runs h (panic (A := A) msg) m w (Exited 1) w' /\ emitted h w w' 2 ((u8 <$> msg) ++ [10]).
Proof using F.
  destruct (fprintf_string 2 [] [10] (Lit msg) m w (u8 <$> msg)) as (w' & R & E); [done|intros; apply puts_prints|].
  exists w'. split; [|exact E]. unfold panic. eapply runs_bind; [exact R|]. apply runs_exit.
Qed.
End messages.

(** ** The parser and the grammar *)

Lemma spelled_end m es s : spelled m es s [] -> skip m is_blank s es = es.
Proof. intros H. by apply (spelled_skip m es s []). Qed.

Lemma spelled_more m es s t ts : spelled m es s (t :: ts) -> skip m is_blank s es <> es.
Proof.
  intros H. pose proof (spelled_skip m es _ _ H) as (_ & Ht & l & _ & _ & _ & E).
  destruct (chars_head t Ht) as (c & r & Ec & _). rewrite Ec in E. simpl in E. lia.
Qed.

(** How [parsecmd] ends when [parseline] has answered. *)
Lemma parsecmd_done {W} (h : os W) m w s txt c s' :
  cstring m s txt -> let es := s + Z.of_nat (length txt) in
  parseline m es (parse_fuel (Z.of_nat (length txt))) s = POk c s' -> skip m is_blank s' es = es ->
  runs h (parsecmd s) m w (Done c (nulterminate c m)) w.
Proof.
  intros Ht es Hp Hs. unfold parsecmd. eapply runs_bind; [by apply strlen_run|]. ustep. fold es. rewrite Hp.
  unfold peek. rewrite Hs, Z.eqb_refl. cbn [negb]. ustep. ustep. eauto with urun.
Qed.

Lemma parsecmd_fails {W} (h : os W) `{!FileOs h} m w s txt :
  cstring m s txt -> bytes_ok txt -> let es := s + Z.of_nat (length txt) in
  match parseline m es (parse_fuel (Z.of_nat (length txt))) s with
  | POk _ s' => s <= s' <= es /\ skip m is_blank s' es <> es
  | PPanic _ => True
  | PFuel => False
  end ->
  exists msg w', runs h (parsecmd s) m w (Exited 1) w' /\ emitted h w w' 2 msg /\ msg <> [].
Proof.
  intros Ht Hb es Hp. unfold parsecmd.
  destruct (parseline m es (parse_fuel (Z.of_nat (length txt))) s) as [c s'|msg|] eqn:E; [| |done].
  - destruct Hp as [Hle Hs]. set (q := skip m is_blank s' es) in *.
    assert (Hq : s <= q <= es) by (pose proof (skip_bound m es is_blank s'); unfold q; lia).
    assert (Hstr : exists l, cstring m q l /\ bytes_ok l).
    { exists (drop (Z.to_nat (q - s)) txt). split; [|by apply Forall_drop].
      rewrite <- (take_drop (Z.to_nat (q - s)) txt) in Ht. apply cstring_app in Ht as (_ & _ & Ht).
      rewrite length_take in Ht. replace q with (s + Z.of_nat (Z.to_nat (q - s) `min` length txt)) at 1 by lia. done. }
    destruct Hstr as (l & Hl & Hl8).
    destruct (fprintf_string h 2 (bytes_of "leftovers: ") [10] (At q) m w l) as (w1 & R1 & E1);
      [done|intros; by apply putstr_prints|].
    destruct (panic_run h (A := unit) (bytes_of "syntax") m w1) as (w2 & R2 & E2).
    eexists _, w2. split; [|split; [exact (emitted_trans h _ _ _ _ _ _ E1 E2)|done]].
    eapply runs_bind; [by apply strlen_run|]. ustep. fold es. rewrite E. unfold peek. fold q.
    rewrite (proj2 (Z.eqb_neq _ _) Hs). cbn [negb]. apply runs_bind_exit. eapply runs_bind; [exact R1|exact R2].
  - destruct (panic_run h (A := cmd) (bytes_of msg) m w) as (w2 & R2 & E2). eexists _, w2.
    split; [|split; [exact E2|by destruct (u8 <$> bytes_of msg)]].
    eapply runs_bind; [by apply strlen_run|]. ustep. fold es. rewrite E. exact R2.
Qed.

(** C34: the shell reads every line of its grammar as the command the line stands
    for: when the text spells the tokens of a tree [l], with any blanks between
    them, [parsecmd] takes neither of its error exits but returns a command,
    and that command is [line_command l], with every argument and file name a
    string of its own in the line.  The structures of the command are a tree
    here and memory in the source, so nothing is said of the heap or of the
    system calls [malloc] makes for them. *)
Theorem parsecmd_accepts {W} (h : os W) m w s txt l :
  cstring m s txt -> spells txt (line_tokens l) -> line_ok l = true ->
  exists c m' w', runs h (parsecmd s) m w (Done c m') w' /\
    means (fun w t => cstring m' (wbegin w) t) c (line_command l).
Proof.
  intros Ht Hs Hl. set (es := s + Z.of_nat (length txt)).
  pose proof (proj1 (rules_parse m es (parse_fuel (Z.of_nat (length txt)))) l [] s) as HP. rewrite app_nil_r in HP.
  destruct HP as (c & s' & E & _ & Sp & Hc); [by exists txt|done|done|unfold parse_fuel, es; lia|].
  exists c, (nulterminate c m), w. split; [|by apply nulterminate_words].
  eapply parsecmd_done; [done|exact E|]. by apply spelled_end.
Qed.

(** C35: a line that is not in the grammar is refused: when no tree spells the
    text, [parsecmd] prints a message to descriptor 2 and exits with status 1,
    and runs nothing of the line. *)
Theorem parsecmd_rejects {W} (h : os W) `{!FileOs h} m w s txt :
  cstring m s txt -> bytes_ok txt ->
  (forall l, spells txt (line_tokens l) -> line_ok l = false) ->
  exists msg w', runs h (parsecmd s) m w (Exited 1) w' /\ emitted h w w' 2 msg /\ msg <> [].
Proof.
  intros Ht Hb Hno. apply (parsecmd_fails h m w s txt Ht Hb). set (es := s + Z.of_nat (length txt)).
  pose proof (parse_advances m s txt Ht) as HA. cbv zeta in HA. fold es in HA.
  destruct (spells_total txt) as [ts Hts]; [apply cstring_iff in Ht; tauto|].
  pose proof (proj1 (rules_sound m es (parse_fuel (Z.of_nat (length txt)))) s ts) as HS.
  destruct (parseline m es _ s) as [c s'|msg|]; [|done|done].
  destruct HS as (l & k & -> & Sp & Hc & Hok); [by exists txt|]. split; [apply HA|].
  destruct k as [|t k]; [|by eapply spelled_more]. rewrite app_nil_r in Hts. rewrite Hno in Hok; done.
Qed.

(** ** Examples *)

Lemma spells_next n txt t ts :
  forallb is_blank (take n txt) = true -> token_ok t -> take (length (chars t)) (drop n txt) = chars t ->
  ends_before t (drop (length (chars t)) (drop n txt)) -> spells (drop (length (chars t)) (drop n txt)) ts ->
  spells txt (t :: ts).
Proof.
  intros Hb Ht Et He Hs. rewrite <- (take_drop n txt), <- (take_drop (length (chars t)) (drop n txt)), Et.
  apply spells_token; try done. apply Forall_forall. intros c Hc. rewrite forallb_forall in Hb.
  apply Hb. by apply list_elem_of_In.
Qed.

(** [ls | grep x > out; cat < y &], the line of [demo_line]. *)
Definition demo_tree : line :=
  Then (Into (Simple [] [(bytes_of "ls", [])])
         (Single (Simple [] [(bytes_of "grep", []); (bytes_of "x", [(Output, bytes_of "out")])]))) 0
    (Last (Single (Simple [] [(bytes_of "cat", [(Input, bytes_of "y")])])) 1).

Ltac spell :=
  first [apply (spells_next 0); [reflexivity|by repeat constructor|reflexivity|done|]
        |apply (spells_next 1); [reflexivity|by repeat constructor|reflexivity|done|]]; cbn [drop length chars].

Lemma parsecmd_accepts_witness :
  exists c m' w', runs stream_os (parsecmd 100) demo_line_mem (mkstreams ∅ ∅ 0) (Done c m') w' /\
    means (fun w t => cstring m' (wbegin w) t) c
      (CList (CPipe (CExec [bytes_of "ls"]) (CRedir (CExec [bytes_of "grep"; bytes_of "x"]) (Output, bytes_of "out")))
             (CBack (CRedir (CExec [bytes_of "cat"]) (Input, bytes_of "y")))).
Proof.
  destruct (parsecmd_accepts stream_os demo_line_mem (mkstreams ∅ ∅ 0) 100 demo_line demo_tree) as (c & m' & w' & R & M).
  - by repeat split.
  - repeat spell. by apply spells_end.
  - done.
  - by exists c, m', w'.
Defined.

(** [ls >]: the file name is missing. *)
Definition bad_line : list Z := bytes_of "ls >".
Definition bad_line_mem : memory := st_bytes ∅ 100 bad_line.

Lemma parsecmd_rejects_witness :
  exists msg w', runs stream_os (parsecmd 100) bad_line_mem (mkstreams ∅ ∅ 0) (Exited 1) w' /\
    emitted stream_os (mkstreams ∅ ∅ 0) w' 2 msg /\ msg <> [].
Proof.
  apply (parsecmd_rejects stream_os bad_line_mem (mkstreams ∅ ∅ 0) 100 bad_line).
  - by repeat split.
  - by repeat constructor.
  - intros l Hs. destruct (line_ok l) eqn:E; [|done].
    destruct (proj1 (rules_parse bad_line_mem 104 (parse_fuel 4)) l [] 100) as (c & s' & Hp & _);
      [|done|done|unfold parse_fuel; lia|by vm_compute in Hp].
    rewrite app_nil_r. exists bad_line. by repeat split.
Defined.
