(* ===== verification/Mkfs.v ===== *)
(** * mkfs/mkfs.c: the initial disk image

    The tool that runs on the host and writes the file system the kernel
    starts from.  The image is a map from sectors to blocks; [fsfd] and the
    calls [lseek], [read] and [write] on it are accesses to that map, and
    succeed.  What the host answers for an input file is a parameter: [None]
    when the file cannot be opened, else the chunks that [read] returns.
    [xshort] and [xint] store a number in the byte order of RISC-V, which is
    what the fields of the image are in the model.  Messages on the terminal
    are left out. *)

From S2P Require Import Prelude Param Mem CString Kernel Spinlock Kalloc Sched Sleeplock Vm PageTable UserCopy Uart Printf Bio Log Fs Bitmap.
Open Scope Z_scope.

Definition NINODES : Z := 200.

Definition nbitmap : Z := FSSIZE / (BSIZE * 8) + 1.
Definition ninodeblocks : Z := NINODES / IPB + 1.
Definition nlog : Z := LOGSIZE.
Definition nmeta : Z := 2 + nlog + ninodeblocks + nbitmap.
Definition nblocks : Z := FSSIZE - nmeta.

(** The superblock [main] fills in. *)
Definition sb : superblock :=
  mksb FSMAGIC FSSIZE nblocks NINODES nlog 2 (2 + nlog) (2 + nlog + ninodeblocks).

Definition sb_block : block :=
  concat (map (le_bytes 4)
    [sb_magic sb; sb_size sb; sb_nblocks sb; sb_ninodes sb; sb_nlog sb; sb_logstart sb; sb_inodestart sb; sb_bmapstart sb]) ++
  replicate (Z.to_nat (BSIZE - 32)) 0.

(** The globals of the tool. *)
Record mkst : Type := mkmk { img : gmap Z block; freeinode : Z; freeblock : Z }.

Inductive mkres (A : Type) : Type := MOk (a : A) (s : mkst) | Die | Assert.
Arguments MOk {A} a s.
Arguments Die {A}.
Arguments Assert {A}.

Definition M (A : Type) : Type := mkst -> mkres A.
Definition mret {A} (a : A) : M A := fun s => MOk a s.
Definition mbind {A B} (t : M A) (f : A -> M B) : M B := fun s =>
  match t s with MOk a s => f a s | Die => Die | Assert => Assert end.
Definition die {A} : M A := fun _ => Die.
Definition assert (b : bool) : M unit := fun s => if b then MOk tt s else Assert.

Declare Scope mkfs_scope.
Notation "'let!' x := t 'in' k" := (mbind t (fun x => k))
  (at level 10, x pattern, t at level 100, k at level 200) : mkfs_scope.
Notation "'do!' t ; k" := (mbind t (fun _ => k))
  (at level 10, t at level 100, k at level 200) : mkfs_scope.
Open Scope mkfs_scope.

Definition wsect (sec : Z) (buf : block) : M unit := fun s =>
  MOk tt (mkmk (<[sec := buf]> (img s)) (freeinode s) (freeblock s)).
Definition rsect (sec : Z) : M block := fun s => MOk (dget (img s) sec) s.

(** [freeblock++] *)
Definition newblock : M Z := fun s =>
  MOk (freeblock s) (mkmk (img s) (freeinode s) (u32 (freeblock s + 1))).

(** A [struct dinode] in memory: the fields of the kernel's inode that are on
    disk. *)
Definition winode (inum : Z) (din : inode) : M unit :=
  let! buf := rsect (IBLOCK inum sb) in
  wsect (IBLOCK inum sb) (put_dinode (dip inum) din buf).

Definition rinode (inum : Z) : M inode :=
  let! buf := rsect (IBLOCK inum sb) in
  mret (load_dinode (dip inum) buf inode0).

Definition ialloc (type : Z) : M Z := fun s =>
  let inum := freeinode s in
  (do! winode inum (mkinode 0 0 0 false type 0 0 1 0 (replicate naddrs 0));
   mret inum) (mkmk (img s) (u32 (freeinode s + 1)) (freeblock s)).

(** The bits [0 .. used - 1] of a block. *)
Fixpoint mark (n : nat) (i : Z) (buf : block) : block :=
  match n with O => buf | S n => mark n (i + 1) (set_bit i buf) end.

Definition balloc (used : Z) : M unit :=
  do! assert (used <? BSIZE * 8);
  wsect (sb_bmapstart sb) (mark (Z.to_nat used) 0 zero_block).

(** The block that holds block [fbn] of the file, allocated if need be. *)
Definition file_block (din : inode) (fbn : Z) : M (inode * Z) :=
  if fbn <? NDIRECT then
    let! din := (if iaddr din (Z.to_nat fbn) =? 0 then
        let! b := newblock in mret (set_iaddr (Z.to_nat fbn) b din)
      else mret din) in
    mret (din, iaddr din (Z.to_nat fbn))
  else
    let ind := Z.to_nat NDIRECT in
    let! din := (if iaddr din ind =? 0 then
        let! b := newblock in mret (set_iaddr ind b din)
      else mret din) in
    let! indirect := rsect (iaddr din ind) in
    let k := 4 * (fbn - NDIRECT) in
    let! indirect := (if get32 k indirect =? 0 then
        let! b := newblock in
        do! wsect (iaddr din ind) (put32 k b indirect);
        mret (put32 k b indirect)
      else mret indirect) in
    mret (din, get32 k indirect).

(** The loop of [iappend]; every turn takes at least one byte. *)
Fixpoint iappend_loop (fuel : nat) (din : inode) (off : Z) (p : list Z) : M (inode * Z) :=
  match fuel, p with
  | S fuel, _ :: _ =>
    let fbn := off / BSIZE in
    do! assert (fbn <? MAXFILE);
    let! (din, x) := file_block din fbn in
    let n1 := Z.min (Z.of_nat (length p)) ((fbn + 1) * BSIZE - off) in
    let! buf := rsect x in
    do! wsect x (splice (Z.to_nat (off - fbn * BSIZE)) (take (Z.to_nat n1) p) buf);
    iappend_loop fuel din (u32 (off + n1)) (drop (Z.to_nat n1) p)
  | _, _ => mret (din, off)
  end.

Definition iappend (inum : Z) (p : list Z) : M unit :=
  let! din := rinode inum in
  let! (din, off) := iappend_loop (length p) din (i_size din) p in
  winode inum (set_isize off din).

(** [struct dirent] with the name cut or padded to [DIRSIZ] bytes. *)
Definition dirent (inum : Z) (name : list Z) : list Z :=
  le_bytes 2 inum ++ take (Z.to_nat DIRSIZ) (name ++ replicate (Z.to_nat DIRSIZ) 0).

Fixpoint zero_sectors (n : nat) (i : Z) : M unit :=
  match n with O => mret tt | S n => do! wsect i zero_block; zero_sectors n (i + 1) end.

Fixpoint append_chunks (inum : Z) (chunks : list (list Z)) : M unit :=
  match chunks with [] => mret tt | c :: chunks => do! iappend inum c; append_chunks inum chunks end.

(** [if(strncmp(argv[i], "user/", 5) == 0) shortname = argv[i] + 5;] *)
Definition strip_user (name : list Z) : list Z :=
  if bool_decide (take 5 name = bytes_of "user/") then drop 5 name else name.

(** One input file: its name and what the host answers. *)
Definition add_file (rootino : Z) (f : list Z * option (list (list Z))) : M unit :=
  let shortname := strip_user f.1 in
  do! assert (negb (bool_decide (47 ∈ shortname)));
  match f.2 with
  | None => die
  | Some chunks =>
    let shortname := if hd 0 shortname =? 95 then drop 1 shortname else shortname in
    let! inum := ialloc T_FILE in
    do! iappend rootino (dirent inum shortname);
    append_chunks inum chunks
  end.

Fixpoint add_files (rootino : Z) (fs : list (list Z * option (list (list Z)))) : M unit :=
  match fs with [] => mret tt | f :: fs => do! add_file rootino f; add_files rootino fs end.

(** [main] from the point where the image has been opened. *)
Definition main (files : list (list Z * option (list (list Z)))) : M unit :=
  do! zero_sectors (Z.to_nat FSSIZE) 0;
  do! wsect 1 sb_block;
  let! rootino := ialloc T_DIR in
  do! assert (rootino =? ROOTINO);
  do! iappend rootino (dirent rootino (bytes_of "."));
  do! iappend rootino (dirent rootino (bytes_of ".."));
  do! add_files rootino files;
  let! din := rinode rootino in
  do! winode rootino (set_isize (u32 ((i_size din / BSIZE + 1) * BSIZE)) din);
  fun s => balloc (freeblock s) s.

Definition mkst0 : mkst := mkmk ∅ 1 nmeta.

(** ** The bitmap and the superblock, as the kernel reads them *)

Lemma mark_spec n i buf b :
  0 <= i -> i + Z.of_nat n <= 8 * Z.of_nat (length buf) -> 0 <= b ->
  bit_used (mark n i buf) b = (i <=? b) && (b <? i + Z.of_nat n) || bit_used buf b.
Proof.
  revert i buf. induction n as [|n IH]; intros i buf Hi Hn Hb; cbn [mark].
  - destruct (Z.leb_spec i b), (Z.ltb_spec b (i + Z.of_nat 0)); simpl; try done; lia.
  - rewrite IH, bit_used_set; [|unfold in_map; lia|done|lia|rewrite length_set_bit; lia|done].
    destruct (Z.eqb_spec b i) as [->|].
    + destruct (Z.leb_spec i i), (Z.ltb_spec i (i + Z.of_nat (S n))); lia.
    + destruct (Z.leb_spec (i + 1) b), (Z.ltb_spec b (i + 1 + Z.of_nat n)), (Z.leb_spec i b),
        (Z.ltb_spec b (i + Z.of_nat (S n))); simpl; try done; lia.
Qed.

Lemma length_zero_block : Z.of_nat (length zero_block) = BSIZE.
Proof. unfold zero_block. rewrite length_replicate. reflexivity. Qed.

(** In the bitmap that [balloc] writes the kernel finds exactly the blocks
    below [used] in use, so that its own search for a free block starts with
    [used]; with [used] too large for one block [balloc] stops. *)
Theorem balloc_bitmap used s :
  0 <= used -> (BSIZE * 8 <= used /\ balloc used s = Assert) \/
  exists s', balloc used s = MOk tt s' /\
    let map := dget (img s') (sb_bmapstart sb) in
    (forall b, 0 <= b -> bit_used map b = (b <? used)) /\
    find_clear (Z.to_nat BPB) map 0 FSSIZE 0 = (if used <? FSSIZE then Some used else None) /\
    (forall b, b <> sb_bmapstart sb -> dget (img s') b = dget (img s) b).
Proof.
  intros Hu. unfold balloc, assert, mbind. destruct (Z.ltb_spec used (BSIZE * 8)) as [Hlt|]; [right|by left].
  eexists. split; [reflexivity|]. cbn [img].
  assert (E : dget (<[sb_bmapstart sb := mark (Z.to_nat used) 0 zero_block]> (img s)) (sb_bmapstart sb) =
    mark (Z.to_nat used) 0 zero_block) by (unfold dget; by rewrite lookup_insert_eq).
  rewrite E. clear E.
  assert (Hb : forall b, 0 <= b -> bit_used (mark (Z.to_nat used) 0 zero_block) b = (b <? used)).
  { intros b Hb. rewrite mark_spec; [|lia|rewrite length_zero_block; lia|done]. rewrite bit_used_zero, orb_false_r.
    destruct (Z.leb_spec 0 b), (Z.ltb_spec b (0 + Z.of_nat (Z.to_nat used))), (Z.ltb_spec b used); simpl; try done; lia. }
  assert (HB : BPB = BSIZE * 8 /\ FSSIZE < BPB) by (split; reflexivity).
  split; [done|]. split.
  - destruct (find_clear _ _ 0 FSSIZE 0) as [r|] eqn:E.
    + apply find_clear_Some in E as (H1 & H2 & H3 & H4 & H5). rewrite Hb in H4 by done. apply Z.ltb_ge in H4.
      destruct (decide (used < r)) as [Hr|Hr].
      * specialize (H5 used ltac:(lia)). rewrite Hb in H5 by done. apply Z.ltb_lt in H5. lia.
      * assert (r = used) as -> by lia. by destruct (Z.ltb_spec used FSSIZE); [|lia].
    + destruct (Z.ltb_spec used FSSIZE) as [Hf|]; [|done].
      pose proof (find_clear_None _ _ _ _ _ E ltac:(lia) used ltac:(lia) ltac:(lia)) as H.
      rewrite Hb in H by done. apply Z.ltb_lt in H. lia.
  - intros b Hne. unfold dget. by rewrite lookup_insert_ne.
Qed.

Lemma balloc_bitmap_witness : exists s',
  balloc 71 mkst0 = MOk tt s' /\
  find_clear (Z.to_nat BPB) (dget (img s') (sb_bmapstart sb)) 0 FSSIZE 0 = Some 71.
Proof.
  destruct (balloc_bitmap 71 mkst0 ltac:(lia)) as [[H _]|(s' & R & _ & H & _)].
  - exfalso. revert H. vm_compute. congruence.
  - exists s'. split; [exact R|exact H].
Defined.

(** The kernel reads the superblock that [main] wrote. *)
Example superblock_read : sb_of sb_block = sb /\ length sb_block = Z.to_nat BSIZE.
Proof. split; reflexivity. Qed.

(** An image with one program: the root directory has the entries [.], [..]
    and [cat], its size is rounded up to a block, and the next free block is
    the one after the two that were used. *)
Definition demo_files : list (list Z * option (list (list Z))) :=
  [(bytes_of "user/_cat", Some [[127; 69; 76; 70]])].

Example mkfs_demo :
  match main demo_files mkst0 with
  | MOk _ s =>
    let root := load_dinode (dip ROOTINO) (dget (img s) (IBLOCK ROOTINO sb)) inode0 in
    let prog := load_dinode (dip 2) (dget (img s) (IBLOCK 2 sb)) inode0 in
    i_type root = T_DIR /\ i_size root = BSIZE /\ iaddr root 0 = nmeta /\
    take 48 (dget (img s) nmeta) = dirent 1 (bytes_of ".") ++ dirent 1 (bytes_of "..") ++ dirent 2 (bytes_of "cat") /\
    i_size prog = 4 /\ take 4 (dget (img s) (iaddr prog 0)) = [127; 69; 76; 70] /\
    freeblock s = nmeta + 2
  | _ => False
  end.
Proof. vm_compute. repeat split. Qed.
